(* ===== verification/_CoqProject ===== *)
-Q . S2P
Prelude.v
GoStrings.v
Utf8.v
GoPath.v
GoUrl.v
GoRegexp.v
Errs.v
CliFrame.v
CliRouter.v
App.v
Metadata.v
Middleware.v
JwtAuth.v
RateLimit.v
MemoryLimiter.v
HttpCore.v
HttpContext.v
HttpServer.v
HttpGate.v
HttpCors.v
HttpFs.v
HttpStatic.v
HttpClient.v
HttpRequest.v
HttpMethod.v
McpServer.v
GrpcServer.v
Registry.v
Resolver.v
TokenStore.v
CliSerialize.v
CliServer.v
CliClient.v
NetAddr.v
Options.v
Lifecycle.v
AppBuild.v
Discovery.v
Announce.v
Cache.v
RedisCache.v
NatsBroker.v
BytePool.v
GoHeap.v
MemCache.v
DbCache.v
AdminClaims.v
PermissionChecker.v
Gorm.v
UserModel.v
RoleModel.v
AuditLog.v
Menus.v
Derive.v
Manifest.v
VueGen.v
WireGen.v
ApiPath.v
ApiGen.v
ApiFiles.v
Scaffold.v
AeusCmd.v
SyncWeb.v
Telemetry.v
AdminHttp.v
AdminApi.v
MenuService.v
AuthService.v
TenantScope.v
Endpoints.v
SecurityGuards.v
UserService.v
RoleService.v
Dashboard.v
Validators.v
Messages.v
Seed.v
Setup.v
ServiceOptions.v
Mock.v
