(* ===== verification/Prelude.v ===== *)
(** * A verification library for aeus

    aeus is a Go toolkit for services ([transport/], [middleware/], [pkg/],
    [infra/]) with an administration back end ([admin/]): accounts, roles, menus and
    permissions of several tenants behind an HTTP interface, a command line served
    over a binary protocol, and read-through caches over the database.  This library
    models the parts whose behaviour is their own logic and proves what makes them
    correct.

    ** The program and the files of this library

    Values and errors
    - [Prelude] (this file): results of fallible Go functions, their bind, generic
      list lemmas, the hint database [aeus].
    - [GoStrings]: the functions of [strings] and [strconv] the program uses, on byte
      strings, with their lemmas (hint database [gostr]).  [Utf8]: decoding of runes.
      [GoPath]: [path.Clean] and [path.Join], with the lemmas on rooted clean paths.
      [GoUrl]: the values of a query and their encoding.  [GoRegexp]: patterns, matched
      with derivatives.
    - [Errs]: [pkg/errs], [pkg/response]: coded errors, sentinels with identity,
      wrapping, [Is]/[As], the HTTP and gRPC status tables, the response envelope.

    The life of a service
    - [App]: [app.go]: injection, the start in order and its undoing, the run until
      the first failure or signal, and the stop of every server.  [AppBuild]: its
      options, what it tells the registry about itself, the heartbeat.
    - [Options]: what each option of the servers, the clients and the administration
      module sets.  [NetAddr]: the address a server tells others ([pkg/netutil]).
    - [Lifecycle]: start, stop and the listeners of the HTTP, gRPC and CLI servers, as
      goroutines that interleave.
    - [Telemetry]: [infra/logger], [infra/telemetry]: structured logs, spans and how a
      trace crosses from a client to a server, the recorder of metrics.

    The request path
    - [Metadata]: [metadata/]: a mutable object behind a context, so a heap of
      objects and pointers into it; readers and writers teed to a transport.
    - [Middleware]: [middleware/middleware.go]: handlers as state transformers, their
      chain, the metrics middleware, the abort marker.
    - [JwtAuth], [RateLimit], [MemoryLimiter]: [middleware/auth]: the JWT gate and its
      allowlist language, the rate limiting middleware against any limiter, the
      in-memory limiter with its token buckets in binary floating point.
    - [HttpCore], [HttpServer]: [transport/http]: the request and response of one
      exchange over the headers, contexts and replies of gin; the middleware of the
      server, the envelope of an error, and the handler of a route.
    - [HttpGate], [HttpCors], [HttpFs], [HttpStatic]: the JWT gate in front of a
      route, the cross-origin headers, the file system of static files and the
      middleware that serves from it.
    - [HttpContext]: the objects that requests borrow from pools, and the compression of
      what is served.
    - [McpServer]: [transport/http/mcpserver]: the MCP endpoint and who may call it.
    - [HttpClient], [HttpRequest], [HttpMethod]: [pkg/httpclient]: the client and the
      objects of net/http behind its pointers, the execution of one request, the
      package functions and their options.
    - [GrpcServer]: [transport/grpc]: the unary and stream interceptors, the metadata
      they make and the status an error becomes on the wire.
    - [Registry], [Resolver]: [registry/etcd] and the gRPC resolver: instances under
      keys of a prefix, leases, the watcher, the addresses a client is given.
      [Discovery]: connecting and dialling, and the life of a resolver as steps.
      [Announce]: from the application that announces itself to the client that dials.
    - [CliFrame], [CliRouter], [CliSerialize], [CliServer]: [transport/cli]: the frame
      codec over byte streams, the command tree, the serializer, and one connection
      from accept to close together with the client that waits for its replies.
      [CliClient]: the two goroutines of the client, every interleaving.

    Storage
    - [Cache]: [infra/cache]: the interface [Cache] with its laws ([LawfulCache]) and
      the in-memory backend, which has them, over immutable values.  [GoHeap]: values
      of Go that share memory, and their deep copy ([clone.go]).  [MemCache]: the
      in-memory backend over such values.  [RedisCache]: [infra/cache/redis] and the
      typed view of any cache.
    - [NatsBroker]: [infra/broker/nats]: the life of a broker.  [BytePool]:
      [pkg/bytepool]: pooled slices and the memory they share.
    - [DbCache]: [admin/dbcache]: the SQL version marker and the read-through [Try],
      over a database that changes between the four instants a call reads it.
    - [Gorm]: statements on one table as an interface with laws ([Gorm],
      [GormLaws], [GormFrame], [GormSave], [GormUnscoped], [GormHard]); transactions; a
      list as an instance.
    - [TenantScope]: [admin/tenant_scope.go]: the callbacks of tenant isolation as a
      transformation of a [Gorm] instance.

    The administration back end
    - [AdminClaims]: [admin/auth]; [TokenStore]: the in-memory denylist of token ids
      with the interface [TokenStore]/[LawfulTokenStore] that [AuthService] uses.
    - [UserModel], [RoleModel], [Menus]: [admin/models]: rows, hooks and queries.
    - [PermissionChecker]: [admin/permission.go]: authorisation of one request.
    - [AuthService]: login, refresh, logout and the revocation validator.
    - [SecurityGuards]: [admin/security_guards.go] and the create hooks of
      [admin/server.go].
    - [MenuService], [UserService], [RoleService]: the RPCs of [admin/service].
      [ServiceOptions]: their options and constructors.
    - [Derive]: [admin/derive.go], [module_menu.go], [endpoint_permissions.go],
      [policy/]: names, routes and codes derived of a model; rows made once.
    - [AdminHttp]: the HTTP bindings of the services ([admin/pb]): the routes of the module, the codes
      that rule them, and an RPC behind its HTTP route.  [AdminApi]: the wrappers of all
      22 RPCs and the whole API behind its rate limit, token gate and checker.
    - [Validators], [Messages]: the validation rules of the messages of [admin/pb]; the
      messages as types with methods ([Message], [LawfulMessage]).
    - [Endpoints]: the metadata endpoints: pickers and their allowlist of columns.
    - [AuditLog]: [admin/audit.go] and its hooks: what a write leaves in the log.
    - [Dashboard]: [admin/dashboard_endpoint.go], [admin/responder.go], departments.
    - [Setup]: [admin/server.go], [setup_converge.go]: registering models and starting
      the module.  [Seed]: [admin/seed.go]: the bootstrap state.  [Mock]:
      [admin/cmd/mock]: the example server, which puts all of it together.

    The tool
    - [Manifest], [WireGen], [ApiPath], [ApiGen], [VueGen], [ApiFiles]: [cmd/aeus/gen.go],
      [api.go], [vue.go] and [admin/vue_gen.go]: the manifests, the Go file, the
      TypeScript modules and the pages made of them, and the files [aeus gen] touches.
    - [Scaffold]: [aeus new].  [AeusCmd]: the command line and its exit codes.
      [SyncWeb]: [cmd/aeus/internal/syncweb], which rebuilds a template.

    How they interact: [AuthService] issues tokens and revokes them in a
    [TokenStore]; [JwtAuth] asks its validator and puts the claims in the context
    that [AdminClaims] reads; [TenantScope] turns the claims into the scope of every
    statement; [PermissionChecker] and the services read the tables through
    [DbCache.Try], whose entries live in a [Cache]; the models' hooks keep roles,
    users and grants in step.  [HttpServer] and [GrpcServer] run the
    same handler of [Middleware] with the metadata of [Metadata] and answer with the
    codes of [Errs]; [HttpGate] puts [JwtAuth] in front of the routes that
    [AdminHttp] lists.  Clients are proved against the interfaces; the
    implementations discharge them.

    ** State and errors

    A Go value is a value here unless the program shares it: the metadata object and
    the connection table are heaps, a cache or a database is an explicit state.  A
    Go error is [error] of [Errs]; a fallible function returns [result] or a pair
    of the new state and an optional error, in the order of the Go code, so what is
    changed before an error stays changed.  A nil dereference or an index out of
    range is [None] or a constructor [Panics].  Integers have Go's width where it
    can be felt: the 16-bit lengths of a frame, its 64-bit sequence number, response
    codes.  Instants are nanoseconds.

    Code that is not in the repository is a parameter: gorm (the laws of [Gorm]),
    bcrypt, SHA-256, the JWT library, encoding/json, reflection on types, gin (the
    class [GinHost] with [GinLaws]), URLs ([NetUrl]), the metadata and the key-value store of gRPC and
    etcd, and [sort.Slice] (a rearrangement).  Each
    theorem that assumes something of such code has a witness that instantiates it.

    ** What the theorems show

    - Wire: [CliFrame.readFrame_writeFrame] and [readFrame_truncated] (frames decode
      to what was encoded, no prefix does), [CliServer.process_serves] and
      [reply_reaches_client] (requests are answered in order, each reply whole and to
      its own request, the connection always closed; what the client waits for beside the
      reply, a timer and the end of the connection), [CliClient.client_interleavings]
      and [reply_is_shown], and the limits where the code fails:
      [long_error_desynchronises], [empty_reply_never_completes].
    - Who may do what: [AdminApi.admin_api_gated] (a handler of the API runs only for a
      session route or a valid token whose account may, whatever the services do),
      [JwtAuth.JWT_gate], [PermissionChecker.checker_fail_closed],
      [AuthService.Login_gated], [refresh_once], [logout_ends_session],
      [token_types_separate], [TokenStore.one_refresh_wins],
      [SecurityGuards.guards_protect_super], [login_stays_unambiguous],
      [UserService.password_writes_authorised], [McpServer.mcp_gate].
    - HTTP and gRPC: [HttpServer.request_response] (every request is answered once, by
      the reply or by the envelope of its error), [request_metadata_trusted] (what
      the server writes in the metadata is not the client's; the client address is gin's
      answer, which by default believes forwarding headers), [AdminHttp.rpc_response] and
      the lemma [routes_ruled], [HttpGate.tokenless_request_refused],
      [HttpCors.cors_grants], [HttpFs.webroot_confined], [HttpStatic.static_or_not_found],
      [HttpContext.gzip_response], [borrowed_is_own],
      [GrpcServer.wire_error], [grpc_metadata], [grpc_refused].
    - Discovery: [Registry.discovery_exact] (a lookup of a name sees the instances of
      that name and no others), [Resolver.resolver_follows],
      [Announce.announced_is_dialled] (what is announced is what is dialled),
      [Discovery.Life.close_ends_loop], [lost_watch_spins], [Status_healthy].
    - Clients: [HttpRequest.request_course] (the callbacks in order, one request),
      [bodies_released], [request_sent] (the query is read as it was built),
      [HttpClient.clients_independent], and the limits [HttpRequest.unparsed_uri_panics],
      [HttpMethod.insecure_for_everyone].
    - Limits and pools: [MemoryLimiter.keys_isolated], [burst_exact],
      [BytePool.get_exclusive].
    - What leaves the tables and what enters them: [Endpoints.pickers_serve_readable],
      [AuditLog.hook_records], [Validators.grants_validated], [Messages.messages_lawful]
      (both modes of every message agree, errors are the message's own),
      [Dashboard.dashboard_confined], [dashboard_trend].
    - Isolation of tenants: [TenantScope.tenant_isolation] (a handler under a tenant
      refines the same handler on a private table), [UserService.visible_menus_isolated].
    - Caches: [DbCache.Try_fresh] (an answer is no older than the cache duration, and no
      older than the grace window where the marker moves with every write) and the
      lemma [Try_bounded_age], from which [MenuService.MenuTree_serves]
      and [MenuBreadcrumb_serves] take the age of what they serve;
      [MemCache.memory_cache_refines] (shared values behave as immutable ones) and
      [GoHeap.clone_terminates]; [RedisCache.redis_roundtrip], [redis_prefixes_apart];
      [Options.MemoryCache.NewCache_items];
      [Mock.shared_cache_apart]; [NatsBroker.broker_refines].
    - Consistency of the tables: [UserModel.password_lifecycle],
      [RoleModel.rename_cascades], [delete_detaches],
      [RoleService.ReplaceRolePermissions_spec].
    - Start and stop: [Setup.Setup_converges] and [Seed.Seed_converges] (from any
      database to the catalog and the bootstrap state), [Mock.loader_ready],
      [ServiceOptions.NewAuthService_built], [services_share],
      [App.preStart_all_or_nothing], [App.run_stops_everything] (with [endTask] and [env_step] apart, so that the run is not
      taken to end by itself),
      [AppBuild.build_announces], [heartbeat_in_time],
      [Lifecycle.HttpLife.http_stop_ends_start] and its like for the other servers.
    - The tool: [ApiFiles.gen_then_check], [AeusCmd.gen_check_exits] (a check after a
      run exits with 0), [ApiGen.api_imports_resolve], [WireGen.wiring_imports],
      [wiring_registers], [VueGen.pages_never_overwritten], [Scaffold.new_names],
      [new_deterministic], [new_writes_below], [SyncWeb.syncweb_rebuilds],
      [sync_idempotent].
    - Traces: [Telemetry.inject_extract], [grpc_trace_continues],
      [http_trace_starts_anew], [logs_carry_trace].
    - Languages and tables: [CliRouter.Handle_then_Lookup], [Handle_invariant],
      [JwtAuth.isAllowed_spec], [Errs.transport_statuses_agree], [RateLimit.itoa_roundtrip],
      [CliSerialize.printArray_rectangular], [serializeArray_is_JSON],
      [Metadata.MergeContext_correct].

    ** Bounds and fuel

    [RateLimit.itoa] has 64 steps of fuel: an int64 has at most 19 digits.
    [Menus.walkUp] has one step per row and a spare one, [Menus.BuildTree] one level
    per row and a spare one: a walk visits distinct components
    ([Menus.walkUp_spec]) and a row with ancestors has distinct ones
    ([Menus.depth_bound]), so neither runs out; the services' theorems state the
    results, not their absence.  The loops of the frame reader and of the connection
    follow their input.  [HttpFs.Open] opens at most two names ([Open_total]: it always
    answers).  [MemoryLimiter.burst_exact] is computed for capacities up to 256.
    [GoHeap.clone] is given a bound on its depth; [clone_terminates]: some bound is
    enough, and every larger one gives the same.  [Manifest.freshName] tries one name more than
    are taken ([freshName_fresh]: it finds one).  [Scaffold.Replacer] has one step per byte
    ([replacerFuel_enough]); [findCheckout] has one step per byte of the path.  The
    channels of the CLI client hold as many replies as the code makes them for.

    The manifest lists the principal theorems; the others named here are proved in
    their files all the same.

    ** What is not modelled

    - The web front end, the templates and the documents, which are not Go; the message
      types and descriptors that protoc-gen-go generates (data and reflection tables),
      of which the validators and the HTTP bindings are modelled.
    - gin, grpc, etcd, nats, redis, gorm, the REST library, bcrypt, the JWT library and
      OpenTelemetry: parameters with laws.  Sockets, timeouts of the operating system and
      the profiling handlers behind them.
    - The interior of [fmt] verbs other than the plain ones used in errors and keys, the
      formatting of times, TLS configuration values (carried, not interpreted).
    - One-line accessors ([Engine], [Gin], [Topic] and the like), the registration of
      one path per HTTP verb, which [HttpCore.register] covers, and what the tools print.
    - Rows that are created keep the key they were given (the database would draw one):
      no theorem selects a row by the key of a row created in the same run. *)

From Stdlib Require Import ZArith Lia String Ascii List.
From stdpp Require Import base tactics list gmap strings.

#[export] Set Default Goal Selector "!".

Create HintDb aeus.

Declare Scope aeus_scope.
Delimit Scope aeus_scope with aeus.

(** ** Go results: a value or an error *)

Inductive result (E A : Type) : Type :=
| Ok (a : A)
| Err (e : E).
Arguments Ok {E A} a.
Arguments Err {E A} e.

Definition rbind {E A B : Type} (m : result E A) (k : A -> result E B) : result E B :=
  match m with
  | Ok a => k a
  | Err e => Err e
  end.

Definition is_ok {E A : Type} (m : result E A) : bool :=
  match m with Ok _ => true | Err _ => false end.

Notation "'let!' x ':=' m 'in' k" := (rbind m (fun x => k))
  (at level 10, x pattern, m at level 100, k at level 200) : aeus_scope.
#[export] Hint Unfold rbind : aeus.

Lemma rbind_Ok {E A B : Type} (m : result E A) (k : A -> result E B) (b : B) :
  rbind m k = Ok b <-> exists a, m = Ok a /\ k a = Ok b.
Proof.
  destruct m as [a|e]; simpl; split; [eauto | by intros (? & [= <-] & ?) | done | by intros (? & ? & _)].
Qed.

Lemma rbind_Err {E A B : Type} (m : result E A) (k : A -> result E B) (e : E) :
  rbind m k = Err e <-> m = Err e \/ exists a, m = Ok a /\ k a = Err e.
Proof.
  destruct m as [a|e']; simpl; split; [eauto | by intros [?|(? & [= <-] & ?)] | | ].
  - intros [= ->]. by left.
  - by intros [[= ->]|(? & ? & _)].
Qed.

(** ** Machine integers: a w-bit value is a [Z] and every store wraps *)

Definition wrapu (w : Z) (z : Z) : Z := z mod 2 ^ w.
Definition wraps (w : Z) (z : Z) : Z := (z + 2 ^ (w - 1)) mod 2 ^ w - 2 ^ (w - 1).

Definition uint16 (z : Z) : Z := wrapu 16 z.
Definition int64 (z : Z) : Z := wraps 64 z.

Definition MaxInt16 : Z := 32767.
Definition MaxUint16 : Z := 65535.
Definition MaxInt64 : Z := 9223372036854775807.

Definition in_u (w z : Z) : Prop := (0 <= z < 2 ^ w)%Z.
Definition in_s (w z : Z) : Prop := (- 2 ^ (w - 1) <= z < 2 ^ (w - 1))%Z.

Lemma wrapu_id (w z : Z) : in_u w z -> wrapu w z = z.
Proof. apply Z.mod_small. Qed.

Lemma wrapu_range (w z : Z) : (0 <= w)%Z -> in_u w (wrapu w z).
Proof. intros Hw. apply Z.mod_pos_bound, Z.pow_pos_nonneg; lia. Qed.

Lemma wraps_id (w z : Z) : (1 <= w)%Z -> in_s w z -> wraps w z = z.
Proof.
  intros Hw [H1 H2]. unfold wraps.
  assert (2 ^ w = 2 * 2 ^ (w - 1))%Z as Hp.
  { replace w with (Z.succ (w - 1)) at 1 by lia. rewrite Z.pow_succ_r; lia. }
  rewrite Z.mod_small; lia.
Qed.

Lemma wraps_wrapu (w z : Z) : (1 <= w)%Z -> wraps w (wrapu w z) = wraps w z.
Proof.
  intros Hw. unfold wraps, wrapu.
  rewrite Z.add_mod_idemp_l; [done|]. pose proof (Z.pow_pos_nonneg 2 w). lia.
Qed.

#[export] Hint Resolve wrapu_id wraps_id wrapu_range : aeus.

(** ** Lists *)

Lemma take_drop_app_length {A : Type} (l k : list A) :
  take (length l) (l ++ k) = l /\ drop (length l) (l ++ k) = k.
Proof. split; [apply take_app_length | apply drop_app_length]. Qed.

Lemma filter_all {A : Type} (p : A -> bool) (l : list A) :
  (forall x, In x l -> p x = true) -> List.filter p l = l.
Proof.
  induction l as [|x l IH]; cbn; [done|]. intros Hp. rewrite Hp by auto. f_equal. apply IH. auto.
Qed.

Lemma filter_none {A : Type} (p : A -> bool) (l : list A) :
  (forall x, In x l -> p x = false) -> List.filter p l = [].
Proof. induction l as [|x l IH]; cbn; [done|]. intros Hp. rewrite Hp by auto. apply IH. auto. Qed.

Lemma filter_twice {A : Type} (p q : A -> bool) (l : list A) :
  (forall x, q x = true -> p x = true) -> List.filter q (List.filter p l) = List.filter q l.
Proof.
  intros Hpq. induction l as [|x l IH]; cbn; [done|]. destruct (p x) eqn:E; cbn; [by rewrite IH|].
  destruct (q x) eqn:Eq; [|done]. apply Hpq in Eq. congruence.
Qed.

(** ** Automation *)

(** An equation between closed terms, evaluated once, by the kernel. *)
Ltac vm_eq := match goal with |- _ = ?b => vm_cast_no_check (eq_refl b) end.

(** Case analysis on the scrutinee of the innermost [match] of the goal. *)
Ltac case_goal :=
  match goal with
  | |- context [match ?x with _ => _ end] =>
      lazymatch x with
      | context [match _ with _ => _ end] => fail
      | _ => let E := fresh "E" in destruct x eqn:E
      end
  end.

(** The same for a hypothesis. *)
Ltac case_hyp H :=
  match type of H with
  | context [match ?x with _ => _ end] =>
      lazymatch x with
      | context [match _ with _ => _ end] => fail
      | _ => let E := fresh "E" in destruct x eqn:E
      end
  end.
