(* ===== verification/GoStrings.v ===== *)
(** The functions of Go's [strings] and [strconv] packages that aeus calls, as
    executable functions on [string], read as a sequence of bytes (which is
    what a Go string is).  White space is the Unicode White_Space set in its
    UTF-8 encoding; the case mappings act on ASCII letters and leave every other
    byte alone. *)

From Stdlib Require Import ZArith Lia String Ascii List Bool.
From stdpp Require Import base tactics list strings.
From S2P Require Import Prelude.

Create Rewrite HintDb gostr.

Local Open Scope string_scope.
Local Open Scope list_scope.
#[global] Arguments String.append _ _ : simpl nomatch.
Local Open Scope aeus_scope.

(** [strings.HasPrefix] / [strings.CutPrefix] *)
Fixpoint cutPrefix (s p : string) {struct p} : option string :=
  match p, s with
  | EmptyString, _ => Some s
  | String a p', String b s' => if Ascii.eqb a b then cutPrefix s' p' else None
  | String _ _, EmptyString => None
  end.

Definition HasPrefix (s p : string) : bool :=
  match cutPrefix s p with Some _ => true | None => false end.

Definition TrimPrefix (s p : string) : string :=
  match cutPrefix s p with Some r => r | None => s end.

(** [strings.CutSuffix] *)
Fixpoint cutSuffix (s p : string) : option string :=
  if String.eqb s p then Some EmptyString
  else match s with
       | EmptyString => None
       | String a s' => match cutSuffix s' p with
                        | Some r => Some (String a r)
                        | None => None
                        end
       end.

Definition HasSuffix (s p : string) : bool :=
  match cutSuffix s p with Some _ => true | None => false end.

Definition TrimSuffix (s p : string) : string :=
  match cutSuffix s p with Some r => r | None => s end.

(** The byte at an index; Go panics out of range, callers guard it. *)
Definition byteAt (s : string) (i : nat) : option ascii := String.get i s.

Fixpoint lastByte (s : string) : option ascii :=
  match s with
  | EmptyString => None
  | String a EmptyString => Some a
  | String _ s' => lastByte s'
  end.

(** [s[:len(s)-1]] *)
Fixpoint dropLast (s : string) : string :=
  match s with
  | EmptyString => EmptyString
  | String _ EmptyString => EmptyString
  | String a s' => String a (dropLast s')
  end.

(** Split at the first occurrence of a byte: the text before it and the text
    after it ([strings.IndexByte] with the two slices the callers take). *)
Fixpoint cutByte (s : string) (c : ascii) : option (string * string) :=
  match s with
  | EmptyString => None
  | String a s' =>
      if Ascii.eqb a c then Some (EmptyString, s')
      else match cutByte s' c with
           | Some (x, y) => Some (String a x, y)
           | None => None
           end
  end.

(** [strings.Split(s, c)] for a one-byte separator. *)
Fixpoint SplitByte (s : string) (c : ascii) : list string :=
  match s with
  | EmptyString => [EmptyString]
  | String a s' =>
      if Ascii.eqb a c then EmptyString :: SplitByte s' c
      else match SplitByte s' c with
           | [] => [String a EmptyString]
           | x :: xs => String a x :: xs
           end
  end.

(** [strings.Join] *)
Fixpoint Join (l : list string) (sep : string) : string :=
  match l with
  | [] => EmptyString
  | [x] => x
  | x :: xs => x +:+ sep +:+ Join xs sep
  end.

(** [strings.Repeat] *)
Fixpoint Repeat (s : string) (n : nat) : string :=
  match n with
  | O => EmptyString
  | S n' => s +:+ Repeat s n'
  end.

Definition is_upper (a : ascii) : bool :=
  let n := nat_of_ascii a in (65 <=? n)%nat && (n <=? 90)%nat.
Definition is_lower (a : ascii) : bool :=
  let n := nat_of_ascii a in (97 <=? n)%nat && (n <=? 122)%nat.
Definition is_digit (a : ascii) : bool :=
  let n := nat_of_ascii a in (48 <=? n)%nat && (n <=? 57)%nat.

Definition lowerByte (a : ascii) : ascii :=
  if is_upper a then ascii_of_nat (nat_of_ascii a + 32) else a.
Definition upperByte (a : ascii) : ascii :=
  if is_lower a then ascii_of_nat (nat_of_ascii a - 32) else a.

Fixpoint mapBytes (f : ascii -> ascii) (s : string) : string :=
  match s with
  | EmptyString => EmptyString
  | String a s' => String (f a) (mapBytes f s')
  end.

Definition ToLower : string -> string := mapBytes lowerByte.
Definition ToUpper : string -> string := mapBytes upperByte.

(** ** White space *)

Definition byteN (a : ascii) : nat := nat_of_ascii a.

Definition asciiSpace (n : nat) : bool :=
  (n =? 9)%nat || (n =? 10)%nat || (n =? 11)%nat || (n =? 12)%nat || (n =? 13)%nat || (n =? 32)%nat.

(** Two- and three-byte UTF-8 encodings of the Unicode white space. *)
Definition space2 (a b : nat) : bool := (a =? 194)%nat && ((b =? 133)%nat || (b =? 160)%nat).
Definition space3 (a b c : nat) : bool :=
  ((a =? 225)%nat && (b =? 154)%nat && (c =? 128)%nat)
  || ((a =? 226)%nat && (b =? 128)%nat
        && (((128 <=? c)%nat && (c <=? 138)%nat) || (c =? 168)%nat || (c =? 169)%nat || (c =? 175)%nat))
  || ((a =? 226)%nat && (b =? 129)%nat && (c =? 159)%nat)
  || ((a =? 227)%nat && (b =? 128)%nat && (c =? 128)%nat).

(** [Some rest] when [s] starts with one white-space rune. *)
Definition skipSpace (s : string) : option string :=
  match s with
  | EmptyString => None
  | String a s1 =>
      if asciiSpace (byteN a) then Some s1
      else match s1 with
           | EmptyString => None
           | String b s2 =>
               if space2 (byteN a) (byteN b) then Some s2
               else match s2 with
                    | EmptyString => None
                    | String c s3 =>
                        if space3 (byteN a) (byteN b) (byteN c) then Some s3 else None
                    end
           end
  end.

Fixpoint trimLeftFuel (n : nat) (s : string) : string :=
  match n with
  | O => s
  | S n' => match skipSpace s with Some r => trimLeftFuel n' r | None => s end
  end.
Definition TrimLeftSpace (s : string) : string := trimLeftFuel (String.length s) s.

(** [all_space s]: the whole of [s] is white space. *)
Definition all_space (s : string) : bool :=
  match TrimLeftSpace s with EmptyString => true | _ => false end.

Fixpoint TrimRightSpace (s : string) : string :=
  if all_space s then EmptyString
  else match s with
       | EmptyString => EmptyString
       | String a s' => String a (TrimRightSpace s')
       end.

Definition TrimSpace (s : string) : string := TrimRightSpace (TrimLeftSpace s).

(** [strings.Fields]; [cur] is the field being read, reversed. *)
Definition flushField (cur : string) (rest : list string) : list string :=
  match cur with EmptyString => rest | _ => cur :: rest end.

Fixpoint fieldsFuel (n : nat) (cur s : string) : list string :=
  match n with
  | O => flushField cur []
  | S n' =>
      match skipSpace s with
      | Some r => flushField cur (fieldsFuel n' EmptyString r)
      | None =>
          match s with
          | EmptyString => flushField cur []
          | String a s' => fieldsFuel n' (cur +:+ String a EmptyString) s'
          end
      end
  end.
Definition Fields (s : string) : list string := fieldsFuel (S (String.length s)) EmptyString s.

(** [strings.ReplaceAll(s, old, new)] for a non-empty [old]: the occurrences from
    left to right, never inside a replacement. *)
Fixpoint replaceFuel (n : nat) (s old new : string) : string :=
  match n with
  | O => s
  | S n' =>
      match cutPrefix s old with
      | Some r => new +:+ replaceFuel n' r old new
      | None => match s with
                | EmptyString => EmptyString
                | String a s' => String a (replaceFuel n' s' old new)
                end
      end
  end.
Definition ReplaceAll (s old new : string) : string := replaceFuel (S (String.length s)) s old new.

(** [strconv.ParseInt(s, 10, 64)] on an unsigned numeral: digits only. *)
Fixpoint parseDigits (acc : Z) (s : string) : option Z :=
  match s with
  | EmptyString => Some acc
  | String a s' => if is_digit a then parseDigits (acc * 10 + (Z.of_nat (nat_of_ascii a) - 48))%Z s' else None
  end.
Definition parseDecimal (s : string) : option Z :=
  match s with EmptyString => None | _ => parseDigits 0 s end.

(** [%q] of a text with nothing to escape. *)
Definition quote (s : string) : string := let q := String (ascii_of_nat 34) EmptyString in q +:+ s +:+ q.

(** [strings.Contains] *)
Fixpoint Contains (s sub : string) : bool :=
  HasPrefix s sub || match s with String _ s => Contains s sub | EmptyString => false end.

(** ** Lemmas *)

Lemma append_nil_r (s : string) : s +:+ EmptyString = s.
Proof. induction s as [|a s IH]; simpl; congruence. Qed.

Lemma append_assoc (s t u : string) : (s +:+ t) +:+ u = s +:+ (t +:+ u).
Proof. induction s as [|a s IH]; simpl; congruence. Qed.

Lemma length_append (s t : string) : String.length (s +:+ t) = String.length s + String.length t.
Proof. induction s as [|a s IH]; simpl; congruence. Qed.

Lemma append_inj_l (s t u : string) : s +:+ t = s +:+ u -> t = u.
Proof. induction s as [|a s IH]; simpl; [done|]. intros [=]. auto. Qed.

#[export] Hint Rewrite append_nil_r append_assoc length_append : gostr.

Lemma cutPrefix_Some (s p r : string) : cutPrefix s p = Some r <-> s = p +:+ r.
Proof.
  revert s; induction p as [|a p IH]; intros s; simpl.
  - split; [by intros [= ->] | by intros ->].
  - destruct s as [|b s]; [done|].
    destruct (Ascii.eqb_spec a b) as [->|Hne].
    + rewrite IH. split; [by intros -> | by intros [= ->]].
    + split; [done | intros [= -> _]; done].
Qed.

Lemma HasPrefix_spec (s p : string) : HasPrefix s p = true <-> exists r, s = p +:+ r.
Proof.
  unfold HasPrefix. destruct (cutPrefix s p) as [r|] eqn:E.
  - split; [|done]. intros _. exists r. by apply cutPrefix_Some.
  - split; [done|]. intros [r Hr]. apply cutPrefix_Some in Hr. congruence.
Qed.

Lemma cutPrefix_app (p r : string) : cutPrefix (p +:+ r) p = Some r.
Proof. by apply cutPrefix_Some. Qed.

Lemma cutSuffix_Some (s p r : string) : cutSuffix s p = Some r <-> s = r +:+ p.
Proof.
  revert r; induction s as [|a s IH]; intros r.
  - simpl. destruct p as [|b p]; simpl.
    + destruct r; simpl; split; congruence.
    + destruct r; simpl; split; congruence.
  - cbn [cutSuffix]. destruct (String.eqb_spec (String a s) p) as [Heq|Hne].
    + split; [intros [= <-]; done|]. intros H. subst p.
      destruct r as [|b r]; [done|]. exfalso.
      apply (f_equal String.length) in H. simpl in H. rewrite length_append in H. simpl in H. lia.
    + assert (forall r0, String a s = r0 +:+ p -> exists r1, r0 = String a r1 /\ cutSuffix s p = Some r1) as Hr.
      { intros [|b r0] H; simpl in H; [congruence|]. injection H as -> H. exists r0.
        split; [done|]. by apply IH. }
      destruct (cutSuffix s p) as [r'|].
      * split; [intros [= <-]; simpl; f_equal; by apply IH|].
        intros H. by destruct (Hr _ H) as (r1 & -> & [= ->]).
      * split; [done|]. intros H. by destruct (Hr _ H) as (r1 & _ & ?).
Qed.

Lemma cutByte_Some (s x y : string) (c : ascii) :
  cutByte s c = Some (x, y) -> s = x +:+ String c y.
Proof.
  revert x y; induction s as [|a s IH]; intros x y; simpl; [done|].
  destruct (Ascii.eqb_spec a c) as [->|Hne]; [naive_solver|].
  destruct (cutByte s c) as [[x' y']|]; [|done].
  intros [= <- <-]. simpl. f_equal. auto.
Qed.

(** [c] does not occur in [s]. *)
Fixpoint byte_free (c : ascii) (s : string) : bool :=
  match s with
  | EmptyString => true
  | String a s' => negb (Ascii.eqb a c) && byte_free c s'
  end.

Lemma cutByte_None (s : string) (c : ascii) : cutByte s c = None <-> byte_free c s = true.
Proof.
  induction s as [|a s IH]; simpl; [done|].
  destruct (Ascii.eqb_spec a c) as [->|Hne]; simpl; [done|].
  rewrite <- IH. destruct (cutByte s c) as [[]|]; naive_solver.
Qed.

Lemma cutByte_app (x y : string) (c : ascii) :
  byte_free c x = true -> cutByte (x +:+ String c y) c = Some (x, y).
Proof.
  induction x as [|a x IH]; simpl; [by rewrite Ascii.eqb_refl|].
  destruct (Ascii.eqb_spec a c) as [->|Hne]; simpl; [done|]. intros H. by rewrite IH.
Qed.

Lemma SplitByte_free (s : string) (c : ascii) : byte_free c s = true -> SplitByte s c = [s].
Proof.
  induction s as [|a s IH]; simpl; [done|].
  destruct (Ascii.eqb_spec a c) as [->|Hne]; simpl; [done|]. intros H. by rewrite IH.
Qed.

Lemma SplitByte_cons (x y : string) (c : ascii) :
  byte_free c x = true -> SplitByte (x +:+ String c y) c = x :: SplitByte y c.
Proof.
  induction x as [|a x IH]; simpl; [by rewrite Ascii.eqb_refl|].
  destruct (Ascii.eqb_spec a c) as [->|Hne]; simpl; [done|]. intros H. by rewrite IH.
Qed.

(** Splitting a joined list gives it back when no element holds the separator. *)
Lemma SplitByte_Join (l : list string) (c : ascii) :
  l <> [] -> Forall (fun s => byte_free c s = true) l ->
  SplitByte (Join l (String c EmptyString)) c = l.
Proof.
  intros Hne Hall. induction Hall as [|x l Hx Hall IH]; [done|].
  destruct l as [|y l]; simpl.
  - by apply SplitByte_free.
  - change (String c EmptyString +:+ Join (y :: l) (String c EmptyString))
      with (String c (Join (y :: l) (String c EmptyString))).
    rewrite SplitByte_cons by done. f_equal. by apply IH.
Qed.

Lemma lowerByte_idem (a : ascii) : lowerByte (lowerByte a) = lowerByte a.
Proof. destruct a as [[] [] [] [] [] [] [] []]; vm_compute; reflexivity. Qed.

Lemma ToLower_idem (s : string) : ToLower (ToLower s) = ToLower s.
Proof.
  unfold ToLower. induction s as [|a s IH]; simpl; [done|]. by rewrite lowerByte_idem, IH.
Qed.

Lemma lastByte_app (x y : string) : y <> EmptyString -> lastByte (x +:+ y) = lastByte y.
Proof.
  intros Hy. induction x as [|a x IH]; simpl; [done|]. rewrite IH.
  destruct (x +:+ y) eqn:E; [|done]. destruct x; simpl in E; by subst.
Qed.

Lemma lastByte_free (c : ascii) (s : string) : byte_free c s = true -> lastByte s <> Some c.
Proof.
  induction s as [|a s IH]; simpl; [done|].
  destruct (Ascii.eqb_spec a c) as [->|Hne]; simpl; [done|]. intros Hs.
  destruct s; [congruence|]. by apply IH.
Qed.

Lemma TrimSuffix_noop (s : string) (c : ascii) :
  lastByte s <> Some c -> TrimSuffix s (String c EmptyString) = s.
Proof.
  intros Hl. unfold TrimSuffix. destruct (cutSuffix s (String c EmptyString)) as [r|] eqn:E; [|done].
  apply cutSuffix_Some in E. subst s. by rewrite lastByte_app in Hl.
Qed.

Lemma byteAt_last (s : string) : s <> EmptyString -> byteAt s (String.length s - 1) = lastByte s.
Proof.
  unfold byteAt. induction s as [|a s IH]; [done|]. intros _. destruct s as [|b s]; [done|].
  cbn [String.length] in *. replace (S (S (String.length s)) - 1)%nat with (S (S (String.length s) - 1)) by lia.
  cbn [String.get lastByte]. by apply IH.
Qed.

Lemma dropLast_lastByte (s : string) (c : ascii) :
  lastByte s = Some c -> s = dropLast s +:+ String c EmptyString.
Proof.
  induction s as [|a s IH]; [done|]. destruct s as [|b s]; [by intros [= ->]|].
  intros H. change (dropLast (String a (String b s))) with (String a (dropLast (String b s))).
  simpl. f_equal. by apply IH.
Qed.

Lemma substring_dropLast (s : string) : substring 0 (String.length s - 1) s = dropLast s.
Proof.
  induction s as [|a s IH]; [done|]. destruct s as [|b s]; [done|].
  cbn [String.length]. replace (S (S (String.length s)) - 1)%nat with (S (S (String.length s) - 1)) by lia.
  change (dropLast (String a (String b s))) with (String a (dropLast (String b s))).
  cbn [substring]. f_equal. apply IH.
Qed.

Lemma byteAt_app (p r : string) : byteAt (p +:+ r) (String.length p) = byteAt r 0.
Proof. unfold byteAt. induction p as [|a p IH]; [done|]. exact IH. Qed.

Lemma append_inj_r (s t u : string) : s +:+ u = t +:+ u -> s = t.
Proof.
  revert t; induction s as [|a s IH]; intros [|b t] H; [done| | |].
  - apply (f_equal String.length) in H. rewrite !length_append in H. simpl in H. lia.
  - apply (f_equal String.length) in H. rewrite !length_append in H. simpl in H. lia.
  - simpl in H. injection H as -> H. f_equal. by apply IH.
Qed.

#[export] Hint Rewrite ToLower_idem cutPrefix_app : gostr.

(** [strings.LastIndexByte] as a cut: around the last occurrence of the byte. *)
Fixpoint cutLastByte (s : string) (c : ascii) : option (string * string) :=
  match s with
  | EmptyString => None
  | String a s' =>
      match cutLastByte s' c with
      | Some (x, y) => Some (String a x, y)
      | None => if Ascii.eqb a c then Some (EmptyString, s') else None
      end
  end.

Lemma cutLastByte_app (x y : string) (c : ascii) :
  byte_free c y = true -> cutLastByte (x +:+ String c y) c = Some (x, y).
Proof.
  intros Hy. assert (cutLastByte y c = None) as Hn.
  { revert Hy. induction y as [|a y IH]; [done|]. cbn [byte_free cutLastByte].
    destruct (Ascii.eqb a c); [done|]. cbn. intros Hy. by rewrite IH. }
  induction x as [|a x IH]; cbn [String.append cutLastByte]; [by rewrite Hn, Ascii.eqb_refl|]. by rewrite IH.
Qed.

Lemma byte_free_app (c : ascii) (s t : string) : byte_free c (s +:+ t) = byte_free c s && byte_free c t.
Proof. induction s as [|a s IH]; [done|]. cbn. by rewrite IH, andb_assoc. Qed.

Lemma Contains_app (x y sub : string) : Contains (x +:+ sub +:+ y) sub = true.
Proof.
  induction x as [|a x IH].
  - cbn [String.append]. destruct (sub +:+ y) as [|a s] eqn:E; cbn [Contains]; rewrite <- E;
      assert (HasPrefix (sub +:+ y) sub = true) as -> by (apply HasPrefix_spec; by exists y); done.
  - change (String a x +:+ sub +:+ y) with (String a (x +:+ sub +:+ y)). cbn [Contains]. rewrite IH. apply orb_true_r.
Qed.
