(* ===== verification/Utf8.v ===== *)
(** Go's [unicode/utf8] on strings of bytes: the encodings, validity, counting and cuts
    at the boundary of a character. *)

From Stdlib Require Import ZArith Lia String Ascii List Bool.
From stdpp Require Import base tactics list strings.
From S2P Require Import Prelude GoStrings.

Local Open Scope string_scope.
Local Open Scope list_scope.
Local Open Scope nat_scope.
Local Open Scope aeus_scope.

(** [s[:n]] and [s[n:]] for [n] up to the length. *)
Fixpoint sliceTo (n : nat) (s : string) : string :=
  match n, s with
  | S n', String a s' => String a (sliceTo n' s')
  | _, _ => EmptyString
  end.
Fixpoint sliceFrom (n : nat) (s : string) : string :=
  match n, s with
  | S n', String _ s' => sliceFrom n' s'
  | _, _ => s
  end.

Definition inRange (lo hi : nat) (a : ascii) : bool := (lo <=? byteN a) && (byteN a <=? hi).
Definition cont (a : ascii) : bool := inRange 128 191 a.

(** The length of the encoding [s] starts with; 0 is none. *)
Definition runeLen (s : string) : nat :=
  match s with
  | EmptyString => 0
  | String a s1 =>
      if inRange 0 127 a then 1
      else match s1 with
      | EmptyString => 0
      | String b s2 =>
          if inRange 194 223 a then if cont b then 2 else 0
          else match s2 with
          | EmptyString => 0
          | String c s3 =>
              if inRange 224 239 a then
                if inRange (if byteN a =? 224 then 160 else 128) (if byteN a =? 237 then 159 else 191) b && cont c then 3 else 0
              else match s3 with
              | EmptyString => 0
              | String d _ =>
                  if inRange 240 244 a then
                    if inRange (if byteN a =? 240 then 144 else 128) (if byteN a =? 244 then 143 else 191) b && cont c && cont d
                    then 4 else 0
                  else 0
              end
          end
      end
  end.

Fixpoint validFuel (n : nat) (s : string) : bool :=
  match n, s with
  | _, EmptyString => true
  | O, _ => false
  | S n', _ => match runeLen s with O => false | k => validFuel n' (sliceFrom k s) end
  end.
Definition ValidString (s : string) : bool := validFuel (String.length s) s.

(** [utf8.RuneCountInString]: a byte that starts no encoding counts as one. *)
Fixpoint countFuel (n : nat) (s : string) : nat :=
  match n, s with
  | S n', String _ _ => S (countFuel n' (sliceFrom (Nat.max 1 (runeLen s)) s))
  | _, _ => 0
  end.
Definition RuneCountInString (s : string) : nat := countFuel (String.length s) s.

(** ** Lemmas *)

Lemma slice_app (n : nat) (s : string) : sliceTo n s +:+ sliceFrom n s = s.
Proof. revert s. induction n as [|n IH]; intros [|a s]; cbn; [done..|]. by rewrite IH. Qed.
Lemma length_sliceTo (n : nat) (s : string) : String.length (sliceTo n s) = Nat.min n (String.length s).
Proof. revert s. induction n as [|n IH]; intros [|a s]; cbn; [done..|]. by rewrite IH. Qed.
Lemma length_sliceFrom (n : nat) (s : string) : String.length (sliceFrom n s) = String.length s - n.
Proof. revert s. induction n as [|n IH]; intros [|a s]; cbn; [done..|]. by rewrite IH. Qed.
Lemma sliceTo_add (j k : nat) (s : string) : sliceTo (j + k) s = sliceTo j s +:+ sliceTo k (sliceFrom j s).
Proof.
  revert s. induction j as [|j IH]; intros s; [done|]. destruct s as [|a s]; cbn; [by destruct k|]. by rewrite IH.
Qed.
Lemma sliceFrom_exact (x y : string) : sliceFrom (String.length x) (x +:+ y) = y.
Proof. induction x as [|a x IH]; cbn; done. Qed.

Lemma runeLen_bound (s : string) : runeLen s <= 4 /\ runeLen s <= String.length s.
Proof.
  unfold runeLen. destruct s as [|a [|b [|c [|d s]]]]; cbn [String.length];
    repeat (match goal with |- context [if ?x then _ else _] => destruct x end); lia.
Qed.

(** An encoding does not look past its end. *)
Lemma runeLen_app (s t : string) : runeLen s <> 0 -> runeLen (s +:+ t) = runeLen s.
Proof.
  destruct s as [|a [|b [|c [|d s]]]]; cbn [String.append]; unfold runeLen; [done|..].
  all: destruct (inRange 0 127 a); [done|]; try done.
  all: destruct (inRange 194 223 a); [done|]; try done.
  all: destruct (inRange 224 239 a); done.
Qed.

Lemma validFuel_enough (n m : nat) (s : string) :
  String.length s <= n -> String.length s <= m -> validFuel n s = validFuel m s.
Proof.
  revert m s. induction n as [|n IH]; intros m s Hn Hm.
  - destruct s; [by destruct m|cbn in Hn; lia].
  - destruct m as [|m]; [destruct s; [done|cbn in Hm; lia]|]. cbn. destruct s as [|a s]; [done|].
    destruct (runeLen (String a s)) as [|k] eqn:E; [done|]. apply IH; rewrite length_sliceFrom; cbn in *; lia.
Qed.

Lemma ValidString_step (s : string) :
  s <> EmptyString -> ValidString s = match runeLen s with O => false | k => ValidString (sliceFrom k s) end.
Proof.
  intros Hs. unfold ValidString. destruct s as [|a s]; [done|]. cbn [String.length validFuel].
  destruct (runeLen (String a s)) as [|k] eqn:E; [done|]. apply validFuel_enough; rewrite ?length_sliceFrom; cbn; lia.
Qed.

(** One encoding in front of a valid string. *)
Lemma ValidString_cons (s t : string) : runeLen s = String.length s -> s <> EmptyString -> ValidString (s +:+ t) = ValidString t.
Proof.
  intros Hr Hs. assert (runeLen s <> 0) as Hne by (rewrite Hr; by destruct s).
  rewrite ValidString_step by (by destruct s). rewrite runeLen_app by done. rewrite Hr.
  destruct (String.length s) as [|k] eqn:E; [lia|]. rewrite <- E. by rewrite sliceFrom_exact.
Qed.

Lemma runeLen_sliceTo (s : string) : runeLen s <> 0 -> runeLen (sliceTo (runeLen s) s) = runeLen s.
Proof.
  destruct s as [|a [|b [|c [|d s]]]]; unfold runeLen at 1 3 4; [done|..].
  all: destruct (inRange 0 127 a) eqn:E1; [intros _; cbn [sliceTo]; unfold runeLen; by rewrite E1|]; try done.
  all: destruct (inRange 194 223 a) eqn:E2;
    [destruct (cont b) eqn:Eb; [intros _; cbn [sliceTo]; unfold runeLen; by rewrite E1, E2, Eb|done]|]; try done.
  all: destruct (inRange 224 239 a) eqn:E3;
    [destruct (_ && cont c) eqn:Ec; [intros _; cbn [sliceTo]; unfold runeLen; by rewrite E1, E2, E3, Ec|done]|]; try done.
  destruct (inRange 240 244 a) eqn:E4; [|done]. destruct (_ && cont d) eqn:Ed; [|done].
  intros _. cbn [sliceTo]. unfold runeLen. by rewrite E1, E2, E3, E4, Ed.
Qed.

(** Among four neighbouring cuts of a valid string one is valid. *)
Lemma valid_cut (m n : nat) (s : string) :
  String.length s <= m -> ValidString s = true -> n <= String.length s ->
  exists k, k <= n /\ n < k + 4 /\ ValidString (sliceTo k s) = true.
Proof.
  revert n s. induction m as [|m IH]; intros n s Hm Hv Hn; (destruct (decide (n < 4)) as [Hlt|Hge]; [exists 0; split; [lia|split; [lia|done]]|]); [lia|].
  assert (s <> EmptyString) as Hs by (intros ->; cbn in Hn; lia).
  rewrite ValidString_step in Hv by done. destruct (runeLen s) as [|r] eqn:Er; [done|].
  pose proof (runeLen_bound s) as [Hb1 Hb2]. rewrite Er in Hb1, Hb2.
  destruct (IH (n - S r) (sliceFrom (S r) s)) as (k & Hk1 & Hk2 & Hkv); [rewrite length_sliceFrom; lia|done|rewrite length_sliceFrom; lia|].
  exists (S r + k). split; [lia|]. split; [lia|]. rewrite sliceTo_add.
  rewrite ValidString_cons; [done| |by destruct s].
  rewrite length_sliceTo. rewrite <- Er at 1. rewrite runeLen_sliceTo by lia. lia.
Qed.

(** Between one and four bytes a character. *)
Lemma countFuel_bounds (n : nat) (s : string) :
  String.length s <= n -> countFuel n s <= String.length s /\ String.length s <= 4 * countFuel n s.
Proof.
  revert s. induction n as [|n IH]; intros s Hn; [destruct s; cbn in *; lia|]. destruct s as [|a s]; [cbn; lia|].
  change (countFuel (S n) (String a s)) with (S (countFuel n (sliceFrom (Nat.max 1 (runeLen (String a s))) (String a s)))).
  pose proof (runeLen_bound (String a s)) as [Hb1 Hb2].
  pose proof (length_sliceFrom (Nat.max 1 (runeLen (String a s))) (String a s)) as Hl.
  destruct (IH (sliceFrom (Nat.max 1 (runeLen (String a s))) (String a s))) as [H1 H2]; [rewrite Hl; cbn [String.length] in *; lia|].
  rewrite Hl in H1, H2. cbn [String.length] in *. lia.
Qed.

Lemma RuneCount_bounds (s : string) :
  RuneCountInString s <= String.length s /\ String.length s <= 4 * RuneCountInString s.
Proof. by apply countFuel_bounds. Qed.

Lemma RuneCount_zero (s : string) : RuneCountInString s = 0 <-> s = EmptyString.
Proof. split; [|by intros ->]. intros Hc. pose proof (RuneCount_bounds s) as [_ Hb]. destruct s; [done|cbn [String.length] in Hb; lia]. Qed.
