(* ===== verification/GoPath.v ===== *)
(** Slash-separated names: [strings.Trim] of one byte, what [strings.Split] gives, and
    Go's lexical [path.Clean] and [path.Join] with what a clean rooted path is. *)

From Stdlib Require Import ZArith Lia String Ascii List Bool.
From stdpp Require Import base tactics list strings.
From S2P Require Import Prelude GoStrings.

Local Open Scope string_scope.
Local Open Scope list_scope.
Local Open Scope aeus_scope.

(** ** Trim *)

Fixpoint TrimLeftByte (c : ascii) (s : string) : string :=
  match s with
  | String a s' => if Ascii.eqb a c then TrimLeftByte c s' else s
  | EmptyString => EmptyString
  end.
Fixpoint allByte (c : ascii) (s : string) : bool :=
  match s with
  | String a s' => Ascii.eqb a c && allByte c s'
  | EmptyString => true
  end.
Fixpoint TrimRightByte (c : ascii) (s : string) : string :=
  if allByte c s then EmptyString
  else match s with
       | String a s' => String a (TrimRightByte c s')
       | EmptyString => EmptyString
       end.
Definition TrimByte (c : ascii) (s : string) : string := TrimRightByte c (TrimLeftByte c s).

Lemma TrimLeftByte_spec (c : ascii) (s : string) :
  exists n, s = Repeat (String c EmptyString) n +:+ TrimLeftByte c s.
Proof.
  induction s as [|a s [n IH]]; [by exists 0%nat|]. cbn [TrimLeftByte]. destruct (Ascii.eqb_spec a c) as [->|]; [|by exists 0%nat].
  exists (S n). cbn [Repeat String.append]. by f_equal.
Qed.

Lemma allByte_spec (c : ascii) (s : string) : allByte c s = true -> exists n, s = Repeat (String c EmptyString) n.
Proof.
  induction s as [|a s IH]; [by exists 0%nat|]. cbn. intros [->%Ascii.eqb_eq Hs]%andb_true_iff. destruct (IH Hs) as [n ->]. by exists (S n).
Qed.

Lemma TrimRightByte_spec (c : ascii) (s : string) :
  exists n, s = TrimRightByte c s +:+ Repeat (String c EmptyString) n.
Proof.
  induction s as [|a s [n IH]]; [by exists 0%nat|]. cbn [TrimRightByte]. destruct (allByte c (String a s)) eqn:E.
  - by apply allByte_spec.
  - exists n. cbn [String.append]. by rewrite <- IH.
Qed.

(** Trimming takes the byte off both ends and nothing else. *)
Lemma TrimByte_spec (c : ascii) (s : string) :
  exists m n, s = Repeat (String c EmptyString) m +:+ TrimByte c s +:+ Repeat (String c EmptyString) n.
Proof.
  destruct (TrimLeftByte_spec c s) as [m Hm]. destruct (TrimRightByte_spec c (TrimLeftByte c s)) as [n Hn]. exists m, n.
  unfold TrimByte. by rewrite <- Hn.
Qed.

Lemma TrimLeftByte_repeat (c : ascii) (n : nat) (s : string) :
  TrimLeftByte c (Repeat (String c EmptyString) n +:+ s) = TrimLeftByte c s.
Proof. induction n as [|n IH]; [done|]. cbn. by rewrite Ascii.eqb_refl. Qed.

Lemma allByte_app (c : ascii) (s t : string) : allByte c (s +:+ t) = allByte c s && allByte c t.
Proof. induction s as [|a s IH]; [done|]. cbn. by rewrite IH, andb_assoc. Qed.

Lemma allByte_repeat (c : ascii) (n : nat) : allByte c (Repeat (String c EmptyString) n) = true.
Proof. induction n as [|n IH]; [done|]. cbn. by rewrite Ascii.eqb_refl. Qed.

Lemma TrimRightByte_repeat (c : ascii) (n : nat) (s : string) :
  TrimRightByte c (s +:+ Repeat (String c EmptyString) n) = TrimRightByte c s.
Proof.
  induction s as [|a s IH].
  - cbn [String.append]. destruct n; [done|]. pose proof (allByte_repeat c (S n)) as Ha.
    destruct (Repeat (String c EmptyString) (S n)) as [|b r] eqn:E; [done|]. unfold TrimRightByte. fold TrimRightByte. by rewrite Ha.
  - cbn [String.append TrimRightByte]. change (String a (s +:+ Repeat (String c EmptyString) n)) with (String a s +:+ Repeat (String c EmptyString) n).
    rewrite allByte_app, allByte_repeat, andb_true_r. by rewrite IH.
Qed.

(** A text whose ends are other bytes. *)
Definition tight (c : ascii) (s : string) : Prop := TrimByte c s = s.

Lemma TrimByte_tight (c : ascii) (m n : nat) (s : string) :
  TrimLeftByte c s = s -> TrimRightByte c s = s ->
  TrimByte c (Repeat (String c EmptyString) m +:+ s +:+ Repeat (String c EmptyString) n) = s.
Proof.
  intros Hl Hr. unfold TrimByte. rewrite TrimLeftByte_repeat. destruct s as [|a s].
  - cbn [String.append]. assert (TrimLeftByte c (Repeat (String c EmptyString) n) = EmptyString) as ->; [|done].
    pose proof (TrimLeftByte_repeat c n EmptyString) as Hx. by rewrite append_nil_r in Hx.
  - assert (TrimLeftByte c (String a s +:+ Repeat (String c EmptyString) n) = String a s +:+ Repeat (String c EmptyString) n) as ->.
    { cbn in Hl |- *. destruct (Ascii.eqb_spec a c) as [->|]; [|done]. exfalso.
      destruct (TrimLeftByte_spec c s) as [k Hk]. rewrite Hl in Hk.
      apply (f_equal String.length) in Hk. rewrite length_append in Hk. cbn in Hk. lia. }
    by rewrite TrimRightByte_repeat.
Qed.

Lemma TrimLeftByte_head (c a : ascii) (s : string) : a <> c -> TrimLeftByte c (String a s) = String a s.
Proof. intros Ha. cbn. by rewrite (proj2 (Ascii.eqb_neq _ _) Ha). Qed.

Lemma TrimRightByte_last (c : ascii) (s t : string) :
  t <> EmptyString -> byte_free c t = true -> TrimRightByte c (s +:+ t) = s +:+ t.
Proof.
  intros Ht Hf. assert (forall u, u <> EmptyString -> byte_free c u = true -> allByte c u = false) as Hall.
  { intros [|a u]; [done|]. cbn. intros _ Hb. destruct (Ascii.eqb a c); done. }
  assert (TrimRightByte c t = t) as Htt.
  { clear s. induction t as [|a t IH]; [done|]. cbn [TrimRightByte]. rewrite (Hall (String a t)) by done. f_equal.
    cbn in Hf. apply andb_true_iff in Hf as [_ Hf]. destruct t as [|b t]; [done|]. by apply IH. }
  induction s as [|a s IH]; [done|]. cbn [String.append TrimRightByte].
  change (String a (s +:+ t)) with (String a s +:+ t). rewrite allByte_app, (Hall t), andb_false_r by done. cbn [String.append]. by rewrite IH.
Qed.

(** ** Split *)

Lemma SplitByte_nonempty (s : string) (c : ascii) : SplitByte s c <> [].
Proof. destruct s as [|a s]; [done|]. cbn. destruct (Ascii.eqb a c); [done|]. by destruct (SplitByte s c). Qed.

(** Joining the pieces gives the text back. *)
Lemma Join_SplitByte (s : string) (c : ascii) : Join (SplitByte s c) (String c EmptyString) = s.
Proof.
  induction s as [|a s IH]; [done|]. cbn [SplitByte]. pose proof (SplitByte_nonempty s c) as Hne.
  destruct (Ascii.eqb_spec a c) as [->|Hac].
  - destruct (SplitByte s c) as [|x l]; [done|]. change (Join (EmptyString :: x :: l) (String c EmptyString)) with (String c (Join (x :: l) (String c EmptyString))).
    by rewrite IH.
  - destruct (SplitByte s c) as [|x l]; [done|]. rewrite <- IH. destruct l; done.
Qed.

Lemma SplitByte_pieces (s : string) (c : ascii) : Forall (fun x => byte_free c x = true) (SplitByte s c).
Proof.
  induction s as [|a s IH]; [by repeat constructor|]. cbn. destruct (Ascii.eqb_spec a c) as [->|Hac]; [by constructor|].
  destruct (SplitByte s c) as [|x l]; [|inversion IH; subst].
  - constructor; [|done]. cbn. by rewrite (proj2 (Ascii.eqb_neq _ _) Hac).
  - constructor; [|done]. cbn. by rewrite (proj2 (Ascii.eqb_neq _ _) Hac).
Qed.

(** ** path.Clean and path.Join *)

Definition slash : ascii := "/".
Definition rooted (s : string) : bool := HasPrefix s "/".

(** One element after the elements kept so far, the last one first. *)
Definition cleanStep (root : bool) (kept : list string) (x : string) : list string :=
  if String.eqb x EmptyString || String.eqb x "." then kept
  else if String.eqb x ".." then
         match kept with
         | [] => if root then [] else [".."]
         | y :: rest => if String.eqb y ".." then ".." :: kept else rest
         end
       else x :: kept.

Definition Clean (s : string) : string :=
  let root := rooted s in
  let elems := rev (fold_left (cleanStep root) (SplitByte s slash) []) in
  if root then "/" +:+ Join elems "/"
  else match elems with [] => "." | _ => Join elems "/" end.

Definition PathJoin (a b : string) : string :=
  match List.filter (fun s => negb (String.eqb s EmptyString)) [a; b] with
  | [] => EmptyString
  | l => Clean (Join l "/")
  end.

(** [path.Ext]: from the last dot of the last element. *)
Definition Ext (p : string) : string :=
  let last := match cutLastByte p slash with Some (_, y) => y | None => p end in
  match cutLastByte last "." with Some (_, y) => "." +:+ y | None => EmptyString end.

(** An element of a clean rooted path. *)
Definition plain (x : string) : Prop := x <> EmptyString /\ x <> "." /\ x <> ".." /\ byte_free slash x = true.
Definition rootedClean (s : string) (elems : list string) : Prop := s = "/" +:+ Join elems "/" /\ Forall plain elems.

Lemma cleanStep_plain (kept l : list string) :
  Forall plain kept -> Forall (fun x => byte_free slash x = true) l -> Forall plain (fold_left (cleanStep true) l kept).
Proof.
  intros Hk Hl. revert kept Hk. induction Hl as [|x l Hx _ IH]; intros kept Hk; [done|]. cbn. apply IH. unfold cleanStep.
  destruct (String.eqb_spec x EmptyString); [done|]. destruct (String.eqb_spec x "."); [done|]. cbn [orb].
  destruct (String.eqb_spec x "..") as [->|]; [|by constructor].
  destruct kept as [|y rest]; [done|]. inversion Hk as [|? ? (_ & _ & Hy & _) Hr]; subst.
  by rewrite (proj2 (String.eqb_neq _ _) Hy).
Qed.

Lemma cleanStep_id (root : bool) (kept l : list string) :
  Forall plain l -> fold_left (cleanStep root) l kept = rev l ++ kept.
Proof.
  intros Hl. revert kept. induction Hl as [|x l (H1 & H2 & H3 & _) _ IH]; intros kept; [done|]. cbn. rewrite IH, <- app_assoc. f_equal.
  unfold cleanStep. rewrite !(proj2 (String.eqb_neq _ _)) by done. done.
Qed.

Lemma rooted_spec (s : string) : rooted s = true <-> exists t, s = String slash t.
Proof. unfold rooted. rewrite HasPrefix_spec. split; intros [t ->]; by exists t. Qed.

(** The clean form of a rooted path has plain elements only: it climbs nowhere. *)
Lemma Clean_rooted (s : string) : rooted s = true -> exists elems, rootedClean (Clean s) elems.
Proof.
  intros Hr. unfold Clean. rewrite Hr. eexists. split; [reflexivity|]. apply Forall_rev. apply cleanStep_plain; [done|apply SplitByte_pieces].
Qed.

Lemma SplitByte_plain (elems : list string) :
  elems <> [] -> Forall plain elems -> SplitByte (Join elems "/") slash = elems.
Proof. intros Hne Hp. apply SplitByte_Join; [done|]. eapply Forall_impl; [exact Hp|]. by intros x (_ & _ & _ & ?). Qed.

Lemma Clean_id (s : string) (elems : list string) : rootedClean s elems -> Clean s = s.
Proof.
  intros [-> Hp]. unfold Clean. rewrite (proj2 (rooted_spec _)) by (by eexists). f_equal.
  change ("/" +:+ Join elems "/") with (EmptyString +:+ String slash (Join elems "/")). rewrite SplitByte_cons by done. cbn [fold_left].
  change (cleanStep true [] EmptyString) with (@nil string). destruct elems as [|x l]; [done|].
  rewrite SplitByte_plain, cleanStep_id by done. by rewrite app_nil_r, rev_involutive.
Qed.

Lemma Join_app (l k : list string) : l <> [] -> k <> [] -> Join (l ++ k) "/" = Join l "/" +:+ "/" +:+ Join k "/".
Proof.
  intros Hl Hk. induction l as [|x l IH]; [done|]. destruct l as [|y l].
  - destruct k; [done|]. reflexivity.
  - change ((x :: y :: l) ++ k) with (x :: ((y :: l) ++ k)).
    change (Join (x :: (y :: l) ++ k) "/") with (x +:+ "/" +:+ Join ((y :: l) ++ k) "/").
    rewrite IH by done. change (Join (x :: y :: l) "/") with (x +:+ "/" +:+ Join (y :: l) "/"). by rewrite !append_assoc.
Qed.

(** The elements of a path that goes on below a clean one. *)
Lemma SplitByte_Join_app (x : string) (l : list string) (rest : string) :
  Forall plain (x :: l) -> SplitByte (Join (x :: l) "/" +:+ String slash rest) slash = (x :: l) ++ SplitByte rest slash.
Proof.
  revert x. induction l as [|y l IH]; intros x Hp; inversion Hp as [|? ? (_ & _ & _ & Hx) Hl]; subst.
  - cbn [Join]. by rewrite SplitByte_cons.
  - change (Join (x :: y :: l) "/") with (x +:+ String slash (Join (y :: l) "/")). rewrite append_assoc.
    change (String slash (Join (y :: l) "/") +:+ String slash rest) with (String slash (Join (y :: l) "/" +:+ String slash rest)).
    rewrite SplitByte_cons by done. change ((x :: y :: l) ++ SplitByte rest slash) with (x :: ((y :: l) ++ SplitByte rest slash)).
    f_equal. by apply IH.
Qed.

Lemma Join_plain_last (es : list string) :
  es <> [] -> Forall plain es -> exists s x, Join es "/" = s +:+ x /\ x <> EmptyString /\ byte_free slash x = true.
Proof.
  intros Hne Hp. destruct (exists_last Hne) as (l & x & ->). apply Forall_app in Hp as [_ Hx].
  inversion Hx as [|? ? (Hx1 & _ & _ & Hx4) _]; subst. destruct l as [|y l]; [by exists EmptyString, x|].
  exists (Join (y :: l) "/" +:+ "/"), x. split; [|done]. rewrite Join_app by done. cbn [Join]. by rewrite append_assoc.
Qed.

Lemma Join_plain_head (es : list string) :
  es <> [] -> Forall plain es -> exists a s, Join es "/" = String a s /\ a <> slash.
Proof.
  intros Hne Hp. destruct es as [|x l]; [done|]. inversion Hp as [|? ? (Hx & _ & _ & Hf) _]; subst.
  destruct x as [|a x]; [done|]. exists a. cbn in Hf. apply andb_true_iff in Hf as [Ha _]. apply negb_true_iff, Ascii.eqb_neq in Ha.
  destruct l; [by exists x|]. eexists. split; [reflexivity|done].
Qed.

(** Joining a clean rooted path below another one. *)
Lemma PathJoin_rooted (p s : string) (ep es : list string) :
  rootedClean p ep -> rootedClean s es -> rootedClean (PathJoin p s) (ep ++ es).
Proof.
  intros [-> Hp] [-> Hs]. unfold PathJoin. cbn [List.filter String.eqb negb]. 
  assert (negb (String.eqb ("/" +:+ Join ep "/") EmptyString) = true) as -> by done.
  assert (negb (String.eqb ("/" +:+ Join es "/") EmptyString) = true) as -> by done.
  split; [|by apply Forall_app]. unfold Clean.
  change (Join ["/" +:+ Join ep "/"; "/" +:+ Join es "/"] "/") with (EmptyString +:+ String slash (Join ep "/" +:+ String slash (EmptyString +:+ String slash (Join es "/")))).
  rewrite (proj2 (rooted_spec _)) by (by eexists). f_equal. rewrite SplitByte_cons by done. cbn [fold_left].
  change (cleanStep true [] EmptyString) with (@nil string).
  assert (fold_left (cleanStep true) (SplitByte (Join es "/") slash) (rev ep) = rev es ++ rev ep) as Hes.
  { destruct es as [|x l]; [done|]. by rewrite SplitByte_plain, cleanStep_id. }
  assert (fold_left (cleanStep true) (SplitByte (Join ep "/" +:+ String slash (EmptyString +:+ String slash (Join es "/"))) slash) []
          = rev es ++ rev ep) as ->.
  { destruct ep as [|x l].
    - cbn [Join]. rewrite SplitByte_cons by done. cbn [fold_left]. rewrite SplitByte_cons by done. cbn [fold_left]. exact Hes.
    - replace (SplitByte (Join (x :: l) "/" +:+ String slash (EmptyString +:+ String slash (Join es "/"))) slash)
        with ((x :: l) ++ EmptyString :: SplitByte (Join es "/") slash).
      + rewrite fold_left_app. rewrite (cleanStep_id true [] (x :: l) Hp), app_nil_r. cbn [fold_left].
        change (cleanStep true (rev (x :: l)) EmptyString) with (rev (x :: l)). exact Hes.
      + clear Hes. symmetry. rewrite SplitByte_Join_app by done.
        change (EmptyString +:+ String slash (Join es "/")) with (String slash (Join es "/")). f_equal. }
  by rewrite rev_app_distr, !rev_involutive.
Qed.

(** A clean path that starts with another one and a slash is below it, element by element. *)
Lemma rootedClean_prefix (p s r : string) (ep es : list string) :
  rootedClean p ep -> ep <> [] -> rootedClean s es -> s = p +:+ String slash r -> exists es', es = ep ++ es'.
Proof.
  intros [-> Hp] Hne [-> Hs] Heq. rewrite append_assoc in Heq. injection Heq as Heq.
  destruct ep as [|x l]; [done|]. destruct es as [|y es].
  { exfalso. apply (f_equal String.length) in Heq. rewrite length_append in Heq. cbn in Heq. lia. }
  pose proof (SplitByte_plain (y :: es) ltac:(done) Hs) as Hsplit. rewrite Heq, SplitByte_Join_app in Hsplit by done. eauto.
Qed.

Lemma rootedClean_inj (s : string) (es es' : list string) : rootedClean s es -> rootedClean s es' -> es = es'.
Proof.
  intros [-> H] [Heq H']. injection Heq as Heq. destruct es as [|x l], es' as [|x' l'].
  - done.
  - inversion H' as [|? ? [Hx _] _]; subst. destruct x'; [done|]. destruct l'; done.
  - inversion H as [|? ? [Hx _] _]; subst. destruct x; [done|]. destruct l; done.
  - rewrite <- (SplitByte_plain (x :: l)), <- (SplitByte_plain (x' :: l')) by done. by rewrite Heq.
Qed.

Example clean_runs :
  map Clean ["/a/./b//../c/"; "/../x"; "a/../../b"; ""; "/"; "."] = ["/a/c"; "/x"; "../b"; "."; "/"; "."].
Proof. vm_compute. reflexivity. Qed.
