(* ===== verification/GoUrl.v ===== *)
(** [net/url]: the values of a query or a form and their encoding, as [pkg/httpclient]
    uses them. *)

From Stdlib Require Import ZArith Lia String Ascii List Bool.
From stdpp Require Import base tactics list gmap strings sorting.
From S2P Require Import Prelude GoStrings GoPath.

Local Open Scope string_scope.
Local Open Scope list_scope.

(** ** QueryEscape *)

Definition unreserved (a : ascii) : bool :=
  is_upper a || is_lower a || is_digit a || Ascii.eqb a "-" || Ascii.eqb a "_" || Ascii.eqb a "." || Ascii.eqb a "~".

Definition upperhex (n : nat) : ascii := ascii_of_nat (if n <? 10 then 48 + n else 55 + n)%nat.
Definition unhex (a : ascii) : option nat :=
  let n := nat_of_ascii a in
  if ((48 <=? n) && (n <=? 57))%nat then Some (n - 48)%nat
  else if ((97 <=? n) && (n <=? 102))%nat then Some (n - 87)%nat
  else if ((65 <=? n) && (n <=? 70))%nat then Some (n - 55)%nat
  else None.

Definition escapeByte (a : ascii) (s : string) : string :=
  if unreserved a then String a s
  else if Ascii.eqb a " " then String "+" s
  else String "%" (String (upperhex (nat_of_ascii a / 16)%nat) (String (upperhex (nat_of_ascii a mod 16)%nat) s)).

Fixpoint QueryEscape (s : string) : string :=
  match s with
  | EmptyString => EmptyString
  | String a s => escapeByte a (QueryEscape s)
  end.

Fixpoint QueryUnescape (s : string) : option string :=
  match s with
  | EmptyString => Some EmptyString
  | String a s =>
      if Ascii.eqb a "%" then
        match s with
        | String h (String l s) =>
            match unhex h, unhex l, QueryUnescape s with
            | Some h, Some l, Some r => Some (String (ascii_of_nat (16 * h + l)%nat) r)
            | _, _, _ => None
            end
        | _ => None
        end
      else option_map (String (if Ascii.eqb a "+" then " "%char else a)) (QueryUnescape s)
  end.

Lemma unescape_escapeByte (a : ascii) (s : string) :
  QueryUnescape (escapeByte a s) = option_map (String a) (QueryUnescape s).
Proof. destruct a as [[] [] [] [] [] [] [] []]; reflexivity. Qed.

Lemma QueryUnescape_escape (s : string) : QueryUnescape (QueryEscape s) = Some s.
Proof. induction s as [|a s IH]; [done|]. cbn [QueryEscape]. by rewrite unescape_escapeByte, IH. Qed.

(** An escaped string has none of the bytes that separate pairs. *)
Definition separator (c : ascii) : bool := existsb (Ascii.eqb c) ["&"; "="; ";"; "?"; "#"]%char.

Lemma escapeByte_free (c a : ascii) (s : string) :
  separator c = true -> byte_free c (escapeByte a s) = byte_free c s.
Proof.
  unfold separator. rewrite existsb_exists. intros (x & Hx & ->%Ascii.eqb_eq).
  repeat destruct Hx as [<-|Hx]; try done; destruct a as [[] [] [] [] [] [] [] []]; reflexivity.
Qed.

Lemma QueryEscape_free (c : ascii) (s : string) : separator c = true -> byte_free c (QueryEscape s) = true.
Proof. intros Hc. induction s as [|a s IH]; [done|]. cbn [QueryEscape]. by rewrite escapeByte_free. Qed.

(** ** Values *)

Notation Values := (gmap string (list string)) (only parsing).

Definition valuesAdd (k v : string) (m : Values) : Values := <[k := default [] (m !! k) ++ [v]]> m.
Definition valuesSet (k v : string) (m : Values) : Values := <[k := [v]]> m.

Definition keyLe (a b : string) : Prop := String.leb a b = true.
#[export] Instance keyLe_dec : RelDecision keyLe := fun a b => decide (String.leb a b = true).

Definition sortedKeys (m : Values) : list string := merge_sort keyLe (map fst (map_to_list m)).

(** The pairs in the order they are written. *)
Definition pairs (m : Values) : list (string * string) :=
  flat_map (fun k => map (pair k) (default [] (m !! k))) (sortedKeys m).

Definition encodePair (p : string * string) : string := QueryEscape (fst p) +:+ "=" +:+ QueryEscape (snd p).

Definition Encode (m : Values) : string := Join (map encodePair (pairs m)) "&".

(** One segment of [ParseQuery]; a malformed one is dropped. *)
Definition parsePair (x : string) : option (string * string) :=
  if negb (byte_free ";" x) || String.eqb x EmptyString then None
  else
    let '(k, v) := match cutByte x "=" with Some kv => kv | None => (x, EmptyString) end in
    match QueryUnescape k, QueryUnescape v with
    | Some k, Some v => Some (k, v)
    | _, _ => None
    end.

Definition addPair (m : Values) (x : string) : Values :=
  match parsePair x with Some (k, v) => valuesAdd k v m | None => m end.

(** [URL.Query]: the errors of [ParseQuery] are dropped. *)
Definition ParseQuery (s : string) : Values := fold_left addPair (SplitByte s "&") ∅.

Lemma parsePair_encode (p : string * string) : parsePair (encodePair p) = Some p.
Proof.
  destruct p as [k v]. unfold parsePair, encodePair. cbn [fst snd].
  assert (byte_free ";" (QueryEscape k +:+ "=" +:+ QueryEscape v) = true) as ->.
  { by rewrite !byte_free_app, !QueryEscape_free. }
  cbn [negb orb]. destruct (String.eqb_spec (QueryEscape k +:+ "=" +:+ QueryEscape v) EmptyString) as [E|_].
  { by destruct (QueryEscape k). }
  change ("=" +:+ QueryEscape v) with (String "=" (QueryEscape v)). rewrite cutByte_app by by apply QueryEscape_free.
  by rewrite !QueryUnescape_escape.
Qed.

Lemma encodePair_free (p : string * string) : byte_free "&" (encodePair p) = true.
Proof.
  unfold encodePair. by rewrite !byte_free_app, !QueryEscape_free.
Qed.

Definition addAll (l : list (string * string)) (m : Values) : Values := fold_left (fun m p => valuesAdd (fst p) (snd p) m) l m.

Lemma fold_addPair (l : list (string * string)) (m : Values) : fold_left addPair (map encodePair l) m = addAll l m.
Proof.
  revert m. induction l as [|[k v] l IH]; intros m; [done|]. cbn [map fold_left addAll fst snd]. rewrite IH.
  unfold addPair at 1. by rewrite parsePair_encode.
Qed.

Definition keysOf (k : string) (l : list (string * string)) : list string :=
  map snd (List.filter (fun p => String.eqb (fst p) k) l).

(** The values of a key are appended in the order of the pairs. *)
Lemma addAll_lookup (l : list (string * string)) (m : Values) (k : string) :
  addAll l m !! k = match keysOf k l with [] => m !! k | vs => Some (default [] (m !! k) ++ vs) end.
Proof.
  revert m. induction l as [|[k' v] l IH]; intros m; [done|]. change (addAll ((k', v) :: l) m) with (addAll l (valuesAdd k' v m)). rewrite IH.
  unfold keysOf. cbn [List.filter fst]. fold (keysOf k l). unfold valuesAdd. rewrite lookup_insert.
  destruct (String.eqb_spec k' k) as [->|Hne].
  - rewrite decide_True by done. cbn [map snd]. fold (keysOf k l). destruct (keysOf k l); [done|]. cbn [default from_option id].
    by rewrite <- app_assoc.
  - by rewrite decide_False.
Qed.

Lemma keysOf_map (k k' : string) (vs : list string) : keysOf k (map (pair k') vs) = if String.eqb k' k then vs else [].
Proof.
  unfold keysOf. induction vs as [|v vs IH]; cbn [map List.filter fst]; [by destruct (String.eqb k' k)|].
  destruct (String.eqb k' k); cbn [map snd]; by rewrite IH.
Qed.

Lemma keysOf_flat (k : string) (f : string -> list string) (ks : list string) :
  NoDup ks -> keysOf k (flat_map (fun x => map (pair x) (f x)) ks) = if decide (k ∈ ks) then f k else [].
Proof.
  intros Hnd. induction Hnd as [|x ks Hx _ IH]; [by rewrite decide_False by apply not_elem_of_nil|].
  cbn [flat_map]. unfold keysOf. rewrite List.filter_app, map_app. fold (keysOf k (map (pair x) (f x))).
  fold (keysOf k (flat_map (fun x => map (pair x) (f x)) ks)). rewrite keysOf_map, IH.
  destruct (String.eqb_spec x k) as [->|Hne].
  - rewrite (decide_True (P := k ∈ k :: ks)) by by left. by rewrite (decide_False (P := k ∈ ks)), app_nil_r.
  - cbn [app]. destruct (decide (k ∈ ks)) as [Hk|Hk]; [by rewrite (decide_True (P := k ∈ x :: ks)) by by right|].
    rewrite (decide_False (P := k ∈ x :: ks)); [done|]. by intros [->|?]%elem_of_cons.
Qed.

Lemma sortedKeys_spec (m : Values) : NoDup (sortedKeys m) /\ forall k, k ∈ sortedKeys m <-> is_Some (m !! k).
Proof.
  unfold sortedKeys. split; [|intros k]; rewrite merge_sort_Permutation.
  - apply NoDup_fst_map_to_list.
  - change (map fst (map_to_list m)) with ((map_to_list m).*1). rewrite list_elem_of_fmap. split.
    + intros ([k' vs] & -> & H). exists vs. by apply elem_of_map_to_list.
    + intros [vs H]. exists (k, vs). split; [done|]. by apply elem_of_map_to_list.
Qed.

(** What is read of an encoded query are the values that were encoded, in order; a key
    without values is not there. *)
Lemma ParseQuery_Encode (m : Values) (k : string) :
  default [] (ParseQuery (Encode m) !! k) = default [] (m !! k).
Proof.
  assert (ParseQuery (Encode m) = addAll (pairs m) ∅) as ->.
  { unfold ParseQuery, Encode. destruct (pairs m) as [|p l] eqn:E; [done|]. rewrite <- E, SplitByte_Join.
    - apply fold_addPair.
    - by rewrite E.
    - apply List.Forall_map, Forall_forall. intros x _. apply encodePair_free. }
  rewrite addAll_lookup. unfold pairs. destruct (sortedKeys_spec m) as [Hnd Hin].
  rewrite (keysOf_flat k (fun x => default [] (m !! x))) by done. rewrite lookup_empty.
  destruct (m !! k) as [vs|] eqn:Hk.
  - rewrite decide_True by (apply Hin; rewrite Hk; by eexists). cbn. by destruct vs.
  - rewrite decide_False; [done|]. rewrite Hin, Hk. by intros [? [=]].
Qed.

(** An encoded query has no byte that ends a query. *)
Lemma Encode_free (c : ascii) (m : Values) :
  separator c = true -> Ascii.eqb c "&" = false -> Ascii.eqb c "=" = false -> byte_free c (Encode m) = true.
Proof.
  intros Hc H1 H2. unfold Encode. induction (pairs m) as [|p l IH]; [done|].
  assert (byte_free c (encodePair p) = true) as Hp.
  { unfold encodePair. rewrite !byte_free_app, !QueryEscape_free by done. cbn [byte_free]. by rewrite Ascii.eqb_sym, H2. }
  cbn [map Join]. destruct (map encodePair l) as [|x k]; [done|].
  rewrite !byte_free_app, Hp, IH. cbn [byte_free]. by rewrite Ascii.eqb_sym, H1.
Qed.
