(* ===== verification/GoRegexp.v ===== *)
(** [regexp]: the patterns [pkg/httpclient] compiles, matched on bytes with derivatives. *)

From Stdlib Require Import Lia String Ascii List Bool.
From stdpp Require Import base tactics list strings.
From S2P Require Import Prelude GoStrings.

Local Open Scope string_scope.
Local Open Scope list_scope.

Inductive re : Type :=
| Void
| Eps
| Class (p : ascii -> bool)
| Seq (r s : re)
| Alt (r s : re)
| Star (r : re).

(** The strings a pattern stands for. *)
Inductive lang : re -> string -> Prop :=
| lang_Eps : lang Eps EmptyString
| lang_Class p a : p a = true -> lang (Class p) (String a EmptyString)
| lang_Seq r s x y : lang r x -> lang s y -> lang (Seq r s) (x +:+ y)
| lang_AltL r s x : lang r x -> lang (Alt r s) x
| lang_AltR r s x : lang s x -> lang (Alt r s) x
| lang_StarNil r : lang (Star r) EmptyString
| lang_StarCons r a x y : lang r (String a x) -> lang (Star r) y -> lang (Star r) (String a x +:+ y).
#[export] Hint Constructors lang : aeus.

Fixpoint nullable (r : re) : bool :=
  match r with
  | Void | Class _ => false
  | Eps | Star _ => true
  | Seq r s => nullable r && nullable s
  | Alt r s => nullable r || nullable s
  end.

Fixpoint deriv (a : ascii) (r : re) : re :=
  match r with
  | Void | Eps => Void
  | Class p => if p a then Eps else Void
  | Seq r s => if nullable r then Alt (Seq (deriv a r) s) (deriv a s) else Seq (deriv a r) s
  | Alt r s => Alt (deriv a r) (deriv a s)
  | Star r => Seq (deriv a r) (Star r)
  end.

Fixpoint matches (r : re) (s : string) : bool :=
  match s with
  | EmptyString => nullable r
  | String a s => matches (deriv a r) s
  end.

Lemma append_nil (x y : string) : x +:+ y = EmptyString -> x = EmptyString /\ y = EmptyString.
Proof. by destruct x, y. Qed.

Lemma lang_Seq_inv (r s : re) (w : string) : lang (Seq r s) w <-> exists x y, w = x +:+ y /\ lang r x /\ lang s y.
Proof. split; [inversion 1; subst; eauto|]. intros (x & y & -> & Hx & Hy). by constructor. Qed.

Lemma lang_Class_inv (p : ascii -> bool) (w : string) : lang (Class p) w <-> exists a, w = String a EmptyString /\ p a = true.
Proof. split; [inversion 1; subst; eauto|]. intros (a & -> & Ha). by constructor. Qed.

Lemma nullable_spec (r : re) : nullable r = true <-> lang r EmptyString.
Proof.
  induction r as [| |p|r IHr s IHs|r IHr s IHs|r IH]; cbn [nullable].
  - split; [done|inversion 1].
  - split; [constructor|done].
  - split; [done|inversion 1].
  - rewrite andb_true_iff, IHr, IHs. split; [intros [H1 H2]; exact (lang_Seq r s EmptyString EmptyString H1 H2)|].
    intros (x & y & E & Hx & Hy)%lang_Seq_inv. symmetry in E. by apply append_nil in E as [-> ->].
  - rewrite orb_true_iff, IHr, IHs. split; [intros [H|H]; [by apply lang_AltL|by apply lang_AltR]|]. inversion 1; subst; tauto.
  - split; [constructor|done].
Qed.

Lemma deriv_spec (a : ascii) (r : re) (x : string) : lang (deriv a r) x <-> lang r (String a x).
Proof.
  revert x. induction r as [| |p|r IHr s IHs|r IHr s IHs|r IH]; intros x; cbn [deriv].
  - split; inversion 1.
  - split; inversion 1.
  - destruct (p a) eqn:E; split; intros H; inversion H; subst; try by constructor. congruence.
  - assert (lang (Seq (deriv a r) s) x <-> exists y z, x = y +:+ z /\ lang r (String a y) /\ lang s z) as Hs.
    { rewrite lang_Seq_inv. split; intros (y & z & -> & Hy & Hz); exists y, z; (split; [done|]); split; [by apply IHr|done|by apply IHr|done]. }
    transitivity ((exists y z, x = y +:+ z /\ lang r (String a y) /\ lang s z) \/ nullable r = true /\ lang s (String a x)).
    { destruct (nullable r); [|rewrite Hs; naive_solver]. rewrite <- Hs, <- IHs. split; [inversion 1; subst; tauto|].
      intros [H|[_ H]]; [by apply lang_AltL|by apply lang_AltR]. }
    split.
    + intros [(y & z & -> & Hy & Hz)|[Hn Hs']]; [exact (lang_Seq r s (String a y) z Hy Hz)|].
      apply nullable_spec in Hn. exact (lang_Seq r s EmptyString (String a x) Hn Hs').
    + intros (y & z & E & Hy & Hz)%lang_Seq_inv. destruct y as [|b y]; cbn in E.
      * right. split; [by apply nullable_spec|by rewrite E].
      * left. injection E as -> ->. by exists y, z.
  - split; inversion 1; subst; [apply lang_AltL; by apply IHr|apply lang_AltR; by apply IHs|apply lang_AltL; by apply IHr|apply lang_AltR; by apply IHs].
  - split; intros H.
    + apply lang_Seq_inv in H as (y & z & -> & Hy & Hz). apply IH in Hy. exact (lang_StarCons r a y z Hy Hz).
    + inversion H as [| | | | | |? b y z Hy Hz]; subst. constructor; [by apply IH|done].
Qed.

(** The matcher decides the language. *)
Lemma matches_spec (r : re) (s : string) : matches r s = true <-> lang r s.
Proof.
  revert r. induction s as [|a s IH]; intros r; cbn [matches]; [apply nullable_spec|]. by rewrite IH, deriv_spec.
Qed.

(** ** Building patterns *)

Definition isByte (a b : ascii) : bool := Ascii.eqb a b.
Definition anyByte : re := Star (Class (fun _ => true)).
(** [.]: not a line feed. *)
Definition dotStar : re := Star (Class (fun a => negb (Ascii.eqb a "010"%char))).

(** One byte of a pattern under [(?i)]: the letters s and k fold with one more rune. *)
Definition foldByte (a : ascii) : re :=
  let two := Class (fun b => Ascii.eqb (lowerByte b) (lowerByte a)) in
  if Ascii.eqb (lowerByte a) "s" then Alt two (Seq (Class (isByte "197"%char)) (Class (isByte "191"%char)))
  else if Ascii.eqb (lowerByte a) "k"
       then Alt two (Seq (Class (isByte "226"%char)) (Seq (Class (isByte "132"%char)) (Class (isByte "170"%char))))
       else two.

Fixpoint foldLit (s : string) : re :=
  match s with
  | EmptyString => Eps
  | String a s => Seq (foldByte a) (foldLit s)
  end.

(** [MatchString] of a pattern that ends in [(;|$)]: somewhere in the string, followed
    by a semicolon or by the end. *)
Definition somewhereThenEnd (r : re) : re := Seq anyByte (Seq r (Alt Eps (Seq (Class (isByte ";")) anyByte))).

Lemma anyByte_lang (x : string) : lang anyByte x.
Proof.
  induction x as [|a x IH]; [constructor|]. change (String a x) with (String a EmptyString +:+ x). by repeat constructor.
Qed.

(** What such a match means. *)
Lemma somewhereThenEnd_spec (r : re) (s : string) :
  matches (somewhereThenEnd r) s = true <->
  exists x y z, s = x +:+ y +:+ z /\ lang r y /\ (z = EmptyString \/ exists z', z = String ";" z').
Proof.
  rewrite matches_spec. unfold somewhereThenEnd. split.
  - intros (x & t & -> & _ & (y & z & -> & Hy & Hz)%lang_Seq_inv)%lang_Seq_inv.
    exists x, y, z. split; [done|]. split; [done|]. inversion Hz as [| | |? ? ? He|? ? ? Hs| |]; subst; [left; by inversion He|right].
    apply lang_Seq_inv in Hs as (b & c & -> & (d & -> & Hd)%lang_Class_inv & _). apply Ascii.eqb_eq in Hd as <-. by exists c.
  - intros (x & y & z & -> & Hy & Hz). constructor; [apply anyByte_lang|]. constructor; [done|].
    destruct Hz as [->|[z' ->]]; [by repeat constructor|]. apply lang_AltR.
    change (String ";" z') with (String ";" EmptyString +:+ z'). constructor; [by constructor|apply anyByte_lang].
Qed.
