(* ===== verification/Errs.v ===== *)
(** [pkg/errs]: the application error, its codes, the sentinel variables, the
    unwrapping functions and the two transport status tables; [pkg/response]: the
    wire envelope and its writer. *)

From Stdlib Require Import ZArith Lia String List Bool.
From stdpp Require Import base tactics list strings pretty.
From S2P Require Import Prelude GoStrings.

Local Open Scope Z_scope.
Local Open Scope string_scope.
Local Open Scope list_scope.

(** ** pkg/errs/const.go: the codes *)

Definition CodeOK : Z := 0.
Definition CodeExit : Z := 1000.
Definition CodeInvalid : Z := 1001.
Definition CodeExists : Z := 1002.
Definition CodeUnavailable : Z := 1003.
Definition CodeIncompatible : Z := 1004.
Definition CodeInternal : Z := 1005.
Definition CodeTooLarge : Z := 1006.
Definition CodeUnsupportedFormat : Z := 1007.
Definition CodeMalformed : Z := 1008.
Definition CodeMissingField : Z := 1009.
Definition CodeOutOfRange : Z := 1010.
Definition CodeConflict : Z := 1011.
Definition CodeUnprocessable : Z := 1012.
Definition CodeNotImplemented : Z := 1013.
Definition CodeTimeout : Z := 2001.
Definition CodeExpired : Z := 2002.
Definition CodeCanceled : Z := 2003.
Definition CodeDeadlineExceeded : Z := 2004.
Definition CodeRateLimited : Z := 3001.
Definition CodeQuotaExceeded : Z := 3002.
Definition CodeUnauthorized : Z := 4001.
Definition CodeTokenExpired : Z := 4002.
Definition CodePermissionDenied : Z := 4003.
Definition CodeNotFound : Z := 4004.
Definition CodeAccessDenied : Z := 4005.
Definition CodeTokenInvalid : Z := 4006.
Definition CodePreconditionFailed : Z := 4007.
Definition CodeTooManyAttempts : Z := 4010.
Definition CodeNetworkUnreachable : Z := 5001.
Definition CodeConnectionRefused : Z := 5002.
Definition CodeDatabaseError : Z := 6001.
Definition CodeUniqueViolation : Z := 6002.
Definition CodeDeadlock : Z := 6003.
Definition CodeCacheError : Z := 6004.
Definition CodeUpstreamError : Z := 8001.

(** ** pkg/errs/const.go: the package-level error variables *)

Inductive errsVar : Type :=
| ErrExit
| ErrInvalid
| ErrExists
| ErrUnavailable
| ErrIncompatible
| ErrTooLarge
| ErrUnsupportedFormat
| ErrMalformed
| ErrMissingField
| ErrOutOfRange
| ErrConflict
| ErrUnprocessable
| ErrNotImplemented
| ErrTimeout
| ErrExpired
| ErrCanceled
| ErrDeadlineExceeded
| ErrRateLimited
| ErrQuotaExceeded
| ErrNotFound
| ErrAccessDenied
| ErrPermissionDenied
| ErrTokenExpired
| ErrUnauthorized
| ErrTokenInvalid
| ErrPreconditionFailed
| ErrTooManyAttempts
| ErrNetworkUnreachable
| ErrConnectionRefused
| ErrDatabaseError
| ErrUniqueViolation
| ErrDeadlock
| ErrCacheError
| ErrUpstreamError.

Definition varCode (v : errsVar) : Z :=
  match v with
  | ErrExit => CodeExit
  | ErrInvalid => CodeInvalid
  | ErrExists => CodeExists
  | ErrUnavailable => CodeUnavailable
  | ErrIncompatible => CodeIncompatible
  | ErrTooLarge => CodeTooLarge
  | ErrUnsupportedFormat => CodeUnsupportedFormat
  | ErrMalformed => CodeMalformed
  | ErrMissingField => CodeMissingField
  | ErrOutOfRange => CodeOutOfRange
  | ErrConflict => CodeConflict
  | ErrUnprocessable => CodeUnprocessable
  | ErrNotImplemented => CodeNotImplemented
  | ErrTimeout => CodeTimeout
  | ErrExpired => CodeExpired
  | ErrCanceled => CodeCanceled
  | ErrDeadlineExceeded => CodeDeadlineExceeded
  | ErrRateLimited => CodeRateLimited
  | ErrQuotaExceeded => CodeQuotaExceeded
  | ErrNotFound => CodeNotFound
  | ErrAccessDenied => CodeAccessDenied
  | ErrPermissionDenied => CodePermissionDenied
  | ErrTokenExpired => CodeTokenExpired
  | ErrUnauthorized => CodeUnauthorized
  | ErrTokenInvalid => CodeTokenInvalid
  | ErrPreconditionFailed => CodePreconditionFailed
  | ErrTooManyAttempts => CodeTooManyAttempts
  | ErrNetworkUnreachable => CodeNetworkUnreachable
  | ErrConnectionRefused => CodeConnectionRefused
  | ErrDatabaseError => CodeDatabaseError
  | ErrUniqueViolation => CodeUniqueViolation
  | ErrDeadlock => CodeDeadlock
  | ErrCacheError => CodeCacheError
  | ErrUpstreamError => CodeUpstreamError
  end.

Definition varMessage (v : errsVar) : string :=
  match v with
  | ErrExit => "normal exit"
  | ErrInvalid => "invalid payload"
  | ErrExists => "already exists"
  | ErrUnavailable => "service unavailable"
  | ErrIncompatible => "type incompatible"
  | ErrTooLarge => "payload too large"
  | ErrUnsupportedFormat => "unsupported format"
  | ErrMalformed => "malformed payload"
  | ErrMissingField => "required field missing"
  | ErrOutOfRange => "value out of range"
  | ErrConflict => "resource conflict"
  | ErrUnprocessable => "semantically unprocessable"
  | ErrNotImplemented => "not implemented"
  | ErrTimeout => "timeout"
  | ErrExpired => "expired"
  | ErrCanceled => "canceled"
  | ErrDeadlineExceeded => "deadline exceeded"
  | ErrRateLimited => "rate limited"
  | ErrQuotaExceeded => "quota exceeded"
  | ErrNotFound => "not found"
  | ErrAccessDenied => "access denied"
  | ErrPermissionDenied => "permission denied"
  | ErrTokenExpired => "token expired"
  | ErrUnauthorized => "unauthorized"
  | ErrTokenInvalid => "token invalid"
  | ErrPreconditionFailed => "precondition failed"
  | ErrTooManyAttempts => "too many attempts"
  | ErrNetworkUnreachable => "network unreachable"
  | ErrConnectionRefused => "connection refused"
  | ErrDatabaseError => "database error"
  | ErrUniqueViolation => "unique key violation"
  | ErrDeadlock => "deadlock"
  | ErrCacheError => "cache error"
  | ErrUpstreamError => "upstream error"
  end.

#[export] Instance errsVar_eq_dec : EqDecision errsVar.
Proof. solve_decision. Defined.

(** ** Error values

    A Go [error] is compared by identity, and every comparison aeus makes
    ([errors.Is]) is against a package-level variable: those are [sentinel]s.
    An error allocated while the program runs ([New], [Newf], [Wrap],
    [fmt.Errorf], [errors.New]) is different from all of them, whatever its
    text. *)

Inductive sentinel : Type :=
| SErrs (v : errsVar)
(* io *)
| EOF | ErrUnexpectedEOF | ErrNoProgress | ErrShortWrite
(* transport/cli *)
| CliErrNotFound | CliErrHandleRegistered
(* infra/cache/memory *)
| CacheErrNotFound | CacheErrWrongType | CacheErrAddressable
(* middleware *)
| ErrAbort
(* admin/service *)
| ErrInvalidPassword | ErrUserDisabled | ErrRoleDisabled | ErrRoleNotFound
(* gorm, golang-jwt *)
| ErrRecordNotFound
| ErrTokenMalformed | ErrTokenUnverifiable | ErrTokenNotValidYet | ErrJwtTokenExpired.

#[export] Instance sentinel_eq_dec : EqDecision sentinel.
Proof. solve_decision. Defined.

Inductive error : Type :=
| ESentinel (s : sentinel)
| EErr (Code : Z) (Message : string) (cause : option error)
| EWrap (text : string) (wrapped : list error)
| EPlain (text : string).

(** A value of Go type [( *errs.Error )]: the fields the methods read. *)
Record Error : Type := mkError { Code : Z; Message : string }.

(** The dynamic type test [err.( *errs.Error )].  The admin sentinels are built by
    [errs.Newf] and are errors of the application too. *)
Definition sentinelError (s : sentinel) : option Error :=
  match s with
  | SErrs v => Some (mkError (varCode v) (varMessage v))
  | ErrInvalidPassword => Some (mkError CodeAccessDenied "invalid username or password")
  | ErrUserDisabled => Some (mkError CodePermissionDenied "user is disabled")
  | ErrRoleDisabled => Some (mkError CodePermissionDenied "role is disabled")
  | ErrRoleNotFound => Some (mkError CodePermissionDenied "role not found")
  | _ => None
  end.

Definition asError1 (e : error) : option Error :=
  match e with
  | ESentinel s => sentinelError s
  | EErr c m _ => Some (mkError c m)
  | _ => None
  end.

Definition errorText (e : Error) : string :=
  "code: " +:+ pretty (Code e) +:+ ", message: " +:+ Message e.

Definition sentinelText (s : sentinel) : string :=
  match s with
  | EOF => "EOF"
  | ErrUnexpectedEOF => "unexpected EOF"
  | ErrNoProgress => "multiple Read calls return no data or error"
  | ErrShortWrite => "short write"
  | CliErrNotFound => "not found"
  | CliErrHandleRegistered => "handle already registered"
  | CacheErrNotFound => "cache: key not found"
  | CacheErrWrongType => "val must be a pointer"
  | CacheErrAddressable => "cannot set value: val is not addressable"
  | ErrAbort => "middleware abort"
  | ErrRecordNotFound => "record not found"
  | ErrTokenMalformed => "token is malformed"
  | ErrTokenUnverifiable => "token is unverifiable"
  | ErrTokenNotValidYet => "token is not valid yet"
  | ErrJwtTokenExpired => "token is expired"
  | _ => EmptyString
  end.

(** [err.Error()] *)
Definition errText (e : error) : string :=
  match asError1 e with
  | Some x => errorText x
  | None => match e with
            | ESentinel s => sentinelText s
            | EWrap t _ => t
            | EPlain t => t
            | EErr _ m _ => m
            end
  end.

(** [Unwrap], both shapes *)
Definition unwrap (e : error) : list error :=
  match e with
  | EErr _ _ (Some c) => [c]
  | EWrap _ l => l
  | _ => []
  end.

Definition New (code : Z) (message : string) : error := EErr code message None.
Definition Newf (code : Z) (message : string) : error := EErr code message None.
Definition Wrap (code : Z) (err : error) : error := EErr code (errText err) (Some err).

(** [errors.Is(err, target)]: the first match of a depth-first walk. *)
Fixpoint Is (err : error) (target : sentinel) : bool :=
  match err with
  | ESentinel s => bool_decide (s = target)
  | EErr _ _ (Some c) => Is c target
  | EErr _ _ None => false
  | EWrap _ l => existsb (fun c => Is c target) l
  | EPlain _ => false
  end.

(** [errors.As(err, &ae)] for [ae *errs.Error] *)
Fixpoint As (err : error) : option Error :=
  match err with
  | ESentinel s => sentinelError s
  | EErr c m _ => Some (mkError c m)
  | EWrap _ l =>
      (fix first (l : list error) : option Error :=
         match l with
         | [] => None
         | e :: l' => match As e with Some x => Some x | None => first l' end
         end) l
  | EPlain _ => None
  end.

Definition IsCode (err : error) (code : Z) : bool :=
  match As err with
  | Some ae => (Code ae =? code)%Z
  | None => false
  end.

(** ** Transport statuses *)

Definition grpcCanceled : Z := 1.
Definition grpcUnknown : Z := 2.
Definition grpcInvalidArgument : Z := 3.
Definition grpcDeadlineExceeded : Z := 4.
Definition grpcNotFound : Z := 5.
Definition grpcAlreadyExists : Z := 6.
Definition grpcPermissionDenied : Z := 7.
Definition grpcResourceExhausted : Z := 8.
Definition grpcFailedPrecondition : Z := 9.
Definition grpcAborted : Z := 10.
Definition grpcUnimplemented : Z := 12.
Definition grpcInternal : Z := 13.
Definition grpcUnavailable : Z := 14.
Definition grpcUnauthenticated : Z := 16.

(** A Go [switch] with value lists. *)
Fixpoint switch {A : Type} (z : Z) (cases : list (list Z * A)) (default : A) : A :=
  match cases with
  | [] => default
  | (vs, a) :: rest => if existsb (Z.eqb z) vs then a else switch z rest default
  end.

Definition HTTPStatus (e : Error) : Z :=
  switch (Code e)
    [ ([CodeNotFound], 404)
    ; ([CodePermissionDenied; CodeAccessDenied], 403)
    ; ([CodeTokenExpired; CodeUnauthorized; CodeTokenInvalid], 401)
    ; ([CodeInvalid; CodeMalformed; CodeMissingField; CodeOutOfRange], 400)
    ; ([CodeTooLarge], 413)
    ; ([CodeUnsupportedFormat], 415)
    ; ([CodeExists; CodeConflict; CodeUniqueViolation], 409)
    ; ([CodeUnprocessable], 422)
    ; ([CodePreconditionFailed], 412)
    ; ([CodeRateLimited; CodeQuotaExceeded; CodeTooManyAttempts], 429)
    ; ([CodeTimeout; CodeDeadlineExceeded], 504)
    ; ([CodeCanceled], 499)
    ; ([CodeUnavailable; CodeDatabaseError; CodeCacheError; CodeDeadlock; CodeUpstreamError], 503)
    ; ([CodeNotImplemented], 501) ]
    500.

Definition GRPCStatus (e : Error) : Z :=
  switch (Code e)
    [ ([CodeNotFound], grpcNotFound)
    ; ([CodeExists; CodeUniqueViolation], grpcAlreadyExists)
    ; ([CodePermissionDenied; CodeAccessDenied], grpcPermissionDenied)
    ; ([CodeInvalid; CodeMalformed; CodeMissingField; CodeOutOfRange; CodeTooLarge; CodeUnsupportedFormat; CodeUnprocessable], grpcInvalidArgument)
    ; ([CodeConflict; CodeDeadlock], grpcAborted)
    ; ([CodePreconditionFailed], grpcFailedPrecondition)
    ; ([CodeRateLimited; CodeQuotaExceeded; CodeTooManyAttempts], grpcResourceExhausted)
    ; ([CodeTimeout; CodeDeadlineExceeded], grpcDeadlineExceeded)
    ; ([CodeCanceled], grpcCanceled)
    ; ([CodeUnavailable; CodeDatabaseError; CodeCacheError; CodeUpstreamError], grpcUnavailable)
    ; ([CodeNotImplemented], grpcUnimplemented)
    ; ([CodeTokenExpired; CodeUnauthorized; CodeTokenInvalid], grpcUnauthenticated)
    ; ([CodeInternal], grpcInternal) ]
    grpcUnknown.

(** ** pkg/response: the wire envelope *)

Module Response.

Record Envelope (D : Type) : Type := mkEnvelope { eCode : Z; eMessage : string; eData : option D }.
Arguments mkEnvelope {D} _ _ _.
Arguments eCode {D} _.
Arguments eMessage {D} _.
Arguments eData {D} _.

(** What [Write] does to its [http.ResponseWriter]: the header map's content
    type, the statuses passed to [WriteHeader], the body bytes. *)
Record ResponseWriter : Type := mkRW {
  contentType : string;
  headersWritten : list Z;
  body : string;
}.

Section Write.
  Context {D : Type}.
  (** [json.Marshal] on an envelope, and [w.Write] of the connection. *)
  Variable Marshal : Envelope D -> result string string.
  Variable connWrite : string -> option error.

Definition writeBody (w : ResponseWriter) (b : string) : ResponseWriter * option error :=
  match connWrite b with
  | Some e => (w, Some e)
  | None => (mkRW (contentType w) (headersWritten w) (body w +:+ b), None)
  end.

Definition New (code : Z) (message : string) (data : option D) : Envelope D :=
  mkEnvelope code message data.

(** The setters of the older response interface. *)
Definition SetCode (code : Z) (e : Envelope D) : Envelope D := mkEnvelope code (eMessage e) (eData e).
Definition SetMessage (message : string) (e : Envelope D) : Envelope D := mkEnvelope (eCode e) message (eData e).
Definition SetData (data : option D) (e : Envelope D) : Envelope D := mkEnvelope (eCode e) (eMessage e) data.

(** A response that is configured field by field is the one [New] builds, in any order. *)
Lemma setters_New (code : Z) (message : string) (data : option D) (e : Envelope D) :
  SetData data (SetMessage message (SetCode code e)) = New code message data
  /\ SetData data (SetCode code (SetMessage message e)) = New code message data
  /\ SetCode code (SetMessage message (SetData data e)) = New code message data.
Proof. by repeat split. Qed.

Definition Write (w : ResponseWriter) (status : Z) (env : option (Envelope D)) :
    ResponseWriter * option error :=
  let status := if (status =? 0)%Z then 200 else status in
  let env := default (mkEnvelope 1005 "empty response" None) env in
  let w := mkRW "application/json; charset=utf-8" (headersWritten w ++ [status]) (body w) in
  match Marshal env with
  | Err err =>
      let fallback := match Marshal (mkEnvelope 1001 ("marshal failure: " +:+ err) None) with
                      | Ok b => b
                      | Err _ => EmptyString
                      end in
      writeBody w fallback
  | Ok b => writeBody w b
  end.

  (** One status line per call, never a zero one; the body is a marshalled
      envelope even when the data cannot be marshalled. *)
Lemma Write_once (w : ResponseWriter) (status : Z) (env : option (Envelope D)) :
  let s := if (status =? 0)%Z then 200 else status in
  headersWritten (fst (Write w status env)) = headersWritten w ++ [s].
Proof.
  unfold Write, writeBody. repeat case_goal; done.
Qed.

Lemma Write_fallback (w : ResponseWriter) (status : Z) (env : Envelope D) (err b : string) :
  Marshal env = Err err ->
  Marshal (mkEnvelope 1001 ("marshal failure: " +:+ err) None) = Ok b ->
  connWrite b = None ->
  body (fst (Write w status (Some env))) = body w +:+ b /\ snd (Write w status (Some env)) = None.
Proof. intros H1 H2 H3. unfold Write, writeBody. cbn [default from_option id]. by rewrite H1, H2, H3. Qed.
End Write.
End Response.

(** ** Lemmas and theorems *)

(** The depth-first walk of [errors.Is] sees through [Wrap]. *)
Lemma Is_Wrap (code : Z) (err : error) (t : sentinel) : Is (Wrap code err) t = Is err t.
Proof. reflexivity. Qed.

Lemma Is_sentinel (s t : sentinel) : Is (ESentinel s) t = bool_decide (s = t).
Proof. reflexivity. Qed.

(** [errors.As] stops at the first application error, so the outer code hides
    the inner one. *)
Lemma IsCode_Wrap (code c : Z) (err : error) : IsCode (Wrap code err) c = (code =? c)%Z.
Proof. reflexivity. Qed.

#[export] Hint Rewrite Is_Wrap Is_sentinel IsCode_Wrap : aeus.

(** Case analysis on an error code, one case per code the tables name. *)
Ltac by_code e :=
  repeat match goal with
    | |- context [(Code e =? ?c)%Z] =>
        let H := fresh "H" in
        destruct (Z.eqb_spec (Code e) c) as [H|H]; [rewrite ?H; vm_compute; intuition congruence|]
    end.

(** The HTTP and gRPC status tables agree on the classes a client acts on
    (unauthenticated, permission, not found, throttled, deadline, cancelled,
    unimplemented, failed precondition), and neither table ever reports
    success: HTTP is in 400..599 and gRPC in 1..16 for every integer code. *)
Theorem transport_statuses_agree (e : Error) :
  (HTTPStatus e = 401 <-> GRPCStatus e = grpcUnauthenticated)
  /\ (HTTPStatus e = 403 <-> GRPCStatus e = grpcPermissionDenied)
  /\ (HTTPStatus e = 404 <-> GRPCStatus e = grpcNotFound)
  /\ (HTTPStatus e = 429 <-> GRPCStatus e = grpcResourceExhausted)
  /\ (HTTPStatus e = 504 <-> GRPCStatus e = grpcDeadlineExceeded)
  /\ (HTTPStatus e = 499 <-> GRPCStatus e = grpcCanceled)
  /\ (HTTPStatus e = 501 <-> GRPCStatus e = grpcUnimplemented)
  /\ (HTTPStatus e = 412 <-> GRPCStatus e = grpcFailedPrecondition)
  /\ (400 <= HTTPStatus e < 600)%Z /\ (1 <= GRPCStatus e <= 16)%Z.
Proof.
  unfold HTTPStatus, GRPCStatus, switch, existsb.
  by_code e.
  simpl. vm_compute. intuition congruence.
Qed.
