(* ===== verification/CliFrame.v ===== *)
(** [transport/cli/frame.go]: the binary frame of the CLI protocol, its reader
    over a byte stream and its writer over an [io.Writer]. *)

From Stdlib Require Import ZArith Lia String List Bool.
From Stdlib Require Import Strings.Byte.
From stdpp Require Import base tactics list strings.
From coqutil Require Import Word.LittleEndianList.
From S2P Require Import Prelude GoStrings Errs.

Local Open Scope Z_scope.
Local Open Scope aeus_scope.
Local Open Scope list_scope.

Notation bytes := (list byte).

Definition PacketTypeCompleter : byte := x01.
Definition PacketTypeCommand : byte := x02.
Definition PacketTypeHandshake : byte := x03.

Definition FlagPortion : byte := x00.
Definition FlagComplete : byte := x01.

(** types.go: the ASCII bytes "CLI" and "OK" *)
Definition Feature : bytes := list_byte_of_string "CLI".
Definition OK : bytes := list_byte_of_string "OK".

(** [frame.Data] is [None] when nil. *)
Record Frame : Type := mkFrame {
  FFeature : bytes;
  FType : byte;
  FFlag : byte;
  FSeq : Z;
  FData : option bytes;
  FError : string;
  FTimeout : Z;
  FTimestamp : Z;
}.

(** ** The reader *)

Section Reader.

(** A reader is the bytes still to come; a read either consumes its bytes or
    fails the frame. *)
Definition Read (A : Type) : Type := bytes -> result error (A * bytes).

Definition rret {A : Type} (a : A) : Read A := fun r => Ok (a, r).
Definition rseq {A B : Type} (m : Read A) (k : A -> Read B) : Read B :=
  fun r => match m r with
           | Ok (a, r') => k a r'
           | Err e => Err e
           end.
Definition rfail {A : Type} (e : sentinel) : Read A := fun _ => Err (ESentinel e).

(** [io.ReadFull] into a buffer of [n] bytes: end of stream before the first
    byte is [EOF], in the middle [ErrUnexpectedEOF]. *)
Definition ReadFull (n : nat) : Read bytes :=
  fun r =>
    if (n <=? length r)%nat then Ok (take n r, drop n r)
    else match r with
         | [] => Err (ESentinel EOF)
         | _ => Err (ESentinel ErrUnexpectedEOF)
         end.

(** [binary.Read(r, binary.LittleEndian, &x)] for an unsigned [x] of [n] bytes,
    an [int64] and a [byte]. *)
Definition readUint (n : nat) : Read Z := rseq (ReadFull n) (fun b => rret (le_combine b)).
Definition readInt64 : Read Z := rseq (readUint 8) (fun z => rret (wraps 64 z)).
Definition readByte : Read byte :=
  rseq (ReadFull 1) (fun b => match b with x :: _ => rret x | [] => rfail EOF end).

(** The optional payload: [if n > 0 { make; io.ReadFull }]. *)
Definition readOptional (n : Z) : Read (option bytes) :=
  if (0 <? n)%Z then rseq (ReadFull (Z.to_nat n)) (fun b => rret (Some b)) else rret None.
End Reader.

Notation "x <-r m ; k" := (rseq m (fun x => k))
  (at level 100, m at next level, right associativity) : aeus_scope.

Definition bytes_eqb (a b : bytes) : bool :=
  (length a =? length b)%nat && forallb (fun '(x, y) => Byte.eqb x y) (combine a b).

Definition readFrame : Read Frame :=
  feature <-r ReadFull 3;
  if negb (bytes_eqb feature Feature) then rfail ErrUnexpectedEOF
  else
    type <-r readByte;
    flag <-r readByte;
    seq <-r readUint 2;
    timeout <-r readInt64;
    timestamp <-r readInt64;
    dataLength <-r readUint 2;
    errorLength <-r readUint 2;
    data <-r readOptional dataLength;
    errBuf <-r readOptional errorLength;
    rret (mkFrame feature type flag seq data
            (match errBuf with Some b => string_of_list_byte b | None => EmptyString end)
            timeout timestamp).

(** ** The writer *)

Section Writer.
  (** [io.Writer]: the state of the connection and its [Write] method, which
      returns how many bytes it took and an error. *)
  Context {W : Type}.
  Variable Write : W -> bytes -> W * Z * option error.

Definition putErr (w : W) (b : bytes) : W * option error :=
  let '(w', _, e) := Write w b in (w', e).

  (** [binary.Write(w, binary.LittleEndian, x)] *)
Definition putUint (n : nat) (w : W) (x : Z) : W * option error := putErr w (le_split n x).
Definition putByte (w : W) (x : byte) : W * option error := putErr w [x].

Definition andThen (m : W * option error) (k : W -> W * option error) : W * option error :=
  match m with
  | (w, None) => k w
  | (w, Some e) => (w, Some e)
  end.

  (** The payload writes report a short write and, unlike the header writes, do
      not return: [err] is overwritten by the next payload. *)
Definition putPayload (w : W) (len : Z) (b : bytes) (err : option error) : W * option error :=
  if (0 <? len)%Z then
    let '(w', n, e) := Write w b in
    (w', match e with
         | Some e => Some e
         | None => if (n <? len)%Z then Some (ESentinel ErrShortWrite) else None
         end)
  else (w, err).

Definition writeFrame (w : W) (frame : Frame) : W * option error :=
  andThen (putErr w Feature) (fun w =>
  let dl := match FData frame with Some d => Z.of_nat (length d) | None => 0 end in
  if (MaxUint16 <? dl)%Z then (w, Some (ESentinel ErrNoProgress))
  else
    let dataLength := uint16 dl in
    let errBuf := list_byte_of_string (FError frame) in
    let errorLength := uint16 (Z.of_nat (length errBuf)) in
    andThen (putByte w (FType frame)) (fun w =>
    andThen (putByte w (FFlag frame)) (fun w =>
    andThen (putUint 2 w (FSeq frame)) (fun w =>
    andThen (putUint 8 w (FTimeout frame)) (fun w =>
    andThen (putUint 8 w (FTimestamp frame)) (fun w =>
    andThen (putUint 2 w dataLength) (fun w =>
    andThen (putUint 2 w errorLength) (fun w =>
    let '(w, err) := putPayload w dataLength (default [] (FData frame)) None in
    putPayload w errorLength errBuf err)))))))).
End Writer.

Definition newFrame (now : Z) (t f : byte) (seq timeout : Z) (data : option bytes) : Frame :=
  mkFrame Feature t f seq data EmptyString timeout now.

(** A connection that takes everything: the bytes on the wire. *)
Definition wireWrite (w : bytes) (b : bytes) : bytes * Z * option error :=
  (w ++ b, Z.of_nat (length b), None).

(** ** Reader lemmas *)

Lemma ReadFull_app (b r : bytes) (n : nat) :
  n = length b -> ReadFull n (b ++ r) = Ok (b, r).
Proof.
  intros ->. unfold ReadFull. rewrite length_app.
  replace (length b <=? length b + length r)%nat with true by (symmetry; apply Nat.leb_le; lia).
  by destruct (take_drop_app_length b r) as [-> ->].
Qed.

Lemma readUint_app (n : nat) (z : Z) (r : bytes) :
  readUint n (le_split n z ++ r) = Ok (wrapu (Z.of_nat n * 8) z, r).
Proof.
  unfold readUint, rseq. rewrite ReadFull_app by (by rewrite length_le_split).
  unfold rret. by rewrite le_combine_split.
Qed.

Lemma readInt64_app (z : Z) (r : bytes) :
  readInt64 (le_split 8 z ++ r) = Ok (wraps 64 z, r).
Proof.
  unfold readInt64, rseq. rewrite readUint_app. unfold rret.
  change (Z.of_nat 8 * 8) with 64. by rewrite wraps_wrapu.
Qed.

Lemma readByte_app (b : byte) (r : bytes) : readByte ([b] ++ r) = Ok (b, r).
Proof. reflexivity. Qed.

Lemma readOptional_app (b r : bytes) :
  readOptional (Z.of_nat (length b)) (b ++ r) = Ok (match b with [] => None | _ => Some b end, r).
Proof.
  unfold readOptional. destruct b as [|x b]; [done|].
  replace (0 <? Z.of_nat (length (x :: b))) with true by (symmetry; apply Z.ltb_lt; simpl; lia).
  unfold rseq. by rewrite ReadFull_app by lia.
Qed.

Lemma bytes_eqb_eq (a b : bytes) : bytes_eqb a b = true <-> a = b.
Proof.
  unfold bytes_eqb. rewrite andb_true_iff, Nat.eqb_eq. revert b.
  induction a as [|x a IH]; intros [|y b]; simpl; try (split; intros; intuition done).
  rewrite andb_true_iff. specialize (IH b). split.
  - intros [[= Hl] [Hx Hab]]. f_equal; [by apply Byte.byte_dec_bl|]. by apply IH.
  - intros [= -> ->]. split; [done|]. split; [by apply Byte.byte_dec_lb|]. by apply IH.
Qed.

#[export] Hint Rewrite readUint_app readInt64_app readByte_app readOptional_app : frame.

(** ** The wire image of a frame *)

(** The header of a frame announcing [dl] data and [el] error bytes. *)
Definition header (f : Frame) (dl el : Z) : bytes :=
  Feature ++ [FType f] ++ [FFlag f] ++ le_split 2 (FSeq f) ++ le_split 8 (FTimeout f)
    ++ le_split 8 (FTimestamp f) ++ le_split 2 (uint16 dl) ++ le_split 2 (uint16 el).

Definition frameData (f : Frame) : bytes := default [] (FData f).
Definition frameError (f : Frame) : bytes := list_byte_of_string (FError f).

(** Every byte [writeFrame] puts on a connection that takes everything. *)
Definition encode (f : Frame) : bytes :=
  let dl := Z.of_nat (length (frameData f)) in
  let el := Z.of_nat (length (frameError f)) in
  header f dl el ++ frameData f ++ (if (0 <? uint16 el)%Z then frameError f else []).

(** The fields as the machine stores them. *)
Definition frame_wf (f : Frame) : Prop :=
  in_u 16 (FSeq f) /\ in_s 64 (FTimeout f) /\ in_s 64 (FTimestamp f)
  /\ (Z.of_nat (length (frameData f)) <= MaxUint16)%Z.

(** What a reader rebuilds: the feature is the constant, empty data is nil. *)
Definition wire_norm (f : Frame) : Frame :=
  mkFrame Feature (FType f) (FFlag f) (FSeq f)
    (match frameData f with [] => None | _ => Some (frameData f) end)
    (FError f) (FTimeout f) (FTimestamp f).

Lemma uint16_len (n : nat) : (Z.of_nat n <= MaxUint16)%Z -> uint16 (Z.of_nat n) = Z.of_nat n.
Proof. intros H. apply wrapu_id. unfold in_u, MaxUint16 in *. change (2 ^ 16) with 65536. lia. Qed.

Lemma dl_frameData (f : Frame) :
  match FData f with Some d => Z.of_nat (length d) | None => 0 end = Z.of_nat (length (frameData f)).
Proof. unfold frameData. by destruct (FData f). Qed.

Lemma putPayload_wire (w b : bytes) (err : option error) :
  putPayload wireWrite w (uint16 (Z.of_nat (length b))) b err
  = (w ++ (if (0 <? uint16 (Z.of_nat (length b)))%Z then b else []),
     if (0 <? uint16 (Z.of_nat (length b)))%Z then None else err).
Proof.
  unfold putPayload, wireWrite. destruct (0 <? _); [|by rewrite app_nil_r].
  replace (Z.of_nat (length b) <? uint16 (Z.of_nat (length b)))%Z with false; [done|].
  symmetry. apply Z.ltb_ge. apply Z.mod_le; lia.
Qed.

Lemma payload_data (d : bytes) :
  (Z.of_nat (length d) <= MaxUint16)%Z ->
  (if (0 <? uint16 (Z.of_nat (length d)))%Z then d else []) = d.
Proof. intros H. rewrite uint16_len by done. by destruct d. Qed.

Lemma writeFrame_wire (w : bytes) (f : Frame) :
  (Z.of_nat (length (frameData f)) <= MaxUint16)%Z ->
  writeFrame wireWrite w f = (w ++ encode f, None).
Proof.
  intros Hd. unfold writeFrame. rewrite dl_frameData.
  unfold andThen, putErr, putByte, putUint, putErr, wireWrite at 1 2 3 4 5 6 7 8.
  replace (MaxUint16 <? Z.of_nat (length (frameData f))) with false by (symmetry; apply Z.ltb_ge; lia).
  fold (frameData f) (frameError f).
  rewrite putPayload_wire. rewrite (payload_data (frameData f)) by done.
  rewrite putPayload_wire. unfold encode, header.
  repeat rewrite <- app_assoc. by repeat case_goal.
Qed.

(** An oversized frame fails only after the three feature bytes are out. *)
Lemma writeFrame_oversized (w : bytes) (f : Frame) :
  (MaxUint16 < Z.of_nat (length (frameData f)))%Z ->
  writeFrame wireWrite w f = (w ++ Feature, Some (ESentinel ErrNoProgress)).
Proof.
  intros Hd. unfold writeFrame. rewrite dl_frameData. unfold andThen, putErr, wireWrite at 1.
  by replace (MaxUint16 <? Z.of_nat (length (frameData f))) with true by (symmetry; apply Z.ltb_lt; lia).
Qed.

(** Reading a header followed by payloads of the announced sizes. *)
Lemma readFrame_header (f : Frame) (dl el : Z) (d e r : bytes) :
  uint16 dl = Z.of_nat (length d) -> uint16 el = Z.of_nat (length e) ->
  readFrame (header f dl el ++ d ++ e ++ r) =
    Ok (mkFrame Feature (FType f) (FFlag f) (wrapu 16 (FSeq f))
          (match d with [] => None | _ => Some d end)
          (match e with [] => EmptyString | _ => string_of_list_byte e end)
          (wraps 64 (FTimeout f)) (wraps 64 (FTimestamp f)), r).
Proof.
  intros Hd He. unfold readFrame, header. repeat rewrite <- app_assoc.
  unfold rseq at 1. rewrite ReadFull_app by reflexivity.
  replace (bytes_eqb Feature Feature) with true by reflexivity. cbn [negb].
  unfold rseq at 1. rewrite readByte_app.
  unfold rseq at 1. rewrite readByte_app.
  unfold rseq at 1. rewrite readUint_app.
  unfold rseq at 1. rewrite readInt64_app.
  unfold rseq at 1. rewrite readInt64_app.
  unfold rseq at 1. rewrite readUint_app.
  unfold rseq at 1. rewrite readUint_app.
  change (Z.of_nat 2 * 8) with 16.
  assert (forall z, wrapu 16 (uint16 z) = uint16 z) as Hw.
  { intros z. apply wrapu_id, wrapu_range. lia. }
  rewrite !Hw, Hd, He.
  unfold rseq at 1. rewrite readOptional_app.
  unfold rseq at 1. rewrite readOptional_app. unfold rret.
  by destruct e.
Qed.

Lemma string_of_frameError (f : Frame) :
  match frameError f with [] => EmptyString | _ => string_of_list_byte (frameError f) end = FError f.
Proof.
  transitivity (string_of_list_byte (frameError f)); [by destruct (frameError f)|].
  apply string_of_list_byte_of_string.
Qed.

(** A reader is [local] when it consumes a prefix and looks at nothing else. *)
Definition local {A : Type} (m : Read A) : Prop :=
  forall r a r', m r = Ok (a, r') -> exists c, r = c ++ r' /\ forall x, m (c ++ x) = Ok (a, x).

Lemma local_rret {A : Type} (a : A) : local (rret a).
Proof. intros r a' r' [= <- <-]. by exists []. Qed.

Lemma local_rfail {A : Type} (e : sentinel) : local (@rfail A e).
Proof. by intros r a' r' ?. Qed.

Lemma local_rseq {A B : Type} (m : Read A) (k : A -> Read B) :
  local m -> (forall a, local (k a)) -> local (rseq m k).
Proof.
  intros Hm Hk r b r'. unfold rseq at 1. destruct (m r) as [[a r1]|e] eqn:E; [|done].
  intros E2. destruct (Hm _ _ _ E) as (c1 & -> & H1). destruct (Hk _ _ _ _ E2) as (c2 & -> & H2).
  exists (c1 ++ c2). split; [by rewrite app_assoc|]. intros x.
  unfold rseq. by rewrite <- app_assoc, H1.
Qed.

Lemma local_ReadFull (n : nat) : local (ReadFull n).
Proof.
  intros r a r'. unfold ReadFull. destruct (Nat.leb_spec n (length r)) as [H|H]; [|by destruct r].
  intros [= <- <-]. exists (take n r). split; [by rewrite take_drop|]. intros x.
  change (ReadFull n (take n r ++ x) = Ok (take n r, x)). apply ReadFull_app. rewrite length_take. lia.
Qed.

#[export] Hint Resolve local_rret local_rfail local_rseq local_ReadFull : frame.

Lemma local_readUint (n : nat) : local (readUint n).
Proof. unfold readUint. auto with frame. Qed.
#[export] Hint Resolve local_readUint : frame.

Lemma local_readInt64 : local readInt64.
Proof. unfold readInt64. auto with frame. Qed.

Lemma local_readByte : local readByte.
Proof. unfold readByte. apply local_rseq; [auto with frame|]. intros []; auto with frame. Qed.

Lemma local_readOptional (n : Z) : local (readOptional n).
Proof. unfold readOptional. case_goal; auto with frame. Qed.
#[export] Hint Resolve local_readInt64 local_readByte local_readOptional : frame.

Lemma local_readFrame : local readFrame.
Proof.
  unfold readFrame. apply local_rseq; [auto with frame|]. intros feature.
  case_goal; [auto with frame|].
  repeat (apply local_rseq; [auto with frame|]; intros ?). auto with frame.
Qed.

Lemma readFrame_encode (f : Frame) (r : bytes) :
  frame_wf f -> (Z.of_nat (length (frameError f)) <= MaxUint16)%Z ->
  readFrame (encode f ++ r) = Ok (wire_norm f, r).
Proof.
  intros (Hs & Ht & Hts & Hd) He. unfold encode.
  rewrite (payload_data (frameError f)) by done. repeat rewrite <- app_assoc.
  rewrite readFrame_header by (apply uint16_len; done).
  rewrite wrapu_id by exact Hs. rewrite (wraps_id 64 (FTimeout f)), (wraps_id 64 (FTimestamp f)) by (done || lia).
  by rewrite string_of_frameError.
Qed.

(** The read loop of a connection: frames until the first failure. *)
Fixpoint readFrames (n : nat) (r : bytes) : list Frame * bytes :=
  match n with
  | O => ([], r)
  | S n' => match readFrame r with
            | Ok (f, r') => let '(fs, r'') := readFrames n' r' in (f :: fs, r'')
            | Err _ => ([], r)
            end
  end.

Definition frame_ok (f : Frame) : Prop :=
  frame_wf f /\ (Z.of_nat (length (frameError f)) <= MaxUint16)%Z.

Lemma readFrames_concat (fs : list Frame) (r : bytes) :
  Forall frame_ok fs ->
  readFrames (length fs) (concat (map encode fs) ++ r) = (map wire_norm fs, r).
Proof.
  induction 1 as [|f fs [Hf He] Hall IH]; [done|]. cbn [length map concat readFrames].
  rewrite <- app_assoc, readFrame_encode by done. by rewrite IH.
Qed.

(** ** Theorems *)

(** C1. Frame round trip: a well-formed frame whose error text fits the 16-bit
    length field, written to a connection, is read back field by field
    (nil-normalised), and the reader stops exactly at the end of the frame,
    whatever follows it. *)
Theorem readFrame_writeFrame (f : Frame) (r : bytes) :
  frame_wf f -> (Z.of_nat (length (frameError f)) <= MaxUint16)%Z ->
  exists wire, writeFrame wireWrite [] f = (wire, None)
               /\ readFrame (wire ++ r) = Ok (wire_norm f, r).
Proof.
  intros Hwf He. exists (encode f).
  split; [apply (writeFrame_wire []), Hwf | by apply readFrame_encode].
Qed.

Definition ping : Frame :=
  mkFrame Feature PacketTypeCommand FlagComplete 7 (Some (list_byte_of_string "help")) "warn" 30000000000 1700000000.

Lemma readFrame_writeFrame_witness :
  frame_wf ping /\ exists wire, writeFrame wireWrite [] ping = (wire, None)
               /\ readFrame (wire ++ [x43]) = Ok (wire_norm ping, [x43]).
Proof.
  assert (frame_wf ping) as Hwf.
  { unfold frame_wf, in_u, in_s, MaxUint16, ping. cbn -[Z.pow Z.le Z.lt]. lia. }
  split; [exact Hwf|]. apply (readFrame_writeFrame ping [x43] Hwf). vm_compute. discriminate.
Defined.

(** Truncation safety: no strict prefix of a written frame is accepted, so a
    connection cut in the middle of a frame ends in an error and never in a
    frame made of partial data. *)
Theorem readFrame_truncated (f : Frame) (p q : bytes) :
  frame_ok f -> encode f = p ++ q -> q <> [] -> exists e, readFrame p = Err e.
Proof.
  intros [Hwf He] Hpq Hq. destruct (readFrame p) as [[f' r']|e] eqn:E; [|eauto]. exfalso.
  destruct (local_readFrame _ _ _ E) as (c & -> & Hc).
  pose proof (readFrame_encode f [] Hwf He) as Hok. rewrite app_nil_r, Hpq, <- app_assoc, Hc in Hok.
  injection Hok as _ Hnil. by apply app_eq_nil in Hnil as [_ ->].
Qed.

Lemma ping_ok : frame_ok ping.
Proof.
  split; [|vm_compute; discriminate].
  unfold frame_wf, in_u, in_s, MaxUint16, ping. cbn -[Z.pow Z.le Z.lt]. lia.
Qed.

Lemma readFrame_truncated_witness :
  exists e, readFrame (take 20 (encode ping)) = Err e.
Proof.
  apply (readFrame_truncated ping (take 20 (encode ping)) (drop 20 (encode ping)) ping_ok).
  - symmetry. apply take_drop.
  - vm_compute. discriminate.
Defined.

(** The 16-bit error length wraps: with an error text of [L] bytes the reader
    gets the first [L mod 65536] of them and, unless that is 0, the other
    [L - L mod 65536] bytes stay in the stream, where the next read takes them
    for the start of a frame. *)
Theorem long_error_desynchronises (f : Frame) (r : bytes) :
  frame_wf f ->
  let k := Z.to_nat (Z.of_nat (length (frameError f)) mod 65536) in
  readFrame (encode f ++ r) =
    Ok (mkFrame Feature (FType f) (FFlag f) (FSeq f) (FData (wire_norm f))
          (string_of_list_byte (take k (frameError f))) (FTimeout f) (FTimestamp f),
        if (k =? 0)%nat then r else drop k (frameError f) ++ r).
Proof.
  intros (Hs & Ht & Hts & Hd) k.
  pose proof (Z.mod_pos_bound (Z.of_nat (length (frameError f))) 65536 ltac:(lia)) as Hk.
  pose proof (Z.mod_le (Z.of_nat (length (frameError f))) 65536 ltac:(lia) ltac:(lia)) as Hle.
  assert (uint16 (Z.of_nat (length (frameError f))) = Z.of_nat (length (take k (frameError f)))) as Hu.
  { rewrite length_take. unfold k, uint16, wrapu. change (2 ^ 16) with 65536. lia. }
  assert ((if (0 <? uint16 (Z.of_nat (length (frameError f))))%Z then frameError f else []) ++ r
          = take k (frameError f) ++ (if (k =? 0)%nat then r else drop k (frameError f) ++ r)) as Hsplit.
  { unfold uint16, wrapu. change (2 ^ 16) with 65536.
    destruct (Nat.eqb_spec k 0) as [Hz|Hz].
    - rewrite Hz. replace (0 <? _) with false by (symmetry; apply Z.ltb_ge; lia). done.
    - replace (0 <? _) with true by (symmetry; apply Z.ltb_lt; lia). by rewrite app_assoc, take_drop. }
  unfold encode. repeat rewrite <- app_assoc. rewrite Hsplit.
  rewrite readFrame_header by (done || by apply uint16_len).
  rewrite wrapu_id, !wraps_id by (done || lia). unfold wire_norm. cbn [FData]. do 3 f_equal.
  by destruct (take k (frameError f)).
Qed.

(** A reply whose error text is 65538 bytes long. *)
Definition huge : Frame :=
  mkFrame Feature PacketTypeCommand FlagComplete 1 None
    (string_of_list_byte (repeat x41 (N.to_nat 65538))) 0 0.

Lemma long_error_desynchronises_witness :
  length (frameError huge) = N.to_nat 65538
  /\ exists f', readFrame (encode huge ++ []) = Ok (f', drop 2 (frameError huge) ++ [])
                /\ FError f' = string_of_list_byte [x41; x41].
Proof.
  assert (frameError huge = repeat x41 (N.to_nat 65538)) as Hf.
  { unfold frameError, huge. cbn [FError]. apply list_byte_of_string_of_list_byte. }
  assert (frame_wf huge) as Hwf.
  { unfold frame_wf, in_u, in_s, MaxUint16, huge, frameData. cbn -[Z.pow Z.le Z.lt N.to_nat]. lia. }
  pose proof (long_error_desynchronises huge [] Hwf) as H. cbv zeta in H.
  assert (Z.to_nat (Z.of_nat (length (frameError huge)) mod 65536) = 2%nat) as Hk.
  { rewrite Hf, repeat_length. vm_compute. reflexivity. }
  rewrite Hk in H. cbn [Nat.eqb] in H. split; [by rewrite Hf, repeat_length|].
  eexists. split; [exact H|]. cbn [FError]. rewrite Hf. f_equal.
Defined.

(** A connection that fails one write, the [k]-th, and recovers: the state is
    the number of writes so far and the bytes taken. *)
Definition flakyWrite (k : nat) (e : error) (w : nat * bytes) (b : bytes) : (nat * bytes) * Z * option error :=
  let '(i, out) := w in
  if (i =? k)%nat then ((S i, out), 0, Some e)
  else ((S i, out ++ b), Z.of_nat (length b), None).

(** A failed payload write is reported as success: the ninth write of a frame
    is its data, and when it fails but the error text that follows is written,
    [writeFrame] returns no error although the data bytes are not on the wire. *)
Theorem data_write_error_lost (f : Frame) (e : error) :
  frame_ok f -> frameData f <> [] -> frameError f <> [] ->
  writeFrame (flakyWrite 8 e) (0%nat, []) f
  = ((10%nat, header f (Z.of_nat (length (frameData f))) (Z.of_nat (length (frameError f))) ++ frameError f), None).
Proof.
  intros [(_ & _ & _ & Hld) Hlb] Hd Hb. unfold writeFrame. rewrite dl_frameData.
  fold (frameData f) (frameError f).
  unfold andThen, putErr, putByte, putUint, putErr, flakyWrite at 1 2 3 4 5 6 7 8. cbn [Nat.eqb].
  replace (MaxUint16 <? Z.of_nat (length (frameData f))) with false by (symmetry; apply Z.ltb_ge; lia).
  unfold putPayload. rewrite !uint16_len by done.
  assert (forall l : bytes, l <> [] -> (0 <? Z.of_nat (length l)) = true) as Hpos.
  { intros [|x l] H; [done|]. apply Z.ltb_lt. simpl. lia. }
  rewrite !Hpos by done. unfold flakyWrite. cbn [Nat.eqb]. rewrite Z.ltb_irrefl.
  unfold header. rewrite !uint16_len by done. by repeat rewrite <- app_assoc.
Qed.

Lemma data_write_error_lost_witness :
  frame_ok ping /\ writeFrame (flakyWrite 8 (EPlain "reset")) (0%nat, []) ping
    = ((10%nat, header ping 4 4 ++ list_byte_of_string "warn"), None).
Proof.
  split; [exact ping_ok|].
  apply (data_write_error_lost ping (EPlain "reset") ping_ok); vm_compute; discriminate.
Defined.
