(* ===== verification/CliRouter.v ===== *)
(** [transport/cli/router.go]: the command tree of the CLI server: registration
    of a slash-separated path, lookup of a token list, completion and help text. *)

From Stdlib Require Import ZArith Lia String Ascii List Bool.
From stdpp Require Import base tactics list strings.
From S2P Require Import Prelude GoStrings Errs.

Local Open Scope string_scope.
Local Open Scope list_scope.
Local Open Scope aeus_scope.

Definition slash : ascii := "/"%char.
Definition colon : ascii := ":"%char.

Section Router.

(** [HandleFunc], opaque here: a handler is run by the server. *)
Context {H : Type}.

Record Command : Type := mkCommand {
  cPath : string;
  cHandle : option H;
  cDescription : string;
}.

Definition noCommand : Command := mkCommand EmptyString None EmptyString.

Inductive Router : Type :=
| mkRouter (name : string) (path : list string) (children : list Router)
    (command : Command) (params : list string).

Definition rname (r : Router) : string := let '(mkRouter n _ _ _ _) := r in n.
Definition rpath (r : Router) : list string := let '(mkRouter _ p _ _ _) := r in p.
Definition rchildren (r : Router) : list Router := let '(mkRouter _ _ c _ _) := r in c.
Definition rcommand (r : Router) : Command := let '(mkRouter _ _ _ c _) := r in c.
Definition rparams (r : Router) : list string := let '(mkRouter _ _ _ _ p) := r in p.

Definition newRouter (name : string) : Router := mkRouter name [] [] noCommand [].

Fixpoint findChild (l : list Router) (name : string) : option Router :=
  match l with
  | [] => None
  | c :: l' => if String.eqb (rname c) name then Some c else findChild l' name
  end.

Definition getChildren (r : Router) (name : string) : option Router := findChild (rchildren r) name.

(** The children after the child of that name was changed through its pointer;
    a child that was not there is at the end of the list. *)
Fixpoint setChild (l : list Router) (name : string) (c : Router) : list Router :=
  match l with
  | [] => [c]
  | x :: l' => if String.eqb (rname x) name then c :: l' else x :: setChild l' name c
  end.

(** ** Registration *)

(** The name of the next level and the path that remains for it:
    [path[:pos], path[pos:]], with the placeholder name "-" standing for "app". *)
Definition splitName (path : string) : string * string :=
  let '(name, path) := match cutByte path slash with
                       | Some (before, after) => (before, String slash after)
                       | None => (path, EmptyString)
                       end in
  (if String.eqb name "-" then "app" else name, path).

(** The child of that name, created with the extended path when missing. *)
Definition childOf (r : Router) (name : string) : Router :=
  match getChildren r name with
  | Some c => c
  | None => let '(mkRouter cn _ cc cmd cps) := newRouter name in
            mkRouter cn (rpath r ++ [name]) cc cmd cps
  end.

(** The recursion of [Handle] descends on the path; [None] is out of fuel. *)
Fixpoint HandleFuel (n : nat) (r : Router) (path : string) (command : Command) :
    option (Router * option error) :=
  match n with
  | O => None
  | S n' =>
      let '(mkRouter rn rp rc rcmd rps) := r in
      let path := TrimSuffix path "/" in
      let path := TrimPrefix path "/" in
      match path with
      | EmptyString => Some (mkRouter rn rp rc command rps, None)
      | String c0 _ =>
          if Ascii.eqb c0 colon then
            let ss := SplitByte path slash in
            Some (mkRouter rn rp rc command (rps ++ map (fun s => TrimPrefix s ":") ss), None)
          else
            let '(name, path) := splitName path in
            let children := childOf r name in
            match cHandle (rcommand children) with
            | Some _ =>
                Some (r, Some (EWrap ("handle already registered: /" +:+ Join (rpath children) "/")
                                 [ESentinel CliErrHandleRegistered]))
            | None =>
                match HandleFuel n' children path command with
                | Some (children', err) =>
                    Some (mkRouter rn rp (setChild rc name children') rcmd rps, err)
                | None => None
                end
            end
      end
  end.

(** Each level drops at least one byte of the path (see [Handle_total]). *)
Definition Handle (r : Router) (path : string) (command : Command) : Router * option error :=
  match HandleFuel (S (String.length path)) r path command with
  | Some x => x
  | None => (r, None)
  end.

(** ** Lookup *)

Fixpoint Lookup (r : Router) (tokens : list string) : result error (Router * list string) :=
  let here := match cHandle (rcommand r) with
              | None => Err (ESentinel CliErrNotFound)
              | Some _ => Ok (r, tokens)
              end in
  match tokens with
  | t :: tokens' => match getChildren r t with
                    | Some c => Lookup c tokens'
                    | None => here
                    end
  | [] => here
  end.

Fixpoint Completer (r : Router) (tokens : list string) : list string :=
  match tokens with
  | [] => map (fun c => Join (rpath c) " ") (rchildren r)
  | token :: tokens' =>
      match getChildren r token with
      | None => map (fun c => Join (rpath c) " ")
                  (filter (fun c => HasPrefix (rname c) token = true) (rchildren r))
      | Some c => Completer c tokens'
      end
  end.

Definition Usage (r : Router) : string :=
  match rpath r with
  | [] => EmptyString
  | p => "Usage: " +:+ Join p " " +:+ String.concat EmptyString (map (fun s => " {" +:+ s +:+ "}") (rparams r))
  end.

(** [walkFunc] of [String]: a node with a handler is one line and hides its
    subtree. *)
Record commander : Type := mkCommander { coName : string; coPath : string; coDescription : string }.

Fixpoint walk (r : Router) : list commander :=
  let '(mkRouter name path children command _) := r in
  match cHandle command with
  | Some _ => [mkCommander name (Join path " ") (cDescription command)]
  | None => flat_map walk children
  end.

(** [fmt]'s width counts runes: every byte that does not continue one. *)
Fixpoint runes (s : string) : nat :=
  match s with
  | EmptyString => 0
  | String a s' =>
      (if (128 <=? nat_of_ascii a)%nat && (nat_of_ascii a <? 192)%nat then 0 else 1) + runes s'
  end.
Definition padRight (w : nat) (s : string) : string := s +:+ Repeat " " (w - runes s).

(** [runewidth.StringWidth] is the display width, a library function. *)
Definition RouterString (StringWidth : string -> nat) (r : Router) : string :=
  let vs := walk r in
  let maxWidth := fold_left (fun m v => Nat.max m (StringWidth (coPath v))) vs 0%nat in
  String.concat EmptyString
    (map (fun v => padRight (maxWidth + 4) (coPath v) +:+ " " +:+ coDescription v
                   +:+ String (ascii_of_nat 10) EmptyString) vs).

(** ** Lemmas *)

Lemma findChild_name (l : list Router) (name : string) (c : Router) :
  findChild l name = Some c -> rname c = name.
Proof.
  induction l as [|x l IH]; simpl; [done|].
  destruct (String.eqb_spec (rname x) name) as [Hx|Hx]; [by intros [= <-]|]. auto.
Qed.

Lemma findChild_set (l : list Router) (name : string) (c : Router) :
  rname c = name -> findChild (setChild l name c) name = Some c.
Proof.
  intros Hc. induction l as [|x l IH]; simpl.
  - by rewrite Hc, String.eqb_refl.
  - destruct (String.eqb_spec (rname x) name) as [Hx|Hx]; simpl.
    + by rewrite Hc, String.eqb_refl.
    + destruct (String.eqb_spec (rname x) name); [done|]. exact IH.
Qed.

Lemma findChild_set_ne (l : list Router) (name name' : string) (c : Router) :
  rname c = name -> name <> name' -> findChild (setChild l name c) name' = findChild l name'.
Proof.
  intros Hc Hne. induction l as [|x l IH]; simpl.
  - by destruct (String.eqb_spec (rname c) name'); [congruence|].
  - destruct (String.eqb_spec (rname x) name) as [Hx|Hx]; simpl.
    + destruct (String.eqb_spec (rname c) name'); [congruence|].
      by destruct (String.eqb_spec (rname x) name'); [congruence|].
    + by rewrite IH.
Qed.

Lemma setChild_same (l : list Router) (name : string) (c : Router) :
  findChild l name = Some c -> setChild l name c = l.
Proof.
  induction l as [|x l IH]; simpl; [done|].
  destruct (String.eqb (rname x) name); [by intros [= ->]|]. intros E. by rewrite IH.
Qed.

(** Stripping one slash at each end, as the first lines of [Handle] do. *)
Definition trimSlashes (path : string) : string := TrimPrefix (TrimSuffix path "/") "/".

Lemma TrimSuffix_length (s p : string) : String.length (TrimSuffix s p) <= String.length s.
Proof.
  unfold TrimSuffix. destruct (cutSuffix s p) as [r|] eqn:E; [|done].
  apply cutSuffix_Some in E as ->. rewrite length_append. lia.
Qed.

Lemma TrimPrefix_slash (s : string) :
  (exists t, s = String slash t /\ TrimPrefix s "/" = t)
  \/ (TrimPrefix s "/" = s /\ forall t, s <> String slash t).
Proof.
  unfold TrimPrefix. destruct s as [|a s]; cbn [cutPrefix]; [right; split; [done|discriminate]|].
  change "/"%char with slash.
  destruct (Ascii.eqb_spec slash a) as [<-|Hne]; [left; eauto|].
  right. split; [done|]. by intros t [= ->].
Qed.

(** The path handed to the child is shorter than the path received. *)
Lemma splitName_shorter (path c0 name rest : string) (a : ascii) :
  trimSlashes path = String a c0 -> splitName (String a c0) = (name, rest) ->
  String.length rest < String.length path.
Proof.
  intros Ht Hs. unfold trimSlashes in Ht. pose proof (TrimSuffix_length path "/") as Hl.
  unfold splitName in Hs. destruct (cutByte (String a c0) slash) as [[before after]|] eqn:Hc.
  2:{ injection Hs as _ <-. destruct path; [vm_compute in Ht; done|]. cbn [String.length]. lia. }
  injection Hs as _ <-. apply cutByte_Some in Hc.
  assert (String.length (String a c0) = String.length before + S (String.length after)) as Hlen.
  { by rewrite Hc, length_append. }
  destruct (TrimPrefix_slash (TrimSuffix path "/")) as [(t & Hs & Ht')|[Ht' Hno]].
  - rewrite Hs in Hl. rewrite Ht' in Ht. subst t. cbn [String.length] in *. lia.
  - rewrite Ht' in Ht. rewrite Ht in Hl, Hno.
    destruct before as [|b before]; [simpl in Hc; exfalso; eapply Hno, Hc|].
    cbn [String.length] in *. lia.
Qed.

(** One level of [Handle], by cases: the command lands here, the child refuses
    it, or the child takes it. *)
Lemma HandleFuel_cases (n : nat) (r : Router) (path : string) (command : Command) x :
  HandleFuel (S n) r path command = Some x ->
  (exists ps, x = (mkRouter (rname r) (rpath r) (rchildren r) command ps, None)
              /\ (trimSlashes path = EmptyString /\ ps = rparams r
                  \/ exists q, trimSlashes path = String colon q
                     /\ ps = rparams r ++ map (fun s => TrimPrefix s ":") (SplitByte (String colon q) slash)))
  \/ (exists a q name rest, trimSlashes path = String a q /\ a <> colon
       /\ splitName (String a q) = (name, rest)
       /\ ((exists e, x = (r, Some e) /\ cHandle (rcommand (childOf r name)) <> None)
           \/ exists c' err, cHandle (rcommand (childOf r name)) = None
              /\ HandleFuel n (childOf r name) rest command = Some (c', err)
              /\ x = (mkRouter (rname r) (rpath r) (setChild (rchildren r) name c') (rcommand r) (rparams r), err))).
Proof.
  destruct r as [rn rp rc rcmd rps]. cbn -[childOf splitName].
  change (TrimPrefix (TrimSuffix path "/") "/") with (trimSlashes path).
  destruct (trimSlashes path) as [|a q] eqn:Et.
  { intros [= <-]. left. eauto 10. }
  destruct (Ascii.eqb_spec a colon) as [->|Ha].
  { intros [= <-]. left. eexists. split; [done|]. right. eauto. }
  destruct (splitName (String a q)) as [name rest] eqn:Es.
  intros Hx. right. exists a, q, name, rest. do 3 (split; [done|]).
  destruct (cHandle _) eqn:Eh; [left; injection Hx as <-; eauto|].
  destruct (HandleFuel n _ rest command) as [[c' err]|] eqn:Er; [|done].
  injection Hx as <-. right. eauto.
Qed.

(** The fuel of [Handle] always suffices. *)
Lemma HandleFuel_total (n : nat) (r : Router) (path : string) (command : Command) :
  String.length path < n -> exists x, HandleFuel n r path command = Some x.
Proof.
  revert r path; induction n as [|n IH]; intros [rn rp rc rcmd rps] path Hn; [lia|].
  cbn [HandleFuel]. change (TrimPrefix (TrimSuffix path "/") "/") with (trimSlashes path).
  destruct (trimSlashes path) as [|a rest] eqn:Et; [eauto|].
  destruct (Ascii.eqb a colon); [eauto|].
  destruct (splitName (String a rest)) as [name q] eqn:Es.
  destruct (cHandle _); [eauto|].
  pose proof (splitName_shorter _ _ _ _ _ Et Es) as Hl.
  destruct (IH (childOf (mkRouter rn rp rc rcmd rps) name) q) as [[c' e] ->]; [lia|eauto].
Qed.

Lemma HandleFuel_name (n : nat) (r r' : Router) (path : string) (command : Command) (e : option error) :
  HandleFuel n r path command = Some (r', e) -> rname r' = rname r.
Proof.
  destruct n as [|n]; [done|]. intros Hx.
  apply HandleFuel_cases in Hx as [(ps & Hq & _)|(a & q & name & rest & _ & _ & _ & Hk)]; [by simplify_eq|].
  by destruct Hk as [(e' & Hq & _)|(c' & err & _ & _ & Hq)]; simplify_eq.
Qed.

(** A router without children accepts any registration. *)
Lemma HandleFuel_leaf (n : nat) (r : Router) (path : string) (command : Command) (r' : Router) (e : option error) :
  rchildren r = [] -> HandleFuel n r path command = Some (r', e) -> e = None.
Proof.
  revert r path r' e; induction n as [|n IH]; intros r path r' e Hl Hx; [done|].
  assert (forall name, childOf r name = mkRouter name (rpath r ++ [name]) [] noCommand []) as Hc.
  { intros name. unfold childOf, getChildren. by rewrite Hl. }
  apply HandleFuel_cases in Hx as [(ps & [= _ ->] & _)|(a & q & name & rest & _ & _ & _ & Hk)]; [done|].
  rewrite Hc in Hk.
  destruct Hk as [(e' & _ & Hh)|(c' & err & _ & Hx & [= -> ->])]; [done|].
  by eapply IH in Hx.
Qed.

(** A registration that is refused changes nothing. *)
Lemma HandleFuel_error (n : nat) (r : Router) (path : string) (command : Command) (r' : Router) (e : error) :
  HandleFuel n r path command = Some (r', Some e) -> r' = r /\ Is e CliErrHandleRegistered = true.
Proof.
  revert r path r'; induction n as [|n IH]; intros r path r' Hx; [done|].
  destruct r as [rn rp rc rcmd rps].
  pose proof Hx as Hx0.
  apply HandleFuel_cases in Hx as [(ps & [=] & _)|(a & q & name & rest & Ht & Ha & Hs & Hk)].
  destruct Hk as [(e' & Hq & Hh)|(c' & err & Hh & Hx & Hq)]; simplify_eq.
  - split; [done|]. cbn -[childOf splitName] in Hx0.
    change (TrimPrefix (TrimSuffix path "/") "/") with (trimSlashes path) in Hx0.
    rewrite Ht in Hx0. destruct (Ascii.eqb_spec a colon); [done|]. rewrite Hs in Hx0.
    destruct (cHandle _); [by injection Hx0 as <-|done].
  - destruct (getChildren (mkRouter rn rp rc rcmd rps) name) as [c|] eqn:Eg.
    + assert (childOf (mkRouter rn rp rc rcmd rps) name = c) as Hc by (unfold childOf; by rewrite Eg).
      rewrite Hc in Hx. destruct (IH _ _ _ Hx) as [-> He]. split; [|done].
      f_equal. by apply setChild_same.
    + eapply HandleFuel_leaf in Hx; [done|]. unfold childOf. by rewrite Eg.
Qed.

(** ** Well-formed trees: sibling names are distinct and a path is the names
    from the root *)

Inductive router_wf : Router -> Prop :=
| router_wf_intro (r : Router) :
    NoDup (map rname (rchildren r)) ->
    Forall (fun c => rpath c = rpath r ++ [rname c] /\ router_wf c) (rchildren r) ->
    router_wf r.

Lemma newRouter_wf (name : string) : router_wf (newRouter name).
Proof. constructor; constructor. Qed.

Lemma findChild_In (l : list Router) (name : string) (c : Router) :
  findChild l name = Some c -> In c l.
Proof.
  induction l as [|x l IH]; simpl; [done|].
  destruct (String.eqb (rname x) name); [intros [= ->]|]; auto.
Qed.

Lemma findChild_None (l : list Router) (name : string) :
  findChild l name = None <-> name ∉ map rname l.
Proof.
  induction l as [|x l IH]; simpl; [split; [intros _; apply not_elem_of_nil|done]|].
  rewrite elem_of_cons. destruct (String.eqb_spec (rname x) name) as [<-|Hne]; [naive_solver|].
  rewrite IH. naive_solver.
Qed.

Lemma setChild_names (l : list Router) (name : string) (c : Router) :
  rname c = name ->
  map rname (setChild l name c)
  = if findChild l name then map rname l else map rname l ++ [name].
Proof.
  intros Hc. induction l as [|x l IH]; simpl; [by rewrite Hc|].
  destruct (String.eqb_spec (rname x) name) as [Hx|Hx]; simpl; [congruence|].
  rewrite IH. by destruct (findChild l name).
Qed.

Lemma setChild_Forall (P : Router -> Prop) (l : list Router) (name : string) (c : Router) :
  P c -> Forall P l -> Forall P (setChild l name c).
Proof.
  intros Hc. induction 1 as [|x l Hx Hl IH]; simpl; [by constructor|].
  destruct (String.eqb (rname x) name); by constructor.
Qed.

Lemma setChild_NoDup (l : list Router) (name : string) (c : Router) :
  rname c = name -> NoDup (map rname l) -> NoDup (map rname (setChild l name c)).
Proof.
  intros Hc Hl. rewrite setChild_names by done.
  destruct (findChild l name) eqn:E; [done|]. apply findChild_None in E.
  apply NoDup_app. split; [done|]. split; [|apply NoDup_singleton].
  intros x Hx Hn. apply list_elem_of_singleton in Hn as ->. done.
Qed.

Lemma childOf_name (r : Router) (name : string) : rname (childOf r name) = name.
Proof.
  unfold childOf. destruct (getChildren r name) as [c|] eqn:E; [|done].
  by eapply findChild_name.
Qed.

Lemma childOf_wf (r : Router) (name : string) :
  router_wf r -> rpath (childOf r name) = rpath r ++ [name] /\ router_wf (childOf r name).
Proof.
  intros Hr. inversion Hr as [? _ Hall]; subst. unfold childOf.
  destruct (getChildren r name) as [c|] eqn:E.
  - rewrite List.Forall_forall in Hall. destruct (Hall c) as [Hp Hw]; [by eapply findChild_In|].
    apply findChild_name in E. by subst name.
  - split; [done|]. constructor; constructor.
Qed.

Lemma HandleFuel_wf (n : nat) (r : Router) (path : string) (command : Command) (r' : Router) (e : option error) :
  HandleFuel n r path command = Some (r', e) -> router_wf r ->
  router_wf r' /\ rname r' = rname r /\ rpath r' = rpath r.
Proof.
  revert r path r' e; induction n as [|n IH]; intros r path r' e Hx Hr; [done|].
  inversion Hr as [? Hnd Hall]; subst.
  apply HandleFuel_cases in Hx as [(ps & [= -> _] & _)|(a & q & name & rest & _ & _ & _ & Hk)].
  { by repeat constructor. }
  destruct Hk as [(e' & [= -> _] & _)|(c' & err & _ & Hx & [= -> _])]; [done|].
  destruct (childOf_wf r name Hr) as [Hp Hw].
  destruct (IH _ _ _ _ Hx Hw) as (Hw' & Hn' & Hp'). rewrite childOf_name in Hn'. rewrite Hp in Hp'.
  split; [|done]. constructor; cbn.
  - by apply setChild_NoDup.
  - apply setChild_Forall; [|done]. by rewrite Hn'.
Qed.

(** ** Nodes *)

Fixpoint node (r : Router) (tokens : list string) : option Router :=
  match tokens with
  | [] => Some r
  | t :: ts => match getChildren r t with Some c => node c ts | None => None end
  end.

Lemma node_childOf (r : Router) (name : string) (ts : list string) :
  ts <> [] -> getChildren r name = None -> node (childOf r name) ts = None.
Proof. intros Hts Hg. unfold childOf. rewrite Hg. by destruct ts. Qed.

(** The nodes after one level of registration. *)
Lemma node_setChild (r c' : Router) (cmd : Command) (ps : list string) (name t : string) (ts : list string) :
  rname c' = name ->
  node (mkRouter (rname r) (rpath r) (setChild (rchildren r) name c') cmd ps) (t :: ts)
  = if String.eqb name t then node c' ts else node r (t :: ts).
Proof.
  intros Hn. cbn [node]. unfold getChildren. cbn [rchildren].
  destruct (String.eqb_spec name t) as [->|Hne]; [by rewrite findChild_set|].
  by rewrite findChild_set_ne.
Qed.

(** ** Canonical paths: "/a/b/:x/:y" *)

Definition plainName (s : string) : Prop :=
  byte_free slash s = true /\ exists a q, s = String a q /\ a <> colon.
Definition plainParam (s : string) : Prop := byte_free slash s = true.

Fixpoint paramPath (params : list string) : string :=
  match params with
  | [] => EmptyString
  | p :: ps => String slash (String colon (p +:+ paramPath ps))
  end.

Fixpoint mkPath (names params : list string) : string :=
  match names with
  | [] => paramPath params
  | s :: ns => String slash (s +:+ mkPath ns params)
  end.

(** What a registered name is called in the tree. *)
Definition norm (s : string) : string := if String.eqb s "-" then "app" else s.

Lemma paramPath_shape (params : list string) :
  paramPath params = EmptyString \/ exists t, paramPath params = String slash t.
Proof. destruct params; simpl; eauto. Qed.

Lemma mkPath_shape (names params : list string) :
  mkPath names params = EmptyString \/ exists t, mkPath names params = String slash t.
Proof. destruct names; simpl; [apply paramPath_shape | eauto]. Qed.

(** One more segment in front of a path without trailing slash. *)
Lemma lastByte_segment (b : ascii) (s t : string) :
  b <> slash -> byte_free slash s = true -> lastByte t <> Some slash ->
  lastByte (String slash (String b s +:+ t)) <> Some slash.
Proof.
  intros Hb Hs Ht. change (String slash (String b s +:+ t)) with (String slash (String b s) +:+ t).
  destruct t as [|c t].
  - rewrite append_nil_r. simpl. destruct s; [simpl; congruence|]. by apply lastByte_free.
  - by rewrite lastByte_app.
Qed.

Lemma mkPath_last (names params : list string) :
  Forall plainName names -> Forall plainParam params ->
  lastByte (mkPath names params) <> Some slash.
Proof.
  intros Hn Hp. induction Hn as [|s ns (Hs & a & q & -> & Ha) Hns IH]; cbn [mkPath].
  - induction Hp as [|p ps Hp0 Hps IH]; cbn [paramPath]; [done|].
    change (String colon (p +:+ paramPath ps)) with (String colon p +:+ paramPath ps).
    by apply lastByte_segment.
  - simpl in Hs. apply andb_true_iff in Hs as [Ha0 Hs]. apply lastByte_segment; [|done|done].
    intros ->. done.
Qed.

Lemma trimSlashes_mkPath (names params : list string) (t : string) :
  Forall plainName names -> Forall plainParam params ->
  mkPath names params = String slash t -> trimSlashes (mkPath names params) = t.
Proof.
  intros Hn Hp Ht. unfold trimSlashes. rewrite TrimSuffix_noop by (by apply mkPath_last).
  rewrite Ht. destruct (TrimPrefix_slash (String slash t)) as [(t' & [= <-] & ->)|[_ Hno]]; [done|].
  by destruct (Hno t).
Qed.

Lemma splitName_mkPath (s : string) (ns params : list string) :
  byte_free slash s = true -> splitName (s +:+ mkPath ns params) = (norm s, mkPath ns params).
Proof.
  intros Hs. unfold splitName, norm. destruct (mkPath_shape ns params) as [->|[t ->]].
  - rewrite append_nil_r. by apply cutByte_None in Hs as ->.
  - by rewrite cutByte_app.
Qed.

Lemma SplitByte_params (p : string) (ps : list string) :
  Forall plainParam (p :: ps) ->
  map (fun s => TrimPrefix s ":") (SplitByte (String colon (p +:+ paramPath ps)) slash) = p :: ps.
Proof.
  revert p; induction ps as [|p' ps IH]; intros p Hp; inversion Hp as [|? ? Hp0 Hps]; subst.
  - cbn [paramPath]. rewrite append_nil_r, SplitByte_free by done. done.
  - cbn [paramPath].
    change (String colon (p +:+ String slash (String colon (p' +:+ paramPath ps))))
      with (String colon p +:+ String slash (String colon (p' +:+ paramPath ps))).
    rewrite SplitByte_cons by done. cbn [map]. by rewrite IH.
Qed.

(** Where a canonical registration lands, and that it lands nowhere else. *)
Lemma HandleFuel_node (n : nat) (names params : list string) (r r' : Router) (command : Command) :
  Forall plainName names -> Forall plainParam params ->
  HandleFuel n r (mkPath names params) command = Some (r', None) ->
  (exists m, node r' (map norm names) = Some m /\ rcommand m = command
     /\ rparams m = (match node r (map norm names) with Some m0 => rparams m0 | None => [] end) ++ params
     /\ rchildren m = match node r (map norm names) with Some m0 => rchildren m0 | None => [] end)
  /\ (forall ts m0, ts <> map norm names -> node r ts = Some m0 ->
       exists m1, node r' ts = Some m1 /\ rcommand m1 = rcommand m0 /\ rparams m1 = rparams m0).
Proof.
  revert r r' names; induction n as [|n IH]; intros r r' names Hn Hp Hx; [done|].
  apply HandleFuel_cases in Hx as [(ps & [= ->] & Hps)|(a & q & name & rest & Ht & Ha & Hs & Hk)].
  - (* the command lands here *)
    assert (names = [] /\ ps = rparams r ++ params) as [-> ->].
    { destruct Hps as [[Ht ->]|(q & Ht & ->)].
      - destruct names as [|s ns]; [destruct params as [|p ps]|].
        + by rewrite app_nil_r.
        + by rewrite (trimSlashes_mkPath _ _ _ Hn Hp eq_refl) in Ht.
        + rewrite (trimSlashes_mkPath _ _ _ Hn Hp eq_refl) in Ht.
          inversion Hn as [|? ? (_ & a & q & -> & _) _]; subst. done.
      - destruct names as [|s ns]; [destruct params as [|p ps]|].
        + vm_compute in Ht. done.
        + rewrite (trimSlashes_mkPath _ _ _ Hn Hp eq_refl) in Ht. injection Ht as <-. by rewrite SplitByte_params.
        + rewrite (trimSlashes_mkPath _ _ _ Hn Hp eq_refl) in Ht.
          inversion Hn as [|? ? (_ & a & q' & -> & Ha) _]; subst. by injection Ht as ->. }
    split; [cbn; eauto|]. intros [|t ts] m0 Hts Hm0; [done|]. exists m0. by destruct r.
  - (* the command goes to a child *)
    destruct names as [|s ns].
    { destruct params as [|p ps]; [vm_compute in Ht; done|].
      rewrite (trimSlashes_mkPath _ _ _ Hn Hp eq_refl) in Ht. by injection Ht as <- _. }
    rewrite (trimSlashes_mkPath _ _ _ Hn Hp eq_refl) in Ht.
    inversion Hn as [|? ? Hs0 Hns]; subst. rewrite <- Ht, splitName_mkPath in Hs by apply Hs0.
    injection Hs as <- <-.
    destruct Hk as [(e' & Hq & Hh)|(c' & err & Hh & Hx & Hq)]; simplify_eq.
    destruct (IH _ _ _ Hns Hp Hx) as [(m & Hm & Hcm & Hpm & Hrm) Hframe].
    assert (rname c' = norm s) as Hname.
    { by rewrite (HandleFuel_name _ _ _ _ _ _ Hx), childOf_name. }
    assert (match node (childOf r (norm s)) (map norm ns) with Some m0 => rparams m0 | None => [] end
            = match node r (map norm (s :: ns)) with Some m0 => rparams m0 | None => [] end
            /\ match node (childOf r (norm s)) (map norm ns) with Some m0 => rchildren m0 | None => [] end
            = match node r (map norm (s :: ns)) with Some m0 => rchildren m0 | None => [] end) as [Hps Hcs].
    { cbn [map node]. unfold childOf. destruct (getChildren r (norm s)); [done|].
      by destruct ns. }
    split.
    + exists m. rewrite <- Hps, <- Hcs. cbn [map]. by rewrite node_setChild, String.eqb_refl.
    + intros [|t ts] m0 Hts Hm0; [injection Hm0 as <-; by eexists|].
      rewrite node_setChild by done. destruct (String.eqb_spec (norm s) t) as [<-|Hne]; [|eauto].
      apply Hframe; [by intros ->|]. cbn [node] in Hm0. unfold childOf.
      by destruct (getChildren r (norm s)).
Qed.

Lemma Lookup_node (ts args : list string) (r m : Router) :
  node r ts = Some m ->
  match args with a :: _ => getChildren m a = None | [] => True end ->
  Lookup r (ts ++ args) = match cHandle (rcommand m) with
                          | None => Err (ESentinel CliErrNotFound)
                          | Some _ => Ok (m, args)
                          end.
Proof.
  revert r; induction ts as [|t ts IH]; intros r Hm Ha; simpl in *.
  - injection Hm as ->. destruct args as [|a args]; simpl; [done|]. by rewrite Ha.
  - destruct (getChildren r t) as [c|]; [|done]. by apply IH.
Qed.

(** ** Theorems *)

(** C34. Registration and lookup fit together.  A registration at the path
    "/n1/../nk/:p1/../:pm" (names that are not empty, have no slash and do not begin with
    a colon; parameter names without a slash; a command with a handler) that is accepted
    makes [Lookup] of [n1 .. nk] (a name "-" is app) followed by arguments, the first of
    which is not the name of a deeper command, return the new command with exactly those
    arguments, and the node's parameter names end with [p1 .. pm]; every other node keeps
    its command and parameters. *)
Theorem Handle_then_Lookup (r r' : Router) (names params args : list string) (command : Command) :
  Forall plainName names -> Forall plainParam params -> cHandle command <> None ->
  match args, node r (map norm names) with a :: _, Some m => getChildren m a = None | _, _ => True end ->
  Handle r (mkPath names params) command = (r', None) ->
  (exists m old, Lookup r' (map norm names ++ args) = Ok (m, args)
     /\ rcommand m = command /\ rparams m = old ++ params)
  /\ (forall ts m0, ts <> map norm names -> node r ts = Some m0 ->
       exists m1, node r' ts = Some m1 /\ rcommand m1 = rcommand m0 /\ rparams m1 = rparams m0).
Proof.
  intros Hn Hp Hc Ha Hh. unfold Handle in Hh.
  destruct (HandleFuel_total (S (String.length (mkPath names params))) r (mkPath names params) command)
    as [x Hx]; [lia|]. rewrite Hx in Hh. subst x.
  destruct (HandleFuel_node _ _ _ _ _ _ Hn Hp Hx) as [(m & Hm & Hcm & Hpm & Hrm) Hframe].
  split; [|exact Hframe]. do 2 eexists. rewrite (Lookup_node _ args _ _ Hm).
  - rewrite Hcm. destruct (cHandle command); [|done]. done.
  - destruct args as [|a args]; [done|]. unfold getChildren in *. rewrite Hrm.
    by destruct (node r (map norm names)).
Qed.

(** Every registration keeps the tree well formed (sibling names distinct,
    each node's path the names that lead to it), and one that is refused is
    refused with "handle already registered" and leaves the tree unchanged. *)
Theorem Handle_invariant (r : Router) (path : string) (command : Command) :
  router_wf r ->
  let '(r', err) := Handle r path command in
  router_wf r' /\ (forall e, err = Some e -> r' = r /\ Is e CliErrHandleRegistered = true).
Proof.
  intros Hr. unfold Handle.
  destruct (HandleFuel_total (S (String.length path)) r path command) as [[r' err] Hx]; [lia|].
  rewrite Hx. split; [by eapply HandleFuel_wf|]. intros e ->. by eapply HandleFuel_error.
Qed.

End Router.

Arguments Router : clear implicits.
Arguments Command : clear implicits.

Definition demoCommand : Command nat := mkCommand "/user/show/:id" (Some 1%nat) "Show a user".
Definition demoRouter : Router nat := fst (Handle (newRouter EmptyString) "/user/list" (mkCommand "/user/list" (Some 0%nat) "List")).

Lemma Handle_then_Lookup_witness :
  exists m old, Lookup (fst (Handle demoRouter "/user/show/:id" demoCommand)) ["user"; "show"; "7"] = Ok (m, ["7"])
     /\ rcommand m = demoCommand /\ rparams m = old ++ ["id"].
Proof.
  apply (Handle_then_Lookup demoRouter (fst (Handle demoRouter "/user/show/:id" demoCommand))
           ["user"; "show"] ["id"] ["7"] demoCommand).
  - repeat constructor; eexists _, _; split; reflexivity || discriminate.
  - repeat constructor.
  - discriminate.
  - vm_compute. exact I.
  - vm_compute. reflexivity.
Defined.

Lemma Handle_invariant_witness :
  router_wf (newRouter (H := nat) EmptyString)
  /\ let '(r', err) := Handle (newRouter EmptyString) "/user/list" demoCommand in
     router_wf r' /\ (forall e, err = Some e -> r' = newRouter EmptyString /\ Is e CliErrHandleRegistered = true).
Proof. split; [apply newRouter_wf|]. apply (Handle_invariant (newRouter EmptyString) "/user/list" demoCommand), newRouter_wf. Defined.
