(* ===== verification/App.v ===== *)
(** [app.go], [options.go]: the life of a service: the injection of dependencies
    into servers, scope and loader, the start, the wait for a signal or a failure,
    and the stop. *)

From Stdlib Require Import ZArith Lia String List Bool.
From stdpp Require Import base tactics list gmap strings relations.
From S2P Require Import Prelude GoStrings Errs.

Local Open Scope string_scope.
Local Open Scope list_scope.

(** ** Reflected objects *)

Inductive Kind : Type := KPointer | KInterface | KOtherKind.

Section Inject.

(** Types, their identity and [Type.Implements]. *)
Context {Ty : Type}.
Variable ty_eqb : Ty -> Ty -> bool.
Variable implements : Ty -> Ty -> bool.

(** A value that can be injected: its dynamic type and what it points to. *)
Record RefVal : Type := mkRef { rvTy : Ty; rvPtr : nat }.

Record Field : Type := mkField { fCanSet : bool; fKind : Kind; fType : Ty; fVal : option RefVal }.

(** The structs that servers, scope and loader point to. *)
Definition Heap : Type := gmap nat (list Field).

Definition injectable (f : Field) : bool :=
  fCanSet f && match fKind f with KOtherKind => false | _ => true end.

Definition fits (f : Field) (rv : RefVal) : bool :=
  (match fKind f with KInterface => true | _ => false end && implements (rvTy rv) (fType f)) || ty_eqb (fType f) (rvTy rv).

(** The index of the first value that fits. *)
Fixpoint firstFit (f : Field) (refs : list RefVal) : option nat :=
  match refs with
  | [] => None
  | rv :: refs' => if fits f rv then Some O else S <$> firstFit f refs'
  end.

Definition setField (f : Field) (rv : RefVal) : Field := mkField (fCanSet f) (fKind f) (fType f) (Some rv).

Definition injectField (refs : list RefVal) (f : Field) : Field :=
  if negb (injectable f) then f
  else match firstFit f refs with
       | Some i => match refs !! i with Some rv => setField f rv | None => f end
       | None => f
       end.

Definition markUsed (refs : list RefVal) (used : list bool) (f : Field) : list bool :=
  if negb (injectable f) then used
  else match firstFit f refs with Some i => <[i := true]> used | None => used end.

(** [injectVars] on the struct at [p]. *)
Definition injectVars (refs : list RefVal) (p : nat) (h : gmap nat (list Field)) (used : list bool) :
    gmap nat (list Field) * list bool :=
  let fs := default [] (h !! p) in
  (<[p := map (injectField refs) fs]> h, fold_left (markUsed refs) fs used).

(** ** preStart *)

Inductive Event : Type :=
| EvSetTracer (p : nat) | EvSetMetrics (p : nat) | EvScopeInit | EvLoaderInit
| EvStart (p : nat) | EvLoaderRun | EvRegister | EvStop (p : nat) | EvDeregister.

Record ServerRef : Type := mkServer { srvRef : RefVal; srvTraceable : bool }.

(** The options: [scopeInit] and [loaderInit] are what [Init] returns on the heap it
    finds. *)
Record options : Type := mkOptions {
  servers : list ServerRef;
  registryRef : option RefVal;
  scopeRef : option RefVal;
  scopeInit : gmap nat (list Field) -> option error;
  loaderRef : option RefVal;
  loaderInit : gmap nat (list Field) -> option error;
  injected : list RefVal;
  loggerRef : RefVal;
  tracer : bool;
  metrics : bool;
}.

(** The state of the injection: the structs, [s.refValues], [used], what happened. *)
Record Boot : Type := mkBoot {
  heap : gmap nat (list Field);
  refValues : list RefVal;
  used : list bool;
  events : list Event;
}.

Definition addRef (rv : RefVal) (flag : list bool) (b : Boot) : Boot :=
  mkBoot (heap b) (refValues b ++ [rv]) (used b ++ flag) (events b).
Definition note (evs : list Event) (b : Boot) : Boot := mkBoot (heap b) (refValues b) (used b) (events b ++ evs).
Definition inject (p : nat) (b : Boot) : Boot :=
  let '(h, u) := injectVars (refValues b) p (heap b) (used b) in mkBoot h (refValues b) u (events b).

Definition bootServer (o : options) (b : Boot) (s : ServerRef) : Boot :=
  let p := rvPtr (srvRef s) in
  let b := inject p b in
  let b := if srvTraceable s
           then note ((if tracer o then [EvSetTracer p] else []) ++ (if metrics o then [EvSetMetrics p] else [])) b
           else b in
  addRef (srvRef s) [false] b.

(** Scope and loader alike: inject, then [Init]. *)
Definition bootInit (r : option RefVal) (init : gmap nat (list Field) -> option error) (ev : Event) (b : Boot) : Boot * option error :=
  match r with
  | None => (b, None)
  | Some rv =>
      let b := note [ev] (inject (rvPtr rv) b) in
      match init (heap b) with
      | Some e => (b, Some e)
      | None => (addRef rv [false] b, None)
      end
  end.

Definition unusedVar : error := EPlain "unused inject var".

Definition startAll (o : options) (b : Boot) : Boot :=
  note (map (fun s => EvStart (rvPtr (srvRef s))) (servers o)
        ++ (if loaderRef o then [EvLoaderRun] else []) ++ (if registryRef o then [EvRegister] else [])) b.

Definition preStart (o : options) (h : gmap nat (list Field)) : Boot * option error :=
  let refs := injected o ++ [loggerRef o] in
  let b := mkBoot h refs (replicate (length refs) false) [] in
  let b := fold_left (bootServer o) (servers o) b in
  let b := match registryRef o with Some rv => addRef rv [false] b | None => b end in
  let '(b, e) := bootInit (scopeRef o) (scopeInit o) EvScopeInit b in
  match e with
  | Some e => (b, Some e)
  | None =>
      let '(b, e) := bootInit (loaderRef o) (loaderInit o) EvLoaderInit b in
      match e with
      | Some e => (b, Some e)
      | None =>
          if forallb (fun i => default false (used b !! i)) (seq 0 (length (injected o)))
          then (startAll o b, None) else (b, Some unusedVar)
      end
  end.

(** ** What was injected *)

(** A set flag stands for a field that holds the value: the first that fits it. *)
Definition flag_ok (b : Boot) (i : nat) : Prop :=
  exists p fs f, heap b !! p = Some fs /\ In f fs /\ injectable f = true
    /\ firstFit f (refValues b) = Some i /\ fVal f = refValues b !! i.

Definition boot_ok (b : Boot) : Prop :=
  length (used b) = length (refValues b) /\ forall i, used b !! i = Some true -> flag_ok b i.

Lemma firstFit_app (f : Field) (refs refs' : list RefVal) (i : nat) :
  firstFit f refs = Some i -> firstFit f (refs ++ refs') = Some i.
Proof.
  revert i. induction refs as [|rv refs IH]; intros i; cbn; [done|]. destruct (fits f rv); [done|].
  intros (j & Hj & ->)%fmap_Some. by rewrite (IH j).
Qed.

Lemma firstFit_lt (f : Field) (refs : list RefVal) (i : nat) : firstFit f refs = Some i -> exists rv, refs !! i = Some rv.
Proof.
  revert i. induction refs as [|rv refs IH]; intros i; cbn; [done|]. destruct (fits f rv); [intros [= <-]; by exists rv|].
  intros (j & Hj & ->)%fmap_Some. by apply IH.
Qed.

Lemma injectField_spec (f : Field) (refs : list RefVal) (i : nat) :
  injectable f = true -> firstFit f refs = Some i ->
  let f' := injectField refs f in
  injectable f' = true /\ firstFit f' refs = Some i /\ fVal f' = refs !! i.
Proof.
  intros Hi Hf f'. destruct (firstFit_lt _ _ _ Hf) as [rv Hrv]. unfold f', injectField. rewrite Hi, Hf, Hrv.
  cbn [negb]. split; [done|]. split; [|done]. rewrite <- Hf. clear. induction refs as [|x refs IH]; cbn; [done|].
  by rewrite IH.
Qed.

Lemma markUsed_fold (refs : list RefVal) (fs : list Field) (used : list bool) (i : nat) :
  length (fold_left (markUsed refs) fs used) = length used
  /\ (fold_left (markUsed refs) fs used !! i = Some true ->
      used !! i = Some true \/ exists f, In f fs /\ injectable f = true /\ firstFit f refs = Some i).
Proof.
  revert used. induction fs as [|f fs IH]; intros used; cbn; [auto|].
  destruct (IH (markUsed refs used f)) as [Hl Hu]. split.
  - rewrite Hl. unfold markUsed. repeat case_match; rewrite ?length_insert; done.
  - intros Ht. destruct (Hu Ht) as [Hm|(g & Hg & Hr)]; [|right; exists g; auto]. unfold markUsed in Hm.
    destruct (injectable f) eqn:Ei; cbn [negb] in Hm; [|by left].
    destruct (firstFit f refs) as [j|] eqn:Ef; [|by left].
    destruct (decide (j = i)) as [->|Hne]; [right; exists f; auto|]. left. by rewrite list_lookup_insert_ne in Hm.
Qed.

Lemma inject_ok (p : nat) (b : Boot) : boot_ok b -> boot_ok (inject p b) /\ refValues (inject p b) = refValues b.
Proof.
  intros [Hl Hf]. split; [|done]. unfold inject, injectVars. split.
  - cbn [used refValues]. rewrite <- Hl. apply (markUsed_fold _ _ _ 0).
  - cbn [used refValues]. intros i Hi. apply markUsed_fold in Hi as [Hi|(f & Hin & Hinj & Hfit)].
    + destruct (Hf i Hi) as (q & fs & f & Hq & Hin & Hinj & Hfit & Hv).
      destruct (injectField_spec f _ _ Hinj Hfit) as (H1 & H2 & H3).
      destruct (decide (q = p)) as [->|Hne].
      * exists p, (map (injectField (refValues b)) fs), (injectField (refValues b) f). cbn [heap refValues].
        rewrite Hq, lookup_insert_eq. split; [done|]. split; [by apply in_map|]. done.
      * exists q, fs, f. cbn [heap refValues]. by rewrite lookup_insert_ne.
    + destruct (injectField_spec f _ _ Hinj Hfit) as (H1 & H2 & H3).
      exists p, (map (injectField (refValues b)) (default [] (heap b !! p))), (injectField (refValues b) f).
      cbn [heap refValues]. rewrite lookup_insert_eq. split; [done|]. split; [by apply in_map|]. done.
Qed.

Lemma addRef_ok (rv : RefVal) (b : Boot) : boot_ok b -> boot_ok (addRef rv [false] b).
Proof.
  intros [Hl Hf]. split; cbn [used refValues addRef]; [by rewrite !length_app, Hl|].
  intros i Hi. destruct (decide (i < length (used b))%nat) as [Hlt|Hge].
  - rewrite lookup_app_l in Hi by done. destruct (Hf i Hi) as (q & fs & f & Hq & Hin & Hinj & Hfit & Hv).
    exists q, fs, f. cbn [heap refValues addRef]. split; [done|]. split; [done|]. split; [done|].
    split; [by apply firstFit_app|]. rewrite lookup_app_l; [done|]. by rewrite <- Hl.
  - rewrite lookup_app_r in Hi by lia. destruct (i - length (used b))%nat; discriminate.
Qed.

Lemma note_ok (evs : list Event) (b : Boot) : boot_ok b -> boot_ok (note evs b).
Proof. done. Qed.

(** [b'] has every value [b] had, at the same index. *)
Definition extends (b b' : Boot) : Prop := exists l, refValues b' = refValues b ++ l.

Lemma extends_refl (b : Boot) : extends b b.
Proof. exists []. by rewrite app_nil_r. Qed.
Lemma extends_trans (a b c : Boot) : extends a b -> extends b c -> extends a c.
Proof. intros [l Hl] [k Hk]. exists (l ++ k). by rewrite Hk, Hl, app_assoc. Qed.

(** Nothing is started before the end. *)
Definition isStart (e : Event) : bool :=
  match e with EvStart _ | EvLoaderRun | EvRegister => true | _ => false end.
Definition quiet (b : Boot) : Prop := forall e, In e (events b) -> isStart e = false.

Lemma quiet_note (evs : list Event) (b : Boot) : quiet b -> (forall e, In e evs -> isStart e = false) -> quiet (note evs b).
Proof. intros Hq He e [?|?]%in_app_iff; auto. Qed.

Lemma bootServer_ok (o : options) (b : Boot) (s : ServerRef) :
  boot_ok b -> quiet b -> boot_ok (bootServer o b s) /\ extends b (bootServer o b s) /\ quiet (bootServer o b s).
Proof.
  intros Hb Hq. unfold bootServer. destruct (inject_ok (rvPtr (srvRef s)) b Hb) as [Hi Hr].
  assert (quiet (inject (rvPtr (srvRef s)) b)) as Hqi by exact Hq. split; [|split].
  - apply addRef_ok. by destruct (srvTraceable s).
  - exists [srvRef s]. by destruct (srvTraceable s).
  - destruct (srvTraceable s); [|exact Hqi]. apply (quiet_note _ _ Hqi).
    intros e [He|He]%in_app_iff; [destruct (tracer o)|destruct (metrics o)]; destruct He as [<-|[]] || destruct He; done.
Qed.

Lemma bootServers_ok (o : options) (l : list ServerRef) (b : Boot) :
  boot_ok b -> quiet b ->
  let b' := fold_left (bootServer o) l b in boot_ok b' /\ extends b b' /\ quiet b'.
Proof.
  revert b. induction l as [|s l IH]; intros b Hb Hq; cbn; [split; [done|]; split; [apply extends_refl|done]|].
  destruct (bootServer_ok o b s Hb Hq) as (H1 & H2 & H3). destruct (IH _ H1 H3) as (H4 & H5 & H6).
  split; [done|]. split; [by eapply extends_trans|done].
Qed.

Lemma bootInit_ok (r : option RefVal) (init : gmap nat (list Field) -> option error) (ev : Event) (b : Boot) :
  isStart ev = false -> boot_ok b -> quiet b ->
  let b' := fst (bootInit r init ev b) in boot_ok b' /\ extends b b' /\ quiet b'.
Proof.
  intros He Hb Hq. unfold bootInit. destruct r as [rv|]; [|split; [done|]; split; [apply extends_refl|done]].
  destruct (inject_ok (rvPtr rv) b Hb) as [Hi Hr].
  assert (quiet (note [ev] (inject (rvPtr rv) b))) as Hqn by (apply quiet_note; [exact Hq|by intros ? [<-|[]]]).
  destruct (init _); cbn [fst]; (split; [by try apply addRef_ok|]; split; [|exact Hqn]).
  - exists []. rewrite app_nil_r. done.
  - by exists [rv].
Qed.

(** C14. A service starts with its dependencies in place or not at all: when
    [preStart] fails, in the scope, the loader or because a value given for injection
    fits nowhere, no server, loader or registration has been started; when it
    succeeds each such value is held by a settable field of a server, the scope or
    the loader, and then exactly the servers, the loader and the registration are
    started, in that order. *)
Theorem preStart_all_or_nothing (o : options) (h : gmap nat (list Field)) (b : Boot) (e : option error) :
  preStart o h = (b, e) ->
  match e with
  | Some _ => quiet b
  | None =>
      (forall i rv, injected o !! i = Some rv ->
         exists p fs f, heap b !! p = Some fs /\ In f fs /\ injectable f = true /\ fVal f = Some rv)
      /\ List.filter isStart (events b)
         = map (fun s => EvStart (rvPtr (srvRef s))) (servers o)
           ++ (if loaderRef o then [EvLoaderRun] else []) ++ (if registryRef o then [EvRegister] else [])
  end.
Proof.
  unfold preStart. set (refs := injected o ++ [loggerRef o]).
  set (b0 := mkBoot h refs (replicate (length refs) false) []).
  assert (boot_ok b0 /\ quiet b0) as [H0 Hq0].
  { split; [|by intros x []]. split; cbn; [by rewrite length_replicate|]. intros i Hi.
    apply lookup_replicate in Hi as [? _]. discriminate. }
  destruct (bootServers_ok o (servers o) b0 H0 Hq0) as (H1 & E1 & Hq1).
  set (b1 := fold_left (bootServer o) (servers o) b0) in *.
  set (b2 := match registryRef o with Some rv => addRef rv [false] b1 | None => b1 end).
  assert (boot_ok b2 /\ extends b1 b2 /\ quiet b2) as (H2 & E2 & Hq2).
  { unfold b2. destruct (registryRef o) as [rv|]; [|split; [done|]; split; [apply extends_refl|done]].
    split; [by apply addRef_ok|]. split; [by exists [rv]|done]. }
  destruct (bootInit_ok (scopeRef o) (scopeInit o) EvScopeInit b2 eq_refl H2 Hq2) as (H3 & E3 & Hq3).
  destruct (bootInit (scopeRef o) (scopeInit o) EvScopeInit b2) as [b3 [e3|]]; cbn [fst] in *; [by intros [= <- <-]|].
  destruct (bootInit_ok (loaderRef o) (loaderInit o) EvLoaderInit b3 eq_refl H3 Hq3) as (H4 & E4 & Hq4).
  destruct (bootInit (loaderRef o) (loaderInit o) EvLoaderInit b3) as [b4 [e4|]]; cbn [fst] in *; [by intros [= <- <-]|].
  destruct (forallb _ _) eqn:Hall; [|by intros [= <- <-]]. intros [= <- <-]. split.
  - intros i rv Hi. rewrite forallb_forall in Hall.
    assert (used b4 !! i = Some true) as Hu.
    { specialize (Hall i). rewrite in_seq in Hall. apply lookup_lt_Some in Hi. specialize (Hall ltac:(lia)).
      destruct (used b4 !! i) as [[|]|]; done. }
    destruct (proj2 H4 i Hu) as (p & fs & f & Hp & Hin & Hinj & _ & Hv). exists p, fs, f. split; [exact Hp|].
    split; [done|]. split; [done|]. rewrite Hv.
    destruct (extends_trans _ _ _ (extends_trans _ _ _ (extends_trans _ _ _ E1 E2) E3) E4) as [l ->].
    cbn [b0 refValues]. unfold refs. rewrite <- !app_assoc. by apply lookup_app_l_Some.
  - unfold startAll, note. cbn [events]. rewrite List.filter_app.
    rewrite filter_none by (intros x Hx; by apply Hq4). cbn [app]. apply filter_all.
    intros x [(s & <- & _)%in_map_iff|[Hx|Hx]%in_app_iff]%in_app_iff; [done| |].
    + destruct (loaderRef o); [by destruct Hx as [<-|[]]|done].
    + destruct (registryRef o); [by destruct Hx as [<-|[]]|done].
Qed.

End Inject.

(** ** Run: from the start to the return *)

(** The goroutine that waits to stop the service; while stopping, the calls made so
    far and what the last one returned. *)
Inductive Stopper : Type := Waiting | Stopping (k : nat) (err : option error) | Stopped.

(** The signal context; the tasks of the error group ([None] runs, [Some r] has
    returned [r]); the first error of the group, which cancels its context; the stop
    goroutine; the calls it made. *)
Record RunState : Type := mkRun {
  canceled : bool;
  tasks : list (option (option error));
  groupErr : option error;
  stopper : Stopper;
  exitFlag : bool;
  log : list Event;
}.

Section Run.

(** What is served: the servers, and whether there are a loader and a registry. *)
Variable stopServers : list nat.
Variable hasLoader hasRegistry : bool.

(** The tasks of the group: the [Start] of each server; the [Run] of the loader and the
    heartbeat of the registration, which get the group's context. *)
Inductive TaskKind : Type := TServer (p : nat) | TContext.
Definition taskKinds : list TaskKind :=
  map TServer stopServers ++ (if hasLoader then [TContext] else []) ++ (if hasRegistry then [TContext] else []).

(** The calls of [preStop]: the servers, then the registry. *)
Definition preStop : list Event := map EvStop stopServers ++ (if hasRegistry then [EvDeregister] else []).

Definition newRun : RunState := mkRun false (replicate (length taskKinds) None) None Waiting false [].

(** [errgroup]: the first error counts. *)
Definition orFirst (old new : option error) : option error := match old with Some _ => old | None => new end.

(** One of the three contexts the stop goroutine selects on is done; the last, the
    group's, ends with the signal context or with the group's first error. *)
Definition stopRequested (s : RunState) : bool := canceled s || match groupErr s with Some _ => true | None => false end.

Definition endTask (s : RunState) (i : nat) (r : option error) : RunState :=
  mkRun (canceled s) (<[i := Some r]> (tasks s)) (orFirst (groupErr s) r) (stopper s) (exitFlag s) (log s).

(** What may happen and need not: a signal (or the parent context's end), and a task that
    returns by itself, with an error or without. *)
Inductive env_step : RunState -> RunState -> Prop :=
| env_signal s :
    canceled s = false ->
    env_step s (mkRun true (tasks s) (groupErr s) (stopper s) (exitFlag s) (log s))
| env_task s i r : tasks s !! i = Some None -> env_step s (endTask s i r).

(** What the program does: the stop goroutine, whose calls return; and what the tasks
    promise, a server that its [Start] returns once its [Stop] was called, the others that
    they return when the group's context is done. *)
Inductive run_step : RunState -> RunState -> Prop :=
| step_server s i p r :
    tasks s !! i = Some None -> taskKinds !! i = Some (TServer p) -> In (EvStop p) (log s) -> run_step s (endTask s i r)
| step_context s i r :
    tasks s !! i = Some None -> taskKinds !! i = Some TContext -> stopRequested s = true -> run_step s (endTask s i r)
| step_begin s :
    stopper s = Waiting -> stopRequested s = true ->
    run_step s (mkRun (canceled s) (tasks s) (groupErr s) (if exitFlag s then Stopped else Stopping 0 None) true (log s))
| step_call s k err ev r :
    stopper s = Stopping k err -> preStop !! k = Some ev ->
    run_step s (mkRun (canceled s) (tasks s) (groupErr s) (Stopping (S k) r) (exitFlag s) (log s ++ [ev]))
| step_end s k err :
    stopper s = Stopping k err -> preStop !! k = None ->
    run_step s (mkRun (canceled s) (tasks s) (orFirst (groupErr s) err) Stopped (exitFlag s) (log s)).

Definition step (s s' : RunState) : Prop := env_step s s' \/ run_step s s'.

(** [errGroup.Wait] returns: every goroutine has. *)
Definition returned (s : RunState) : Prop := Forall (fun t => t <> None) (tasks s) /\ stopper s = Stopped.

(** The service was asked to stop: a signal, or a task that failed. *)
Definition asked (s : RunState) : Prop := canceled s = true \/ exists i e, tasks s !! i = Some (Some (Some e)).

(** What holds on the way: the calls made are a prefix of [preStop], nothing is
    stopped unasked, and no error of a task is lost. *)
Record run_ok (s : RunState) : Prop := {
  run_log : match stopper s with
            | Waiting => log s = [] /\ exitFlag s = false /\ (stopRequested s = true -> asked s)
            | Stopping k _ => log s = take k preStop /\ asked s
            | Stopped => log s = preStop /\ asked s
            end;
  run_err : groupErr s = None -> forall i e, tasks s !! i <> Some (Some (Some e));
  run_count : length (tasks s) = length taskKinds;
}.

Lemma orFirst_None (a b : option error) : orFirst a b = None <-> a = None /\ b = None.
Proof. destruct a, b; naive_solver. Qed.

Lemma asked_requested (s : RunState) : run_ok s -> asked s -> stopRequested s = true.
Proof.
  intros [_ He _] [Hc|(i & e & Hi)]; unfold stopRequested; [by rewrite Hc|].
  destruct (groupErr s) eqn:Eg; [by rewrite orb_true_r|]. by destruct (He eq_refl i e).
Qed.

(** A task that is done stays done. *)
Lemma asked_endTask (s : RunState) (i : nat) (r : option error) : tasks s !! i = Some None -> asked s -> asked (endTask s i r).
Proof.
  intros Hi [Hc|(j & e & Hj)]; [by left|right]. exists j, e. cbn [endTask tasks].
  rewrite list_lookup_insert_ne; [done|]. intros ->. congruence.
Qed.

Lemma endTask_ok (s : RunState) (i : nat) (r : option error) : tasks s !! i = Some None -> run_ok s -> run_ok (endTask s i r).
Proof.
  intros Hi [Hl He Hc]. pose proof (asked_endTask s i r Hi) as Hmono. split.
  - change (stopper (endTask s i r)) with (stopper s). change (log (endTask s i r)) with (log s).
    change (exitFlag (endTask s i r)) with (exitFlag s).
    destruct (stopper s); [|naive_solver..]. destruct Hl as (-> & -> & Hr). repeat (split; [done|]).
    unfold stopRequested in *. cbn [endTask canceled groupErr]. destruct (canceled s) eqn:Ec; [by left|]. cbn [orb].
    destruct (groupErr s) as [e|]; cbn [orFirst]; [intros _; apply Hmono; by apply Hr|].
    destruct r as [e|]; [|done]. intros _. right. exists i, e. cbn [endTask tasks].
    apply list_lookup_insert_eq. by eapply lookup_lt_Some.
  - cbn [endTask tasks groupErr]. intros [Hg ->]%orFirst_None j e. destruct (decide (j = i)) as [->|Hne].
    + by rewrite list_lookup_insert_eq by (by eapply lookup_lt_Some).
    + rewrite list_lookup_insert_ne by done. by apply He.
  - cbn. by rewrite length_insert.
Qed.

Lemma step_ok (s s' : RunState) : step s s' -> run_ok s -> run_ok s'.
Proof.
  intros [[s1 Hn|s1 i r Hi]|[s1 i p r Hi|s1 i r Hi|s1 Hw Hr|s1 k err ev r Hk Hev|s1 k err Hk Hev]] Hok; try by apply endTask_ok.
  all: destruct Hok as [Hl He Hc]; split; cbn [stopper log exitFlag tasks groupErr]; try done.
  - assert (asked (mkRun true (tasks s1) (groupErr s1) (stopper s1) (exitFlag s1) (log s1))) by by left.
    destruct (stopper s1); naive_solver.
  - rewrite Hw in Hl. destruct Hl as (-> & -> & Ha). split; [done|by apply Ha].
  - rewrite Hk in Hl. destruct Hl as [-> Ha]. split; [by rewrite (take_S_r _ _ ev)|exact Ha].
  - rewrite Hk in Hl. destruct Hl as [-> Ha]. apply lookup_ge_None in Hev. split; [by rewrite take_ge|exact Ha].
  - intros [Hg _]%orFirst_None. by apply He.
Qed.

Lemma newRun_ok : run_ok newRun.
Proof.
  split; [| |by cbn; rewrite length_replicate].
  - cbn. by repeat split.
  - intros _ i e Hi. by apply lookup_replicate in Hi as [? _].
Qed.

(** How much is left to happen. *)
Definition left_to_do (s : RunState) : nat :=
  length (List.filter (fun t => match t with None => true | Some _ => false end) (tasks s))
  + (if canceled s then 0 else 1)
  + match stopper s with
    | Waiting => length preStop + 2
    | Stopping k _ => length preStop - k + 1
    | Stopped => 0
    end.

Lemma filter_insert_running (l : list (option (option error))) (i : nat) (r : option error) :
  l !! i = Some None ->
  length (List.filter (fun t => match t with None => true | Some _ => false end) l)
  = S (length (List.filter (fun t => match t with None => true | Some _ => false end) (<[i := Some r]> l))).
Proof.
  revert i. induction l as [|x l IH]; intros [|i] Hi; cbn in *; [done|done|by injection Hi as ->|].
  destruct x; cbn; [by apply IH|]. f_equal. by apply IH.
Qed.

Lemma step_less (s s' : RunState) : step s s' -> left_to_do s' < left_to_do s.
Proof.
  assert (forall s1 i r, tasks s1 !! i = Some None -> left_to_do (endTask s1 i r) < left_to_do s1) as Hend.
  { intros s1 i r Hi. unfold left_to_do. cbn [endTask tasks canceled stopper]. rewrite (filter_insert_running _ _ r Hi). lia. }
  intros [[s1 Hn|s1 i r Hi]|[s1 i p r Hi|s1 i r Hi|s1 Hw Hr|s1 k err ev r Hk Hev|s1 k err Hk Hev]]; try by apply Hend.
  all: unfold left_to_do; cbn [tasks canceled stopper].
  - rewrite Hn. lia.
  - rewrite Hw. destruct (exitFlag s1); lia.
  - rewrite Hk. apply lookup_lt_Some in Hev. lia.
  - rewrite Hk. lia.
Qed.

Lemma nsteps_bound (n : nat) (s s' : RunState) : nsteps step n s s' -> n + left_to_do s' <= left_to_do s.
Proof. induction 1 as [s|n s s1 s2 Hs _ IH]; [lia|]. apply step_less in Hs. lia. Qed.

(** Once asked, the program gets on by itself. *)
Lemma run_progress (s : RunState) : run_ok s -> asked s -> returned s \/ exists s', run_step s s'.
Proof.
  intros Hok Ha. pose proof (asked_requested s Hok Ha) as He. destruct Hok as [Hl _ Hc]. destruct (stopper s) as [|k err|] eqn:Est.
  - right. eexists. by apply step_begin.
  - right. destruct (preStop !! k) as [ev|] eqn:Ek; eexists; [by apply (step_call s k err ev None)|by apply (step_end s k err)].
  - destruct (decide (Exists (fun t => t = None) (tasks s))) as [Hex|Hall].
    2: { left. split; [|done]. apply Forall_forall. intros t Ht ->. apply Hall. apply Exists_exists. eauto. }
    right. apply Exists_exists in Hex as (t & Ht & ->). apply list_elem_of_lookup in Ht as [i Hi].
    destruct (lookup_lt_is_Some_2 taskKinds i) as [[p|] Hk]; [rewrite <- Hc; by eapply lookup_lt_Some| |].
    + eexists. apply (step_server s i p None Hi Hk). rewrite (proj1 Hl). unfold preStop. apply in_app_iff. left.
      apply in_map. apply list_elem_of_lookup_2, list_elem_of_In in Hk. unfold taskKinds in Hk.
      rewrite !in_app_iff in Hk. destruct Hk as [(q & [= ->] & Hq)%in_map_iff|[Hk|Hk]]; [done| |].
      * by destruct hasLoader; [destruct Hk|].
      * by destruct hasRegistry; [destruct Hk|].
    + eexists. by apply (step_context s i None).
Qed.

(** C13. [Run] returns, and nothing is left running.  Once a signal has come or a task has
    failed, and whatever else happens, the program always has a next step of its own until
    every goroutine has returned, and there are boundedly many steps altogether (a server's
    [Start] returns once its [Stop] was called, the loader and the heartbeat once their
    context is done, and the calls of [preStop] return); then every server has been stopped
    exactly once, in order, and the registration removed last.  No server is stopped before
    that; and when a task failed [Run] returns an error. *)
Theorem run_stops_everything (n : nat) (s : RunState) :
  nsteps step n newRun s ->
  n <= 2 * length stopServers + 6
  /\ (asked s -> returned s \/ exists s', run_step s s')
  /\ (log s <> [] -> asked s)
  /\ (returned s -> asked s /\ log s = map EvStop stopServers ++ (if hasRegistry then [EvDeregister] else [])
       /\ (groupErr s = None -> Forall (eq (Some None)) (tasks s))).
Proof.
  intros Hn. assert (run_ok s) as Hok.
  { revert Hn. generalize newRun newRun_ok. intros s0 H0 Hn. induction Hn as [|n s0 s1 s2 Hs _ IH]; [done|].
    apply IH. by eapply step_ok. }
  split; [|split; [by apply run_progress|]].
  - apply nsteps_bound in Hn. unfold left_to_do at 2, newRun in Hn. cbn [tasks canceled stopper] in Hn.
    pose proof (List.filter_length_le (fun t : option (option error) => match t with None => true | Some _ => false end)
      (replicate (length taskKinds) None)) as Hr. rewrite length_replicate in Hr.
    assert (length taskKinds <= length stopServers + 2).
    { unfold taskKinds. rewrite !length_app, length_map. destruct hasLoader, hasRegistry; cbn; lia. }
    assert (length preStop <= length stopServers + 1); [|lia]. unfold preStop. rewrite length_app, length_map.
    destruct hasRegistry; cbn; lia.
  - destruct Hok as [Hl He Hc]. split.
    + intros Hne. destruct (stopper s); naive_solver.
    + intros [Hret Hst]. rewrite Hst in Hl. destruct Hl as [Hlog Ha]. split; [done|]. split; [done|].
      intros Hg. apply Forall_forall. intros t Ht. rewrite Forall_forall in Hret. specialize (Hret t Ht).
      destruct t as [[e|]|]; [|done|done]. exfalso.
      apply list_elem_of_lookup in Ht as [i Hi]. by apply (He Hg i e).
Qed.

End Run.

(** ** Concrete runs *)

(** Two servers; the second server's [Start] fails; both are stopped and [Run]
    returns the error. *)
Definition startFailed : error := EPlain "listen: address in use".

Lemma run_stops_everything_witness :
  exists s, nsteps (step [7; 8] false false) 6 (newRun [7; 8] false false) s /\ returned s
    /\ log s = [EvStop 7; EvStop 8] /\ groupErr s = Some startFailed.
Proof.
  eexists. assert (nsteps (step [7; 8] false false) 6 (newRun [7; 8] false false)
    (mkRun false [Some None; Some (Some startFailed)] (Some startFailed) Stopped true [EvStop 7; EvStop 8])) as Hn.
  { eapply nsteps_l; [left; apply (env_task _ 1 (Some startFailed)); reflexivity|].
    eapply nsteps_l; [right; apply step_begin; reflexivity|].
    eapply nsteps_l; [right; eapply (step_call _ _ _ _ 0 None _ None); reflexivity|].
    eapply nsteps_l; [right; apply (step_server _ _ _ _ 0 7 None); [reflexivity|reflexivity|left; reflexivity]|].
    eapply nsteps_l; [right; eapply (step_call _ _ _ _ 1 None _ None); reflexivity|].
    eapply nsteps_l; [right; eapply (step_end _ _ _ _ 2 None); reflexivity|]. apply nsteps_O. }
  split; [exact Hn|]. assert (returned (mkRun false [Some None; Some (Some startFailed)] (Some startFailed) Stopped true [EvStop 7; EvStop 8])) as Hr.
  { split; [repeat constructor; discriminate|reflexivity]. }
  split; [exact Hr|]. destruct (run_stops_everything [7; 8] false false 6 _ Hn) as (_ & _ & _ & Hfin).
  destruct (Hfin Hr) as (_ & Hlog & _). split; [exact Hlog|reflexivity].
Defined.

(** The error of stopping the first server is forgotten when the second one stops. *)
Example stop_error_lost :
  exists s, nsteps (step [7; 8] false false) 7 (newRun [7; 8] false false) s /\ returned s /\ groupErr s = None
    /\ exists s0, step [7; 8] false false s0 (mkRun true [None; None] None (Stopping 1 (Some startFailed)) true [EvStop 7])
         /\ nsteps (step [7; 8] false false) 2 (newRun [7; 8] false false) s0.
Proof.
  exists (mkRun true [Some None; Some None] None Stopped true [EvStop 7; EvStop 8]).
  split; [|split; [split; [repeat constructor; discriminate|reflexivity]|split; [reflexivity|]]].
  - eapply nsteps_l; [left; apply env_signal; reflexivity|]. eapply nsteps_l; [right; apply step_begin; reflexivity|].
    eapply nsteps_l; [right; eapply (step_call _ _ _ _ 0 None _ (Some startFailed)); reflexivity|].
    eapply nsteps_l; [right; eapply (step_call _ _ _ _ 1 (Some startFailed) _ None); reflexivity|].
    eapply nsteps_l; [right; eapply (step_end _ _ _ _ 2 None); reflexivity|].
    eapply nsteps_l; [right; apply (step_server _ _ _ _ 0 7 None); [reflexivity|reflexivity|left; reflexivity]|].
    eapply nsteps_l; [right; apply (step_server _ _ _ _ 1 8 None); [reflexivity|reflexivity|right; left; reflexivity]|]. apply nsteps_O.
  - exists (mkRun true [None; None] None (Stopping 0 None) true []). split.
    + right. apply (step_call [7; 8] false false (mkRun true [None; None] None (Stopping 0 None) true []) 0 None (EvStop 7) (Some startFailed)); reflexivity.
    + eapply nsteps_l; [left; apply env_signal; reflexivity|]. eapply nsteps_l; [right; apply step_begin; reflexivity|]. apply nsteps_O.
Qed.

(** Types 0: a server, 1: a database handle, 2: the logger interface, 3: a logger. *)
Definition demoImplements (t i : nat) : bool := Nat.eqb t 3 && Nat.eqb i 2.
Definition demoFields : list (Field (Ty := nat)) := [mkField true KPointer 1 None; mkField true KInterface 2 None; mkField false KPointer 1 None].
Definition demoOptions (vars : list RefVal) : options :=
  mkOptions [mkServer (mkRef 0 7) true] None None (fun _ => None) None (fun _ => None) vars (mkRef 3 21) true false.

Lemma preStart_all_or_nothing_witness :
  let r := preStart Nat.eqb demoImplements (demoOptions [mkRef 1 20]) {[7 := demoFields]} in
  snd r = None /\ exists p fs f, heap (fst r) !! p = Some fs /\ In f fs /\ injectable f = true /\ fVal f = Some (mkRef 1 20).
Proof.
  intros r. split; [vm_compute; reflexivity|].
  destruct (preStart_all_or_nothing Nat.eqb demoImplements (demoOptions [mkRef 1 20]) {[7 := demoFields]} (fst r) None) as [Hi _];
    [vm_compute; reflexivity|].
  apply (Hi 0 (mkRef 1 20)). reflexivity.
Defined.

(** A value no field takes. *)
Example unused_var_is_refused :
  snd (preStart Nat.eqb demoImplements (demoOptions [mkRef 5 20]) {[7 := demoFields]}) = Some unusedVar.
Proof. vm_compute. reflexivity. Qed.
