(* ===== verification/Metadata.v ===== *)
(** [metadata]: the request metadata carried by a context.

    A context holds a pointer to its [Metadata], and [Set], [Delete] and the tee
    setters write through that pointer, so the objects live in a store; the
    [world] is the state a tee reader looks at and a tee writer changes (the
    transport's request). *)

From Stdlib Require Import ZArith Lia String Ascii List Bool.
From stdpp Require Import base tactics list gmap strings fin_maps.
From S2P Require Import Prelude GoStrings Errs.

Local Open Scope string_scope.
Local Open Scope list_scope.

Definition RequestID : string := "X-AEUS-Request-ID".
Definition RequestPath : string := "X-AEUS-Request-Path".
Definition RequestRoute : string := "X-AEUS-Request-Route".
Definition RequestMethod : string := "X-AEUS-Request-Method".
Definition RequestProtocol : string := "X-AEUS-Request-Protocol".
Definition RequestClientIP : string := "X-AEUS-Request-Client-IP".

Definition canonicalMetadataKey (key : string) : string := ToLower key.

Section Metadata.

(** The transport's state, behind the two tee interfaces. *)
Context {World : Type}.

Definition TeeReader : Type := World -> string -> string.
Definition TeeWriter : Type := World -> string -> string -> World.

Record Metadata : Type := mkMetadata {
  teeReader : option TeeReader;
  teeWriter : option TeeWriter;
  variables : gmap string string;
}.

Definition newMetadata : Metadata := mkMetadata None None ∅.

(** ** Methods of one object *)

Definition mdGet (w : World) (m : Metadata) (key : string) : string * bool :=
  let key := canonicalMetadataKey key in
  match variables m !! key with
  | Some val => (val, true)
  | None =>
      match teeReader m with
      | Some r => let val := r w key in
                  if String.eqb val EmptyString then (val, false) else (val, true)
      | None => (EmptyString, false)
      end
  end.

Definition mdHas (w : World) (m : Metadata) (key : string) : bool := snd (mdGet w m key).

Definition tee (w : World) (m : Metadata) (key val : string) : World :=
  match teeWriter m with Some wr => wr w key val | None => w end.

Definition mdSet (w : World) (m : Metadata) (key val : string) : World * Metadata :=
  let key := canonicalMetadataKey key in
  (tee w m key val, mkMetadata (teeReader m) (teeWriter m) (<[key := val]> (variables m))).

Definition mdDelete (w : World) (m : Metadata) (key : string) : World * Metadata :=
  let key := canonicalMetadataKey key in
  (tee w m key EmptyString, mkMetadata (teeReader m) (teeWriter m) (delete key (variables m))).

Definition mdKeys (m : Metadata) : list string := map fst (map_to_list (variables m)).

Definition setTeeReader (m : Metadata) (r : TeeReader) : Metadata :=
  mkMetadata (Some r) (teeWriter m) (variables m).
Definition setTeeWriter (m : Metadata) (w : TeeWriter) : Metadata :=
  mkMetadata (teeReader m) (Some w) (variables m).

(** ** The store and the context *)

Definition loc : Type := positive.

Record Store : Type := mkStore {
  objects : gmap loc Metadata;
  world : World;
}.

(** What the package reads of a [context.Context]: the value under its key. *)
Definition Context : Type := option loc.

Definition alloc (s : Store) (m : Metadata) : Store * loc :=
  let l := fresh (dom (objects s)) in
  (mkStore (<[l := m]> (objects s)) (world s), l).

Definition deref (s : Store) (l : loc) : Metadata := default newMetadata (objects s !! l).

Definition FromContext (s : Store) (ctx : Context) : Store * loc :=
  match ctx with
  | Some l => (s, l)
  | None => alloc s newMetadata
  end.

Definition NewContext (l : loc) : Context := Some l.

Definition update (s : Store) (l : loc) (r : World * Metadata) : Store :=
  mkStore (<[l := snd r]> (objects s)) (fst r).

(** [metadata.Set]: an empty value deletes. *)
Definition Set_ (s : Store) (ctx : Context) (k v : string) : Store * Context :=
  let '(s, l) := FromContext s ctx in
  let k := canonicalMetadataKey k in
  let m := deref s l in
  let s := update s l (if String.eqb v EmptyString then mdDelete (world s) m k else mdSet (world s) m k v) in
  (s, Some l).

Definition Delete (s : Store) (ctx : Context) (k : string) : Store * Context := Set_ s ctx k EmptyString.

(** [metadata.Get]; the object made for a context without metadata is dropped. *)
Definition Get (s : Store) (ctx : Context) (key : string) : string * bool :=
  let '(s', l) := FromContext s ctx in
  mdGet (world s') (deref s' l) (canonicalMetadataKey key).

(** One entry of the patch of [MergeContext]. *)
Definition mergeEntry (overwrite : bool) (cmd : gmap string string) (k v : string) : gmap string string :=
  if String.eqb v EmptyString then delete k cmd
  else match cmd !! k with
       | Some _ => if negb overwrite then cmd else <[k := v]> cmd
       | None => <[k := v]> cmd
       end.

Definition mergeVariables (overwrite : bool) (base patch : gmap string string) : gmap string string :=
  map_fold (fun k v cmd => mergeEntry overwrite cmd k v) base patch.

Definition MergeContext (s : Store) (ctx : Context) (patchMd : option loc) (overwrite : bool) : Store * Context :=
  let '(s, l) := FromContext s ctx in
  let base := variables (deref s l) in
  let merged := match patchMd with
                | Some p => mergeVariables overwrite base (variables (deref s p))
                | None => base
                end in
  let '(s, l') := alloc s (mkMetadata None None merged) in
  (s, Some l').

(** ** Lemmas *)

Lemma mdGet_canonical (w : World) (m : Metadata) (key : string) :
  mdGet w m (canonicalMetadataKey key) = mdGet w m key.
Proof. unfold mdGet, canonicalMetadataKey. by rewrite ToLower_idem. Qed.

Lemma mdGet_mdSet (w w' : World) (m : Metadata) (k k' v : string) :
  mdGet w' (snd (mdSet w m k v)) k'
  = if decide (canonicalMetadataKey k = canonicalMetadataKey k') then (v, true) else mdGet w' m k'.
Proof.
  unfold mdGet, mdSet. cbn [snd variables teeReader].
  rewrite lookup_insert. by case_decide.
Qed.

Lemma alloc_fresh (s : Store) (m : Metadata) (l : loc) (x : Metadata) :
  objects s !! l = Some x ->
  snd (alloc s m) <> l /\ objects (fst (alloc s m)) !! l = Some x
  /\ objects (fst (alloc s m)) !! snd (alloc s m) = Some m.
Proof.
  intros Hl. unfold alloc. cbn [fst snd objects].
  assert (fresh (dom (objects s)) <> l) as Hne.
  { intros E. apply (is_fresh (dom (objects s))). rewrite E. by apply elem_of_dom. }
  split; [done|]. by rewrite lookup_insert_ne, lookup_insert_eq.
Qed.

(** Each key of the patch is decided by its own entry, in whatever order Go's
    map iteration visits them. *)
Lemma mergeVariables_lookup (overwrite : bool) (base patch : gmap string string) (k : string) :
  mergeVariables overwrite base patch !! k
  = match patch !! k with
    | None => base !! k
    | Some v => if String.eqb v EmptyString then None
                else match base !! k with
                     | Some b => if overwrite then Some v else Some b
                     | None => Some v
                     end
    end.
Proof.
  unfold mergeVariables.
  apply (map_fold_weak_ind (fun acc p => acc !! k = match p !! k with
    | None => base !! k
    | Some v => if String.eqb v EmptyString then None
                else match base !! k with
                     | Some b => if overwrite then Some v else Some b
                     | None => Some v
                     end end)).
  { by rewrite lookup_empty. }
  intros i x p acc Hi IH. unfold mergeEntry.
  destruct (decide (i = k)) as [->|Hne].
  - rewrite Hi in IH. rewrite lookup_insert_eq.
    destruct (String.eqb x EmptyString); [by rewrite lookup_delete_eq|].
    rewrite IH. destruct (base !! k) as [b|]; [|by rewrite lookup_insert_eq].
    destruct overwrite; simpl; [by rewrite lookup_insert_eq|done].
  - rewrite lookup_insert_ne by done. rewrite <- IH.
    destruct (String.eqb x EmptyString); [by rewrite lookup_delete_ne|].
    destruct (acc !! i); [destruct overwrite; simpl|]; by rewrite ?lookup_insert_ne.
Qed.

Lemma Get_Some (s : Store) (l : loc) (key : string) :
  Get s (Some l) key = mdGet (world s) (deref s l) key.
Proof. unfold Get, FromContext. apply mdGet_canonical. Qed.

Lemma deref_update (s : Store) (l : loc) (r : World * Metadata) : deref (update s l r) l = snd r.
Proof. unfold deref, update. cbn [objects]. by rewrite lookup_insert_eq. Qed.

Lemma world_update (s : Store) (l : loc) (r : World * Metadata) : world (update s l r) = fst r.
Proof. reflexivity. Qed.

(** ** Theorems *)

(** What one key of a merge is: an empty patch value deletes, another value wins
    when it is new or when overwriting. *)
Definition mergedValue (overwrite : bool) (base patch : option string) : option string :=
  match patch with
  | None => base
  | Some v => if String.eqb v EmptyString then None
              else match base with
                   | Some b => if overwrite then Some v else Some b
                   | None => Some v
                   end
  end.

(** C36. [MergeContext] builds a fresh object: every key of the merged context is
    the merge of that key alone (so the random iteration order of the patch is
    not observable), the object behind the original context is untouched, and
    no later [Set] through the merged context reaches it. *)
Theorem MergeContext_correct (s : Store) (l p : loc) (m pm : Metadata) (overwrite : bool) :
  objects s !! l = Some m -> objects s !! p = Some pm ->
  let '(s', ctx') := MergeContext s (Some l) (Some p) overwrite in
  (forall key, let k := canonicalMetadataKey key in
     Get s' ctx' key = match mergedValue overwrite (variables m !! k) (variables pm !! k) with
                       | Some v => (v, true)
                       | None => (EmptyString, false)
                       end)
  /\ (forall key, Get s' (Some l) key = Get s (Some l) key)
  /\ (forall k v, deref (fst (Set_ s' ctx' k v)) l = m).
Proof.
  intros Hl Hp. unfold MergeContext, FromContext.
  assert (deref s l = m) as -> by (unfold deref; by rewrite Hl).
  assert (deref s p = pm) as -> by (unfold deref; by rewrite Hp).
  set (mm := mkMetadata None None _).
  destruct (alloc_fresh s mm l m Hl) as (Hne & Hkeep & Hnew).
  destruct (alloc s mm) as [s' l'] eqn:Ea. cbn [fst snd] in *.
  assert (world s' = world s) as Hw by (unfold alloc in Ea; by injection Ea as <- _).
  split; [|split].
  - intros key. rewrite Get_Some. unfold deref. rewrite Hnew. cbn [default from_option id].
    unfold mdGet, mm. cbn [variables teeReader]. rewrite mergeVariables_lookup. unfold mergedValue.
    by repeat case_match.
  - intros key. rewrite !Get_Some. unfold deref. by rewrite Hkeep, Hl, Hw.
  - intros k v. unfold Set_, FromContext. cbn [fst]. unfold deref, update. cbn [objects].
    by rewrite lookup_insert_ne, Hkeep.
Qed.

(** [Set] then [Get] on one context: the key is matched without regard to
    ASCII case, an empty value removes the entry, the other keys keep what the
    object holds, and a tee writer receives the canonical key and the value. *)
Theorem Set_then_Get (s : Store) (l : loc) (k v k' : string) :
  let '(s', ctx') := Set_ s (Some l) k v in
  ctx' = Some l
  /\ world s' = tee (world s) (deref s l) (canonicalMetadataKey k) v
  /\ Get s' ctx' k' =
       (if decide (canonicalMetadataKey k = canonicalMetadataKey k') then
          if String.eqb v EmptyString then mdGet (world s') (snd (mdDelete (world s) (deref s l) k)) k'
          else (v, true)
        else mdGet (world s') (deref s l) k').
Proof.
  unfold Set_, FromContext. cbn [fst snd].
  assert (canonicalMetadataKey (canonicalMetadataKey k) = canonicalMetadataKey k) as Hk by apply ToLower_idem.
  split; [done|]. rewrite Get_Some, deref_update, world_update.
  destruct (String.eqb_spec v EmptyString) as [->|Hv].
  - unfold mdDelete. rewrite Hk. cbn [snd fst]. split; [done|]. case_decide as Hd; [done|].
    unfold mdGet. cbn [variables teeReader]. by rewrite lookup_delete_ne.
  - rewrite mdGet_mdSet, Hk. unfold mdSet. rewrite Hk. done.
Qed.

End Metadata.

Arguments mkStore {World} _ _.
Arguments mkMetadata {World} _ _ _.

Definition demoStore : Store (World := unit) :=
  mkStore (<[1%positive := mkMetadata None None (<["a" := "1"]> ∅)]>
            (<[2%positive := mkMetadata None None (<["a" := ""]> (<["b" := "2"]> ∅))]> ∅)) tt.

Lemma MergeContext_correct_witness :
  let '(s', ctx') := MergeContext demoStore (Some 1%positive) (Some 2%positive) false in
  Get s' ctx' "A" = (EmptyString, false) /\ Get s' ctx' "b" = ("2", true)
  /\ Get s' (Some 1%positive) "a" = Get demoStore (Some 1%positive) "a".
Proof.
  pose proof (MergeContext_correct demoStore 1%positive 2%positive _ _ false eq_refl eq_refl) as H.
  destruct (MergeContext demoStore _ _ _) as [s' ctx']. destruct H as (Hm & Ho & _).
  split; [exact (Hm "A")|]. split; [exact (Hm "b")|]. exact (Ho "a").
Defined.
