(* ===== verification/Middleware.v ===== *)
(** [middleware/middleware.go]: handlers, the composition of middlewares, the
    metrics middleware and the abort marker. *)

From Stdlib Require Import ZArith Lia String Ascii List Bool.
From stdpp Require Import base tactics list gmap strings.
From S2P Require Import Prelude GoStrings Errs Metadata.

Local Open Scope string_scope.
Local Open Scope list_scope.

(** The values aeus reads back from a [context.Context]: the metadata pointer and
    the token claims. *)
Record GoContext (Claims : Type) : Type := mkCtx {
  ctxMeta : Metadata.Context;
  ctxClaims : option Claims;
}.
Arguments mkCtx {Claims} _ _.
Arguments ctxMeta {Claims} _.
Arguments ctxClaims {Claims} _.

Section Middleware.

Context {Claims World : Type}.

Definition State : Type := @Store World.

Definition Handler : Type := GoContext Claims -> State -> State * option error.
Definition Middleware : Type := Handler -> Handler.

(** The loop runs from the last middleware to the first. *)
Definition Chain (m : list Middleware) : Middleware :=
  fun next => fold_left (fun next mw => mw next) (rev m) next.

(** ** Request metrics *)

Section Metrics.
Variable now : State -> Z.
(** [telemetry.MetricsRecorder]; [None] is a nil recorder. *)
Variable recordDuration : State -> string -> string -> string -> Z -> State.
Variable recordTotal : State -> string -> string -> string -> State.

Definition RequestMetrics (recorder : bool) : Middleware :=
  fun next ctx s =>
    if negb recorder then next ctx s
    else
      let start := now s in
      let '(protocol, _) := Get s (ctxMeta ctx) RequestProtocol in
      let '(path, _) := Get s (ctxMeta ctx) RequestPath in
      let '(s, err) := next ctx s in
      let status := match err with Some _ => "error" | None => "success" end in
      let s := recordDuration s protocol path status (now s - start) in
      let s := recordTotal s protocol path status in
      (s, err).

(** The middleware never changes the outcome of the request. *)
Lemma RequestMetrics_transparent (recorder : bool) (next : Handler) (ctx : GoContext Claims) (s : State) :
  snd (RequestMetrics recorder next ctx s) = snd (next ctx s).
Proof.
  unfold RequestMetrics. destruct recorder; [|done]. cbn [negb].
  destruct (Get s (ctxMeta ctx) RequestProtocol), (Get s (ctxMeta ctx) RequestPath).
  by destruct (next ctx s).
Qed.
End Metrics.

(** ** Abort *)

Definition Abort (err : error) : error :=
  EWrap ("middleware abort: " +:+ errText err) [ESentinel ErrAbort; err].
Definition IsAbort (err : error) : bool := Is err ErrAbort.

(** [Abort] marks an error and hides nothing of it. *)
Lemma Abort_Is (err : error) (t : sentinel) :
  Is (Abort err) t = bool_decide (ErrAbort = t) || Is err t.
Proof. unfold Abort. cbn [Is existsb]. by rewrite orb_false_r. Qed.

Lemma Abort_As (err : error) : IsAbort (Abort err) = true /\ As (Abort err) = As err.
Proof. split; [by unfold IsAbort; rewrite Abort_Is|]. cbn. by destruct (As err). Qed.

Lemma Chain_cons (mw : Middleware) (m : list Middleware) (next : Handler) :
  Chain (mw :: m) next = mw (Chain m next).
Proof. unfold Chain. cbn [rev]. by rewrite fold_left_app. Qed.

(** The first middleware is the outermost: a chain is the right fold of its
    middlewares, so a request meets them in the order they are listed. *)
Lemma Chain_fold (m : list Middleware) (next : Handler) :
  Chain m next = fold_right (fun mw n => mw n) next m.
Proof. induction m as [|mw m IH]; [done|]. by rewrite Chain_cons, IH. Qed.

Lemma Chain_app (m1 m2 : list Middleware) (next : Handler) :
  Chain (m1 ++ m2) next = Chain m1 (Chain m2 next).
Proof. by rewrite !Chain_fold, fold_right_app. Qed.

End Middleware.
