(* ===== verification/JwtAuth.v ===== *)
(** [middleware/auth/jwt.go]: the allowlist patterns and the JWT middleware. *)

From Stdlib Require Import ZArith Lia String Ascii List Bool.
From stdpp Require Import base tactics list gmap strings.
From S2P Require Import Prelude GoStrings Errs Metadata Middleware.

Local Open Scope string_scope.
Local Open Scope list_scope.

Definition bearerWord : string := "Bearer".
Definition authorizationKey : string := "Authorization".

(** ** Allowlist patterns *)

Definition star : ascii := "*"%char.
Definition slashB : ascii := "/"%char.

(** One iteration of the loop of [isAllowed]. *)
Definition allowedBy (uripath pattern : string) : bool :=
  let n := String.length pattern in
  if String.eqb pattern uripath then true
  else if String.eqb pattern "*" then true
  else if (1 <? n)%nat && bool_decide (byteAt pattern (n - 1) = Some star) then
    let prefix := substring 0 (n - 1) pattern in
    if negb (HasPrefix uripath prefix) then false
    else if bool_decide (byteAt prefix (String.length prefix - 1) = Some slashB) then true
    else (String.length prefix <? String.length uripath)%nat
         && bool_decide (byteAt uripath (String.length prefix) = Some slashB)
  else false.

Fixpoint isAllowed (uripath : string) (allows : list string) : bool :=
  match allows with
  | [] => false
  | pattern :: rest => if allowedBy uripath pattern then true else isAllowed uripath rest
  end.

(** ** Options *)

Section Jwt.

Context {Claims World Kind : Type}.

(** What the middleware uses of the JWT library: parsing into the configured
    claims type (when it implements [jwt.Claims]) and into a map. *)
Record Token : Type := mkToken { Valid : bool; TokenClaims : Claims }.
Variable implementsClaims : Kind -> bool.

(** A parse gives a token, or an error with or without the token read so far. *)
Inductive parsed : Type :=
| POk (ti : Token)
| PErr (err : error) (hasToken : bool).

Variable ParseWithClaims : Kind -> string -> parsed.
Variable Parse : string -> parsed.

Notation St := (State (World := World)).
Notation Ctx := (GoContext Claims).

Record options : Type := mkOptions {
  allows : list string;
  claims : option Kind;
  validate : option (Ctx -> St -> string -> St * option error);
  permissionChecker : option (Ctx -> St -> Claims -> St * option error);
}.

Definition noOptions : options := mkOptions [] None None None.

Definition WithAllow (paths : list string) (o : options) : options :=
  mkOptions (fold_left (fun acc s => let s := TrimSpace s in
                                     if String.eqb s EmptyString then acc else acc ++ [s]) paths (allows o))
    (claims o) (validate o) (permissionChecker o).

Definition WithClaims (k : Kind) (o : options) : options :=
  mkOptions (allows o) (Some k) (validate o) (permissionChecker o).
Definition WithPermissionChecker (fn : Ctx -> St -> Claims -> St * option error) (o : options) : options :=
  mkOptions (allows o) (claims o) (validate o) (Some fn).
Definition WithValidate (fn : Ctx -> St -> string -> St * option error) (o : options) : options :=
  mkOptions (allows o) (claims o) (Some fn) (permissionChecker o).

Definition NewContext (ctx : Ctx) (info : Claims) : Ctx := mkCtx (ctxMeta ctx) (Some info).
Definition FromContext (ctx : Ctx) : option Claims := ctxClaims ctx.

(** ** The middleware *)

(** The first steps: an allowlisted path, known to the metadata. *)
Definition allowlisted (opts : options) (ctx : Ctx) (s : St) : bool :=
  match allows opts with
  | [] => false
  | l => let '(requestPath, ok) := Get s (ctxMeta ctx) RequestPath in
         ok && isAllowed requestPath l
  end.

Definition bearerToken (token : string) : string := TrimSpace (TrimPrefix token bearerWord).

(** The typed parse, and the untyped one when it returned no token. *)
Definition parseToken (opts : options) (token : string) : parsed :=
  match claims opts with
  | Some k =>
      if implementsClaims k then
        match ParseWithClaims k token with
        | PErr _ false => Parse token
        | r => r
        end
      else Parse token
  | None => Parse token
  end.

(** How a parse error is reported. *)
Definition parseError (err : error) : errsVar :=
  if Is err ErrTokenMalformed || Is err ErrTokenUnverifiable then ErrAccessDenied
  else if Is err ErrTokenNotValidYet || Is err ErrJwtTokenExpired then ErrTokenExpired
  else ErrPermissionDenied.

Definition JWT (opts : options) : Middleware (Claims := Claims) (World := World) :=
  fun next ctx s =>
    if allowlisted opts ctx s then next ctx s
    else
      let '(token, ok) := Get s (ctxMeta ctx) authorizationKey in
      if negb ok then (s, Some (ESentinel (SErrs ErrAccessDenied)))
      else
        let token := bearerToken token in
        let '(s, err) := match validate opts with
                         | Some v => v ctx s token
                         | None => (s, None)
                         end in
        match err with
        | Some e => (s, Some e)
        | None =>
            match parseToken opts token with
            | PErr e _ => (s, Some (ESentinel (SErrs (parseError e))))
            | POk ti =>
                if negb (Valid ti) then (s, Some (ESentinel (SErrs ErrPermissionDenied)))
                else
                  let '(s, err) := match permissionChecker opts with
                                   | Some p => p ctx s (TokenClaims ti)
                                   | None => (s, None)
                                   end in
                  match err with
                  | Some e => (s, Some e)
                  | None => next (NewContext ctx (TokenClaims ti)) s
                  end
            end
        end.

(** ** Theorems about the middleware *)

(** The request is stopped before the handler: no bearer header, a validator
    that refuses, a token that does not parse or is not valid, or a permission
    checker that refuses. *)
Definition refused (opts : options) (ctx : Ctx) (s : St) : bool :=
  let '(token, ok) := Get s (ctxMeta ctx) authorizationKey in
  negb ok ||
  (let token := bearerToken token in
   let '(s1, err) := match validate opts with Some v => v ctx s token | None => (s, None) end in
   match err with
   | Some _ => true
   | None =>
       match parseToken opts token with
       | PErr _ _ => true
       | POk ti =>
           negb (Valid ti)
           || match permissionChecker opts with
              | Some p => match p ctx s1 (TokenClaims ti) with (_, Some _) => true | _ => false end
              | None => false
              end
       end
   end).

(** The outcome of a refused request does not depend on the handler. *)
Lemma JWT_refused (opts : options) (ctx : Ctx) (s : St) :
  allowlisted opts ctx s = false -> refused opts ctx s = true ->
  (exists s' e, forall next, JWT opts next ctx s = (s', Some e)).
Proof.
  intros Ha Hr. unfold JWT. rewrite Ha. unfold refused in Hr.
  destruct (Get s (ctxMeta ctx) authorizationKey) as [token ok].
  destruct ok; cbn [negb orb] in Hr |- *; [|eauto].
  destruct (match validate opts with Some v => _ | None => _ end) as [s1 [e|]]; [eauto|].
  destruct (parseToken opts (bearerToken token)) as [ti|e h]; [|eauto].
  destruct (Valid ti); cbn [negb orb] in Hr |- *; [|eauto].
  destruct (permissionChecker opts) as [p|]; [|done].
  destruct (p ctx s1 (TokenClaims ti)) as [s2 [e|]]; [eauto|done].
Qed.

(** What a request that is not refused brought: a token the validator passes, that
    parses, is valid and is permitted. *)
Lemma JWT_admitted (opts : options) (ctx : Ctx) (s : St) :
  refused opts ctx s = false ->
  let token := bearerToken (fst (Get s (ctxMeta ctx) authorizationKey)) in
  exists s1 ti,
    match validate opts with Some v => v ctx s token | None => (s, None) end = (s1, None)
    /\ parseToken opts token = POk ti /\ Valid ti = true
    /\ match permissionChecker opts with Some p => snd (p ctx s1 (TokenClaims ti)) = None | None => True end.
Proof.
  unfold refused. destruct (Get s (ctxMeta ctx) authorizationKey) as [token ok]. destruct ok; cbn [negb orb fst]; [|done].
  destruct (match validate opts with Some v => _ | None => _ end) as [s1 [e|]]; [done|].
  destruct (parseToken opts (bearerToken token)) as [ti|e h]; [|done].
  destruct (Valid ti) eqn:Ev; cbn [negb orb]; [|done]. intros Hp. exists s1, ti. split; [done|]. split; [done|]. split; [done|].
  destruct (permissionChecker opts) as [p|]; [|done]. by destruct (p ctx s1 (TokenClaims ti)) as [s2 [e|]].
Qed.

(** The gate: a request whose path is not allowlisted reaches the handler
    only when nothing refuses it.  A refused request gets an error, and the
    outcome does not depend on the handler at all. *)
Theorem JWT_gate (opts : options) (ctx : Ctx) (s : St) :
  allowlisted opts ctx s = false -> refused opts ctx s = true ->
  (exists s' e, forall next, JWT opts next ctx s = (s', Some e)).
Proof. apply JWT_refused. Qed.

(** The handler of an authenticated request runs with the claims of the
    verified token in its context, and an allowlisted request reaches the
    handler with the context it came with, unauthenticated. *)
Theorem JWT_admits (opts : options) (ctx : Ctx) (s : St) (next : Handler) :
  (allowlisted opts ctx s = true -> JWT opts next ctx s = next ctx s)
  /\ (allowlisted opts ctx s = false -> refused opts ctx s = false ->
      exists s' ti, parseToken opts (bearerToken (fst (Get s (ctxMeta ctx) authorizationKey))) = POk ti
        /\ Valid ti = true
        /\ JWT opts next ctx s = next (mkCtx (ctxMeta ctx) (Some (TokenClaims ti))) s').
Proof.
  unfold JWT. split; [by intros ->|]. intros -> Hr. unfold refused in Hr.
  destruct (Get s (ctxMeta ctx) authorizationKey) as [token ok].
  destruct ok; cbn [negb orb fst] in Hr |- *; [|done].
  destruct (match validate opts with Some v => _ | None => _ end) as [s1 [e|]]; [done|].
  destruct (parseToken opts (bearerToken token)) as [ti|e h]; [|done].
  destruct (Valid ti) eqn:Hv; cbn [negb orb] in Hr |- *; [|done].
  destruct (permissionChecker opts) as [p|].
  - destruct (p ctx s1 (TokenClaims ti)) as [s2 [e|]]; [done|]. by exists s2, ti.
  - by exists s1, ti.
Qed.

End Jwt.

Arguments mkToken {Claims} _ _.
Arguments POk {Claims} _.
Arguments PErr {Claims} _ _.
Arguments mkOptions {Claims World Kind} _ _ _ _.

(** ** The pattern language *)

(** The reading of one pattern: the exact path, everything, or a prefix that
    ends at a segment boundary. *)
Definition pattern_matches (pattern path : string) : Prop :=
  pattern = path \/ pattern = "*"
  \/ exists prefix rest, prefix <> EmptyString /\ pattern = prefix +:+ "*" /\ path = prefix +:+ rest
     /\ (lastByte prefix = Some slashB \/ exists r, rest = String slashB r).

Lemma allowedBy_spec (path pattern : string) :
  allowedBy path pattern = true <-> pattern_matches pattern path.
Proof.
  unfold allowedBy, pattern_matches.
  destruct (String.eqb_spec pattern path) as [->|Hne]; [by split; [left|]|].
  destruct (String.eqb_spec pattern "*") as [->|Hs]; [by split; [right; left|]|].
  rewrite substring_dropLast.
  destruct (Nat.ltb_spec 1 (String.length pattern)) as [Hl|Hl]; cbn [andb].
  2:{ split; [done|]. intros [?|[?|(prefix & rest & Hp & -> & _)]]; [done|done|].
      rewrite length_append in Hl. destruct prefix; [done|]. simpl in Hl. lia. }
  rewrite byteAt_last by (destruct pattern; [simpl in Hl; lia|done]).
  case_bool_decide as Hstar.
  2:{ split; [done|]. intros [?|[?|(prefix & rest & Hp & -> & _)]]; [done|done|].
      by rewrite lastByte_app in Hstar. }
  pose proof (dropLast_lastByte _ _ Hstar) as Hp. set (prefix := dropLast pattern) in *.
  assert (prefix <> EmptyString) as Hpne by (intros E; rewrite E in Hp; done).
  assert (forall p r, pattern = p +:+ "*" -> path = p +:+ r -> p = prefix) as Huniq.
  { intros p r Hp' _. rewrite Hp in Hp'. symmetry. by eapply append_inj_r. }
  destruct (HasPrefix path prefix) eqn:Hpre; cbn [negb].
  2:{ split; [done|]. intros [?|[?|(p & rest & _ & Hp' & Hpath & _)]]; [done|done|].
      rewrite (Huniq _ _ Hp' Hpath) in Hpath.
      assert (HasPrefix path prefix = true) by (apply HasPrefix_spec; eauto). congruence. }
  apply HasPrefix_spec in Hpre as [r ->]. rewrite byteAt_last by done.
  case_bool_decide as Hseg.
  { split; [|done]. intros _. right; right. exists prefix, r. auto. }
  rewrite byteAt_app, length_append, andb_true_iff, bool_decide_eq_true, Nat.ltb_lt.
  split.
  - intros [_ Hr]. right; right. exists prefix, r. repeat split; [done|done|].
    right. destruct r as [|a r]; [done|]. exists r. unfold byteAt in Hr. simpl in Hr. congruence.
  - intros [?|[?|(p & rest & _ & Hp' & Hpath & Hor)]]; [done|done|].
    pose proof (Huniq _ _ Hp' Hpath) as ->. apply append_inj_l in Hpath as ->.
    destruct Hor as [?|[r' ->]]; [done|]. simpl. split; [lia|done].
Qed.

(** What the allowlist means (the comment of the code reads differently on a
    prefix without a slash, [prefix_not_allowed]), for every path and
    every pattern list: a path is allowed exactly when some pattern is the path,
    is "*", or is a non-empty prefix followed by "*" that covers the path up to a
    segment boundary. *)
Theorem isAllowed_spec (path : string) (allows : list string) :
  isAllowed path allows = true <-> Exists (fun p => pattern_matches p path) allows.
Proof.
  induction allows as [|p allows IH]; cbn [isAllowed].
  - split; [done|]. intros H. inversion H.
  - rewrite Exists_cons, <- IH, <- allowedBy_spec. destruct (allowedBy path p); naive_solver.
Qed.

(** A pattern "/prefix*" does not allow the path "/prefix" itself. *)
Lemma prefix_not_allowed (prefix : string) :
  prefix <> EmptyString -> lastByte prefix <> Some slashB -> isAllowed prefix [prefix +:+ "*"] = false.
Proof.
  intros Hp Hl. apply not_true_iff_false. rewrite isAllowed_spec, Exists_cons, Exists_nil.
  intros [[H|[H|(p & r & _ & H & Hpath & Hor)]]|[]].
  - apply (f_equal String.length) in H. rewrite length_append in H. simpl in H. lia.
  - apply (append_inj_r prefix EmptyString) in H. done.
  - apply append_inj_r in H as <-. rewrite <- (append_nil_r prefix) in Hpath at 1.
    apply append_inj_l in Hpath as <-. destruct Hor as [?|[? ?]]; done.
Qed.

(** A concrete configuration: a token is its own claims, "bad" does not parse and
    "weak" is not valid. *)
Definition demoParse (t : string) : parsed (Claims := string) :=
  if String.eqb t "bad" then PErr (ESentinel ErrTokenMalformed) true
  else POk (mkToken (negb (String.eqb t "weak")) t).

Definition demoOptions : options (Claims := string) (World := unit) (Kind := unit) :=
  mkOptions ["/auth/*"] None None None.

Definition requestStore (path token : string) : State (World := unit) :=
  mkStore (<[1%positive := mkMetadata None None
     (<[canonicalMetadataKey RequestPath := path]> (<["authorization" := token]> ∅))]> ∅) tt.

Lemma JWT_gate_witness :
  exists s' e, forall next,
    JWT (fun _ => true) (fun _ => demoParse) demoParse demoOptions next
      (mkCtx (Some 1%positive) None) (requestStore "/api/users" "Bearer bad") = (s', Some e).
Proof. apply (JWT_gate (fun _ => true) (fun _ => demoParse) demoParse demoOptions); vm_compute; reflexivity. Defined.

Lemma JWT_admits_witness :
  JWT (fun _ => true) (fun _ => demoParse) demoParse demoOptions
      (fun ctx s => (s, match ctxClaims ctx with None => None | Some c => Some (EPlain c) end))
      (mkCtx (Some 1%positive) None) (requestStore "/auth/login" "Bearer bad")
  = (requestStore "/auth/login" "Bearer bad", None).
Proof.
  destruct (JWT_admits (fun _ => true) (fun _ => demoParse) demoParse demoOptions
      (mkCtx (Some 1%positive) None) (requestStore "/auth/login" "Bearer bad")
      (fun ctx s => (s, match ctxClaims ctx with None => None | Some c => Some (EPlain c) end))) as [H _].
  rewrite H; vm_compute; reflexivity.
Defined.
