(* ===== verification/RateLimit.v ===== *)
(** [middleware/auth/rate_limit.go]: the rate-limit middleware over an abstract
    [Limiter]. *)

From Stdlib Require Import ZArith Lia String Ascii List Bool.
From stdpp Require Import base tactics list gmap strings pretty.
From S2P Require Import Prelude GoStrings Errs Metadata Middleware JwtAuth.

Local Open Scope string_scope.
Local Open Scope list_scope.

(** ** itoa *)

(** The digit loop writes the buffer backwards; [i] is the next free index and a
    write below 0 is a panic ([None]). *)
Fixpoint itoaLoop (fuel : nat) (i : nat) (n : Z) (acc : string) : option (nat * string) :=
  if (n <=? 0)%Z then Some (i, acc)
  else match fuel, i with
       | S fuel', S i' => itoaLoop fuel' i' (n / 10) (String (ascii_of_nat (Z.to_nat (48 + n mod 10))) acc)
       | _, _ => None
       end.

Definition itoa (n : Z) : option string :=
  if (n =? 0)%Z then Some "0"
  else
    let neg := (n <? 0)%Z in
    let n := if neg then wraps 64 (Z.opp n) else n in
    match itoaLoop 64 20 n EmptyString with
    | Some (i, s) =>
        if neg then match i with S _ => Some ("-" +:+ s) | O => None end else Some s
    | None => None
    end.

(** ** Durations *)

Definition Second : Z := 1000000000.

(** [d.Round(time.Second)] and [.Seconds()] truncated to an integer, for the
    multiple of a second that [Round] returns. *)
Definition roundSecond (d : Z) : Z :=
  (let r := Z.rem d Second in
   if d <? 0 then
     let r := - r in
     if r + r <? Second then d + r
     else let d1 := d - Second + r in if d1 <? - 2 ^ 63 then - 2 ^ 63 else d1
   else if r + r <? Second then d - r
        else let d1 := d + Second - r in if MaxInt64 <? d1 then MaxInt64 else d1)%Z.

Definition retrySeconds (retryAfter : Z) : Z := Z.max (Z.quot (roundSecond retryAfter) Second) 1.

Section RateLimit.

Context {Claims World : Type}.
Notation St := (State (World := World)).
Notation Ctx := (GoContext Claims).

(** The string claims of a [jwt.MapClaims]; [None] for another claims type. *)
Variable mapClaims : Claims -> option (string -> option string).

(** What the middleware needs of a limiter backend: one decision per key. *)
Class Limiter : Type := {
  Allow : St -> string -> St * (bool * Z * option error);
}.

Record RateLimitOpts : Type := mkOpts {
  oPath : string;
  oKeys : list string;
  oCapacity : Z;
}.

Definition nonEmpty (o : option string) : option string :=
  match o with Some EmptyString => None | o => o end.

Definition expandKey (s : St) (ctx : Ctx) (tmpl : string) : string :=
  let '(ip, _) := Get s (ctxMeta ctx) RequestClientIP in
  let '(path, _) := Get s (ctxMeta ctx) RequestPath in
  let '(user, tenant) :=
    match ctxClaims ctx with
    | Some c =>
        match mapClaims c with
        | Some mc =>
            (match nonEmpty (mc "uid") with
             | Some v => v
             | None => match nonEmpty (mc "sub") with Some v => v | None => EmptyString end
             end,
             match mc "tid" with Some v => v | None => EmptyString end)
        | None => (EmptyString, EmptyString)
        end
    | None => (EmptyString, EmptyString)
    end in
  let out := ReplaceAll tmpl "{ip}" ip in
  let out := ReplaceAll out "{user}" user in
  let out := ReplaceAll out "{tenant}" tenant in
  ReplaceAll out "{path}" path.

Definition publishRetryAfter (s : St) (ctx : Ctx) (retryAfter : Z) : St :=
  match itoa (retrySeconds retryAfter) with
  | Some v => fst (Set_ s (ctxMeta ctx) "Retry-After" v)
  | None => s
  end.

(** [retryAfter.String()], part of the message. *)
Variable durationString : Z -> string.

Section Middleware.
Context {L : Limiter}.

(** The loop over the key templates. *)
Fixpoint consult (s : St) (ctx : Ctx) (keys : list string) : St * option error :=
  match keys with
  | [] => (s, None)
  | tmpl :: rest =>
      let key := expandKey s ctx tmpl in
      let '(s, (allowed, retryAfter, err)) := Allow s key in
      match err with
      | Some e => (s, Some (Wrap CodeInternal e))
      | None =>
          if negb allowed then
            let s := if (0 <? retryAfter)%Z then publishRetryAfter s ctx retryAfter else s in
            (s, Some (Newf CodeTooManyAttempts ("too many attempts, retry after " +:+ durationString retryAfter)))
          else consult s ctx rest
      end
  end.

Definition RateLimit (opts : RateLimitOpts) : Middleware (Claims := Claims) (World := World) :=
  fun next ctx s =>
    let '(path, _) := Get s (ctxMeta ctx) RequestPath in
    if negb (isAllowed path [oPath opts]) then next ctx s
    else match consult s ctx (oKeys opts) with
         | (s, Some e) => (s, Some e)
         | (s, None) => next ctx s
         end.

(** The checks that panic when the middleware is built ([refillOk]: the refill
    rate is positive). *)
Definition NewRateLimit (opts : RateLimitOpts) (refillOk : bool) :
    result string (Middleware (Claims := Claims) (World := World)) :=
  if (oCapacity opts <=? 0)%Z then Err "middleware/auth: RateLimit requires Capacity > 0"
  else if negb refillOk then Err "middleware/auth: RateLimit requires Refill > 0"
  else if String.eqb (oPath opts) EmptyString then Err "middleware/auth: RateLimit requires a non-empty Path"
  else match oKeys opts with
       | [] => Err "middleware/auth: RateLimit requires at least one key template"
       | _ => Ok (RateLimit opts)
       end.

(** The keys a run of the loop passes to the limiter, and what it answered. *)
Inductive consulted : St -> Ctx -> list string -> list (string * bool) -> St -> Prop :=
| consulted_nil s ctx : consulted s ctx [] [] s
| consulted_cons s ctx tmpl rest s1 r asked s2 :
    Allow s (expandKey s ctx tmpl) = (s1, (true, r, None)) ->
    consulted s1 ctx rest asked s2 ->
    consulted s ctx (tmpl :: rest) ((expandKey s ctx tmpl, true) :: asked) s2.

Lemma consult_None (keys : list string) (s s' : St) (ctx : Ctx) :
  consult s ctx keys = (s', None) <-> exists asked, consulted s ctx keys asked s'.
Proof.
  revert s; induction keys as [|tmpl rest IH]; intros s; cbn [consult].
  - split; [intros [= ->]; eexists; constructor | by intros [asked H]; inversion H].
  - destruct (Allow s (expandKey s ctx tmpl)) as [s1 [[allowed r] err]] eqn:Ea.
    destruct err as [e|]; [split; [done|intros [asked H]; inversion H; congruence]|].
    destruct allowed; cbn [negb]; [|split; [done|intros [asked H]; inversion H; congruence]].
    rewrite IH. split.
    + intros [asked H]. eexists. by econstructor.
    + intros [asked H]. inversion H; subst. rewrite Ea in *. simplify_eq. eauto.
Qed.

Lemma consult_error (keys : list string) (s s' : St) (ctx : Ctx) (e : error) :
  consult s ctx keys = (s', Some e) -> IsCode e CodeTooManyAttempts = true \/ IsCode e CodeInternal = true.
Proof.
  revert s; induction keys as [|tmpl rest IH]; intros s; cbn [consult]; [done|].
  destruct (Allow s (expandKey s ctx tmpl)) as [s1 [[allowed r] err]].
  destruct err as [e'|]; [intros [= _ <-]; by right|].
  destruct allowed; cbn [negb]; [apply IH|]. intros [= _ <-]. by left.
Qed.

(** The rate limiter fails closed.  On a protected path the handler runs
    exactly when the limiter allowed every key template in turn without error,
    in the state the last decision left; otherwise the request ends in "too
    many attempts" or "internal" and the outcome does not depend on the
    handler.  A path outside the protected prefix consults no limiter. *)
Theorem RateLimit_fail_closed (opts : RateLimitOpts) (ctx : Ctx) (s : St) :
  let protected := isAllowed (fst (Get s (ctxMeta ctx) RequestPath)) [oPath opts] in
  (protected = false -> forall next, RateLimit opts next ctx s = next ctx s)
  /\ (protected = true ->
      (exists asked s', consulted s ctx (oKeys opts) asked s'
         /\ forall next, RateLimit opts next ctx s = next ctx s')
      \/ (exists s' e, (IsCode e CodeTooManyAttempts = true \/ IsCode e CodeInternal = true)
         /\ forall next, RateLimit opts next ctx s = (s', Some e))).
Proof.
  intros protected. unfold RateLimit. subst protected.
  destruct (Get s (ctxMeta ctx) RequestPath) as [path ok]. cbn [fst].
  split; intros ->; [done|]. cbn [negb].
  destruct (consult s ctx (oKeys opts)) as [s' [e|]] eqn:E.
  - right. exists s', e. split; [by eapply consult_error|done].
  - left. apply consult_None in E as [asked H]. by exists asked, s'.
Qed.
End Middleware.
End RateLimit.

(** ** itoa *)

Lemma parseDigits_String (acc : Z) (a : ascii) (s : string) :
  is_digit a = true ->
  parseDigits acc (String a s) = parseDigits (acc * 10 + (Z.of_nat (nat_of_ascii a) - 48)) s.
Proof. intros Ha. cbn [parseDigits]. by rewrite Ha. Qed.

Lemma digit_char (d : Z) :
  (0 <= d < 10)%Z ->
  is_digit (ascii_of_nat (Z.to_nat (48 + d))) = true
  /\ (Z.of_nat (nat_of_ascii (ascii_of_nat (Z.to_nat (48 + d)))) - 48 = d)%Z.
Proof.
  intros Hd. assert (nat_of_ascii (ascii_of_nat (Z.to_nat (48 + d))) = Z.to_nat (48 + d)) as E.
  { apply nat_ascii_embedding. lia. }
  unfold is_digit. rewrite E. split; [|lia].
  apply andb_true_iff. split; apply Nat.leb_le; lia.
Qed.

(** The loop with enough room writes the digits of [n] in front of [acc]. *)
Lemma itoaLoop_correct (fuel i : nat) (n : Z) (acc : string) :
  (0 <= n < 10 ^ Z.of_nat i)%Z -> (i <= fuel)%nat ->
  exists j s, itoaLoop fuel i n acc = Some (j, s +:+ acc) /\ (j <= i)%nat
    /\ (0 < n -> s <> EmptyString)%Z
    /\ forall a, parseDigits a (s +:+ acc) = parseDigits (a * 10 ^ Z.of_nat (String.length s) + n) acc.
Proof.
  revert i n acc; induction fuel as [|fuel IH]; intros i n acc Hn Hi.
  - replace i with 0%nat in * by lia. change (10 ^ Z.of_nat 0)%Z with 1%Z in Hn. assert (n = 0)%Z as -> by lia.
    exists 0%nat, EmptyString. split; [done|]. split; [lia|]. split; [intros; lia|]. intros a. simpl. f_equal. lia.
  - cbn [itoaLoop]. destruct (Z.leb_spec n 0) as [Hz|Hz].
    + assert (n = 0)%Z as -> by lia. exists i, EmptyString. split; [done|]. split; [lia|]. split; [intros; lia|].
      intros a. simpl. f_equal. lia.
    + destruct i as [|i]; [change (10 ^ Z.of_nat 0)%Z with 1%Z in Hn; lia|].
      rewrite Nat2Z.inj_succ, Z.pow_succ_r in Hn by lia.
      destruct (digit_char (n mod 10)) as [Hd1 Hd2]; [apply Z.mod_pos_bound; lia|].
      set (c := ascii_of_nat (Z.to_nat (48 + n mod 10))) in *.
      destruct (IH i (n / 10)%Z (String c acc)) as (j & s & Hj & Hle & _ & Hp); [|lia|].
      { split; [apply Z.div_pos; lia|]. apply Z.div_lt_upper_bound; lia. }
      exists j, (s +:+ String c EmptyString). rewrite append_assoc. simpl (String c EmptyString +:+ acc).
      split; [done|]. split; [lia|]. split; [by destruct s|]. intros a. rewrite Hp, parseDigits_String by done.
      f_equal. rewrite Hd2, length_append. cbn [String.length].
      rewrite Nat2Z.inj_add, Z.pow_add_r by lia. change (10 ^ Z.of_nat 1)%Z with 10%Z.
      pose proof (Z.div_mod n 10 ltac:(lia)). lia.
Qed.

(** The hand-written [itoa] of the Retry-After header: for every
    non-negative [int64] it stays inside its 20-byte buffer and its text reads
    back as the number. *)
Theorem itoa_roundtrip (n : Z) :
  (0 <= n <= MaxInt64)%Z -> exists s, itoa n = Some s /\ parseDecimal s = Some n.
Proof.
  intros Hn. unfold itoa, MaxInt64 in *. destruct (Z.eqb_spec n 0) as [->|Hz]; [by eexists|].
  replace (n <? 0)%Z with false by (symmetry; apply Z.ltb_ge; lia).
  destruct (itoaLoop_correct 64 20 n EmptyString) as (j & s & -> & _ & Hne & Hp).
  { change (10 ^ Z.of_nat 20)%Z with 100000000000000000000%Z. lia. }
  { lia. }
  rewrite append_nil_r in *. exists s. split; [done|]. unfold parseDecimal.
  specialize (Hp 0%Z). rewrite Z.mul_0_l, Z.add_0_l in Hp. cbn [parseDigits] in Hp.
  destruct s; [|done]. by destruct (Hne ltac:(lia)).
Qed.

Lemma itoa_roundtrip_witness : exists s, itoa 9223372036854775807 = Some s /\ parseDecimal s = Some 9223372036854775807%Z.
Proof. apply (itoa_roundtrip 9223372036854775807). unfold MaxInt64. lia. Defined.

(** A limiter whose third request in a row is refused, counting in its state. *)
#[local] Instance thirdRefused : Limiter (World := nat) := {|
  Allow := fun s _ => (mkStore (objects s) (S (world s)), ((world s <? 2)%nat, 60000000000%Z, None))
|}.

Lemma RateLimit_demo :
  let opts := mkOpts "/auth/*" ["ip:{ip}"; "user:{user}:{path}"] 5 in
  let s := mkStore (<[1%positive := mkMetadata None None
             (<[canonicalMetadataKey RequestPath := "/auth/login"]> ∅)]> ∅) 1%nat in
  let out := RateLimit (Claims := unit) (fun _ => None) (fun _ => "1m0s") opts (fun _ s => (s, None)) (mkCtx (Some 1%positive) None) s in
  world (fst out) = 3%nat /\ option_map (fun e => IsCode e CodeTooManyAttempts) (snd out) = Some true
  /\ Get (fst out) (Some 1%positive) "Retry-After" = ("60", true).
Proof. vm_compute. auto. Qed.
