(* ===== verification/MemoryLimiter.v ===== *)
(** [middleware/auth/rate_limit_memory.go]: the token buckets in memory, in binary64
    arithmetic, and the janitor that drops idle ones. *)

From Stdlib Require Import ZArith Lia String Ascii List Bool SpecFloat.
From stdpp Require Import base tactics list gmap strings.
From S2P Require Import Prelude GoStrings Errs Metadata Middleware RateLimit.

Local Open Scope string_scope.
Local Open Scope list_scope.

(** ** float64 *)

Definition prec : Z := 53.
Definition emax : Z := 1024.
Notation float64 := spec_float (only parsing).
Definition fadd : float64 -> float64 -> float64 := SFadd prec emax.
Definition fsub : float64 -> float64 -> float64 := SFsub prec emax.
Definition fmul : float64 -> float64 -> float64 := SFmul prec emax.
Definition fdiv : float64 -> float64 -> float64 := SFdiv prec emax.
Definition ofInt (z : Z) : float64 := binary_normalize prec emax z 0 false.
Definition fone : float64 := ofInt 1.

(** [math.Min] *)
Definition fmin (x y : float64) : float64 :=
  match x, y with
  | S754_infinity true, _ | _, S754_infinity true => S754_infinity true
  | S754_nan, _ | _, S754_nan => S754_nan
  | S754_zero sx, S754_zero _ => if sx then x else y
  | _, _ => if SFltb x y then x else y
  end.

(** The conversion to int64 of a value in its range, truncated. *)
Definition toInt (x : float64) : Z :=
  match x with
  | S754_finite s m e => let a := (if 0 <=? e then Zpos m * 2 ^ e else Zpos m / 2 ^ (- e))%Z in if s then (- a)%Z else a
  | _ => 0%Z
  end.

(** [Duration.Seconds] *)
Definition Seconds (d : Z) : float64 :=
  fadd (ofInt (Z.quot d 1000000000)) (fdiv (ofInt (Z.rem d 1000000000)) (ofInt 1000000000)).

(** ** The limiter *)

Record tokenBucket : Type := mkBucket { tokens : float64; lastRefill : Z }.

Record memoryLimiter : Type := mkLimiter { capacity : Z; refill : float64; buckets : gmap string tokenBucket }.

(** The panics of the constructor are [None]. *)
Definition NewMemoryLimiter (capacity : Z) (refill : float64) : option memoryLimiter :=
  if (capacity <=? 0)%Z then None
  else if SFleb refill (ofInt 0) then None
  else Some (mkLimiter capacity refill ∅).

(** The bucket of a key, brought up to date. *)
Definition refreshed (capacity : Z) (refill : float64) (now : Z) (b : option tokenBucket) : tokenBucket :=
  match b with
  | None => mkBucket (ofInt capacity) now
  | Some b =>
      let elapsed := Seconds (now - lastRefill b) in
      if SFltb (ofInt 0) elapsed then mkBucket (fmin (ofInt capacity) (fadd (tokens b) (fmul elapsed refill))) now
      else b
  end.

(** One token, or the time until there is one. *)
Definition spend (refill : float64) (b : tokenBucket) : tokenBucket * (bool * Z) :=
  if SFleb fone (tokens b) then (mkBucket (fsub (tokens b) fone) (lastRefill b), (true, 0%Z))
  else
    let deficit := fsub fone (tokens b) in
    (b, (false, toInt (fmul (fdiv deficit refill) (ofInt 1000000000)))).

(** [Allow] at an instant; its error is always nil. *)
Definition Allow (l : memoryLimiter) (now : Z) (key : string) : memoryLimiter * (bool * Z * option error) :=
  let '(b, (ok, retryAfter)) := spend (refill l) (refreshed (capacity l) (refill l) now (buckets l !! key)) in
  (mkLimiter (capacity l) (refill l) (<[key := b]> (buckets l)), (ok, retryAfter, None)).

(** One tick of the janitor. *)
Definition sweep (idle : Z) (now : Z) (l : memoryLimiter) : memoryLimiter :=
  mkLimiter (capacity l) (refill l) (filter (fun kb => (now - lastRefill (snd kb) <=? idle)%Z = true) (buckets l)).

Definition size (l : memoryLimiter) : nat := map_size (buckets l).

(** The limiter as the middleware uses it: [time] and the limiter are parts of the world. *)
Definition memoryBackend {World : Type} (time : World -> Z) (get : World -> memoryLimiter) (set : memoryLimiter -> World -> World) :
    Limiter (World := World) := {|
  RateLimit.Allow s key :=
    let '(l, r) := Allow (get (world s)) (time (world s)) key in
    (mkStore (objects s) (set l (world s)), r)
|}.

(** ** Runs *)

(** Requests and sweeps, as they happen. *)
Inductive step : Type := Request (now : Z) (key : string) | Sweep (idle now : Z).

Fixpoint run (steps : list step) (l : memoryLimiter) : memoryLimiter * list (string * bool) :=
  match steps with
  | [] => (l, [])
  | Request now key :: rest =>
      let '(l, (ok, _, _)) := Allow l now key in
      let '(l, out) := run rest l in (l, (key, ok) :: out)
  | Sweep idle now :: rest => run rest (sweep idle now l)
  end.

(** ** One key *)

Definition concerns (key : string) (st : step) : bool :=
  match st with Request _ k => String.eqb k key | Sweep _ _ => true end.
Definition answersOf (key : string) (out : list (string * bool)) : list (string * bool) :=
  List.filter (fun r => String.eqb (fst r) key) out.

(** Two limiters that agree on a key answer it alike, whatever the others do. *)
Definition agree (key : string) (l l' : memoryLimiter) : Prop :=
  capacity l = capacity l' /\ refill l = refill l' /\ buckets l !! key = buckets l' !! key.

Lemma Allow_agree (key : string) (l l' : memoryLimiter) (now : Z) :
  agree key l l' -> snd (Allow l now key) = snd (Allow l' now key) /\ agree key (fst (Allow l now key)) (fst (Allow l' now key)).
Proof.
  intros (Hc & Hr & Hb). unfold Allow. rewrite Hc, Hr, Hb. destruct (spend _ _) as [b [ok t]]. split; [done|].
  repeat split; cbn; try done. by rewrite !lookup_insert_eq.
Qed.

Lemma Allow_other (key k : string) (l : memoryLimiter) (now : Z) : k <> key -> agree key (fst (Allow l now k)) l.
Proof.
  intros Hk. unfold Allow. destruct (spend _ _) as [b [ok t]]. repeat split; cbn. by rewrite lookup_insert_ne.
Qed.

Lemma sweep_agree (key : string) (idle now : Z) (l l' : memoryLimiter) : agree key l l' -> agree key (sweep idle now l) (sweep idle now l').
Proof. intros (Hc & Hr & Hb). repeat split; cbn; try done. rewrite !map_lookup_filter. by rewrite Hb. Qed.

Lemma agree_trans (key : string) (l1 l2 l3 : memoryLimiter) : agree key l1 l2 -> agree key l2 l3 -> agree key l1 l3.
Proof. intros (? & ? & ?) (? & ? & ?). repeat split; congruence. Qed.

Lemma run_agree (key : string) (steps : list step) (l l' : memoryLimiter) :
  agree key l l' ->
  answersOf key (snd (run steps l)) = snd (run (List.filter (concerns key) steps) l')
  /\ agree key (fst (run steps l)) (fst (run (List.filter (concerns key) steps) l')).
Proof.
  revert l l'. induction steps as [|[now k|idle now] steps IH]; intros l l' Ha; [done| |].
  - cbn [List.filter concerns]. destruct (String.eqb_spec k key) as [->|Hk].
    + cbn [run]. destruct (Allow_agree key l l' now Ha) as [Hs Hag].
      destruct (Allow l now key) as [l1 [[ok t] e]], (Allow l' now key) as [l1' [[ok' t'] e']]. cbn [fst snd] in *.
      injection Hs as -> -> ->. destruct (IH l1 l1' Hag) as [IH1 IH2].
      destruct (run steps l1) as [l2 o2], (run (List.filter (concerns key) steps) l1') as [l2' o2']. cbn [fst snd] in *.
      split; [|done]. cbn. rewrite String.eqb_refl. by rewrite <- IH1.
    + cbn [run]. pose proof (Allow_other key k l now Hk) as Ho. destruct (Allow l now k) as [l1 [[ok t] e]]. cbn [fst] in Ho.
      destruct (IH l1 l' (agree_trans _ _ _ _ Ho Ha)) as [IH1 IH2]. destruct (run steps l1) as [l2 o2]. cbn [fst snd] in *.
      split; [|done]. cbn. by rewrite (proj2 (String.eqb_neq _ _) Hk).
  - cbn [List.filter concerns run]. apply IH. by apply sweep_agree.
Qed.

(** Keys are isolated: in any interleaving of requests of all keys and of sweeps, the
    answers a key gets are those it would get alone, with the same sweeps. *)
Theorem keys_isolated (key : string) (steps : list step) (l l' : memoryLimiter) :
  agree key l l' ->
  answersOf key (snd (run steps l)) = snd (run (List.filter (concerns key) steps) l')
  /\ agree key (fst (run steps l)) (fst (run (List.filter (concerns key) steps) l')).
Proof. apply run_agree. Qed.

(** ** The burst *)

(** [n] tokens that can be spent one by one, and then none. *)
Fixpoint spendable (n : nat) (t : float64) : bool :=
  match n with
  | O => negb (SFleb fone t)
  | S n => SFleb fone t && spendable n (fsub t fone)
  end.

(** Capacities up to 256, by computation. *)
Lemma spendable_capacity (n : nat) : (n <= 256)%nat -> spendable n (ofInt (Z.of_nat n)) = true.
Proof.
  intros Hn. assert (forallb (fun n => spendable n (ofInt (Z.of_nat n))) (seq 0 257) = true) as Hall by (by vm_compute).
  rewrite forallb_forall in Hall. apply Hall, in_seq. lia.
Qed.

Lemma refreshed_now (cap : Z) (r : float64) (now : Z) (t : float64) :
  refreshed cap r now (Some (mkBucket t now)) = mkBucket t now.
Proof. cbn [refreshed lastRefill]. rewrite Z.sub_diag. by vm_compute. Qed.

Lemma drain (key : string) (now : Z) (m n : nat) (l : memoryLimiter) (t : float64) :
  refreshed (capacity l) (refill l) now (buckets l !! key) = mkBucket t now -> spendable n t = true ->
  snd (run (repeat (Request now key) m) l) = map (pair key) (repeat true (m `min` n) ++ repeat false (m - n)).
Proof.
  revert n l t. induction m as [|m IH]; intros n l t Hb Hs; [done|]. cbn [repeat run]. unfold Allow. rewrite Hb. unfold spend. cbn [tokens lastRefill].
  destruct n as [|n].
  - cbn [spendable] in Hs. apply negb_true_iff in Hs. rewrite Hs. set (l1 := mkLimiter _ _ _).
    specialize (IH 0%nat l1 t). destruct (run _ l1) as [l2 o]. cbn [snd] in *. rewrite IH.
    + by rewrite !Nat.min_0_r, !Nat.sub_0_r.
    + cbn [buckets capacity refill l1]. by rewrite lookup_insert_eq, refreshed_now.
    + cbn [spendable]. by rewrite Hs.
  - cbn [spendable] in Hs. apply andb_true_iff in Hs as [H1 Hs]. rewrite H1. set (l1 := mkLimiter _ _ _).
    specialize (IH n l1 (fsub t fone)). destruct (run _ l1) as [l2 o]. cbn [snd] in *. rewrite IH; [done| |done].
    cbn [buckets capacity refill l1]. by rewrite lookup_insert_eq, refreshed_now.
Qed.

(** C26. The burst of a new key, for capacities to 256 (by running through them: the tokens
    are binary64): of any number of requests at one instant, between any requests of other
    keys at any times, exactly the first [capacity] are allowed and the rest refused,
    whatever the refill rate. *)
Theorem burst_exact (n m : nat) (key : string) (now : Z) (l : memoryLimiter) (steps : list step) :
  (n <= 256)%nat -> capacity l = Z.of_nat n -> buckets l !! key = None ->
  List.filter (concerns key) steps = repeat (Request now key) m ->
  map snd (answersOf key (snd (run steps l))) = repeat true (m `min` n) ++ repeat false (m - n).
Proof.
  intros Hn Hc Hb Hf. destruct (run_agree key steps l l ltac:(by repeat split)) as [-> _]. rewrite Hf.
  rewrite (drain key now m n l (ofInt (Z.of_nat n))); [|by rewrite Hb, Hc|by apply spendable_capacity].
  by rewrite map_map, map_id.
Qed.

(** ** Concrete runs *)

Definition perMinute : float64 := fdiv (ofInt 1) (ofInt 60).
Definition sec (n : Z) : Z := (n * 1000000000)%Z.
Definition fresh_ (cap : Z) : memoryLimiter := mkLimiter cap perMinute ∅.
Definition allowed (steps : list step) (l : memoryLimiter) : list bool := map snd (snd (run steps l)).

(** One token a minute: a request in the same minute is refused, one after it allowed. *)
Example limiter_runs :
  allowed [Request 0 "a"; Request 0 "b"; Request (sec 30) "a"; Request (sec 61) "a"] (fresh_ 1) = [true; true; false; true]
  /\ snd (Allow (fst (run [Request 0 "a"] (fresh_ 1))) (sec 30) "a") = (false, sec 30, None).
Proof. by vm_compute. Qed.

(** The janitor takes an emptied bucket of ten for a full one after five minutes, where
    only five tokens have come back: swept, the key has a burst of ten again. *)
Example sweep_refills_early :
  let emptied := fst (run (repeat (Request 0 "a") 10) (fresh_ 10)) in
  let later := repeat (Request (sec 301) "a") 10 in
  allowed later emptied = repeat true 5 ++ repeat false 5
  /\ allowed (Sweep (sec 300) (sec 301) :: later) emptied = repeat true 10.
Proof. by vm_compute. Qed.

Lemma keys_isolated_witness :
  agree "a" (fresh_ 2) (fresh_ 2)
  /\ answersOf "a" (snd (run [Request 0 "b"; Request 0 "a"; Request 0 "b"] (fresh_ 2))) = [("a", true)].
Proof.
  split; [repeat split|].
  destruct (keys_isolated "a" [Request 0 "b"; Request 0 "a"; Request 0 "b"] (fresh_ 2) (fresh_ 2)) as [H _]; [repeat split|].
  rewrite H. reflexivity.
Defined.

Lemma burst_exact_witness :
  map snd (answersOf "a" (snd (run [Request 0 "a"; Request 5 "b"; Request 0 "a"; Request 0 "a"] (fresh_ 2)))) = [true; true; false].
Proof.
  rewrite (burst_exact 2 3 "a" 0 (fresh_ 2)); [reflexivity|lia|reflexivity|reflexivity|reflexivity].
Defined.
