(* ===== verification/HttpCore.v ===== *)
(** [transport/http]: a request as the framework below sees it: headers, the response
    writer, the pending handlers; the [Context] a handler is given.

    gin is not part of the repository.  What the transport relies on is an interface:
    [GinHost], the functions of the writer and of the engine, and [GinLaws], what their
    documentation says: the handlers of a request run in order, [Next] runs the pending
    ones inside the caller, [Abort] leaves none pending, a panic unwinds to the first
    recover, and a response with bytes is written. *)

From Stdlib Require Import ZArith Lia String Ascii List Bool.
From stdpp Require Import base tactics list gmap strings.
From S2P Require Import Prelude GoStrings Errs Metadata Middleware.

Local Open Scope string_scope.
Local Open Scope list_scope.

(** ** net/http headers *)

(** The bytes of a header field name. *)
Definition tokenByte (a : ascii) : bool :=
  is_upper a || is_lower a || is_digit a
  || existsb (Ascii.eqb a) (list_ascii_of_string "!#$%&'*+-.^_`|~").

Fixpoint canonBytes (upper : bool) (s : string) : string :=
  match s with
  | EmptyString => EmptyString
  | String a s => String (if upper then upperByte a else lowerByte a) (canonBytes (Ascii.eqb a "-") s)
  end.

Definition CanonicalHeaderKey (s : string) : string :=
  if forallb tokenByte (list_ascii_of_string s) then canonBytes true s else s.

Notation Header := (gmap string (list string)) (only parsing).
Definition headerGet (h : Header) (k : string) : string :=
  match h !! CanonicalHeaderKey k with Some (v :: _) => v | _ => EmptyString end.
Definition headerSet (h : Header) (k v : string) : Header := <[CanonicalHeaderKey k := [v]]> h.
Definition headerAdd (h : Header) (k v : string) : Header :=
  <[CanonicalHeaderKey k := default [] (h !! CanonicalHeaderKey k) ++ [v]]> h.
Definition headerDel (h : Header) (k : string) : Header := delete (CanonicalHeaderKey k) h.

Lemma headerGet_headerSet (h : Header) (k k' v : string) :
  headerGet (headerSet h k v) k' = if decide (CanonicalHeaderKey k = CanonicalHeaderKey k') then v else headerGet h k'.
Proof. unfold headerGet, headerSet. rewrite lookup_insert. by case_decide. Qed.

Lemma headerGet_headerAdd (h : Header) (k k' v : string) :
  CanonicalHeaderKey k <> CanonicalHeaderKey k' -> headerGet (headerAdd h k v) k' = headerGet h k'.
Proof. intros Hne. unfold headerGet, headerAdd. by rewrite lookup_insert_ne. Qed.

Lemma canonBytes_lower (u : bool) (s : string) : canonBytes u (ToLower s) = canonBytes u s.
Proof.
  revert u. induction s as [|a s IH]; intros u; [done|]. cbn [ToLower mapBytes canonBytes].
  change (mapBytes lowerByte s) with (ToLower s). rewrite IH. clear IH. f_equal.
  - destruct a as [[] [] [] [] [] [] [] []], u; reflexivity.
  - f_equal. destruct a as [[] [] [] [] [] [] [] []]; reflexivity.
Qed.

Lemma tokenByte_lower (a : ascii) : tokenByte (lowerByte a) = tokenByte a.
Proof. destruct a as [[] [] [] [] [] [] [] []]; reflexivity. Qed.

(** Header names are compared without regard to case. *)
Lemma CanonicalHeaderKey_lower (s : string) :
  forallb tokenByte (list_ascii_of_string s) = true -> CanonicalHeaderKey (ToLower s) = CanonicalHeaderKey s.
Proof.
  intros H. unfold CanonicalHeaderKey. rewrite H.
  assert (forallb tokenByte (list_ascii_of_string (ToLower s)) = true) as ->; [|by rewrite canonBytes_lower].
  rewrite <- H. clear H. induction s as [|a s IH]; [done|]. cbn [ToLower mapBytes list_ascii_of_string forallb].
  change (mapBytes lowerByte s) with (ToLower s). by rewrite tokenByte_lower, IH.
Qed.

(** ** One request *)

Section Http.

(** The claims of a context, the data of an envelope and the rest of the world (clock,
    random ids, logs, spans, metrics). *)
Context {Claims D Env : Type}.

Record Gin : Type := mkGin {
  gMethod : string;
  gPath : string;                 (* c.Request.URL.Path *)
  gFullPath : string;             (* the route's template, empty when there is none *)
  gReqHeader : Header;
  gCtx : GoContext Claims;        (* c.Request.Context() *)
  gRespHeader : Header;           (* but for the content type, which is in the writer *)
  gWriter : Response.ResponseWriter;
  gErrors : list error;
  gHalted : bool;                 (* no handler is pending *)
  gEnv : Env;
}.

Definition State : Type := @Store Gin.

Definition onGin (f : Gin -> Gin) (s : State) : State := mkStore (objects s) (f (world s)).
Definition setReqHeader (h : Header) (g : Gin) : Gin :=
  mkGin (gMethod g) (gPath g) (gFullPath g) h (gCtx g) (gRespHeader g) (gWriter g) (gErrors g) (gHalted g) (gEnv g).
Definition setRespHeader (h : Header) (g : Gin) : Gin :=
  mkGin (gMethod g) (gPath g) (gFullPath g) (gReqHeader g) (gCtx g) h (gWriter g) (gErrors g) (gHalted g) (gEnv g).
Definition setCtx (c : GoContext Claims) (g : Gin) : Gin :=
  mkGin (gMethod g) (gPath g) (gFullPath g) (gReqHeader g) c (gRespHeader g) (gWriter g) (gErrors g) (gHalted g) (gEnv g).
Definition setWriter (w : Response.ResponseWriter) (g : Gin) : Gin :=
  mkGin (gMethod g) (gPath g) (gFullPath g) (gReqHeader g) (gCtx g) (gRespHeader g) w (gErrors g) (gHalted g) (gEnv g).
Definition addError (e : error) (g : Gin) : Gin :=
  mkGin (gMethod g) (gPath g) (gFullPath g) (gReqHeader g) (gCtx g) (gRespHeader g) (gWriter g) (gErrors g ++ [e]) (gHalted g) (gEnv g).
Definition halt (g : Gin) : Gin :=
  mkGin (gMethod g) (gPath g) (gFullPath g) (gReqHeader g) (gCtx g) (gRespHeader g) (gWriter g) (gErrors g) true (gEnv g).
Definition onEnv (f : Env -> Env) (g : Gin) : Gin :=
  mkGin (gMethod g) (gPath g) (gFullPath g) (gReqHeader g) (gCtx g) (gRespHeader g) (gWriter g) (gErrors g) (gHalted g) (f (gEnv g)).

Definition writer (s : State) : Response.ResponseWriter := gWriter (world s).
Definition halted (s : State) : bool := gHalted (world s).

(** How a handler ends. *)
Inductive outcome : Type := Returns | Panics.

(** A [gin.HandlerFunc]; its first argument is [c.Next]. *)
Definition HandlerFunc : Type := (State -> State * outcome) -> State -> State * outcome.

Class GinHost : Type := {
  Marshal : Response.Envelope D -> result string string;
  connWrite : string -> option error;
  Written : Response.ResponseWriter -> bool;
  Status : Response.ResponseWriter -> Z;
  (** What [Context.ClientIP] answers: with the proxies gin trusts by default, and the
      server sets none, the address in the forwarding headers if there is one, the
      connection's otherwise. *)
  ClientIP : Gin -> string;
  (** [c.JSON] *)
  renderJSON : Z -> Response.Envelope D -> Response.ResponseWriter -> Response.ResponseWriter;
  (** The engine on a request: [serve hs] runs what is pending of [hs]. *)
  serve : list HandlerFunc -> State -> State * outcome;
}.

Class GinLaws (H : GinHost) : Prop := {
  Write_Written : forall w status env, Written (fst (Response.Write Marshal connWrite w status env)) = true;
  renderJSON_Written : forall status env w, Written (renderJSON status env w) = true;
  serve_nil : forall s, serve [] s = (onGin halt s, Returns);
  serve_cons : forall h hs s, serve (h :: hs) s =
    if halted s then (s, Returns)
    else let '(s', o) := h (serve hs) s in
         match o with Returns => serve hs s' | Panics => (s', Panics) end;
}.

Section Context_.
Context {H : GinHost}.

(** ** The context of a handler: transport/http/context.go *)

Definition ctxJSON (status : Z) (env : Response.Envelope D) (s : State) : State :=
  onGin (fun g => setWriter (renderJSON status env (gWriter g)) g) s.

(** [Context.Error] and [Context.Success]; both return nil. *)
Definition ctxError (code : Z) (message : string) (s : State) : State :=
  ctxJSON 200 (Response.New code message None) s.
Definition ctxSuccess (value : D) (s : State) : State :=
  ctxJSON 200 (Response.New 0 EmptyString (Some value)) s.

(** [Context.Bind]: the parameters of the route, then the query of a GET or the body of
    anything else.  The two binders of gin and the form of a query are its parameters. *)
Section Bind.
Context {V Form : Type}.
Variable mapForm : Form -> V -> result error V.
Variable formOf : list (string * string) -> Form.
Variable bindBody : State -> V -> result error V.

Definition Bind (params : list (string * string)) (query : Form) (s : State) (val : V) : result error V :=
  let onRoute := match params with [] => Ok val | _ => mapForm (formOf params) val end in
  match onRoute with
  | Err e => Err e
  | Ok val => if String.eqb (gMethod (world s)) "GET" then mapForm query val else bindBody s val
  end.
End Bind.

(** [Server.register]: what a [HandleFunc] returns is put on the errors of the request. *)
Inductive handled : Type := Handled (err : option error) | Panicked.
Definition HandleFunc : Type := State -> State * handled.

Definition register (h : HandleFunc) : HandlerFunc :=
  fun _ s =>
    match h s with
    | (s, Handled (Some e)) => (onGin (addError e) s, Returns)
    | (s, Handled None) => (s, Returns)
    | (s, Panicked) => (s, Panics)
    end.

End Context_.

(** ** The engine *)

Lemma halt_halted (s : State) : halted s = true -> onGin halt s = s.
Proof. destruct s as [o []]. cbn. intros Hh. unfold halted in Hh. cbn in Hh. by subst. Qed.

Section Engine.
Context {H : GinHost} {L : GinLaws H}.

(** Nothing runs for a request without pending handlers. *)
Lemma serve_halted (hs : list HandlerFunc) (s : State) : halted s = true -> serve hs s = (s, Returns).
Proof. intros Hs. destruct hs; [by rewrite serve_nil, halt_halted|]. by rewrite serve_cons, Hs. Qed.

(** Serving to the end leaves nothing pending. *)
Lemma serve_halts (hs : list HandlerFunc) (s s' : State) : serve hs s = (s', Returns) -> halted s' = true.
Proof.
  revert s. induction hs as [|h hs IH]; intros s; [rewrite serve_nil; by intros [= <-]|].
  rewrite serve_cons. destruct (halted s) eqn:E; [by intros [= <-]|]. destruct (h (serve hs) s) as [s1 []]; [apply IH|done].
Qed.
End Engine.

End Http.

Arguments Gin : clear implicits.
Arguments State : clear implicits.
Arguments GinHost : clear implicits.
