(* ===== verification/HttpContext.v ===== *)
(** [transport/http]: the objects that requests borrow from pools (the contexts of
    handlers, the gzip writers), and the gzip writer in front of the response of a static
    file, with the way [staticHandle] (server.go) sets it up and closes it. *)

From Stdlib Require Import ZArith Lia String Ascii List Bool.
From stdpp Require Import base tactics list gmap strings relations.
From S2P Require Import Prelude GoStrings Errs Metadata HttpCore.

Local Open Scope string_scope.
Local Open Scope list_scope.

(** ** Pools of objects *)

Section Pool.

(** Whether an object that is given back forgets its request. *)
Variable cleared : bool.

(** The objects, each with the request it is of; those in the pool; the requests in flight
    and the object each of them holds. *)
Record pooling : Type := mkPooling { heap : gmap nat (option nat); pooled : list nat; inflight : list (nat * nat) }.

(** An element of the pool, which [sync.Pool] chooses, or a new one. *)
Definition borrow (req : nat) (choice : option nat) (s : pooling) : pooling * nat :=
  match (match choice with Some i => (fun o => (o, i)) <$> pooled s !! i | None => None end) with
  | Some (o, i) => (mkPooling (<[o := Some req]> (heap s)) (delete i (pooled s)) (inflight s), o)
  | None => let o := fresh (dom (heap s)) in (mkPooling (<[o := Some req]> (heap s)) (pooled s) (inflight s), o)
  end.

Definition giveBack (o : nat) (s : pooling) : pooling :=
  mkPooling (if cleared then <[o := None]> (heap s) else heap s) (pooled s ++ [o]) (inflight s).

Definition setInflight (l : list (nat * nat)) (s : pooling) : pooling := mkPooling (heap s) (pooled s) l.

Inductive step : pooling -> pooling -> Prop :=
| step_begin s s' req choice o : borrow req choice s = (s', o) -> step s (setInflight ((req, o) :: inflight s) s')
| step_end s l req o r : inflight s = l ++ (req, o) :: r -> step s (setInflight (l ++ r) (giveBack o s))
| step_panic s l req o r : inflight s = l ++ (req, o) :: r -> step s (setInflight (l ++ r) s)
| step_drop s i : step s (mkPooling (heap s) (delete i (pooled s)) (inflight s)).

Definition empty : pooling := mkPooling ∅ [] [].
Definition reachable (s : pooling) : Prop := rtc step empty s.

(** What is in use: held by a request, or in the pool. *)
Definition used (s : pooling) : list nat := map snd (inflight s) ++ pooled s.

Record pooling_ok (s : pooling) : Prop := {
  ok_apart : NoDup (used s);
  ok_known : forall o, o ∈ used s -> is_Some (heap s !! o);
  ok_own : forall req o, (req, o) ∈ inflight s -> heap s !! o = Some (Some req);
  ok_cleared : cleared = true -> forall o, o ∈ pooled s -> heap s !! o = Some None;
}.

(** Some of what was in use, each object as it was, is still well. *)
Lemma pooling_ok_less (s s' : pooling) (lost : list nat) :
  heap s' = heap s -> lost ++ used s' ≡ₚ used s -> (forall x, x ∈ inflight s' -> x ∈ inflight s) -> (forall o, o ∈ pooled s' -> o ∈ pooled s) ->
  pooling_ok s -> pooling_ok s'.
Proof.
  intros Hh Hu Hi Hp [H1 H2 H3 H4]. split.
  - rewrite <- Hu in H1. by apply NoDup_app in H1 as (_ & _ & ?).
  - intros o Ho. rewrite Hh. apply H2. rewrite <- Hu. apply elem_of_app. by right.
  - intros req o Ho. rewrite Hh. by apply H3, Hi.
  - intros Hc o Ho. rewrite Hh. by apply H4, Hp.
Qed.

Lemma used_inflight (s : pooling) (l : list (nat * nat)) (req o : nat) (r : list (nat * nat)) :
  inflight s = l ++ (req, o) :: r -> used s ≡ₚ o :: map snd (l ++ r) ++ pooled s.
Proof. intros Hi. unfold used. rewrite Hi, !map_app. cbn. by rewrite <- Permutation_middle. Qed.

Lemma borrow_ok (s s' : pooling) (req o : nat) (choice : option nat) :
  borrow req choice s = (s', o) -> pooling_ok s -> pooling_ok (setInflight ((req, o) :: inflight s) s').
Proof.
  unfold borrow. intros Hb [H1 H2 H3 H4].
  assert (exists l, s' = mkPooling (<[o := Some req]> (heap s)) l (inflight s) /\ NoDup (o :: map snd (inflight s) ++ l) /\ forall x, x ∈ l -> x ∈ pooled s) as (l & -> & Hn & Hl).
  { destruct (match choice with Some i => _ | None => None end) as [[o' i]|] eqn:Ec.
    - injection Hb as <- <-. destruct choice as [j|]; [|done]. apply fmap_Some in Ec as (x & Hx & [= -> ->]). exists (delete j (pooled s)). split; [done|].
      split; [|intros y; apply list_elem_of_delete_inv]. unfold used in H1. pose proof (delete_Permutation _ _ _ Hx) as Hd.
      rewrite Hd in H1. rewrite <- Permutation_middle in H1. exact H1.
    - injection Hb as <- <-. exists (pooled s). split; [done|]. split; [|done]. constructor; [|exact H1].
      intros Ho%H2%elem_of_dom. by apply is_fresh in Ho. }
  apply NoDup_cons in Hn as [Hn Hnd].
  assert (forall x, x ∈ map snd (inflight s) ++ l -> o <> x) as Hne by (intros x Hx ->; done).
  split; unfold used; cbn [setInflight inflight pooled heap map snd].
  - by constructor.
  - intros x Hx. change (x ∈ o :: (map snd (inflight s) ++ l)) in Hx. apply elem_of_cons in Hx as [->|Hx]; [rewrite lookup_insert_eq; by eexists|].
    rewrite lookup_insert_ne by (by apply Hne). apply H2. unfold used. apply elem_of_app in Hx as [Hx|Hx]; apply elem_of_app; [by left|right; by apply Hl].
  - intros req' x [[= -> ->]|Hx]%elem_of_cons; [by rewrite lookup_insert_eq|]. rewrite lookup_insert_ne; [by apply H3|]. apply Hne, elem_of_app. left.
    apply list_elem_of_fmap. by exists (req', x).
  - intros Hc x Hx. rewrite lookup_insert_ne by (apply Hne, elem_of_app; by right). by apply H4, Hl.
Qed.

Lemma pooling_step_ok (s s' : pooling) : step s s' -> pooling_ok s -> pooling_ok s'.
Proof.
  intros Hs Hok. destruct Hs as [s s' req choice o E|s l req o r Hi|s l req o r Hi|s i].
  - by eapply borrow_ok.
  - pose proof (used_inflight s l req o r Hi) as Hu. destruct Hok as [H1 H2 H3 H4]. rewrite Hu in H1. pose proof H1 as Hn. apply NoDup_cons in Hn as [Hn _].
    assert (forall x, x ∈ map snd (l ++ r) ++ pooled s -> o <> x) as Hne by (intros x Hx ->; done).
    assert (forall x, x <> o -> heap (giveBack o s) !! x = heap s !! x) as Hh.
    { intros x Hx. unfold giveBack. cbn. destruct cleared; [by rewrite lookup_insert_ne|done]. }
    assert (used (setInflight (l ++ r) (giveBack o s)) ≡ₚ o :: map snd (l ++ r) ++ pooled s) as Hu'.
    { unfold used. cbn [setInflight giveBack inflight pooled]. rewrite app_assoc. symmetry. apply Permutation_cons_append. }
    split.
    + by rewrite Hu'.
    + intros x Hx. rewrite Hu' in Hx. cbn [setInflight heap]. destruct (decide (x = o)) as [->|Hx'].
      * unfold giveBack. cbn. destruct cleared; [rewrite lookup_insert_eq; by eexists|]. apply H2. rewrite Hu. by left.
      * fold (heap (giveBack o s)). rewrite Hh by done. apply H2. by rewrite Hu.
    + cbn [setInflight inflight]. intros req' x Hx. assert (x <> o) as Hx'.
      { intros ->. apply (Hne o); [|done]. apply elem_of_app. left. apply list_elem_of_fmap. by exists (req', o). }
      change (heap (giveBack o s) !! x = Some (Some req')). rewrite Hh by done. apply H3. rewrite Hi. set_solver.
    + intros Hc x Hx. cbn [setInflight giveBack pooled heap] in *. rewrite Hc. destruct (decide (x = o)) as [->|Hx']; [by rewrite lookup_insert_eq|].
      rewrite lookup_insert_ne by done. apply H4; [done|]. set_solver.
  - apply (pooling_ok_less s _ [o]); [done| |intros x Hx; cbn in Hx; rewrite Hi; set_solver|done|done]. by rewrite (used_inflight s l req o r Hi).
  - destruct (pooled s !! i) as [o|] eqn:Eo.
    + apply (pooling_ok_less s _ [o]); [done| |done|cbn; intros x; apply list_elem_of_delete_inv|done]. unfold used. cbn [inflight pooled].
      etransitivity; [exact (Permutation_middle _ _ _)|]. apply Permutation_app_head. symmetry. by apply delete_Permutation.
    + apply (pooling_ok_less s _ []); [done| |done|cbn; intros x; apply list_elem_of_delete_inv|done]. unfold used. cbn [inflight pooled].
      cbn. apply Permutation_app_head. revert i Eo. generalize (pooled s). induction l as [|y l IH]; intros [|i] E; cbn in *; [done..|]. by rewrite IH.
Qed.

Lemma pooling_reachable_ok (s : pooling) : reachable s -> pooling_ok s.
Proof.
  intros Hr. unfold reachable in Hr. apply (rtc_ind_r pooling_ok empty) in Hr; [done| |intros x y _; apply pooling_step_ok].
  split; cbn; [constructor|by intros o ?%not_elem_of_nil|by intros ?? ?%not_elem_of_nil|by intros _ o ?%not_elem_of_nil].
Qed.

End Pool.

(** *** types.go, context.go *)

(** [newContext] and [putContext], [newGzipWriter] with its [Reset] and [putGzipWriter]. *)
Definition newContext := borrow.
Definition putContext := giveBack true.
Definition newGzipWriter := borrow.
Definition putGzipWriter := giveBack false.

(** However requests are interleaved, and whichever objects the pool chooses, the object
    of a request in flight is of that request alone, be it its context or its gzip writer. *)
Theorem borrowed_is_own (cleared : bool) (s : pooling) (req o : nat) :
  reachable cleared s -> (req, o) ∈ inflight s ->
  heap s !! o = Some (Some req) /\ (forall req', (req', o) ∈ inflight s -> req' = req) /\ o ∉ pooled s.
Proof.
  intros Hr%pooling_reachable_ok Hin. destruct Hr as [H1 _ H3 _]. pose proof (H3 _ _ Hin) as Ho. split; [done|]. split.
  - intros req' Hin'. specialize (H3 _ _ Hin'). congruence.
  - unfold used in H1. apply NoDup_app in H1 as (_ & H & _). apply H. apply list_elem_of_fmap. by exists (req, o).
Qed.

(** Two requests, then a third that takes the object of the first. *)
Definition afterThree : pooling := mkPooling (<[0 := Some 3]> (<[1 := Some 2]> (<[0 := None]> (<[1 := Some 2]> (<[0 := Some 1]> ∅))))) [] [(3, 0); (2, 1)].

Lemma borrowed_is_own_witness :
  reachable true (setInflight [(3, 0); (2, 1)] afterThree) /\ heap afterThree !! 0 = Some (Some 3).
Proof.
  assert (reachable true (setInflight [(3, 0); (2, 1)] afterThree)) as Hr.
  { unfold reachable. eapply rtc_l; [eapply (step_begin true empty _ 1 None 0); reflexivity|]. eapply rtc_l; [eapply (step_begin true _ _ 2 None 1); reflexivity|].
    eapply rtc_l; [eapply (step_end true _ [(2, 1)] 1 0 []); reflexivity|]. eapply rtc_l; [eapply (step_begin true _ _ 3 (Some 0) 0); reflexivity|]. apply rtc_refl. }
  split; [exact Hr|]. exact (proj1 (borrowed_is_own true _ 3 0 Hr ltac:(by left))).
Defined.

(** A handler that keeps its context after it has returned finds it empty, or finds there
    the request of someone else. *)
Example kept_context :
  let '(s, o) := newContext 1 None empty in
  let s := putContext o s in
  let '(s', o') := newContext 2 (Some 0) s in
  heap s !! o = Some None /\ o' = o /\ heap s' !! o = Some (Some 2).
Proof. vm_compute. repeat split. Qed.

(** * The gzip writer *)

(** ** The writers beneath *)

(** gin's response writer: its header map, and what has gone to the client: the headers,
    once they are committed, and the bytes of the body. *)
Class ResponseWriter (W : Type) : Type := {
  rwHeader : W -> gmap string (list string);
  rwSetHeader : gmap string (list string) -> W -> W;
  rwWriteHeader : Z -> W -> W;
  rwWrite : string -> W -> W;
  rwFlush : W -> W;
  rwSize : W -> Z;
  wire : W -> option (gmap string (list string)) * string;
}.

Definition commit {W : Type} `{ResponseWriter W} (w : W) : option (gmap string (list string)) :=
  match fst (wire w) with Some h => Some h | None => Some (rwHeader w) end.

(** A write or a flush commits the headers; [WriteHeader] only remembers the status; the
    size is negative until something went out. *)
Class ResponseWriterLaws (W : Type) `{ResponseWriter W} : Prop := {
  rwHeader_set : forall h w, rwHeader (rwSetHeader h w) = h;
  rwHeader_status : forall c w, rwHeader (rwWriteHeader c w) = rwHeader w;
  wire_set : forall h w, wire (rwSetHeader h w) = wire w;
  wire_status : forall c w, wire (rwWriteHeader c w) = wire w;
  wire_write : forall d w, wire (rwWrite d w) = (commit w, snd (wire w) +:+ d);
  wire_flush : forall w, wire (rwFlush w) = (commit w, snd (wire w));
  rwSize_wire : forall w, (rwSize w < 0)%Z <-> fst (wire w) = None;
}.

(** [compress/flate] and [hash/crc32]: a compressor gives out bytes when it is written to,
    flushed and closed. *)
Class Flate (F : Type) : Type := {
  fNew : F;
  fWrite : string -> F -> F * string;
  fFlush : F -> F * string;
  fClose : F -> string;
  inflate : string -> option (string * string);
  crc32 : string -> Z;
}.

Inductive fop : Type := FWrite (d : string) | FFlush.

Definition fStep {F : Type} `{Flate F} (o : fop) (f : F) : F * string :=
  match o with FWrite d => fWrite d f | FFlush => fFlush f end.
Fixpoint fRun {F : Type} `{Flate F} (ops : list fop) (f : F) : F * string :=
  match ops with
  | [] => (f, EmptyString)
  | o :: ops => let '(f, out) := fStep o f in let '(f, out') := fRun ops f in (f, out +:+ out')
  end.
Fixpoint fWritten (ops : list fop) : string :=
  match ops with [] => EmptyString | FWrite d :: ops => d +:+ fWritten ops | FFlush :: ops => fWritten ops end.

(** What a compressor gave out until it was closed inflates to what it was given, and the
    end of the stream is found. *)
Class FlateLaws (F : Type) `{Flate F} : Prop :=
  inflate_run : forall ops rest, let '(f, out) := fRun ops fNew in inflate (out +:+ (fClose f +:+ rest)) = Some (fWritten ops, rest).

Section Gzip.
Context {W F : Type} {RW : ResponseWriter W} {FL : Flate F}.

(** ** [gzip.Writer] *)

Record gzipState : Type := mkGzip { wroteHeader : bool; closed : bool; compressor : F; digested : string; discards : bool }.

Definition byteOf (z : Z) : string := String (ascii_of_N (Z.to_N (z mod 256))) EmptyString.
Definition putUint32 (z : Z) : string := byteOf z +:+ (byteOf (z / 2 ^ 8) +:+ (byteOf (z / 2 ^ 16) +:+ byteOf (z / 2 ^ 24))).

(** The magic number, deflate, no flags, no time, default level, unknown system. *)
Definition gzipHeader : string :=
  byteOf 31 +:+ (byteOf 139 +:+ (byteOf 8 +:+ (byteOf 0 +:+ (putUint32 0 +:+ (byteOf 0 +:+ byteOf 255))))).
Definition gzipFooter (data : string) : string := putUint32 (crc32 data) +:+ putUint32 (Z.of_nat (String.length data)).

(** A response and the compressor over it. *)
Notation state := (W * gzipState)%type.

Definition emit (out : string) (s : state) : state :=
  let '(w, z) := s in (if discards z || String.eqb out EmptyString then w else rwWrite out w, z).
Definition setGzip (f : gzipState -> gzipState) (s : state) : state := (fst s, f (snd s)).

Definition Reset (discard : bool) (z : gzipState) : gzipState := mkGzip false false fNew EmptyString discard.

Definition gzWriteHeader (s : state) : state :=
  if wroteHeader (snd s) then s
  else emit gzipHeader (setGzip (fun z => mkGzip true (closed z) (compressor z) (digested z) (discards z)) s).
Definition gzCompress (o : fop) (s : state) : state :=
  let '(f, out) := fStep o (compressor (snd s)) in
  emit out (setGzip (fun z => mkGzip (wroteHeader z) (closed z) f (digested z +:+ fWritten [o]) (discards z)) s).
Definition gzWrite (d : string) (s : state) : state := gzCompress (FWrite d) (gzWriteHeader s).
Definition gzFlush (s : state) : state :=
  if closed (snd s) then s
  else gzCompress FFlush (if wroteHeader (snd s) then s else gzWrite EmptyString s).
Definition gzClose (s : state) : state :=
  if closed (snd s) then s
  else
    let s := setGzip (fun z => mkGzip (wroteHeader z) true (compressor z) (digested z) (discards z)) s in
    let s := if wroteHeader (snd s) then s else gzWrite EmptyString s in
    emit (gzipFooter (digested (snd s))) (emit (fClose (compressor (snd s))) s).

(** ** [gzipWriter] *)

Definition contentLength : string := "Content-Length".
Definition delLength (s : state) : state := let '(w, z) := s in (rwSetHeader (headerDel (rwHeader w) contentLength) w, z).
Definition setHeader (k v : string) (s : state) : state := let '(w, z) := s in (rwSetHeader (headerSet (rwHeader w) k v) w, z).

Definition WriteString (d : string) (s : state) : state := gzWrite d (delLength s).
Definition Write (data : string) (s : state) : state := gzWrite data (delLength s).
Definition Flush (s : state) : state := let '(w, z) := gzFlush s in (rwFlush w, z).
Definition WriteHeader (code : Z) (s : state) : state := let '(w, z) := delLength s in (rwWriteHeader code w, z).

(** The connection is the one of the writer beneath, if that can be taken over. *)
Definition noHijacker : error := EPlain "the ResponseWriter doesn't support the Hijacker interface".
Definition Hijack {Conn : Type} (hijacker : option (W -> result error Conn)) (s : state) : result error Conn :=
  match hijacker with None => Err noHijacker | Some hijack => hijack (fst s) end.

(** ** A response *)

(** What a handler does with the writer. *)
Inductive call : Type :=
| CSetHeader (k v : string) | CWriteHeader (code : Z) | CWrite (data : string) | CWriteString (data : string) | CFlush.

Definition perform (c : call) (s : state) : state :=
  match c with
  | CSetHeader k v => setHeader k v s
  | CWriteHeader code => WriteHeader code s
  | CWrite d => Write d s
  | CWriteString d => WriteString d s
  | CFlush => Flush s
  end.

(** The deferred function: a response nothing went out of stays empty. *)
Definition finish (s : state) : state :=
  gzClose (if (rwSize (fst s) <? 0)%Z then setGzip (Reset true) s else s).

(** A compressor of the pool, whatever it was used for, over the response [w]. *)
Definition respond (pooled : gzipState) (calls : list call) (w : W) : W :=
  fst (finish (fold_left (fun s c => perform c s) calls (w, Reset false pooled))).


(** ** What the client receives *)

(** One gzip stream and nothing else. *)
Definition gunzip (s : string) : option string :=
  match cutPrefix s gzipHeader with
  | None => None
  | Some s =>
      match inflate s with
      | Some (data, footer) => if String.eqb footer (gzipFooter data) then Some data else None
      | None => None
      end
  end.

Definition emits (c : call) : bool := match c with CSetHeader _ _ | CWriteHeader _ => false | CWrite _ | CWriteString _ | CFlush => true end.
Definition body (c : call) : string := match c with CWrite d | CWriteString d => d | _ => EmptyString end.
Definition written (calls : list call) : string := foldr (fun c s => body c +:+ s) EmptyString calls.

(** The headers when something goes out for the first time. *)
Fixpoint headersSent (calls : list call) (h : gmap string (list string)) : gmap string (list string) :=
  match calls with
  | [] => h
  | CSetHeader k v :: calls => headersSent calls (headerSet h k v)
  | CWriteHeader _ :: calls => headersSent calls (headerDel h contentLength)
  | (CWrite _ | CWriteString _) :: _ => headerDel h contentLength
  | CFlush :: _ => h
  end.

Context {RWL : ResponseWriterLaws W} {FLL : FlateLaws F}.

Lemma fRun_app (ops ops' : list fop) (f : F) :
  fRun (ops ++ ops') f = let '(f, out) := fRun ops f in let '(f, out') := fRun ops' f in (f, out +:+ out').
Proof.
  revert f. induction ops as [|o ops IH]; intros f; cbn [app fRun]; [by destruct (fRun ops' f)|].
  destruct (fStep o f) as [f1 out1]. rewrite IH. destruct (fRun ops f1) as [f2 out2]. destruct (fRun ops' f2) as [f3 out3]. by rewrite append_assoc.
Qed.

Lemma fWritten_app (ops ops' : list fop) : fWritten (ops ++ ops') = fWritten ops +:+ fWritten ops'.
Proof. induction ops as [|[d|] ops IH]; cbn [app fWritten]; [done| |done]. by rewrite IH, append_assoc. Qed.

Lemma wire_emit (out : string) (w : W) (z : gzipState) (h : gmap string (list string)) (sent : string) :
  discards z = false -> wire w = (Some h, sent) -> wire (fst (emit out (w, z))) = (Some h, sent +:+ out) /\ snd (emit out (w, z)) = z.
Proof.
  intros Hd Hw. unfold emit. rewrite Hd. cbn [orb]. destruct (String.eqb_spec out EmptyString) as [->|_]; (split; [|done]); cbn [fst].
  - by rewrite append_nil_r.
  - rewrite wire_write. unfold commit. by rewrite Hw.
Qed.

(** Nothing went out yet. *)
Record quiet (h : gmap string (list string)) (s : state) : Prop := {
  q_wire : wire (fst s) = (None, EmptyString);
  q_header : rwHeader (fst s) = h;
  q_gzip : snd s = Reset false (snd s);
}.

(** A stream has begun under the headers [h], and holds [data] so far. *)
Record flowing (h : gmap string (list string)) (data : string) (s : state) : Prop := {
  f_begun : wroteHeader (snd s) = true;
  f_open : closed (snd s) = false;
  f_out : discards (snd s) = false;
  f_data : digested (snd s) = data;
  f_wire : exists ops out, fRun ops fNew = (compressor (snd s), out) /\ fWritten ops = data /\ wire (fst s) = (Some h, gzipHeader +:+ out);
}.

Lemma flowing_compress (h : gmap string (list string)) (data : string) (o : fop) (s : state) :
  flowing h data s -> flowing h (data +:+ fWritten [o]) (gzCompress o s).
Proof.
  destruct s as [w [b cl f d x]]. intros [Hb Ho Hx Hd (ops & out & Hf & Hops & Hw)]. cbn [fst snd wroteHeader closed discards digested compressor] in *. subst b cl x d.
  unfold gzCompress. cbn [snd compressor]. destruct (fStep o f) as [f' out'] eqn:Es. unfold setGzip. cbn [fst snd wroteHeader closed digested discards].
  set (z := mkGzip _ _ _ _ _). destruct (wire_emit out' w z h _ eq_refl Hw) as (Hw' & Hz). constructor; rewrite ?Hz; try done.
  exists (ops ++ [o]), (out +:+ out'). rewrite fRun_app, Hf. cbn [fRun]. rewrite Es, append_nil_r, fWritten_app, Hops, Hw', append_assoc. done.
Qed.

Lemma quiet_begins (h : gmap string (list string)) (s : state) : quiet h s -> flowing h EmptyString (gzWriteHeader s).
Proof.
  destruct s as [w z]. intros [Hw Hh Hz]. cbn [fst snd] in *. unfold gzWriteHeader. rewrite Hz. cbn [snd wroteHeader Reset]. unfold setGzip. cbn [fst snd].
  constructor; [done..|]. exists [], EmptyString. split; [done|]. split; [done|]. change (wire (rwWrite gzipHeader w) = (Some h, gzipHeader +:+ EmptyString)).
  rewrite wire_write, append_nil_r. unfold commit. by rewrite Hw, Hh.
Qed.

Lemma flowing_header (h : gmap string (list string)) (data : string) (s : state) : flowing h data s -> gzWriteHeader s = s.
Proof. intros Hf. unfold gzWriteHeader. by rewrite (f_begun _ _ _ Hf). Qed.

Lemma flowing_headers (h : gmap string (list string)) (data : string) (f : W -> W) (s : state) :
  wire (f (fst s)) = wire (fst s) -> flowing h data s -> flowing h data (f (fst s), snd s).
Proof. intros Hf [? ? ? ? Hw]. constructor; cbn [fst snd]; try done. by rewrite Hf. Qed.

Lemma quiet_headers (h h' : gmap string (list string)) (f : W -> W) (s : state) :
  wire (f (fst s)) = wire (fst s) -> rwHeader (f (fst s)) = h' -> quiet h s -> quiet h' (f (fst s), snd s).
Proof. intros Hf Hh [? ? ?]. constructor; cbn [fst snd]; try done. by rewrite Hf. Qed.

Lemma flowing_write (h : gmap string (list string)) (data d : string) (s : state) : flowing h data s -> flowing h (data +:+ d) (gzWrite d s).
Proof.
  intros Hf. unfold gzWrite. rewrite (flowing_header _ _ _ Hf). pose proof (flowing_compress h data (FWrite d) s Hf) as Hc.
  cbn [fWritten] in Hc. by rewrite append_nil_r in Hc.
Qed.

Lemma quiet_write (h : gmap string (list string)) (d : string) (s : state) : quiet h s -> flowing h d (gzWrite d s).
Proof.
  intros Hq%quiet_begins. pose proof (flowing_write h EmptyString d _ Hq) as Hf. revert Hf. unfold gzWrite. by rewrite (flowing_header _ _ _ Hq).
Qed.

Lemma flowing_flush (h : gmap string (list string)) (data : string) (s : state) :
  flowing h data (gzCompress FFlush s) -> flowing h data (let '(w, z) := gzCompress FFlush s in (rwFlush w, z)).
Proof.
  destruct (gzCompress FFlush s) as [w z]. intros Hf. apply (flowing_headers h data rwFlush (w, z)); [|exact Hf].
  destruct (f_wire _ _ _ Hf) as (ops & out & _ & _ & Hw). rewrite wire_flush. unfold commit. cbn [fst] in *. by rewrite Hw.
Qed.

(** Once the stream has begun, every call goes on with it. *)
Lemma flowing_perform (h : gmap string (list string)) (data : string) (c : call) (s : state) :
  flowing h data s -> flowing h (data +:+ body c) (perform c s).
Proof.
  intros Hf. assert (flowing h data (delLength s)) as Hl.
  { destruct s as [w z]. apply (flowing_headers h data (fun w => rwSetHeader _ w) (w, z)); [apply wire_set|exact Hf]. }
  destruct c as [k v|code|d|d|]; cbn [body perform]; rewrite ?append_nil_r.
  - destruct s as [w z]. apply (flowing_headers h data (fun w => rwSetHeader _ w) (w, z)); [apply wire_set|exact Hf].
  - unfold WriteHeader. destruct (delLength s) as [w z]. apply (flowing_headers h data (rwWriteHeader code) (w, z)); [apply wire_status|exact Hl].
  - by apply flowing_write.
  - by apply flowing_write.
  - unfold Flush, gzFlush. rewrite (f_open _ _ _ Hf), (f_begun _ _ _ Hf). apply flowing_flush.
    pose proof (flowing_compress h data FFlush s Hf) as Hc. cbn [fWritten] in Hc. by rewrite append_nil_r in Hc.
Qed.

(** Before that, a call either only touches the headers, or begins the stream. *)
Lemma quiet_perform (h : gmap string (list string)) (c : call) (s : state) :
  quiet h s ->
  if emits c then flowing (headersSent [c] h) (body c) (perform c s) else quiet (headersSent [c] h) (perform c s).
Proof.
  intros Hq. assert (quiet (headerDel h contentLength) (delLength s)) as Hl.
  { destruct s as [w z]. apply (quiet_headers h _ (fun w' => rwSetHeader (headerDel (rwHeader w) contentLength) w') (w, z)); [apply wire_set| |exact Hq].
    rewrite rwHeader_set. by rewrite <- (q_header _ _ Hq). }
  destruct c as [k v|code|d|d|]; cbn [emits body perform headersSent].
  - destruct s as [w z]. apply (quiet_headers h _ (fun w' => rwSetHeader (headerSet (rwHeader w) k v) w') (w, z)); [apply wire_set| |exact Hq].
    rewrite rwHeader_set. by rewrite <- (q_header _ _ Hq).
  - unfold WriteHeader. destruct (delLength s) as [w z]. apply (quiet_headers (headerDel h contentLength) _ (rwWriteHeader code) (w, z) (wire_status code w)); [|exact Hl].
    rewrite rwHeader_status. exact (q_header _ _ Hl).
  - by apply quiet_write.
  - by apply quiet_write.
  - unfold Flush, gzFlush. assert (closed (snd s) = false) as -> by (by rewrite (q_gzip _ _ Hq)).
    assert (wroteHeader (snd s) = false) as -> by (by rewrite (q_gzip _ _ Hq)). apply flowing_flush.
    pose proof (flowing_compress _ _ FFlush _ (quiet_write h EmptyString s Hq)) as Hc. exact Hc.
Qed.

Lemma headersSent_quiet (c : call) (calls : list call) (h : gmap string (list string)) :
  emits c = false -> headersSent (c :: calls) h = headersSent calls (headersSent [c] h).
Proof. by destruct c. Qed.
Lemma headersSent_emits (c : call) (calls : list call) (h : gmap string (list string)) :
  emits c = true -> headersSent (c :: calls) h = headersSent [c] h.
Proof. by destruct c. Qed.

Lemma flowing_calls (h : gmap string (list string)) (calls : list call) (data : string) (s : state) :
  flowing h data s -> flowing h (data +:+ written calls) (fold_left (fun s c => perform c s) calls s).
Proof.
  revert data s. induction calls as [|c calls IH]; intros data s Hf; cbn [fold_left written foldr]; [by rewrite append_nil_r|].
  rewrite <- append_assoc. apply IH. by apply flowing_perform.
Qed.

Lemma quiet_calls (h : gmap string (list string)) (calls : list call) (s : state) :
  quiet h s ->
  let s' := fold_left (fun s c => perform c s) calls s in
  if existsb emits calls then flowing (headersSent calls h) (written calls) s' else quiet (headersSent calls h) s'.
Proof.
  revert h s. induction calls as [|c calls IH]; intros h s Hq; cbn [fold_left existsb]; [exact Hq|].
  pose proof (quiet_perform h c s Hq) as Hp. destruct (emits c) eqn:Ec; cbn [orb].
  - rewrite (headersSent_emits _ _ _ Ec). cbn [written foldr]. by apply flowing_calls.
  - rewrite (headersSent_quiet _ _ _ Ec). specialize (IH _ _ Hp). cbn [written foldr]. destruct c; try discriminate Ec; exact IH.
Qed.

(** ** The end of a response *)

Lemma no_length (h : gmap string (list string)) : headerGet (headerDel h contentLength) "Content-Length" = EmptyString.
Proof. unfold headerGet, headerDel. by rewrite lookup_delete_eq. Qed.

Lemma flowing_finish (h : gmap string (list string)) (data : string) (s : state) :
  flowing h data s -> exists sent, wire (fst (finish s)) = (Some h, sent) /\ gunzip sent = Some data.
Proof.
  destruct s as [w [b cl f d x]]. intros [Hb Ho Hx Hd (ops & out & Hf & Hops & Hw)].
  cbn [fst snd wroteHeader closed discards digested compressor] in *. subst b cl x d.
  unfold finish. cbn [fst]. destruct (Z.ltb_spec (rwSize w) 0) as [Hs|_]; [apply rwSize_wire in Hs; by rewrite Hw in Hs|].
  unfold gzClose. cbn [snd closed]. unfold setGzip. cbn [fst snd wroteHeader compressor digested discards].
  set (z := mkGzip _ _ _ _ _). destruct (wire_emit (fClose f) w z h _ eq_refl Hw) as (Hw' & Hz).
  destruct (emit (fClose f) (w, z)) as [w' z'] eqn:Ee. cbn [fst snd] in Hw', Hz. subst z'. cbn [snd digested].
  destruct (wire_emit (gzipFooter data) w' z h _ eq_refl Hw') as (Hw2 & _). eexists. split; [exact Hw2|].
  unfold gunzip. rewrite !append_assoc, cutPrefix_app. pose proof (inflate_run ops (gzipFooter data)) as Hi. rewrite Hf in Hi.
  by rewrite Hi, Hops, String.eqb_refl.
Qed.

Lemma quiet_finish (h : gmap string (list string)) (s : state) : quiet h s -> fst (finish s) = fst s.
Proof.
  destruct s as [w z]. intros [Hw _ _]. unfold finish. cbn [fst] in *.
  destruct (Z.ltb_spec (rwSize w) 0) as [_|Hs].
  - unfold setGzip, gzClose, Reset. cbn [fst snd closed wroteHeader]. unfold gzWrite, gzWriteHeader, gzCompress, setGzip. cbn [fst snd wroteHeader emit discards orb].
    by destruct (fStep _ _).
  - exfalso. assert (fst (wire w) = None) as Hn by (by rewrite Hw). apply rwSize_wire in Hn. lia.
Qed.

(** C31. A response through the gzip writer, with a compressor of the pool in whatever state it
    was given back: a handler that wrote and flushed nothing leaves it empty, not even a
    gzip header goes out; any other gets exactly one complete gzip stream of all it wrote,
    in order, under the headers as they were when the first byte went out.  These announce
    no length, which would be that of the uncompressed body, unless the handler flushed
    before it wrote anything. *)
Theorem gzip_response (pooled : gzipState) (calls : list call) (w : W) :
  wire w = (None, EmptyString) ->
  let w' := respond pooled calls w in
  if existsb emits calls
  then (exists sent, wire w' = (Some (headersSent calls (rwHeader w)), sent) /\ gunzip sent = Some (written calls))
       /\ ((forall pre post, calls = pre ++ CFlush :: post -> existsb emits pre = true) ->
           headerGet (headersSent calls (rwHeader w)) "Content-Length" = EmptyString)
  else wire w' = (None, EmptyString) /\ rwHeader w' = headersSent calls (rwHeader w).
Proof.
  intros Hw. assert (quiet (rwHeader w) (w, Reset false pooled)) as Hq by done. pose proof (quiet_calls _ calls _ Hq) as Hc.
  unfold respond. cbv zeta in Hc |- *. destruct (existsb emits calls) eqn:Ee.
  - split; [exact (flowing_finish _ _ _ Hc)|]. clear Hc Hq Hw. generalize (rwHeader w). revert Ee.
    induction calls as [|c calls IH]; intros Ee h Hfl; [done|].
    destruct (emits c) eqn:Ec.
    + destruct c; try discriminate Ec; cbn [headersSent]; try apply no_length. specialize (Hfl [] calls eq_refl). discriminate Hfl.
    + cbn [existsb] in Ee. rewrite Ec in Ee. rewrite (headersSent_quiet _ _ _ Ec). apply IH; [exact Ee|]. intros pre post Hpost.
      specialize (Hfl (c :: pre) post ltac:(by rewrite Hpost)). cbn [existsb] in Hfl. by rewrite Ec in Hfl.
  - rewrite (quiet_finish _ _ Hc). split; [apply (q_wire _ _ Hc)|apply (q_header _ _ Hc)].
Qed.
End Gzip.
Arguments gzipState F : clear implicits.

(** ** A concrete response *)

Record demoWriter : Type := mkWriter { dwHeader : gmap string (list string); dwWire : option (gmap string (list string)) * string }.

Definition demoCommit (w : demoWriter) : option (gmap string (list string)) :=
  match fst (dwWire w) with Some h => Some h | None => Some (dwHeader w) end.

#[export] Instance demoRW : ResponseWriter demoWriter := {|
  rwHeader := dwHeader;
  rwSetHeader := fun h w => mkWriter h (dwWire w);
  rwWriteHeader := fun _ w => w;
  rwWrite := fun d w => mkWriter (dwHeader w) (demoCommit w, snd (dwWire w) +:+ d);
  rwFlush := fun w => mkWriter (dwHeader w) (demoCommit w, snd (dwWire w));
  rwSize := fun w => match fst (dwWire w) with None => (-1)%Z | Some _ => Z.of_nat (String.length (snd (dwWire w))) end;
  wire := dwWire;
|}.

#[export] Instance demoRW_laws : ResponseWriterLaws demoWriter.
Proof. split; try done. intros w. cbn. destruct (fst (dwWire w)); split; intros; (lia || done). Qed.

(** A compressor that keeps what it is given and writes it out, unary length first, when it
    is closed. *)
Fixpoint ones (n : nat) : string := match n with O => "0" | S n => String "1" (ones n) end.
Fixpoint readOnes (s : string) : option (nat * string) :=
  match s with
  | String "1" s => '(n, s) ← readOnes s; Some (S n, s)
  | String "0" s => Some (O, s)
  | _ => None
  end.
Fixpoint takeString (n : nat) (s : string) : option (string * string) :=
  match n, s with
  | O, _ => Some (EmptyString, s)
  | S n, String a s => '(d, r) ← takeString n s; Some (String a d, r)
  | S _, EmptyString => None
  end.

#[export] Instance demoFlate : Flate string := {|
  fNew := EmptyString;
  fWrite := fun d f => (f +:+ d, EmptyString);
  fFlush := fun f => (f, EmptyString);
  fClose := fun f => ones (String.length f) +:+ f;
  inflate := fun s => '(n, s) ← readOnes s; takeString n s;
  crc32 := fun s => Z.of_nat (String.length s);
|}.

Lemma readOnes_ones (n : nat) (s : string) : readOnes (ones n +:+ s) = Some (n, s).
Proof. induction n as [|n IH]; [done|]. cbn. by rewrite IH. Qed.
Lemma takeString_app (d s : string) : takeString (String.length d) (d +:+ s) = Some (d, s).
Proof. induction d as [|a d IH]; [done|]. cbn. by rewrite IH. Qed.

#[export] Instance demoFlate_laws : FlateLaws string.
Proof.
  intros ops rest. assert (forall f, fRun ops f = (f +:+ fWritten ops, EmptyString)) as Hrun.
  { induction ops as [|[d|] ops IH]; intros f; cbn [fRun fStep fWrite fFlush fWritten demoFlate]; [by rewrite append_nil_r|..];
      rewrite IH; [by rewrite append_assoc|done]. }
  rewrite Hrun. cbn [fNew fClose inflate demoFlate]. cbn [String.append]. rewrite append_assoc, readOnes_ones. cbn. apply takeString_app.
Qed.

(** What [http.ServeContent] does with a page; the length that was set is withdrawn. *)
Definition demoCalls : list call := [CSetHeader "Content-Length" "5"; CWriteHeader 200; CWrite "he"; CWriteString "llo"; CFlush].
Definition demoFresh : demoWriter := mkWriter {["Content-Encoding" := ["gzip"]]} (None, EmptyString).

Lemma gzip_response_witness :
  exists sent, wire (respond (mkGzip true true "old" "old" true) demoCalls demoFresh) = (Some {["Content-Encoding" := ["gzip"]]}, sent)
    /\ gunzip sent = Some "hello".
Proof.
  destruct (gzip_response (W := demoWriter) (RW := demoRW) (mkGzip true true "old" "old" true) demoCalls demoFresh eq_refl) as [(sent & Hw & Hg) _].
  exists sent. split; [|exact Hg]. rewrite Hw. reflexivity.
Defined.

(** A flush before the first write lets the length of the uncompressed body out. *)
Example length_announced :
  fst (wire (respond (mkGzip true true "old" "old" true) [CSetHeader "Content-Length" "5"; CFlush; CWrite "hello"] demoFresh))
  = Some {["Content-Encoding" := ["gzip"]; "Content-Length" := ["5"]]}.
Proof. by vm_compute. Qed.
