(* ===== verification/HttpServer.v ===== *)
(** [transport/http/server.go], [types.go]: the interceptors every request passes: the
    two recoveries, the request interceptor with its metadata, its middlewares and its
    one answer to an error. *)

From Stdlib Require Import ZArith Lia String Ascii List Bool.
From stdpp Require Import base tactics list gmap strings pretty.
From S2P Require Import Prelude GoStrings Errs Metadata Middleware HttpCore.

Local Open Scope string_scope.
Local Open Scope list_scope.

Definition Protocol : string := "http".

Section Server.

Context {Claims D Env : Type} {H : GinHost Claims D Env}.

Notation State := (HttpCore.State Claims Env).
Notation Gin := (HttpCore.Gin Claims Env).

(** ** Metadata over HTTP headers *)

Definition httpMetadataReader (g : Gin) (key : string) : string := headerGet (gReqHeader g) key.
Definition httpMetadataWriter (g : Gin) (key value : string) : Gin := setRespHeader (headerSet (gRespHeader g) key value) g.

(** ** What the interceptors are configured with *)

(** [telemetry.Tracer] and [telemetry.MetricsRecorder], as far as they change the rest
    of the world; the logger; the clock and the random ids. *)
Record Tracer : Type := mkTracer {
  spanStart : string -> Env -> Env;
  spanSetError : error -> Env -> Env;
  spanEnd : Env -> Env;
}.
Record Recorder : Type := mkRecorder {
  RecordRequestDuration : string -> string -> string -> Z -> Env -> Env;
  RecordRequestTotal : string -> string -> string -> Env -> Env;
}.

Variable tracer : option Tracer.
Variable metrics : option Recorder.
Variable Errorf : string -> Env -> Env.
Variable Now : Env -> Z.
Variable newUUID : Env -> string * Env.
Variable middlewares : list (Middleware (Claims := Claims) (World := Gin)).

Definition env (s : State) : Env := gEnv (world s).
Definition onWorldEnv (f : Env -> Env) (s : State) : State := onGin (onEnv f) s.

(** ** Errors as envelopes *)

Definition abortWithEnvelope (status code : Z) (message : string) (s : State) : State :=
  onGin (fun g => halt (setWriter (fst (Response.Write Marshal connWrite (gWriter g) status
                                          (Some (Response.New code message None)))) g)) s.

Definition recoveryInterceptor : HandlerFunc (Claims := Claims) (Env := Env) :=
  fun next s =>
    match next s with
    | (s, Returns) => (s, Returns)
    | (s, Panics) =>
        let s := onWorldEnv (Errorf "http handler panic") s in
        if negb (Written (writer s)) then (abortWithEnvelope 500 CodeInternal "internal server error" s, Returns)
        else (onGin halt s, Returns)
    end.

(** The status, code and message an error is answered with, and whether it is logged. *)
Definition errorReply (err : error) : Z * Z * string * bool :=
  if IsAbort err then
    match As err with
    | Some ae => (HTTPStatus ae, Code ae, Message ae, false)
    | None => (200, CodeOK, EmptyString, false)%Z
    end
  else
    match As err with
    | Some se => (HTTPStatus se, Code se, Message se, false)
    | None => (500, CodeUnavailable, "internal server error", true)%Z
    end.

(** The tail of the request interceptor for an error. *)
Definition answerError (err : error) (s : State) : State :=
  if negb (Written (writer s)) then
    let '(status, code, message, logged) := errorReply err in
    let s := if logged : bool then onWorldEnv (Errorf ("unhandled http handler error: " +:+ errText err)) s else s in
    abortWithEnvelope status code message s
  else onWorldEnv (Errorf ("response already written before error response: " +:+ errText err)) s.

(** ** The request interceptor *)

Definition mdSetAt (l : loc) (k v : string) (s : State) : State :=
  update s l (mdSet (world s) (deref s l) k v).

(** The metadata of the request, as the middlewares will read it. *)
Definition prepare (ctx : GoContext Claims) (s : State) : State * GoContext Claims :=
  let '(s, l) := FromContext s (ctxMeta ctx) in
  let s := onGin (fun g => setReqHeader (headerSet (gReqHeader g) RequestClientIP (ClientIP g)) g) s in
  let s := update s l (world s, setTeeReader (deref s l) httpMetadataReader) in
  let s := update s l (world s, setTeeWriter (deref s l) httpMetadataWriter) in
  let s := if negb (mdHas (world s) (deref s l) RequestID) then
             let '(id, e) := newUUID (env s) in
             mdSetAt l RequestID id (onWorldEnv (fun _ => e) s)
           else s in
  let s := mdSetAt l RequestProtocol Protocol s in
  let route := gFullPath (world s) in
  let requestPath := if String.eqb route EmptyString then gPath (world s) else route in
  let s := mdSetAt l RequestPath requestPath s in
  let s := mdSetAt l RequestRoute route s in
  let s := mdSetAt l RequestMethod (gMethod (world s)) s in
  (s, mkCtx (NewContext l) (ctxClaims ctx)).

(** The pending handlers as the innermost handler: the recovery interceptor follows, so
    that they return ([next_returns]). *)
Definition nextHandler (next : State -> State * outcome) : Handler (Claims := Claims) (World := Gin) :=
  fun ctx s =>
    let '(s, _) := next (onGin (setCtx ctx) s) in
    (s, last (gErrors (world s))).

(** The start of the span; extracting it from the metadata may make an object. *)
Definition startSpan (ctx : GoContext Claims) (s : State) : State :=
  match tracer with
  | Some t => let '(s, _) := FromContext s (ctxMeta ctx) in
              onWorldEnv (spanStart t (gMethod (world s) +:+ " " +:+ gPath (world s))) s
  | None => s
  end.

Definition spanFailed (e : error) (s : State) : State :=
  match tracer with Some t => onWorldEnv (spanSetError t e) s | None => s end.

(** After the answer: the metrics, then the deferred end of the span. *)
Definition finish (start : Z) (status : string) (s : State) : State :=
  let s := match metrics with
           | Some m =>
               let d := (Now (env s) - start)%Z in
               let path := if String.eqb (gFullPath (world s)) EmptyString then gPath (world s) else gFullPath (world s) in
               onWorldEnv (RecordRequestTotal m Protocol path status)
                 (onWorldEnv (RecordRequestDuration m Protocol path status d) s)
           | None => s
           end in
  match tracer with Some t => onWorldEnv (spanEnd t) s | None => s end.

Definition requestInterceptor : HandlerFunc (Claims := Claims) (Env := Env) :=
  fun next s =>
    let start := Now (env s) in
    let ctx := gCtx (world s) in
    let s := startSpan ctx s in
    let handler := Chain middlewares (nextHandler next) in
    let '(s, ctx) := prepare ctx s in
    let '(s, err) := handler ctx s in
    let status := pretty (Status (writer s)) in
    let '(s, status) :=
      match err with
      | None => (s, status)
      | Some e => if IsAbort e then (answerError e s, "abort") else (answerError e (spanFailed e s), "error")
      end in
    (finish start status s, Returns).

(** The handlers of one request, in the order [New] installs them; [cors] is empty or
    the CORS interceptor, [route] the handler the engine found. *)
Definition requestHandlers (cors : list HandlerFunc) (route : HandlerFunc) : list HandlerFunc :=
  cors ++ [recoveryInterceptor; requestInterceptor; recoveryInterceptor; route].

(** ** Lemmas *)

Context {L : GinLaws H}.

Lemma recovery_returns (next : State -> State * outcome) (s : State) : snd (recoveryInterceptor next s) = Returns.
Proof. unfold recoveryInterceptor. destruct (next s) as [s' []]; [done|]. by destruct (negb _). Qed.

Lemma recovery_halts (hs : list HandlerFunc) (s : State) : halted (fst (recoveryInterceptor (serve hs) s)) = true.
Proof.
  unfold recoveryInterceptor. destruct (serve hs s) as [s' []] eqn:E; [by apply serve_halts in E|]. by destruct (negb _).
Qed.

(** What is pending behind a recovery runs to its end and panics never leave it. *)
Lemma next_returns (hs : list HandlerFunc) (s : State) :
  serve (recoveryInterceptor :: hs) s = (if halted s then s else fst (recoveryInterceptor (serve hs) s), Returns).
Proof.
  rewrite serve_cons. destruct (halted s) eqn:Eh; [done|].
  pose proof (recovery_returns (serve hs) s) as Hr. pose proof (recovery_halts hs s) as Hh.
  destruct (recoveryInterceptor (serve hs) s) as [s' o]. cbn [fst snd] in *. subst o. by rewrite serve_halted.
Qed.

Lemma requestInterceptor_returns (next : State -> State * outcome) (s : State) : snd (requestInterceptor next s) = Returns.
Proof. unfold requestInterceptor. destruct (prepare _ _) as [s1 c1]. destruct (Chain _ _ _ _) as [s2 []]; [by destruct (IsAbort _)|done]. Qed.

(** A request to the engine: the interceptor around what is pending, then what a
    middleware that did not call next has left pending. *)
Lemma serve_request (route : HandlerFunc) (s : State) :
  halted s = false ->
  serve (requestHandlers [] route) s
  = serve [recoveryInterceptor; route] (fst (requestInterceptor (serve [recoveryInterceptor; route]) s)).
Proof.
  intros Hs. unfold requestHandlers. cbn [app]. rewrite next_returns, Hs, next_returns. unfold recoveryInterceptor at 1.
  rewrite serve_cons, Hs. pose proof (requestInterceptor_returns (serve [recoveryInterceptor; route]) s) as Hr.
  destruct (requestInterceptor _ s) as [s' o]. cbn [fst snd] in *. subst o. rewrite next_returns. done.
Qed.

(** The steps around the answer change neither the response nor what is pending. *)
Definition same_response (s s' : State) : Prop := writer s' = writer s /\ halted s' = halted s.
Lemma same_response_trans (s1 s2 s3 : State) : same_response s1 s2 -> same_response s2 s3 -> same_response s1 s3.
Proof. intros [? ?] [? ?]. split; congruence. Qed.

Lemma finish_same (start : Z) (status : string) (s : State) : same_response s (finish start status s).
Proof. unfold finish. by destruct metrics, tracer. Qed.
Lemma spanFailed_same (e : error) (s : State) : same_response s (spanFailed e s).
Proof. unfold spanFailed. by destruct tracer. Qed.

(** What [w] is answered with when the handlers fail with [e]. *)
Definition answered (e : error) (w : Response.ResponseWriter) : Response.ResponseWriter :=
  if Written w then w
  else let '(status, code, message, _) := errorReply e in
       fst (Response.Write Marshal connWrite w status (Some (Response.New code message None))).

Lemma answerError_spec (e : error) (s : State) :
  writer (answerError e s) = answered e (writer s)
  /\ halted (answerError e s) = (if Written (writer s) then halted s else true).
Proof.
  unfold answerError, answered. destruct (Written (writer s)) eqn:Ew; cbn [negb]; [done|].
  destruct (errorReply e) as [[[status code] message] []]; done.
Qed.

(** The interceptor around a chain that has returned. *)
Lemma requestInterceptor_spec (next : State -> State * outcome) (s s0 s1 : State) ctx (r : option error) :
  prepare (gCtx (world s)) (startSpan (gCtx (world s)) s) = (s0, ctx) ->
  Chain middlewares (nextHandler next) ctx s0 = (s1, r) ->
  let s' := fst (requestInterceptor next s) in
  match r with
  | None => same_response s1 s'
  | Some e => writer s' = answered e (writer s1) /\ halted s' = (if Written (writer s1) then halted s1 else true)
  end.
Proof.
  intros Hp Hc. unfold requestInterceptor. rewrite Hp, Hc. destruct r as [e|]; [|apply finish_same].
  assert (exists st status sf, (if IsAbort e then (answerError e s1, "abort") else (answerError e (spanFailed e s1), "error"))
            = (answerError e sf, status) /\ same_response s1 sf /\ st = status) as (st & status & sf & -> & [Hw Hh] & _).
  { destruct (IsAbort e); do 3 eexists; (split; [reflexivity|]); split; try reflexivity; [done|apply spanFailed_same]. }
  cbn [fst]. destruct (finish_same (Now (env s)) status (answerError e sf)) as [-> ->].
  destruct (answerError_spec e sf) as [-> ->]. by rewrite Hw, Hh.
Qed.

(** ** The response of a request *)

(** The response after a handler: what it wrote, or one envelope for its failure. *)
Definition responseOf (w : Response.ResponseWriter) (errors : list error) (h : handled) : Response.ResponseWriter :=
  match h with
  | Handled err => match last (errors ++ option_list err) with
                   | Some e => answered e w
                   | None => w
                   end
  | Panicked => if Written w then w
                else fst (Response.Write Marshal connWrite w 500 (Some (Response.New CodeInternal "internal server error" None)))
  end.

Lemma next_register (h : HandleFunc) (ctx : GoContext Claims) (s s2 : State) (r : handled) :
  halted s = false -> h (onGin (setCtx ctx) s) = (s2, r) ->
  let '(s', err) := nextHandler (serve [recoveryInterceptor; register h]) ctx s in
  halted s' = true
  /\ match r with
     | Handled e => writer s' = writer s2 /\ err = last (gErrors (world s2) ++ option_list e)
     | Panicked => writer s' = responseOf (writer s2) [] Panicked /\ Written (writer s') = true
     end.
Proof.
  intros Hs Hh. unfold nextHandler. rewrite next_returns. change (halted (onGin (setCtx ctx) s)) with (halted s). rewrite Hs.
  pose proof (recovery_halts [register h] (onGin (setCtx ctx) s)) as Hhalt. revert Hhalt.
  unfold recoveryInterceptor. rewrite serve_cons. change (halted (onGin (setCtx ctx) s)) with (halted s). rewrite Hs.
  unfold register. rewrite Hh. destruct r as [[e|]|].
  - rewrite serve_nil. cbn [fst]. intros Hhalt. split; [exact Hhalt|]. split; [reflexivity|]. reflexivity.
  - rewrite serve_nil. cbn [fst]. intros Hhalt. split; [exact Hhalt|]. split; [reflexivity|]. cbn. by rewrite app_nil_r.
  - unfold responseOf. change (writer (onWorldEnv (Errorf "http handler panic") s2)) with (writer s2).
    destruct (Written (writer s2)) eqn:Ew; cbn [negb fst]; intros Hhalt; (split; [exact Hhalt|]); split; try reflexivity; [exact Ew|].
    apply Write_Written.
Qed.

(** A request that the middlewares hand on. *)
Lemma handled_request (h : HandleFunc) (s s0 s1 sIn s2 : State) (ctx ctx1 : GoContext Claims) (r : option error) (hr : handled) :
  halted s = false ->
  prepare (gCtx (world s)) (startSpan (gCtx (world s)) s) = (s0, ctx) ->
  (* the middlewares hand the request on, and its outcome back *)
  Chain middlewares (nextHandler (serve [recoveryInterceptor; register h])) ctx s0 = (s1, r) ->
  nextHandler (serve [recoveryInterceptor; register h]) ctx1 sIn = (s1, r) ->
  halted sIn = false ->
  h (onGin (setCtx ctx1) sIn) = (s2, hr) ->
  let '(s', o) := serve (requestHandlers [] (register h)) s in
  o = Returns /\ halted s' = true
  /\ writer s' = responseOf (writer s2) (gErrors (world s2)) hr.
Proof.
  intros Hs Hp Hc Hn Hin Hh. rewrite serve_request by done.
  pose proof (next_register h ctx1 sIn s2 hr Hin Hh) as Hnext. rewrite Hn in Hnext. destruct Hnext as [Hhalt Hw].
  pose proof (requestInterceptor_spec _ s s0 s1 ctx r Hp Hc) as Hspec. cbv zeta in Hspec.
  set (s' := fst (requestInterceptor _ s)) in *. rewrite next_returns.
  assert (halted s' = true /\ writer s' = responseOf (writer s2) (gErrors (world s2)) hr) as [Hh' Hw'].
  { destruct hr as [e|].
    - destruct Hw as [Hw ->]. unfold responseOf. destruct (last _) as [e'|].
      + destruct Hspec as [-> ->]. rewrite Hw, Hhalt. by destruct (Written (writer s2)).
      + destruct Hspec as [-> ->]. done.
    - destruct Hw as [Hw Hwr]. destruct r as [e|].
      + destruct Hspec as [-> ->]. unfold answered. rewrite Hwr, Hhalt. done.
      + destruct Hspec as [-> ->]. done. }
  rewrite Hh'. done.
Qed.

(** C18. The answer to a request that the middlewares let through, for every handler: the
    server never lets a panic out, leaves nothing pending, and the response is exactly
    what the handler wrote, followed by one error envelope if and only if the handler
    failed (or panicked) with nothing written; the envelope carries the status, code
    and message of the application error found in the failure, and for any other
    failure a fixed text that does not depend on it. *)
Theorem request_response (h : HandleFunc) (s s0 s1 sIn s2 : State) (ctx ctx1 : GoContext Claims) (r : option error) (hr : handled) :
  halted s = false ->
  prepare (gCtx (world s)) (startSpan (gCtx (world s)) s) = (s0, ctx) ->
  (* the middlewares hand the request on, and its outcome back *)
  Chain middlewares (nextHandler (serve [recoveryInterceptor; register h])) ctx s0 = (s1, r) ->
  nextHandler (serve [recoveryInterceptor; register h]) ctx1 sIn = (s1, r) ->
  halted sIn = false ->
  h (onGin (setCtx ctx1) sIn) = (s2, hr) ->
  let '(s', o) := serve (requestHandlers [] (register h)) s in
  o = Returns /\ halted s' = true
  /\ writer s' = responseOf (writer s2) (gErrors (world s2)) hr
  /\ forall e, IsAbort e = false -> As e = None ->
       errorReply e = (500%Z, CodeUnavailable, "internal server error", true).
Proof.
  intros Hs Hp Hc Hn Hin Hh. pose proof (handled_request h s s0 s1 sIn s2 ctx ctx1 r hr Hs Hp Hc Hn Hin Hh) as Hr.
  destruct (serve _ s) as [s' o]. destruct Hr as (Ho & Hhalt & Hw). split; [done|]. split; [done|]. split; [done|].
  intros e Ha He. unfold errorReply. by rewrite Ha, He.
Qed.

(** A request the middlewares refuse reaches no handler: when they end with an error
    without looking at what comes next, the whole outcome is the same for every route
    the engine could have found, and the response is the one envelope of the error. *)
Lemma refused_request (s s0 s1 : State) (ctx : GoContext Claims) (e : error) :
  halted s = false ->
  prepare (gCtx (world s)) (startSpan (gCtx (world s)) s) = (s0, ctx) ->
  (forall next, Chain middlewares next ctx s0 = (s1, Some e)) ->
  Written (writer s1) = false ->
  exists s', (forall route, serve (requestHandlers [] route) s = (s', Returns))
    /\ writer s' = let '(status, code, message, _) := errorReply e in
                   fst (Response.Write Marshal connWrite (writer s1) status (Some (Response.New code message None))).
Proof.
  intros Hs Hp Hc Hw.
  exists (fst (requestInterceptor (fun s => (s, Returns)) s)).
  assert (forall next, fst (requestInterceptor next s) = fst (requestInterceptor (fun s => (s, Returns)) s)) as Hsame.
  { intros next. unfold requestInterceptor. by rewrite Hp, !Hc. }
  pose proof (requestInterceptor_spec (fun s => (s, Returns)) s s0 s1 ctx (Some e) Hp (Hc _)) as [Hwr Hh]. rewrite Hw in Hh.
  split.
  - intros route. rewrite serve_request by done. rewrite Hsame. by rewrite next_returns, Hh.
  - rewrite Hwr. unfold answered. by rewrite Hw.
Qed.

(** A middleware that ends a request with neither an error nor a response stops nothing:
    the pending handlers run after it, on a context without the request's metadata, and
    their failure is no longer answered. *)
Lemma swallowed_request_still_runs (h : HandleFunc) (s s0 s1 s2 : State) (ctx : GoContext Claims) (e : error) :
  halted s = false ->
  prepare (gCtx (world s)) (startSpan (gCtx (world s)) s) = (s0, ctx) ->
  (forall next, Chain middlewares next ctx s0 = (s1, None)) -> halted s1 = false ->
  (forall s, exists s', h s = (s', Handled (Some e)) /\ writer s' = writer s) ->
  let '(s', _) := serve (requestHandlers [] (register h)) s in
  writer s' = writer s1 /\ last (gErrors (world s')) = Some e.
Proof.
  intros Hs Hp Hc Hh1 Hh. rewrite serve_request by done.
  pose proof (requestInterceptor_spec (serve [recoveryInterceptor; register h]) s s0 s1 ctx None Hp (Hc _)) as [Hwr Hhalt].
  set (s' := fst (requestInterceptor _ s)) in *. rewrite Hh1 in Hhalt. rewrite next_returns, Hhalt.
  unfold recoveryInterceptor. rewrite serve_cons, Hhalt. unfold register. destruct (Hh s') as (s3 & -> & Hw3).
  rewrite serve_nil. cbn [fst]. split; [|cbn; by rewrite last_snoc]. 
  change (writer (onGin halt (onGin (addError e) s3))) with (writer s3). congruence.
Qed.

(** ** The metadata of a request *)

(** The object at [l] reads the headers of the request and writes those of the response. *)
Definition teed (s : State) (l : loc) : Prop :=
  teeReader (deref s l) = Some httpMetadataReader /\ teeWriter (deref s l) = Some httpMetadataWriter.

Definition view (s : State) (l : loc) (k : string) : string * bool := mdGet (world s) (deref s l) k.

Lemma view_mdSetAt (s : State) (l : loc) (k v k' : string) :
  teed s l ->
  view (mdSetAt l k v s) l k' = if decide (canonicalMetadataKey k = canonicalMetadataKey k') then (v, true) else view s l k'.
Proof.
  intros [Hr Hw]. unfold view, mdSetAt. rewrite deref_update, mdGet_mdSet. case_decide; [done|].
  unfold mdGet. rewrite Hr. destruct (variables _ !! _); [done|]. rewrite world_update. unfold mdSet, tee. rewrite Hw. reflexivity.
Qed.

Lemma teed_mdSetAt (s : State) (l : loc) (k v : string) : teed s l -> teed (mdSetAt l k v s) l.
Proof. unfold teed, mdSetAt. rewrite deref_update. done. Qed.

(** What is left alone by a write of metadata: everything but the response's headers. *)
Lemma world_mdSetAt (s : State) (l : loc) (k v : string) :
  teed s l -> exists h, world (mdSetAt l k v s) = setRespHeader h (world s).
Proof. intros [_ Hw]. unfold mdSetAt, mdSet, tee. rewrite Hw. eexists. reflexivity. Qed.

Lemma view_onWorldEnv (s : State) (l : loc) (k : string) (f : Env -> Env) : teed s l -> view (onWorldEnv f s) l k = view s l k.
Proof.
  intros [Hr _]. unfold view, mdGet. change (deref (onWorldEnv f s) l) with (deref s l). by rewrite Hr.
Qed.

Lemma mdHas_view (s : State) (l : loc) (k : string) : mdHas (world s) (deref s l) k = snd (view s l k).
Proof. reflexivity. Qed.

(** The object after the two tees, on a request without metadata. *)
Lemma view_headers (s : State) (l : loc) (k : string) :
  deref s l = mkMetadata (Some httpMetadataReader) (Some httpMetadataWriter) ∅ ->
  view s l k = let v := headerGet (gReqHeader (world s)) (canonicalMetadataKey k) in
               if String.eqb v EmptyString then (v, false) else (v, true).
Proof. intros Hd. unfold view, mdGet. by rewrite Hd. Qed.

(** What the interceptor leaves behind a request without metadata. *)
Definition preparedValue (g : Gin) (k : string) : string * bool :=
  let header k := headerGet (headerSet (gReqHeader g) RequestClientIP (ClientIP g)) (canonicalMetadataKey k) in
  let route := gFullPath g in
  if decide (canonicalMetadataKey RequestMethod = canonicalMetadataKey k) then (gMethod g, true)
  else if decide (canonicalMetadataKey RequestRoute = canonicalMetadataKey k) then (route, true)
  else if decide (canonicalMetadataKey RequestPath = canonicalMetadataKey k) then (if String.eqb route EmptyString then gPath g else route, true)
  else if decide (canonicalMetadataKey RequestProtocol = canonicalMetadataKey k) then (Protocol, true)
  else if decide (canonicalMetadataKey RequestID = canonicalMetadataKey k) then
         (if String.eqb (header RequestID) EmptyString then fst (newUUID (gEnv g)) else header RequestID, true)
  else if String.eqb (header k) EmptyString then (EmptyString, false) else (header k, true).

Lemma prepare_Get (ctx : GoContext Claims) (s : State) :
  ctxMeta ctx = None ->
  let '(s', ctx') := prepare ctx s in
  ctxClaims ctx' = ctxClaims ctx /\ same_response s s' /\ (forall k, Get s' (ctxMeta ctx') k = preparedValue (world s) k)
  /\ (forall f k, Get (onWorldEnv f s') (ctxMeta ctx') k = Get s' (ctxMeta ctx') k)
  /\ (env s' = env s \/ env s' = snd (newUUID (env s))).
Proof.
  intros Hc. unfold prepare. rewrite Hc. unfold FromContext.
  destruct (alloc s newMetadata) as [s1 l] eqn:Ea.
  assert (world s1 = world s /\ deref s1 l = newMetadata) as [Hw1 Hd1].
  { unfold alloc in Ea. injection Ea as <- <-. split; [done|]. unfold deref. cbn [objects]. by rewrite lookup_insert_eq. }
  set (s2 := onGin _ s1). set (s3 := update s2 l _). set (s4 := update s3 l _).
  assert (deref s4 l = mkMetadata (Some httpMetadataReader) (Some httpMetadataWriter) ∅) as Hd4.
  { unfold s4. rewrite deref_update. unfold s3. rewrite deref_update. cbn [snd]. change (deref s2 l) with (deref s1 l). by rewrite Hd1. }
  assert (world s4 = setReqHeader (headerSet (gReqHeader (world s)) RequestClientIP (ClientIP (world s))) (world s)) as Hw4.
  { change (world s4) with (setReqHeader (headerSet (gReqHeader (world s1)) RequestClientIP (ClientIP (world s1))) (world s1)).
    by rewrite Hw1. }
  assert (teed s4 l) as Ht4 by (unfold teed; by rewrite Hd4).
  assert (forall k, view s4 l k = let v := headerGet (headerSet (gReqHeader (world s)) RequestClientIP (ClientIP (world s))) (canonicalMetadataKey k) in
                                  if String.eqb v EmptyString then (v, false) else (v, true)) as Hv4.
  { intros k. rewrite view_headers by done. by rewrite Hw4. }
  clearbody s4. clear s2 s3 Hd4. cbv zeta in Hv4.
  set (hdr := headerSet (gReqHeader (world s)) RequestClientIP (ClientIP (world s))) in *.
  set (id := if String.eqb (headerGet hdr (canonicalMetadataKey RequestID)) EmptyString then fst (newUUID (gEnv (world s)))
             else headerGet hdr (canonicalMetadataKey RequestID)).
  set (s5 := if negb _ then _ else _).
  assert (teed s5 l /\ (exists h e, world s5 = setRespHeader h (onEnv (fun _ => e) (world s4)) /\ (e = env s \/ e = snd (newUUID (env s))))
          /\ forall k, view s5 l k = if decide (canonicalMetadataKey RequestID = canonicalMetadataKey k) then (id, true) else view s4 l k)
    as (Ht5 & (h5 & e5 & Hw5 & He5) & Hv5).
  { unfold s5, id. rewrite mdHas_view, Hv4. assert (env s4 = gEnv (world s)) as Henv by (unfold env; by rewrite Hw4). rewrite Henv.
    destruct (String.eqb_spec (headerGet hdr (canonicalMetadataKey RequestID)) EmptyString) as [E|E]; cbn [negb snd].
    - destruct (newUUID _) as [u e']. assert (teed (onWorldEnv (fun _ => e') s4) l) as Ht by done. split; [by apply teed_mdSetAt|].
      destruct (world_mdSetAt _ l RequestID u Ht) as [h ->]. split; [exists h, e'; split; [reflexivity|by right]|]. intros k. rewrite view_mdSetAt by exact Ht. by rewrite view_onWorldEnv.
    - split; [done|]. split; [exists (gRespHeader (world s4)), (gEnv (world s4)); split; [by destruct (world s4)|by left]|]. intros k.
      case_decide as Hk; [|done]. rewrite Hv4, <- Hk. by rewrite (proj2 (String.eqb_neq _ _) E). }
  clearbody s5.
  set (s6 := mdSetAt l RequestProtocol Protocol s5). assert (teed s6 l) as Ht6 by (by apply teed_mdSetAt).
  assert (exists h, world s6 = setRespHeader h (world s5)) as [h6 Hw6] by (by apply world_mdSetAt).
  assert (gFullPath (world s6) = gFullPath (world s)) as -> by (by rewrite Hw6, Hw5, Hw4).
  assert (gPath (world s6) = gPath (world s)) as -> by (by rewrite Hw6, Hw5, Hw4).
  set (path := if String.eqb _ _ then _ else _).
  set (s7 := mdSetAt l RequestPath path s6). assert (teed s7 l) as Ht7 by (by apply teed_mdSetAt).
  destruct (world_mdSetAt _ l RequestPath path Ht6) as [h7 Hw7]. fold s7 in Hw7.
  set (s8 := mdSetAt l RequestRoute (gFullPath (world s)) s7). assert (teed s8 l) as Ht8 by (by apply teed_mdSetAt).
  destruct (world_mdSetAt _ l RequestRoute (gFullPath (world s)) Ht7) as [h8 Hw8]. fold s8 in Hw8.
  assert (gMethod (world s8) = gMethod (world s)) as -> by (by rewrite Hw8, Hw7, Hw6, Hw5, Hw4).
  set (s9 := mdSetAt l RequestMethod _ s8). cbn [ctxMeta ctxClaims].
  destruct (world_mdSetAt _ l RequestMethod (gMethod (world s)) Ht8) as [h9 Hw9]. fold s9 in Hw9.
  split; [done|]. split.
  { unfold same_response, writer, halted. by rewrite Hw9, Hw8, Hw7, Hw6, Hw5, Hw4. }
  split; [|split; [intros f k; unfold NewContext; rewrite !Get_Some; apply (view_onWorldEnv s9); by apply teed_mdSetAt|]].
  2: { unfold env at 1 3. by rewrite Hw9, Hw8, Hw7, Hw6, Hw5. }
  intros k. unfold NewContext. rewrite Get_Some. change (view s9 l k = preparedValue (world s) k).
  unfold s9. rewrite view_mdSetAt by done. unfold s8. rewrite view_mdSetAt by done. unfold s7. rewrite view_mdSetAt by done.
  unfold s6. rewrite view_mdSetAt by done. rewrite Hv5, Hv4. unfold preparedValue. fold hdr. repeat (case_decide; [done|]).
  by destruct (String.eqb_spec (headerGet hdr (canonicalMetadataKey k)) EmptyString) as [->|].
Qed.

(** C19. What a middleware reads of a request cannot be forged by its headers: protocol,
    path, route and method are what the engine matched, whatever the client sent under
    those names; a header under the name of the client address is replaced by what the
    engine answers for it (which, with the proxies gin trusts by default, is itself read
    from forwarding headers: the address is no more trustworthy than they are); only the
    request id is the client's, when it sends one, and every other key is the header's. *)
Theorem request_metadata_trusted (ctx : GoContext Claims) (s : State) :
  ctxMeta ctx = None ->
  let '(s', ctx') := prepare ctx s in
  let g := world s in
  let header k := headerGet (headerSet (gReqHeader g) RequestClientIP (ClientIP g)) (canonicalMetadataKey k) in
  let route := gFullPath g in
  ctxClaims ctx' = ctxClaims ctx
  /\ Get s' (ctxMeta ctx') RequestProtocol = (Protocol, true)
  /\ Get s' (ctxMeta ctx') RequestPath = (if String.eqb route EmptyString then gPath g else route, true)
  /\ Get s' (ctxMeta ctx') RequestRoute = (route, true)
  /\ Get s' (ctxMeta ctx') RequestMethod = (gMethod g, true)
  /\ fst (Get s' (ctxMeta ctx') RequestClientIP) = ClientIP g
  /\ Get s' (ctxMeta ctx') RequestID = (if String.eqb (header RequestID) EmptyString then fst (newUUID (gEnv g)) else header RequestID, true)
  /\ forall k, ~ In (canonicalMetadataKey k) (map canonicalMetadataKey [RequestProtocol; RequestPath; RequestRoute; RequestMethod; RequestID]) ->
       fst (Get s' (ctxMeta ctx') k) = header k.
Proof.
  intros Hc. pose proof (prepare_Get ctx s Hc) as Hp. destruct (prepare ctx s) as [s' ctx']. destruct Hp as (Hcl & _ & Hget & _).
  cbv zeta. rewrite !Hget. split; [done|]. do 4 (split; [reflexivity|]).
  assert (forall k, ~ In (canonicalMetadataKey k) (map canonicalMetadataKey [RequestProtocol; RequestPath; RequestRoute; RequestMethod; RequestID]) ->
            fst (preparedValue (world s) k) = headerGet (headerSet (gReqHeader (world s)) RequestClientIP (ClientIP (world s))) (canonicalMetadataKey k)) as Hk.
  { intros k Hk. unfold preparedValue. rewrite !decide_False by (intros E; apply Hk; rewrite <- E; cbn; auto 10).
    by destruct (String.eqb_spec (headerGet (headerSet (gReqHeader (world s)) RequestClientIP (ClientIP (world s))) (canonicalMetadataKey k)) EmptyString) as [->|]. }
  split; [|split; [reflexivity|]].
  - rewrite Hk; [by rewrite headerGet_headerSet, decide_True|]. vm_compute. clear. intros Hf. repeat (destruct Hf as [Hf|Hf]; [discriminate|]). exact Hf.
  - intros k Hin. rewrite Hget. by apply Hk.
Qed.

End Server.

(** ** An engine *)

Section Reference.
Context {Claims Env : Type}.

(** The pending handlers, in order. *)
Fixpoint serveInOrder (hs : list (HandlerFunc (Claims := Claims) (Env := Env))) (s : HttpCore.State Claims Env) :
    HttpCore.State Claims Env * outcome :=
  match hs with
  | [] => (onGin halt s, Returns)
  | h :: hs =>
      if halted s then (s, Returns)
      else let '(s', o) := h (serveInOrder hs) s in
           match o with Returns => serveInOrder hs s' | Panics => (s', Panics) end
  end.

Definition demoMarshal (e : Response.Envelope string) : result string string :=
  Ok (pretty (Response.eCode e) +:+ " " +:+ Response.eMessage e +:+ default EmptyString (Response.eData e)).

Definition demoHost : GinHost Claims string Env := {|
  Marshal := demoMarshal;
  connWrite := fun _ => None;
  Written := fun w => match Response.headersWritten w with [] => false | _ => true end;
  Status := fun w => default 200%Z (last (Response.headersWritten w));
  (* every proxy is trusted, as gin has it by default *)
  ClientIP := fun g => let forwarded := headerGet (gReqHeader g) "X-Forwarded-For" in
                       if String.eqb forwarded EmptyString then "10.0.0.1" else forwarded;
  renderJSON := fun status e w => fst (Response.Write demoMarshal (fun _ => None) w status (Some e));
  serve := serveInOrder;
|}.

Lemma demoLaws : GinLaws demoHost.
Proof.
  assert (forall w status e, Written (GinHost := demoHost) (fst (Response.Write demoMarshal (fun _ => None) w status e)) = true) as Hw.
  { intros w status e. pose proof (Response.Write_once demoMarshal (fun _ => None) w status e) as Ho. cbv zeta in Ho.
    change (match Response.headersWritten (fst (Response.Write demoMarshal (fun _ => None) w status e)) with [] => false | _ => true end = true).
    rewrite Ho. by destruct (Response.headersWritten w). }
  constructor; [exact Hw|intros status e w; exact (Hw w status (Some e))|reflexivity|reflexivity].
Qed.
End Reference.

Definition demoGin (path auth : string) : HttpCore.State string (list string) :=
  mkStore ∅ (mkGin "GET" path "/api/users" (headerSet (headerSet ∅ "Authorization" auth) "X-Aeus-Request-Path" "/login") (mkCtx None None) ∅
    (Response.mkRW EmptyString [] EmptyString) [] false []).

Definition demoHandlers (mws : list (Middleware (Claims := string) (World := Gin string (list string)))) h :=
  requestHandlers (H := demoHost) None None (fun t e => e ++ [t]) (fun _ => 0%Z) (fun e => ("id-1", e)) mws [] h.

Definition demoPrepare (s : HttpCore.State string (list string)) :=
  prepare (H := demoHost) (fun e => ("id-1", e)) (gCtx (world s)) s.

(** A handler that fails with an error of its own, and one that panics. *)
Definition failing (e : error) : HandleFunc (Claims := string) (Env := list string) := fun s => (s, Handled (Some e)).
Definition demoBody (r : HttpCore.State string (list string) * outcome) : list Z * string :=
  (Response.headersWritten (writer (fst r)), Response.body (writer (fst r))).

Example requests_run :
  demoBody (serveInOrder (demoHandlers [] (register (failing (EPlain "SQL: no such table")))) (demoGin "/api/users" "x"))
    = ([500%Z], "1003 internal server error")
  /\ demoBody (serveInOrder (demoHandlers [] (register (failing (EWrap "load user" [ESentinel (SErrs ErrNotFound)])))) (demoGin "/api/users" "x"))
    = ([404%Z], "4004 not found")
  /\ demoBody (serveInOrder (demoHandlers [] (register (fun s => (s, Panicked)))) (demoGin "/api/users" "x"))
    = ([500%Z], "1005 internal server error")
  /\ demoBody (serveInOrder (demoHandlers [fun _ _ s => (s, None)] (register (failing (EPlain "SQL")))) (demoGin "/api/users" "x"))
    = ([], EmptyString).
Proof. by vm_compute. Qed.

Lemma request_metadata_trusted_witness :
  ctxMeta (gCtx (world (demoGin "/api/users" "x"))) = None
  /\ let '(s', ctx') := demoPrepare (demoGin "/api/users" "x") in
     Get s' (ctxMeta ctx') RequestPath = ("/api/users", true).
Proof.
  split; [reflexivity|].
  pose proof (request_metadata_trusted (H := demoHost) (fun e => ("id-1", e)) (gCtx (world (demoGin "/api/users" "x")))
                (demoGin "/api/users" "x") eq_refl) as Hm.
  unfold demoPrepare. destruct (prepare _ _ _) as [s' ctx']. destruct Hm as (_ & _ & Hp & _). exact Hp.
Defined.

(** The server sets no trusted proxies, so the address the middlewares read, which keys
    the rate limits and is written to the login log, is the client's to choose. *)
Example client_address_forged :
  let s := onGin (fun g => setReqHeader (headerSet (gReqHeader g) "X-Forwarded-For" "203.0.113.7") g) (demoGin "/auth/login" "x") in
  let '(s', ctx') := demoPrepare s in
  Get s' (ctxMeta ctx') RequestClientIP = ("203.0.113.7", true).
Proof. vm_compute. reflexivity. Qed.

Lemma request_response_witness :
  let s := demoGin "/api/users" "x" in
  halted s = false
  /\ let '(s', o) := serve (GinHost := demoHost) (demoHandlers [] (register (failing (EPlain "SQL: no such table")))) s in
     o = Returns /\ Response.body (writer s') = "1003 internal server error".
Proof.
  intros s. split; [reflexivity|]. 
  pose (next := serve (GinHost := demoHost) [recoveryInterceptor (H := demoHost) (fun t e => e ++ [t]); register (failing (EPlain "SQL: no such table"))]).
  pose (p := demoPrepare s). pose (r := nextHandler next (snd p) (fst p)).
  pose proof (request_response (H := demoHost) None None (fun t e => e ++ [t]) (fun _ => 0%Z) (fun e => ("id-1", e)) []
                (L := demoLaws) (failing (EPlain "SQL: no such table")) s (fst p) (fst r) (fst p)
                (onGin (setCtx (snd p)) (fst p)) (snd p) (snd p) (snd r) (Handled (Some (EPlain "SQL: no such table")))
                eq_refl (surjective_pairing p) (surjective_pairing r) (surjective_pairing r) eq_refl eq_refl) as Hr.
  unfold demoHandlers. destruct (serve _ s) as [s' o]. destruct Hr as (Ho & _ & Hw & _). split; [exact Ho|]. rewrite Hw. reflexivity.
Defined.
