(* ===== verification/HttpGate.v ===== *)
(** The token gate of [middleware/auth] behind the HTTP transport: what a request
    without a token gets, whatever routes the server has. *)

From Stdlib Require Import ZArith Lia String Ascii List Bool.
From stdpp Require Import base tactics list gmap strings.
From S2P Require Import Prelude GoStrings Errs Metadata Middleware JwtAuth HttpCore HttpServer.

Local Open Scope string_scope.
Local Open Scope list_scope.

Section Gate.

Context {Claims D Env Kind : Type} {H : GinHost Claims D Env} {L : GinLaws H}.
Notation State := (HttpCore.State Claims Env).
Notation Gin := (HttpCore.Gin Claims Env).

Variable tracer : option (Tracer (Env := Env)).
Variable metrics : option (Recorder (Env := Env)).
Variable Errorf : string -> Env -> Env.
Variable Now : Env -> Z.
Variable newUUID : Env -> string * Env.
Variable implementsClaims : Kind -> bool.
Variable ParseWithClaims : Kind -> string -> parsed (Claims := Claims).
Variable Parse : string -> parsed (Claims := Claims).

(** The span changes the rest of the world only. *)
Lemma startSpan_world (ctx : GoContext Claims) (s : State) :
  exists f, world (startSpan tracer ctx s) = onEnv f (world s).
Proof.
  unfold startSpan. destruct tracer as [t|]; [|exists (fun e => e); by destruct (world s)].
  unfold Metadata.FromContext, alloc. destruct (ctxMeta ctx); eexists; reflexivity.
Qed.

(** The gate refuses a request without a token before it looks further. *)
Lemma JWT_tokenless (opts : options) (next : Handler) (ctx : GoContext Claims) (s : State) :
  Get s (ctxMeta ctx) authorizationKey = (EmptyString, false) -> allowlisted opts ctx s = false ->
  JWT implementsClaims ParseWithClaims Parse opts next ctx s = (s, Some (ESentinel (SErrs ErrAccessDenied))).
Proof. intros Ha Hl. unfold JWT. rewrite Hl, Ha. reflexivity. Qed.

(** A server whose first middleware is the token gate: a request without an
    Authorization header to a path that is not on the allowlist gets exactly one
    answer, status 403 with the envelope of ErrAccessDenied, and no route, no further
    middleware, takes part in it. *)
Theorem tokenless_request_refused (opts : options) (mws : list Middleware) (s : State) :
  halted s = false -> Written (writer s) = false -> ctxMeta (gCtx (world s)) = None ->
  headerGet (gReqHeader (world s)) authorizationKey = EmptyString ->
  isAllowed (if String.eqb (gFullPath (world s)) EmptyString then gPath (world s) else gFullPath (world s)) (allows opts) = false ->
  exists s', (forall route, serve (requestHandlers tracer metrics Errorf Now newUUID
                                     (JWT implementsClaims ParseWithClaims Parse opts :: mws) [] route) s = (s', Returns))
    /\ writer s' = fst (Response.Write Marshal connWrite (writer s) 403
                          (Some (Response.New CodeAccessDenied "access denied" None))).
Proof.
  intros Hs Hw Hc Ha Hallow.
  destruct (startSpan_world (gCtx (world s)) s) as [f Hf]. set (ss := startSpan tracer (gCtx (world s)) s) in *.
  pose proof (prepare_Get newUUID (gCtx (world s)) ss Hc) as Hp.
  destruct (prepare newUUID (gCtx (world s)) ss) as [s0 ctx] eqn:Ep. destruct Hp as (_ & [Hw0 Hh0] & Hget & _).
  assert (writer s0 = writer s) as Hw0' by (rewrite Hw0; unfold writer; by rewrite Hf).
  assert (forall next, Chain (JWT implementsClaims ParseWithClaims Parse opts :: mws) next ctx s0
                       = (s0, Some (ESentinel (SErrs ErrAccessDenied)))) as Hrefuse.
  { intros next. rewrite Chain_cons. apply JWT_tokenless.
    - rewrite Hget. unfold preparedValue. rewrite Hf. cbn [gMethod gFullPath gPath gReqHeader gEnv onEnv].
      rewrite !decide_False by done. rewrite headerGet_headerSet, decide_False by done.
      assert (headerGet (gReqHeader (world s)) (canonicalMetadataKey authorizationKey) = EmptyString) as ->; [|done].
      rewrite <- Ha. unfold headerGet. by rewrite CanonicalHeaderKey_lower.
    - unfold allowlisted. destruct (allows opts) as [|a l] eqn:Eal; [done|].
      rewrite Hget. unfold preparedValue. rewrite Hf. cbn [gMethod gFullPath gPath gReqHeader gEnv onEnv].
      rewrite !decide_False by done. rewrite decide_True by done. exact Hallow. }
  destruct (refused_request tracer metrics Errorf Now newUUID (JWT implementsClaims ParseWithClaims Parse opts :: mws) s s0 s0 ctx
              _ Hs Ep Hrefuse) as (s' & Hserve & Hwr); [by rewrite Hw0'|].
  exists s'. split; [exact Hserve|]. rewrite Hwr, Hw0'. reflexivity.
Qed.

End Gate.

Lemma tokenless_request_refused_witness :
  let s := demoGin "/api/users" EmptyString in
  headerGet (gReqHeader (world s)) authorizationKey = EmptyString
  /\ exists s' : HttpCore.State string (list string), writer s' = fst (Response.Write (D := string) demoMarshal (fun _ => None) (writer s) 403
                          (Some (Response.New CodeAccessDenied "access denied" None)))
               /\ Response.body (writer s') = "4005 access denied".
Proof.
  intros s. split; [reflexivity|].
  destruct (tokenless_request_refused (H := demoHost) (L := demoLaws) (Kind := unit) None None (fun t e => e ++ [t]) (fun _ => 0%Z)
              (fun e => ("id-1", e)) (fun _ => true) (fun _ t => PErr (EPlain t) false) (fun t => PErr (EPlain t) false)
              (mkOptions ["/login"] None None None) [] s eq_refl eq_refl eq_refl eq_refl eq_refl) as (s' & _ & Hw).
  exists s'. split; [exact Hw|]. rewrite Hw. reflexivity.
Defined.
