(* ===== verification/HttpCors.v ===== *)
(** [transport/http/cors.go]: the configurations of the CORS interceptor that are
    accepted and what the interceptor answers. *)

From Stdlib Require Import ZArith Lia String Ascii List Bool.
From stdpp Require Import base tactics list gmap strings pretty.
From S2P Require Import Prelude GoStrings Errs Metadata Middleware HttpCore.

Local Open Scope string_scope.
Local Open Scope list_scope.

Record CORSConfig : Type := mkCORS {
  AllowOrigins : list string;
  AllowMethods : list string;
  AllowHeaders : list string;
  ExposeHeaders : list string;
  AllowCredentials : bool;
  MaxAge : Z;                     (* nanoseconds *)
}.

Definition defaultCORSMethods : list string := ["GET"; "HEAD"; "POST"; "PUT"; "PATCH"; "DELETE"].
Definition second : Z := 1000000000.

(** [strings.EqualFold] with an ASCII text; a parsed scheme has ASCII letters only. *)
Definition EqualFold (s t : string) : bool := String.eqb (ToLower s) (ToLower t).

(** What the check reads of a parsed URL. *)
Record URL : Type := mkURL {
  uScheme : string; uHost : string; uUser : bool; uPath : string; uRawQuery : string; uFragment : string;
}.

Section Validate.
Variable urlParse : string -> option URL.

Definition originValid (origin : string) : bool :=
  match urlParse origin with
  | None => false
  | Some u =>
      negb ((negb (EqualFold (uScheme u) "http") && negb (EqualFold (uScheme u) "https"))
            || String.eqb (uHost u) EmptyString || uUser u || negb (String.eqb (uPath u) EmptyString)
            || negb (String.eqb (uRawQuery u) EmptyString) || negb (String.eqb (uFragment u) EmptyString))
  end.

(** The loop over the origins: the first invalid one, and whether [*] was met. *)
Fixpoint checkOrigins (wildcard : bool) (origins : list string) : result string bool :=
  match origins with
  | [] => Ok wildcard
  | origin :: rest =>
      if String.eqb origin "*" then checkOrigins true rest
      else if originValid origin then checkOrigins wildcard rest
      else Err ("invalid origin " +:+ quote origin +:+ " (want scheme://host[:port])")
  end.

Definition validateCORS (cfg : CORSConfig) : option string :=
  match AllowOrigins cfg with
  | [] => Some "AllowOrigins is required"
  | _ =>
      match checkOrigins false (AllowOrigins cfg) with
      | Err e => Some e
      | Ok wildcard =>
          if wildcard && AllowCredentials cfg then Some ("AllowOrigins " +:+ quote "*" +:+ " cannot be combined with AllowCredentials")
          else if (MaxAge cfg <? 0)%Z then Some "MaxAge must not be negative"
          else match List.find (fun m => String.eqb m EmptyString || negb (String.eqb m (ToUpper m))) (AllowMethods cfg) with
               | Some m => Some ("invalid method " +:+ quote m +:+ " (want an uppercase HTTP method)")
               | None => None
               end
      end
  end.

Lemma checkOrigins_Ok (w0 : bool) (origins : list string) (w : bool) :
  checkOrigins w0 origins = Ok w ->
  w = w0 || existsb (String.eqb "*") origins /\ Forall (fun o => o = "*" \/ originValid o = true) origins.
Proof.
  revert w0. induction origins as [|o l IH]; intros w0; cbn [checkOrigins existsb]; [intros [= <-]; by rewrite orb_false_r|].
  destruct (String.eqb_spec o "*") as [->|Hne].
  - intros H. apply IH in H as [-> Hl]. split; [cbn; by rewrite orb_true_r|]. constructor; auto.
  - destruct (originValid o) eqn:Ev; [|done]. intros H. apply IH in H as [-> Hl].
    rewrite (proj2 (String.eqb_neq "*" o)) by done. split; [done|]. constructor; auto.
Qed.

(** An accepted configuration names origins, and allows no credentials to all of them. *)
Lemma validateCORS_None (cfg : CORSConfig) :
  validateCORS cfg = None ->
  AllowOrigins cfg <> [] /\ (AllowCredentials cfg = true -> ~ In "*" (AllowOrigins cfg)) /\ (0 <= MaxAge cfg)%Z.
Proof.
  unfold validateCORS. destruct (AllowOrigins cfg) as [|o l] eqn:Eo; [done|]. assert (AllowOrigins cfg <> []) as Hne by (by rewrite Eo). rewrite <- Eo in *. clear Eo.
  destruct (checkOrigins false (AllowOrigins cfg)) as [w|] eqn:Ec; [|done]. apply checkOrigins_Ok in Ec as [Hw _].
  destruct (w && AllowCredentials cfg) eqn:Ew; [done|]. destruct (Z.ltb_spec (MaxAge cfg) 0); [done|].
  intros _. split; [done|]. split; [|done]. intros Hc Hin. rewrite Hc, andb_true_r in Ew. subst w. cbn [orb] in Ew.
  assert (existsb (String.eqb "*") (AllowOrigins cfg) = true) as Ht by (apply existsb_exists; exists "*"; by rewrite String.eqb_refl).
  congruence.
Qed.
End Validate.

Definition originAllowed (origins : list string) (origin : string) : bool :=
  existsb (fun allowed => String.eqb allowed "*" || String.eqb allowed origin) origins.

Section Interceptor.

Context {Claims D Env : Type}.
Notation State := (HttpCore.State Claims Env).

(** [c.AbortWithStatus] on the response. *)
Variable writeStatus : Z -> Response.ResponseWriter -> Response.ResponseWriter.
(** The configuration of the server. *)
Variable opt : option CORSConfig.

Definition emptyCORS : CORSConfig := mkCORS [] [] [] [] false 0.
Definition cfg : CORSConfig := default emptyCORS opt.

Definition respond (f : Header -> Header) (s : State) : State := onGin (fun g => setRespHeader (f (gRespHeader g)) g) s.

(** The headers of an allowed origin, and those a preflight adds. *)
Definition grantHeaders (origin : string) (h : Header) : Header :=
  let wildcard := existsb (String.eqb "*") (AllowOrigins cfg) in
  let h := if AllowCredentials cfg then
             headerSet (headerSet h "Access-Control-Allow-Origin" origin) "Access-Control-Allow-Credentials" "true"
           else if wildcard then headerSet h "Access-Control-Allow-Origin" "*"
           else headerSet h "Access-Control-Allow-Origin" origin in
  let exposeHeaders := Join (ExposeHeaders cfg) ", " in
  if negb (String.eqb exposeHeaders EmptyString) then headerSet h "Access-Control-Expose-Headers" exposeHeaders else h.

Definition preflightHeaders (requested : string) (h : Header) : Header :=
  let methods := match AllowMethods cfg with [] => defaultCORSMethods | l => l end in
  let allowHeaders := Join (AllowHeaders cfg) ", " in
  let h := headerAdd h "Vary" "Access-Control-Request-Method" in
  let h := headerAdd h "Vary" "Access-Control-Request-Headers" in
  let h := headerSet h "Access-Control-Allow-Methods" (Join methods ", ") in
  let h := if negb (String.eqb allowHeaders EmptyString) then headerSet h "Access-Control-Allow-Headers" allowHeaders
           else if negb (String.eqb requested EmptyString) then headerSet h "Access-Control-Allow-Headers" requested
           else h in
  if (0 <? MaxAge cfg)%Z then headerSet h "Access-Control-Max-Age" (pretty (Z.quot (MaxAge cfg) second)) else h.

Definition CORSInterceptor : HandlerFunc (Claims := Claims) (Env := Env) :=
  fun next s =>
    let g := world s in
    let origin := headerGet (gReqHeader g) "Origin" in
    if String.eqb origin EmptyString then next s
    else
      let s := respond (fun h => headerAdd h "Vary" "Origin") s in
      if negb (originAllowed (AllowOrigins cfg) origin) then next s
      else
        let s := respond (grantHeaders origin) s in
        if negb (String.eqb (gMethod g) "OPTIONS") then next s
        else
          let s := respond (preflightHeaders (headerGet (gReqHeader g) "Access-Control-Request-Headers")) s in
          (onGin (fun g => halt (setWriter (writeStatus 204 (gWriter g)) g)) s, Returns).

(** ** What browsers are told *)

Definition allowOrigin (s : State) : string := headerGet (gRespHeader (world s)) "Access-Control-Allow-Origin".
Definition allowCredentials (s : State) : string := headerGet (gRespHeader (world s)) "Access-Control-Allow-Credentials".
Definition maxAge (s : State) : string := headerGet (gRespHeader (world s)) "Access-Control-Max-Age".

Ltac by_header := repeat (rewrite headerGet_headerSet; first [rewrite decide_True by reflexivity | rewrite decide_False by done]).

Lemma grantHeaders_get (origin : string) (h : Header) :
  headerGet (grantHeaders origin h) "Access-Control-Allow-Origin"
  = (if negb (AllowCredentials cfg) && existsb (String.eqb "*") (AllowOrigins cfg) then "*" else origin)
  /\ headerGet (grantHeaders origin h) "Access-Control-Allow-Credentials"
     = (if AllowCredentials cfg then "true" else headerGet h "Access-Control-Allow-Credentials").
Proof.
  unfold grantHeaders. destruct (negb (String.eqb (Join (ExposeHeaders cfg) ", ") EmptyString)); by_header;
    (destruct (AllowCredentials cfg); [|destruct (existsb _ _)]); cbn [negb andb]; by_header; done.
Qed.

Lemma preflightHeaders_get (requested : string) (h : Header) (k : string) :
  In k ["Access-Control-Allow-Origin"; "Access-Control-Allow-Credentials"] ->
  headerGet (preflightHeaders requested h) k = headerGet h k.
Proof.
  intros Hk. assert (forall x, In x ["Vary"; "Access-Control-Allow-Methods"; "Access-Control-Allow-Headers"; "Access-Control-Max-Age"] ->
                       CanonicalHeaderKey x <> CanonicalHeaderKey k) as Hne.
  { intros x Hx. cbn in Hk, Hx. intuition (subst; done). }
  unfold preflightHeaders.
  repeat case_match; rewrite ?headerGet_headerSet; rewrite ?decide_False by (apply Hne; cbn; tauto);
    rewrite ?headerGet_headerAdd by (apply Hne; cbn; tauto); done.
Qed.

(** C20. CORS: with a configuration the server starts with and no CORS header set before, a
    request is granted exactly when it has an origin and that origin, or all, are
    configured.  A request that is not granted goes on to the other handlers with no CORS
    permission; a granted one allows its origin ([*] where all are configured and there
    are no credentials), and credentials exactly when they are configured, then only to
    an origin that is configured literally.  A preflight that is granted is answered
    here, every other request goes on. *)
Theorem cors_grants (urlParse : string -> option URL) (c : CORSConfig) (next : State -> State * outcome) (s : State) :
  opt = Some c -> validateCORS urlParse c = None -> allowOrigin s = EmptyString -> allowCredentials s = EmptyString ->
  let origin := headerGet (gReqHeader (world s)) "Origin" in
  let granted := origin <> EmptyString /\ (In origin (AllowOrigins c) \/ In "*" (AllowOrigins c)) in
  exists s',
    (~ granted -> CORSInterceptor next s = next s' /\ allowOrigin s' = EmptyString /\ allowCredentials s' = EmptyString)
    /\ (granted ->
          (AllowCredentials c = false -> In "*" (AllowOrigins c) -> allowOrigin s' = "*")
          /\ (AllowCredentials c = true \/ ~ In "*" (AllowOrigins c) -> allowOrigin s' = origin /\ In origin (AllowOrigins c))
          /\ allowCredentials s' = (if AllowCredentials c then "true" else EmptyString)
          /\ (gMethod (world s) = "OPTIONS" -> CORSInterceptor next s = (s', Returns) /\ halted s' = true)
          /\ (gMethod (world s) <> "OPTIONS" -> CORSInterceptor next s = next s' /\ halted s' = halted s)).
Proof.
  intros Ho Hv Hao Hac origin granted. apply validateCORS_None in Hv as (_ & Hcred & _).
  assert (cfg = c) as Hcfg by (unfold cfg; by rewrite Ho).
  unfold CORSInterceptor. fold origin. destruct (String.eqb_spec origin EmptyString) as [E|Hne].
  { exists s. split; [done|]. by intros [? _]. }
  set (s1 := respond (fun h => headerAdd h "Vary" "Origin") s).
  assert (allowOrigin s1 = EmptyString /\ allowCredentials s1 = EmptyString) as [Hao1 Hac1].
  { unfold allowOrigin, allowCredentials, s1, respond. cbn [world onGin gRespHeader setRespHeader].
    by rewrite !headerGet_headerAdd by done. }
  assert (originAllowed (AllowOrigins c) origin = true <-> In origin (AllowOrigins c) \/ In "*" (AllowOrigins c)) as Hallow.
  { unfold originAllowed. rewrite existsb_exists. split.
    - intros (x & Hin & Hx). apply orb_true_iff in Hx as [->%String.eqb_eq| ->%String.eqb_eq]; auto.
    - intros [Hin|Hin]; (eexists; split; [exact Hin|]); rewrite !String.eqb_refl, ?orb_true_r; done. }
  rewrite Hcfg. destruct (originAllowed (AllowOrigins c) origin) eqn:Ea; cbn [negb].
  2:{ exists s1. split; [done|]. intros [_ Hin%Hallow]. done. }
  assert (In origin (AllowOrigins c) \/ In "*" (AllowOrigins c)) as Hin by (by apply Hallow).
  set (s2 := respond (grantHeaders origin) s1).
  assert (forall s', allowOrigin s' = allowOrigin s2 -> allowCredentials s' = allowCredentials s2 ->
    (AllowCredentials c = false -> In "*" (AllowOrigins c) -> allowOrigin s' = "*")
    /\ (AllowCredentials c = true \/ ~ In "*" (AllowOrigins c) -> allowOrigin s' = origin /\ In origin (AllowOrigins c))
    /\ allowCredentials s' = (if AllowCredentials c then "true" else EmptyString)) as Hgrant.
  { intros s' -> ->. destruct (grantHeaders_get origin (gRespHeader (world s1))) as [G1 G2]. rewrite Hcfg in G1, G2.
    change (allowOrigin s2) with (headerGet (grantHeaders origin (gRespHeader (world s1))) "Access-Control-Allow-Origin").
    change (allowCredentials s2) with (headerGet (grantHeaders origin (gRespHeader (world s1))) "Access-Control-Allow-Credentials").
    rewrite G1, G2. change (headerGet (gRespHeader (world s1)) "Access-Control-Allow-Credentials") with (allowCredentials s1). rewrite Hac1.
    assert (existsb (String.eqb "*") (AllowOrigins c) = true <-> In "*" (AllowOrigins c)) as Hw.
    { rewrite existsb_exists. split; [by intros (x & Hx & ->%String.eqb_eq)|]. intros Hx. exists "*". by rewrite String.eqb_refl. }
    destruct (AllowCredentials c) eqn:Ecr; cbn [negb andb]; (split; [|split; [|done]]).
    - done.
    - intros _. specialize (Hcred eq_refl). by destruct Hin.
    - intros _ Hx%Hw. by rewrite Hx.
    - intros [?|Hx]; [done|]. destruct Hin as [Hin|]; [|done]. destruct (existsb _ _); [|done]. destruct Hx. by apply Hw. }
  destruct (String.eqb_spec (gMethod (world s)) "OPTIONS") as [Em|Em]; cbn [negb].
  - set (s3 := onGin _ _). exists s3. split; [by intros []|]. intros _. destruct (Hgrant s3) as (Hg1 & Hg2 & Hg3).
    + apply (preflightHeaders_get _ (gRespHeader (world s2))). cbn; tauto.
    + apply (preflightHeaders_get _ (gRespHeader (world s2))). cbn; tauto.
    + done.
  - exists s2. split; [by intros []|]. intros _. destruct (Hgrant s2) as (Hg1 & Hg2 & Hg3); done.
Qed.

End Interceptor.

(** A server with one origin that may send credentials. *)
Definition demoCors : CORSConfig := mkCORS ["https://a.example"] [] [] [] true (60 * second).
Definition demoURL (s : string) : option URL :=
  if String.eqb s "https://a.example" then Some (mkURL "https" "a.example" false EmptyString EmptyString EmptyString) else None.
Definition demoRequest (method origin : string) : HttpCore.State unit unit :=
  mkStore ∅ (mkGin method "/x" "/x" (headerSet ∅ "Origin" origin) (mkCtx None None) ∅
    (Response.mkRW EmptyString [] EmptyString) [] false tt).
Definition demoStatus (z : Z) (w : Response.ResponseWriter) : Response.ResponseWriter :=
  Response.mkRW (Response.contentType w) (Response.headersWritten w ++ [z]) (Response.body w).

Example cors_runs :
  let run m o := fst (CORSInterceptor demoStatus (Some demoCors) (fun s => (s, Returns)) (demoRequest m o)) in
  (allowOrigin (run "OPTIONS" "https://a.example"), allowCredentials (run "OPTIONS" "https://a.example"), maxAge (run "OPTIONS" "https://a.example"))
    = ("https://a.example", "true", "60")
  /\ (allowOrigin (run "GET" "https://b.example"), allowCredentials (run "GET" "https://b.example")) = (EmptyString, EmptyString)
  /\ validateCORS demoURL (mkCORS ["*"] [] [] [] true 0) <> None.
Proof. by vm_compute. Qed.

Lemma cors_grants_witness :
  validateCORS demoURL demoCors = None
  /\ (exists s' : HttpCore.State unit unit,
       CORSInterceptor demoStatus (Some demoCors) (fun s => (s, Returns)) (demoRequest "OPTIONS" "https://a.example") = (s', Returns)
       /\ allowOrigin s' = "https://a.example" /\ allowCredentials s' = "true")
  /\ exists s' : HttpCore.State unit unit,
       CORSInterceptor demoStatus (Some demoCors) (fun s => (s, Returns)) (demoRequest "GET" "https://b.example") = (s', Returns)
       /\ allowOrigin s' = EmptyString.
Proof.
  split; [reflexivity|]. split.
  - destruct (cors_grants demoStatus (Some demoCors) demoURL demoCors (fun s => (s, Returns)) (demoRequest "OPTIONS" "https://a.example")
                eq_refl eq_refl eq_refl eq_refl) as (s' & _ & Hg).
    destruct Hg as (_ & Ho & Hc & Hp & _); [split; [done|left; by left]|].
    exists s'. split; [exact (proj1 (Hp eq_refl))|]. split; [exact (proj1 (Ho (or_introl eq_refl)))|exact Hc].
  - destruct (cors_grants demoStatus (Some demoCors) demoURL demoCors (fun s => (s, Returns)) (demoRequest "GET" "https://b.example")
                eq_refl eq_refl eq_refl eq_refl) as (s' & Hn & _).
    destruct Hn as (Hr & Ho & _); [intros [_ [[Hx|[]]|[Hx|[]]]]; vm_compute in Hx; discriminate Hx|].
    exists s'. by split.
Defined.
