(* ===== verification/HttpFs.v ===== *)
(** [transport/http/fs.go]: the file system of the web root: the prefix below which it
    opens, the denied directories and the index file of the root. *)

From Stdlib Require Import ZArith Lia String Ascii List Bool.
From stdpp Require Import base tactics list strings.
From S2P Require Import Prelude GoStrings GoPath Errs.

Local Open Scope string_scope.
Local Open Scope list_scope.

Record httpFileInfo : Type := mkInfo {
  fiName : string; fiSize : Z; fiMode : Z; fiIsDir : bool; fiModTime : Z;
}.

Section Fs.

(** The [http.FileSystem] below and its files; the host's error for a denied access. *)
Context {F : Type}.
Variable fsOpen : string -> result error F.
Variable fileStat : F -> result error httpFileInfo.
Variable ErrPermission : error.

Record filesystem : Type := mkFS { fsModtime : Z; fsPrefix : string; fsIndexFile : string; fsDenyDirectory : bool }.
Record httpFile : Type := mkFile { hfFp : F; hfModtime : Z }.

Definition newFS (modtime : Z) : filesystem := mkFS modtime EmptyString EmptyString false.

Definition DenyAccessDirectory (fs : filesystem) : filesystem :=
  mkFS (fsModtime fs) (fsPrefix fs) (fsIndexFile fs) true.

Definition SetPrefix (fs : filesystem) (prefix : string) : filesystem :=
  match prefix with
  | EmptyString => fs
  | String a _ =>
      let prefix := if negb (Ascii.eqb a slash) then "/" +:+ prefix else prefix in
      mkFS (fsModtime fs) (TrimRightByte slash prefix) (fsIndexFile fs) (fsDenyDirectory fs)
  end.

Definition SetIndexFile (fs : filesystem) (indexFile : string) : filesystem :=
  mkFS (fsModtime fs) (fsPrefix fs) indexFile (fsDenyDirectory fs).

(** [Server.Webroot], at an instant. *)
Definition Webroot (now : Z) (prefix : string) : filesystem :=
  SetIndexFile (DenyAccessDirectory (SetPrefix (newFS now) prefix)) "/index.html".

Definition newFileInfo (fi : httpFileInfo) (modtime : Z) : httpFileInfo :=
  mkInfo (fiName fi) (fiSize fi) (fiMode fi) (fiIsDir fi) modtime.

Definition Stat (file : httpFile) : result error httpFileInfo :=
  match fileStat (hfFp file) with
  | Err e => Err e
  | Ok fi => Ok (newFileInfo fi (hfModtime file))
  end.

(** The name the file system below is asked for. *)
Definition target (fs : filesystem) (name : string) : string :=
  if negb (String.eqb (fsPrefix fs) EmptyString)
     && negb (String.eqb name (fsPrefix fs)) && negb (HasPrefix name (fsPrefix fs +:+ "/"))
  then PathJoin (fsPrefix fs) name
  else name.

(** With the files opened below and left open: the code closes none of them.  [None]
    is a recursion deeper than the fuel. *)
Fixpoint Open (fuel : nat) (fs : filesystem) (name : string) : option (list string * result error httpFile) :=
  match fuel with
  | O => None
  | S fuel =>
      let name := Clean name in
      let needRetry := String.eqb name EmptyString || String.eqb name "/" in
      let name := target fs name in
      match fsOpen name with
      | Err e => Some ([], Err e)
      | Ok fp =>
          if fsDenyDirectory fs then
            match fileStat fp with
            | Err e => Some ([name], Err e)
            | Ok state =>
                if fiIsDir state then
                  if needRetry && negb (String.eqb (fsIndexFile fs) EmptyString) then
                    match Open fuel fs (PathJoin name (fsIndexFile fs)) with
                    | Some (opened, r) => Some (name :: opened, r)
                    | None => None
                    end
                  else Some ([name], Err ErrPermission)
                else Some ([name], Ok (mkFile fp (fsModtime fs)))
            end
          else Some ([name], Ok (mkFile fp (fsModtime fs)))
      end
  end.

(** ** Lemmas *)

Lemma SetPrefix_clean (fs : filesystem) (ep : list string) (lead : bool) (m : nat) :
  ep <> [] -> Forall plain ep ->
  fsPrefix (SetPrefix fs ((if lead then "/" else EmptyString) +:+ Join ep "/" +:+ Repeat "/" m)) = "/" +:+ Join ep "/".
Proof.
  intros Hne Hp. assert (TrimRightByte slash ("/" +:+ Join ep "/" +:+ Repeat "/" m) = "/" +:+ Join ep "/") as Htrim.
  { rewrite <- append_assoc, TrimRightByte_repeat. destruct (Join_plain_last ep Hne Hp) as (s & x & -> & Hx & Hf).
    rewrite <- append_assoc. by apply TrimRightByte_last. }
  destruct lead; [exact Htrim|]. destruct (Join_plain_head ep Hne Hp) as (a & s & Hj & Ha). rewrite Hj in *.
  change (EmptyString +:+ String a s +:+ Repeat "/" m) with (String a (s +:+ Repeat "/" m)).
  cbn [SetPrefix fsPrefix]. rewrite (proj2 (Ascii.eqb_neq a slash) Ha). exact Htrim.
Qed.

(** Every name asked below a clean prefix is the prefix or is below it. *)
Lemma target_below (fs : filesystem) (name : string) (ep es : list string) :
  ep <> [] -> rootedClean (fsPrefix fs) ep -> rootedClean name es -> exists es', rootedClean (target fs name) (ep ++ es').
Proof.
  intros Hne Hp Hn. unfold target. destruct (negb _ && negb _ && negb _) eqn:E; [exists es; by apply PathJoin_rooted|].
  rewrite !andb_false_iff, !negb_false_iff, !String.eqb_eq in E. destruct E as [[E|E]|E].
  - destruct Hp as [Hp _]. by rewrite Hp in E.
  - rewrite E. exists []. by rewrite app_nil_r.
  - apply HasPrefix_spec in E as [r E]. rewrite append_assoc in E.
    destruct (rootedClean_prefix _ _ r _ _ Hp Hne Hn E) as [es' ->]. eauto.
Qed.

Lemma Open_below (fuel : nat) (fs : filesystem) (name : string) (ep : list string) opened r :
  ep <> [] -> rootedClean (fsPrefix fs) ep -> rooted (fsIndexFile fs) = true -> rooted name = true ->
  Open fuel fs name = Some (opened, r) ->
  Forall (fun n => exists es, rootedClean n (ep ++ es)) opened
  /\ (fsDenyDirectory fs = true ->
        match r with
        | Err _ => True
        | Ok f => exists n fi, last opened = Some n /\ fsOpen n = Ok (hfFp f) /\ fileStat (hfFp f) = Ok fi /\ fiIsDir fi = false
        end).
Proof.
  intros Hne Hp Hi. revert name opened r. induction fuel as [|fuel IH]; intros name opened r Hn; [done|]. cbn [Open].
  destruct (Clean_rooted name Hn) as [es Hc]. destruct (target_below fs _ ep es Hne Hp Hc) as [es' Ht].
  set (tn := target fs (Clean name)) in *. destruct (fsOpen tn) as [fp|e] eqn:Eo; [|by intros [= <- <-]].
  assert (Forall (fun n => exists es, rootedClean n (ep ++ es)) [tn]) as H1 by (constructor; eauto).
  destruct (fsDenyDirectory fs) eqn:Ed; [|by intros [= <- <-]].
  destruct (fileStat fp) as [fi|] eqn:Es; [|by intros [= <- <-]]. destruct (fiIsDir fi) eqn:Ef.
  2:{ intros [= <- <-]. split; [done|]. intros _. exists tn, fi. done. }
  destruct (_ && _); [|by intros [= <- <-]]. destruct (Open fuel fs _) as [[o' r']|] eqn:Er; [|done]. intros [= <- <-].
  apply IH in Er as [Ha Hb].
  - split; [by constructor; [eauto|]|]. intros _. specialize (Hb eq_refl). destruct r' as [f|]; [|done].
    destruct Hb as (n & fi' & Hl & Hrest). exists n, fi'. split; [|done]. by rewrite last_cons, Hl.
  - destruct Ht as [Ht Htp]. unfold PathJoin. destruct (rooted_spec (fsIndexFile fs)) as [Hr _]. destruct (Hr Hi) as [t ->].
    rewrite Ht. cbn. reflexivity.
Qed.

(** The index file of the root is looked for once: two steps of fuel are enough. *)
Lemma Open_total (fs : filesystem) (name : string) :
  (fsPrefix fs = EmptyString \/ exists ep, ep <> [] /\ rootedClean (fsPrefix fs) ep) -> fsIndexFile fs = "/index.html" ->
  rooted name = true -> exists x, Open 2 fs name = Some x.
Proof.
  intros Hp Hi Hn. destruct (Clean_rooted name Hn) as [es Hc]. cbn [Open].
  assert (exists es', rootedClean (target fs (Clean name)) es') as [es' Ht].
  { destruct Hp as [Hp|(ep & Hne & Hp)].
    - exists es. unfold target. by rewrite Hp.
    - destruct (target_below fs _ ep es Hne Hp Hc) as [es' Ht]. eauto. }
  assert (rootedClean "/index.html" ["index.html"]) as Hx by (split; [done|by repeat constructor]).
  pose proof (PathJoin_rooted _ _ _ _ Ht Hx) as Hj.
  set (tn := target fs (Clean name)) in *. rewrite Hi. rewrite (Clean_id _ _ Hj).
  assert (String.eqb (PathJoin tn "/index.html") EmptyString || String.eqb (PathJoin tn "/index.html") "/" = false) as Hr.
  { destruct (String.eqb_spec (PathJoin tn "/index.html") EmptyString) as [E|_]; [by rewrite (proj1 Hj) in E|]. cbn [orb].
    apply String.eqb_neq. intros E. rewrite E in Hj. assert (rootedClean "/" []) as H0 by (by split).
    pose proof (rootedClean_inj _ _ _ Hj H0) as Hnil. by destruct es'. }
  rewrite Hr. cbn [andb]. repeat (case_match; eauto). all: simplify_eq; eauto.
Qed.

Lemma Open_dated (fuel : nat) (fs : filesystem) (name : string) opened (f : httpFile) :
  Open fuel fs name = Some (opened, Ok f) -> hfModtime f = fsModtime fs.
Proof.
  revert name opened. induction fuel as [|fuel IH]; [done|]. intros name opened. cbn [Open].
  repeat (case_match; try done); intros Heq; simplify_eq; try done. eauto.
Qed.

(** Where directories are denied, only files are returned. *)
Lemma Open_regular (fuel : nat) (fs : filesystem) (name : string) opened (f : httpFile) :
  fsDenyDirectory fs = true -> Open fuel fs name = Some (opened, Ok f) -> exists fi, Stat f = Ok fi /\ fiIsDir fi = false.
Proof.
  intros Hd. revert name opened. induction fuel as [|fuel IH]; [done|]. intros name opened. cbn [Open]. rewrite Hd.
  destruct (fsOpen _) as [fp|]; [|done]. destruct (fileStat fp) as [fi|] eqn:Es; [|done].
  destruct (fiIsDir fi) eqn:Ed.
  - destruct (_ && _); [|done]. destruct (Open _ _ _) as [[o r]|] eqn:Eo; [|done]. intros [= _ ->]. eauto.
  - intros [= _ <-]. exists (newFileInfo fi (fsModtime fs)). unfold Stat. cbn [hfFp hfModtime]. by rewrite Es.
Qed.

(** C21. The web root: whatever path a request names, the server opens on the file system
    below only the prefix directory and names beneath it (a name that merely begins
    with the same letters is looked for inside), at most two of them, and what it
    returns is a file and no directory, dated with the server's start. *)
Theorem webroot_confined (now : Z) (ep : list string) (lead : bool) (m : nat) (name : string) :
  ep <> [] -> Forall plain ep -> rooted name = true ->
  let fs := Webroot now ((if lead then "/" else EmptyString) +:+ Join ep "/" +:+ Repeat "/" m) in
  exists opened r, Open 2 fs name = Some (opened, r)
    /\ Forall (fun n => exists es, n = "/" +:+ Join (ep ++ es) "/" /\ Forall plain es) opened
    /\ match r with
       | Err _ => True
       | Ok f => exists n fi, last opened = Some n /\ fsOpen n = Ok (hfFp f) /\ Stat f = Ok fi
                              /\ fiIsDir fi = false /\ fiModTime fi = now
       end.
Proof.
  intros Hne Hp Hn fs. assert (rootedClean (fsPrefix fs) ep) as Hfs.
  { split; [|done]. unfold fs, Webroot. cbn [SetIndexFile DenyAccessDirectory fsPrefix]. by apply SetPrefix_clean. }
  assert (fsIndexFile fs = "/index.html" /\ fsDenyDirectory fs = true) as [Hi Hd] by done.
  assert (fsModtime fs = now) as Hm by (unfold fs, Webroot, SetPrefix; by case_match).
  destruct (Open_total fs name) as [[opened r] Ho]; [right; eauto|done|done|]. exists opened, r. split; [done|].
  destruct (Open_below 2 fs name ep opened r Hne Hfs) as [Ha Hb]; [by rewrite Hi|done|done|]. split.
  - eapply Forall_impl; [exact Ha|]. intros n (es & -> & Hes). exists es. apply Forall_app in Hes as [_ ?]. done.
  - specialize (Hb Hd). destruct r as [f|]; [|done]. destruct Hb as (n & fi & Hl & Hop & Hs & Hdir).
    exists n, (newFileInfo fi (hfModtime f)). unfold Stat. rewrite Hs. by rewrite (Open_dated _ _ _ _ _ Ho), Hm.
Qed.

End Fs.

(** A host with a file in the web root, one beside it, and directories. *)
Definition demoOpen (n : string) : result error string :=
  if existsb (String.eqb n) ["/static"; "/static/a.js"; "/static/index.html"; "/staticfoo"; "/etc/passwd"] then Ok n
  else Err (EPlain "file does not exist").
Definition demoStat (n : string) : result error httpFileInfo := Ok (mkInfo n 1 0 (String.eqb n "/static") 5).
Definition demoWeb (name : string) : option (list string * result error httpFile) :=
  Open demoOpen demoStat (EPlain "permission denied") 2 (Webroot 7 "static/") name.

(** The name of a request is rooted; a relative one would leave the prefix. *)
Example webroot_runs :
  demoWeb "/a.js" = Some (["/static/a.js"], Ok (mkFile "/static/a.js" 7))
  /\ demoWeb "/" = Some (["/static"; "/static/index.html"], Ok (mkFile "/static/index.html" 7))
  /\ demoWeb "/static" = Some (["/static"], Err (EPlain "permission denied"))
  /\ demoWeb "/staticfoo" = Some ([], Err (EPlain "file does not exist"))
  /\ demoWeb "/../etc/passwd" = Some ([], Err (EPlain "file does not exist"))
  /\ demoWeb "../etc/passwd" = Some (["/etc/passwd"], Ok (mkFile "/etc/passwd" 7)).
Proof. by vm_compute. Qed.

Lemma webroot_confined_witness :
  Forall plain ["static"] /\ rooted "/a.js" = true
  /\ exists opened r, demoWeb "/a.js" = Some (opened, r)
       /\ Forall (fun n => exists es, n = "/" +:+ Join (["static"] ++ es) "/" /\ Forall plain es) opened.
Proof.
  assert (Forall plain ["static"]) as Hp by (by repeat constructor).
  split; [exact Hp|]. split; [reflexivity|].
  destruct (webroot_confined demoOpen demoStat (EPlain "permission denied") 7 ["static"] false 1 "/a.js" ltac:(done) Hp eq_refl)
    as (opened & r & Ho & Hb & _).
  exists opened, r. split; [exact Ho|exact Hb].
Defined.
