(* ===== verification/HttpStatic.v ===== *)
(** [transport/http/server.go]: requests without a route: the static files of the web
    root, compressed while they are sent or stored compressed, and the 404 envelope. *)

From Stdlib Require Import ZArith Lia String Ascii List Bool.
From stdpp Require Import base tactics list gmap strings.
From S2P Require Import Prelude GoStrings GoPath Errs Metadata Middleware HttpCore HttpServer HttpFs.

Local Open Scope string_scope.
Local Open Scope list_scope.

(** [filepath.Ext] *)
Definition Ext (p : string) : string :=
  let base := match cutLastByte p slash with Some (_, b) => b | None => p end in
  match cutLastByte base "." with Some (_, e) => "." +:+ e | None => EmptyString end.

Definition assetsExtensions : list string :=
  [".css"; ".js"; ".png"; ".jpg"; ".jpeg"; ".gif"; ".svg"; ".ico"; ".woff"; ".woff2"; ".ttf"; ".eot"; ".otf"].

Section Static.

Context {Claims D Env F : Type} {H : GinHost Claims D Env}.
Notation State := (HttpCore.State Claims Env).
Notation Gin := (HttpCore.Gin Claims Env).

Variable fsOpen : string -> result error F.
Variable fileStat : F -> result error httpFileInfo.
Variable ErrPermission : error.
(** [http.ServeContent] of a file, through the gzip writer or not. *)
Variable ServeContent : bool -> httpFile (F := F) -> string -> Gin -> Gin.
Variable autoCompress : bool.
Variable webroot : option filesystem.

Definition acceptsGzip (g : Gin) : bool := Contains (headerGet (gReqHeader g) "Accept-Encoding") "gzip".

Definition shouldCompress (g : Gin) : bool :=
  if negb autoCompress then false
  else if negb (acceptsGzip g) || Contains (headerGet (gReqHeader g) "Connection") "Upgrade" then false
  else existsb (String.eqb (Ext (gPath g))) assetsExtensions.

Definition header (k v : string) (g : Gin) : Gin := setRespHeader (headerSet (gRespHeader g) k v) g.

(** How a file is sent: as it is, announced as gzip because it is stored so, or
    through a gzip writer. *)
Inductive sending : Type := Plain | Stored | Compressed.

Definition encode (g : Gin) (fi : httpFileInfo) (preCompressed : bool) : sending :=
  if fiIsDir fi then Plain
  else if preCompressed && acceptsGzip g then Stored
  else if negb preCompressed && shouldCompress g && (8192 <? fiSize fi)%Z then Compressed
  else Plain.

(** The headers of a compressed representation. *)
Definition useGzip (g : Gin) : Gin :=
  let g := header "Content-Encoding" "gzip" g in
  let g := setReqHeader (headerDel (gReqHeader g) "Range") g in
  let g := setRespHeader (headerAdd (gRespHeader g) "Vary" "Accept-Encoding") g in
  let originalEtag := headerGet (gReqHeader g) "ETag" in
  if negb (String.eqb originalEtag EmptyString) && negb (HasPrefix originalEtag "W/")
  then header "ETag" ("W/" +:+ originalEtag) g else g.

(** The request as [http.ServeContent] is given it. *)
Definition sendWith (how : sending) (g : Gin) : Gin :=
  match how with Plain => g | Stored | Compressed => useGzip g end.

Definition Base (p : string) : string :=
  match cutLastByte (TrimRightByte slash p) slash with
  | Some (_, b) => if String.eqb b EmptyString then "/" else b
  | None => if String.eqb p EmptyString then "." else if String.eqb (TrimRightByte slash p) EmptyString then "/" else TrimRightByte slash p
  end.

Definition staticHandle (s : State) (fp : httpFile) (preCompressed : bool) : State * bool :=
  match Stat fileStat fp with
  | Err _ => (s, false)
  | Ok fi =>
      let how := encode (world s) fi preCompressed in
      let uri := Clean (gPath (world s)) in
      let send g := ServeContent (match how with Compressed => true | _ => false end) fp (Base uri) (sendWith how g) in
      (onGin (fun g => halt (send g)) s, true)
  end.

Definition notFound (s : State) : State := ctxJSON 404 (Response.New CodeNotFound "Not Found" None) s.

(** [None]: the recursion of [Open] was deeper than its fuel. *)
Definition notFoundHandle (s : State) : option State :=
  match webroot with
  | Some fs =>
      if String.eqb (gMethod (world s)) "GET" then
        let uri := Clean (gPath (world s)) in
        let orNotFound r := let '(s, done) := r in if done : bool then s else notFound s in
        match Open fsOpen fileStat ErrPermission 2 fs uri with
        | None => None
        | Some (_, Ok fp) => Some (orNotFound (staticHandle s fp false))
        | Some (_, Err _) =>
            if acceptsGzip (world s) then
              match Open fsOpen fileStat ErrPermission 2 fs (uri +:+ ".gz") with
              | None => None
              | Some (_, Ok fp) => Some (orNotFound (staticHandle s fp true))
              | Some (_, Err _) => Some (notFound s)
              end
            else Some (notFound s)
        end
      else Some (notFound s)
  | None => Some (notFound s)
  end.

(** ** Lemmas *)

Lemma shouldCompress_accepts (g : Gin) : shouldCompress g = true -> acceptsGzip g = true.
Proof. unfold shouldCompress. destruct autoCompress, (acceptsGzip g); done. Qed.

Lemma useGzip_headers (g : Gin) :
  headerGet (gRespHeader (useGzip g)) "Content-Encoding" = "gzip" /\ headerGet (gReqHeader (useGzip g)) "Range" = EmptyString.
Proof.
  unfold useGzip, header. cbn [gReqHeader gRespHeader setReqHeader setRespHeader].
  assert (headerGet (headerDel (gReqHeader g) "Range") "Range" = EmptyString) as Hr.
  { unfold headerGet, headerDel. by rewrite lookup_delete_eq. }
  case_match; cbn [gReqHeader gRespHeader setReqHeader setRespHeader]; (split; [|exact Hr]);
    rewrite ?headerGet_headerSet, ?decide_False by done; rewrite headerGet_headerAdd by done; by rewrite headerGet_headerSet, decide_True.
Qed.

(** The weak ETag of a compressed response is made of a header of the request, not of
    the response: a client chooses it. *)
Lemma useGzip_reflects_etag (g : Gin) (etag : string) :
  headerGet (gReqHeader g) "ETag" = etag -> etag <> EmptyString -> HasPrefix etag "W/" = false ->
  headerGet (gRespHeader (useGzip g)) "ETag" = "W/" +:+ etag.
Proof.
  intros He Hne Hw. unfold useGzip, header. cbn [gReqHeader gRespHeader setReqHeader setRespHeader].
  assert (headerGet (headerDel (gReqHeader g) "Range") "ETag" = etag) as ->.
  { rewrite <- He. unfold headerGet, headerDel. by rewrite lookup_delete_ne. }
  rewrite (proj2 (String.eqb_neq _ _) Hne), Hw. cbn [negb andb gRespHeader setRespHeader].
  by rewrite headerGet_headerSet, decide_True.
Qed.

(** ** What a request without a route gets *)

(** One opened file: it is regular, and sent as [encode] says. *)
Lemma staticHandle_spec (s : State) (fs : filesystem) (name : string) opened (fp : httpFile) (pre : bool) :
  fsDenyDirectory fs = true -> Open fsOpen fileStat ErrPermission 2 fs name = Some (opened, Ok fp) ->
  (pre = true -> acceptsGzip (world s) = true) ->
  exists fi how s', Stat fileStat fp = Ok fi /\ fiIsDir fi = false /\ staticHandle s fp pre = (s', true)
    /\ world s' = halt (ServeContent (match how with Compressed => true | _ => false end) fp
                         (Base (Clean (gPath (world s)))) (sendWith how (world s)))
    /\ match how with
       | Plain => pre = false
       | Stored => pre = true
       | Compressed => pre = false /\ autoCompress = true /\ (8192 < fiSize fi)%Z
       end
    /\ (how <> Plain -> acceptsGzip (world s) = true
          /\ headerGet (gRespHeader (sendWith how (world s))) "Content-Encoding" = "gzip"
          /\ headerGet (gReqHeader (sendWith how (world s))) "Range" = EmptyString).
Proof.
  intros Hd Ho Hpre. destruct (Open_regular _ _ _ _ _ _ _ _ Hd Ho) as (fi & Hs & Hdir). exists fi, (encode (world s) fi pre).
  eexists. split; [done|]. split; [done|]. unfold staticHandle. rewrite Hs. split; [reflexivity|]. split; [reflexivity|].
  unfold encode. rewrite Hdir. destruct pre; cbn [andb negb].
  - rewrite (Hpre eq_refl). cbn. split; [done|]. intros _. split; [done|]. apply useGzip_headers.
  - destruct (shouldCompress (world s)) eqn:Ec; cbn [andb]; [|done]. destruct (Z.ltb_spec 8192 (fiSize fi)); [|done].
    split; [split; [done|split; [|done]]|].
    + revert Ec. unfold shouldCompress. by destruct autoCompress.
    + intros _. split; [by apply shouldCompress_accepts|]. apply useGzip_headers.
Qed.

(** A request without a route ends in exactly one of two ways: the 404 envelope, or a
    regular file found under its cleaned path.  A file stored compressed is sent only
    to a client that accepts gzip and after the plain one was not found; the content
    encoding gzip is announced exactly when the bytes are compressed, never to a client
    that does not accept it and never with a byte range. *)
Theorem static_or_not_found (s : State) :
  rooted (gPath (world s)) = true ->
  (forall fs, webroot = Some fs -> fsDenyDirectory fs = true /\ fsIndexFile fs = "/index.html"
              /\ (fsPrefix fs = EmptyString \/ exists ep, ep <> [] /\ rootedClean (fsPrefix fs) ep)) ->
  exists s', notFoundHandle s = Some s'
    /\ (s' = notFound s
        \/ exists fs opened fp fi how name,
             webroot = Some fs /\ gMethod (world s) = "GET"
             /\ (name = Clean (gPath (world s)) \/ name = Clean (gPath (world s)) +:+ ".gz")
             /\ Open fsOpen fileStat ErrPermission 2 fs name = Some (opened, Ok fp) /\ Stat fileStat fp = Ok fi
             /\ world s' = halt (ServeContent (match how with Compressed => true | _ => false end) fp
                                   (Base (Clean (gPath (world s)))) (sendWith how (world s)))
             /\ fiIsDir fi = false /\ (name = Clean (gPath (world s)) +:+ ".gz" -> how = Stored)
             /\ match how with
                | Plain => True
                | Stored => name = Clean (gPath (world s)) +:+ ".gz"
                | Compressed => name = Clean (gPath (world s)) /\ autoCompress = true /\ (8192 < fiSize fi)%Z
                end
             /\ (how <> Plain -> acceptsGzip (world s) = true
                   /\ headerGet (gRespHeader (sendWith how (world s))) "Content-Encoding" = "gzip"
                   /\ headerGet (gReqHeader (sendWith how (world s))) "Range" = EmptyString)).
Proof.
  intros Hr Hfs. unfold notFoundHandle. destruct webroot as [fs|]; [|by eauto].
  destruct (Hfs fs eq_refl) as (Hd & Hi & Hp). destruct (String.eqb_spec (gMethod (world s)) "GET") as [Hm|]; [|by eauto].
  destruct (Clean_rooted _ Hr) as [es Hc].
  assert (rooted (Clean (gPath (world s))) = true) as Hr1 by (apply rooted_spec; eexists; exact (proj1 Hc)).
  assert (rooted (Clean (gPath (world s)) +:+ ".gz") = true) as Hr2.
  { apply rooted_spec in Hr1 as [t Ht]. apply rooted_spec. rewrite Ht. by eexists. }
  destruct (Open_total fsOpen fileStat ErrPermission fs _ Hp Hi Hr1) as [[o1 [fp|e]] Ho1]; rewrite Ho1.
  - destruct (staticHandle_spec s fs _ o1 fp false Hd Ho1 ltac:(done)) as (fi & how & s' & Hs & Hdir & -> & Hw & Hhow & Hgz).
    exists s'. split; [done|]. right. exists fs, o1, fp, fi, how, (Clean (gPath (world s))).
    split; [done|]. split; [done|]. split; [by left|]. split; [done|]. split; [done|]. split; [done|]. split; [done|].
    split; [|split; [by destruct how; [|done|destruct Hhow as (_ & ? & ?)]|done]]. intros E. exfalso.
    apply (f_equal String.length) in E. rewrite length_append in E. cbn in E. lia.
  - destruct (acceptsGzip (world s)) eqn:Ea; [|by eauto].
    destruct (Open_total fsOpen fileStat ErrPermission fs _ Hp Hi Hr2) as [[o2 [fp|e2]] Ho2]; rewrite Ho2; [|by eauto].
    destruct (staticHandle_spec s fs _ o2 fp true Hd Ho2 ltac:(done)) as (fi & how & s' & Hs & Hdir & -> & Hw & Hhow & Hgz).
    exists s'. split; [done|]. right. exists fs, o2, fp, fi, how, (Clean (gPath (world s)) +:+ ".gz").
    split; [done|]. split; [done|]. split; [by right|]. split; [done|]. split; [done|]. split; [done|]. split; [done|].
    split; [by destruct how; [|done|destruct Hhow]|]. split; [by destruct how; [|done|destruct Hhow]|].
    intros Hn. destruct (Hgz Hn) as (? & ? & ?). done.
Qed.

End Static.

(** A web root with one large script, one stored compressed, and no directory. *)
Definition demoFiles (n : string) : result error string :=
  if existsb (String.eqb n) ["/a.js"; "/b.txt.gz"] then Ok n else Err (EPlain "file does not exist").
Definition demoFileStat (n : string) : result error httpFileInfo := Ok (mkInfo n 10000 0 false 0).
Definition demoRoot : filesystem := Webroot 3 EmptyString.
Definition demoServe (z : bool) (fp : httpFile (F := string)) (base : string) (g : Gin unit (list string)) : Gin unit (list string) :=
  onEnv (fun e => e ++ [hfFp fp; if z then "compressed" else "as it is"; headerGet (gRespHeader g) "Content-Encoding"]) g.
Definition demoGet (path accept : string) : HttpCore.State unit (list string) :=
  mkStore ∅ (mkGin "GET" path EmptyString (headerSet ∅ "Accept-Encoding" accept) (mkCtx None None) ∅
    (Response.mkRW EmptyString [] EmptyString) [] false []).
Definition demoNotFound (s : HttpCore.State unit (list string)) : option (list string * list Z) :=
  match notFoundHandle (H := HttpServer.demoHost) demoFiles demoFileStat (EPlain "denied") demoServe true (Some demoRoot) s with
  | Some s' => Some (gEnv (world s'), Response.headersWritten (writer s'))
  | None => None
  end.

Example static_runs :
  demoNotFound (demoGet "/x/../a.js" "gzip, br") = Some (["/a.js"; "compressed"; "gzip"], [])
  /\ demoNotFound (demoGet "/a.js" "br") = Some (["/a.js"; "as it is"; EmptyString], [])
  /\ demoNotFound (demoGet "/b.txt" "gzip") = Some (["/b.txt.gz"; "as it is"; "gzip"], [])
  /\ demoNotFound (demoGet "/b.txt" EmptyString) = Some ([], [404%Z]).
Proof. by vm_compute. Qed.

Lemma static_or_not_found_witness :
  rooted "/b.txt" = true
  /\ exists s', notFoundHandle (H := HttpServer.demoHost) demoFiles demoFileStat (EPlain "denied") demoServe true (Some demoRoot)
                  (demoGet "/b.txt" "gzip") = Some s'.
Proof.
  split; [reflexivity|].
  destruct (static_or_not_found (H := HttpServer.demoHost) demoFiles demoFileStat (EPlain "denied") demoServe true (Some demoRoot)
              (demoGet "/b.txt" "gzip")) as (s' & Hs & _).
  - reflexivity.
  - intros fs [= <-]. split; [reflexivity|]. split; [reflexivity|]. left. reflexivity.
  - exists s'. exact Hs.
Defined.
