(* ===== verification/HttpClient.v ===== *)
(** [pkg/httpclient/client.go], [auth.go]: the client, the objects of net/http it owns or
    shares, and the execution of one request between its interceptors.

    An [*http.Client], an [*http.Transport] and a [*tls.Config] are shared by pointer, so
    they live in a heap; a [Client] is changed by its own setters only. *)

From Stdlib Require Import ZArith Lia String Ascii List Bool.
From stdpp Require Import base tactics list gmap strings.
From S2P Require Import Prelude GoStrings Errs HttpCore.

Local Open Scope string_scope.
Local Open Scope list_scope.

(** ** base64.StdEncoding *)

Definition base64Digit (n : Z) : ascii :=
  ascii_of_N (Z.to_N (if n <? 26 then 65 + n else if n <? 52 then 71 + n else if n <? 62 then n - 4 else if n =? 62 then 43 else 47))%Z.

Definition byteZ (a : ascii) : Z := Z.of_N (N_of_ascii a).
Definition digitAt (z shift : Z) : ascii := base64Digit (Z.land (Z.shiftr z shift) 63).

Fixpoint EncodeToString (s : string) : string :=
  match s with
  | EmptyString => EmptyString
  | String a EmptyString =>
      let z := Z.shiftl (byteZ a) 16 in String (digitAt z 18) (String (digitAt z 12) "==")
  | String a (String b EmptyString) =>
      let z := Z.lor (Z.shiftl (byteZ a) 16) (Z.shiftl (byteZ b) 8) in
      String (digitAt z 18) (String (digitAt z 12) (String (digitAt z 6) "="))
  | String a (String b (String c s)) =>
      let z := Z.lor (Z.shiftl (byteZ a) 16) (Z.lor (Z.shiftl (byteZ b) 8) (byteZ c)) in
      String (digitAt z 18) (String (digitAt z 12) (String (digitAt z 6) (String (digitAt z 0) (EncodeToString s))))
  end.

(** ** auth.go *)

Record BasicAuth : Type := mkBasicAuth { Username : string; Password : string }.
Record BearerAuth : Type := mkBearerAuth { AccessToken : string }.

Definition BasicAuth_Token (auth : BasicAuth) : string :=
  "Basic " +:+ EncodeToString (Username auth +:+ ":" +:+ Password auth).
Definition BearerAuth_Token (auth : BearerAuth) : string := "Bearer " +:+ AccessToken auth.

(** ** The objects behind pointers *)

Inductive RoundTripper : Type :=
| RTNil
| RTTransport (l : nat)       (* a *http.Transport *)
| RTCustom (n : nat).         (* another implementation *)

Record goClient : Type := mkGoClient { gcTransport : RoundTripper; gcJar : option nat; gcTimeout : Z }.

Record Heap : Type := mkHeap {
  hClients : gmap nat goClient;
  hTransports : gmap nat (option nat);    (* TLSClientConfig *)
  hTLS : gmap nat bool;                   (* InsecureSkipVerify *)
  hNext : nat;                            (* no object is there yet from here on *)
}.

Definition setClients (m : gmap nat goClient) (h : Heap) : Heap := mkHeap m (hTransports h) (hTLS h) (hNext h).

(** The package variable [DefaultClient] and its initial value. *)
Definition DefaultClient : nat := 0.
Definition initHeap : Heap :=
  mkHeap {[ DefaultClient := mkGoClient (RTTransport 1) None 30000000000 ]} {[ 1 := Some 2 ]} {[ 2 := false ]} 3.

(** [new] of each kind. *)
Definition allocClient (o : goClient) (h : Heap) : Heap * nat :=
  (mkHeap (<[hNext h := o]> (hClients h)) (hTransports h) (hTLS h) (S (hNext h)), hNext h).
Definition allocTransport (o : option nat) (h : Heap) : Heap * nat :=
  (mkHeap (hClients h) (<[hNext h := o]> (hTransports h)) (hTLS h) (S (hNext h)), hNext h).
Definition allocTLS (o : bool) (h : Heap) : Heap * nat :=
  (mkHeap (hClients h) (hTransports h) (<[hNext h := o]> (hTLS h)) (S (hNext h)), hNext h).
Definition allocJar (h : Heap) : Heap * nat := (mkHeap (hClients h) (hTransports h) (hTLS h) (S (hNext h)), hNext h).

(** [Transport.Clone]: a new transport with a clone of the TLS configuration; [None] is a
    nil dereference. *)
Definition Clone (l : nat) (h : Heap) : option (Heap * nat) :=
  match hTransports h !! l with
  | None => None
  | Some None => Some (allocTransport None h)
  | Some (Some c) =>
      match hTLS h !! c with
      | None => None
      | Some insecure => let '(h, c) := allocTLS insecure h in Some (allocTransport (Some c) h)
      end
  end.

Definition cloneDefaultClient (h : Heap) : option (Heap * nat) :=
  match hClients h !! DefaultClient with
  | None => None
  | Some d =>
      match gcTransport d with
      | RTTransport l =>
          match Clone l h with
          | None => None
          | Some (h, t) => Some (allocClient (mkGoClient (RTTransport t) None (gcTimeout d)) h)
          end
      | rt => Some (allocClient (mkGoClient rt None (gcTimeout d)) h)
      end
  end.

(** The objects of a heap are below its next location, and no transport or
    configuration is missing. *)
Definition heapOk (h : Heap) : Prop :=
  (forall l, hNext h <= l -> hClients h !! l = None /\ hTransports h !! l = None /\ hTLS h !! l = None) /\
  (forall l o, hClients h !! l = Some o -> match gcTransport o with RTTransport t => is_Some (hTransports h !! t) | _ => True end) /\
  (forall l c, hTransports h !! l = Some (Some c) -> is_Some (hTLS h !! c)) /\
  is_Some (hClients h !! DefaultClient).

(** The cases of a lookup after an insertion. *)
Ltac inserted :=
  cbn; split_and?;
  repeat match goal with
  | |- context [<[_ := _]> _ !! _] => rewrite lookup_insert
  | H : context [<[_ := _]> _ !! _] |- _ => rewrite lookup_insert in H
  end; repeat case_decide; subst; simplify_eq/=; try done; try lia.

(** ** client.go *)

Section Client.

(** Contexts; the rest of the world, with the network; the bodies of responses. *)
Context {Ctx W B : Type}.

Record RawRequest : Type := mkRaw {
  rMethod : string; rURL : string; rHeader : Header; rBody : option string; rCtx : option Ctx;
}.

Record Response : Type := mkResponse {
  Status : string; StatusCode : Z; rsHeader : Header; rsURL : string; rsBody : B;
}.

(** Callbacks may change the request and the response through their pointers. *)
Definition BeforeRequest : Type := nat -> RawRequest -> W -> W * RawRequest * option error.
Definition AfterRequest : Type := nat -> RawRequest -> Response -> W -> W * RawRequest * Response * option error.
Definition Authorization : Type := W -> W * string.

Record Client : Type := mkClient {
  baseURL : string;
  cAuthorization : option Authorization;
  cClient : nat;
  cookieJar : option nat;
  interceptorRequest : list BeforeRequest;
  interceptorResponse : list AfterRequest;
  tracer : option (Ctx -> Header -> Header);
}.

Definition stashURI (client : Client) (urlPath : string) : string :=
  match urlPath with
  | EmptyString => baseURL client
  | String a _ =>
      if negb (Contains urlPath "//") && negb (String.eqb (baseURL client) EmptyString)
      then baseURL client +:+ (if Ascii.eqb a "/" then urlPath else "/" +:+ urlPath)
      else urlPath
  end.

Definition addBeforeRequest (cb : BeforeRequest) (c : Client) : Client :=
  mkClient (baseURL c) (cAuthorization c) (cClient c) (cookieJar c) (interceptorRequest c ++ [cb]) (interceptorResponse c) (tracer c).
Definition addAfterRequest (cb : AfterRequest) (c : Client) : Client :=
  mkClient (baseURL c) (cAuthorization c) (cClient c) (cookieJar c) (interceptorRequest c) (interceptorResponse c ++ [cb]) (tracer c).
Definition SetBaseURL (s : string) (c : Client) : Client :=
  mkClient (TrimSuffix s "/") (cAuthorization c) (cClient c) (cookieJar c) (interceptorRequest c) (interceptorResponse c) (tracer c).
Definition SetTracer (t : Ctx -> Header -> Header) (c : Client) : Client :=
  mkClient (baseURL c) (cAuthorization c) (cClient c) (cookieJar c) (interceptorRequest c) (interceptorResponse c) (Some t).

(** The fields of an [*http.Client]; a nil pointer panics. *)
Definition setJar (l : nat) (jar : option nat) (h : Heap) : option Heap :=
  match hClients h !! l with
  | None => None
  | Some o => Some (setClients (<[l := mkGoClient (gcTransport o) jar (gcTimeout o)]> (hClients h)) h)
  end.
Definition setTransport (l : nat) (rt : RoundTripper) (h : Heap) : option Heap :=
  match hClients h !! l with
  | None => None
  | Some o => Some (setClients (<[l := mkGoClient rt (gcJar o) (gcTimeout o)]> (hClients h)) h)
  end.

Definition withClient (l : nat) (jar : option nat) (c : Client) : Client :=
  mkClient (baseURL c) (cAuthorization c) l jar (interceptorRequest c) (interceptorResponse c) (tracer c).

Definition SetCookieJar (jar : option nat) (c : Client) (h : Heap) : option (Client * Heap) :=
  match setJar (cClient c) jar h with
  | None => None
  | Some h => Some (withClient (cClient c) jar c, h)
  end.

Definition SetClient (httpClient : nat) (c : Client) (h : Heap) : option (Client * Heap) :=
  let c := withClient httpClient (cookieJar c) c in
  match cookieJar c with
  | None => Some (c, h)
  | Some jar => match setJar httpClient (Some jar) h with None => None | Some h => Some (c, h) end
  end.

Definition SetTransport (rt : RoundTripper) (c : Client) (h : Heap) : option (Client * Heap) :=
  match setTransport (cClient c) rt h with
  | None => None
  | Some h => Some (c, h)
  end.

Definition New (h : Heap) : option (Client * Heap) :=
  match cloneDefaultClient h with
  | None => None
  | Some (h, httpClient) =>
      let '(h, jar) := allocJar h in
      match setJar httpClient (Some jar) h with
      | None => None
      | Some h => Some (mkClient EmptyString None httpClient (Some jar) [] [] None, h)
      end
  end.

(** A relative path is put below the base address, with one slash between them. *)
Lemma stashURI_joins (c : Client) (s path : string) :
  let c := SetBaseURL s c in
  baseURL c <> EmptyString -> Contains ("/" +:+ path) "//" = false ->
  stashURI c ("/" +:+ path) = TrimSuffix s "/" +:+ "/" +:+ path /\
  (path <> EmptyString -> HasPrefix path "/" = false -> stashURI c path = TrimSuffix s "/" +:+ "/" +:+ path).
Proof.
  intros c' Hb Hc. assert (Contains path "//" = false) as Hc'.
  { cbn [String.append] in Hc. cbn [Contains] in Hc. by apply orb_false_iff in Hc as [_ Hc]. }
  unfold stashURI. rewrite (proj2 (String.eqb_neq _ _) Hb). split.
  - rewrite Hc. done.
  - intros Hne Hp. destruct path as [|a path]; [done|]. rewrite Hc'. cbn [negb andb].
    destruct (Ascii.eqb_spec a "/") as [->|_]; [by cbn in Hp|done].
Qed.

(** ** Whose objects they are *)

Definition sameBelow (n : nat) (h h' : Heap) : Prop :=
  forall l, l < n -> hClients h' !! l = hClients h !! l /\ hTransports h' !! l = hTransports h !! l /\ hTLS h' !! l = hTLS h !! l.

(** A step that allocates: the heap stays well formed and what was there stays. *)
Definition heapGrows (h h' : Heap) : Prop := heapOk h' /\ hNext h <= hNext h' /\ sameBelow (hNext h) h h'.

Lemma heapGrows_refl (h : Heap) : heapOk h -> heapGrows h h.
Proof. intros H. by split. Qed.

Lemma heapGrows_trans (h1 h2 h3 : Heap) : heapGrows h1 h2 -> heapGrows h2 h3 -> heapGrows h1 h3.
Proof.
  intros (_ & Hn & Hs) (Hok & Hn' & Hs'). split; [done|]. split; [lia|]. intros l Hl.
  destruct (Hs l Hl) as (<- & <- & <-). apply Hs'. lia.
Qed.

Lemma allocTLS_heapGrows (b : bool) (h : Heap) : heapOk h -> heapGrows h (fst (allocTLS b h)).
Proof.
  intros (Hfree & Htr & Htls & Hd). split; [split; [|split; [|split]]|split]; cbn; [| | |done|lia|].
  - intros l Hl. destruct (Hfree l) as (? & ? & ?); [lia|]. inserted.
  - done.
  - intros l c Hc. specialize (Htls _ _ Hc). inserted.
  - intros l Hl. inserted.
Qed.

Lemma allocTransport_heapGrows (o : option nat) (h : Heap) :
  heapOk h -> (forall c, o = Some c -> is_Some (hTLS h !! c)) -> heapGrows h (fst (allocTransport o h)).
Proof.
  intros (Hfree & Htr & Htls & Hd) Ho. split; [split; [|split; [|split]]|split]; cbn; [| | |done|lia|].
  - intros l Hl. destruct (Hfree l) as (? & ? & ?); [lia|]. inserted.
  - intros l x Hx. specialize (Htr l x Hx). destruct (gcTransport x); [done| |done]. inserted.
  - intros l c Hc. inserted; eauto.
  - intros l Hl. inserted.
Qed.

Lemma allocClient_heapGrows (o : goClient) (h : Heap) :
  heapOk h -> match gcTransport o with RTTransport t => is_Some (hTransports h !! t) | _ => True end -> heapGrows h (fst (allocClient o h)).
Proof.
  intros (Hfree & Htr & Htls & Hd) Ho. split; [split; [|split; [|split]]|split]; cbn; [| |done| |lia|].
  - intros l Hl. destruct (Hfree l) as (? & ? & ?); [lia|]. inserted.
  - intros l x Hx. inserted. by eapply Htr.
  - inserted.
  - intros l Hl. inserted.
Qed.

Lemma allocJar_heapGrows (h : Heap) : heapOk h -> heapGrows h (fst (allocJar h)).
Proof.
  intros (Hfree & Htr & Htls & Hd). split; [split; [|split; [|split]]|split]; cbn; [|done|done|done|lia|done].
  intros l Hl. apply Hfree. lia.
Qed.

(** An object is changed, but for its transport. *)
Lemma setJar_ok (l : nat) (jar : option nat) (h h' : Heap) :
  heapOk h -> setJar l jar h = Some h' ->
  heapOk h' /\ hNext h' = hNext h /\ hTransports h' = hTransports h /\ hTLS h' = hTLS h /\
  forall k, k <> l -> hClients h' !! k = hClients h !! k.
Proof.
  intros (Hfree & Htr & Htls & Hd) E. unfold setJar in E. destruct (hClients h !! l) as [o|] eqn:El; [|done].
  injection E as <-. cbn. split; [|repeat (split; [done|]); intros k Hk; inserted]. split; [|split; [|split]]; cbn.
  - intros k Hk. destruct (Hfree k Hk) as (Hk1 & ? & ?). inserted.
  - intros k x Hx. inserted; [|by eapply Htr]. by apply (Htr _ _ El).
  - done.
  - inserted.
Qed.

(** The transport of an [*http.Client], with its configuration, is at [n] or above. *)
Definition ownsAbove (n : nat) (h : Heap) (l : nat) : Prop :=
  exists o, hClients h !! l = Some o /\
  match gcTransport o with
  | RTTransport t => n <= t /\ forall k, hTransports h !! t = Some (Some k) -> n <= k
  | _ => True
  end.

Lemma cloneDefaultClient_spec (h : Heap) :
  heapOk h ->
  exists h' l, cloneDefaultClient h = Some (h', l) /\ heapGrows h h' /\ hNext h <= l < hNext h' /\ ownsAbove (hNext h) h' l.
Proof.
  intros Hok. pose proof Hok as (_ & Htr & Htls & [d Hd]). unfold cloneDefaultClient. rewrite Hd. specialize (Htr _ _ Hd).
  assert (forall rt, match rt with RTTransport t => False | _ => True end ->
            let o := mkGoClient rt None (gcTimeout d) in
            heapGrows h (fst (allocClient o h)) /\ ownsAbove (hNext h) (fst (allocClient o h)) (hNext h)) as Hother.
  { intros rt Hrt. split; [apply allocClient_heapGrows; [done|by destruct rt]|]. eexists. cbn. rewrite lookup_insert_eq. split; [done|by destruct rt]. }
  destruct (gcTransport d) as [|t|n].
  1, 3: eexists _, _; split; [reflexivity|]; split; [by apply Hother|]; split; [cbn; lia|by apply Hother].
  unfold Clone. destruct Htr as [[c|] Ho]; rewrite Ho.
  - destruct (Htls _ _ Ho) as [b Hb]. rewrite Hb.
    pose proof (allocTLS_heapGrows b h Hok) as G1.
    pose proof (allocTransport_heapGrows (Some (hNext h)) (fst (allocTLS b h)) (proj1 G1)) as G2.
    pose proof (allocClient_heapGrows (mkGoClient (RTTransport (S (hNext h))) None (gcTimeout d)) _ (proj1 (G2 ltac:(intros k [= <-]; cbn; rewrite lookup_insert_eq; by eexists)))) as G3.
    eexists _, _. split; [reflexivity|]. split; [|split; [cbn; lia|]].
    + eapply heapGrows_trans; [exact G1|]. eapply heapGrows_trans; [apply G2|apply G3].
      * intros k [= <-]. cbn. rewrite lookup_insert_eq. by eexists.
      * cbn. rewrite lookup_insert_eq. by eexists.
    + eexists. cbn. rewrite lookup_insert_eq. split; [done|]. split; [lia|]. cbn. rewrite lookup_insert_eq. intros k [= <-]. lia.
  - pose proof (allocTransport_heapGrows None h Hok ltac:(done)) as G2.
    pose proof (allocClient_heapGrows (mkGoClient (RTTransport (hNext h)) None (gcTimeout d)) _ (proj1 G2)) as G3.
    eexists _, _. split; [reflexivity|]. split; [|split; [cbn; lia|]].
    + eapply heapGrows_trans; [exact G2|apply G3]. cbn. rewrite lookup_insert_eq. by eexists.
    + eexists. cbn. rewrite lookup_insert_eq. split; [done|]. split; [lia|]. cbn. rewrite lookup_insert_eq. by intros k [=].
Qed.

(** A new client has objects of its own and leaves every other object as it is. *)
Lemma New_spec (h : Heap) :
  heapOk h ->
  exists c h', New h = Some (c, h') /\ heapOk h' /\ hNext h <= hNext h' /\ sameBelow (hNext h) h h' /\
  hNext h <= cClient c < hNext h' /\ ownsAbove (hNext h) h' (cClient c).
Proof.
  intros Hok. destruct (cloneDefaultClient_spec h Hok) as (h1 & l & Hc & G & Hl & o & Ho & Hown). unfold New. rewrite Hc.
  pose proof (heapGrows_trans _ _ _ G (allocJar_heapGrows h1 (proj1 G))) as (Hok2 & Hn2 & Hs2). cbn [allocJar fst] in Hok2, Hn2, Hs2. cbn [allocJar].
  destruct (setJar l _ _) as [h2|] eqn:Ej; [|unfold setJar in Ej; cbn in Ej; by rewrite Ho in Ej].
  pose proof (setJar_ok _ _ _ _ Hok2 Ej) as (Hok3 & Hn3 & Ht3 & Htls3 & Hsame). cbn in *.
  eexists _, _. split; [reflexivity|]. cbn. rewrite Hn3. split; [done|]. split; [lia|]. split; [|split; [lia|]].
  - intros k Hk. destruct (Hs2 k Hk) as (<- & <- & <-). rewrite Ht3, Htls3, Hsame by lia. done.
  - unfold setJar in Ej. cbn in Ej. rewrite Ho in Ej. injection Ej as <-. eexists. cbn. rewrite lookup_insert_eq. split; [done|]. exact Hown.
Qed.

(** The setters that reach the objects of a client. *)
Inductive setter : Type :=
| OpCookieJar (jar : option nat)
| OpClient (l : nat)
| OpTransport (rt : RoundTripper).

Definition applySetter (op : setter) (c : Client) (h : Heap) : option (Client * Heap) :=
  match op with
  | OpCookieJar jar => SetCookieJar jar c h
  | OpClient l => SetClient l c h
  | OpTransport rt => SetTransport rt c h
  end.

Fixpoint applySetters (ops : list setter) (c : Client) (h : Heap) : option (Client * Heap) :=
  match ops with
  | [] => Some (c, h)
  | op :: ops => match applySetter op c h with None => None | Some (c, h) => applySetters ops c h end
  end.

(** A setter writes to the client's own object, or to the one it is given. *)
Lemma applySetter_frame (op : setter) (c c' : Client) (h h' : Heap) :
  applySetter op c h = Some (c', h') ->
  cClient c' = match op with OpClient l => l | _ => cClient c end /\
  hTransports h' = hTransports h /\ hTLS h' = hTLS h /\
  forall l, l <> cClient c' -> hClients h' !! l = hClients h !! l.
Proof.
  unfold applySetter, SetCookieJar, SetClient, SetTransport, setTransport, setJar. intros E.
  destruct op as [jar|l|rt]; [|cbn in E; destruct (cookieJar c)|]; repeat case_match; simplify_eq/=; split_and?; try done;
    intros k Hk; rewrite ?lookup_insert_ne by congruence; done.
Qed.

Lemma applySetters_frame (ops : list setter) (c c' : Client) (h h' : Heap) (l : nat) :
  applySetters ops c h = Some (c', h') -> cClient c <> l -> ~ In (OpClient l) ops ->
  hClients h' !! l = hClients h !! l /\ hTransports h' = hTransports h /\ hTLS h' = hTLS h.
Proof.
  revert c h. induction ops as [|op ops IH]; intros c h E Hc Hin; cbn [applySetters] in E; [by injection E as -> ->|].
  destruct (applySetter op c h) as [[c1 h1]|] eqn:E1; [|done]. apply applySetter_frame in E1 as (Hc1 & Ht & Htls & Hf).
  assert (cClient c1 <> l) as Hne. { rewrite Hc1. destruct op; [done| |done]. intros ->. apply Hin. by left. }
  destruct (IH c1 h1 E Hne) as (-> & -> & ->); [intros Hi; apply Hin; by right|]. rewrite Hf by done. done.
Qed.

(** Two clients of [New] are independent: whatever setters run on one, and whatever
    client of net/http it is given (not the other's, nor the default one), the objects of
    the other and of the package stay as they were. *)
Theorem clients_independent (h h1 h2 h3 : Heap) (a b a' : Client) (ops : list setter) :
  heapOk h -> New h = Some (a, h1) -> New h1 = Some (b, h2) ->
  ~ In (OpClient (cClient b)) ops -> ~ In (OpClient DefaultClient) ops ->
  applySetters ops a h2 = Some (a', h3) ->
  cClient a <> cClient b /\
  hClients h3 !! cClient b = hClients h2 !! cClient b /\
  hClients h3 !! DefaultClient = hClients h !! DefaultClient /\
  (forall t, t < hNext h -> hTransports h3 !! t = hTransports h !! t /\ hTLS h3 !! t = hTLS h !! t) /\
  ownsAbove (hNext h1) h3 (cClient b).
Proof.
  intros Hok Ea Eb Hb Hd Eops.
  destruct (New_spec h Hok) as (x & y & Ex & Hok1 & Hn1 & Hs1 & Ha & Hown1). rewrite Ea in Ex. injection Ex as <- <-.
  destruct (New_spec h1 Hok1) as (x & y & Ex & Hok2 & Hn2 & Hs2 & Hb' & Hown2). rewrite Eb in Ex. injection Ex as <- <-.
  assert (DefaultClient < hNext h) as Hdef.
  { destruct Hok as (Hfree & _ & _ & [d Hd']). destruct (le_lt_dec (hNext h) DefaultClient) as [Hle|]; [|done].
    destruct (Hfree _ Hle) as (Hnone & _). rewrite Hd' in Hnone. done. }
  assert (cClient a <> cClient b) as Hne by lia. assert (cClient a <> DefaultClient) as Hne' by lia.
  destruct (applySetters_frame _ _ _ _ _ _ Eops Hne Hb) as (Hfb & Ht & Htls).
  destruct (applySetters_frame _ _ _ _ _ _ Eops Hne' Hd) as (Hfd & _ & _).
  split; [done|]. split; [done|]. split; [|split].
  - rewrite Hfd. destruct (Hs2 DefaultClient) as (-> & _); [lia|]. by destruct (Hs1 DefaultClient Hdef) as (-> & _).
  - intros t Hlt. rewrite Ht, Htls. destruct (Hs2 t) as (_ & -> & ->); [lia|]. by destruct (Hs1 t Hlt) as (_ & -> & ->).
  - destruct Hown2 as (o & Ho & Hown). exists o. rewrite Hfb. split; [done|]. by rewrite Ht.
Qed.

End Client.

Lemma initHeap_ok : heapOk initHeap.
Proof.
  split; [|split; [|split; [|by eexists]]].
  - intros l Hl. change (3 <= l) in Hl. unfold initHeap, DefaultClient. cbn [hClients hTransports hTLS]. split_and!; apply lookup_singleton_ne; lia.
  - intros l o Ho. cbn [initHeap hClients] in Ho. apply lookup_singleton_Some in Ho as [_ <-]. by eexists.
  - intros l c Hc. cbn [initHeap hTransports] in Hc. apply lookup_singleton_Some in Hc as [_ [= <-]]. by eexists.
Qed.

(** Two clients, and on the first no jar, another transport and another client. *)
Definition demoClient : Type := @Client unit unit unit.
Definition demoNew (h : Heap) : demoClient * Heap := default (mkClient EmptyString None 0 None [] [] None, h) (New h).
Definition demoA : demoClient * Heap := demoNew initHeap.
Definition demoB : demoClient * Heap := demoNew (snd demoA).
Definition demoOps : list setter := [OpCookieJar None; OpTransport (RTCustom 7); OpClient (cClient (fst demoA))].
Definition demoEnd : demoClient * Heap := default demoB (applySetters demoOps (fst demoA) (snd demoB)).

Example clients_independent_witness :
  hClients (snd demoEnd) !! cClient (fst demoA) = Some (mkGoClient (RTCustom 7) None 30000000000) /\
  hClients (snd demoEnd) !! cClient (fst demoB) = hClients (snd demoB) !! cClient (fst demoB) /\
  hClients (snd demoEnd) !! DefaultClient = hClients initHeap !! DefaultClient.
Proof.
  split; [vm_compute; reflexivity|].
  destruct (clients_independent initHeap (snd demoA) (snd demoB) (snd demoEnd) (fst demoA) (fst demoB) (fst demoEnd) demoOps) as (_ & Hb & Hd & _).
  - apply initHeap_ok.
  - vm_compute. reflexivity.
  - vm_compute. reflexivity.
  - vm_compute. intuition congruence.
  - vm_compute. intuition congruence.
  - vm_compute. reflexivity.
  - split; [exact Hb|exact Hd].
Defined.
