(* ===== verification/HttpRequest.v ===== *)
(** [pkg/httpclient/request.go], [codec.go] and the execution of a request in
    [client.go]: what is sent, in which order the callbacks run, what becomes of the
    response and of its body. *)

From Stdlib Require Import ZArith Lia String Ascii List Bool.
From stdpp Require Import base tactics list gmap strings pretty.
From S2P Require Import Prelude GoStrings GoPath GoUrl GoRegexp Errs HttpCore HttpClient.

Local Open Scope string_scope.
Local Open Scope list_scope.

Definition JSON : string := "application/json".
Definition XML : string := "application/xml".
Definition plainTextType : string := "text/plain; charset=utf-8".
Definition jsonContentType : string := "application/json".
Definition formContentType : string := "application/x-www-form-urlencoded".
Definition maxErrorBodySize : Z := 65536.

Definition textOrApplication : re := Alt (foldLit "application") (foldLit "text").

(** The pattern of the JSON types: json, any suffix +json, any prefix json-. *)
Definition jsonCheck : re :=
  somewhereThenEnd
    (Seq textOrApplication (Seq (foldLit "/")
      (Alt (foldLit "json") (Alt (Seq dotStar (foldLit "+json")) (Seq (foldLit "json-") dotStar))))).
(** The pattern of the XML types: xml, any suffix +xml. *)
Definition xmlCheck : re :=
  somewhereThenEnd
    (Seq textOrApplication (Seq (foldLit "/") (Alt (foldLit "xml") (Seq dotStar (foldLit "+xml"))))).

Example jsonCheck_runs :
  map (matches jsonCheck) ["application/json"; "Text/Vnd.api+JSON; charset=utf-8"; "application/json-patch"; "application/jsonp"; "application/xml"]
  = [true; true; true; false; false].
Proof. vm_compute. reflexivity. Qed.

(** The kind of a value behind at most one pointer; [None] behind a nil one. *)
Inductive Kind : Type := KStruct | KMap | KSlice | KString | KOther.
#[export] Instance Kind_eq_dec : EqDecision Kind.
Proof. solve_decision. Defined.

Section Request.

Context {Ctx W B : Type}.

(** [net/url]: a parsed URL, its query and its text. *)
Class NetUrl : Type := {
  URL : Type;
  Parse : string -> result error URL;
  RawQuery : URL -> string;
  setRawQuery : string -> URL -> URL;
  URLString : URL -> string;
}.

(** The text of a URL with an encoded query is parsed to that query. *)
Class NetUrlLaws (N : NetUrl) : Prop :=
  Parse_render : forall m u u', Parse (URLString (setRawQuery (Encode m) u)) = Ok u' -> RawQuery u' = Encode m.

(** A value given as a body, by the assertions the code makes on it. *)
Context {V : Type}.
Inductive Body : Type :=
| BString (s : string)
| BBytes (b : string)
| BReader (k : option Kind) (content : string)
| BValue (k : option Kind) (v : V).

Definition bodyKind (b : Body) : option Kind :=
  match b with
  | BString _ => Some KString
  | BBytes _ => Some KSlice
  | BReader k _ | BValue k _ => k
  end.

(** encoding/json, encoding/xml, [http.DetectContentType], [%T] of a value. *)
Variables jsonMarshal xmlMarshal : Body -> result error string.
Variable DetectContentType : string -> string.
Variable typeName : Body -> string.

Definition detectContentType (body : option Body) : string :=
  match body with
  | None => EmptyString
  | Some b =>
      match bodyKind b with
      | None => EmptyString
      | Some KStruct | Some KMap => jsonContentType
      | Some KString => plainTextType
      | Some k =>
          match b with
          | BBytes s => DetectContentType s
          | _ => if decide (k = KSlice) then jsonContentType else plainTextType
          end
      end
  end.

(** The reader of a text, nil when there is none. *)
Definition readerOf (s : string) : option string := if String.eqb s EmptyString then None else Some s.
Definition marshalled (m : result error string) : result error (option string) := rbind m (fun s => Ok (readerOf s)).

Definition errUnsupportedBody (contentType : string) (b : Body) : error :=
  EPlain ("unsupported content type " +:+ contentType +:+ " for body type " +:+ typeName b).

(** [None]: the kind of a nil pointer is asked for, a panic. *)
Definition readRequestBody (contentType : string) (b : Body) : option (result error (option string)) :=
  match b with
  | BReader _ content => Some (Ok (Some content))
  | BBytes s | BString s => Some (Ok (readerOf s))
  | BValue None _ => None
  | BValue (Some kind) _ =>
      if matches jsonCheck contentType && bool_decide (kind = KStruct \/ kind = KMap \/ kind = KSlice)
      then Some (marshalled (jsonMarshal b))
      else if matches xmlCheck contentType && bool_decide (kind = KStruct)
           then Some (marshalled (xmlMarshal b))
           else Some (Err (errUnsupportedBody contentType b))
  end.

Context `{N : NetUrl}.

Record Request : Type := mkRequest {
  context : option Ctx;
  method : string;
  uri : string;
  url : option URL;
  body : option Body;
  query : gmap string (list string);
  formData : gmap string (list string);
  header : option Header;
  contentType : string;
}.

Variable Background : Ctx.

Definition newRequest (method uri : string) : Request :=
  match Parse uri with
  | Ok u => mkRequest (Some Background) method uri (Some u) None (ParseQuery (RawQuery u)) ∅ (Some ∅) EmptyString
  | Err _ => mkRequest (Some Background) method uri None None ∅ ∅ (Some ∅) EmptyString
  end.

(** The methods of a client. *)
Definition Get (c : @Client Ctx W B) (urlPath : string) : Request := newRequest "GET" (stashURI c urlPath).
Definition Put (c : @Client Ctx W B) (urlPath : string) : Request := newRequest "PUT" (stashURI c urlPath).
Definition Post (c : @Client Ctx W B) (urlPath : string) : Request := newRequest "POST" (stashURI c urlPath).
Definition Delete (c : @Client Ctx W B) (urlPath : string) : Request := newRequest "DELETE" (stashURI c urlPath).

Definition setQuery (q : gmap string (list string)) (r : Request) : Request :=
  mkRequest (context r) (method r) (uri r) (url r) (body r) q (formData r) (header r) (contentType r).
Definition setForm (f : gmap string (list string)) (r : Request) : Request :=
  mkRequest (context r) (method r) (uri r) (url r) (body r) (query r) f (header r) formContentType.

Definition SetContext (ctx : option Ctx) (r : Request) : Request :=
  mkRequest ctx (method r) (uri r) (url r) (body r) (query r) (formData r) (header r) (contentType r).
Definition AddQuery (k v : string) (r : Request) : Request := setQuery (valuesAdd k v (query r)) r.
Definition AddFormData (k v : string) (r : Request) : Request := setForm (valuesAdd k v (formData r)) r.
(** The keys of a map are distinct: the order of the loop does not matter. *)
Definition setEach (vs : gmap string string) (m : gmap string (list string)) : gmap string (list string) :=
  map_fold (fun k v m => valuesSet k v m) m vs.
Lemma setEach_lookup (vs : gmap string string) (m : gmap string (list string)) (k : string) :
  setEach vs m !! k = match vs !! k with Some v => Some [v] | None => m !! k end.
Proof.
  unfold setEach. revert k. apply (map_fold_weak_ind (fun acc vs => forall k, acc !! k = match vs !! k with Some v => Some [v] | None => m !! k end)).
  - intros k. by rewrite lookup_empty.
  - intros i x vs' acc Hi IH k. unfold valuesSet. rewrite !lookup_insert. case_decide; [done|apply IH].
Qed.

Definition SetQuery (vs : gmap string string) (r : Request) : Request := setQuery (setEach vs (query r)) r.
Definition SetFormData (vs : gmap string string) (r : Request) : Request := setForm (setEach vs (formData r)) r.
Definition SetBody (v : option Body) (r : Request) : Request :=
  mkRequest (context r) (method r) (uri r) (url r) v (query r) (formData r) (header r) (contentType r).
Definition SetContentType (v : string) (r : Request) : Request :=
  mkRequest (context r) (method r) (uri r) (url r) (body r) (query r) (formData r) (header r) v.
Definition SetHeader (h : option Header) (r : Request) : Request :=
  mkRequest (context r) (method r) (uri r) (url r) (body r) (query r) (formData r) h (contentType r).
(** An entry of a nil map panics. *)
Definition AddHeader (k v : string) (r : Request) : option Request :=
  match header r with
  | None => None
  | Some h => Some (SetHeader (Some (headerAdd h k v)) r)
  end.

(** ** What happens, in order *)

Inductive event : Type :=
| EvBefore (i : nat)
| EvSend (req : @RawRequest Ctx)
| EvGot (b : B)              (* a response with a body to close *)
| EvAfter (i : nat)
| EvClose (b : B)
| EvOpen (path : string)
| EvCloseFile (path : string).

Record Run : Type := mkRun { world : W; log : list event }.
Definition emit (e : event) (s : Run) : Run := mkRun (world s) (log s ++ [e]).
Definition onWorld (w : W) (s : Run) : Run := mkRun w (log s).

(** A Go call that returns a value or an error; [None] when it panics. *)
Definition call (A : Type) : Type := option (result error A).

(** [http.NewRequest] on a method and a text; [Client.Do] of net/http; the order in which
    a map is ranged over. *)
Variable newRawRequest : string -> string -> option error.
Variable httpDo : nat -> @RawRequest Ctx -> W -> W * result error (@Response B).
Variable rangeHeader : Header -> list (string * list string).
Hypothesis rangeHeader_perm : forall h, Permutation (rangeHeader h) (map_to_list h).

Fixpoint runBefore (hc i : nat) (cbs : list (@BeforeRequest Ctx W)) (req : RawRequest) (s : Run) : Run * RawRequest * option error :=
  match cbs with
  | [] => (s, req, None)
  | cb :: cbs =>
      let '(w, req, e) := cb hc req (world s) in
      let s := onWorld w (emit (EvBefore i) s) in
      match e with
      | Some e => (s, req, Some e)
      | None => runBefore hc (S i) cbs req s
      end
  end.

Fixpoint runAfter (hc i : nat) (cbs : list (@AfterRequest Ctx W B)) (req : RawRequest) (res : Response) (s : Run) :
    Run * Response * option error :=
  match cbs with
  | [] => (s, res, None)
  | cb :: cbs =>
      let '(w, req, res, e) := cb hc req res (world s) in
      let s := onWorld w (emit (EvAfter i) s) in
      match e with
      | Some e => (s, res, Some e)
      | None => runAfter hc (S i) cbs req res s
      end
  end.

(** Every value of the request's headers. *)
Definition addHeaders (h : Header) : Header :=
  fold_left (fun acc kvs => fold_left (fun acc v => headerAdd acc (fst kvs) v) (snd kvs) acc) (rangeHeader h) ∅.

(** The request of net/http before the client's own headers. *)
Definition rawOf (r : Request) (contentType : string) (reader : option string) : @RawRequest Ctx :=
  let h := addHeaders (default ∅ (header r)) in
  mkRaw (method r) (uri r) (if String.eqb contentType EmptyString then h else headerSet h "Content-Type" contentType) reader None.

(** The authorization, the trace and the context. *)
Definition dress (c : @Client Ctx W B) (r : Request) (raw : @RawRequest Ctx) (w : W) : W * @RawRequest Ctx :=
  let '(w, h) := match cAuthorization c with
                 | Some auth => let '(w, t) := auth w in (w, headerSet (rHeader raw) "Authorization" t)
                 | None => (w, rHeader raw)
                 end in
  let h := match tracer c, context r with Some inject, Some ctx => inject ctx h | _, _ => h end in
  (w, mkRaw (rMethod raw) (rURL raw) h (rBody raw) (match context r with Some ctx => Some ctx | None => rCtx raw end)).

(** From the callbacks before the request to those after the response. *)
Definition exchange (c : @Client Ctx W B) (raw : @RawRequest Ctx) (s : Run) : Run * result error Response :=
  match runBefore (cClient c) 0 (interceptorRequest c) raw s with
  | (s, _, Some e) => (s, Err e)
  | (s, raw, None) =>
      let s := emit (EvSend raw) s in
      match httpDo (cClient c) raw (world s) with
      | (w, Err e) => (onWorld w s, Err e)
      | (w, Ok res) =>
          match runAfter (cClient c) 0 (interceptorResponse c) raw res (emit (EvGot (rsBody res)) (onWorld w s)) with
          | (s, res, Some e) => (emit (EvClose (rsBody res)) s, Err e)
          | (s, res, None) => (s, Ok res)
          end
      end
  end.

(** The content type and the reader of a request. *)
Definition contentTypeOf (r : Request) : string :=
  if String.eqb (contentType r) EmptyString && bool_decide (is_Some (body r)) then detectContentType (body r) else contentType r.
Definition readerFor (r : Request) : call (option string) :=
  match body r with
  | Some b => readRequestBody (contentTypeOf r) b
  | None => Some (Ok None)
  end.

Definition execute (c : @Client Ctx W B) (r : Request) (s : Run) : Run * call Response :=
  match readerFor r with
  | None => (s, None)
  | Some (Err e) => (s, Some (Err e))
  | Some (Ok reader) =>
      match newRawRequest (method r) (uri r) with
      | Some e => (s, Some (Err e))
      | None =>
          let '(w, raw) := dress c r (rawOf r (contentTypeOf r) reader) (world s) in
          let '(s, res) := exchange c raw (onWorld w s) in
          (s, Some res)
      end
  end.

(** What [Do] executes; [None] is the panic of a URL that was not parsed. *)
Definition resolve (r : Request) : option Request :=
  let s := Encode (formData r) in
  let body := if negb (String.eqb s EmptyString) && negb (bool_decide (is_Some (body r))) then Some (BString s) else body r in
  match url r with
  | None => None
  | Some u =>
      let u := setRawQuery (Encode (query r)) u in
      Some (mkRequest (context r) (method r) (URLString u) (Some u) body (query r) (formData r) (header r) (contentType r))
  end.

Definition Do (c : @Client Ctx W B) (r : Request) (s : Run) : Run * call Response :=
  match resolve r with
  | None => (s, None)
  | Some r => execute c r s
  end.

(** ** codec.go: the response *)

(** The body up to a limit, and the decoders. *)
Variable readAll : Z -> B -> W -> W * (string * option error).
Variables decodeJSON decodeXML : B -> W -> W * option error.

Definition decodeResponse (res : @Response B) (w : W) : W * option error :=
  let contentType := ToLower (headerGet (rsHeader res) "Content-Type") in
  let extName := Ext (rsURL res) in
  if Contains contentType JSON || String.eqb extName ".json" then decodeJSON (rsBody res) w
  else if Contains contentType XML || String.eqb extName ".xml" then decodeXML (rsBody res) w
  else (w, Some (EPlain ("unsupported content type: " +:+ contentType))).

(** The error of a status that is not 2xx. *)
Definition statusError (res : @Response B) (w : W) : W * option error :=
  let '(w, (buf, e)) := readAll maxErrorBodySize (rsBody res) w in
  let code := pretty (StatusCode res) in
  match e, buf with
  | None, String _ _ =>
      (w, Some (EPlain ("http response " +:+ Status res +:+ "(" +:+ code +:+ "): " +:+ buf)))
  | _, _ => (w, Some (EPlain ("http response " +:+ code +:+ ": " +:+ Status res)))
  end.

Definition settle (res : @Response B) (w : W) : W * option error :=
  if negb (Z.quot (StatusCode res) 100 =? 2)%Z then statusError res w else decodeResponse res w.

(** [Request.Response]; [None] when it panics. *)
Definition ResponseInto (c : @Client Ctx W B) (r : Request) (s : Run) : Run * option (option error) :=
  match Do c r s with
  | (s, None) => (s, None)
  | (s, Some (Err e)) => (s, Some (Some e))
  | (s, Some (Ok res)) =>
      let '(w, e) := settle res (world s) in
      (emit (EvClose (rsBody res)) (onWorld w s), Some e)
  end.

(** A file that is opened for writing, and the copy of a body to it. *)
Variable openFile : string -> W -> W * option error.
Variable copyBody : string -> B -> W -> W * option error.

Definition errTraversal : error := EPlain "invalid download path: path traversal detected".

Definition Download (c : @Client Ctx W B) (r : Request) (path : string) (s : Run) : Run * option (option error) :=
  let clean := Clean path in
  if Contains clean ".." then (s, Some (Some errTraversal))
  else
    match Do c r s with
    | (s, None) => (s, None)
    | (s, Some (Err e)) => (s, Some (Some e))
    | (s, Some (Ok res)) =>
        match openFile clean (world s) with
        | (w, Some e) => (emit (EvClose (rsBody res)) (onWorld w s), Some (Some e))
        | (w, None) =>
            let '(w, e) := copyBody clean (rsBody res) w in
            (emit (EvClose (rsBody res)) (emit (EvCloseFile clean) (onWorld w (emit (EvOpen clean) s))), Some e)
        end
    end.

(** ** The course of a request *)

Definition befores (n : nat) : list event := map EvBefore (seq 0 n).
Definition afters (n : nat) : list event := map EvAfter (seq 0 n).

(** The callbacks after a response leave it its body. *)
Definition keepsBody (c : @Client Ctx W B) : Prop :=
  Forall (fun cb : @AfterRequest Ctx W B => forall hc req res w, let '(_, _, res', _) := cb hc req res w in rsBody res' = rsBody res)
    (interceptorResponse c).

(** The events of a request over [nb] callbacks before and [na] after, with its result;
    under [K] the body of the response stays the one that came. *)
Inductive course (K : Prop) (nb na : nat) : list event -> call (@Response B) -> Prop :=
| course_panic : course K nb na [] None
| course_refused e : course K nb na [] (Some (Err e))
| course_before i e : i < nb -> course K nb na (befores (S i)) (Some (Err e))
| course_unsent raw e : course K nb na (befores nb ++ [EvSend raw]) (Some (Err e))
| course_after raw b b' i e : i < na -> (K -> b' = b) ->
    course K nb na (befores nb ++ [EvSend raw; EvGot b] ++ afters (S i) ++ [EvClose b']) (Some (Err e))
| course_done raw b res : (K -> rsBody res = b) ->
    course K nb na (befores nb ++ [EvSend raw; EvGot b] ++ afters na) (Some (Ok res)).
#[local] Hint Constructors course : core.

Lemma seq_snoc (i n : nat) : seq i (S n) = seq i n ++ [i + n].
Proof. by rewrite seq_S. Qed.

Lemma runBefore_log (hc i : nat) (cbs : list (@BeforeRequest Ctx W)) (req : @RawRequest Ctx) (s : Run) :
  let '(s', _, e) := runBefore hc i cbs req s in
  exists n, log s' = log s ++ map EvBefore (seq i n) /\
  match e with None => n = List.length cbs | Some _ => 0 < n <= List.length cbs end.
Proof.
  revert i req s. induction cbs as [|cb cbs IH]; intros i req s; cbn [runBefore].
  - exists 0. by rewrite app_nil_r.
  - destruct (cb hc req (world s)) as [[w req'] [e|]].
    + exists 1. split; [done|cbn; lia].
    + specialize (IH (S i) req' (onWorld w (emit (EvBefore i) s))). destruct (runBefore _ _ _ _ _) as [[s' r'] e'].
      destruct IH as (n & Hlog & Hn). exists (S n). cbn in Hlog. rewrite Hlog, <- app_assoc. split; [done|].
      destruct e'; cbn [List.length]; lia.
Qed.

Lemma runAfter_log (hc i : nat) (cbs : list (@AfterRequest Ctx W B)) (req : @RawRequest Ctx) (res : @Response B) (s : Run) :
  let '(s', res', e) := runAfter hc i cbs req res s in
  (exists n, log s' = log s ++ map EvAfter (seq i n) /\
     match e with None => n = List.length cbs | Some _ => 0 < n <= List.length cbs end)
  /\ (Forall (fun cb : @AfterRequest Ctx W B => forall hc req res w, let '(_, _, res', _) := cb hc req res w in rsBody res' = rsBody res) cbs ->
      rsBody res' = rsBody res).
Proof.
  revert i req res s. induction cbs as [|cb cbs IH]; intros i req res s; cbn [runAfter].
  - split; [exists 0; by rewrite app_nil_r|done].
  - destruct (cb hc req res (world s)) as [[[w req'] res'] [e|]] eqn:Ecb.
    + split; [exists 1; split; [done|cbn; lia]|]. intros [Hk _]%Forall_cons. specialize (Hk hc req res (world s)). by rewrite Ecb in Hk.
    + specialize (IH (S i) req' res' (onWorld w (emit (EvAfter i) s))). destruct (runAfter _ _ _ _ _ _) as [[s' r'] e'].
      destruct IH as [(n & Hlog & Hn) Hb]. split.
      * exists (S n). cbn in Hlog. rewrite Hlog, <- app_assoc. split; [done|]. destruct e'; cbn [List.length]; lia.
      * intros [Hk Hks]%Forall_cons. specialize (Hk hc req res (world s)). rewrite Ecb in Hk. by rewrite Hb.
Qed.

(** What a run added to its log. *)
Definition ran (s s' : Run) (evs : list event) : Prop := log s' = log s ++ evs.

Lemma exchange_course (c : @Client Ctx W B) (raw : @RawRequest Ctx) (s : Run) :
  let '(s', out) := exchange c raw s in
  exists evs, ran s s' evs /\ course (keepsBody c) (List.length (interceptorRequest c)) (List.length (interceptorResponse c)) evs (Some out).
Proof.
  unfold exchange, ran. pose proof (runBefore_log (cClient c) 0 (interceptorRequest c) raw s) as Hb.
  destruct (runBefore _ _ _ _ _) as [[s1 raw1] [e|]]; destruct Hb as (n & Hlog & Hn).
  { exists (befores n). split; [done|]. destruct n as [|n]; [lia|]. apply course_before. lia. }
  subst n. destruct (httpDo _ _ _) as [w [res|e]].
  2: { exists (befores (List.length (interceptorRequest c)) ++ [EvSend raw1]). cbn. rewrite Hlog, <- app_assoc. auto. }
  pose proof (runAfter_log (cClient c) 0 (interceptorResponse c) raw1 res
                (emit (EvGot (rsBody res)) (onWorld w (emit (EvSend raw1) s1)))) as Ha.
  destruct (runAfter _ _ _ _ _ _) as [[s2 res2] [e|]]; destruct Ha as [(n & Hlog' & Hn) Hk].
  - destruct n as [|n]; [lia|]. eexists. split; [|apply (course_after _ _ _ raw1 (rsBody res) (rsBody res2) n); [lia|exact Hk]].
    cbn [emit log]. rewrite Hlog'. cbn [emit onWorld log]. rewrite Hlog. by rewrite <- !app_assoc.
  - subst n. eexists. split; [|apply (course_done _ _ _ raw1 (rsBody res) res2), Hk].
    rewrite Hlog'. cbn [emit onWorld log]. rewrite Hlog. by rewrite <- !app_assoc.
Qed.

Lemma execute_course_aux (c : @Client Ctx W B) (r : Request) (s : Run) :
  let '(s', out) := execute c r s in
  exists evs, ran s s' evs /\ course (keepsBody c) (List.length (interceptorRequest c)) (List.length (interceptorResponse c)) evs out.
Proof.
  assert (ran s s []) as Hnil by (unfold ran; by rewrite app_nil_r).
  unfold execute. destruct (readerFor r) as [[reader|e]|]; [|eauto..].
  destruct (newRawRequest _ _); [eauto|]. destruct (dress _ _ _ _) as [w raw].
  pose proof (exchange_course c raw (onWorld w s)) as H. destruct (exchange _ _ _) as [s' out]. done.
Qed.

Lemma Do_course (c : @Client Ctx W B) (r : Request) (s : Run) :
  let '(s', out) := Do c r s in
  exists evs, ran s s' evs /\ course (keepsBody c) (List.length (interceptorRequest c)) (List.length (interceptorResponse c)) evs out.
Proof.
  unfold Do. destruct (resolve r); [apply execute_course_aux|]. exists []. split; [unfold ran; by rewrite app_nil_r|auto].
Qed.

(** The course of [Do], with one request sent at most, every callback in its order, none
    after the first that fails, and a response whose callbacks fail closed. *)
Theorem request_course (c : @Client Ctx W B) (r : Request) (s : Run) :
  let '(s', out) := Do c r s in
  exists evs, ran s s' evs /\ course (keepsBody c) (List.length (interceptorRequest c)) (List.length (interceptorResponse c)) evs out.
Proof. apply Do_course. Qed.

Definition isGot (e : event) : bool := match e with EvGot _ => true | _ => false end.
Definition isClose (e : event) : bool := match e with EvClose _ => true | _ => false end.
Definition isSend (e : event) : bool := match e with EvSend _ => true | _ => false end.
Definition count (p : event -> bool) (evs : list event) : nat := List.length (List.filter p evs).

Lemma count_app (p : event -> bool) (l k : list event) : count p (l ++ k) = count p l + count p k.
Proof. unfold count. by rewrite List.filter_app, length_app. Qed.

Lemma count_callbacks (p : event -> bool) (f : nat -> event) (i n : nat) :
  (forall j, p (f j) = false) -> count p (map f (seq i n)) = 0.
Proof. intros H. revert i. induction n as [|n IH]; intros i; [done|]. unfold count. cbn. rewrite H. apply IH. Qed.

Lemma count_befores (p : event -> bool) (n : nat) : (forall j, p (EvBefore j) = false) -> count p (befores n) = 0.
Proof. apply count_callbacks. Qed.
Lemma count_afters (p : event -> bool) (n : nat) : (forall j, p (EvAfter j) = false) -> count p (afters n) = 0.
Proof. apply count_callbacks. Qed.

(** A run that gave up before a response, or closed it, or holds it. *)
Definition held (evs : list event) (out : call (@Response B)) : nat :=
  match out with Some (Ok _) => 1 | _ => 0 end.

Lemma course_counts (K : Prop) (nb na : nat) (evs : list event) (out : call Response) :
  course K nb na evs out ->
  count isGot evs = count isClose evs + held evs out /\ count isGot evs <= 1 /\ count isSend evs <= 1 /\
  count isGot evs <= count isSend evs.
Proof.
  intros H. destruct H; cbn [held]; rewrite ?count_app, ?count_befores, ?count_afters by done; cbn; lia.
Qed.

(** What a call has done with the response it got: at most one request, and one body
    closed, once, as the last thing it did; under [K] that is the body it got. *)
Definition released (K : Prop) (evs : list event) : Prop :=
  count isSend evs <= 1 /\ count isGot evs <= 1 /\ count isClose evs = count isGot evs /\
  (count isGot evs = 1 -> exists evs0 b evs1 b', evs = evs0 ++ EvGot b :: evs1 ++ [EvClose b'] /\ (K -> b' = b)).

Lemma course_released (K : Prop) (nb na : nat) (evs : list event) (out : call Response) :
  course K nb na evs out -> held evs out = 0 -> released K evs.
Proof.
  intros H Hh. destruct (course_counts K nb na evs out H) as (H1 & H2 & H3 & H4). refine (conj _ (conj _ (conj _ _))); [lia..|].
  intros Hg. destruct H as [|e|i e Hi|raw e|raw b b' i e Hi Hb|raw b res Hb]; cbn [held] in Hh; try done; revert Hg; rewrite ?count_app, ?count_befores, ?count_afters by done; cbn; try done.
  intros _. exists (befores nb ++ [EvSend raw]), b, (afters (S i)), b'. split; [|done]. by rewrite <- !app_assoc.
Qed.

Lemma course_finished (K : Prop) (nb na : nat) (evs k : list event) (res : Response) :
  course K nb na evs (Some (Ok res)) ->
  (forall e, In e k -> isSend e = false /\ isGot e = false /\ isClose e = false) -> released K (evs ++ k ++ [EvClose (rsBody res)]).
Proof.
  intros H Hk. destruct (course_counts K nb na evs _ H) as (H1 & H2 & H3 & H4). cbn [held] in H1.
  assert (forall p, (forall e, In e k -> p e = false) -> count p k = 0) as Hz.
  { intros p Hp. unfold count. rewrite filter_none; [done|]. intros e He. by apply Hp. }
  unfold released. rewrite !count_app, !Hz by (intros e He; by apply Hk). cbn. refine (conj _ (conj _ (conj _ _))); [lia..|].
  intros _. inversion H as [| | | | |raw b res' Hb]; subst.
  exists (befores nb ++ [EvSend raw]), b, (afters na ++ k), (rsBody res). split; [|done]. by rewrite <- !app_assoc.
Qed.

(** C27. [Response] and [Download] send one request at most; the call that got a response
    closes one body, exactly once and as its last act, whatever failed in between; it is
    the body it got, or the one the callbacks after the response put in its place.  (A
    callback or a decoder that panics is not modelled.) *)
Theorem bodies_released (c : @Client Ctx W B) (r : Request) (path : string) (s : Run) :
  (exists evs, ran s (fst (ResponseInto c r s)) evs /\ released (keepsBody c) evs) /\
  (exists evs, ran s (fst (Download c r path s)) evs /\ released (keepsBody c) evs).
Proof.
  assert (released (keepsBody c) []) as Hnil by (refine (conj _ (conj _ (conj _ _))); cbn; [lia..|done]).
  assert (ran s s []) as Hs by (unfold ran; by rewrite app_nil_r).
  pose proof (Do_course c r s) as H. unfold ResponseInto, Download.
  destruct (Do c r s) as [s' [[res|e]|]]; destruct H as (evs & Hr & Hc);
    [|destruct (Contains _ _); cbn [fst]; split; eauto using course_released..].
  pose proof (fun k => course_finished _ _ _ _ k _ Hc) as Hf. unfold ran in *. split.
  - destruct (settle res (world s')) as [w e]. exists (evs ++ [] ++ [EvClose (rsBody res)]). split; [|by apply Hf].
    cbn [fst emit onWorld log]. by rewrite Hr, <- app_assoc.
  - destruct (Contains _ _); [by exists []|]. destruct (openFile _ _) as [w [e|]].
    + exists (evs ++ [] ++ [EvClose (rsBody res)]). split; [|by apply Hf]. cbn [fst emit onWorld log]. by rewrite Hr, <- app_assoc.
    + destruct (copyBody _ _ w) as [w' e]. exists (evs ++ [EvOpen (Clean path); EvCloseFile (Clean path)] ++ [EvClose (rsBody res)]). split.
      * cbn [fst emit onWorld log]. by rewrite Hr, <- !app_assoc.
      * apply Hf. intros ev [<-|[<-|[]]]; done.
Qed.

(** ** What the caller is told *)

Hypothesis readAll_limit : forall limit b w w' buf e, readAll limit b w = (w', (buf, e)) -> (0 <= limit)%Z ->
  (Z.of_nat (String.length buf) <= limit)%Z.

Definition errorText (e : error) : string := match e with EPlain t => t | _ => EmptyString end.

Lemma statusError_bounded (res : @Response B) (w w' : W) (e : option error) :
  statusError res w = (w', e) ->
  exists t, e = Some (EPlain t) /\
  (Z.of_nat (String.length t) <= maxErrorBodySize + Z.of_nat (String.length (Status res)) + Z.of_nat (String.length (pretty (StatusCode res))) + 19)%Z.
Proof.
  unfold statusError. destruct (readAll _ _ _) as [w1 [buf e1]] eqn:E.
  apply readAll_limit in E; [|done]. unfold maxErrorBodySize in *.
  destruct e1 as [e1|], buf as [|a buf]; intros He; apply (f_equal snd) in He; cbn [snd] in He; subst e; eexists; (split; [reflexivity|]);
    rewrite !length_append; cbn [String.length] in *; lia.
Qed.

(** After a response: nil when the status is 2xx and the body was decoded, and otherwise
    an error, which quotes a bounded part of the body. *)
Lemma Response_reports (c : @Client Ctx W B) (r : Request) (s s' : Run) (res : Response) :
  Do c r s = (s', Some (Ok res)) ->
  exists e, snd (ResponseInto c r s) = Some e /\
  ((200 <= StatusCode res < 300)%Z -> e = snd (decodeResponse res (world s'))) /\
  (~ (200 <= StatusCode res < 300)%Z -> exists t, e = Some (EPlain t) /\
     (Z.of_nat (String.length t) <= maxErrorBodySize + Z.of_nat (String.length (Status res)) + Z.of_nat (String.length (pretty (StatusCode res))) + 19)%Z).
Proof.
  intros H. unfold ResponseInto, settle. rewrite H.
  assert ((Z.quot (StatusCode res) 100 =? 2)%Z = true <-> (200 <= StatusCode res < 300)%Z) as Hq.
  { rewrite Z.eqb_eq. split; intros Hc; [|by Z.to_euclidean_division_equations; lia]. Z.to_euclidean_division_equations; lia. }
  destruct (Z.quot (StatusCode res) 100 =? 2)%Z; cbn [negb].
  - destruct (decodeResponse res (world s')) as [w e] eqn:E. exists e. cbn. split; [done|]. split; [done|]. intros []. by apply Hq.
  - destruct (statusError res (world s')) as [w e] eqn:E. exists e. cbn. split; [done|]. split; [intros Hc; by apply Hq in Hc|].
    intros _. by apply statusError_bounded in E.
Qed.

(** ** What the other side is sent *)

Lemma resolve_body (r r' : Request) : resolve r = Some r' ->
  method r' = method r /\ header r' = header r /\ contentType r' = contentType r /\ context r' = context r /\
  exists u, uri r' = URLString (setRawQuery (Encode (query r)) u).
Proof. unfold resolve. destruct (url r) as [u|]; [|done]. intros [= <-]. cbn. naive_solver. Qed.

Lemma headerGet_after (h : Header) (k k' v : string) :
  CanonicalHeaderKey k <> CanonicalHeaderKey k' -> headerGet (headerSet h k v) k' = headerGet h k'.
Proof. intros H. rewrite headerGet_headerSet. by rewrite decide_False. Qed.

(** Without callbacks before it, the request that is sent is the one that was made. *)
Lemma exchange_sends (c : @Client Ctx W B) (raw raw' : RawRequest) (s : Run) :
  interceptorRequest c = [] ->
  In (EvSend raw') (drop (List.length (log s)) (log (fst (exchange c raw s)))) -> raw' = raw.
Proof.
  intros Hn. unfold exchange. rewrite Hn. cbn [runBefore]. destruct (httpDo _ _ _) as [w [res|e]].
  2: { cbn [fst onWorld emit log]. rewrite drop_app_length. intros [[= <-]|[]]. done. }
  pose proof (runAfter_log (cClient c) 0 (interceptorResponse c) raw res (emit (EvGot (rsBody res)) (onWorld w (emit (EvSend raw) s)))) as Ha.
  destruct (runAfter _ _ _ _ _ _) as [[s2 res2] [e|]]; destruct Ha as [(n & Hlog & _) _]; cbn [fst emit onWorld log] in Hlog |- *;
    rewrite Hlog, <- !app_assoc, drop_app_length; cbn [app In]; rewrite ?in_app_iff, in_map_iff; naive_solver.
Qed.

Lemma Do_sends (c : @Client Ctx W B) (r : Request) (raw : RawRequest) (s : Run) :
  interceptorRequest c = [] ->
  In (EvSend raw) (drop (List.length (log s)) (log (fst (Do c r s)))) ->
  exists r' reader, resolve r = Some r' /\ raw = snd (dress c r' (rawOf r' (contentTypeOf r') reader) (world s)).
Proof.
  intros Hn. assert (~ In (EvSend raw) (drop (List.length (log s)) (log s))) as Hno by (rewrite drop_all; by intros []).
  unfold Do, execute. destruct (resolve r) as [r'|]; [|done]. destruct (readerFor r') as [[reader|e]|]; [|done..].
  destruct (newRawRequest _ _); [done|]. destruct (dress c r' _ _) as [w raw0] eqn:Ed.
  pose proof (exchange_sends c raw0 raw (onWorld w s) Hn) as Hx. destruct (exchange _ _ _) as [s1 out]. cbn [fst] in *. intros Hin.
  exists r', reader. split; [done|]. rewrite Ed. by apply Hx.
Qed.

(** A client without callbacks and tracer: the query the other side reads is the one the
    caller built, whatever it was; the content type and the credentials are the
    request's and the client's, whatever headers were added. *)
Theorem request_sent `{!NetUrlLaws N} (c : @Client Ctx W B) (r : Request) (s s' : Run) (out : call Response) (raw : RawRequest) (u' : URL) :
  interceptorRequest c = [] -> tracer c = None ->
  Do c r s = (s', out) -> In (EvSend raw) (drop (List.length (log s)) (log s')) -> Parse (rURL raw) = Ok u' ->
  rMethod raw = method r /\
  (forall k, default [] (ParseQuery (RawQuery u') !! k) = default [] (query r !! k)) /\
  (contentType r <> EmptyString -> headerGet (rHeader raw) "Content-Type" = contentType r) /\
  (forall auth, cAuthorization c = Some auth -> headerGet (rHeader raw) "Authorization" = snd (auth (world s))).
Proof.
  intros Hn Ht Hdo Hin Hp. assert (s' = fst (Do c r s)) as -> by by rewrite Hdo.
  apply Do_sends in Hin as (r' & reader & Hr & ->); [|done]. apply resolve_body in Hr as (Hm & Hh & Hc & Hx & u & Hu).
  unfold dress, rawOf in *. rewrite Ht in *.
  assert (contentType r <> EmptyString -> contentTypeOf r' = contentType r) as Hct.
  { intros Hne. unfold contentTypeOf. rewrite Hc. by rewrite (proj2 (String.eqb_neq _ _) Hne). }
  destruct (cAuthorization c) as [auth|] eqn:Ea; [destruct (auth (world s)) as [w t] eqn:Et|]; cbn [snd rMethod rURL rHeader] in *;
    (split; [done|]); (split; [|split]).
  1, 4: intros k; rewrite Hu in Hp; apply Parse_render in Hp; rewrite Hp; apply ParseQuery_Encode.
  - intros Hne. specialize (Hct Hne). rewrite headerGet_after by done. rewrite Hct, (proj2 (String.eqb_neq _ _) Hne).
    rewrite headerGet_headerSet. by rewrite decide_True.
  - intros auth' [= <-]. rewrite Et. rewrite headerGet_headerSet. by rewrite decide_True.
  - intros Hne. specialize (Hct Hne). rewrite Hct, (proj2 (String.eqb_neq _ _) Hne).
    rewrite headerGet_headerSet. by rewrite decide_True.
  - done.
Qed.

(** A file that [Download] opens has no element [..]. *)
Lemma Download_confined (c : @Client Ctx W B) (r : Request) (path p : string) (s : Run) :
  In (EvOpen p) (drop (List.length (log s)) (log (fst (Download c r path s)))) ->
  p = Clean path /\ ~ In ".." (SplitByte p slash).
Proof.
  unfold Download. destruct (Contains (Clean path) "..") eqn:Ec.
  { cbn [fst]. rewrite drop_all. by intros []. }
  pose proof (Do_course c r s) as H. destruct (Do c r s) as [s1 out]. destruct H as (evs & Hr & Hc). unfold ran in Hr.
  assert (forall q, ~ In (EvOpen q) evs) as Hno.
  { intros q. destruct Hc; unfold befores, afters; cbn [In]; rewrite ?in_app_iff; cbn [In]; rewrite ?in_app_iff, ?in_map_iff; cbn [In]; naive_solver. }
  assert (In (EvOpen p) (drop (List.length (log s)) (log s1)) -> False) as Hno1.
  { rewrite Hr, drop_app_length. apply Hno. }
  destruct out as [[res|e]|]; [|intros Hi; by destruct (Hno1 Hi)..]. destruct (openFile _ _) as [w [e|]].
  - cbn [fst emit onWorld log]. rewrite Hr, <- app_assoc, drop_app_length, in_app_iff. cbn. naive_solver.
  - destruct (copyBody _ _ w) as [w' e]. cbn [fst emit onWorld log]. rewrite Hr, <- !app_assoc, drop_app_length, in_app_iff. cbn [app In].
    intros [Hi|[[= <-]|[[=]|[[=]|[]]]]]; [by apply Hno in Hi|]. split; [done|]. intros (l1 & l2 & Hl)%in_split.
    rewrite <- (Join_SplitByte (Clean path) slash), Hl in Ec.
    assert (exists x y, Join (l1 ++ ".." :: l2) (String slash EmptyString) = x +:+ ".." +:+ y) as (x & y & Ej).
    { clear. induction l1 as [|z l1 (x & y & IH)].
      - destruct l2 as [|z l2]; [by exists EmptyString, EmptyString|]. by eexists EmptyString, _.
      - exists (z +:+ String slash EmptyString +:+ x), y. cbn [app Join]. destruct (l1 ++ ".." :: l2) as [|t l] eqn:E; [by destruct l1|].
        rewrite IH, !append_assoc. done. }
    rewrite Ej, Contains_app in Ec. done.
Qed.

(** ** Where it panics *)

(** The error of [url.Parse] is dropped: the request fails only when it is sent, with a
    nil dereference. *)
Lemma unparsed_uri_panics (c : @Client Ctx W B) (m u : string) (e : error) (s : Run) :
  Parse u = Err e -> Do c (newRequest m u) s = (s, None).
Proof. intros H. unfold Do, newRequest, resolve. by rewrite H. Qed.

(** A nil pointer as a body. *)
Lemma nil_body_panics (c : @Client Ctx W B) (r : Request) (v : V) (s : Run) :
  body r = Some (BValue None v) -> contentType r = EmptyString -> snd (Do c r s) = None.
Proof.
  intros Hb Hc. unfold Do, resolve. destruct (url r) as [u|]; [|done]. rewrite Hb. rewrite bool_decide_eq_true_2 by by eexists.
  rewrite andb_false_r. unfold execute, readerFor. cbn [body]. done.
Qed.

End Request.

(** ** A run *)

#[export] Instance demoUrl : NetUrl := {|
  URL := string * string;
  Parse := fun s => if HasPrefix s ":" then Err (EPlain "missing protocol scheme")
                    else Ok (default (s, EmptyString) (cutLastByte s "?"));
  RawQuery := snd;
  setRawQuery := fun q u => (fst u, q);
  URLString := fun u => fst u +:+ String "?" (snd u);
|}.

#[export] Instance demoUrl_laws : NetUrlLaws demoUrl.
Proof.
  intros m [b q] u'. cbn [Parse URLString setRawQuery demoUrl fst snd]. rewrite cutLastByte_app by by apply Encode_free.
  destruct (HasPrefix _ ":"); [done|]. by intros [= <-].
Qed.

Definition demoBearer : BearerAuth := mkBearerAuth "t0k".
Definition demoCaller : @Client unit nat unit :=
  mkClient "http://h" (Some (fun w => (w, BearerAuth_Token demoBearer))) 0 None [] [fun _ req res w => (S w, req, res, None)] None.

(** A server that answers 404. *)
Definition demoDo (hc : nat) (raw : @RawRequest unit) (w : nat) : nat * result error (@Response unit) :=
  (S w, Ok (mkResponse "404 Not Found" 404 ∅ (rURL raw) tt)).

Definition demoRequest : @Request unit unit demoUrl :=
  AddQuery "q" "a b&c" (Get tt demoCaller "search?x=1").

Definition demoRun (r : @Request unit unit demoUrl) : @Run unit nat unit * call (@Response unit) :=
  Do (V := unit) (fun _ => Ok EmptyString) (fun _ => Ok EmptyString) (fun s => s) (fun _ => EmptyString)
     (fun _ _ => None) demoDo map_to_list demoCaller r (mkRun 0 []).

Definition demoRaw : @RawRequest unit :=
  match log (fst (demoRun demoRequest)) with EvSend raw :: _ => raw | _ => mkRaw EmptyString EmptyString ∅ None None end.

Example request_sent_witness :
  rURL demoRaw = "http://h/search?q=a+b%26c&x=1" /\
  ParseQuery (snd (default (EmptyString, EmptyString) (cutLastByte (rURL demoRaw) "?"))) !! "q" = Some ["a b&c"] /\
  headerGet (rHeader demoRaw) "Authorization" = "Bearer t0k".
Proof.
  split; [vm_compute; reflexivity|]. split; [vm_compute; reflexivity|].
  destruct (request_sent (V := unit) (fun _ => Ok EmptyString) (fun _ => Ok EmptyString) (fun s => s) (fun _ => EmptyString)
     (fun _ _ => None) demoDo map_to_list demoCaller demoRequest (mkRun 0 []) (fst (demoRun demoRequest)) (snd (demoRun demoRequest)) demoRaw
     ("http://h/search", "q=a+b%26c&x=1")) as (_ & _ & _ & Ha).
  - reflexivity.
  - reflexivity.
  - vm_compute. reflexivity.
  - vm_compute. by left.
  - vm_compute. reflexivity.
  - rewrite (Ha _ eq_refl). reflexivity.
Defined.

(** The page of an error is saved as the file that was asked for, and nothing is reported. *)
Example Download_saves_errors :
  let '(s, e) := Download (V := unit) (fun _ => Ok EmptyString) (fun _ => Ok EmptyString) (fun s => s) (fun _ => EmptyString)
     (fun _ _ => None) demoDo map_to_list (fun _ w => (w, None)) (fun _ _ w => (S w, None)) demoCaller demoRequest "out/../report.csv" (mkRun 0 []) in
  e = Some None /\ drop 1 (log s) = [EvGot tt; EvAfter 0; EvOpen "report.csv"; EvCloseFile "report.csv"; EvClose tt].
Proof. vm_compute. split; reflexivity. Qed.

(** The body of the error page is closed, once. *)
Lemma bodies_released_witness :
  exists evs, released (Ctx := unit) (B := unit) (keepsBody demoCaller) evs /\ drop 1 evs = [EvGot tt; EvAfter 0; EvOpen "report.csv"; EvCloseFile "report.csv"; EvClose tt].
Proof.
  destruct (bodies_released (V := unit) (fun _ => Ok EmptyString) (fun _ => Ok EmptyString) (fun s => s) (fun _ => EmptyString)
     (fun _ _ => None) demoDo map_to_list (fun _ _ w => (w, (EmptyString, None))) (fun _ w => (w, None)) (fun _ w => (w, None))
     (fun _ w => (w, None)) (fun _ _ w => (S w, None)) demoCaller demoRequest "out/../report.csv" (mkRun 0 [])) as [_ (evs & Hr & Hrel)].
  exists evs. split; [exact Hrel|]. unfold ran in Hr. cbn [app log] in Hr. rewrite <- Hr. vm_compute. reflexivity.
Defined.

(** An address in a query makes a relative path absolute: the base is not put before it. *)
Example stashURI_drops_base : stashURI demoCaller "/login?next=http://x/y" = "/login?next=http://x/y".
Proof. reflexivity. Qed.
