(* ===== verification/HttpMethod.v ===== *)
(** [pkg/httpclient/method.go], [types.go], [codec.go]: the package functions [Get],
    [Post] and [Do], which share one client of net/http, and their options. *)

From Stdlib Require Import ZArith Lia String Ascii List Bool.
From stdpp Require Import base tactics list gmap strings pretty.
From S2P Require Import Prelude GoStrings GoPath GoUrl Errs HttpCore HttpClient HttpRequest.

Local Open Scope string_scope.
Local Open Scope list_scope.

Section Method.

Context {Ctx W B V : Type} `{N : NetUrl}.

Record options : Type := mkOptions {
  oMethod : string;
  oHeader : option (gmap string string);
  oParams : option (gmap string string);
  oBody : option (@Body V);
  oBrowserHeaders : bool;
  oClient : nat;
}.

(** An option changes the options, and may write through the client they point to;
    [None] is a nil dereference. *)
Definition Option : Type := options -> Heap -> option (options * Heap).

Definition newOptions : options := mkOptions "GET" None None None false DefaultClient.

(** [maps.Copy] into a map that is made when there is none. *)
Definition copyInto (m : option (gmap string string)) (h : gmap string string) : option (gmap string string) :=
  Some (h ∪ default ∅ m).

Definition WithMethod (s : string) : Option := fun o h =>
  Some (mkOptions s (oHeader o) (oParams o) (oBody o) (oBrowserHeaders o) (oClient o), h).
Definition WithBrowserHeaders : Option := fun o h =>
  Some (mkOptions (oMethod o) (oHeader o) (oParams o) (oBody o) true (oClient o), h).
Definition WithClient (c : nat) : Option := fun o h =>
  Some (mkOptions (oMethod o) (oHeader o) (oParams o) (oBody o) (oBrowserHeaders o) c, h).
Definition WithHeader (m : gmap string string) : Option := fun o h =>
  Some (mkOptions (oMethod o) (copyInto (oHeader o) m) (oParams o) (oBody o) (oBrowserHeaders o) (oClient o), h).
Definition WithParams (m : gmap string string) : Option := fun o h =>
  Some (mkOptions (oMethod o) (oHeader o) (copyInto (oParams o) m) (oBody o) (oBrowserHeaders o) (oClient o), h).
Definition WithBody (v : option Body) : Option := fun o h =>
  Some (mkOptions (oMethod o) (oHeader o) (oParams o) v (oBrowserHeaders o) (oClient o), h).

Definition setTLS (c : nat) (insecure : bool) (h : Heap) : Heap :=
  mkHeap (hClients h) (hTransports h) (<[c := insecure]> (hTLS h)) (hNext h).

Definition WithInsecure : Option := fun o h =>
  match hClients h !! oClient o with
  | None => None
  | Some gc =>
      match gcTransport gc with
      | RTTransport t =>
          match hTransports h !! t with
          | None => None
          | Some None =>
              let '(h, c) := allocTLS false h in
              Some (o, setTLS c true (mkHeap (hClients h) (<[t := Some c]> (hTransports h)) (hTLS h) (hNext h)))
          | Some (Some c) => Some (o, setTLS c true h)
          end
      | _ => Some (o, h)
      end
  end.

Fixpoint applyOptions (cbs : list Option) (o : options) (h : Heap) : option (options * Heap) :=
  match cbs with
  | [] => Some (o, h)
  | cb :: cbs => match cb o h with None => None | Some (o, h) => applyOptions cbs o h end
  end.

Variable jsonMarshal : @Body V -> result error string.

(** codec.go *)
Definition encodeBody (data : @Body V) : result error (string * string) :=
  match data with
  | BString v | BBytes v => Ok (v, "application/x-www-form-urlencoded")
  | _ => rbind (jsonMarshal data) (fun buf => Ok (buf, "application/json"))
  end.

Variable newRawRequest : string -> string -> option error.
Variable httpDo : nat -> @RawRequest Ctx -> W -> W * result error (@Response B).

Definition userAgent : string :=
  "Mozilla/5.0 (Windows NT 10.0; Win64; x64) AppleWebKit/537.36 (KHTML, like Gecko) Chrome/111.0.0.0 Safari/537.36 Edg/111.0.1661.54".

(** A header that is absent or empty. *)
Definition setAbsent (k v : string) (h : Header) : Header := if String.eqb (headerGet h k) EmptyString then headerSet h k v else h.

Definition doHttpRequest (req : @RawRequest Ctx) (opts : options) (w : W) : W * result error Response :=
  let h := if oBrowserHeaders opts
           then setAbsent "Referer" (rURL req) (setAbsent "User-Agent" userAgent (rHeader req))
           else rHeader req in
  httpDo (oClient opts) (mkRaw (rMethod req) (rURL req) h (rBody req) (rCtx req)) w.

(** The address with the parameters set in its query. *)
Definition withParams (opts : options) (u : URL) : URL :=
  match oParams opts with
  | None => u
  | Some ps => setRawQuery (Encode (setEach ps (ParseQuery (RawQuery u)))) u
  end.

(** [http.NewRequestWithContext] and the headers; the names of a map given as header may
    fall together once they are canonical, so the order of the loop is [range]. *)
Variable range : gmap string string -> list (string * string).

Definition makeRequest (ctx : Ctx) (method : string) (u : URL) (reader : option string) (contentType : string) (opts : options) :
    result error (@RawRequest Ctx) :=
  match newRawRequest method (URLString u) with
  | Some e => Err e
  | None =>
      let h := match oHeader opts with
               | None => ∅
               | Some hs => fold_left (fun h kv => headerSet h (fst kv) (snd kv)) (range hs) ∅
               end in
      let h := if String.eqb contentType EmptyString then h else headerSet h "Content-Type" contentType in
      Ok (mkRaw method (URLString u) h reader (Some ctx))
  end.

Definition encoded (opts : options) : result error (option string * string) :=
  match oBody opts with
  | None => Ok (None, EmptyString)
  | Some b => rbind (encodeBody b) (fun rc => Ok (Some (fst rc), snd rc))
  end.

(** A request of a method with the body of the options, or without. *)
Definition prepared (ctx : Ctx) (method : string) (withBody : bool) (urlString : string) (opts : options) : result error (@RawRequest Ctx) :=
  rbind (Parse urlString) (fun u =>
  rbind (if withBody then encoded opts else Ok (None, EmptyString)) (fun rc =>
  makeRequest ctx method (withParams opts u) (fst rc) (snd rc) opts)).

(** What a call leaves of the heap, of the world and to its caller. *)
Definition package (A : Type) : Type := option (Heap * W * A).

Definition sendPrepared (m : options -> result error (@RawRequest Ctx)) (cbs : list Option) (h : Heap) (w : W) : package (options * result error Response) :=
  match applyOptions cbs newOptions h with
  | None => None
  | Some (opts, h) =>
      match m opts with
      | Err e => Some (h, w, (opts, Err e))
      | Ok req => let '(w, res) := doHttpRequest req opts w in Some (h, w, (opts, res))
      end
  end.

Definition Get (ctx : Ctx) (urlString : string) (cbs : list Option) : Heap -> W -> package (options * result error Response) :=
  sendPrepared (prepared ctx "GET" false urlString) cbs.
Definition Post (ctx : Ctx) (urlString : string) (cbs : list Option) : Heap -> W -> package (options * result error Response) :=
  sendPrepared (prepared ctx "POST" true urlString) cbs.

Variables decodeJSON decodeXML : B -> W -> W * option error.
Variable closeBody : B -> W -> W.

(** [Do]; [wanted] is whether there is a result to decode into. *)
Definition Do (ctx : Ctx) (urlString : string) (wanted : bool) (cbs : list Option) (h : Heap) (w : W) : package (option error) :=
  match sendPrepared (fun opts => prepared ctx (oMethod opts) true urlString opts) cbs h w with
  | None => None
  | Some (h, w, (_, Err e)) => Some (h, w, Some e)
  | Some (h, w, (_, Ok res)) =>
      let '(w, e) :=
        if negb (Z.quot (StatusCode res) 100 =? 2)%Z
        then (w, Some (EPlain ("unexpected status " +:+ Status res +:+ "(" +:+ pretty (StatusCode res) +:+ ")")))
        else if negb wanted then (w, None)
        else decodeResponse decodeJSON decodeXML res w in
      Some (h, closeBody (rsBody res) w, e)
  end.

(** ** What the options do *)

(** The parameters take the place of the values of the address under their names, and the
    other values stay. *)
Lemma prepared_query `{!NetUrlLaws N} (ctx : Ctx) (m s : string) (wb : bool) (opts : options) (ps : gmap string string) (req : RawRequest) (u u' : URL) :
  oParams opts = Some ps -> Parse s = Ok u -> prepared ctx m wb s opts = Ok req -> Parse (rURL req) = Ok u' ->
  forall k, default [] (ParseQuery (RawQuery u') !! k) =
            match ps !! k with Some v => [v] | None => default [] (ParseQuery (RawQuery u) !! k) end.
Proof.
  intros Hps Hu Hp Hu' k. unfold prepared in Hp. rewrite Hu in Hp. cbn [rbind] in Hp.
  apply rbind_Ok in Hp as (rc & _ & Hp). unfold makeRequest, withParams in Hp. rewrite Hps in Hp.
  destruct (newRawRequest _ _); [done|]. injection Hp as <-. cbn [rURL] in Hu'. apply Parse_render in Hu'.
  rewrite Hu', ParseQuery_Encode, setEach_lookup. by destruct (ps !! k).
Qed.

(** Nil is reported for a 2xx response only. *)
Lemma Do_reports (ctx : Ctx) (s : string) (wanted : bool) (cbs : list Option) (h h' : Heap) (w w' : W) :
  Do ctx s wanted cbs h w = Some (h', w', None) ->
  exists opts req res, applyOptions cbs newOptions h = Some (opts, h') /\ prepared ctx (oMethod opts) true s opts = Ok req /\
  snd (doHttpRequest req opts w) = Ok res /\ (200 <= StatusCode res < 300)%Z.
Proof.
  unfold Do, sendPrepared. destruct (applyOptions cbs newOptions h) as [[opts h1]|]; [|done].
  destruct (prepared _ _ _ _ _) as [req|e] eqn:Ep; [|done]. destruct (doHttpRequest req opts w) as [w1 [res|e]] eqn:Ed; [|done].
  destruct (Z.eqb_spec (Z.quot (StatusCode res) 100) 2) as [Hq|]; cbn [negb]; [|done].
  intros E. exists opts, req, res. rewrite Ed. assert (h1 = h') as ->. { destruct wanted; cbn [negb] in E; [destruct (decodeResponse _ _ _ _)|]; congruence. }
  split_and!; try done; Z.to_euclidean_division_equations; lia.
Qed.

(** ** Certificates *)

(** Whether the transport of an [*http.Client] checks certificates. *)
Definition insecure (h : Heap) (l : nat) : option bool :=
  match hClients h !! l with
  | Some o => match gcTransport o with
              | RTTransport t => match hTransports h !! t with Some (Some c) => hTLS h !! c | _ => None end
              | _ => None
              end
  | None => None
  end.

(** A client of [New] checks certificates as the default client does when it is made. *)
Lemma New_insecure (h h' : Heap) (c : @Client Ctx W B) :
  heapOk h -> New h = Some (c, h') -> insecure h DefaultClient = Some true -> insecure h' (cClient c) = Some true.
Proof.
  intros Hok E Hi. unfold insecure in Hi. unfold New, cloneDefaultClient, Clone in E.
  destruct (hClients h !! DefaultClient) as [o|]; [|done]. destruct (gcTransport o) as [|t|]; [done| |done].
  destruct (hTransports h !! t) as [[k|]|]; [|done..]. rewrite Hi in E. cbn in E. unfold setJar in E. cbn in E.
  rewrite lookup_insert_eq in E. injection E as <- <-. unfold insecure. cbn. rewrite !lookup_insert_eq. cbn. rewrite lookup_insert_eq. cbn.
  by rewrite lookup_insert_eq.
Qed.

(** [WithInsecure] in one call, on the client every call has by default, turns the check
    off in the package variable: for every later call and for every client made after. *)
Lemma insecure_for_everyone (h h1 h2 : Heap) (o : options) (c : @Client Ctx W B) :
  heapOk h -> insecure h DefaultClient = Some false ->
  applyOptions [WithInsecure] newOptions h = Some (o, h1) -> New h1 = Some (c, h2) ->
  insecure h1 DefaultClient = Some true /\ insecure h2 (cClient c) = Some true.
Proof.
  intros Hok Hi Eo En. assert (insecure h1 DefaultClient = Some true /\ heapOk h1) as [H1 Hok1].
  { unfold insecure in Hi. cbn [applyOptions] in Eo. unfold WithInsecure in Eo. cbn [newOptions oClient] in Eo.
    destruct (hClients h !! DefaultClient) as [g|] eqn:Eg; [|done]. destruct (gcTransport g) as [|t|] eqn:Et; [done| |done].
    destruct (hTransports h !! t) as [[k|]|] eqn:Ek; [|done..]. injection Eo as _ <-. split.
    - unfold insecure. cbn. rewrite Eg, Et, Ek. by rewrite lookup_insert_eq.
    - destruct Hok as (Hf & Htr & Htls & Hd). split; [|split; [|split]]; cbn; [|done| |done].
      + intros l Hl. destruct (Hf l Hl) as (? & ? & Hn). inserted.
      + intros l x Hx. specialize (Htls l x Hx). inserted. }
  split; [done|]. by eapply New_insecure.
Qed.

End Method.

(** Two calls, the first one with [WithInsecure]. *)
Example insecure_run :
  match applyOptions (V := unit) [WithInsecure] newOptions initHeap with
  | Some (_, h) => insecure initHeap DefaultClient = Some false /\ insecure h (oClient (newOptions (V := unit))) = Some true
  | None => False
  end.
Proof. vm_compute. split; reflexivity. Qed.
