(* ===== verification/McpServer.v ===== *)
(** [transport/http/mcpserver]: the MCP endpoint of an HTTP server and who may call it. *)

From Stdlib Require Import ZArith Lia String Ascii List Bool.
From stdpp Require Import base tactics list gmap strings.
From S2P Require Import Prelude GoStrings Errs.

Local Open Scope string_scope.
Local Open Scope list_scope.
Local Open Scope Z_scope.

(** [auth.TokenInfo] *)
Record TokenInfo : Type := mkTokenInfo { Scopes : list string; Expiration : Z }.

Definition ErrInvalidToken : error := EPlain "invalid token".

Section Mcp.

(** The server of the SDK, what a request is, and the rest of the world with its clock. *)
Context {Sdk Request W : Type}.
Variable Now : W -> Z.

Definition Handler : Type := Request -> W -> W.
Definition TokenVerifier : Type := string -> Request -> W -> result error TokenInfo.

(** [sdk.StreamableHTTPOptions], as far as this package sets them. *)
Record StreamableHTTPOptions : Type := mkStreamable { Stateless : bool; JSONResponse : bool; StreamTimeout : Z }.

Record Config : Type := mkConfig {
  Name : string;
  Version : string;
  Path : string;
  Instructions : string;
  SessionTimeout : Z;
  Authorization : string;
  Verifier : option TokenVerifier;
  Streamable : option (StreamableHTTPOptions -> StreamableHTTPOptions);
}.

(** The SDK: [NewServer] from a name, a version and perhaps instructions,
    [NewStreamableHTTPHandler]. *)
Variable NewServer : string -> string -> option string -> Sdk.
Variable NewStreamableHTTPHandler : Sdk -> StreamableHTTPOptions -> Handler.

(** [auth.RequireBearerToken]: the bearer token of a request, if it has one; whether the
    token info grants the scopes at that time; the reply with a status. *)
Class BearerAuth : Type := {
  RequireBearerToken : TokenVerifier -> list string -> Handler -> Handler;
  bearer : Request -> option string;
  refuse : Z -> Handler;
}.
Class BearerLaws `{BearerAuth} : Prop := {
  bearer_pass v scopes h r w tok info :
    bearer r = Some tok -> v tok r w = Ok info -> (forall s, In s scopes -> In s (Scopes info)) -> Now w < Expiration info ->
    RequireBearerToken v scopes h r w = h r w;
  bearer_none v scopes h r w : bearer r = None -> RequireBearerToken v scopes h r w = refuse 401 r w;
  bearer_invalid v scopes h r w tok : bearer r = Some tok -> v tok r w = Err ErrInvalidToken -> RequireBearerToken v scopes h r w = refuse 401 r w;
}.
Context `{HB : BearerAuth} `{HBL : !BearerLaws}.

Record Server : Type := mkServer { sdk : Sdk; cfg : Config }.

Definition newServer (cfg : Config) (server : option Sdk) : Server :=
  match server with
  | Some s => mkServer s cfg
  | None =>
      let name := if String.eqb (Name cfg) EmptyString then "aeus" else Name cfg in
      let version := if String.eqb (Version cfg) EmptyString then "0.0.0" else Version cfg in
      let opts := if negb (String.eqb (Instructions cfg) EmptyString) then Some (Instructions cfg) else None in
      mkServer (NewServer name version opts) cfg
  end.

Definition New (cfg : Config) : Server := newServer cfg None.

(** [None] is the panic. *)
Definition NewWithServer (cfg : Config) (server : option Sdk) : option Server :=
  match server with None => None | Some s => Some (newServer cfg (Some s)) end.

Definition SDK (s : Server) : Sdk := sdk s.

Definition twoHours : Z := 2 * 3600 * 1000000000.

(** The constant-time comparison is one of the bytes. *)
Definition defaultTokenVerifier (expected : string) : TokenVerifier :=
  fun token _ w =>
    if negb (String.eqb token expected) then Err ErrInvalidToken
    else Ok (mkTokenInfo ["access"] (Now w + twoHours)).

(** The handler that [Attach] mounts. *)
Definition handlerOf (s : Server) : Handler :=
  let opts := mkStreamable true false (SessionTimeout (cfg s)) in
  let opts := match Streamable (cfg s) with Some f => f opts | None => opts end in
  let handler := NewStreamableHTTPHandler (sdk s) opts in
  let verifier := match Verifier (cfg s) with
                  | Some v => Some v
                  | None => if negb (String.eqb (Authorization (cfg s)) EmptyString) then Some (defaultTokenVerifier (Authorization (cfg s))) else None
                  end in
  match verifier with
  | Some v => RequireBearerToken v ["access"] handler
  | None => handler
  end.

Definition pathOf (s : Server) : string := if String.eqb (Path (cfg s)) EmptyString then "/mcp" else Path (cfg s).

(** [hs.Handle] of the HTTP server; [None] is the panic of a route that is taken. *)
Context {Engine : Type}.
Variable Handle : string -> string -> Handler -> Engine -> option Engine.

Fixpoint mount (methods : list string) (path : string) (h : Handler) (e : Engine) : option Engine :=
  match methods with
  | [] => Some e
  | m :: methods => match Handle m path h e with None => None | Some e => mount methods path h e end
  end.

Definition Attach (s : Server) (hs : option Engine) : option Engine :=
  match hs with
  | None => None
  | Some e => mount ["GET"; "POST"; "PUT"; "DELETE"] (pathOf s) (handlerOf s) e
  end.

(** With the default verifier the SDK sees exactly the requests whose bearer token is the
    configured one; every other request is answered 401, and nothing else happens. *)
Theorem mcp_gate (s : Server) (r : Request) (w : W) :
  Verifier (cfg s) = None -> Authorization (cfg s) <> EmptyString ->
  let opts := mkStreamable true false (SessionTimeout (cfg s)) in
  let h := NewStreamableHTTPHandler (sdk s) (match Streamable (cfg s) with Some f => f opts | None => opts end) in
  handlerOf s r w = if bool_decide (bearer r = Some (Authorization (cfg s))) then h r w else refuse 401 r w.
Proof.
  intros Hv Ha opts h. unfold handlerOf. rewrite Hv. rewrite (proj2 (String.eqb_neq _ _) Ha). cbn [negb]. fold opts. fold h.
  case_bool_decide as Hb.
  - eapply bearer_pass; [exact Hb| | |].
    + unfold defaultTokenVerifier. by rewrite String.eqb_refl.
    + intros x Hx. exact Hx.
    + cbn. unfold twoHours. lia.
  - destruct (bearer r) as [tok|] eqn:Eb; [|by apply bearer_none]. apply (bearer_invalid _ _ _ _ _ tok Eb). unfold defaultTokenVerifier.
    destruct (String.eqb_spec tok (Authorization (cfg s))) as [->|]; [done|reflexivity].
Qed.

(** Without a verifier and without a token the endpoint is open. *)
Lemma mcp_open (s : Server) :
  Verifier (cfg s) = None -> Authorization (cfg s) = EmptyString -> exists opts, handlerOf s = NewStreamableHTTPHandler (sdk s) opts.
Proof. intros Hv Ha. unfold handlerOf. rewrite Hv, Ha. eexists. reflexivity. Qed.

(** ** requests and responses of tools *)

Context {Call Key Content : Type} `{EqDecision Key}.
Variable contextKey : Key.

(** A context is the values added to it, the last first. *)
Definition Ctx : Type := list (Key * option Call).

Definition WithRequestContext (ctx : Ctx) (req : option Call) : Ctx := (contextKey, req) :: ctx.

Fixpoint ctxValue (ctx : Ctx) (k : Key) : option Call :=
  match ctx with [] => None | (k', v) :: ctx => if decide (k = k') then v else ctxValue ctx k end.
Definition RequestFromContext (ctx : Ctx) : option Call := ctxValue ctx contextKey.

Lemma request_context (ctx : Ctx) (req : option Call) : RequestFromContext (WithRequestContext ctx req) = req.
Proof. unfold RequestFromContext, WithRequestContext. cbn. by rewrite decide_True. Qed.

Context {Value : Type}.
Variable Marshal : Value -> result error string.
Variable TextContent : string -> Content.

Definition DefaultResponseMarshal (res : Value) : result error (list Content) :=
  match Marshal res with Err err => Err err | Ok buf => Ok [TextContent buf] end.

End Mcp.

(** ** An endpoint *)

(** A request is its bearer token; the world is what was reached, or the status. *)
Inductive reply : Type := Reached (name version : string) | Refused (status : Z) | Nothing.

#[export] Instance demoBearer : BearerAuth (Request := option string) (W := reply) := {|
  RequireBearerToken := fun v scopes h r w =>
    match r with
    | None => Refused 401
    | Some tok => match v tok r w with
                  | Err _ => Refused 401
                  | Ok info => if forallb (fun s => existsb (String.eqb s) (Scopes info)) scopes && (0 <? Expiration info) then h r w else Refused 403
                  end
    end;
  bearer := fun r => r;
  refuse := fun code _ _ => Refused code;
|}.

#[export] Instance demoBearer_laws : BearerLaws (fun _ : reply => 0).
Proof.
  split; cbn.
  - intros v scopes h r w tok info -> -> Hs He. assert (forallb (fun s => existsb (String.eqb s) (Scopes info)) scopes = true) as ->.
    { apply forallb_forall. intros s Hin. apply existsb_exists. exists s. split; [by apply Hs|by apply String.eqb_refl]. }
    by rewrite (proj2 (Z.ltb_lt _ _) He).
  - by intros v scopes h r w ->.
  - by intros v scopes h r w tok -> ->.
Qed.

Definition demoServer (authorization : string) : Server (Sdk := string * string) (Request := option string) (W := reply) :=
  New (fun name version _ => (name, version)) (mkConfig EmptyString "1.2" EmptyString EmptyString 0 authorization None None).

Definition demoHandler (authorization : string) : Handler (Request := option string) (W := reply) :=
  handlerOf (fun _ => 0) (fun s _ _ _ => Reached (fst s) (snd s)) (demoServer authorization).

Lemma mcp_gate_witness :
  demoHandler "secret" (Some "secret") Nothing = Reached "aeus" "1.2" /\ demoHandler "secret" (Some "wrong") Nothing = Refused 401
  /\ demoHandler "secret" None Nothing = Refused 401.
Proof.
  pose proof (fun r => mcp_gate (fun _ => 0) (fun s _ _ _ => Reached (fst s) (snd s)) (demoServer "secret") r Nothing eq_refl ltac:(discriminate)) as H.
  split; [|split]; unfold demoHandler; rewrite H; reflexivity.
Defined.

Example mcp_open_demo : demoHandler EmptyString None Nothing = Reached "aeus" "1.2" /\ pathOf (demoServer "secret") = "/mcp".
Proof. split; reflexivity. Qed.
