(* ===== verification/GrpcServer.v ===== *)
(** [transport/grpc]: the interceptors of unary and streaming calls: the metadata a call
    carries, its middlewares, and what an error becomes on the wire. *)

From Stdlib Require Import ZArith Lia String Ascii List Bool.
From stdpp Require Import base tactics list gmap strings.
From S2P Require Import Prelude GoStrings Errs Metadata Middleware.

Local Open Scope string_scope.
Local Open Scope list_scope.

Definition Protocol : string := "grpc".

(** [grpc/metadata.MD], as its documentation describes it: values by key, keys without
    regard to case. *)
Class GrpcMD (MD : Type) : Type := {
  mdValues : MD -> string -> list string;
  mdPut : MD -> string -> string -> MD;
  mdEmpty : MD;
  mdLen : MD -> nat;
}.
Class GrpcMDLaws (MD : Type) `{GrpcMD MD} : Prop := {
  mdValues_put : forall m k v k', mdValues (mdPut m k v) k' = if decide (ToLower k = ToLower k') then [v] else mdValues m k';
  mdValues_empty : forall k, mdValues mdEmpty k = [];
}.

(** An error on the wire: [status.Error(code, message)] (nil for OK), or another error,
    whose text grpc sends with code Unknown. *)
Inductive wireError : Type := Status (code : Z) (message : string) | Other (err : error).

Definition statusError (code : Z) (message : string) : option wireError :=
  if (code =? 0)%Z then None else Some (Status code message).

Definition mapGRPCError (err : option error) : option wireError :=
  match err with
  | None => None
  | Some err =>
      if Middleware.IsAbort err then
        match As err with
        | Some ae => statusError (GRPCStatus ae) (Message ae)
        | None => statusError 0 EmptyString
        end
      else match As err with
           | Some ae => statusError (GRPCStatus ae) (Message ae)
           | None => Some (Other err)
           end
  end.

Section Server.

Context {MD : Type} `{GrpcMDLaws MD}.
Context {Claims Env Req Resp : Type}.

(** One call: its context, the metadata in both directions, the response so far. *)
Record Call : Type := mkCall {
  cIncoming : option MD;
  cOutgoing : MD;
  cResp : option Resp;
  cHeader : option MD;       (* what [grpc.SetHeader] was given *)
  cEnv : Env;
}.
Notation State := (@Store Call).

Definition grpcMetadataReader (incoming : MD) (c : Call) (key : string) : string :=
  match mdValues incoming key with v :: _ => v | [] => EmptyString end.
Definition grpcMetadataWriter (c : Call) (key value : string) : Call :=
  mkCall (cIncoming c) (mdPut (cOutgoing c) key value) (cResp c) (cHeader c) (cEnv c).

Definition setResp (r : option Resp) (c : Call) : Call := mkCall (cIncoming c) (cOutgoing c) r (cHeader c) (cEnv c).
Definition setHeader (h : option MD) (c : Call) : Call := mkCall (cIncoming c) (cOutgoing c) (cResp c) h (cEnv c).
Definition setOutgoing (m : MD) (c : Call) : Call := mkCall (cIncoming c) m (cResp c) (cHeader c) (cEnv c).
Definition setEnv (e : Env) (c : Call) : Call := mkCall (cIncoming c) (cOutgoing c) (cResp c) (cHeader c) e.
Definition onCall (f : Call -> Call) (s : State) : State := mkStore (objects s) (f (world s)).

Record Recorder : Type := mkRecorder {
  RecordRequestDuration : string -> string -> string -> Z -> Env -> Env;
  RecordRequestTotal : string -> string -> string -> Env -> Env;
}.
Variable metrics : option Recorder.
Variable Now : Env -> Z.
Variable newUUID : Env -> string * Env.
Variable middlewares : list (Middleware (Claims := Claims) (World := Call)).
(** [grpcmd.FromOutgoingContext] of the context of the call. *)
Variable outgoingOf : GoContext Claims -> option MD.

(** [attachMetadata]: the writer writes to the outgoing metadata, which is a map and
    so shared with the caller of this function. *)
Definition attachMetadata (ctx : GoContext Claims) (fullMethod : string) (s : State) : State * GoContext Claims :=
  let '(s, l) := FromContext s (ctxMeta ctx) in
  let s := match cIncoming (world s) with
           | Some incoming => update s l (world s, setTeeReader (deref s l) (grpcMetadataReader incoming))
           | None => s
           end in
  let s := onCall (setOutgoing (default mdEmpty (outgoingOf ctx))) s in
  let s := update s l (world s, setTeeWriter (deref s l) grpcMetadataWriter) in
  let s := if negb (mdHas (world s) (deref s l) RequestID) then
             let '(id, e) := newUUID (cEnv (world s)) in
             let s := onCall (setEnv e) s in
             update s l (mdSet (world s) (deref s l) RequestID id)
           else s in
  let s := update s l (mdSet (world s) (deref s l) RequestPath fullMethod) in
  let s := update s l (mdSet (world s) (deref s l) RequestProtocol Protocol) in
  (s, mkCtx (NewContext l) (ctxClaims ctx)).

Definition recordMetrics (fullMethod : string) (start : Z) (err : option wireError) (s : State) : State :=
  match metrics with
  | None => s
  | Some m =>
      let status := match err with Some _ => "error" | None => "success" end in
      onCall (fun c => setEnv (RecordRequestTotal m Protocol fullMethod status
                         (RecordRequestDuration m Protocol fullMethod status (Now (cEnv c) - start) (cEnv c))) c) s
  end.

Definition flushOutgoingMD (s : State) : State :=
  if (0 <? mdLen (cOutgoing (world s)))%nat then onCall (fun c => setHeader (Some (cOutgoing c)) c) s else s.

(** A unary handler, with the request it is called with. *)
Definition UnaryHandler : Type := GoContext Claims -> Env -> Env * (option Resp * option error).

Definition unaryNext (handler : UnaryHandler) : Handler (Claims := Claims) (World := Call) :=
  fun ctx s =>
    let '(e, (resp, nerr)) := handler ctx (cEnv (world s)) in
    (onCall (fun c => setResp resp (setEnv e c)) s, nerr).

Definition unaryServerInterceptor (fullMethod : string) (handler : UnaryHandler) (ctx : GoContext Claims) (s : State) :
    State * option Resp * option wireError :=
  let start := Now (cEnv (world s)) in
  let h := Chain middlewares (unaryNext handler) in
  let '(s, ctx) := attachMetadata ctx fullMethod s in
  let '(s, err) := h ctx s in
  let err := mapGRPCError err in
  let s := flushOutgoingMD s in
  let s := recordMetrics fullMethod start err s in
  (s, cResp (world s), err).

(** A stream handler reads its context from the stream, whatever context the
    middlewares pass on. *)
Definition streamNext (handler : GoContext Claims -> Env -> Env * option error) (ssCtx : GoContext Claims) :
    Handler (Claims := Claims) (World := Call) :=
  fun _ s =>
    let '(e, err) := handler ssCtx (cEnv (world s)) in
    (onCall (setEnv e) s, err).

Definition streamServerInterceptor (fullMethod : string) (handler : GoContext Claims -> Env -> Env * option error)
    (ssCtx : GoContext Claims) (s : State) : State * option wireError :=
  let start := Now (cEnv (world s)) in
  let h := Chain middlewares (streamNext handler ssCtx) in
  let '(s, ctx) := attachMetadata ssCtx fullMethod s in
  let '(s, err) := h ctx s in
  let err := mapGRPCError err in
  let s := flushOutgoingMD s in
  let s := recordMetrics fullMethod start err s in
  (s, err).

(** ** Errors on the wire *)

Lemma GRPCStatus_nonzero (ae : Error) : (GRPCStatus ae =? 0)%Z = false.
Proof. unfold GRPCStatus, switch, existsb. repeat case_match; done. Qed.

(** What a failed call becomes: an application error anywhere in the failure gives its
    status code and message, an abort of none is success, anything else is passed on,
    and a failure that is no such abort is never reported as success. *)
Theorem wire_error (err : error) :
  mapGRPCError (Some err) = match As err with
                            | Some ae => Some (Status (GRPCStatus ae) (Message ae))
                            | None => if Middleware.IsAbort err then None else Some (Other err)
                            end
  /\ (mapGRPCError (Some err) = None <-> Middleware.IsAbort err = true /\ As err = None).
Proof.
  assert (forall ae, statusError (GRPCStatus ae) (Message ae) = Some (Status (GRPCStatus ae) (Message ae))) as Hs.
  { intros ae. unfold statusError. by rewrite GRPCStatus_nonzero. }
  unfold mapGRPCError. destruct (Middleware.IsAbort err) eqn:Ea, (As err) as [ae|] eqn:Eas; rewrite ?Hs; split; try done;
    split; try done; by intros [? ?].
Qed.

(** ** What the middlewares decide *)

Lemma finish_resp (fullMethod : string) (start : Z) (err : option wireError) (s : State) :
  cResp (world (recordMetrics fullMethod start err (flushOutgoingMD s))) = cResp (world s).
Proof. unfold recordMetrics, flushOutgoingMD. destruct metrics, (0 <? _)%nat; done. Qed.

(** A unary call is what its middlewares make of the handler's response and error. *)
Lemma unary_spec (fullMethod : string) (handler : UnaryHandler) (ctx ctx' : GoContext Claims) (s s0 s1 : State) (r : option error) :
  attachMetadata ctx fullMethod s = (s0, ctx') -> Chain middlewares (unaryNext handler) ctx' s0 = (s1, r) ->
  let '(_, resp, err) := unaryServerInterceptor fullMethod handler ctx s in
  resp = cResp (world s1) /\ err = mapGRPCError r.
Proof.
  intros Ha Hc. unfold unaryServerInterceptor. rewrite Ha, Hc. split; [|done]. apply finish_resp.
Qed.

(** The context a middleware hands to a stream's handler is dropped: the handler sees the
    stream's own, without the claims or the metadata the middlewares attached. *)
Lemma stream_context_dropped (handler : GoContext Claims -> Env -> Env * option error) (ssCtx ctx : GoContext Claims) (s : State) :
  streamNext handler ssCtx ctx s = streamNext handler ssCtx ssCtx s.
Proof. reflexivity. Qed.

(** ** The metadata of a call *)

(** What the client sent under a key. *)
Definition sent (c : Call) (k : string) : string :=
  match cIncoming c with Some m => grpcMetadataReader m c (canonicalMetadataKey k) | None => EmptyString end.

(** The reader of a call does not look at the call's state. *)
Definition reads (incoming : option MD) (m : Metadata (World := Call)) : Prop :=
  teeReader m = match incoming with Some x => Some (grpcMetadataReader x) | None => None end.

Lemma mdGet_set (incoming : option MD) (w w' : Call) (m : Metadata) (k v k' : string) :
  reads incoming m -> 
  reads incoming (snd (mdSet w m k v))
  /\ mdGet w' (snd (mdSet w m k v)) k' = if decide (canonicalMetadataKey k = canonicalMetadataKey k') then (v, true) else mdGet w m k'.
Proof.
  intros Hr. split; [exact Hr|]. rewrite mdGet_mdSet. case_decide; [done|]. unfold mdGet. rewrite Hr. by destruct incoming.
Qed.

Lemma mdGet_fresh (incoming : option MD) (w : Call) (m : Metadata) (k : string) :
  reads incoming m -> variables m = ∅ -> cIncoming w = incoming ->
  mdGet w m k = if String.eqb (sent w k) EmptyString then (EmptyString, false) else (sent w k, true).
Proof.
  intros Hr Hv Hi. unfold mdGet, sent. rewrite Hr, Hv, Hi, lookup_empty. destruct incoming as [x|]; [|done].
  by destruct (String.eqb_spec (grpcMetadataReader x w (canonicalMetadataKey k)) EmptyString) as [->|].
Qed.

(** What the middlewares of a gRPC call read: the path is the full method and the
    protocol grpc, whatever the client sent; the request id is the client's or a fresh
    one; every other key, the client address, the route and the HTTP method included,
    is what the client sent under it. *)
Theorem grpc_metadata (ctx : GoContext Claims) (fullMethod : string) (s : State) :
  ctxMeta ctx = None ->
  let '(s', ctx') := attachMetadata ctx fullMethod s in
  let c := world s in
  ctxClaims ctx' = ctxClaims ctx
  /\ Get s' (ctxMeta ctx') RequestPath = (fullMethod, true)
  /\ Get s' (ctxMeta ctx') RequestProtocol = (Protocol, true)
  /\ Get s' (ctxMeta ctx') RequestID
     = (if String.eqb (sent c RequestID) EmptyString then fst (newUUID (cEnv c)) else sent c RequestID, true)
  /\ forall k, ~ In (canonicalMetadataKey k) (map canonicalMetadataKey [RequestPath; RequestProtocol; RequestID]) ->
       Get s' (ctxMeta ctx') k = if String.eqb (sent c k) EmptyString then (EmptyString, false) else (sent c k, true).
Proof.
  intros Hc. unfold attachMetadata. rewrite Hc. unfold FromContext.
  destruct (alloc s newMetadata) as [s1 l] eqn:Ea.
  assert (world s1 = world s /\ deref s1 l = newMetadata) as [Hw1 Hd1].
  { unfold alloc in Ea. injection Ea as <- <-. split; [done|]. unfold deref. cbn [objects]. by rewrite lookup_insert_eq. }
  set (s2 := match cIncoming (world s1) with Some i => _ | None => _ end).
  assert (world s2 = world s /\ reads (cIncoming (world s)) (deref s2 l) /\ variables (deref s2 l) = ∅) as (Hw2 & Hr2 & Hv2).
  { unfold s2. rewrite Hw1. destruct (cIncoming (world s)) as [i|]; [rewrite deref_update, world_update|]; cbn [snd fst];
      unfold reads; rewrite Hd1; done. }
  clearbody s2. set (s3 := onCall _ s2). set (s4 := update s3 l _).
  assert (cIncoming (world s4) = cIncoming (world s) /\ cEnv (world s4) = cEnv (world s)
          /\ reads (cIncoming (world s)) (deref s4 l) /\ variables (deref s4 l) = ∅) as (Hi4 & He4 & Hr4 & Hv4).
  { unfold s4. rewrite deref_update, world_update. cbn [fst snd]. unfold s3. cbn [world onCall setOutgoing cIncoming cEnv].
    rewrite Hw2. done. }
  assert (forall k, sent (world s4) k = sent (world s) k) as Hsent by (intros k; unfold sent; by rewrite Hi4).
  assert (forall k, mdGet (world s4) (deref s4 l) k
                    = if String.eqb (sent (world s) k) EmptyString then (EmptyString, false) else (sent (world s) k, true)) as Hg4.
  { intros k. rewrite (mdGet_fresh (cIncoming (world s))) by done. by rewrite Hsent. }
  clearbody s4. clear s3.
  set (id := if String.eqb (sent (world s) RequestID) EmptyString then fst (newUUID (cEnv (world s))) else sent (world s) RequestID).
  set (s5 := if negb _ then _ else _).
  assert (reads (cIncoming (world s)) (deref s5 l) /\ forall k, mdGet (world s5) (deref s5 l) k
            = if decide (canonicalMetadataKey RequestID = canonicalMetadataKey k) then (id, true)
              else if String.eqb (sent (world s) k) EmptyString then (EmptyString, false) else (sent (world s) k, true)) as [Hr5 Hg5].
  { unfold s5, id, mdHas. rewrite Hg4, He4. destruct (String.eqb_spec (sent (world s) RequestID) EmptyString) as [E|E]; cbn [negb snd].
    - destruct (newUUID _) as [u e]. set (s4' := onCall (setEnv e) s4). rewrite deref_update, world_update.
      destruct (mdGet_set (cIncoming (world s)) (world s4') (fst (mdSet (world s4') (deref s4' l) RequestID u)) (deref s4' l) RequestID u EmptyString Hr4) as [Hr _].
      split; [exact Hr|]. intros k.
      destruct (mdGet_set (cIncoming (world s)) (world s4') (fst (mdSet (world s4') (deref s4' l) RequestID u)) (deref s4' l) RequestID u k Hr4) as [_ ->].
      case_decide; [done|]. rewrite <- Hg4. unfold mdGet. change (deref s4' l) with (deref s4 l). rewrite Hr4. by destruct (cIncoming (world s)).
    - split; [exact Hr4|]. intros k. case_decide as Hk; [|by apply Hg4]. rewrite Hg4.
      assert (sent (world s) k = sent (world s) RequestID) as -> by (unfold sent; by rewrite Hk).
      by rewrite (proj2 (String.eqb_neq _ _) E). }
  clearbody s5. set (s6 := update s5 l (mdSet (world s5) (deref s5 l) RequestPath fullMethod)).
  assert (forall k, mdGet (world s6) (deref s6 l) k
            = if decide (canonicalMetadataKey RequestPath = canonicalMetadataKey k) then (fullMethod, true) else mdGet (world s5) (deref s5 l) k) as Hg6.
  { intros k. unfold s6. rewrite deref_update, world_update.
    by destruct (mdGet_set (cIncoming (world s)) (world s5) (fst (mdSet (world s5) (deref s5 l) RequestPath fullMethod)) (deref s5 l) RequestPath fullMethod k Hr5) as [_ ->]. }
  assert (reads (cIncoming (world s)) (deref s6 l)) as Hr6 by (unfold s6; by rewrite deref_update).
  clearbody s6. set (s7 := update s6 l _). cbn [ctxMeta ctxClaims].
  assert (forall k, Get s7 (NewContext l) k
            = if decide (canonicalMetadataKey RequestProtocol = canonicalMetadataKey k) then (Protocol, true) else mdGet (world s6) (deref s6 l) k) as Hg7.
  { intros k. unfold NewContext. rewrite Get_Some. unfold s7. rewrite deref_update, world_update.
    by destruct (mdGet_set (cIncoming (world s)) (world s6) (fst (mdSet (world s6) (deref s6 l) RequestProtocol Protocol)) (deref s6 l) RequestProtocol Protocol k Hr6) as [_ ->]. }
  rewrite !Hg7. split; [done|]. rewrite !Hg6, !Hg5. do 3 (split; [reflexivity|]). intros k Hk.
  rewrite Hg7, decide_False by (intros Hx; apply Hk; rewrite <- Hx; cbn; auto).
  rewrite Hg6, decide_False by (intros Hx; apply Hk; rewrite <- Hx; cbn; auto).
  by rewrite Hg5, decide_False by (intros Hx; apply Hk; rewrite <- Hx; cbn; auto).
Qed.

(** A unary call its middlewares refuse runs no handler: when they end with an error
    without looking at what comes next, the outcome is the same for every handler:
    no response, and the error on the wire. *)
Theorem grpc_refused (fullMethod : string) (ctx ctx' : GoContext Claims) (s s0 s1 : State) (e : error) :
  attachMetadata ctx fullMethod s = (s0, ctx') ->
  (forall next, Chain middlewares next ctx' s0 = (s1, Some e)) -> cResp (world s1) = None ->
  exists s', forall handler, unaryServerInterceptor fullMethod handler ctx s = (s', None, mapGRPCError (Some e)).
Proof.
  intros Ha Hc Hr.
  exists (recordMetrics fullMethod (Now (cEnv (world s))) (mapGRPCError (Some e)) (flushOutgoingMD s1)). intros handler.
  unfold unaryServerInterceptor. rewrite Ha, Hc, finish_resp, Hr. done.
Qed.

End Server.

(** Metadata as lists of values by key. *)
#[export] Instance listMD : GrpcMD (gmap string (list string)) := {
  mdValues m k := default [] (m !! ToLower k);
  mdPut m k v := <[ToLower k := [v]]> m;
  mdEmpty := ∅;
  mdLen m := size m;
}.
#[export] Instance listMD_laws : GrpcMDLaws (gmap string (list string)).
Proof.
  constructor; cbn; [|done]. intros m k v k'. rewrite lookup_insert. by case_decide.
Qed.

(** A client that names its own address. *)
Definition demoCall : Store (World := Call (MD := gmap string (list string)) (Env := nat) (Resp := string)) :=
  mkStore ∅ (mkCall (Some {["x-aeus-request-client-ip" := ["10.0.0.9"]; "x-aeus-request-path" := ["/login"]]}) ∅ None None 0).
Definition demoAttach := attachMetadata (fun n => ("id", S n)) (fun _ => None) (mkCtx (Claims := string) None None) "/shop.Orders/Get" demoCall.

Lemma grpc_metadata_witness :
  let '(s', ctx') := demoAttach in
  Get s' (ctxMeta ctx') RequestPath = ("/shop.Orders/Get", true)
  /\ Get s' (ctxMeta ctx') RequestClientIP = ("10.0.0.9", true).
Proof.
  pose proof (grpc_metadata (fun n => ("id", S n)) (fun _ => None) (mkCtx (Claims := string) None None) "/shop.Orders/Get" demoCall eq_refl) as Hm.
  unfold demoAttach. destruct (attachMetadata _ _ _ _ _) as [s' ctx']. destruct Hm as (_ & Hp & _ & _ & Hk).
  split; [exact Hp|]. rewrite Hk; [reflexivity|]. cbn. intros [E|[E|[E|[]]]]; discriminate E.
Defined.

Definition demoRefuse : Middleware (Claims := string) (World := Call (MD := gmap string (list string)) (Env := nat) (Resp := string)) :=
  fun _ _ s => (s, Some (ESentinel (SErrs ErrAccessDenied))).

Lemma grpc_refused_witness :
  exists s', unaryServerInterceptor None (fun n => 0%Z) (fun n => ("id", S n)) [demoRefuse] (fun _ => None) "/shop.Orders/Get"
    (fun ctx n => (S n, (Some "orders", None))) (mkCtx None None) demoCall = (s', None, Some (Status grpcPermissionDenied "access denied")).
Proof.
  destruct (grpc_refused None (fun n => 0%Z) (fun n => ("id", S n)) [demoRefuse] (fun _ => None) "/shop.Orders/Get" (mkCtx None None)
              (snd demoAttach) demoCall (fst demoAttach) (fst demoAttach) (ESentinel (SErrs ErrAccessDenied))
              (surjective_pairing _) (fun next => eq_refl) eq_refl) as (s' & Hs).
  exists s'. exact (Hs _).
Defined.
