(* ===== verification/Registry.v ===== *)
(** [registry/etcd]: services registered under keys of a store, found by the prefix of
    their name, and watched.

    The etcd client is a parameter: an interface of its operations with the laws of its
    documentation, over the key-value map one sees of the cluster. *)

From Stdlib Require Import ZArith Lia String Ascii List Bool.
From stdpp Require Import base tactics list gmap strings.
From S2P Require Import Prelude GoStrings GoPath Errs.

Local Open Scope string_scope.
Local Open Scope list_scope.

(** ** Keys *)

(** [path.Join] *)
Definition PathJoinAll (elems : list string) : string :=
  match List.filter (fun s => negb (String.eqb s EmptyString)) elems with
  | [] => EmptyString
  | l => Clean (Join l "/")
  end.

Record Service : Type := mkService {
  sID : string; sName : string; sVersion : string; sMetadata : list (string * string); sEndpoints : list string;
}.

Definition prefixKey (prefix name : string) : string := PathJoinAll [prefix; name] +:+ "/".
Definition buildKey (prefix : string) (s : Service) : string := PathJoinAll [prefix; sName s; sID s].

(** A prefix whose elements are ordinary names between any number of slashes. *)
Definition okPrefix (p : string) (elems : list string) : Prop :=
  rooted p = true /\ List.filter (fun x => negb (String.eqb x EmptyString)) (SplitByte p slash) = elems /\ Forall plain elems.

Lemma SplitByte_sep (a b : string) (c : ascii) : SplitByte (a +:+ String c b) c = SplitByte a c ++ SplitByte b c.
Proof.
  induction a as [|x a IH]; [cbn [String.append SplitByte]; by rewrite Ascii.eqb_refl|].
  cbn [String.append SplitByte]. rewrite IH. destruct (Ascii.eqb x c); [done|].
  pose proof (SplitByte_nonempty a c) as Hne. by destruct (SplitByte a c).
Qed.

(** Empty elements vanish. *)
Lemma cleanStep_sparse (kept l : list string) :
  Forall plain (List.filter (fun x => negb (String.eqb x EmptyString)) l) ->
  fold_left (cleanStep true) l kept = rev (List.filter (fun x => negb (String.eqb x EmptyString)) l) ++ kept.
Proof.
  revert kept. induction l as [|x l IH]; intros kept; [done|]. cbn [List.filter fold_left].
  destruct (String.eqb_spec x EmptyString) as [->|Hx]; cbn [negb]; [apply IH|].
  intros Hp. inversion Hp as [|? ? (_ & H2 & H3 & _) Hl]; subst. rewrite IH by done. cbn [rev]. rewrite <- app_assoc. f_equal.
  unfold cleanStep. by rewrite !(proj2 (String.eqb_neq _ _)).
Qed.

Lemma Clean_sparse (s : string) (elems : list string) : okPrefix s elems -> rootedClean (Clean s) elems.
Proof.
  intros (Hr & He & Hp). split; [|done]. unfold Clean. rewrite Hr. subst elems. rewrite cleanStep_sparse by done.
  by rewrite app_nil_r, rev_involutive.
Qed.

Lemma okPrefix_extend (p x : string) (elems : list string) : okPrefix p elems -> plain x -> okPrefix (p +:+ "/" +:+ x) (elems ++ [x]).
Proof.
  intros (Hr & He & Hp) Hx. destruct Hx as (H1 & H2 & H3 & H4). split; [|split].
  - apply rooted_spec in Hr as [t ->]. apply rooted_spec. by eexists.
  - change (p +:+ "/" +:+ x) with (p +:+ String slash x). rewrite SplitByte_sep, List.filter_app, He, SplitByte_free by done.
    cbn. by rewrite (proj2 (String.eqb_neq _ _) H1).
  - apply Forall_app. split; [done|]. by repeat constructor.
Qed.

Lemma prefixKey_spec (p name : string) (elems : list string) :
  okPrefix p elems -> plain name -> prefixKey p name = "/" +:+ Join (elems ++ [name]) "/" +:+ "/".
Proof.
  intros Hp Hn. unfold prefixKey, PathJoinAll. cbn [List.filter].
  destruct p as [|a p]; [by destruct Hp|]. rewrite (proj2 (String.eqb_neq name _)) by apply Hn. cbn [String.eqb negb Join].
  by rewrite (proj1 (Clean_sparse _ _ (okPrefix_extend _ _ _ Hp Hn))).
Qed.

Lemma buildKey_spec (p : string) (s : Service) (elems : list string) :
  okPrefix p elems -> plain (sName s) -> plain (sID s) -> rootedClean (buildKey p s) (elems ++ [sName s; sID s]).
Proof.
  intros Hp Hn Hi. unfold buildKey, PathJoinAll. cbn [List.filter].
  destruct p as [|a p]; [by destruct Hp|]. rewrite (proj2 (String.eqb_neq (sName s) _)) by apply Hn.
  rewrite (proj2 (String.eqb_neq (sID s) _)) by apply Hi. cbn [String.eqb negb Join].
  change [sName s; sID s] with ([sName s] ++ [sID s]). rewrite app_assoc. apply Clean_sparse.
  rewrite <- (append_assoc "/"), <- append_assoc. apply okPrefix_extend; [|done]. by apply okPrefix_extend.
Qed.

(** The key of a service lies under the prefix of a name exactly when the service has it. *)
Lemma key_under_name (p name : string) (s : Service) (elems : list string) :
  okPrefix p elems -> plain name -> plain (sName s) -> plain (sID s) ->
  HasPrefix (buildKey p s) (prefixKey p name) = true <-> sName s = name.
Proof.
  intros Hp Hn Hsn Hsi. rewrite (prefixKey_spec p name elems) by done.
  pose proof (buildKey_spec p s elems Hp Hsn Hsi) as Hb. rewrite HasPrefix_spec. split.
  - intros [r Hr]. assert (rootedClean ("/" +:+ Join (elems ++ [name]) "/") (elems ++ [name])) as Hc.
    { split; [done|]. apply Forall_app. split; [apply Hp|by apply Forall_singleton]. }
    destruct (rootedClean_prefix _ (buildKey p s) r _ _ Hc ltac:(by destruct elems) Hb) as [es' He].
    + rewrite Hr. by rewrite !append_assoc.
    + rewrite <- app_assoc in He. apply app_inv_head in He. by injection He.
  - intros <-. exists (sID s). destruct Hb as [-> _].
    change (elems ++ [sName s; sID s]) with (elems ++ ([sName s] ++ [sID s])). rewrite app_assoc.
    rewrite Join_app by (by destruct elems). by rewrite !append_assoc.
Qed.

Lemma buildKey_inj (p : string) (s s' : Service) (elems : list string) :
  okPrefix p elems -> plain (sName s) -> plain (sID s) -> plain (sName s') -> plain (sID s') ->
  buildKey p s = buildKey p s' -> (sName s, sID s) = (sName s', sID s').
Proof.
  intros Hp H1 H2 H3 H4 He. pose proof (buildKey_spec p s elems Hp H1 H2) as Hb. rewrite He in Hb.
  pose proof (rootedClean_inj _ _ _ Hb (buildKey_spec p s' elems Hp H3 H4)) as Hl. apply app_inv_head in Hl. by injection Hl as -> ->.
Qed.

(** ** The store *)

Class Etcd (E : Type) : Type := {
  kv : E -> gmap string string;
  Grant : Z -> E -> E * result error Z;
  KeepAliveOnce : Z -> E -> E * option error;
  Put : string -> string -> option Z -> E -> E * option error;
  Delete : string -> E -> E * option error;
  GetPrefix : string -> E -> result error (list (string * string));
}.

Class EtcdLaws (E : Type) `{Etcd E} : Prop := {
  Grant_kv : forall ttl e, kv (fst (Grant ttl e)) = kv e;
  Grant_id : forall ttl e e' id, Grant ttl e = (e', Ok id) -> (0 < id)%Z;
  KeepAliveOnce_kv : forall id e, kv (fst (KeepAliveOnce id e)) = kv e;
  Put_kv : forall k v lease e e', Put k v lease e = (e', None) -> kv e' = <[k := v]> (kv e);
  Delete_kv : forall k e e', Delete k e = (e', None) -> kv e' = delete k (kv e);
  GetPrefix_kv : forall p e l, GetPrefix p e = Ok l ->
    Permutation l (filter (fun x => HasPrefix (fst x) p = true) (map_to_list (kv e)));
}.

Section Registry.

Context {E : Type} `{EtcdLaws E}.

(** encoding/json on a service; [rpctypes.ErrLeaseNotFound]. *)
Variable Marshal : Service -> result error string.
Variable Unmarshal : string -> result error Service.
Variable isLeaseNotFound : error -> bool.

(** The registry: its prefix, its one lease (0 before the first), the cluster. *)
Record etcdRegistry : Type := mkRegistry { rgPrefix : string; rgLease : Z; rgStore : E }.

Definition setLease (id : Z) (r : etcdRegistry) : etcdRegistry := mkRegistry (rgPrefix r) id (rgStore r).
Definition setStore (e : E) (r : etcdRegistry) : etcdRegistry := mkRegistry (rgPrefix r) (rgLease r) e.

Definition defaultPrefix : string := "/micro/service/".
(** [Init]: the prefix of the options, else the one it has, else the default. *)
Definition initPrefix (prefix : string) (option : string) : string :=
  let prefix := if negb (String.eqb option EmptyString) then option else prefix in
  if String.eqb prefix EmptyString then defaultPrefix else prefix.

Definition marshalService (s : Service) : string := match Marshal s with Ok b => b | Err _ => EmptyString end.

(** The write of a service under a lease of its own, or under none. *)
Definition putService (s : Service) (lease : option Z) (r : etcdRegistry) : etcdRegistry * option error :=
  let '(e, err) := Put (buildKey (rgPrefix r) s) (marshalService s) lease (rgStore r) in
  let r := setStore e r in
  match lease, err with
  | Some id, None => (setLease id r, None)
  | _, _ => (r, err)
  end.

(** [ttl] in nanoseconds, below 2^22 seconds (where its float64 is exact enough). *)
Definition Register (s : Service) (ttl : Z) (r : etcdRegistry) : etcdRegistry * option error :=
  if (0 <? ttl)%Z then
    let grant r :=
      let '(e, g) := Grant (Z.quot ttl 1000000000) (rgStore r) in
      match g with
      | Err err => (setStore e r, Some err)
      | Ok id => putService s (Some id) (setStore e r)
      end in
    if (0 <? rgLease r)%Z then
      let '(e, err) := KeepAliveOnce (rgLease r) (rgStore r) in
      let r := setStore e r in
      match err with
      | None => (r, None)
      | Some err => if negb (isLeaseNotFound err) then (r, Some err) else grant r
      end
    else grant r
  else putService s None r.

(** The error of the deletion is dropped. *)
Definition Deregister (s : Service) (r : etcdRegistry) : etcdRegistry * option error :=
  let '(e, _) := Delete (buildKey (rgPrefix r) s) (rgStore r) in
  (setStore e r, None).

Fixpoint unmarshalAll (l : list (string * string)) : list Service :=
  match l with
  | [] => []
  | (_, v) :: rest => match Unmarshal v with Ok s => s :: unmarshalAll rest | Err _ => unmarshalAll rest end
  end.

Definition GetService (name : string) (r : etcdRegistry) : result error (list Service) :=
  match GetPrefix (prefixKey (rgPrefix r) name) (rgStore r) with
  | Err e => Err e
  | Ok [] => Err (ESentinel (SErrs ErrNotFound))
  | Ok kvs => Ok (unmarshalAll kvs)
  end.

(** [Status]: every endpoint answers. *)
Fixpoint probe (status : string -> option error) (endpoints : list string) : bool * option error :=
  match endpoints with
  | [] => (true, None)
  | e :: rest => match status e with Some err => (false, Some err) | None => probe status rest end
  end.

(** ** Watching *)

(** What a call of [Next] meets: the context's end, or the channel. *)
Inductive watchEvent : Type := CtxDone (err : error) | WatchError (err : error) | WatchOk | WatchClosed.

Definition ErrClosedPipe : error := EPlain "io: read/write on closed pipe".

(** The first call does not wait; [setup] is the flag. *)
Definition Next (name : string) (setup : bool) (ev : watchEvent) (r : etcdRegistry) : bool * result error (list Service) :=
  if negb setup then (true, GetService name r)
  else (true, match ev with
              | CtxDone err => Err err
              | WatchError err => Err err
              | WatchOk => GetService name r
              | WatchClosed => Err ErrClosedPipe
              end).

(** ** The directory the registry implements *)

Hypothesis Unmarshal_Marshal : forall s b, Marshal s = Ok b -> Unmarshal b = Ok s.
Hypothesis Marshal_total : forall s, exists b, Marshal s = Ok b.

(** Services by name and id. *)
Definition idOf (s : Service) : string * string := (sName s, sID s).
Definition wellNamed (s : Service) : Prop := plain (sName s) /\ plain (sID s).

(** The cluster holds the directory: one key per service, and nothing else. *)
Definition implements (r : etcdRegistry) (d : gmap (string * string) Service) : Prop :=
  (exists elems, okPrefix (rgPrefix r) elems)
  /\ map_Forall (fun k s => k = idOf s /\ wellNamed s) d
  /\ forall k v, kv (rgStore r) !! k = Some v
       <-> exists s, d !! idOf s = Some s /\ k = buildKey (rgPrefix r) s /\ Marshal s = Ok v.

Lemma implements_kv (r r' : etcdRegistry) (d : gmap (string * string) Service) :
  rgPrefix r' = rgPrefix r -> kv (rgStore r') = kv (rgStore r) -> implements r d -> implements r' d.
Proof. intros Hp Hk (He & Hd & Hkv). unfold implements. rewrite Hp, Hk. done. Qed.

Lemma key_of (r : etcdRegistry) (d : gmap (string * string) Service) (s s' : Service) :
  implements r d -> d !! idOf s' = Some s' -> wellNamed s -> buildKey (rgPrefix r) s = buildKey (rgPrefix r) s' -> idOf s = idOf s'.
Proof.
  intros ([elems He] & Hd & _) Hs' [H1 H2] Hk. destruct (Hd _ _ Hs') as [_ [H3 H4]]. by eapply buildKey_inj.
Qed.

Lemma putService_implements (s : Service) (lease : option Z) (r r' : etcdRegistry) (d : gmap (string * string) Service) :
  implements r d -> wellNamed s -> putService s lease r = (r', None) -> implements r' (<[idOf s := s]> d).
Proof.
  intros Himp Hs. pose proof Himp as ([elems He] & Hd & Hkv). unfold putService.
  destruct (Put _ _ _ _) as [e [err|]] eqn:Ep; [by destruct lease|]. apply Put_kv in Ep.
  intros Hr. assert (rgPrefix r' = rgPrefix r /\ rgStore r' = e) as [Hp Hst] by (destruct lease; by injection Hr as <-).
  unfold implements. rewrite Hp, Hst, Ep. split; [by exists elems|]. split; [by apply map_Forall_insert_2|].
  destruct (Marshal_total s) as [b Hb]. unfold marshalService. rewrite Hb. intros k v.
  destruct (decide (k = buildKey (rgPrefix r) s)) as [->|Hk].
  - rewrite lookup_insert_eq. split.
    + intros [= <-]. exists s. by rewrite lookup_insert_eq.
    + intros (s' & Hl & Hbk & Hm). destruct (decide (idOf s' = idOf s)) as [Hi|Hi].
      * rewrite Hi, lookup_insert_eq in Hl. injection Hl as <-. congruence.
      * rewrite lookup_insert_ne in Hl by done. exfalso. apply Hi. symmetry. by eapply key_of.
  - rewrite lookup_insert_ne by done. rewrite Hkv. split; intros (s' & Hl & -> & Hm); exists s'; (split; [|done]).
    + rewrite lookup_insert_ne; [done|]. intros Hi. apply Hk.
      unfold idOf in Hi. injection Hi as Hn Hid. unfold buildKey. by rewrite Hn, Hid.
    + rewrite lookup_insert_ne in Hl; [done|]. intros Hi. apply Hk.
      unfold idOf in Hi. injection Hi as Hn Hid. unfold buildKey. by rewrite Hn, Hid.
Qed.

Lemma Deregister_implements (s : Service) (r : etcdRegistry) (d : gmap (string * string) Service) e :
  implements r d -> wellNamed s -> Delete (buildKey (rgPrefix r) s) (rgStore r) = (e, None) ->
  implements (fst (Deregister s r)) (delete (idOf s) d).
Proof.
  intros Himp Hs Ed. pose proof Himp as ([elems He] & Hd & Hkv). unfold Deregister. rewrite Ed. apply Delete_kv in Ed.
  unfold implements. cbn [fst rgPrefix rgStore setStore]. rewrite Ed. split; [by exists elems|]. split; [by apply map_Forall_delete|].
  intros k v. destruct (decide (k = buildKey (rgPrefix r) s)) as [->|Hk].
  - rewrite lookup_delete_eq. split; [done|]. intros (s' & Hl & Hbk & Hm). exfalso.
    apply lookup_delete_Some in Hl as [Hi Hl]. apply Hi. by eapply key_of.
  - rewrite lookup_delete_ne by done. rewrite Hkv. split; intros (s' & Hl & -> & Hm); exists s'; (split; [|done]).
    + rewrite lookup_delete_ne; [done|]. intros Hi. apply Hk.
      unfold idOf in Hi. injection Hi as Hn Hid. unfold buildKey. by rewrite Hn, Hid.
    + by apply lookup_delete_Some in Hl as [_ ?].
Qed.

(** ** What a lookup and a registration do to the directory *)

Lemma unmarshalAll_In (l : list (string * string)) (s : Service) :
  In s (unmarshalAll l) <-> exists k v, In (k, v) l /\ Unmarshal v = Ok s.
Proof.
  induction l as [|[k v] l IH]; cbn [unmarshalAll]; [by split; [|intros (? & ? & [] & _)]|].
  destruct (Unmarshal v) as [s'|e] eqn:Eu; [cbn [In]|]; rewrite IH; split.
  - intros [<-|(k' & v' & Hin & Hu)]; [exists k, v; by split; [left|]|exists k', v'; by split; [right|]].
  - intros (k' & v' & [[= <- <-]|Hin] & Hu); [left; congruence|right; eauto].
  - intros (k' & v' & Hin & Hu). exists k', v'. by split; [right|].
  - intros (k' & v' & [[= <- <-]|Hin] & Hu); [congruence|eauto].
Qed.

Lemma unmarshalAll_NoDup (keyOf : Service -> string) (l : list (string * string)) :
  NoDup l.*1 -> (forall k v s, In (k, v) l -> Unmarshal v = Ok s -> k = keyOf s) -> NoDup (unmarshalAll l).
Proof.
  induction l as [|[k v] l IH]; cbn [unmarshalAll fmap list_fmap fst]; [constructor|]. intros Hn Hk. inversion Hn as [|? ? Hx Hl]; subst.
  destruct (Unmarshal v) as [s|e] eqn:Eu.
  - constructor; [|apply IH; [done|]; intros; eapply Hk; [by right|done]]. rewrite list_elem_of_In, unmarshalAll_In.
    intros (k' & v' & Hin & Hu). apply Hx. pose proof (Hk k v s ltac:(by left) Eu) as ->.
    rewrite <- (Hk k' v' s ltac:(by right) Hu). apply list_elem_of_fmap. exists (k', v'). by rewrite list_elem_of_In.
  - apply IH; [done|]. intros; eapply Hk; [by right|done].
Qed.

Lemma GetService_In (r : etcdRegistry) (d : gmap (string * string) Service) (name : string) (kvs : list (string * string)) k v :
  implements r d -> plain name -> GetPrefix (prefixKey (rgPrefix r) name) (rgStore r) = Ok kvs ->
  In (k, v) kvs <-> exists s, d !! idOf s = Some s /\ sName s = name /\ k = buildKey (rgPrefix r) s /\ Unmarshal v = Ok s /\ Marshal s = Ok v.
Proof.
  intros ([elems He] & Hd & Hkv) Hn Hg. apply GetPrefix_kv in Hg.
  rewrite <- list_elem_of_In, Hg, list_elem_of_filter, elem_of_map_to_list, Hkv. cbn [fst]. split.
  - intros (Hp & s & Hl & -> & Hm). exists s. destruct (Hd _ _ Hl) as [_ [H1 H2]].
    rewrite (key_under_name _ name s elems) in Hp by done. by rewrite (Unmarshal_Marshal _ _ Hm).
  - intros (s & Hl & <- & -> & Hu & Hm). destruct (Hd _ _ Hl) as [_ [H1 H2]]. split; [by rewrite (key_under_name _ _ s elems)|eauto].
Qed.

(** Discovery: on a cluster that holds a directory, a lookup of a name returns each
    service registered under exactly that name, once, and no other (not one whose name
    merely begins the same), and it reports not found when there is none. *)
Theorem discovery_exact (r : etcdRegistry) (d : gmap (string * string) Service) (name : string) :
  implements r d -> plain name ->
  match GetService name r with
  | Ok l => NoDup l /\ (forall s, In s l <-> d !! idOf s = Some s /\ sName s = name) /\ l <> []
  | Err e => (e = ESentinel (SErrs ErrNotFound) /\ forall s, d !! idOf s = Some s -> sName s <> name)
             \/ GetPrefix (prefixKey (rgPrefix r) name) (rgStore r) = Err e
  end.
Proof.
  intros Himp Hn. unfold GetService. destruct (GetPrefix _ _) as [kvs|e] eqn:Eg; [|by right].
  pose proof (fun k v => GetService_In r d name kvs k v Himp Hn Eg) as Hin.
  assert (forall s, In s (unmarshalAll kvs) <-> d !! idOf s = Some s /\ sName s = name) as Hall.
  { intros s. rewrite unmarshalAll_In. split.
    - intros (k & v & Hkv & Hu). apply Hin in Hkv as (s' & Hl & Hs & _ & Hu' & _). assert (s = s') as -> by congruence. done.
    - intros [Hl Hs]. destruct (Marshal_total s) as [b Hb]. exists (buildKey (rgPrefix r) s), b.
      split; [|by apply Unmarshal_Marshal]. apply Hin. exists s. by rewrite (Unmarshal_Marshal _ _ Hb). }
  destruct kvs as [|[k v] kvs].
  - left. split; [done|]. intros s Hl Hs. by apply (proj2 (Hall s)).
  - split; [|split; [done|]].
    + apply (unmarshalAll_NoDup (buildKey (rgPrefix r))).
      * apply GetPrefix_kv in Eg. rewrite Eg. apply NoDup_fmap_fst.
        -- intros x y1 y2. rewrite !list_elem_of_filter, !elem_of_map_to_list. intros [_ H1] [_ H2]. congruence.
        -- apply NoDup_filter, NoDup_map_to_list.
      * intros k' v' s Hkv Hu. apply Hin in Hkv as (s' & _ & _ & -> & Hu' & _). congruence.
    + intros Hnil. destruct (proj1 (Hin k v) ltac:(by left)) as (s & Hl & Hs & _). by apply (proj2 (Hall s) (conj Hl Hs)) in Hnil || (pose proof (proj2 (Hall s) (conj Hl Hs)) as Hx; rewrite Hnil in Hx).
Qed.

(** Registration: a successful one without a time to live, or on a registry that
    holds no lease, makes the directory hold exactly the service under its name and id
    next to the others; with a lease it either does that or only renews the lease. *)
Theorem registration_stores (r r' : etcdRegistry) (d : gmap (string * string) Service) (s : Service) (ttl : Z) :
  implements r d -> wellNamed s -> Register s ttl r = (r', None) ->
  implements r' (<[idOf s := s]> d)
  \/ (0 < ttl)%Z /\ (0 < rgLease r)%Z /\ implements r' d.
Proof.
  intros Himp Hs. unfold Register. destruct (Z.ltb_spec 0 ttl) as [Ht|Ht].
  2:{ intros Hr. left. by eapply putService_implements. }
  assert (forall r1, implements r1 d -> (let '(e, g) := Grant (Z.quot ttl 1000000000) (rgStore r1) in
            match g with Err err => (setStore e r1, Some err) | Ok id => putService s (Some id) (setStore e r1) end) = (r', None) ->
            implements r' (<[idOf s := s]> d)) as Hgrant.
  { intros r1 H1. pose proof (Grant_kv (Z.quot ttl 1000000000) (rgStore r1)) as Hk.
    destruct (Grant _ _) as [e [id|err]]; [|done]. intros Hp. eapply putService_implements; [|exact Hs|exact Hp].
    by eapply (implements_kv r1). }
  destruct (Z.ltb_spec 0 (rgLease r)) as [Hl|Hl]; [|intros Hr; left; by apply (Hgrant r)].
  pose proof (KeepAliveOnce_kv (rgLease r) (rgStore r)) as Hk.
  destruct (KeepAliveOnce _ _) as [e [err|]].
  - destruct (negb (isLeaseNotFound err)); [done|]. intros Hr. left. apply (Hgrant (setStore e r)); [|exact Hr]. by eapply (implements_kv r).
  - intros [= <-]. right. split; [done|]. split; [done|]. by eapply (implements_kv r).
Qed.

(** The lease is the registry's and not the service's: once it is held and renewed, any
    other service, and a service that was deregistered, is reported registered without
    being stored. *)
Lemma leased_register_lost (r : etcdRegistry) (s : Service) (ttl : Z) (e : E) :
  (0 < ttl)%Z -> (0 < rgLease r)%Z -> KeepAliveOnce (rgLease r) (rgStore r) = (e, None) ->
  snd (Register s ttl r) = None /\ kv (rgStore (fst (Register s ttl r))) = kv (rgStore r).
Proof.
  intros Ht Hl Hk. unfold Register. rewrite !(proj2 (Z.ltb_lt _ _)) by done. rewrite Hk. split; [done|].
  cbn [fst rgStore setStore]. pose proof (KeepAliveOnce_kv (rgLease r) (rgStore r)) as Hkv. by rewrite Hk in Hkv.
Qed.

End Registry.

(** ** A cluster, and an encoding of services *)

Record cluster : Type := mkCluster { clKv : gmap string string; clLeases : Z }.

#[export] Instance clusterEtcd : Etcd cluster := {
  kv := clKv;
  Grant ttl e := (mkCluster (clKv e) (Z.max 0 (clLeases e) + 1), Ok (Z.max 0 (clLeases e) + 1)%Z);
  KeepAliveOnce id e := (e, if (id <=? clLeases e)%Z then None else Some (EPlain "requested lease not found"));
  Put k v lease e := (mkCluster (<[k := v]> (clKv e)) (clLeases e), None);
  Delete k e := (mkCluster (delete k (clKv e)) (clLeases e), None);
  GetPrefix p e := Ok (filter (fun x => HasPrefix (fst x) p = true) (map_to_list (clKv e)));
}.
#[export] Instance clusterLaws : EtcdLaws cluster.
Proof.
  constructor; cbn; try done.
  - intros ttl e e' id [= _ <-]. lia.
  - by intros k v lease e e' [= <-].
  - by intros k e e' [= <-].
  - by intros p e l [= <-].
Qed.

#[export] Instance Service_eq_dec : EqDecision Service.
Proof. solve_decision. Defined.
#[export] Instance Service_countable : Countable Service.
Proof.
  refine (inj_countable' (fun s => (sID s, sName s, sVersion s, sMetadata s, sEndpoints s))
            (fun x => let '(i, n, v, m, e) := x in mkService i n v m e) _). by intros [].
Defined.

Fixpoint bits (p : positive) : string :=
  match p with xH => EmptyString | xO p => String "0" (bits p) | xI p => String "1" (bits p) end.
Fixpoint unbits (s : string) : positive :=
  match s with EmptyString => xH | String a s => if Ascii.eqb a "0" then xO (unbits s) else xI (unbits s) end.
Lemma unbits_bits (p : positive) : unbits (bits p) = p.
Proof. induction p as [p IH|p IH|]; cbn; congruence. Qed.

Definition demoEncode (s : Service) : result error string := Ok (bits (encode s)).
Definition demoDecode (b : string) : result error Service :=
  match decode (unbits b) with Some s => Ok s | None => Err (EPlain "invalid character") end.
Lemma demoDecode_Encode (s : Service) (b : string) : demoEncode s = Ok b -> demoDecode b = Ok s.
Proof. intros [= <-]. unfold demoDecode. by rewrite unbits_bits, decode_encode. Qed.

Definition emptyRegistry : etcdRegistry := mkRegistry defaultPrefix 0 (mkCluster ∅ 0).
Definition svc (name id : string) : Service := mkService id name "v1" [] ["grpc://127.0.0.1:9000"].

Definition demoRegister (s : Service) (r : etcdRegistry) : etcdRegistry :=
  fst (Register demoEncode (fun _ => true) s 5000000000 r).

(** A service is found by its name and not by the beginning of another's; the second
    service of a registry, and one that comes back, are not stored. *)
Example registry_runs :
  GetService demoDecode "user" (demoRegister (svc "user" "1") emptyRegistry) = Ok [svc "user" "1"]
  /\ GetService demoDecode "use" (demoRegister (svc "user" "1") emptyRegistry) = Err (ESentinel (SErrs ErrNotFound))
  /\ GetService demoDecode "order" (demoRegister (svc "order" "1") (demoRegister (svc "user" "1") emptyRegistry))
     = Err (ESentinel (SErrs ErrNotFound))
  /\ GetService demoDecode "user" (demoRegister (svc "user" "1") (fst (Deregister (svc "user" "1") (demoRegister (svc "user" "1") emptyRegistry))))
     = Err (ESentinel (SErrs ErrNotFound)).
Proof. vm_compute. repeat split. Qed.

Lemma empty_implements : implements demoEncode emptyRegistry ∅.
Proof.
  split; [exists ["micro"; "service"]; split; [reflexivity|split; [reflexivity|repeat constructor; done]]|].
  split; [apply map_Forall_empty|]. intros k v. cbn. rewrite lookup_empty. split; [done|]. intros (s & Hl & _). by rewrite lookup_empty in Hl.
Qed.

Lemma registration_stores_witness :
  wellNamed (svc "user" "1") /\ implements demoEncode (demoRegister (svc "user" "1") emptyRegistry) {[idOf (svc "user" "1") := svc "user" "1"]}.
Proof.
  assert (wellNamed (svc "user" "1")) as Hw by (split; repeat split; discriminate).
  split; [exact Hw|].
  destruct (registration_stores demoEncode (fun _ => true) (fun s => ex_intro _ _ eq_refl)
              emptyRegistry (demoRegister (svc "user" "1") emptyRegistry) ∅ (svc "user" "1") 5000000000 empty_implements Hw eq_refl)
    as [Hi|(_ & Hl & _)].
  - exact Hi.
  - cbn in Hl. discriminate Hl.
Defined.

Lemma discovery_exact_witness :
  plain "user" /\ implements demoEncode emptyRegistry ∅
  /\ forall s, GetService demoDecode "user" emptyRegistry <> Ok [s].
Proof.
  split; [repeat split; discriminate|]. split; [exact empty_implements|]. intros s Hg.
  pose proof (discovery_exact demoEncode demoDecode demoDecode_Encode (fun s => ex_intro _ _ eq_refl)
                emptyRegistry ∅ "user" empty_implements ltac:(repeat split; discriminate)) as Hd.
  rewrite Hg in Hd. destruct Hd as (_ & Hd & _). destruct (proj1 (Hd s) (or_introl eq_refl)) as [Hl _]. rewrite lookup_empty in Hl. discriminate Hl.
Defined.
