(* ===== verification/Resolver.v ===== *)
(** [transport/grpc/resolver]: the addresses a gRPC client is given, from the watcher of
    the registry. *)

From Stdlib Require Import ZArith Lia String Ascii List Bool.
From stdpp Require Import base tactics list gmap strings.
From S2P Require Import Prelude GoStrings GoPath Errs Registry.

Local Open Scope string_scope.
Local Open Scope list_scope.

Section Resolver.

(** The host of a parsed URL. *)
Variable urlHost : string -> option string.

Definition addressesOf (item : Service) : list string :=
  omap (fun endpoint => if HasPrefix endpoint "grpc://" then urlHost endpoint else None) (sEndpoints item).

(** [Resolver.update]: the new state of the connection. *)
Definition update (items : list Service) : list string := concat (map addressesOf items).

(** [Resolver.eventLoop] over what the watcher answers until the close, from the
    addresses the connection has. *)
Fixpoint eventLoop (answers : list (result error (list Service))) (addrs : list string) : list string :=
  match answers with
  | [] => addrs
  | Ok items :: rest => eventLoop rest (update items)
  | Err _ :: rest => eventLoop rest addrs
  end.

Lemma update_In (items : list Service) (a : string) :
  In a (update items) <-> exists item endpoint, In item items /\ In endpoint (sEndpoints item)
                            /\ HasPrefix endpoint "grpc://" = true /\ urlHost endpoint = Some a.
Proof.
  unfold update. rewrite in_concat. split.
  - intros (l & (item & <- & Hi)%in_map_iff & Ha). apply list_elem_of_In in Ha. unfold addressesOf in Ha.
    apply list_elem_of_omap in Ha as (e & He & Hm). destruct (HasPrefix e "grpc://") eqn:Ep; [|done].
    exists item, e. split; [done|]. split; [by apply list_elem_of_In|done].
  - intros (item & e & Hi & He & Hp & Hh). exists (addressesOf item). split; [apply in_map_iff; eauto|].
    apply list_elem_of_In, list_elem_of_omap. exists e. rewrite Hp. split; [by apply list_elem_of_In|done].
Qed.

Lemma eventLoop_app (a1 a2 : list (result error (list Service))) (addrs : list string) :
  eventLoop (a1 ++ a2) addrs = eventLoop a2 (eventLoop a1 addrs).
Proof. revert addrs. induction a1 as [|[l|e] a1 IH]; intros addrs; [done|apply IH|apply IH]. Qed.

(** Errors of the watcher, however many, change no address. *)
Lemma eventLoop_errors (errors : list error) (addrs : list string) : eventLoop (map Err errors) addrs = addrs.
Proof. revert addrs. induction errors as [|e l IH]; intros addrs; [done|]. apply IH. Qed.

Section OverEtcd.
Context {E : Type} `{EtcdLaws E}.
Variable Marshal : Service -> result error string.
Variable Unmarshal : string -> result error Service.
Hypothesis Unmarshal_Marshal : forall s b, Marshal s = Ok b -> Unmarshal b = Ok s.
Hypothesis Marshal_total : forall s, exists b, Marshal s = Ok b.

Lemma resolver_addresses (r : etcdRegistry) (d : gmap (string * string) Service) (name : string) (addrs : list string)
    (kvs : list (string * string)) :
  implements Marshal r d -> plain name -> GetPrefix (prefixKey (rgPrefix r) name) (rgStore r) = Ok kvs ->
  let after := eventLoop [snd (Next Unmarshal name true WatchOk r)] addrs in
  ((exists s, d !! idOf s = Some s /\ sName s = name) ->
     forall a, In a after <-> exists s endpoint, d !! idOf s = Some s /\ sName s = name /\ In endpoint (sEndpoints s)
                                /\ HasPrefix endpoint "grpc://" = true /\ urlHost endpoint = Some a)
  /\ ((forall s, d !! idOf s = Some s -> sName s <> name) -> after = addrs).
Proof.
  intros Himp Hn Hg after. unfold after, Next. cbn [negb snd].
  pose proof (fun k v => GetService_In Marshal Unmarshal Unmarshal_Marshal r d name kvs k v Himp Hn Hg) as Hin.
  unfold GetService. rewrite Hg. destruct kvs as [|[k v] kvs]; cbn [eventLoop].
  - split; [|done]. intros (s & Hl & Hs). exfalso. destruct (Marshal_total s) as [b Hb].
    apply (proj2 (Hin (buildKey (rgPrefix r) s) b)). exists s. by rewrite (Unmarshal_Marshal _ _ Hb).
  - destruct (proj1 (Hin k v) ltac:(by left)) as (s0 & Hl0 & Hs0 & _). split; [|intros Hnone; by destruct (Hnone s0)].
    intros _ a. rewrite update_In. split.
    + intros (s & e & Hs%unmarshalAll_In & He & Hp & Hh). destruct Hs as (k' & v' & Hkv & Hu).
      apply Hin in Hkv as (s' & Hl & Hs & _ & Hu' & _). assert (s = s') as -> by congruence. by exists s', e.
    + intros (s & e & Hl & Hs & He & Hp & Hh). exists s, e. split; [|done]. apply unmarshalAll_In.
      destruct (Marshal_total s) as [b Hb]. exists (buildKey (rgPrefix r) s), b. split; [|by apply Unmarshal_Marshal].
      apply Hin. exists s. by rewrite (Unmarshal_Marshal _ _ Hb).
Qed.

(** Discovery end to end: after a change the client is given exactly the hosts of the
    grpc endpoints of the services registered under its name, whatever it had before,
    as long as there is one; when the last one is gone the watcher answers not found
    and the client keeps the addresses of services that are no longer there. *)
Theorem resolver_follows (r : etcdRegistry) (d : gmap (string * string) Service) (name : string) (addrs : list string)
    (kvs : list (string * string)) :
  implements Marshal r d -> plain name -> GetPrefix (prefixKey (rgPrefix r) name) (rgStore r) = Ok kvs ->
  let after := eventLoop [snd (Next Unmarshal name true WatchOk r)] addrs in
  ((exists s, d !! idOf s = Some s /\ sName s = name) ->
     forall a, In a after <-> exists s endpoint, d !! idOf s = Some s /\ sName s = name /\ In endpoint (sEndpoints s)
                                /\ HasPrefix endpoint "grpc://" = true /\ urlHost endpoint = Some a)
  /\ ((forall s, d !! idOf s = Some s -> sName s <> name) -> after = addrs).
Proof. apply resolver_addresses. Qed.
End OverEtcd.
End Resolver.

Definition demoHostOf (endpoint : string) : option string := Some (TrimPrefix endpoint "grpc://").

(** The last instance is deregistered: its address stays. *)
Example resolver_keeps_the_last :
  let r := demoRegister (svc "user" "1") emptyRegistry in
  let gone := fst (Deregister (svc "user" "1") r) in
  eventLoop demoHostOf [snd (Next demoDecode "user" true WatchOk r); snd (Next demoDecode "user" true WatchOk gone)] []
  = ["127.0.0.1:9000"].
Proof. by vm_compute. Qed.

Lemma resolver_follows_witness :
  implements demoEncode emptyRegistry ∅ /\ plain "user"
  /\ eventLoop demoHostOf [snd (Next demoDecode "user" true WatchOk emptyRegistry)] ["10.0.0.1:9000"] = ["10.0.0.1:9000"].
Proof.
  split; [exact empty_implements|]. split; [repeat split; discriminate|].
  destruct (resolver_follows demoHostOf demoEncode demoDecode demoDecode_Encode (fun s => ex_intro _ _ eq_refl) emptyRegistry ∅ "user"
              ["10.0.0.1:9000"] [] empty_implements ltac:(repeat split; discriminate) eq_refl) as [_ Hgone].
  apply Hgone. intros s Hl. rewrite lookup_empty in Hl. discriminate Hl.
Defined.
