(* ===== verification/TokenStore.v ===== *)
(** [admin/service/memory_token_store.go]: the revocation denylist.

    Instants are nanoseconds; every operation is given the reading of the
    store's clock.  Go's map iteration order is unspecified: [range] lists the
    entries of a map in some order. *)

From Stdlib Require Import ZArith Lia String Ascii List Bool.
From stdpp Require Import base tactics list gmap strings fin_maps.
From S2P Require Import Prelude GoStrings Errs.

Local Open Scope Z_scope.
Local Open Scope list_scope.

Definition revocationCapacity : nat := N.to_nat 65536.

Record MemoryTokenStore : Type := mkTokenStore {
  capacity : nat;
  revoked : gmap string Z;
}.

Definition NewMemoryTokenStore : MemoryTokenStore := mkTokenStore revocationCapacity ∅.

(** The interface [TokenStore]: each operation reads the clock, may change the
    store and may fail. *)
Class TokenStore (T : Type) : Type := {
  Revoke : Z -> string -> Z -> T -> T * option error;
  Revoked : Z -> string -> T -> T * result error bool;
  RevokeIfNotRevoked : Z -> string -> Z -> T -> T * result error bool;
}.

(** What the services rely on: a fence is up for a token id until an instant, and
    while it is up the id reads as revoked and cannot be claimed again.  A store
    may fail instead. *)
Class LawfulTokenStore (T : Type) `{TokenStore T} : Type := {
  fence : string -> Z -> T -> Prop;
  revoke_fences t jti u s s' :
    jti <> EmptyString -> t < u -> Revoke t jti u s = (s', None) -> fence jti u s';
  claim_fences t jti u s s' : RevokeIfNotRevoked t jti u s = (s', Ok true) -> fence jti u s';
  fence_revoked t jti u s : fence jti u s -> jti <> EmptyString -> t < u -> snd (Revoked t jti s) <> Ok false;
  fence_loses t jti u u' s : fence jti u s -> t < u -> snd (RevokeIfNotRevoked t jti u' s) <> Ok true;
}.

Section Store.

Variable range : gmap string Z -> list (string * Z).

Definition withRevoked (s : MemoryTokenStore) (m : gmap string Z) : MemoryTokenStore :=
  mkTokenStore (capacity s) m.

(** [until.After(now)] *)
Definition after (until now : Z) : bool := (now <? until)%Z.

Definition sweepLocked (now : Z) (m : gmap string Z) : gmap string Z :=
  filter (fun kv => after kv.2 now = true) m.

(** The scan for the soonest-expiring entry. *)
Definition pickVictim (acc : option (string * Z)) (e : string * Z) : option (string * Z) :=
  match acc with
  | None => Some e
  | Some (victim, victimTil) => if (snd e <? victimTil)%Z then Some e else acc
  end.

Definition evictOneLocked (m : gmap string Z) : gmap string Z :=
  match fold_left pickVictim (range m) None with
  | Some (victim, _) => delete victim m
  | None => m
  end.

(** Making room, then inserting: the tail both write operations share. *)
Definition insertLocked (now : Z) (jti : string) (until : Z) (s : MemoryTokenStore) : MemoryTokenStore :=
  let m := sweepLocked now (revoked s) in
  let m := match m !! jti with
           | None => if (capacity s <=? size m)%nat then evictOneLocked m else m
           | Some _ => m
           end in
  withRevoked s (<[jti := until]> m).

Definition memRevoke (now : Z) (jti : string) (until : Z) (s : MemoryTokenStore) : MemoryTokenStore * option error :=
  if String.eqb jti EmptyString then (s, None)
  else if negb (after until now) then (s, None)
  else (insertLocked now jti until s, None).

Definition memRevokeIfNotRevoked (now : Z) (jti : string) (until : Z) (s : MemoryTokenStore) :
    MemoryTokenStore * result error bool :=
  if String.eqb jti EmptyString then (s, Ok false)
  else if negb (after until now) then (s, Ok false)
  else match revoked s !! jti with
       | Some existing =>
           if after existing now then (s, Ok false)
           else (insertLocked now jti until s, Ok true)
       | None => (insertLocked now jti until s, Ok true)
       end.

Definition memRevoked (now : Z) (jti : string) (s : MemoryTokenStore) : MemoryTokenStore * result error bool :=
  if String.eqb jti EmptyString then (s, Ok false)
  else match revoked s !! jti with
       | None => (s, Ok false)
       | Some until =>
           if negb (after until now) then (withRevoked s (delete jti (revoked s)), Ok false)
           else (s, Ok true)
       end.

#[export] Instance memTokenStore : TokenStore MemoryTokenStore := {|
  Revoke := memRevoke;
  Revoked := memRevoked;
  RevokeIfNotRevoked := memRevokeIfNotRevoked;
|}.

(** ** Lemmas *)

Lemma sweep_lookup (now : Z) (m : gmap string Z) (k : string) :
  sweepLocked now m !! k = match m !! k with
                           | Some u => if after u now then Some u else None
                           | None => None
                           end.
Proof.
  unfold sweepLocked. rewrite map_lookup_filter. destruct (m !! k) as [u|]; simpl; [|done].
  case_guard as E; simpl in *; [by rewrite E|]. by destruct (after u now).
Qed.

Lemma sweep_size (now : Z) (m : gmap string Z) : (size (sweepLocked now m) <= size m)%nat.
Proof. apply map_subseteq_size, map_filter_subseteq. Qed.

Hypothesis range_perm : forall m, range m ≡ₚ map_to_list m.

Lemma pickVictim_fold (l : list (string * Z)) (acc : option (string * Z)) :
  (acc = None -> l <> []) ->
  exists v, fold_left pickVictim l acc = Some v
    /\ (v ∈ l \/ acc = Some v)
    /\ (forall e, e ∈ l \/ acc = Some e -> snd v <= snd e).
Proof.
  revert acc; induction l as [|e l IH]; intros acc Hacc; cbn [fold_left].
  - destruct acc as [v|]; [|by destruct Hacc]. exists v. split; [done|]. split; [by right|].
    intros e [He|[= ->]]; [by apply elem_of_nil in He|lia].
  - destruct (IH (pickVictim acc e)) as (v & Hv & Hin & Hmin).
    { unfold pickVictim. destruct acc as [[? ?]|]; [|done]. by destruct (_ <? _). }
    exists v. split; [done|]. unfold pickVictim in Hin, Hmin. split.
    + destruct Hin as [Hin|Hin]; [left; by right|].
      destruct acc as [[k u]|]; [destruct (snd e <? u)|]; simplify_eq; (by right) || (left; by left).
    + intros x Hx. destruct acc as [[k u]|].
      * destruct (Z.ltb_spec (snd e) u) as [Hlt|Hge].
        -- destruct Hx as [Hx|[= <-]].
           ++ apply elem_of_cons in Hx as [->|Hx]; apply Hmin; auto.
           ++ cbn. specialize (Hmin e (or_intror eq_refl)). lia.
        -- destruct Hx as [Hx|[= <-]]; [|apply Hmin; auto].
           apply elem_of_cons in Hx as [->|Hx]; [|apply Hmin; auto].
           specialize (Hmin (k, u) (or_intror eq_refl)). cbn in Hmin. lia.
      * destruct Hx as [Hx|Hx]; [|done]. apply elem_of_cons in Hx as [->|Hx]; apply Hmin; auto.
Qed.

(** Eviction removes one entry, and the one that expires first. *)
Lemma evict_spec (m : gmap string Z) :
  m <> ∅ ->
  exists k u, m !! k = Some u /\ evictOneLocked m = delete k m
    /\ forall k' u', m !! k' = Some u' -> u <= u'.
Proof.
  intros Hm. destruct (pickVictim_fold (range m) None) as ([k u] & Hv & Hin & Hmin).
  { intros _ E. apply Hm. pose proof (range_perm m) as Hp. rewrite E in Hp.
    apply Permutation_nil_l in Hp. by apply map_to_list_empty_iff. }
  exists k, u. destruct Hin as [Hin|?]; [|done].
  assert (forall k u, (k, u) ∈ range m <-> m !! k = Some u) as Hr.
  { intros k' u'. rewrite range_perm. apply elem_of_map_to_list. }
  split; [by apply Hr|]. split; [unfold evictOneLocked; by rewrite Hv|].
  intros k' u' Hk'. apply (Hmin (k', u')). left. by apply Hr.
Qed.

Definition store_wf (s : MemoryTokenStore) : Prop :=
  (0 < capacity s)%nat /\ (size (revoked s) <= capacity s)%nat.

Lemma insertLocked_wf (now : Z) (jti : string) (until : Z) (s : MemoryTokenStore) :
  store_wf s -> store_wf (insertLocked now jti until s).
Proof.
  intros [Hc Hs]. unfold insertLocked, store_wf, withRevoked. cbn [capacity revoked].
  split; [done|]. pose proof (sweep_size now (revoked s)) as Hsw.
  destruct (sweepLocked now (revoked s) !! jti) as [u|] eqn:E.
  - rewrite map_size_insert_Some by eauto. lia.
  - destruct (Nat.leb_spec (capacity s) (size (sweepLocked now (revoked s)))) as [Hfull|Hroom].
    + destruct (evict_spec (sweepLocked now (revoked s))) as (k & u & Hk & -> & _).
      { intros Hemp. rewrite Hemp, map_size_empty in Hfull. lia. }
      assert (k <> jti) by congruence.
      rewrite map_size_insert_None by (by rewrite lookup_delete_ne).
      rewrite map_size_delete_Some by eauto. lia.
    + rewrite map_size_insert_None by done. lia.
Qed.

(** An unexpired entry survives an insertion when there is room. *)
Lemma insertLocked_keeps (now : Z) (jti k : string) (until u : Z) (s : MemoryTokenStore) :
  (size (revoked s) < capacity s)%nat -> k <> jti ->
  revoked s !! k = Some u -> after u now = true ->
  revoked (insertLocked now jti until s) !! k = Some u.
Proof.
  intros Hroom Hne Hk Hu. unfold insertLocked, withRevoked. cbn [revoked].
  rewrite lookup_insert_ne by done.
  pose proof (sweep_size now (revoked s)) as Hsw.
  assert (sweepLocked now (revoked s) !! k = Some u) as Hs by (by rewrite sweep_lookup, Hk, Hu).
  destruct (sweepLocked now (revoked s) !! jti); [done|].
  destruct (Nat.leb_spec (capacity s) (size (sweepLocked now (revoked s)))); [lia|done].
Qed.

(** ** Traces of operations under a clock that does not go back *)

Inductive op : Type :=
| ORevoke (jti : string) (until : Z)
| ORevokeIfNotRevoked (jti : string) (until : Z)
| ORevoked (jti : string).

Definition apply_op (now : Z) (o : op) (s : MemoryTokenStore) : MemoryTokenStore :=
  match o with
  | ORevoke jti until => fst (memRevoke now jti until s)
  | ORevokeIfNotRevoked jti until => fst (memRevokeIfNotRevoked now jti until s)
  | ORevoked jti => fst (memRevoked now jti s)
  end.

(** [calm jti u o]: the operation does not shorten the window of [jti]. *)
Definition calm (jti : string) (u : Z) (o : op) : Prop :=
  match o with
  | ORevoke j until => j = jti -> u <= until
  | _ => True
  end.

Inductive trace (jti : string) (u : Z) : Z -> MemoryTokenStore -> Z -> MemoryTokenStore -> Prop :=
| trace_refl t s : trace jti u t s t s
| trace_step t s t1 o t2 s2 :
    t <= t1 -> t1 < u -> (size (revoked s) < capacity s)%nat -> calm jti u o ->
    trace jti u t1 (apply_op t1 o s) t2 s2 ->
    trace jti u t s t2 s2.

(** The window of [jti] reaches at least to [u]. *)
Definition fenced (jti : string) (u : Z) (s : MemoryTokenStore) : Prop :=
  exists u', revoked s !! jti = Some u' /\ u <= u'.

Lemma insertLocked_fenced (jti j : string) (u t until : Z) (s : MemoryTokenStore) :
  fenced jti u s -> t < u -> (size (revoked s) < capacity s)%nat -> (j = jti -> u <= until) ->
  fenced jti u (insertLocked t j until s).
Proof.
  intros (u' & Hu' & Hle) Ht Hroom Hcalm. destruct (decide (j = jti)) as [->|Hne].
  - exists until. split; [|by apply Hcalm]. unfold insertLocked, withRevoked. cbn [revoked]. apply lookup_insert_eq.
  - exists u'. split; [|done]. apply insertLocked_keeps; [done|done|done|]. apply Z.ltb_lt. lia.
Qed.

Lemma apply_op_fenced (jti : string) (u t : Z) (o : op) (s : MemoryTokenStore) :
  fenced jti u s -> t < u -> (size (revoked s) < capacity s)%nat -> calm jti u o ->
  fenced jti u (apply_op t o s).
Proof.
  intros Hf Ht Hroom Hcalm. pose proof Hf as (u' & Hu' & Hle).
  destruct o as [j until|j until|j]; cbn [apply_op calm] in *.
  - unfold memRevoke. case_match; [done|]. case_match; [done|]. cbn [fst]. by apply insertLocked_fenced.
  - unfold memRevokeIfNotRevoked. case_match; [done|]. case_match; [done|].
    destruct (revoked s !! j) as [e|] eqn:Ej.
    + destruct (after e t) eqn:Ee; [done|]. cbn [fst]. apply insertLocked_fenced; [done|done|done|].
      intros ->. rewrite Hu' in Ej. injection Ej as <-. apply Z.ltb_ge in Ee. lia.
    + cbn [fst]. apply insertLocked_fenced; [done|done|done|]. intros ->. congruence.
  - unfold memRevoked. case_match; [done|]. destruct (revoked s !! j) as [e|] eqn:Ej; [|done].
    destruct (after e t) eqn:Ee; cbn [negb fst]; [done|].
    destruct (decide (j = jti)) as [->|Hne].
    + rewrite Hu' in Ej. injection Ej as <-. apply Z.ltb_ge in Ee. lia.
    + exists u'. split; [|done]. unfold withRevoked. cbn [revoked]. by rewrite lookup_delete_ne.
Qed.

#[export] Instance memTokenStore_lawful : LawfulTokenStore MemoryTokenStore.
Proof.
  refine {| fence := fenced |}; cbn [Revoke Revoked RevokeIfNotRevoked memTokenStore].
  - intros t jti u s s' Hj Hu Hr. unfold memRevoke in Hr.
    rewrite (proj2 (String.eqb_neq _ _) Hj) in Hr. unfold after in Hr.
    rewrite (proj2 (Z.ltb_lt _ _) Hu) in Hr. injection Hr as <-.
    exists u. split; [apply lookup_insert_eq|lia].
  - intros t jti u s s' Hr. unfold memRevokeIfNotRevoked in Hr. repeat case_match; simplify_eq;
      (exists u; split; [apply lookup_insert_eq|lia]).
  - intros t jti u s (u' & Hu' & Hle) Hj Hlt. unfold memRevoked.
    rewrite (proj2 (String.eqb_neq _ _) Hj), Hu'. unfold after. by rewrite (proj2 (Z.ltb_lt t u')) by lia.
  - intros t jti u v s (u' & Hu' & Hle) Hlt. unfold memRevokeIfNotRevoked. rewrite Hu'. unfold after.
    rewrite (proj2 (Z.ltb_lt t u')) by lia. by repeat case_match.
Defined.

Lemma trace_fenced (jti : string) (u t1 t2 : Z) (s1 s2 : MemoryTokenStore) :
  trace jti u t1 s1 t2 s2 -> fenced jti u s1 -> fenced jti u s2.
Proof.
  induction 1 as [|t s t1 o t2 s2 Ht Hu Hroom Hcalm Htr IH]; [done|]. intros Hf.
  apply IH. by apply apply_op_fenced.
Qed.

(** The replay fence: once [RevokeIfNotRevoked] has won a token id, then
    through any later operations of a store that is not full, and before the
    window ends, the id reads as revoked and every other claim of it loses:
    exactly one of any number of refreshes of a token wins. *)
Theorem one_refresh_wins (jti : string) (u t t1 t2 : Z) (s s1 s2 : MemoryTokenStore) :
  memRevokeIfNotRevoked t jti u s = (s1, Ok true) ->
  trace jti u t s1 t1 s2 -> t2 < u ->
  memRevoked t2 jti s2 = (s2, Ok true)
  /\ forall until, memRevokeIfNotRevoked t2 jti until s2 = (s2, Ok false).
Proof.
  intros Hwin Htr Ht2.
  assert (String.eqb jti EmptyString = false /\ s1 = insertLocked t jti u s) as [Hj ->].
  { unfold memRevokeIfNotRevoked in Hwin. destruct (String.eqb jti EmptyString); [done|].
    repeat case_match; simplify_eq; done. }
  destruct (trace_fenced _ _ _ _ _ _ Htr) as (u' & Hu' & Hle).
  { exists u. split; [apply lookup_insert_eq|lia]. }
  assert (after u' t2 = true) as Ha by (apply Z.ltb_lt; lia).
  unfold memRevoked, memRevokeIfNotRevoked. rewrite Hj, Hu', Ha. split; [done|].
  intros ut. by destruct (after ut t2).
Qed.

(** The denylist is bounded: no operation takes it past its capacity, and a
    full store gives up the entry that expires first and nothing else. *)
Theorem denylist_bounded (now : Z) (o : op) (s : MemoryTokenStore) :
  store_wf s ->
  store_wf (apply_op now o s)
  /\ (forall k u, sweepLocked now (revoked s) !! k = Some u -> revoked (apply_op now o s) !! k = None ->
      forall k' u', sweepLocked now (revoked s) !! k' = Some u' -> u <= u').
Proof.
  intros Hwf. assert (forall j until, store_wf (insertLocked now j until s)
    /\ (forall k u, sweepLocked now (revoked s) !! k = Some u -> revoked (insertLocked now j until s) !! k = None ->
        forall k' u', sweepLocked now (revoked s) !! k' = Some u' -> u <= u')) as Hins.
  { intros j until. split; [by apply insertLocked_wf|]. intros k u Hk Hgone k' u' Hk'.
    unfold insertLocked, withRevoked in Hgone. cbn [revoked] in Hgone.
    destruct (decide (j = k)) as [->|Hne]; [by rewrite lookup_insert_eq in Hgone|].
    rewrite lookup_insert_ne in Hgone by done.
    destruct (sweepLocked now (revoked s) !! j) as [x|]; [congruence|].
    destruct (Nat.leb _ _); [|congruence].
    destruct (evict_spec (sweepLocked now (revoked s))) as (v & uv & Hv & Hev & Hmin).
    { intros E. by rewrite E in Hk. }
    rewrite Hev in Hgone. destruct (decide (v = k)) as [->|Hvk].
    - rewrite Hk in Hv. injection Hv as <-. by eapply Hmin.
    - by rewrite lookup_delete_ne, Hk in Hgone. }
  assert (forall k u, sweepLocked now (revoked s) !! k = Some u -> revoked s !! k = Some u /\ after u now = true) as Hsw.
  { intros k u. rewrite sweep_lookup. destruct (revoked s !! k) as [x|]; [|done].
    destruct (after x now) eqn:E; [|done]. intros [= ->]. done. }
  assert (store_wf s /\ (forall k u, sweepLocked now (revoked s) !! k = Some u -> revoked s !! k = None ->
      forall k' u', sweepLocked now (revoked s) !! k' = Some u' -> u <= u')) as Hid.
  { split; [done|]. intros k u Hk Hn. apply Hsw in Hk as [Hk _]. congruence. }
  destruct o as [j until|j until|j]; cbn [apply_op].
  - unfold memRevoke. repeat case_match; simplify_eq; cbn [fst]; done || apply Hins.
  - unfold memRevokeIfNotRevoked. repeat case_match; simplify_eq; cbn [fst]; done || apply Hins.
  - unfold memRevoked. case_match; [done|]. destruct (revoked s !! j) as [x|] eqn:Ej; [|done].
    destruct (after x now) eqn:Ex; [done|]. cbn [negb fst]. split.
    + destruct Hwf as [Hc Hs]. split; [done|]. cbn [withRevoked revoked].
      rewrite map_size_delete_Some by eauto. cbn [withRevoked capacity]. lia.
    + intros k u Hk Hgone. apply Hsw in Hk as [Hk Hku]. cbn [withRevoked revoked] in Hgone.
      destruct (decide (j = k)) as [->|Hne]; [|rewrite lookup_delete_ne in Hgone by done]; congruence.
Qed.

End Store.

(** ** Concrete runs, with [range] the entries in key order *)

Definition keyOrder (m : gmap string Z) : list (string * Z) := map_to_list m.

Definition store2 : MemoryTokenStore := mkTokenStore 2 ∅.

(** A login at 100 revokes ["a"] until 200; another token is revoked at 110. *)
Lemma one_refresh_wins_witness :
  exists s1 s2 : MemoryTokenStore,
    memRevokeIfNotRevoked keyOrder 100 "a" 200 store2 = (s1, Ok true)
    /\ memRevoked 150 "a" s2 = (s2, Ok true)
    /\ forall til, memRevokeIfNotRevoked keyOrder 150 "a" til s2 = (s2, Ok false).
Proof.
  exists (fst (memRevokeIfNotRevoked keyOrder 100 "a" 200 store2)).
  exists (apply_op keyOrder 110 (ORevoke "b" 180) (fst (memRevokeIfNotRevoked keyOrder 100 "a" 200 store2))).
  split; [vm_compute; reflexivity|].
  apply (one_refresh_wins keyOrder "a" 200 100 110 150 store2
           (fst (memRevokeIfNotRevoked keyOrder 100 "a" 200 store2))).
  - vm_compute. reflexivity.
  - eapply (trace_step keyOrder "a" 200 100 _ 110 (ORevoke "b" 180)); [lia|lia|vm_compute; lia|intros Hb; discriminate Hb|].
    apply trace_refl.
  - lia.
Defined.

(** A full store of two entries takes a third: the soonest to expire goes. *)
Lemma denylist_bounded_witness :
  let s := mkTokenStore 2 (<["a" := 500]> (<["b" := 300]> ∅)) in
  store_wf (apply_op keyOrder 100 (ORevoke "c" 400) s)
  /\ (forall k u, sweepLocked 100 (revoked s) !! k = Some u ->
      revoked (apply_op keyOrder 100 (ORevoke "c" 400) s) !! k = None ->
      forall k' u', sweepLocked 100 (revoked s) !! k' = Some u' -> u <= u').
Proof.
  intros s. apply (denylist_bounded keyOrder (fun m => reflexivity _)).
  split; vm_compute; lia.
Defined.

Example denylist_evicts_soonest :
  map_to_list (revoked (apply_op keyOrder 100 (ORevoke "c" 400)
    (mkTokenStore 2 (<["a" := 500]> (<["b" := 300]> ∅))))) = [("c", 400); ("a", 500)]
  \/ map_to_list (revoked (apply_op keyOrder 100 (ORevoke "c" 400)
    (mkTokenStore 2 (<["a" := 500]> (<["b" := 300]> ∅))))) = [("a", 500); ("c", 400)].
Proof. vm_compute. auto. Qed.
