(* ===== verification/CliSerialize.v ===== *)
(** [transport/cli/serialize.go]: the text a command's result is printed as.

    A Go value is described as far as [reflect] looks at it: its kind and its
    parts.  The formatting functions of the Go library that [serialize] hands a
    whole value to ([fmt.Sprint], [json.MarshalIndent], [strconv.FormatFloat]) and
    [runewidth.StringWidth] are parameters. *)

From Stdlib Require Import ZArith Lia String Ascii List Bool Floats.SpecFloat.
From Stdlib Require Import Strings.Byte.
From stdpp Require Import base tactics list strings pretty.
From S2P Require Import Prelude GoStrings Errs CliFrame CliRouter.

Local Open Scope string_scope.
Local Open Scope list_scope.

Inductive IntKind : Type := Int | Int8 | Int16 | Int32 | Int64.
Inductive UintKind : Type := Uint | Uint8 | Uint16 | Uint32 | Uint64.
Inductive FloatKind : Type := Float32 | Float64.

Inductive Kind : Type :=
| KInt (k : IntKind) | KUint (k : UintKind) | KFloat (k : FloatKind) | KString
| KBool | KSlice | KArray | KMap | KStruct | KPointer | KInterface | KInvalid | KOther.

#[export] Instance IntKind_eq_dec : EqDecision IntKind.
Proof. solve_decision. Defined.
#[export] Instance UintKind_eq_dec : EqDecision UintKind.
Proof. solve_decision. Defined.
#[export] Instance FloatKind_eq_dec : EqDecision FloatKind.
Proof. solve_decision. Defined.
#[export] Instance Kind_eq_dec : EqDecision Kind.
Proof. solve_decision. Defined.

(** A value as [reflect] sees it.  [VInvalid] is the nil interface; a slice and an
    array carry the static kind of their elements; a struct the name, the "kos"
    tag and the exported bit of each field; [VTime] is a [time.Time]. *)
Inductive GoValue : Type :=
| VInvalid
| VBool (b : bool)
| VInt (k : IntKind) (z : Z)
| VUint (k : UintKind) (z : Z)
| VFloat (k : FloatKind) (f : spec_float)
| VString (s : string)
| VSlice (elem : Kind) (l : list GoValue)
| VArray (elem : Kind) (l : list GoValue)
| VMap (l : list (GoValue * GoValue))
| VStruct (fields : list (string * option string * bool * GoValue))
| VTime (nanos : Z)
| VPointer (p : option GoValue)
| VOther (id : positive).

Definition kindOf (v : GoValue) : Kind :=
  match v with
  | VInvalid => KInvalid
  | VBool _ => KBool
  | VInt k _ => KInt k
  | VUint k _ => KUint k
  | VFloat k _ => KFloat k
  | VString _ => KString
  | VSlice _ _ => KSlice
  | VArray _ _ => KArray
  | VMap _ => KMap
  | VStruct _ | VTime _ => KStruct
  | VPointer _ => KPointer
  | VOther _ => KOther
  end.

(** [reflect.Indirect]: one pointer level; a nil pointer gives the zero Value. *)
Definition Indirect (v : GoValue) : GoValue :=
  match v with
  | VPointer (Some w) => w
  | VPointer None => VInvalid
  | v => v
  end.

Definition isNormalKind (k : Kind) : bool :=
  match k with
  | KInt _ | KUint _ | KFloat _ | KString => true
  | _ => false
  end.

(** A builder of table rows ends with rows, falls back to JSON, or panics (the
    value of an unexported field is not readable). *)
Inductive rowsResult : Type :=
| Rows (rows : list (list GoValue))
| Fallback
| Panics.

Section Serialize.

Variable Sprint : GoValue -> string.
Variable Sprintf2f : spec_float -> string.
Variable FormatTime : Z -> string.
Variable FormatFloat : spec_float -> string.
Variable MarshalIndent : GoValue -> result error string.
Variable StringWidth : string -> nat.

Definition newline : string := String (ascii_of_nat 10) EmptyString.

(** ** Maps *)

(** [ms[fmt.Sprint(k)] = fmt.Sprint(v)] for the entries in iteration order, kept as
    the entries of the string map in insertion order. *)
Fixpoint putEntry (ms : list (string * string)) (k v : string) : list (string * string) :=
  match ms with
  | [] => [(k, v)]
  | (k', v') :: ms' => if String.eqb k' k then (k, v) :: ms' else (k', v') :: putEntry ms' k v
  end.

(** [order] is the order in which Go ranges over the string map. *)
Definition serializeMap (order : list (string * string) -> list (string * string))
    (val : list (GoValue * GoValue)) : result error string :=
  if forallb (fun '(k, v) => isNormalKind (kindOf (Indirect k)) && isNormalKind (kindOf (Indirect v))) val then
    let ms := fold_left (fun ms '(k, v) => putEntry ms (Sprint k) (Sprint v)) val [] in
    let maxWidth := fold_left (fun m '(k, _) => Nat.max m (StringWidth (Sprint k))) val 0%nat in
    Ok (String.concat EmptyString
          (map (fun '(k, v) => padRight (maxWidth + 4) k +:+ " " +:+ v +:+ newline) (order ms)))
  else MarshalIndent (VMap val).

(** ** Tables *)

Definition printBorder (ws : list nat) : string :=
  String.concat EmptyString (map (fun l => "+" +:+ Repeat "-" (l + 2)) ws) +:+ "+" +:+ newline.

Definition toString (v : GoValue) : string :=
  match v with
  | VFloat _ f => Sprintf2f f
  | VTime t => FormatTime t
  | v => Sprint v
  end.

(** The widths after a row: a row of one cell does not count. *)
Fixpoint widen (widths : list nat) (cells : list string) : list nat :=
  match widths, cells with
  | w :: ws, c :: cs => (if (w <? StringWidth c)%nat then StringWidth c else w) :: widen ws cs
  | ws, _ => ws
  end.

Definition rowWidths (widths : list nat) (cells : list string) : list nat :=
  if (1 <? length cells)%nat then widen widths cells else widths.

Fixpoint printCells (widths : list nat) (cells : list string) : string :=
  match widths with
  | [] => EmptyString
  | w :: ws =>
      let '(cell, cells') := match cells with c :: cs => (c, cs) | [] => (EmptyString, []) end in
      "|" +:+ " " +:+ cell +:+ Repeat " " (w - StringWidth cell) +:+ " " +:+ printCells ws cells'
  end.

Definition printRow (widths : list nat) (cells : list string) : string :=
  printCells widths cells +:+ "|" +:+ newline.

Fixpoint printRows (widths : list nat) (first : bool) (rows : list (list string)) : string :=
  match rows with
  | [] => EmptyString
  | r :: rs => printRow widths r +:+ (if first then printBorder widths else EmptyString)
               +:+ printRows widths false rs
  end.

Definition tableWidths (rows : list (list string)) : list nat :=
  let maxLength := fold_left (fun m (r : list string) => Nat.max m (length r)) rows 0%nat in
  fold_left rowWidths rows (replicate maxLength 0%nat).

Definition printArray (vals : list (list GoValue)) : string :=
  let rows := map (map toString) vals in
  let widths := tableWidths rows in
  printBorder widths +:+ printRows widths true rows +:+ printBorder widths.

Definition canTabulate (val : list GoValue) : bool :=
  forallb (fun row => isNormalKind (kindOf (Indirect row))) val.

(** The kind [rv.Index(i).Kind()] reports: the static kind of the elements, and
    whether [Interface()] gives nil. *)
Definition normalElem (elem : Kind) (v : GoValue) : bool :=
  isNormalKind elem || match elem, v with KInterface, VInvalid => true | _, _ => false end.

Fixpoint buildRowsFromSlices (val : list GoValue) : rowsResult :=
  match val with
  | [] => Rows []
  | v :: vs =>
      match Indirect v with
      | VSlice elem l | VArray elem l =>
          if forallb (normalElem elem) l then
            match buildRowsFromSlices vs with
            | Rows rows => Rows (l :: rows)
            | r => r
            end
          else Fallback
      | _ => Fallback
      end
  end.

(** The columns of the first struct: the index and title of every exported field
    whose tag is not "-". *)
Fixpoint structColumns (j : nat) (fields : list (string * option string * bool * GoValue)) : list (nat * string) :=
  match fields with
  | [] => []
  | (name, tag, exported, _) :: fs =>
      let rest := structColumns (S j) fs in
      if negb exported then rest
      else match tag with
           | Some t => if String.eqb t "-" then rest else (j, t) :: rest
           | None => (j, ToUpper name) :: rest
           end
  end.

(** The values of the listed columns; [None] when one of them is unexported. *)
Fixpoint structRow (columns : list nat) (j : nat) (fields : list (string * option string * bool * GoValue)) :
    option (list GoValue) :=
  match fields with
  | [] => Some []
  | (_, _, exported, v) :: fs =>
      if existsb (Nat.eqb j) columns then
        if exported then option_map (cons v) (structRow columns (S j) fs) else None
      else structRow columns (S j) fs
  end.

(** The fields [reflect] lists; those of a [time.Time] are unexported. *)
Definition structFields (v : GoValue) : option (list (string * option string * bool * GoValue)) :=
  match v with
  | VStruct fields => Some fields
  | VTime _ => Some [("wall", None, false, VInvalid); ("ext", None, false, VInvalid); ("loc", None, false, VInvalid)]
  | _ => None
  end.

Fixpoint structRows (columns : list nat) (val : list GoValue) : rowsResult :=
  match val with
  | [] => Rows []
  | v :: vs =>
      match structFields (Indirect v) with
      | None => Fallback
      | Some fields =>
          match structRow columns 0 fields with
          | None => Panics
          | Some row => match structRows columns vs with
                        | Rows rows => Rows (row :: rows)
                        | r => r
                        end
          end
      end
  end.

Definition buildRowsFromStructs (val : list GoValue) : rowsResult :=
  match val with
  | [] => Rows []
  | v :: _ =>
      match structFields (Indirect v) with
      | None => Fallback
      | Some fields =>
          let columns := structColumns 0 fields in
          match structRows (map fst columns) val with
          | Rows rows => Rows (map (fun c => VString (snd c)) columns :: rows)
          | r => r
          end
      end
  end.

Definition buildRows (val : list GoValue) : rowsResult :=
  match val with
  | [] => Rows []
  | v :: _ => match kindOf (Indirect v) with
              | KArray | KSlice => buildRowsFromSlices val
              | KStruct => buildRowsFromStructs val
              | _ => Fallback
              end
  end.

(** A panic of [reflect], here an error value of its own. *)
Definition panicError : error := EPlain "panic: reflect".

Definition serializeArray (val : list GoValue) : result error string :=
  if negb (canTabulate val) then MarshalIndent (VSlice KInterface val)
  else match buildRows val with
       | Rows rows => Ok (printArray rows)
       | Fallback => MarshalIndent (VSlice KInterface val)
       | Panics => Err panicError
       end.

(** [refVal.Bytes()] of a slice of bytes. *)
Definition byteString (l : list GoValue) : string :=
  String.concat EmptyString
    (map (fun v => match v with
                   | VUint _ z => String (ascii_of_N (Z.to_N z)) EmptyString
                   | _ => EmptyString
                   end) l).

Definition serialize (order : list (string * string) -> list (string * string)) (val : GoValue) : result error string :=
  match Indirect val with
  | VInt _ z => Ok (pretty z)
  | VUint _ z => Ok (pretty z)
  | VFloat _ f => Ok (FormatFloat f)
  | VString s => Ok s
  | VSlice elem l =>
      if bool_decide (elem = KUint Uint8) then Ok (byteString l) else serializeArray l
  | VArray elem l =>
      if bool_decide (elem = KUint Uint8)
      then match val with
           | VPointer _ => Ok (byteString l)
           | _ => Err panicError (* Bytes of an unaddressable array *)
           end
      else serializeArray l
  | VMap l => serializeMap order l
  | VInvalid => Err panicError (* Interface of the zero Value *)
  | v => MarshalIndent v
  end.

(** ** Lemmas *)

Lemma canTabulate_not_rows (v : GoValue) (val : list GoValue) :
  canTabulate (v :: val) = true -> buildRows (v :: val) = Fallback.
Proof.
  unfold canTabulate, buildRows. cbn [forallb]. intros Hc. apply andb_true_iff in Hc as [Hv _].
  by destruct (kindOf (Indirect v)).
Qed.

(** The table renderer is reached by the empty list alone: what [canTabulate]
    lets through is scalars, what [buildRows] accepts is slices and structs, so
    every non-empty list, of structs too, is printed as JSON. *)
Theorem serializeArray_is_JSON (val : list GoValue) :
  serializeArray val = match val with
                       | [] => Ok ("+" +:+ newline +:+ "+" +:+ newline)
                       | _ => MarshalIndent (VSlice KInterface val)
                       end.
Proof.
  destruct val as [|v val]; [reflexivity|]. unfold serializeArray.
  destruct (canTabulate (v :: val)) eqn:E; [|done]. cbn [negb]. by rewrite canTabulate_not_rows.
Qed.

(** *** Tables are rectangular *)

Hypothesis StringWidth_app : forall s t, StringWidth (s +:+ t) = StringWidth s + StringWidth t.
Hypothesis StringWidth_blank : StringWidth " " = 1 /\ StringWidth "-" = 1 /\ StringWidth "+" = 1 /\ StringWidth "|" = 1.

Lemma StringWidth_nil : StringWidth EmptyString = 0.
Proof. pose proof (StringWidth_app EmptyString EmptyString) as Ha. cbn in Ha. lia. Qed.

Lemma StringWidth_Repeat (s : string) (n : nat) : StringWidth s = 1 -> StringWidth (Repeat s n) = n.
Proof.
  intros Hs. induction n as [|n IH]; cbn [Repeat]; [apply StringWidth_nil|]. rewrite StringWidth_app, Hs, IH. lia.
Qed.

(** The display width of a line of the table, its newline apart. *)
Definition lineWidth (widths : list nat) : nat := foldr (fun w acc => w + 3 + acc) 1 widths.

Lemma printBorder_width (widths : list nat) :
  exists l, printBorder widths = l +:+ newline /\ StringWidth l = lineWidth widths.
Proof.
  destruct StringWidth_blank as (Hb & Hd & Hp & _). unfold printBorder.
  exists (String.concat EmptyString (map (fun l => "+" +:+ Repeat "-" (l + 2)) widths) +:+ "+").
  split; [by rewrite append_assoc|]. rewrite StringWidth_app, Hp.
  assert (forall ws, StringWidth (String.concat EmptyString (map (fun l => "+" +:+ Repeat "-" (l + 2)) ws)) + 1
                     = lineWidth ws) as Hws; [|apply Hws].
  induction ws as [|w ws IH]; [cbn; by rewrite StringWidth_nil|].
  assert (forall x xs, String.concat EmptyString (x :: xs) = x +:+ String.concat EmptyString xs) as Hc.
  { intros x [|y xs]; cbn [String.concat]; [by rewrite append_nil_r|]. done. }
  cbn [map lineWidth foldr]. rewrite Hc, !StringWidth_app, Hp, StringWidth_Repeat by done.
  fold (lineWidth ws). lia.
Qed.

(** A row fits widths when none of its cells is wider than its column. *)
Fixpoint fits (widths : list nat) (cells : list string) : Prop :=
  match widths, cells with
  | w :: ws, c :: cs => StringWidth c <= w /\ fits ws cs
  | _, _ => True
  end.

Lemma printRow_width (widths : list nat) (cells : list string) :
  fits widths cells -> exists l, printRow widths cells = l +:+ newline /\ StringWidth l = lineWidth widths.
Proof.
  destruct StringWidth_blank as (Hb & _ & _ & Hv). intros Hf.
  exists (printCells widths cells +:+ "|"). unfold printRow. split; [by rewrite append_assoc|].
  rewrite StringWidth_app, Hv. revert cells Hf.
  induction widths as [|w ws IH]; intros cells Hf; [cbn; by rewrite StringWidth_nil|].
  cbn [printCells lineWidth foldr]. fold (lineWidth ws). destruct cells as [|c cs].
  - rewrite !StringWidth_app, Hv, Hb, StringWidth_nil, StringWidth_Repeat by done.
    specialize (IH [] ltac:(by destruct ws)). lia.
  - destruct Hf as [Hc Hf]. rewrite !StringWidth_app, Hv, Hb, StringWidth_Repeat by done.
    specialize (IH cs Hf). lia.
Qed.

Lemma widen_ge (ws : list nat) (cells : list string) : Forall2 le ws (widen ws cells).
Proof.
  revert cells. induction ws as [|w ws IH]; intros [|c cs]; cbn [widen]; try reflexivity.
  constructor; [|apply IH]. destruct (Nat.ltb_spec w (StringWidth c)); lia.
Qed.

Lemma widen_fits (ws : list nat) (cells : list string) : fits (widen ws cells) cells.
Proof.
  revert cells. induction ws as [|w ws IH]; intros [|c cs]; cbn [widen fits]; try done.
  split; [|apply IH]. destruct (Nat.ltb_spec w (StringWidth c)); lia.
Qed.

Lemma fits_mono (ws ws' : list nat) (cells : list string) : Forall2 le ws ws' -> fits ws cells -> fits ws' cells.
Proof.
  intros Hle; revert cells; induction Hle as [|w w' ws ws' Hw Hws IH]; intros [|c cs]; cbn [fits]; try done.
  intros [Hc Hf]. split; [lia|by apply IH].
Qed.

Lemma tableWidths_fold (rows : list (list string)) (ws : list nat) :
  Forall (fun r : list string => 2 <= length r) rows ->
  Forall2 le ws (fold_left rowWidths rows ws)
  /\ Forall (fits (fold_left rowWidths rows ws)) rows.
Proof.
  intros Hr; revert ws; induction Hr as [|r rows Hlen Hrows IH]; intros ws; cbn [fold_left].
  - split; [reflexivity|constructor].
  - unfold rowWidths at 2 4. destruct (Nat.ltb_spec 1 (length r)); [|lia].
    destruct (IH (widen ws r)) as [Hle Hfits]. split.
    + etrans; [apply widen_ge|exact Hle].
    + constructor; [|exact Hfits]. eapply fits_mono; [exact Hle|apply widen_fits].
Qed.

(** The lines of a table. *)
Definition rectangular (w : nat) (s : string) : Prop :=
  exists lines, s = String.concat EmptyString (map (fun l => l +:+ newline) lines)
    /\ Forall (fun l => StringWidth l = w) lines.

Lemma rectangular_line (w : nat) (l : string) : StringWidth l = w -> rectangular w (l +:+ newline).
Proof. intros Hl. exists [l]. split; [by cbn|]. by constructor. Qed.

Lemma sconcat_app (a b : list string) :
  String.concat EmptyString (a ++ b) = String.concat EmptyString a +:+ String.concat EmptyString b.
Proof.
  assert (forall x xs, String.concat EmptyString (x :: xs) = x +:+ String.concat EmptyString xs) as Hc.
  { intros x [|y xs]; cbn [String.concat]; [by rewrite append_nil_r|]. done. }
  induction a as [|x a IH]; [done|]. cbn [app]. by rewrite !Hc, IH, append_assoc.
Qed.

Lemma rectangular_app (w : nat) (s t : string) : rectangular w s -> rectangular w t -> rectangular w (s +:+ t).
Proof.
  intros (ls & -> & Hl) (lt & -> & Ht). exists (ls ++ lt). split; [by rewrite map_app, sconcat_app|].
  by apply Forall_app.
Qed.

Lemma printRows_rectangular (ws : list nat) (first : bool) (rows : list (list string)) :
  Forall (fits ws) rows -> rectangular (lineWidth ws) (printRows ws first rows).
Proof.
  intros Hr; revert first; induction Hr as [|r rows Hf Hrows IH]; intros first; cbn [printRows].
  { exists []. split; [done|constructor]. }
  apply rectangular_app; [|apply rectangular_app; [|apply IH]].
  - destruct (printRow_width ws r Hf) as (l & -> & Hl). by apply rectangular_line.
  - destruct first; [|exists []; split; [done|constructor]].
    destruct (printBorder_width ws) as (l & -> & Hl). by apply rectangular_line.
Qed.

(** A table whose rows all have at least two cells is a rectangle: every
    line, border or row, has the same display width, and each cell is padded to
    its column whatever the cells contain. *)
Theorem printArray_rectangular (vals : list (list GoValue)) :
  Forall (fun r => 2 <= length r) vals ->
  exists w, rectangular w (printArray vals).
Proof.
  intros Hv. unfold printArray. exists (lineWidth (tableWidths (map (map toString) vals))).
  assert (Forall (fun r : list string => 2 <= length r) (map (map toString) vals)) as Hr.
  { apply Forall_map. eapply Forall_impl; [exact Hv|]. intros r Hl. by rewrite length_map. }
  apply rectangular_app; [|apply rectangular_app].
  - destruct (printBorder_width (tableWidths (map (map toString) vals))) as (l & -> & Hl). by apply rectangular_line.
  - apply printRows_rectangular. unfold tableWidths. apply tableWidths_fold, Hr.
  - destruct (printBorder_width (tableWidths (map (map toString) vals))) as (l & -> & Hl). by apply rectangular_line.
Qed.

End Serialize.

(** Display width of ASCII text is its length. *)
Lemma printArray_rectangular_witness :
  let v s := VString s in
  exists w, rectangular String.length w
    (printArray (fun v => match v with VString s => s | _ => "?" end) (fun _ => "?") (fun _ => "?") String.length
       [[v "ID"; v "NAME"]; [v "1"; v "alice"]; [v "22"; v "bob"]]).
Proof.
  intros v. apply printArray_rectangular.
  - intros s t. apply length_append.
  - repeat split; reflexivity.
  - repeat (constructor; [cbn; lia|]). constructor.
Defined.

(** A one-column table is not: its widths stay 0 and the borders do not match. *)
Example one_column_ragged :
  printArray (fun v => match v with VString s => s | _ => "?" end) (fun _ => "?") (fun _ => "?") String.length
    [[VString "NAME"]; [VString "al"]]
  = "+--+" +:+ newline +:+ "| NAME |" +:+ newline +:+ "+--+" +:+ newline +:+ "| al |" +:+ newline +:+ "+--+" +:+ newline.
Proof. reflexivity. Qed.
