(* ===== verification/CliServer.v ===== *)
(** [transport/cli/context.go], [server.go] and [client.go]: the reply path of a
    command, the read loop of a connection, and the client that waits for it.

    A handler acts on the metadata store whose world is the request context and
    the connection; a Go context is what the library reads back from it. *)

From Stdlib Require Import ZArith Lia String Ascii List Bool.
From Stdlib Require Import Strings.Byte.
From stdpp Require Import base tactics list gmap strings pretty.
From S2P Require Import Prelude GoStrings Errs CliFrame CliRouter CliSerialize Metadata Middleware.

Local Open Scope string_scope.
Local Open Scope list_scope.
Local Open Scope Z_scope.

Definition wireChunkSize : Z := MaxInt16 - 1.
Definition Protocol : string := "cli".

(** The dynamic type of a result: a value, and its [Marshal] method when it has
    one. *)
Record Any : Type := mkAny {
  anyValue : GoValue;
  anyMarshal : option (result error string);
}.

Record responsePayload : Type := mkPayload {
  pType : byte;
  pCode : Z;
  pMessage : string;
  pData : option Any;
}.

Record handshake : Type := mkHandshake {
  hsID : Z; hsOS : string; hsName : string; hsVersion : string; hsServerTime : Z; hsRemoteAddr : string;
}.

Section Server.

Context {Claims : Type} {W : Type}.

(** The connection's [Write]; its remote address; the clock. *)
Variable Write : W -> bytes -> W * Z * option error.
Variable remoteAddr : W -> string.
Variable now : W -> Z.
Variable GOOS : string.

(** [serialize] with its library parameters, and the struct a handshake is. *)
Variable serialize : GoValue -> result error string.
Variable handshakeValue : handshake -> GoValue.

(** ** context.go *)

Record Context : Type := mkContext {
  ID : Z;
  seq : Z;
  ctx_ : GoContext Claims;
  deadline : option Z;
  params : gmap string string;
  variables_ : gmap string GoValue;
  args : list string;
}.

Definition background : GoContext Claims := mkCtx None None.

(** [reset] leaves nothing of the request that used the pooled object before. *)
Definition reset (id : Z) (_ : Context) : Context := mkContext id 0 background None ∅ ∅ [].

Definition setSeq (q : Z) (c : Context) : Context :=
  mkContext (ID c) q (ctx_ c) (deadline c) (params c) (variables_ c) (args c).
Definition setContext (g : GoContext Claims) (d : option Z) (c : Context) : Context :=
  mkContext (ID c) (seq c) g d (params c) (variables_ c) (args c).
Definition setArgs (a : list string) (c : Context) : Context :=
  mkContext (ID c) (seq c) (ctx_ c) (deadline c) (params c) (variables_ c) a.
Definition setParam (ps : gmap string string) (c : Context) : Context :=
  mkContext (ID c) (seq c) (ctx_ c) (deadline c) ps (variables_ c) (args c).
Definition SetValue (name : string) (v : GoValue) (c : Context) : Context :=
  mkContext (ID c) (seq c) (ctx_ c) (deadline c) (params c) (<[name := v]> (variables_ c)) (args c).

Definition Argument (c : Context) (index : Z) : string :=
  if (Z.of_nat (length (args c)) <=? index) || (index <? 0) then EmptyString
  else default EmptyString (args c !! Z.to_nat index).
Definition Param (c : Context) (s : string) : string := default EmptyString (params c !! s).
Definition Value (c : Context) (name : string) : option GoValue := variables_ c !! name.

(** The encoder, then the generic serializer. *)
Definition encodeData (data : option Any) : result error bytes :=
  match data with
  | None => Ok OK
  | Some a => match anyMarshal a with
              | Some (Ok s) => Ok (list_byte_of_string s)
              | Some (Err e) => Err e
              | None => match serialize (anyValue a) with
                        | Ok s => Ok (list_byte_of_string s)
                        | Err e => Err e
                        end
              end
  end.

(** The loop of [writeChunked], one chunk per round. *)
Fixpoint writeChunkedLoop (n : nat) (q : Z) (t : byte) (buf : bytes) (w : W) : W * option error :=
  match n, buf with
  | _, [] | O, _ => (w, None)
  | S n', _ =>
      let chunk := take (Z.to_nat wireChunkSize) buf in
      let rest := drop (Z.to_nat wireChunkSize) buf in
      let flag := match rest with [] => FlagComplete | _ => FlagPortion end in
      match writeFrame Write w (newFrame (now w) t flag q 0 (Some chunk)) with
      | (w, Some e) => (w, Some e)
      | (w, None) => writeChunkedLoop n' q t rest w
      end
  end.

(** Every round takes at least one byte. *)
Definition writeChunked (q : Z) (t : byte) (buf : bytes) (w : W) : W * option error :=
  writeChunkedLoop (length buf) q t buf w.

Definition errorFrame (q : Z) (res : responsePayload) : Frame :=
  mkFrame Feature (pType res) FlagComplete q None
    ("ERROR(" +:+ pretty (pCode res) +:+ "): " +:+ pMessage res) 0 0.

Definition send (q : Z) (res : responsePayload) (w : W) : W * option error :=
  if 0 <? pCode res then writeFrame Write w (errorFrame q res)
  else match encodeData (pData res) with
       | Err e => (w, Some e)
       | Ok buf => writeChunked q (pType res) buf w
       end.

(** ** The state a handler acts on *)

Record World : Type := mkWorld { wctx : Context; wconn : W }.

Notation State := (Metadata.Store (World := World)).
Notation Handler := (Middleware.Handler (Claims := Claims) (World := World)).
Notation Mw := (Middleware.Middleware (Claims := Claims) (World := World)).

Definition HandleFunc : Type := State -> State * option error.

Definition onCtx (f : Context -> Context) (s : State) : State :=
  mkStore (objects s) (mkWorld (f (wctx (world s))) (wconn (world s))).
Definition onConn (f : W -> W * option error) (s : State) : State * option error :=
  let '(w, e) := f (wconn (world s)) in
  (mkStore (objects s) (mkWorld (wctx (world s)) w), e).

Definition sendReply (res : responsePayload) (s : State) : State * option error :=
  onConn (send (seq (wctx (world s))) res) s.

Definition Success (v : option Any) : HandleFunc := sendReply (mkPayload PacketTypeCommand 0 EmptyString v).
Definition Error_ (code : Z) (message : string) : HandleFunc :=
  sendReply (mkPayload PacketTypeCommand code message None).

(** The two metadata adapters of types.go. *)
Definition cliMetadataReader : Metadata.TeeReader (World := World) := fun w key => Param (wctx w) key.
Definition cliMetadataWriter : Metadata.TeeWriter (World := World) :=
  fun w key val => mkWorld (SetValue key (VString val) (wctx w)) (wconn w).

(** ** server.go *)

(** The optional recorder of request metrics. *)
Record MetricsRecorder : Type := mkRecorder {
  recordDuration : string -> string -> string -> Z -> State -> State;
  recordTotal : string -> string -> string -> State -> State;
}.

(** The optional tracer: [Start] (with [Extract]) gives the new context and a span. *)
Record Tracer : Type := mkTracer {
  tStart : GoContext Claims -> string -> State -> GoContext Claims * positive * State;
  tSetError : positive -> error -> State -> State;
  tEnd : positive -> State -> State;
}.

Record Server : Type := mkServer {
  svrCtx : GoContext Claims;
  router : Router HandleFunc;
  sequence : Z;
  ctxMap : gset Z;
  middleware : list Mw;
  tracer : option Tracer;
  metrics : option MetricsRecorder;
}.

Definition wrapCommand (pathname desc : string) (cb : HandleFunc) : Command HandleFunc :=
  let desc := if String.eqb desc EmptyString then Join (SplitByte (TrimPrefix pathname "/") slash) " " else desc in
  mkCommand pathname (Some (fun s => cb s)) desc.

Definition withRouter (svr : Server) (r : Router HandleFunc) : Server :=
  mkServer (svrCtx svr) r (sequence svr) (ctxMap svr) (middleware svr) (tracer svr) (metrics svr).

Definition HandleCommand (svr : Server) (pathname desc : string) (cb : HandleFunc) : Server * option error :=
  let '(r, e) := Handle (router svr) pathname (wrapCommand pathname desc cb) in
  (withRouter svr r, e).

Definition Use (svr : Server) (mws : list Mw) : Server :=
  mkServer (svrCtx svr) (router svr) (sequence svr) (ctxMap svr) (middleware svr ++ mws) (tracer svr) (metrics svr).

(** [params[name] = args[i]], in order. *)
Definition bindParams (names vals : list string) : gmap string string :=
  fold_left (fun m '(name, v) => <[name := v]> m) (combine names vals) ∅.

Definition mdPut (l : Metadata.loc) (key val : string) (s : State) : State :=
  update s l (mdSet (world s) (deref s l) key val).

(** The middleware chain around the handler: what surrounds [next(ctx.ctx)]. *)
Definition runCommand (svr : Server) (r : Router HandleFunc) (s : State) : State * option error :=
  let path := cPath (rcommand r) in
  let h : Handler := fun _ s => match cHandle (rcommand r) with
                                | Some handle => handle s
                                | None => (s, None)
                                end in
  let next := Chain (middleware svr) h in
  let g := ctx_ (wctx (world s)) in
  let '(s, l) := FromContext s (ctxMeta g) in
  let s := mdPut l RequestPath path s in
  let s := mdPut l RequestProtocol Protocol s in
  let s := mkStore (<[l := setTeeReader (deref s l) cliMetadataReader]> (objects s)) (world s) in
  let s := mkStore (<[l := setTeeWriter (deref s l) cliMetadataWriter]> (objects s)) (world s) in
  let g := mkCtx (Metadata.NewContext l) (ctxClaims g) in
  next g (onCtx (fun c => setContext g (deadline c) c) s).

Definition recordMetrics (svr : Server) (path : string) (start : Z) (err : option error)
    (span : option (Tracer * positive)) (s : State) : State :=
  match metrics svr with
  | None => s
  | Some m =>
      let status := match err with Some _ => "error" | None => "success" end in
      let s := match err, span with Some e, Some (t, sp) => tSetError t sp e s | _, _ => s end in
      recordTotal m Protocol path status
        (recordDuration m Protocol path status (now (wconn (world s)) - start) s)
  end.

Definition execute (svr : Server) (frame : Frame) (s : State) : State * option error :=
  let cmd := string_of_list_byte (frameData frame) in
  let tokens := Fields cmd in
  let s := onCtx (setContext (svrCtx svr)
                    (if 0 <? FTimeout frame then Some (FTimeout frame) else None)) s in
  let start := now (wconn (world s)) in
  match Lookup (router svr) tokens with
  | Err err =>
      if Is err CliErrNotFound
      then Error_ CodeNotFound ("Command " +:+ cmd +:+ " not found") s
      else Error_ CodeUnavailable (errText err) s
  | Ok (r, args) =>
      if (length args <? length (rparams r))%nat then Error_ CodeUnavailable (Usage r) s
      else
        let params := match rparams r with [] => ∅ | names => bindParams names args end in
        let s := onCtx (fun c => setParam params (setArgs args c)) s in
        match tracer svr with
        | None =>
            let '(s, err) := runCommand svr r s in
            (recordMetrics svr (cPath (rcommand r)) start err None s, err)
        | Some t =>
            let '(g, span, s) := tStart t (ctx_ (wctx (world s))) (cPath (rcommand r)) s in
            let s := onCtx (fun c => setContext g (deadline c) c) s in
            let '(s, err) := runCommand svr r s in
            (tEnd t span (recordMetrics svr (cPath (rcommand r)) start err (Some (t, span)) s), err)
        end
  end.

Definition nextSequence (svr : Server) : Server * Z :=
  let q := if sequence svr =? MaxInt64 then 1 else sequence svr in
  let q := int64 (q + 1) in
  (mkServer (svrCtx svr) (router svr) q (ctxMap svr) (middleware svr) (tracer svr) (metrics svr), q).

(** [[]string] boxed for [serialize]. *)
Definition stringsAny (l : list string) : Any := mkAny (VSlice KString (map VString l)) None.

(** One request of the read loop; [Some e] leaves the loop. *)
Definition dispatch (svr : Server) (frame : Frame) (s : State) : State * option error :=
  let s := onCtx (setSeq (FSeq frame)) s in
  if Byte.eqb (FType frame) PacketTypeHandshake then
    let w := wconn (world s) in
    let hs := mkHandshake (ID (wctx (world s))) GOOS EmptyString EmptyString (now w) (remoteAddr w) in
    sendReply (mkPayload PacketTypeHandshake 0 EmptyString (Some (mkAny (VPointer (Some (handshakeValue hs))) None))) s
  else if Byte.eqb (FType frame) PacketTypeCompleter then
    let tokens := Fields (string_of_list_byte (frameData frame)) in
    sendReply (mkPayload PacketTypeCompleter 0 EmptyString (Some (stringsAny (Completer (router svr) tokens)))) s
  else if Byte.eqb (FType frame) PacketTypeCommand then execute svr frame s
  else (s, None).

(** The read loop over the bytes the peer sends.  Every frame takes bytes of the
    input, so its length bounds the rounds (see [readLoop_fuel]). *)
Fixpoint readLoop (n : nat) (svr : Server) (input : bytes) (s : State) : State * option error :=
  match n with
  | O => (s, None)
  | S n' =>
      match readFrame input with
      | Err e => (s, Some e)
      | Ok (frame, input') =>
          match dispatch svr frame s with
          | (s, Some e) => (s, Some e)
          | (s, None) => readLoop n' svr input' s
          end
      end
  end.

Definition withCtxMap (svr : Server) (m : gset Z) : Server :=
  mkServer (svrCtx svr) (router svr) (sequence svr) m (middleware svr) (tracer svr) (metrics svr).

(** [process]: the connection is registered under a fresh id, served, closed and
    forgotten; [close] is the connection's [Close], and the context object goes
    back to the pool. *)
Definition process (close : W -> W) (svr : Server) (input : bytes) (pooled : Context) (objs : gmap Metadata.loc (Metadata.Metadata (World := World))) (conn : W) :
    Server * State * option error :=
  let '(svr, id) := nextSequence svr in
  let svr := withCtxMap svr ({[id]} ∪ ctxMap svr) in
  let s := mkStore objs (mkWorld (reset id pooled) conn) in
  let '(s, err) := readLoop (S (length input)) svr input s in
  let s := mkStore (objects s) (mkWorld (wctx (world s)) (close (wconn (world s)))) in
  (withCtxMap svr (ctxMap svr ∖ {[ID (wctx (world s))]}), s, err).

End Server.

(** ** client.go *)

Definition getSequence (sequence : Z) : Z :=
  let q := uint16 (sequence + 1) in
  if q =? 0 then 1 else q.

(** [ioLoop]: the frames of the connection up to the first failure, in order. *)
Fixpoint ioLoop (n : nat) (input : bytes) : list Frame :=
  match n with
  | O => []
  | S n' => match readFrame input with
            | Err _ => []
            | Ok (frame, input') => frame :: ioLoop n' input'
            end
  end.

(** What the loop hands to the two channels. *)
Definition commandChan (fs : list Frame) : list Frame :=
  List.filter (fun f => Byte.eqb (FType f) PacketTypeCommand) fs.
Definition completerChan (fs : list Frame) : list Frame :=
  List.filter (fun f => Byte.eqb (FType f) PacketTypeCompleter) fs.

(** A round of the [select] of [waitResponse]: the timer fires, [exitChan] is closed,
    or a frame comes out of [commandChan].  Which of the ready cases a round takes is
    not the program's choice, so a wait is a function of the rounds. *)
Inductive WaitEvent : Type := Timer | Exit | Response (res : Frame).
Inductive Outcome : Type := Completed | TimedOut | Exited.

Definition timeoutLine : string := "timeout waiting for response" +:+ newline.

(** [waitResponse]: the text printed, and how the wait ended, if it did. *)
Fixpoint waitResponse (q : Z) (rounds : list WaitEvent) : string * option Outcome :=
  match rounds with
  | [] => (EmptyString, None)
  | Timer :: _ => (timeoutLine, Some TimedOut)
  | Exit :: _ => (EmptyString, Some Exited)
  | Response res :: rest =>
      if FSeq res =? q then
        let out := if String.eqb (FError res) EmptyString
                   then string_of_list_byte (frameData res) else FError res in
        if Byte.eqb (FFlag res) FlagComplete then (out +:+ newline, Some Completed)
        else let '(more, o) := waitResponse q rest in (out +:+ more, o)
      else waitResponse q rest
  end.

(** The frames the rounds received; whether the timer or the exit was among them. *)
Fixpoint receivedBy (rounds : list WaitEvent) : list Frame :=
  match rounds with
  | [] => []
  | Response f :: rest => f :: receivedBy rest
  | _ :: rest => receivedBy rest
  end.
Definition interrupted (rounds : list WaitEvent) : bool :=
  existsb (fun e => match e with Response _ => false | _ => true end) rounds.

(** The reference: what a wait that nothing interrupts prints of a sequence of frames,
    and whether they complete the response. *)
Fixpoint waitFrames (q : Z) (frames : list Frame) : string * bool :=
  match frames with
  | [] => (EmptyString, false)
  | res :: rest =>
      if FSeq res =? q then
        let out := if String.eqb (FError res) EmptyString
                   then string_of_list_byte (frameData res) else FError res in
        if Byte.eqb (FFlag res) FlagComplete then (out +:+ newline, true)
        else let '(more, done) := waitFrames q rest in (out +:+ more, done)
      else waitFrames q rest
  end.

(** [completer]: the first completer frame, whatever its sequence number. *)
Definition completer (Unmarshal : bytes -> list string) (frames : list Frame) : list string :=
  match completerChan frames with
  | [] => []
  | f :: _ => Unmarshal (frameData f)
  end.

(** The text that reaches the client's terminal. *)
Definition clientSees (q : Z) (wire : bytes) : string * bool :=
  waitFrames q (commandChan (ioLoop (S (length wire)) wire)).

(** ** Lemmas *)

Lemma getSequence_range (q : Z) : (1 <= getSequence q <= 65535)%Z.
Proof.
  unfold getSequence. pose proof (wrapu_range 16 (q + 1) ltac:(lia)) as Hr. unfold in_u in Hr.
  change (2 ^ 16)%Z with 65536%Z in Hr. fold (uint16 (q + 1)) in Hr.
  destruct (Z.eqb_spec (uint16 (q + 1)) 0); lia.
Qed.

(** A request and the next never carry the same number. *)
Lemma getSequence_fresh (q : Z) : in_u 16 q -> getSequence q <> q.
Proof.
  unfold in_u. change (2 ^ 16)%Z with 65536%Z. intros Hq. unfold getSequence, uint16, wrapu.
  change (2 ^ 16)%Z with 65536%Z.
  destruct (decide (q = 65535)) as [->|]; [by vm_compute|].
  rewrite Z.mod_small by lia. destruct (Z.eqb_spec (q + 1) 0); lia.
Qed.

(** Reading a frame takes bytes from the input. *)
Lemma readFrame_shorter (r r' : bytes) (f : Frame) : readFrame r = Ok (f, r') -> (length r' < length r)%nat.
Proof.
  intros E. destruct (local_readFrame _ _ _ E) as (c & -> & Hc). rewrite length_app.
  destruct c as [|b c]; [|cbn; lia]. specialize (Hc []). discriminate Hc.
Qed.

(** More fuel than bytes changes nothing. *)
Lemma ioLoop_fuel (n m : nat) (r : bytes) :
  (length r < n)%nat -> (length r < m)%nat -> ioLoop n r = ioLoop m r.
Proof.
  revert m r. induction n as [|n IH]; intros [|m] r Hn Hm; try lia. cbn [ioLoop].
  destruct (readFrame r) as [[f r']|e] eqn:E; [|done]. apply readFrame_shorter in E.
  f_equal. apply IH; lia.
Qed.

Lemma ioLoop_encode (f : Frame) (r : bytes) :
  frame_ok f -> ioLoop (S (length (encode f ++ r))) (encode f ++ r) = wire_norm f :: ioLoop (S (length r)) r.
Proof.
  intros [Hwf He]. pose proof (readFrame_encode f r Hwf He) as E.
  pose proof (readFrame_shorter _ _ _ E) as Hs. set (w := encode f ++ r) in *.
  transitivity (wire_norm f :: ioLoop (length w) r); [by cbn [ioLoop]; rewrite E|].
  f_equal. apply ioLoop_fuel; lia.
Qed.

Lemma ioLoop_encodes (fs : list Frame) (r : bytes) :
  Forall frame_ok fs ->
  ioLoop (S (length (concat (map encode fs) ++ r))) (concat (map encode fs) ++ r)
  = map wire_norm fs ++ ioLoop (S (length r)) r.
Proof.
  induction 1 as [|f fs Hf Hall IH]; [done|]. cbn [map concat app].
  rewrite <- app_assoc, ioLoop_encode by done. by rewrite IH.
Qed.

(** An interrupted wait has printed a beginning of what the frames would have it print. *)
Lemma waitResponse_frames (q : Z) (rounds : list WaitEvent) (rest : list Frame) (line : string) :
  waitFrames q (receivedBy rounds ++ rest) = (line, true) ->
  match waitResponse q rounds with
  | (out, Some Completed) => out = line
  | (out, Some TimedOut) => exists p more, line = p +:+ more /\ out = p +:+ timeoutLine
  | (out, _) => exists more, line = out +:+ more
  end.
Proof.
  revert line. induction rounds as [|[| |f] rounds IH]; intros line Hl; cbn [waitResponse].
  - by exists line.
  - by exists EmptyString, line.
  - by exists line.
  - cbn [receivedBy app waitFrames] in Hl. destruct (FSeq f =? q); [|by apply IH].
    set (out := if String.eqb _ _ then _ else _) in *. clearbody out.
    destruct (Byte.eqb (FFlag f) FlagComplete); [by injection Hl as <-|].
    destruct (waitFrames q (receivedBy rounds ++ rest)) as [more d] eqn:E. injection Hl as <- ->.
    specialize (IH more eq_refl). destruct (waitResponse q rounds) as [o [[]|]].
    + by subst.
    + destruct IH as (p & m & -> & ->). exists (out +:+ p), m. by rewrite !append_assoc.
    + destruct IH as (m & ->). exists m. by rewrite append_assoc.
    + destruct IH as (m & ->). exists m. by rewrite append_assoc.
Qed.

Lemma waitResponse_uninterrupted (q : Z) (rounds : list WaitEvent) (line : string) :
  interrupted rounds = false -> waitFrames q (receivedBy rounds) = (line, true) ->
  waitResponse q rounds = (line, Some Completed).
Proof.
  revert line. induction rounds as [|[| |f] rounds IH]; intros line Hi Hl; try done.
  cbn [waitResponse receivedBy waitFrames] in *. destruct (FSeq f =? q); [|by apply IH].
  destruct (Byte.eqb (FFlag f) FlagComplete); [by injection Hl as <-|].
  destruct (waitFrames q (receivedBy rounds)) as [more d] eqn:E. injection Hl as <- ->.
  by rewrite (IH more).
Qed.

(** A command frame of sequence number [q]. *)
Definition replies (q : Z) (f : Frame) : Prop := FSeq f = q /\ FType f = PacketTypeCommand.

Lemma waitFrames_skip (q : Z) (pre rest : list Frame) :
  Forall (fun f => ~ replies q f) pre ->
  waitFrames q (commandChan (pre ++ rest)) = waitFrames q (commandChan rest).
Proof.
  induction 1 as [|f pre Hf Hall IH]; [done|]. cbn [app commandChan List.filter].
  destruct (Byte.eqb (FType f) PacketTypeCommand) eqn:Et; [|exact IH]. cbn [waitFrames].
  destruct (Z.eqb_spec (FSeq f) q) as [Eq|]; [|exact IH]. destruct Hf. split; [done|].
  by apply Byte.byte_dec_bl.
Qed.

(** The frames of one chunked reply. *)
Definition chunkFrame (q : Z) (t flag : byte) (f : Frame) : Prop :=
  (in_u 16 q -> frame_ok f) /\ FSeq f = q /\ FType f = t /\ FFlag f = flag /\ FError f = EmptyString
  /\ (0 < Z.of_nat (length (frameData f)) <= wireChunkSize)%Z.

Inductive chunked (q : Z) (t : byte) : list Frame -> bytes -> Prop :=
| chunked_last f : chunkFrame q t FlagComplete f -> chunked q t [f] (frameData f)
| chunked_more f fs buf :
    chunkFrame q t FlagPortion f -> chunked q t fs buf -> chunked q t (f :: fs) (frameData f ++ buf).

Lemma chunked_ok (q : Z) (t : byte) (fs : list Frame) (buf : bytes) :
  in_u 16 q -> chunked q t fs buf -> Forall frame_ok fs.
Proof. intros Hq. induction 1 as [f Hf|f fs buf Hf Hc IH]; (constructor; [by apply Hf|]); done. Qed.

Lemma chunked_addressed (q : Z) (t : byte) (fs : list Frame) (buf : bytes) :
  chunked q t fs buf -> Forall (fun f => FSeq f = q /\ FType f = t) fs.
Proof. induction 1 as [f Hf|f fs buf Hf Hc IH]; (constructor; [split; apply Hf|]); done. Qed.

(** ** The wire *)

Section Wire.

Variable now : bytes -> Z.
Variable serialize : GoValue -> result error string.
Hypothesis now_int64 : forall w, in_s 64 (now w).

Notation writeChunked := (writeChunked wireWrite now).
Notation send := (send wireWrite now serialize).

Lemma newFrame_chunk (q : Z) (t flag : byte) (ts : Z) (chunk : bytes) :
  in_s 64 ts -> (0 < Z.of_nat (length chunk) <= wireChunkSize)%Z ->
  chunkFrame q t flag (newFrame ts t flag q 0 (Some chunk)).
Proof.
  intros Hts Hl. split; [intros Hq|]. all: repeat split; try done; try (unfold in_u in Hq; apply Hq); try apply Hts; try apply Hl.
  unfold frameData. cbn [newFrame FData default]. unfold wireChunkSize, MaxInt16, MaxUint16 in *. cbn [id]. lia.
Qed.

Lemma writeChunkedLoop_chunked (n : nat) (q : Z) (t : byte) (buf w : bytes) :
  buf <> [] -> (length buf <= n)%nat ->
  exists fs, writeChunkedLoop wireWrite now n q t buf w = (w ++ concat (map encode fs), None)
             /\ chunked q t fs buf.
Proof.
  revert buf w. induction n as [|n IH]; intros buf w Hne Hlen; [destruct buf; [done|cbn in Hlen; lia]|].
  destruct buf as [|b0 b1]; [done|]. cbn [writeChunkedLoop]. remember (b0 :: b1) as buf eqn:Hbuf.
  clear b0 b1 Hbuf. set (k := Z.to_nat wireChunkSize). assert (Z.of_nat k = wireChunkSize) as Hkz by (apply Z2Nat.id; done).
  assert (0 < k)%nat as Hk by (unfold wireChunkSize, MaxInt16 in Hkz; lia). clearbody k.
  assert (forall flag, chunkFrame q t flag (newFrame (now w) t flag q 0 (Some (take k buf)))) as Hc.
  { intros flag. apply newFrame_chunk; [apply now_int64|]. rewrite length_take.
    assert (0 < length buf)%nat by (destruct buf; [done|cbn; lia]). lia. }
  assert (forall flag, writeFrame wireWrite w (newFrame (now w) t flag q 0 (Some (take k buf)))
          = (w ++ encode (newFrame (now w) t flag q 0 (Some (take k buf))), None)) as Hw.
  { intros flag. apply writeFrame_wire. destruct (Hc flag) as (_ & _ & _ & _ & _ & Hl).
    unfold wireChunkSize, MaxInt16, MaxUint16 in *. lia. }
  destruct (drop k buf) as [|r0 r1] eqn:Er.
  - rewrite Hw. exists [newFrame (now w) t FlagComplete q 0 (Some (take k buf))].
    cbn [map concat]. rewrite app_nil_r. split; [by destruct n|].
    assert (take k buf = buf) as Ht. { rewrite <- (take_drop k buf) at 2. by rewrite Er, app_nil_r. }
    rewrite <- Ht at 2. change (take k buf) with (frameData (newFrame (now w) t FlagComplete q 0 (Some (take k buf)))) at 2.
    by constructor.
  - rewrite Hw. rewrite <- Er. destruct (IH (drop k buf) (w ++ encode (newFrame (now w) t FlagPortion q 0 (Some (take k buf)))))
      as (fs & -> & Hfs); [by rewrite Er| |].
    { rewrite length_drop. assert (0 < length buf)%nat by (destruct buf; [by rewrite drop_nil in Er|cbn; lia]). lia. }
    exists (newFrame (now w) t FlagPortion q 0 (Some (take k buf)) :: fs).
    cbn [map concat]. split; [by rewrite <- app_assoc|].
    rewrite <- (take_drop k buf) at 2.
    change (take k buf) with (frameData (newFrame (now w) t FlagPortion q 0 (Some (take k buf)))) at 2.
    by constructor.
Qed.

Lemma waitFrames_chunk (q : Z) (flag : byte) (f : Frame) (rest : list Frame) :
  chunkFrame q PacketTypeCommand flag f ->
  waitFrames q (commandChan (wire_norm f :: rest))
  = if Byte.eqb flag FlagComplete then (string_of_list_byte (frameData f) +:+ newline, true)
    else let '(more, done) := waitFrames q (commandChan rest) in
         (string_of_list_byte (frameData f) +:+ more, done).
Proof.
  intros (_ & Hs & Ht & Hfl & He & _).
  assert (frameData (wire_norm f) = frameData f) as Hd.
  { unfold wire_norm, frameData. cbn [FData]. by destruct (FData f) as [[]|]. }
  cbn [commandChan List.filter]. change (FType (wire_norm f)) with (FType f). rewrite Ht.
  change (Byte.eqb PacketTypeCommand PacketTypeCommand) with true. cbn match.
  fold (commandChan rest). cbn [waitFrames].
  change (FSeq (wire_norm f)) with (FSeq f). change (FError (wire_norm f)) with (FError f).
  change (FFlag (wire_norm f)) with (FFlag f). by rewrite Hs, He, Hfl, Hd, Z.eqb_refl.
Qed.

(** What the peer reads of a chunked reply is the reply. *)
Lemma waitFrames_chunked (q : Z) (fs rest : list Frame) (buf : bytes) :
  chunked q PacketTypeCommand fs buf ->
  waitFrames q (commandChan (map wire_norm fs ++ rest)) = (string_of_list_byte buf +:+ newline, true).
Proof.
  assert (forall a b, string_of_list_byte (a ++ b) = string_of_list_byte a +:+ string_of_list_byte b) as Happ.
  { intros a b. induction a as [|x a IHa]; [done|]. cbn. f_equal. exact IHa. }
  induction 1 as [f Hf|f fs buf Hf Hc IH]; cbn [map app]; rewrite (waitFrames_chunk _ _ _ _ Hf).
  - done.
  - change (Byte.eqb FlagPortion FlagComplete) with false. cbn match. by rewrite IH, Happ, append_assoc.
Qed.

(** The text of a reply. *)
Definition replyText (res : responsePayload) : result error string :=
  if 0 <? pCode res then Ok ("ERROR(" +:+ pretty (pCode res) +:+ "): " +:+ pMessage res)
  else match encodeData serialize (pData res) with
       | Ok buf => Ok (string_of_list_byte buf)
       | Err e => Err e
       end.

Lemma length_list_byte (s : string) : length (list_byte_of_string s) = String.length s.
Proof. unfold list_byte_of_string. rewrite length_map. by induction s; cbn; [|f_equal]. Qed.

Lemma errorFrame_ok (q : Z) (res : responsePayload) :
  in_u 16 q -> (Z.of_nat (String.length (FError (errorFrame q res))) <= MaxUint16)%Z -> frame_ok (errorFrame q res).
Proof.
  intros Hq Hl. split; [|unfold frameError; by rewrite length_list_byte].
  split; [exact Hq|]. split; [done|]. split; [done|]. vm_compute. discriminate.
Qed.

Lemma waitFrames_error (q : Z) (res : responsePayload) (rest : list Frame) :
  pType res = PacketTypeCommand ->
  waitFrames q (commandChan (wire_norm (errorFrame q res) :: rest))
  = (FError (errorFrame q res) +:+ newline, true).
Proof.
  intros Ht. cbn [commandChan List.filter]. change (FType (wire_norm (errorFrame q res))) with (pType res).
  rewrite Ht. change (Byte.eqb PacketTypeCommand PacketTypeCommand) with true. cbn match. cbn [waitFrames].
  change (FSeq (wire_norm (errorFrame q res))) with q. by rewrite Z.eqb_refl.
Qed.

Lemma clientSees_pre (q : Z) (pre : list Frame) (r : bytes) :
  Forall frame_ok pre -> Forall (fun f => ~ replies q f) pre ->
  clientSees q (concat (map encode pre) ++ r) = clientSees q r.
Proof.
  intros Hok Hq. unfold clientSees. rewrite ioLoop_encodes by done. apply waitFrames_skip.
  apply Forall_map. eapply Forall_impl; [exact Hq|]. done.
Qed.

(** The whole reply, on a connection that carries it behind frames that are no replies. *)
Lemma send_clientSees (q : Z) (res : responsePayload) (text : string) (w : bytes) :
  in_u 16 q -> pType res = PacketTypeCommand ->
  replyText res = Ok text -> text <> EmptyString ->
  ((0 < pCode res)%Z -> (Z.of_nat (String.length text) <= MaxUint16)%Z) ->
  exists sent, send q res w = (w ++ sent, None)
    /\ forall pre post, Forall frame_ok pre -> Forall (fun f => ~ replies q f) pre ->
       clientSees q (concat (map encode pre) ++ sent ++ post) = (text +:+ newline, true).
Proof.
  intros Hq Ht Htext Hne Hlen. unfold CliServer.send, replyText in *.
  destruct (Z.ltb_spec 0 (pCode res)) as [Hc|Hc].
  - injection Htext as <-. exists (encode (errorFrame q res)).
    assert (frame_ok (errorFrame q res)) as Hok by (apply errorFrame_ok; [done|by apply Hlen]).
    split; [apply writeFrame_wire, Hok|]. intros pre post Hpre Hq'. rewrite clientSees_pre by done.
    unfold clientSees. rewrite ioLoop_encode by done. by apply waitFrames_error.
  - destruct (encodeData serialize (pData res)) as [buf|e]; [|done]. injection Htext as <-.
    unfold CliServer.writeChunked. rewrite Ht.
    destruct (writeChunkedLoop_chunked (length buf) q PacketTypeCommand buf w) as (fs & -> & Hfs);
      [by intros ->|lia|].
    exists (concat (map encode fs)). split; [done|]. intros pre post Hpre Hq'. rewrite clientSees_pre by done.
    unfold clientSees. rewrite ioLoop_encodes by (by eapply chunked_ok). by eapply waitFrames_chunked.
Qed.


(** An empty reply is never sent: the server reports success and writes
    nothing, so a client that gets only frames of other requests, however many,
    never completes and waits for its timeout. *)
Theorem empty_reply_never_completes (q : Z) (v : option Any) (w : bytes) (pre : list Frame) :
  encodeData serialize v = Ok [] ->
  Forall frame_ok pre -> Forall (fun f => ~ replies q f) pre ->
  send q (mkPayload PacketTypeCommand 0 EmptyString v) w = (w, None)
  /\ clientSees q (concat (map encode pre)) = (EmptyString, false).
Proof.
  intros Hv Hok Hpre. split.
  - unfold CliServer.send. cbn [pCode Z.ltb Z.compare pData]. by rewrite Hv.
  - rewrite <- (app_nil_r (concat (map encode pre))). by rewrite clientSees_pre.
Qed.

(** A code that is not positive is not an error on the wire: the client sees "OK". *)
Lemma Error_nonpositive_is_OK (q code : Z) (message : string) (w : bytes) :
  (code <= 0)%Z ->
  send q (mkPayload PacketTypeCommand code message None) w = writeChunked q PacketTypeCommand OK w.
Proof.
  intros Hc. unfold CliServer.send. cbn [pCode]. by replace (0 <? code) with false by (symmetry; apply Z.ltb_ge; lia).
Qed.

End Wire.

(** ** The connection *)

Section Connection.

Context {Claims : Type}.
Variable remoteAddr : bytes -> string.
Variable now : bytes -> Z.
Variable GOOS : string.
Variable serialize : GoValue -> result error string.
Variable handshakeValue : handshake -> GoValue.
Hypothesis now_int64 : forall w, in_s 64 (now w).

Notation World := (World (Claims := Claims) (W := bytes)).
Notation State := (Metadata.Store (World := World)).
Notation Server := (Server (Claims := Claims) (W := bytes)).
Notation Mw := (Middleware.Middleware (Claims := Claims) (World := World)).
Notation Handler := (Middleware.Handler (Claims := Claims) (World := World)).
Notation HandleFunc := (HandleFunc (Claims := Claims) (W := bytes)).
Notation sendReply := (sendReply wireWrite now serialize).
Notation execute := (execute wireWrite now serialize).
Notation dispatch := (dispatch wireWrite remoteAddr now GOOS serialize handshakeValue).
Notation readLoop := (readLoop wireWrite remoteAddr now GOOS serialize handshakeValue).
Notation process := (process wireWrite remoteAddr now GOOS serialize handshakeValue).

Definition output (s : State) : bytes := wconn (world s).
Definition curSeq (s : State) : Z := seq (wctx (world s)).
Definition curID (s : State) : Z := ID (wctx (world s)).

(** What a response puts on the wire under a number: an error frame, or the chunks of
    the encoded data, nothing when the encoding is empty or fails. *)
Inductive replyFrames (q : Z) (res : responsePayload) : list Frame -> option error -> Prop :=
| reply_error : (0 < pCode res)%Z -> replyFrames q res [errorFrame q res] None
| reply_data buf fs :
    (pCode res <= 0)%Z -> encodeData serialize (pData res) = Ok buf -> buf <> [] ->
    chunked q (pType res) fs buf -> replyFrames q res fs None
| reply_empty : (pCode res <= 0)%Z -> encodeData serialize (pData res) = Ok [] -> replyFrames q res [] None
| reply_fails e : (pCode res <= 0)%Z -> encodeData serialize (pData res) = Err e -> replyFrames q res [] (Some e).

Definition commandError (code : Z) (message : string) : responsePayload :=
  mkPayload PacketTypeCommand code message None.

(** The middleware stack around the handler of a command ran once, on a context that
    carries the number, the arguments, the named parameters and the deadline of the
    request, and left [fs] on the connection; [stop] is its result. *)
Definition ranCommand (svr : Server) (req : Frame) (r : Router HandleFunc) (args : list string)
    (s : State) (fs : list Frame) (stop : option error) (s' : State) : Prop :=
  exists g s1 s2,
    seq (wctx (world s1)) = FSeq req /\ CliServer.args (wctx (world s1)) = args
    /\ params (wctx (world s1)) = bindParams (rparams r) args
    /\ deadline (wctx (world s1)) = (if 0 <? FTimeout req then Some (FTimeout req) else None)
    /\ output s1 = output s
    /\ Chain (middleware svr) (fun _ s => match cHandle (rcommand r) with Some handle => handle s | None => (s, None) end) g s1
       = (s2, stop)
    /\ output s2 = output s ++ concat (map encode fs) /\ world s' = world s2.

(** [answered svr s req fs stop s']: what the server owes the request [req]. *)
Inductive answered (svr : Server) (s : State) (req : Frame) : list Frame -> option error -> State -> Prop :=
| answered_handshake fs stop s' :
    FType req = PacketTypeHandshake ->
    replyFrames (FSeq req) (mkPayload PacketTypeHandshake 0 EmptyString
      (Some (mkAny (VPointer (Some (handshakeValue (mkHandshake (curID s) GOOS EmptyString EmptyString (now (output s)) (remoteAddr (output s)))))) None))) fs stop ->
    answered svr s req fs stop s'
| answered_completer fs stop s' :
    FType req = PacketTypeCompleter ->
    replyFrames (FSeq req) (mkPayload PacketTypeCompleter 0 EmptyString
      (Some (stringsAny (Completer (router svr) (Fields (string_of_list_byte (frameData req))))))) fs stop ->
    answered svr s req fs stop s'
| answered_not_found err fs s' :
    FType req = PacketTypeCommand -> Lookup (router svr) (Fields (string_of_list_byte (frameData req))) = Err err ->
    Is err CliErrNotFound = true ->
    fs = [errorFrame (FSeq req) (commandError CodeNotFound ("Command " +:+ string_of_list_byte (frameData req) +:+ " not found"))] ->
    answered svr s req fs None s'
| answered_unavailable err fs s' :
    FType req = PacketTypeCommand -> Lookup (router svr) (Fields (string_of_list_byte (frameData req))) = Err err ->
    Is err CliErrNotFound = false ->
    fs = [errorFrame (FSeq req) (commandError CodeUnavailable (errText err))] -> answered svr s req fs None s'
| answered_usage r args fs s' :
    FType req = PacketTypeCommand -> Lookup (router svr) (Fields (string_of_list_byte (frameData req))) = Ok (r, args) ->
    (length args < length (rparams r))%nat ->
    fs = [errorFrame (FSeq req) (commandError CodeUnavailable (Usage r))] -> answered svr s req fs None s'
| answered_command r args fs stop s' :
    FType req = PacketTypeCommand -> Lookup (router svr) (Fields (string_of_list_byte (frameData req))) = Ok (r, args) ->
    (length (rparams r) <= length args)%nat -> ranCommand svr req r args s fs stop s' -> answered svr s req fs stop s'
| answered_unknown s' :
    FType req <> PacketTypeHandshake -> FType req <> PacketTypeCompleter -> FType req <> PacketTypeCommand ->
    answered svr s req [] None s'.

(** The requests of a connection, each answered before the next is looked at, up to the
    first whose answer stops the loop. *)
Inductive serves (svr : Server) : State -> list Frame -> list (Frame * list Frame) -> option error -> Prop :=
| serves_end s : serves svr s [] [] None
| serves_stop s req reqs fs e s' :
    answered svr s req fs (Some e) s' -> serves svr s (req :: reqs) [(req, fs)] (Some e)
| serves_next s req reqs fs s' served stop :
    answered svr s req fs None s' -> curID s' = curID s -> output s' = output s ++ concat (map encode fs) ->
    serves svr s' reqs served stop -> serves svr s (req :: reqs) ((req, fs) :: served) stop.

Lemma serves_all (svr : Server) (s : State) (reqs : list Frame) (served : list (Frame * list Frame)) (stop : option error) :
  serves svr s reqs served stop ->
  exists tail, reqs = map fst served ++ tail /\ (stop = None -> tail = []).
Proof.
  induction 1 as [s|s req reqs fs e s' Ha|s req reqs fs s' served stop Ha Hid Ho Hs (tail & -> & Ht)].
  - by exists [].
  - by exists reqs.
  - by exists tail.
Qed.

(** [addressed q t f]: the frame answers request [q] of type [t]. *)
Definition addressed (q : Z) (t : byte) (f : Frame) : Prop := FSeq f = q /\ FType f = t.

(** From [s] to [s'] the connection got only frames addressed to the request. *)
Definition sends (t : byte) (s s' : State) : Prop :=
  curSeq s' = curSeq s /\ curID s' = curID s
  /\ exists fs, output s' = output s ++ concat (map encode fs) /\ Forall (addressed (curSeq s) t) fs.

#[export] Instance sends_preorder (t : byte) : PreOrder (sends t).
Proof.
  split.
  - intros s. split; [done|]. split; [done|]. exists []. split; [by rewrite app_nil_r|constructor].
  - intros s1 s2 s3 (Hq & Hi & fs & Ho & Hf) (Hq' & Hi' & fs' & Ho' & Hf').
    split; [congruence|]. split; [congruence|]. exists (fs ++ fs').
    rewrite Ho', Ho, map_app, concat_app, app_assoc. split; [done|]. apply Forall_app. by rewrite Hq in Hf'.
Qed.

Lemma sends_world (t : byte) (s s' : State) :
  wconn (world s') = wconn (world s) -> seq (wctx (world s')) = seq (wctx (world s)) ->
  ID (wctx (world s')) = ID (wctx (world s)) -> sends t s s'.
Proof.
  intros Hw Hs Hi. split; [exact Hs|]. split; [exact Hi|]. exists [].
  unfold output. rewrite Hw, app_nil_r. split; [done|constructor].
Qed.

Lemma sends_same (t : byte) (s s' : State) : world s' = world s -> sends t s s'.
Proof. intros E. apply sends_world; by rewrite E. Qed.

(** A reply is on the wire, with its result. *)
Lemma sendReply_frames (res : responsePayload) (s : State) :
  exists fs, replyFrames (curSeq s) res fs (snd (sendReply res s))
    /\ output (fst (sendReply res s)) = output s ++ concat (map encode fs)
    /\ wctx (world (fst (sendReply res s))) = wctx (world s)
    /\ Forall (addressed (curSeq s) (pType res)) fs.
Proof.
  unfold CliServer.sendReply, onConn, send. destruct (Z.ltb_spec 0 (pCode res)) as [Hc|Hc].
  - rewrite writeFrame_wire by (vm_compute; discriminate). exists [errorFrame (curSeq s) res].
    split; [by constructor|]. cbn [map concat]. rewrite app_nil_r. by repeat constructor.
  - destruct (encodeData serialize (pData res)) as [[|b0 b1]|e] eqn:Ee.
    + exists []. rewrite app_nil_r. by repeat constructor.
    + unfold writeChunked. set (buf := b0 :: b1) in *.
      destruct (writeChunkedLoop_chunked now now_int64 (length buf) (seq (wctx (world s))) (pType res) buf (wconn (world s)))
        as (fs & -> & Hfs); [done|lia|]. exists fs. split; [by eapply reply_data|]. split; [done|]. split; [done|].
      by eapply chunked_addressed.
    + exists []. rewrite app_nil_r. repeat constructor; done.
Qed.

(** A handler, or the middleware stack, answers only the request it runs for. *)
Definition answers (h : HandleFunc) : Prop := forall s, sends PacketTypeCommand s (fst (h s)).

(** What the read loop needs of what is plugged into the server.  [svr.ctx] is a
    plain context: it carries no metadata of its own. *)
Record server_ok (svr : Server) : Prop := {
  ok_ctx : ctxMeta (svrCtx svr) = None;
  ok_commands : forall ts r args h,
    Lookup (router svr) ts = Ok (r, args) -> cHandle (rcommand r) = Some h -> answers h;
  ok_middleware : Forall (fun mw : Mw => forall next : Handler,
    (forall g, answers (next g)) -> forall g, answers (mw next g)) (middleware svr);
  ok_metrics : forall m p q st d s, metrics svr = Some m ->
    world (recordDuration m p q st d s) = world s /\ world (recordTotal m p q st s) = world s;
  ok_tracer : forall t g p s, tracer svr = Some t ->
    let '(g', sp, s') := tStart t g p s in
    world s' = world s /\ ctxMeta g' = ctxMeta g
    /\ forall e s'', world (tSetError t sp e s'') = world s'' /\ world (tEnd t sp s'') = world s'';
}.

Lemma Chain_answers (mws : list Mw) (next : Handler) :
  Forall (fun mw : Mw => forall next : Handler,
    (forall g, answers (next g)) -> forall g, answers (mw next g)) mws ->
  (forall g, answers (next g)) -> forall g, answers (Chain mws next g).
Proof.
  intros Hm Hn. rewrite Chain_fold. induction Hm as [|mw mws Hmw Hall IH]; [done|]. cbn [fold_right]. by apply Hmw.
Qed.

(** The middleware stack runs once, on the context of the request. *)
Lemma runCommand_runs (svr : Server) (ts args : list string) (r : Router HandleFunc) (s : State) :
  server_ok svr -> Lookup (router svr) ts = Ok (r, args) -> ctxMeta (ctx_ (wctx (world s))) = None ->
  exists g s1 fs,
    wctx (world s1) = setContext g (deadline (wctx (world s))) (wctx (world s)) /\ output s1 = output s
    /\ Chain (middleware svr) (fun _ s => match cHandle (rcommand r) with Some handle => handle s | None => (s, None) end) g s1
       = runCommand svr r s
    /\ output (fst (runCommand svr r s)) = output s ++ concat (map encode fs)
    /\ curID (fst (runCommand svr r s)) = curID s
    /\ Forall (addressed (curSeq s) PacketTypeCommand) fs.
Proof.
  intros Hok Hl Hc.
  assert (exists g s1, runCommand svr r s
      = Chain (middleware svr) (fun _ s => match cHandle (rcommand r) with Some handle => handle s | None => (s, None) end) g s1
    /\ wctx (world s1) = setContext g (deadline (wctx (world s))) (wctx (world s)) /\ output s1 = output s)
    as (g & s1 & -> & Hw & Ho).
  { unfold runCommand. rewrite Hc. cbn [FromContext alloc]. eexists _, _. split; [reflexivity|].
    unfold onCtx, output, mdPut, update, mdSet, tee, deref. cbn [fst snd world objects wctx wconn].
    rewrite ?lookup_insert_eq. cbn [default newMetadata teeWriter]. by rewrite ?lookup_insert_eq. }
  assert (answers (Chain (middleware svr)
      (fun _ s => match cHandle (rcommand r) with Some handle => handle s | None => (s, None) end) g)) as Ha.
  { apply Chain_answers; [apply Hok|]. intros g' s'.
    destruct (cHandle (rcommand r)) as [h|] eqn:Eh; [|cbn [fst]; reflexivity]. by apply (ok_commands svr Hok ts r args). }
  destruct (Ha s1) as (_ & Hid & fs & Hfs & Hall). exists g, s1, fs.
  split; [done|]. split; [done|]. split; [done|]. rewrite <- Ho. split; [exact Hfs|].
  unfold curID, curSeq in *. rewrite Hw in Hid, Hall. by split.
Qed.

Lemma recordMetrics_world (svr : Server) (path : string) (start : Z) (err : option error) (s : State)
    (span : option (Tracer * positive)) :
  server_ok svr ->
  (forall t sp, span = Some (t, sp) -> forall e s, world (tSetError t sp e s) = world s) ->
  world (recordMetrics now svr path start err span s) = world s.
Proof.
  intros Hok Hsp. unfold recordMetrics. destruct (metrics svr) as [m|] eqn:Em; [|done].
  rewrite (proj2 (ok_metrics svr Hok m _ _ _ 0 _ Em)), (proj1 (ok_metrics svr Hok m _ _ _ _ _ Em)).
  destruct err, span as [[t sp]|]; try done. by apply (Hsp t sp).
Qed.

(** A request is answered, on its own number, under the id of the connection. *)
Definition answeredBy (svr : Server) (s : State) (frame : Frame) (res : State * option error) : Prop :=
  exists fs, answered svr s frame fs (snd res) (fst res) /\ curID (fst res) = curID s
    /\ output (fst res) = output s ++ concat (map encode fs) /\ Forall (addressed (FSeq frame) (FType frame)) fs.

Lemma sendReply_answers (svr : Server) (s s1 : State) (frame : Frame) (res : responsePayload) :
  curSeq s1 = FSeq frame -> curID s1 = curID s -> output s1 = output s -> pType res = FType frame ->
  (forall fs stop s', replyFrames (FSeq frame) res fs stop -> answered svr s frame fs stop s') ->
  answeredBy svr s frame (sendReply res s1).
Proof.
  intros Hq Hi Ho Ht Ha. destruct (sendReply_frames res s1) as (fs & Hr & Hout & Hw & Hall).
  rewrite Hq in Hr, Hall. rewrite Ht in Hall. exists fs. split; [by apply Ha|].
  split; [unfold curID in *; by rewrite Hw|]. split; [|done].
  by rewrite Hout, Ho.
Qed.

Lemma commandError_frames (q code : Z) (message : string) (fs : list Frame) (stop : option error) :
  (0 < code)%Z -> replyFrames q (commandError code message) fs stop ->
  fs = [errorFrame q (commandError code message)] /\ stop = None.
Proof. intros Hc Hr. destruct Hr; cbn [commandError pCode] in *; [done|lia..]. Qed.

(** The command of a request that has its arguments runs once. *)
Lemma ranCommand_intro (svr : Server) (ts : list string) (r : Router HandleFunc) (args : list string) (frame : Frame)
    (s s1 s' : State) :
  server_ok svr -> Lookup (router svr) ts = Ok (r, args) -> ctxMeta (ctx_ (wctx (world s1))) = None ->
  curSeq s1 = FSeq frame -> curID s1 = curID s -> output s1 = output s ->
  CliServer.args (wctx (world s1)) = args -> params (wctx (world s1)) = bindParams (rparams r) args ->
  deadline (wctx (world s1)) = (if 0 <? FTimeout frame then Some (FTimeout frame) else None) ->
  world s' = world (fst (runCommand svr r s1)) ->
  exists fs, ranCommand svr frame r args s fs (snd (runCommand svr r s1)) s' /\ curID s' = curID s
    /\ output s' = output s ++ concat (map encode fs) /\ Forall (addressed (FSeq frame) PacketTypeCommand) fs.
Proof.
  intros Hok Hl Hc Hq Hi Ho Hargs Hpar Hd Hw.
  destruct (runCommand_runs svr ts args r s1 Hok Hl Hc) as (g & s2 & fs & Hw2 & Ho2 & Hch & Hout & Hid & Hall).
  rewrite Hq in Hall. unfold curSeq, curID, output in *. exists fs.
  rewrite Hw, Hout, Hid, Ho, Hi. split; [|done].
  exists g, s2, (fst (runCommand svr r s1)). rewrite Hw2. cbn [setContext seq CliServer.args params deadline].
  rewrite Hch. unfold output. rewrite Ho2, Ho, Hout, Ho. repeat (split; [done|]). split; [by destruct (runCommand svr r s1)|]. done.
Qed.

Lemma execute_answers (svr : Server) (frame : Frame) (s : State) :
  server_ok svr -> FType frame = PacketTypeCommand -> 
  answeredBy svr s frame (execute svr frame (onCtx (setSeq (FSeq frame)) s)).
Proof.
  intros Hok Ht. unfold CliServer.execute. set (s1 := onCtx (setContext _ _) _).
  assert (curSeq s1 = FSeq frame /\ curID s1 = curID s /\ output s1 = output s
          /\ ctxMeta (ctx_ (wctx (world s1))) = None
          /\ deadline (wctx (world s1)) = (if 0 <? FTimeout frame then Some (FTimeout frame) else None))
    as (Hq & Hi & Ho & Hc & Hd) by (repeat split; apply Hok).
  clearbody s1. assert (forall code message,
      (0 < code)%Z -> (forall fs s', fs = [errorFrame (FSeq frame) (commandError code message)] -> answered svr s frame fs None s') ->
      answeredBy svr s frame (sendReply (commandError code message) s1)) as Herr.
  { intros code message Hcode Ha. apply sendReply_answers; try done.
    intros fs stop s' [Hfs ->]%commandError_frames; [|done]. by apply Ha. }
  destruct (Lookup (router svr) (Fields (string_of_list_byte (frameData frame)))) as [[r args]|e] eqn:El.
  2: { destruct (Is e CliErrNotFound) eqn:Ee; (apply Herr; [done|]); intros fs s' Hfs;
         [by eapply answered_not_found|by eapply answered_unavailable]. }
  destruct (Nat.ltb_spec (length args) (length (rparams r))) as [Hlt|Hge].
  { apply Herr; [done|]. intros fs s' Hfs. by eapply answered_usage. }
  match goal with |- context [onCtx ?f s1] => set (s2 := onCtx f s1) end.
  assert (params (wctx (world s2)) = bindParams (rparams r) args) as Hpar by (unfold s2, onCtx; cbn; by destruct (rparams r)).
  assert (forall s3 s' stop, wctx (world s3) = setContext (ctx_ (wctx (world s3))) (deadline (wctx (world s2))) (wctx (world s2)) ->
          wconn (world s3) = wconn (world s2) -> ctxMeta (ctx_ (wctx (world s3))) = None ->
          world s' = world (fst (runCommand svr r s3)) -> stop = snd (runCommand svr r s3) ->
          answeredBy svr s frame (s', stop)) as Hrun.
  { intros s3 s' stop Hw3 Hc3 Hm3 Hs' ->.
    assert (curSeq s3 = FSeq frame) as Hq3 by (unfold curSeq; rewrite Hw3; exact Hq).
    assert (curID s3 = curID s) as Hi3 by (unfold curID; rewrite Hw3; exact Hi).
    assert (output s3 = output s) as Ho3 by (unfold output; rewrite Hc3; exact Ho).
    assert (CliServer.args (wctx (world s3)) = args) as Ha3 by by rewrite Hw3.
    assert (params (wctx (world s3)) = bindParams (rparams r) args) as Hp3 by (rewrite Hw3; exact Hpar).
    assert (deadline (wctx (world s3)) = (if 0 <? FTimeout frame then Some (FTimeout frame) else None)) as Hd3
      by (rewrite Hw3; exact Hd).
    destruct (ranCommand_intro svr _ r args frame s s3 s' Hok El Hm3 Hq3 Hi3 Ho3 Ha3 Hp3 Hd3 Hs')
      as (fs & Hf & Hid & Hout & Hall).
    exists fs. split; [by eapply answered_command|]. rewrite Ht. by repeat split. }
  destruct (tracer svr) as [t|] eqn:Et.
  - pose proof (ok_tracer svr Hok t (ctx_ (wctx (world s2))) (cPath (rcommand r)) s2 Et) as Htr.
    destruct (tStart t _ _ s2) as [[g span] s3]. destruct Htr as (Hw & Hg & Hqt).
    set (s4 := onCtx _ s3). destruct (runCommand svr r s4) as [s5 err] eqn:E5.
    apply (Hrun s4); rewrite ?E5; cbn [fst snd]; try done; try (unfold s4, onCtx; cbn; by rewrite ?Hw, ?Hg).
    rewrite (proj2 (Hqt (EPlain EmptyString) _)). apply recordMetrics_world; [done|].
    intros t' sp' [= <- <-] e s''. apply Hqt.
  - destruct (runCommand svr r s2) as [s5 err] eqn:E5.
    apply (Hrun s2); rewrite ?E5; cbn [fst snd]; try done. by apply recordMetrics_world.
Qed.

(** One request: what the server owes it, on its number and of its type. *)
Lemma dispatch_answers (svr : Server) (frame : Frame) (s : State) :
  server_ok svr -> answeredBy svr s frame (dispatch svr frame s).
Proof.
  intros Hok. unfold CliServer.dispatch.
  destruct (Byte.eqb (FType frame) PacketTypeHandshake) eqn:E1.
  { apply Byte.byte_dec_bl in E1. apply sendReply_answers; try done. intros fs stop s' Hr. by apply answered_handshake. }
  destruct (Byte.eqb (FType frame) PacketTypeCompleter) eqn:E2.
  { apply Byte.byte_dec_bl in E2. apply sendReply_answers; try done. intros fs stop s' Hr. by apply answered_completer. }
  destruct (Byte.eqb (FType frame) PacketTypeCommand) eqn:E3; [apply Byte.byte_dec_bl in E3; by apply execute_answers|].
  exists []. cbn [fst snd map concat]. rewrite app_nil_r. split; [|by repeat constructor].
  apply answered_unknown; intros Hx; rewrite Hx in *; discriminate.
Qed.

(** The loop serves what it reads, and ends with the first answer that stops it or the
    frame that cannot be read. *)
Lemma readLoop_serves (n : nat) (svr : Server) (input : bytes) (s : State) :
  server_ok svr -> (length input < n)%nat ->
  curID (fst (readLoop n svr input s)) = curID s
  /\ exists served stop,
     serves svr s (ioLoop n input) served stop
     /\ output (fst (readLoop n svr input s)) = output s ++ concat (map encode (concat (map snd served)))
     /\ Forall (fun '(req, fs) => Forall (addressed (FSeq req) (FType req)) fs) served
     /\ (forall e, stop = Some e -> snd (readLoop n svr input s) = Some e) /\ is_Some (snd (readLoop n svr input s)).
Proof.
  intros Hok. revert input s. induction n as [|n IH]; intros input s Hn; [lia|]. cbn [CliServer.readLoop ioLoop].
  destruct (readFrame input) as [[frame input']|e] eqn:Er.
  2: { split; [done|]. exists [], None. cbn [fst snd map concat]. rewrite app_nil_r.
       repeat (split; [first [done|constructor]|]); done. }
  destruct (dispatch_answers svr frame s Hok) as (fs & Ha & Hid & Ho & Hf). apply readFrame_shorter in Er.
  destruct (dispatch svr frame s) as [s1 [e|]] eqn:Ed; cbn [fst snd] in *.
  - split; [done|]. exists [(frame, fs)], (Some e). split; [by eapply serves_stop|].
    cbn [map snd concat]. rewrite app_nil_r. split; [done|]. split; [by repeat constructor|]. done.
  - destruct (IH input' s1 ltac:(lia)) as (Hid' & served & stop & Hs & Hout & Hall & Hstop).
    split; [congruence|]. exists ((frame, fs) :: served), stop. split; [by eapply serves_next|].
    cbn [map snd concat]. rewrite Hout, Ho, map_app, concat_app, app_assoc. split; [done|]. split; [by constructor|done].
Qed.

Lemma nextSequence_range (svr : Server) :
  (0 <= sequence svr <= MaxInt64)%Z ->
  (1 <= snd (nextSequence svr) <= MaxInt64)%Z
  /\ sequence (fst (nextSequence svr)) = snd (nextSequence svr)
  /\ snd (nextSequence svr) <> sequence svr.
Proof.
  intros Hs. unfold nextSequence. cbn [fst snd sequence].
  destruct (Z.eqb_spec (sequence svr) MaxInt64) as [E|E].
  - rewrite E. vm_compute. split; [split; discriminate|]. split; [done|]. discriminate.
  - unfold int64. rewrite wraps_id; [split; [|split; [done|]]; lia|lia|].
    unfold in_s, MaxInt64 in *. change (2 ^ (64 - 1)) with 9223372036854775808. lia.
Qed.

(** C2. A connection, from accept to close: every request the peer sends is answered
    before the next is looked at, with what [answered] owes it (the greeting, the
    completions, the error frame of an unknown command, of a router that fails or of
    missing arguments, or one run of the command behind the middlewares with its number,
    arguments and deadline; nothing for an unknown type), up to the first answer that
    fails, whose error ends the loop; each reply frame carries the number and the type of
    the request it was written for; and however the loop ends the connection is closed,
    its id was fresh and in range, and the server forgets it. *)
Theorem process_serves (close : bytes -> bytes) (svr : Server) (input : bytes) (pooled : Context)
    (objs : gmap Metadata.loc Metadata.Metadata) (conn : bytes) :
  server_ok svr -> (0 <= sequence svr < MaxInt64)%Z ->
  let '(svr', s, err) := process close svr input pooled objs conn in
  (exists svr1 s0 served stop,
     router svr1 = router svr /\ middleware svr1 = middleware svr
     /\ curID s0 = sequence svr' /\ output s0 = conn
     /\ serves svr1 s0 (ioLoop (S (length input)) input) served stop
     /\ wconn (world s) = close (conn ++ concat (map encode (concat (map snd served))))
     /\ Forall (fun '(req, fs) => Forall (addressed (FSeq req) (FType req)) fs) served
     /\ (forall e, stop = Some e -> err = Some e)
     /\ (stop = None -> map fst served = ioLoop (S (length input)) input))
  /\ is_Some err
  /\ ctxMap svr' = ctxMap svr ∖ {[sequence svr']}
  /\ (sequence svr < sequence svr' <= MaxInt64)%Z.
Proof.
  intros Hok Hs. unfold CliServer.process, nextSequence.
  destruct (Z.eqb_spec (sequence svr) MaxInt64) as [E|_]; [lia|].
  assert (int64 (sequence svr + 1) = sequence svr + 1) as ->.
  { apply wraps_id; [lia|]. unfold in_s, MaxInt64 in *. change (2 ^ (64 - 1)) with 9223372036854775808. lia. }
  set (svr1 := withCtxMap _ _). set (s0 := mkStore objs _).
  assert (server_ok svr1) as Hok1 by (destruct Hok; by constructor).
  destruct (readLoop_serves (S (length input)) svr1 input s0 Hok1 ltac:(lia)) as (Hid & served & stop & Hserves & Hout & Hall & Hstop & Herr).
  destruct (readLoop (S (length input)) svr1 input s0) as [s1 err]. cbn [fst snd] in *.
  split; [|split; [done|split]].
  - exists svr1, s0, served, stop. repeat (split; [done|]). split; [cbn [world wconn]; unfold output in Hout; by rewrite Hout|].
    split; [done|]. split; [done|]. intros Hn. destruct (serves_all _ _ _ _ _ Hserves) as (tl & -> & Htl).
    by rewrite (Htl Hn), app_nil_r.
  - cbn [withCtxMap ctxMap sequence]. unfold curID in Hid. cbn [world wctx] in Hid |- *. rewrite Hid.
    unfold svr1, withCtxMap, s0, reset. cbn [ctxMap sequence wctx world ID]. set_solver.
  - cbn [withCtxMap sequence]. unfold svr1, withCtxMap. cbn [sequence]. lia.
Qed.

End Connection.

(** ** Concrete runs *)

Definition demoNow (_ : bytes) : Z := 1700000000.
Definition demoSerialize : GoValue -> result error string :=
  CliSerialize.serialize (fun _ => EmptyString) (fun _ => EmptyString) (fun _ => EmptyString) (fun _ => EmptyString)
    (fun _ => Ok "{}") String.length (fun l => l).

Lemma demoNow_int64 (w : bytes) : in_s 64 (demoNow w).
Proof. unfold in_s, demoNow. change (2 ^ (64 - 1))%Z with 9223372036854775808%Z. lia. Qed.

Definition hello : responsePayload :=
  mkPayload PacketTypeCommand 0 EmptyString (Some (mkAny (VString "hello") None)).


Lemma empty_reply_never_completes_witness :
  encodeData demoSerialize (Some (mkAny (VString EmptyString) None)) = Ok []
  /\ send wireWrite demoNow demoSerialize 7
       (mkPayload PacketTypeCommand 0 EmptyString (Some (mkAny (VString EmptyString) None))) [] = ([], None)
  /\ clientSees 7 (concat (map encode [])) = (EmptyString, false).
Proof.
  split; [reflexivity|].
  apply (empty_reply_never_completes demoNow demoSerialize 7 (Some (mkAny (VString EmptyString) None)) [] []);
    [reflexivity|constructor|constructor].
Defined.

Definition pong : HandleFunc (Claims := unit) (W := bytes) :=
  Success wireWrite demoNow demoSerialize (Some (mkAny (VString "pong") None)).

Definition demoServer : Server (Claims := unit) (W := bytes) :=
  fst (HandleCommand (mkServer background (newRouter EmptyString) 0 ∅ [] None None) "/ping" EmptyString pong).

Lemma demoServer_router :
  router demoServer
  = mkRouter EmptyString [] [mkRouter "ping" ["ping"] [] (mkCommand "/ping" (Some (fun s => pong s)) "ping") []] noCommand [].
Proof. unfold demoServer. generalize pong. reflexivity. Qed.

Lemma demoServer_ok : server_ok demoServer.
Proof.
  constructor; try discriminate; [reflexivity| |constructor].
  rewrite demoServer_router. intros [|t ts] r args h; [discriminate|].
  cbn [Lookup getChildren findChild rchildren rname]. destruct (String.eqb "ping" t); [|discriminate].
  assert (forall ts' r', Lookup (mkRouter "ping" ["ping"] [] (mkCommand "/ping" (Some (fun s => pong s)) "ping") []) ts' = Ok (r', args) ->
          cHandle (rcommand r') = Some (fun s => pong s)) as Hl.
  { by intros [|? ?] r' [= <- _]. }
  intros Hr Hh. apply Hl in Hr. pose proof (eq_trans (eq_sym Hr) Hh) as Hx.
  injection Hx as <-. intros s.
  destruct (sendReply_frames demoNow demoSerialize demoNow_int64 (mkPayload PacketTypeCommand 0 EmptyString (Some (mkAny (VString "pong") None))) s)
    as (fs & _ & Hout & Hw & Hall).
  split; [unfold curSeq; by rewrite <- Hw|]. split; [unfold curID; by rewrite <- Hw|]. by exists fs.
Qed.

Definition pingFrame : Frame :=
  mkFrame Feature PacketTypeCommand FlagComplete 9 (Some (list_byte_of_string "ping")) EmptyString 0 0.

Notation demoProcess :=
  (process wireWrite (fun _ => "peer") demoNow "linux" demoSerialize (fun _ => VInvalid)
     (fun w => w) demoServer (encode pingFrame) (mkContext 0 0 background None ∅ ∅ []) ∅ []).

Lemma process_serves_witness :
  let '(svr', s, err) := demoProcess in
  (exists svr1 s0 served stop,
     router svr1 = router demoServer /\ middleware svr1 = middleware demoServer
     /\ curID s0 = sequence svr' /\ output s0 = []
     /\ serves (fun _ => "peer") demoNow "linux" demoSerialize (fun _ => VInvalid) svr1 s0
          (ioLoop (S (length (encode pingFrame))) (encode pingFrame)) served stop
     /\ wconn (world s) = [] ++ concat (map encode (concat (map snd served)))
     /\ Forall (fun '(req, fs) => Forall (addressed (FSeq req) (FType req)) fs) served
     /\ (forall e, stop = Some e -> err = Some e)
     /\ (stop = None -> map fst served = ioLoop (S (length (encode pingFrame))) (encode pingFrame)))
  /\ is_Some err
  /\ ctxMap svr' = ctxMap demoServer ∖ {[sequence svr']}
  /\ (sequence demoServer < sequence svr' <= MaxInt64)%Z.
Proof.
  apply (process_serves (fun _ => "peer") demoNow "linux" demoSerialize (fun _ => VInvalid) demoNow_int64 (fun w => w)
           demoServer (encode pingFrame) (mkContext 0 0 background None ∅ ∅ []) ∅ []).
  - exact demoServer_ok.
  - split; [done|]. vm_compute. reflexivity.
Defined.

Example ping_pong :
  let '(_, s, _) := process wireWrite (fun _ => "peer") demoNow "linux" demoSerialize (fun _ => VInvalid)
                      (fun w => w) demoServer (encode pingFrame) (mkContext 0 0 background None ∅ ∅ []) ∅ [] in
  clientSees 9 (wconn (world s)) = ("pong" +:+ newline, true).
Proof. vm_compute. reflexivity. Qed.
