(* ===== verification/CliClient.v ===== *)
(** [transport/cli/client.go]: the client as its two goroutines run it: [ioLoop] that
    reads the connection and the foreground ([Shell] or [Execute]) that waits on the
    bounded channels between them, every interleaving included. *)

From Stdlib Require Import ZArith Lia String Ascii List Bool.
From Stdlib Require Import Strings.Byte.
From stdpp Require Import base tactics list strings relations.
From S2P Require Import Prelude GoStrings Errs CliFrame CliSerialize CliServer.

Local Open Scope string_scope.
Local Open Scope list_scope.
Local Open Scope Z_scope.

(** ** dialContext and the lines of the shell *)

(** Network and address: what stands before and after the first "://". *)
Definition splitAddress (address : string) : string * string :=
  match String.index 0 "://" address with
  | Some pos => (substring 0 pos address, substring (pos + 3) (String.length address - (pos + 3)) address)
  | None => ("tcp", address)
  end.

Inductive Action : Type := Skip | Leave | ClearScreen | Run (line : string).

(** What [Shell] does with a line it has read. *)
Definition shellAction (line : string) : Action :=
  let line := TrimSpace line in
  if String.eqb line EmptyString then Skip
  else let low := ToLower line in
       if String.eqb low "exit" || String.eqb low "quit" then Leave
       else if String.eqb low "clear" || String.eqb low "cls" then ClearScreen
       else Run line.

Section Client.

(** The time a frame is stamped with, [Timeout], and [json.Unmarshal] of a greeting and
    of a completion. *)
Variable stamp : Z.
Variable Timeout : Z.
Variable UnmarshalHandshake : option bytes -> option handshake.
Variable UnmarshalCompletions : option bytes -> list string.

(** ** State *)

Inductive Mode : Type := Shell | Execute.

(** [Close]: the compare-and-swap, the close of [exitChan], the close of the connection. *)
Inductive Closer : Type := CSwap | CChan | CConn.

Record Exit : Type := mkExit { exitFlag : bool; exitChan : nat; connClosed : bool }.

Definition closeNext (c : Closer) (x : Exit) : option Closer * Exit :=
  match c with
  | CSwap => if exitFlag x then (None, x) else (Some CChan, mkExit true (exitChan x) (connClosed x))
  | CChan => (Some CConn, mkExit (exitFlag x) (S (exitChan x)) (connClosed x))
  | CConn => (None, mkExit (exitFlag x) (exitChan x) true)
  end.

(** [exitChan] is closed: a receive from it succeeds. *)
Definition exiting (x : Exit) : bool := (0 <? exitChan x)%nat.

(** Where [ioLoop] stands. *)
Inductive Reader : Type :=
| RRead | RReady | RCommand (f : Frame) | RCompleter (f : Frame) | RClose (c : Closer) | RDone.

(** Where the foreground stands: for [readyChan], at the prompt, with a command to
    write, in [waitResponse] (with what it has taken and printed so far), in
    [completer], in the deferred [Close], returned. *)
Inductive Main : Type :=
| MReady | MPrompt | MSend (line : string) | MWait (q : Z) (taken : list Frame) (shown : string)
| MComplete (q : Z) | MClose (c : Closer) (err : option error) | MDone (err : option error).

(** One [waitResponse]: the request, the frames it took, what it printed, how it ended. *)
Record Wait : Type := mkWait { wSeq : Z; wTaken : list Frame; wShown : string; wEnd : Outcome }.

Inductive Output : Type := OBanner (info : handshake) | OText (s : string) | OTimeout | OBye | OClear.

Record Client : Type := mkClient {
  wire : list Frame;            (* sent by the server, not read yet *)
  ended : bool;                 (* nothing more will come *)
  received : list Frame;        (* what [ioLoop] has read *)
  reader : Reader;
  readyChan : nat;
  commandChan : list Frame;
  completerChan : list Frame;
  exit_ : Exit;
  sequence : Z;
  sent : list Frame;
  main : Main;
  name : string;
  waits : list Wait;
  completions : list (Z * list string);
  output : list Output;
}.

Definition chanCap : nat := 5.

(** ** Steps *)

Definition setWire (w : list Frame) (e : bool) (c : Client) : Client :=
  mkClient w e (received c) (reader c) (readyChan c) (commandChan c) (completerChan c) (exit_ c) (sequence c)
    (sent c) (main c) (name c) (waits c) (completions c) (output c).
Definition setReader (r : Reader) (c : Client) : Client :=
  mkClient (wire c) (ended c) (received c) r (readyChan c) (commandChan c) (completerChan c) (exit_ c) (sequence c)
    (sent c) (main c) (name c) (waits c) (completions c) (output c).
Definition setMain (m : Main) (c : Client) : Client :=
  mkClient (wire c) (ended c) (received c) (reader c) (readyChan c) (commandChan c) (completerChan c) (exit_ c) (sequence c)
    (sent c) m (name c) (waits c) (completions c) (output c).
Definition setChans (ready : nat) (cmds comps : list Frame) (c : Client) : Client :=
  mkClient (wire c) (ended c) (received c) (reader c) ready cmds comps (exit_ c) (sequence c)
    (sent c) (main c) (name c) (waits c) (completions c) (output c).
Definition setExit (x : Exit) (c : Client) : Client :=
  mkClient (wire c) (ended c) (received c) (reader c) (readyChan c) (commandChan c) (completerChan c) x (sequence c)
    (sent c) (main c) (name c) (waits c) (completions c) (output c).
Definition emit (o : list Output) (c : Client) : Client :=
  mkClient (wire c) (ended c) (received c) (reader c) (readyChan c) (commandChan c) (completerChan c) (exit_ c) (sequence c)
    (sent c) (main c) (name c) (waits c) (completions c) (output c ++ o).
Definition endWait (w : Wait) (c : Client) : Client :=
  mkClient (wire c) (ended c) (received c) (reader c) (readyChan c) (commandChan c) (completerChan c) (exit_ c) (sequence c)
    (sent c) (main c) (name c) (waits c ++ [w]) (completions c) (output c).
Definition endComplete (q : Z) (ss : list string) (c : Client) : Client :=
  mkClient (wire c) (ended c) (received c) (reader c) (readyChan c) (commandChan c) (completerChan c) (exit_ c) (sequence c)
    (sent c) (main c) (name c) (waits c) (completions c ++ [(q, ss)]) (output c).

(** The frame read joins [received]; a greeting that decodes is shown and names the
    prompt. *)
Definition takeFrame (f : Frame) (w : list Frame) (c : Client) : Client :=
  let info := if Byte.eqb (FType f) PacketTypeHandshake then UnmarshalHandshake (FData f) else None in
  mkClient w (ended c) (received c ++ [f])
    (if Byte.eqb (FType f) PacketTypeHandshake then RReady
     else if Byte.eqb (FType f) PacketTypeCompleter then RCompleter f
     else if Byte.eqb (FType f) PacketTypeCommand then RCommand f else RRead)
    (readyChan c) (commandChan c) (completerChan c) (exit_ c) (sequence c) (sent c) (main c)
    (match info with Some i => hsName i | None => name c end) (waits c) (completions c)
    (output c ++ match info with Some i => [OBanner i] | None => [] end).

(** A request under the next number; a failed write sends nothing. *)
Definition request (t : byte) (data : option bytes) (ok : bool) (c : Client) : Client :=
  let q := getSequence (sequence c) in
  mkClient (wire c) (ended c) (received c) (reader c) (readyChan c) (commandChan c) (completerChan c) (exit_ c) q
    (sent c ++ if ok then [newFrame stamp t FlagComplete q Timeout data] else []) (main c) (name c) (waits c)
    (completions c) (output c).

(** What [waitResponse] prints of a frame. *)
Definition frameText (res : Frame) : string :=
  if String.eqb (FError res) EmptyString then string_of_list_byte (frameData res) else FError res.

Definition closeReader (k : Closer) (c : Client) : Client :=
  let '(k', x) := closeNext k (exit_ c) in
  setReader (match k' with Some k' => RClose k' | None => RDone end) (setExit x c).

Definition closeMain (k : Closer) (err : option error) (c : Client) : Client :=
  let '(k', x) := closeNext k (exit_ c) in
  setMain (match k' with Some k' => MClose k' err | None => MDone err end) (setExit x c).

(** The foreground after a line was read. *)
Definition onLine (line : string) (c : Client) : Client :=
  if exitFlag (exit_ c) then setMain (MClose CSwap None) (emit [OBye] c)
  else match shellAction line with
       | Skip => setMain MPrompt c
       | Leave => setMain (MClose CSwap None) (emit [OBye] c)
       | ClearScreen => setMain MPrompt (emit [OClear] c)
       | Run line => setMain (MSend line) c
       end.

Definition stringBytes (s : string) : option bytes := Some (list_byte_of_string s).

Section Step.
Variable mode : Mode.

(** [Execute] returns after its only response, [Shell] prompts again. *)
Definition afterWait : Main := match mode with Shell => MPrompt | Execute => MClose CSwap None end.

Definition finishWait (q : Z) (taken : list Frame) (shown : string) (o : Outcome) (c : Client) : Client :=
  setMain afterWait (endWait (mkWait q taken shown o) c).

(** A round of [waitResponse] that received [f]. *)
Definition onResponse (q : Z) (taken : list Frame) (shown : string) (f : Frame) (rest : list Frame) (c : Client) : Client :=
  let c := setChans (readyChan c) rest (completerChan c) c in
  let taken := taken ++ [f] in
  if FSeq f =? q then
    let shown := shown +:+ frameText f in
    if Byte.eqb (FFlag f) FlagComplete
    then finishWait q taken (shown +:+ newline) Completed (emit [OText (frameText f); OText newline] c)
    else setMain (MWait q taken shown) (emit [OText (frameText f)] c)
  else setMain (MWait q taken shown) c.

(** The steps of [ioLoop]. *)
Inductive reader_step : Client -> Client -> Prop :=
| read_frame c f w :
    reader c = RRead -> wire c = f :: w -> connClosed (exit_ c) = false -> reader_step c (takeFrame f w c)
| read_error c :
    reader c = RRead -> wire c = [] /\ ended c = true \/ connClosed (exit_ c) = true ->
    reader_step c (setReader (RClose CSwap) c)
| send_ready c :
    reader c = RReady -> (readyChan c < 1)%nat ->
    reader_step c (setReader RRead (setChans (S (readyChan c)) (commandChan c) (completerChan c) c))
| send_command c f :
    reader c = RCommand f -> (length (commandChan c) < chanCap)%nat ->
    reader_step c (setReader RRead (setChans (readyChan c) (commandChan c ++ [f]) (completerChan c) c))
| send_completer c f :
    reader c = RCompleter f -> (length (completerChan c) < chanCap)%nat ->
    reader_step c (setReader RRead (setChans (readyChan c) (commandChan c) (completerChan c ++ [f]) c))
| send_exit c :
    reader c = RReady \/ (exists f, reader c = RCommand f \/ reader c = RCompleter f) -> exiting (exit_ c) = true ->
    reader_step c (setReader (RClose CSwap) c)
| reader_close c k : reader c = RClose k -> reader_step c (closeReader k c).

(** The steps of the foreground; [prompt_*] are the user's. *)
Inductive main_step : Client -> Client -> Prop :=
| main_ready c n :
    main c = MReady -> readyChan c = S n -> main_step c (setMain MPrompt (setChans n (commandChan c) (completerChan c) c))
| main_cancel c : main c = MReady -> main_step c (setMain (MClose CSwap None) c)
| prompt_error c e : main c = MPrompt -> main_step c (setMain (MClose CSwap (Some e)) c)
| prompt_line c line : main c = MPrompt -> main_step c (onLine line c)
| prompt_tab c s :
    main c = MPrompt -> main_step c (setMain (MComplete (getSequence (sequence c))) (request PacketTypeCompleter (stringBytes s) true c))
| prompt_tab_error c s :
    main c = MPrompt ->
    main_step c (endComplete (getSequence (sequence c)) [] (request PacketTypeCompleter (stringBytes s) false c))
| send_line c line :
    main c = MSend line ->
    main_step c (setMain (MWait (getSequence (sequence c)) [] EmptyString) (request PacketTypeCommand (stringBytes line) true c))
| send_error c line e :
    main c = MSend line -> main_step c (setMain (MClose CSwap (Some e)) (request PacketTypeCommand (stringBytes line) false c))
| wait_response c q taken shown f rest :
    main c = MWait q taken shown -> commandChan c = f :: rest -> main_step c (onResponse q taken shown f rest c)
| wait_timeout c q taken shown :
    main c = MWait q taken shown -> main_step c (finishWait q taken shown TimedOut (emit [OTimeout] c))
| wait_exit c q taken shown :
    main c = MWait q taken shown -> exiting (exit_ c) = true -> main_step c (finishWait q taken shown Exited c)
| complete_frame c q f rest :
    main c = MComplete q -> completerChan c = f :: rest ->
    main_step c (setMain MPrompt (endComplete q (UnmarshalCompletions (FData f)) (setChans (readyChan c) (commandChan c) rest c)))
| complete_timeout c q : main c = MComplete q -> main_step c (setMain MPrompt (endComplete q [] c))
| main_close c k err : main c = MClose k err -> main_step c (closeMain k err c).

(** The server sends a frame; the stream ends. *)
Inductive net_step : Client -> Client -> Prop :=
| net_frame c f : ended c = false -> net_step c (setWire (wire c ++ [f]) false c)
| net_end c : net_step c (setWire (wire c) true c).

Definition step (c c' : Client) : Prop := reader_step c c' \/ main_step c c' \/ net_step c c'.

(** A client that has dialled: [Execute] has its command to write, [Shell] has greeted. *)
Definition dialled (line : string) : Client :=
  let c := mkClient [] false [] RRead 0 [] [] (mkExit false 0 false) 0 [] MReady EmptyString [] [] [] in
  match mode with
  | Execute => setMain (MSend line) c
  | Shell => request PacketTypeHandshake None true c
  end.

Definition reachable (line : string) (c : Client) : Prop := rtc step (dialled line) c.

End Step.

(** ** Lemmas *)

Lemma string_app_assoc (a b c : string) : (a +:+ b) +:+ c = a +:+ (b +:+ c).
Proof. induction a; [done|]. cbn. by f_equal. Qed.

(** [waitResponse] a piece at a time. *)
Lemma waitFrames_app (q : Z) (l k : list Frame) :
  waitFrames q (l ++ k)
  = let '(s, done) := waitFrames q l in
    if done then (s, true) else let '(more, done) := waitFrames q k in (s +:+ more, done).
Proof.
  induction l as [|f l IH]; cbn [app waitFrames]; [by destruct (waitFrames q k)|].
  destruct (FSeq f =? q); [|done]. destruct (Byte.eqb (FFlag f) FlagComplete); [done|]. rewrite IH.
  destruct (waitFrames q l) as [s [|]]; [done|]. destruct (waitFrames q k) as [more d]. by rewrite string_app_assoc.
Qed.

Lemma waitFrames_one (q : Z) (f : Frame) :
  waitFrames q [f]
  = if FSeq f =? q
    then if Byte.eqb (FFlag f) FlagComplete then (frameText f +:+ newline, true) else (frameText f, false)
    else (EmptyString, false).
Proof.
  cbn [waitFrames]. destruct (FSeq f =? q); [|done]. fold (frameText f).
  destruct (Byte.eqb (FFlag f) FlagComplete); [done|]. f_equal. induction (frameText f) as [|a s IH]; [done|].
  cbn. by f_equal.
Qed.

#[local] Arguments CliServer.commandChan : simpl never.

Lemma commandChan_app (l k : list Frame) : CliServer.commandChan (l ++ k) = CliServer.commandChan l ++ CliServer.commandChan k.
Proof. apply List.filter_app. Qed.

(** ** What holds in every interleaving *)

Definition taking (m : Main) : list Frame := match m with MWait _ taken _ => taken | _ => [] end.
Definition pending (r : Reader) : list Frame := match r with RCommand f => [f] | _ => [] end.
Definition completed (o : Outcome) : bool := match o with Completed => true | _ => false end.

Definition wait_ok (w : Wait) : Prop := waitFrames (wSeq w) (wTaken w) = (wShown w, completed (wEnd w)).

(** The command frames read, in order: in a finished wait, in the current one, in the
    channel, in the reader's hand. *)
Definition handled (c : Client) : list Frame :=
  concat (map wTaken (waits c)) ++ taking (main c) ++ commandChan c ++ pending (reader c).
Definition reading (r : Reader) : bool := match r with RClose _ | RDone => false | _ => true end.

(** No frame is lost but the one in the reader's hand at the exit; each wait printed
    what [waitFrames] prints of its frames; the channels are bounded. *)
Record frames_ok (c : Client) : Prop := {
  ok_frames : exists lost, handled c ++ lost = CliServer.commandChan (received c) /\ (reading (reader c) = true -> lost = []);
  ok_waits : Forall wait_ok (waits c);
  ok_current : match main c with MWait q taken shown => waitFrames q taken = (shown, false) | _ => True end;
  ok_caps : (length (commandChan c) <= chanCap)%nat /\ (length (completerChan c) <= chanCap)%nat /\ (readyChan c <= 1)%nat;
}.

(** A goroutine that has won the swap of [Close] and is not through. *)
Definition winner (k : option Closer) : option Closer := match k with Some CSwap => None | _ => k end.
Definition readerWinner (c : Client) : option Closer := winner (match reader c with RClose k => Some k | _ => None end).
Definition mainWinner (c : Client) : option Closer := winner (match main c with MClose k _ => Some k | _ => None end).
Definition toClose (k : option Closer) : nat := match k with Some CChan => 1 | _ => 0 end.

(** [exitChan] is closed once, by the goroutine that won, which then closes the
    connection. *)
Record exit_ok (c : Client) : Prop := {
  ok_once : (toClose (readerWinner c) + toClose (mainWinner c) + exitChan (exit_ c))%nat
            = if exitFlag (exit_ c) then 1%nat else 0%nat;
  ok_conn : exitFlag (exit_ c) = true ->
            connClosed (exit_ c) = true \/ is_Some (readerWinner c) \/ is_Some (mainWinner c);
}.

Lemma exit_ok_same (c c' : Client) :
  exit_ c' = exit_ c -> readerWinner c' = readerWinner c -> mainWinner c' = mainWinner c -> exit_ok c -> exit_ok c'.
Proof. intros He Hr Hm [H1 H2]. split; by rewrite He, Hr, Hm. Qed.

Lemma exit_ok_main (c c' : Client) :
  exit_ c' = exit_ c -> reader c' = reader c -> mainWinner c = None -> mainWinner c' = None -> exit_ok c -> exit_ok c'.
Proof. intros He Hr Hm Hm'. apply exit_ok_same; [done| |congruence]. unfold readerWinner. by rewrite Hr. Qed.

(** A step of [Close] of either goroutine: [k] is where the goroutine stands, [o]
    where the other does. *)
Lemma closeNext_ok (k : Closer) (o : option Closer) (x : Exit) :
  (toClose (winner (Some k)) + toClose o + exitChan x)%nat = (if exitFlag x then 1 else 0)%nat ->
  (exitFlag x = true -> connClosed x = true \/ is_Some (winner (Some k)) \/ is_Some o) ->
  let '(k', x') := closeNext k x in
  (toClose (winner k') + toClose o + exitChan x')%nat = (if exitFlag x' then 1 else 0)%nat
  /\ (exitFlag x' = true -> connClosed x' = true \/ is_Some (winner k') \/ is_Some o).
Proof.
  intros H1 H2. destruct k; cbn in *; [destruct (exitFlag x) eqn:Ef| |]; cbn; rewrite ?Ef; split; eauto; try lia.
Qed.

Lemma closeReader_exit (k : Closer) (c : Client) : reader c = RClose k -> exit_ok c -> exit_ok (closeReader k c).
Proof.
  intros Hr [H1 H2]. pose proof (closeNext_ok k (mainWinner c) (exit_ c)) as Hn. unfold readerWinner in *. rewrite Hr in *.
  specialize (Hn H1 H2). unfold closeReader. destruct (closeNext k (exit_ c)) as [[k'|] x]; by destruct Hn.
Qed.

Lemma closeMain_exit (k : Closer) (err : option error) (c : Client) : main c = MClose k err -> exit_ok c -> exit_ok (closeMain k err c).
Proof.
  intros Hr [H1 H2]. pose proof (closeNext_ok k (readerWinner c) (exit_ c)) as Hn. unfold mainWinner in *. rewrite Hr in *.
  assert (let '(k', x') := closeNext k (exit_ c) in
          (toClose (winner k') + toClose (readerWinner c) + exitChan x')%nat = (if exitFlag x' then 1 else 0)%nat
          /\ (exitFlag x' = true -> connClosed x' = true \/ is_Some (winner k') \/ is_Some (readerWinner c))) as Hk.
  { apply Hn; [lia|]. intros Hf. destruct (H2 Hf) as [?|[?|?]]; auto. }
  unfold closeMain. destruct (closeNext k (exit_ c)) as [[k'|] x]; destruct Hk as [H3 H4];
    split; unfold mainWinner, readerWinner in *; cbn -[winner toClose] in *; [lia| |lia|];
    (intros Hf; destruct (H4 Hf) as [?|[?|?]]; auto).
Qed.

Lemma reader_step_exit (c c' : Client) : reader_step c c' -> exit_ok c -> exit_ok c'.
Proof.
  intros Hs. destruct Hs as [c f w Hr Hw Hn|c Hr He|c Hr Hl|c f Hr Hl|c f Hr Hl|c Hr He|c k Hr];
    [..|by apply closeReader_exit]; apply exit_ok_same; try done; unfold readerWinner; cbn.
  - rewrite Hr. by repeat case_match.
  - by rewrite Hr.
  - by rewrite Hr.
  - by rewrite Hr.
  - by rewrite Hr.
  - by destruct Hr as [->|(f & [-> | ->])].
Qed.

Lemma main_step_exit (mode : Mode) (c c' : Client) : main_step mode c c' -> exit_ok c -> exit_ok c'.
Proof.
  intros Hs. destruct Hs as [c n Hm|c Hm|c e Hm|c line Hm|c s Hm|c s Hm|c line Hm|c line e Hm|c q taken shown f rest Hm|
                             c q taken shown Hm|c q taken shown Hm|c q f rest Hm|c q Hm|c k err Hm];
    [..|by apply closeMain_exit];
    (apply exit_ok_main; [| |unfold mainWinner; by rewrite Hm|]); unfold onLine, onResponse, finishWait, afterWait;
    repeat case_goal; try done. unfold mainWinner. cbn. by rewrite Hm.
Qed.

Lemma commandChan_one (f : Frame) :
  CliServer.commandChan [f] = if Byte.eqb (FType f) PacketTypeCommand then [f] else [].
Proof. done. Qed.

(** Equality of appended lists up to association. *)
Ltac apps := rewrite ?app_nil_r; repeat (rewrite <- !app_assoc; cbn [app]); rewrite ?app_nil_r; done.

Lemma reader_step_frames (c c' : Client) : reader_step c c' -> frames_ok c -> frames_ok c'.
Proof.
  intros Hs [(lost & H1 & Hl0) H2 H3 H4]. unfold handled in H1.
  destruct Hs as [c f w Hr Hw Hn|c Hr He|c Hr Hl|c f Hr Hl|c f Hr Hl|c Hr He|c k Hr].
  - rewrite Hr in *. specialize (Hl0 eq_refl) as ->. cbn in H1. rewrite !app_nil_r in H1.
    split; cbn in *; auto.
    exists []. split; [|done]. unfold handled. cbn.
    rewrite commandChan_app, <- H1, commandChan_one, app_nil_r, <- !app_assoc. do 3 f_equal.
    destruct (Byte.eqb (FType f) PacketTypeHandshake) eqn:E1; [apply Byte.byte_dec_bl in E1; by rewrite E1|].
    destruct (Byte.eqb (FType f) PacketTypeCompleter) eqn:E2; [apply Byte.byte_dec_bl in E2; by rewrite E2|].
    by destruct (Byte.eqb (FType f) PacketTypeCommand).
  - rewrite Hr in *. split; cbn in *; auto. by exists lost.
  - rewrite Hr in *. split; cbn in *; auto; [by exists lost|lia].
  - rewrite Hr in *. split; cbn in *; auto; [|rewrite length_app; cbn [length]; lia].
    exists lost. split; [|auto]. unfold handled. cbn. by rewrite app_nil_r.
  - rewrite Hr in *. split; cbn in *; auto; [by exists lost|]. rewrite length_app. cbn [length]. lia.
  - split; cbn in *; auto. exists (pending (reader c) ++ lost). split; [|done]. unfold handled. cbn.
    by rewrite app_nil_r, <- H1, <- !app_assoc.
  - rewrite Hr in *. unfold closeReader. destruct (closeNext k (exit_ c)) as [[k'|] x]; split; cbn in *; auto; by exists lost.
Qed.

(** The foreground that ends a wait or goes on with it. *)
Lemma onResponse_frames (mode : Mode) (c : Client) (q : Z) (taken : list Frame) (shown : string) (f : Frame) (rest : list Frame) :
  main c = MWait q taken shown -> commandChan c = f :: rest -> frames_ok c -> frames_ok (onResponse mode q taken shown f rest c).
Proof.
  intros Hm Hc [(lost & H1 & Hl0) H2 H3 H4]. unfold handled in H1. rewrite Hm, Hc in *. cbn [taking] in H1.
  assert (length rest <= chanCap)%nat as Hr by (cbn in H4; lia).
  pose proof (waitFrames_app q taken [f]) as Ha. rewrite H3, waitFrames_one in Ha. unfold onResponse.
  destruct (FSeq f =? q) eqn:Eq; [destruct (Byte.eqb (FFlag f) FlagComplete) eqn:Ef|].
  - unfold finishWait, afterWait. rewrite <- string_app_assoc in Ha. split; cbn.
    + exists lost. split; [|done]. unfold handled. cbn. rewrite <- H1, map_app, concat_app. cbn.
      assert (taking (match mode with Shell => MPrompt | Execute => MClose CSwap None end) = []) as -> by (by destruct mode).
      apps.
    + apply Forall_app. split; [done|]. by constructor.
    + by destruct mode.
    + cbn in H4. tauto.
  - split; cbn; auto; [|cbn in H4; tauto]. exists lost. split; [|done]. unfold handled. cbn. rewrite <- H1. apps.
  - assert (forall s, s +:+ EmptyString = s) as He by (induction s as [|a s IH]; cbn; [done|by f_equal]).
    rewrite He in Ha. split; cbn; auto; [|cbn in H4; tauto]. exists lost. split; [|done]. unfold handled. cbn.
    rewrite <- H1. apps.
Qed.

Lemma finishWait_frames (mode : Mode) (c : Client) (q : Z) (taken : list Frame) (shown : string) (o : Outcome) :
  main c = MWait q taken shown -> completed o = false -> frames_ok c -> frames_ok (finishWait mode q taken shown o c).
Proof.
  intros Hm Ho [(lost & H1 & Hl0) H2 H3 H4]. unfold handled in H1. rewrite Hm in *. cbn [taking] in H1.
  unfold finishWait, afterWait. split; cbn; auto.
  - exists lost. split; [|done]. unfold handled. cbn. rewrite <- H1, map_app, concat_app. cbn.
    assert (taking (match mode with Shell => MPrompt | Execute => MClose CSwap None end) = []) as -> by (by destruct mode).
    apps.
  - apply Forall_app. split; [done|]. constructor; [|done]. unfold wait_ok. cbn. by rewrite Ho.
  - by destruct mode.
Qed.

(** A step that touches no command frame and is in no wait. *)
Lemma frames_ok_same (c c' : Client) :
  frames_ok c -> taking (main c) = [] ->
  waits c' = waits c -> commandChan c' = commandChan c -> reader c' = reader c -> received c' = received c ->
  (length (completerChan c') <= chanCap)%nat -> (readyChan c' <= 1)%nat ->
  (match main c' with MWait _ taken shown => taken = [] /\ shown = EmptyString | _ => True end) -> frames_ok c'.
Proof.
  intros [H1 H2 H3 H4] Ht Hw Hc Hr Hv Hl Hy Hm. unfold handled in *. rewrite Ht in H1.
  split; [unfold handled| | |]; rewrite ?Hw, ?Hc, ?Hr, ?Hv; auto.
  - destruct (main c'); auto. by destruct Hm as [-> _].
  - destruct (main c'); auto. by destruct Hm as [-> ->].
  - tauto.
Qed.

Lemma main_step_frames (mode : Mode) (c c' : Client) : main_step mode c c' -> frames_ok c -> frames_ok c'.
Proof.
  intros Hs Hok. pose proof (ok_caps _ Hok) as (Hc1 & Hc2 & Hc3).
  destruct Hs as [c n Hm Hn|c Hm|c e Hm|c line Hm|c s Hm|c s Hm|c line Hm|c line e Hm|c q taken shown f rest Hm|
                  c q taken shown Hm|c q taken shown Hm|c q f rest Hm Hf|c q Hm|c k err Hm];
    try (by apply onResponse_frames); try (by apply finishWait_frames);
    try (apply (frames_ok_same c); [done|by rewrite Hm|cbn; rewrite ?Hm; cbn; solve [auto]..]).
  - apply (frames_ok_same c); [done|by rewrite Hm|cbn; auto..]. lia.
  - unfold onLine. destruct (exitFlag (exit_ c)); [|destruct (shellAction line)];
      (apply (frames_ok_same c); [done|by rewrite Hm|cbn; auto..]).
  - apply (finishWait_frames mode (emit [OTimeout] c)); [done|done|]. destruct Hok. by split.
  - rewrite Hf in Hc2. apply (frames_ok_same c); [done|by rewrite Hm|cbn in *; auto..]. lia.
  - apply (frames_ok_same c); [done|by rewrite Hm|unfold closeMain; destruct (closeNext k (exit_ c)) as [[k'|] x]; cbn; by auto..].
Qed.

(** Whoever has returned has passed the swap. *)
Definition done_ok (c : Client) : Prop :=
  match main c with
  | MDone _ | MClose CChan _ | MClose CConn _ => exitFlag (exit_ c) = true
  | _ => True
  end.

Lemma step_done (mode : Mode) (c c' : Client) : step mode c c' -> done_ok c -> done_ok c'.
Proof.
  unfold done_ok. intros [Hs|[Hs|Hs]] Hd.
  - destruct Hs; try done. unfold closeReader, closeNext. destruct k; cbn in *; try done.
    destruct (exitFlag (exit_ c)) eqn:Ef; cbn; rewrite ?Ef; repeat case_match; done.
  - destruct Hs as [c n Hm Hn|c Hm|c e Hm|c line Hm|c s Hm|c s Hm|c line Hm|c line e Hm|c q taken shown f rest Hm|
                    c q taken shown Hm|c q taken shown Hm|c q f rest Hm Hf|c q Hm|c k err Hm]; cbn; try done.
    + unfold onLine. destruct (exitFlag (exit_ c)); [done|]. by destruct (shellAction line).
    + unfold onResponse, finishWait, afterWait. destruct (FSeq f =? q); [|done]. destruct (Byte.eqb _ _); [|done]. by destruct mode.
    + unfold afterWait. by destruct mode.
    + unfold afterWait. by destruct mode.
    + rewrite Hm in Hd. unfold closeMain, closeNext. destruct k; cbn; try done. by destruct (exitFlag (exit_ c)) eqn:Ef; cbn.
  - by destruct Hs.
Qed.

Lemma reachable_done (mode : Mode) (line : string) (c : Client) : reachable mode line c -> done_ok c.
Proof.
  intros Hr. assert (done_ok (dialled mode line)) as H0 by (by destruct mode). revert H0.
  induction Hr as [|c0 c1 c2 Hs _ IH]; [done|]. intros H0. apply IH. by eapply step_done.
Qed.

Lemma client_reachable_ok (mode : Mode) (line : string) (c : Client) : reachable mode line c -> frames_ok c /\ exit_ok c.
Proof.
  intros Hr. unfold reachable in Hr. remember (dialled mode line) as c0 eqn:E0.
  assert (frames_ok c0 /\ exit_ok c0) as H0.
  { subst c0. split; destruct mode; split; cbn; auto; try (unfold chanCap; lia); by exists []. }
  clear E0. induction Hr as [|c0 c1 c2 Hs _ IH]; [done|]. apply IH. destruct H0 as [Hf He].
  destruct Hs as [Hs|[Hs|Hs]].
  - split; [by eapply reader_step_frames|by eapply reader_step_exit].
  - split; [by eapply main_step_frames|by eapply main_step_exit].
  - destruct Hs; destruct Hf, He; by split.
Qed.

(** ** Theorems *)

(** In every interleaving of the reader, the foreground, the server and the timers: the
    waits of the client took the command frames in the order in which they were read,
    each frame in at most one wait; each wait printed exactly what [waitFrames]
    prints of the frames it took, and completed exactly when that does; the channels
    keep their bounds, and [exitChan] is never closed twice. *)
Theorem client_interleavings (mode : Mode) (line : string) (c : Client) :
  reachable mode line c ->
  (exists later, CliServer.commandChan (received c) = concat (map wTaken (waits c)) ++ later)
  /\ Forall wait_ok (waits c)
  /\ (length (commandChan c) <= chanCap)%nat /\ (length (completerChan c) <= chanCap)%nat
  /\ (exitChan (exit_ c) <= 1)%nat.
Proof.
  intros [[(lost & <- & _) H2 _ (H3 & H4 & _)] [H5 _]]%client_reachable_ok. split; [|split; [done|]].
  - eexists. unfold handled. by rewrite <- app_assoc.
  - split; [done|]. split; [done|]. destruct (exitFlag (exit_ c)); lia.
Qed.

(** A wait that no earlier wait robbed of frames with its number shows a beginning of
    what the whole connection holds for it, and all of it when it completes. *)
Lemma wait_shows (mode : Mode) (line : string) (c : Client) (before after : list Wait) (w : Wait) (text : string) :
  reachable mode line c -> waits c = before ++ w :: after ->
  Forall (fun f => FSeq f <> wSeq w) (concat (map wTaken before)) ->
  waitFrames (wSeq w) (CliServer.commandChan (received c ++ wire c)) = (text, true) ->
  (exists more, text = wShown w +:+ more) /\ (wEnd w = Completed -> wShown w = text).
Proof.
  intros [[(lost & H1 & _) H2 _ _] _]%client_reachable_ok Hw Hb Ht. rewrite Hw, Forall_app, Forall_cons in H2.
  destruct H2 as (_ & Hok & _). unfold wait_ok in Hok.
  assert (exists rest, CliServer.commandChan (received c ++ wire c) = concat (map wTaken before) ++ wTaken w ++ rest) as [rest Hr].
  { rewrite commandChan_app, <- H1. unfold handled. rewrite Hw, map_app, concat_app. cbn. rewrite <- !app_assoc. by eexists. }
  rewrite Hr, waitFrames_app in Ht.
  assert (waitFrames (wSeq w) (concat (map wTaken before)) = (EmptyString, false)) as Hn.
  { clear -Hb. induction Hb as [|f l Hf _ IH]; [done|]. cbn [waitFrames]. by destruct (Z.eqb_spec (FSeq f) (wSeq w)). }
  rewrite Hn, waitFrames_app, Hok in Ht. destruct (completed (wEnd w)) eqn:Ec.
  - injection Ht as <-. split; [exists EmptyString; clear; by induction (wShown w) as [|a s IH]; [|cbn; f_equal]|done].
  - destruct (waitFrames (wSeq w) rest) as [more d]. injection Ht as <- _. split; [by exists more|]. by destruct (wEnd w).
Qed.

(** What [send] replies is what the user sees: on a connection that carries, among
    frames that are not replies to it and before anything else, the reply of a command
    under the number of a request, however reader, timers and foreground interleave, the
    wait for that request prints a beginning of the reply's text and, when it completes,
    that text and a newline, whole. *)
Theorem reply_is_shown (mode : Mode) (line : string) (c : Client) (before after : list Wait) (w : Wait)
    (wireBytes : bytes) (text : string) :
  reachable mode line c -> waits c = before ++ w :: after ->
  Forall (fun f => FSeq f <> wSeq w) (concat (map wTaken before)) ->
  received c ++ wire c = ioLoop (S (length wireBytes)) wireBytes ->
  clientSees (wSeq w) wireBytes = (text +:+ newline, true) ->
  (exists more, text +:+ newline = wShown w +:+ more) /\ (wEnd w = Completed -> wShown w = text +:+ newline).
Proof.
  intros Hc Hw Hb Hr Ht. apply (wait_shows mode line c before after); try done. by rewrite Hr.
Qed.

(** The reader does not outlive the foreground: once [Shell] or [Execute] has returned,
    or whoever closed is through, [ioLoop] can run to its end alone, whatever the
    channels hold. *)
Theorem reader_ends (mode : Mode) (line : string) (c : Client) (err : option error) :
  reachable mode line c -> main c = MDone err -> exists c', rtc reader_step c c' /\ reader c' = RDone.
Proof.
  intros Hr Hm. pose proof (proj2 (client_reachable_ok _ _ _ Hr)) as [H1 H2].
  pose proof (reachable_done _ _ _ Hr) as Hf. unfold done_ok in Hf. rewrite Hm in Hf. clear Hr.
  unfold mainWinner in H1, H2. rewrite Hm in H1, H2. cbn [winner toClose] in H1, H2.
  assert (forall c k, reader c = RClose k -> (k = CSwap -> exitFlag (exit_ c) = true) ->
          exists c', rtc reader_step c c' /\ reader c' = RDone) as Hclose.
  { clear. intros c k Hk Hf.
    assert (reader_step c (closeReader k c)) as H1 by by apply reader_close.
    destruct k.
    - exists (closeReader CSwap c). split; [by apply rtc_once|]. unfold closeReader, closeNext. by rewrite Hf.
    - exists (closeReader CConn (closeReader CChan c)). split; [|done]. eapply rtc_l; [exact H1|]. by apply rtc_once, reader_close.
    - exists (closeReader CConn c). split; [by apply rtc_once|done]. }
  assert (exists c1, rtc reader_step c c1 /\ exitFlag (exit_ c1) = true
          /\ ((exists k, reader c1 = RClose k) \/ reader c1 = RDone)) as (c1 & Hs1 & Hf1 & Hc1).
  { destruct (reader c) as [| |f|f|k|] eqn:Er; [| | | |exists c; eauto using rtc_refl|exists c; eauto using rtc_refl].
    1: { exists (setReader (RClose CSwap) c). split; [|cbn; eauto]. apply rtc_once, read_error; [done|]. right.
         destruct (H2 Hf) as [?|[Hx|Hx]]; [done| |by destruct Hx].
         unfold readerWinner in Hx. rewrite Er in Hx. by destruct Hx. }
    all: exists (setReader (RClose CSwap) c); split; [|cbn; eauto]; apply rtc_once, send_exit; [eauto|].
    all: unfold readerWinner, exiting in *; rewrite Er, Hf in H1; cbn in H1; by rewrite H1. }
  destruct Hc1 as [[k Hk]|Hd]; [|by exists c1].
  destruct (Hclose c1 k Hk) as (c2 & Hs2 & Hd); [done|]. exists c2. split; [by etrans|done].
Qed.

(** ** Runs *)

(** Who moves next. *)
Inductive Move : Type :=
| Reads | ReadFails | HandsOver | ReaderExits | ReaderCloses
| Readies | Types (line : string) | Tabs (s : string) | Sends | Takes | TimesOut | SeesExit | MainCloses
| Serves (f : Frame) | Ends.

Definition move (mode : Mode) (a : Move) (c : Client) : option Client :=
  match a, reader c, main c with
  | Reads, RRead, _ =>
      match wire c with f :: w => if connClosed (exit_ c) then None else Some (takeFrame f w c) | [] => None end
  | ReadFails, RRead, _ =>
      if connClosed (exit_ c) || (ended c && match wire c with [] => true | _ => false end)
      then Some (setReader (RClose CSwap) c) else None
  | HandsOver, RReady, _ =>
      if (readyChan c <? 1)%nat
      then Some (setReader RRead (setChans (S (readyChan c)) (commandChan c) (completerChan c) c)) else None
  | HandsOver, RCommand f, _ =>
      if (length (commandChan c) <? chanCap)%nat
      then Some (setReader RRead (setChans (readyChan c) (commandChan c ++ [f]) (completerChan c) c)) else None
  | HandsOver, RCompleter f, _ =>
      if (length (completerChan c) <? chanCap)%nat
      then Some (setReader RRead (setChans (readyChan c) (commandChan c) (completerChan c ++ [f]) c)) else None
  | ReaderExits, (RReady | RCommand _ | RCompleter _), _ =>
      if exiting (exit_ c) then Some (setReader (RClose CSwap) c) else None
  | ReaderCloses, RClose k, _ => Some (closeReader k c)
  | Readies, _, MReady =>
      match readyChan c with S n => Some (setMain MPrompt (setChans n (commandChan c) (completerChan c) c)) | O => None end
  | Types line, _, MPrompt => Some (onLine line c)
  | Tabs s, _, MPrompt => Some (setMain (MComplete (getSequence (sequence c))) (request PacketTypeCompleter (stringBytes s) true c))
  | Sends, _, MSend line =>
      Some (setMain (MWait (getSequence (sequence c)) [] EmptyString) (request PacketTypeCommand (stringBytes line) true c))
  | Takes, _, MWait q taken shown =>
      match commandChan c with f :: rest => Some (onResponse mode q taken shown f rest c) | [] => None end
  | Takes, _, MComplete q =>
      match completerChan c with
      | f :: rest => Some (setMain MPrompt (endComplete q (UnmarshalCompletions (FData f)) (setChans (readyChan c) (commandChan c) rest c)))
      | [] => None
      end
  | TimesOut, _, MWait q taken shown => Some (finishWait mode q taken shown TimedOut (emit [OTimeout] c))
  | TimesOut, _, MComplete q => Some (setMain MPrompt (endComplete q [] c))
  | SeesExit, _, MWait q taken shown => if exiting (exit_ c) then Some (finishWait mode q taken shown Exited c) else None
  | MainCloses, _, MClose k err => Some (closeMain k err c)
  | Serves f, _, _ => if ended c then None else Some (setWire (wire c ++ [f]) false c)
  | Ends, _, _ => Some (setWire (wire c) true c)
  | _, _, _ => None
  end.

Fixpoint moves (mode : Mode) (l : list Move) (c : Client) : option Client :=
  match l with
  | [] => Some c
  | a :: l => match move mode a c with Some c => moves mode l c | None => None end
  end.

Lemma move_step (mode : Mode) (a : Move) (c c' : Client) : move mode a c = Some c' -> step mode c c'.
Proof.
  intros Ha. unfold step. destruct a; cbn -[exiting] in Ha.
  1-5: left. 6-13: right; left. 14-15: right; right.
  all: repeat (case_hyp Ha; try discriminate); injection Ha as <-; try (by econstructor; eauto).
  - apply read_error; [done|]. destruct (connClosed (exit_ c)); [by right|left]. by destruct (ended c).
  - apply read_error; [done|]. destruct (connClosed (exit_ c)); [by right|]. by destruct (ended c).
  - apply send_ready; [done|]. by apply Nat.ltb_lt.
  - apply send_command; [done|]. by apply Nat.ltb_lt.
  - apply send_completer; [done|]. by apply Nat.ltb_lt.
Qed.

Lemma moves_reachable (mode : Mode) (line : string) (l : list Move) (c : Client) :
  moves mode l (dialled mode line) = Some c -> reachable mode line c.
Proof.
  unfold reachable. generalize (dialled mode line) as c0. induction l as [|a l IH]; cbn; intros c0; [by intros [= ->]|].
  destruct (move mode a c0) as [c1|] eqn:Ea; [|done]. intros Hl. eapply rtc_l; [by eapply move_step|]. by apply IH.
Qed.

End Client.

(** ** Concrete runs *)

Notation demo := (moves 1700000000 30 (fun _ => None) (fun d => match d with Some b => [string_of_list_byte b] | None => [] end)).
Notation demoReachable := (reachable 1700000000 30 (fun _ => None) (fun d => match d with Some b => [string_of_list_byte b] | None => [] end)).

Definition response (q : Z) (flag : byte) (s : string) : Frame :=
  mkFrame Feature PacketTypeCommand flag q (Some (list_byte_of_string s)) EmptyString 0 0.
Definition completion (q : Z) (s : string) : Frame :=
  mkFrame Feature PacketTypeCompleter FlagComplete q (Some (list_byte_of_string s)) EmptyString 0 0.

(** The reply of [hello] under the number of the first request. *)
Definition helloBytes : bytes := encode (response 1 FlagComplete "hello").

Definition helloMoves : list Move :=
  [Serves (response 1 FlagComplete "hello"); Sends; Reads; HandsOver; Takes].

Definition helloClient : Client := default (dialled 0 0 Execute "hi") (demo Execute helloMoves (dialled 1700000000 30 Execute "hi")).

Lemma reply_is_shown_witness :
  wShown (mkWait 1 [response 1 FlagComplete "hello"] ("hello" +:+ newline) Completed) = "hello" +:+ newline.
Proof.
  apply (reply_is_shown 1700000000 30 (fun _ => None)
           (fun d => match d with Some b => [string_of_list_byte b] | None => [] end)
           Execute "hi" helloClient [] [] (mkWait 1 [response 1 FlagComplete "hello"] ("hello" +:+ newline) Completed)
           helloBytes "hello").
  - apply (moves_reachable _ _ _ _ Execute "hi" helloMoves). vm_compute. reflexivity.
  - vm_compute. reflexivity.
  - constructor.
  - vm_compute. reflexivity.
  - vm_compute. reflexivity.
  - reflexivity.
Defined.

(** A reply that has arrived is lost when the server hangs up behind it: the reader
    closes the client while the reply is in the channel, and the wait may see the exit
    first. *)
Example reply_lost_at_hangup :
  exists c, demo Execute
    [Sends; Serves (response 1 FlagComplete "hello"); Ends; Reads; HandsOver; ReadFails; ReaderCloses; ReaderCloses; SeesExit]
    (dialled 1700000000 30 Execute "hi") = Some c
  /\ commandChan c = [response 1 FlagComplete "hello"] /\ waits c = [mkWait 1 [] EmptyString Exited]
  /\ main c = MClose CSwap None.
Proof. eexists. split; [vm_compute; reflexivity|]. repeat split; vm_compute; reflexivity. Qed.

Definition prompted : list Move :=
  [Serves (mkFrame Feature PacketTypeHandshake FlagComplete 1 None EmptyString 0 0); Reads; HandsOver; Readies].

(** A completion that comes late is taken for the answer to the next one. *)
Example stale_completion :
  exists c, demo Shell
    (prompted ++ [Tabs "a"; TimesOut; Serves (completion 2 "ab"); Reads; HandsOver; Tabs "x"; Takes])
    (dialled 1700000000 30 Shell "") = Some c
  /\ completions c = [(2, []); (3, ["ab"])].
Proof. eexists. split; vm_compute; reflexivity. Qed.

(** Late replies of a command that timed out fill the channel, and the reader, which
    holds the sixth, does not reach the completion behind it. *)
Example completion_starved :
  exists c, demo Shell
    (prompted ++ [Types "slow"; Sends; TimesOut; Tabs "a"]
     ++ concat (replicate 5 [Serves (response 2 FlagPortion "x"); Reads; HandsOver])
     ++ [Serves (response 2 FlagPortion "x"); Reads; Serves (completion 3 "ab")])
    (dialled 1700000000 30 Shell "") = Some c
  /\ main c = MComplete 3 /\ wire c = [completion 3 "ab"]
  /\ (forall c', ~ reader_step (fun _ => None) c c').
Proof.
  eexists. split; [vm_compute; reflexivity|]. split; [reflexivity|]. split; [vm_compute; reflexivity|].
  intros c' Hs. inversion Hs; subst; cbn in *; try discriminate; try (unfold chanCap in *; lia).
Qed.
