(* ===== verification/NetAddr.v ===== *)
(** [pkg/netutil/addr.go], [ip.go]: the address a server tells others, over the
    standard library's splitting and joining of hosts and ports. *)

From Stdlib Require Import ZArith Lia String Ascii List Bool.
From stdpp Require Import base tactics list strings pretty.
From S2P Require Import Prelude GoStrings Errs.

Local Open Scope string_scope.
Local Open Scope list_scope.

(** ** net.SplitHostPort and net.JoinHostPort *)

Definition colon : ascii := ":"%char.
Definition lbracket : ascii := "["%char.
Definition rbracket : ascii := "]"%char.

Definition addrError (why : string) : result error (string * string) := Err (EPlain why).

(** The text before the last colon, [host], with the brackets of an IPv6 literal. *)
Definition splitHost (host port : string) : result error (string * string) :=
  match host with
  | String a inner =>
      if Ascii.eqb a lbracket then
        match cutByte inner rbracket with
        | None => addrError (if byte_free rbracket port then "missing ']' in address" else "missing port in address")
        | Some (h, EmptyString) =>
            if negb (byte_free lbracket h && byte_free lbracket port) then addrError "unexpected '[' in address"
            else if negb (byte_free rbracket port) then addrError "unexpected ']' in address" else Ok (h, port)
        | Some (_, String b _) => addrError (if Ascii.eqb b colon then "too many colons in address" else "missing port in address")
        end
      else if negb (byte_free colon host) then addrError "too many colons in address"
      else if negb (byte_free lbracket host && byte_free lbracket port) then addrError "unexpected '[' in address"
      else if negb (byte_free rbracket host && byte_free rbracket port) then addrError "unexpected ']' in address"
      else Ok (host, port)
  | EmptyString =>
      if negb (byte_free lbracket port) then addrError "unexpected '[' in address"
      else if negb (byte_free rbracket port) then addrError "unexpected ']' in address" else Ok (EmptyString, port)
  end.

Definition SplitHostPort (hostport : string) : result error (string * string) :=
  match cutLastByte hostport colon with
  | None => addrError "missing port in address"
  | Some (host, port) => splitHost host port
  end.

Definition JoinHostPort (host port : string) : string :=
  if byte_free colon host then host +:+ ":" +:+ port else "[" +:+ host +:+ "]:" +:+ port.

(** ** ip.go *)

(** An address as its bytes, four or sixteen. *)
Definition IP : Type := list N.

Definition v4InV6Prefix : list N := [0; 0; 0; 0; 0; 0; 0; 0; 0; 0; 255; 255]%N.

Definition To4 (ip : IP) : option IP :=
  match length ip with
  | 4%nat => Some ip
  | 16%nat => if decide (take 12 ip = v4InV6Prefix) then Some (drop 12 ip) else None
  | _ => None
  end.

Definition IsLoopback (ip : IP) : bool :=
  match To4 ip with
  | Some ip4 => match ip4 with b :: _ => (b =? 127)%N | [] => false end
  | None => bool_decide (ip = replicate 15 0%N ++ [1%N])
  end.

(** [IP.String] of an address with a four-byte form. *)
Definition dotted (ip4 : IP) : string := Join (map pretty ip4) ".".

Inductive IfAddr : Type := IPNet (ip : IP) | OtherIfAddr.

Record Interface : Type := mkInterface { ifUp : bool; ifName : string; ifAddrs : result error (list IfAddr) }.

(** The first address of the list that is no loopback and has a four-byte form. *)
Fixpoint firstIPv4 (addrs : list IfAddr) : option string :=
  match addrs with
  | [] => None
  | IPNet ip :: rest =>
      match To4 ip with
      | Some ip4 => if IsLoopback ip then firstIPv4 rest else Some (dotted ip4)
      | None => firstIPv4 rest
      end
  | OtherIfAddr :: rest => firstIPv4 rest
  end.

Fixpoint localIPLoop (inters : list Interface) : string :=
  match inters with
  | [] => "localhost"
  | inter :: rest =>
      if negb (ifUp inter) || HasPrefix (ifName inter) "lo" then localIPLoop rest
      else match ifAddrs inter with
           | Err _ => localIPLoop rest
           | Ok addrs => match firstIPv4 addrs with Some s => s | None => localIPLoop rest end
           end
  end.

(** [net.Interfaces] as the argument. *)
Definition LocalIP (interfaces : result error (list Interface)) : string :=
  match interfaces with Err _ => EmptyString | Ok inters => localIPLoop inters end.

(** ** addr.go *)

(** The address of a listener: of TCP, with the text of its IP, or another. *)
Inductive Addr : Type := TCPAddr (ip : string) (port : nat) | OtherAddr (s : string).

Definition wildcard (host : string) : bool :=
  String.eqb host "0.0.0.0" || String.eqb host "[::]" || String.eqb host "::".

Definition EffectiveAddr (interfaces : result error (list Interface)) (addr : string) (l : option Addr) : string :=
  match SplitHostPort addr, l with
  | Err _, None => EmptyString
  | split, _ =>
      let hp := match split with Ok hp => hp | Err _ => (EmptyString, EmptyString) end in
      let '(host, port) :=
        match l with
        | Some (TCPAddr ip port) => (ip, pretty port)
        | Some (OtherAddr s) => match SplitHostPort s with Ok hp' => hp' | Err _ => hp end
        | None => hp
        end in
      if negb (String.eqb host EmptyString) && negb (wildcard host) then JoinHostPort host port
      else JoinHostPort (LocalIP interfaces) port
  end.

(** ** Lemmas *)

Definition plainHost (h : string) : bool := byte_free lbracket h && byte_free rbracket h.
Definition plainPort (p : string) : bool := byte_free colon p && byte_free lbracket p && byte_free rbracket p.

(** A host and a port that are joined are split again. *)
Lemma SplitHostPort_JoinHostPort (h p : string) :
  plainHost h = true -> plainPort p = true -> SplitHostPort (JoinHostPort h p) = Ok (h, p).
Proof.
  unfold plainHost, plainPort. intros [Hl Hr]%andb_true_iff [[Hc Hpl]%andb_true_iff Hpr]%andb_true_iff.
  unfold SplitHostPort, JoinHostPort. destruct (byte_free colon h) eqn:Eh.
  - change (h +:+ ":" +:+ p) with (h +:+ String colon p). rewrite cutLastByte_app by done.
    unfold splitHost. destruct h as [|a h]; [by rewrite Hpl, Hpr|].
    assert (Ascii.eqb a lbracket = false) as ->.
    { cbn in Hl. by destruct (Ascii.eqb a lbracket). }
    by rewrite Eh, Hl, Hpl, Hr, Hpr.
  - change ("[" +:+ h +:+ "]:" +:+ p) with (String lbracket (h +:+ String rbracket (String colon p))).
    assert (String lbracket (h +:+ String rbracket (String colon p)) = (String lbracket (h +:+ String rbracket EmptyString)) +:+ String colon p) as ->.
    { cbn. f_equal. by rewrite append_assoc. }
    rewrite cutLastByte_app by done. unfold splitHost. rewrite Ascii.eqb_refl.
    assert (cutByte (h +:+ String rbracket EmptyString) rbracket = Some (h, EmptyString)) as ->.
    { clear -Hr. induction h as [|a h IH]; [done|]. cbn in Hr |- *. destruct (Ascii.eqb a rbracket); [done|].
      cbn in Hr. by rewrite IH. }
    by rewrite Hl, Hpl, Hpr.
Qed.

Lemma SplitHostPort_plain (s h p : string) : SplitHostPort s = Ok (h, p) -> plainHost h = true /\ plainPort p = true.
Proof.
  unfold SplitHostPort. destruct (cutLastByte s colon) as [[x y]|] eqn:E; [|done].
  assert (byte_free colon y = true) as Hy.
  { revert x E. induction s as [|a s IH]; cbn; [done|]. intros x. destruct (cutLastByte s colon) as [[x' y']|] eqn:E.
    - intros [= <- <-]. by eapply IH.
    - destruct (Ascii.eqb_spec a colon) as [->|]; [|done]. intros [= <- <-].
      clear IH. revert E. induction s as [|b s IH]; [done|]. cbn. destruct (cutLastByte s colon) as [[? ?]|]; [done|].
      destruct (Ascii.eqb b colon); [done|]. intros _. by apply IH. }
  unfold splitHost, plainHost, plainPort. destruct x as [|a x].
  - destruct (byte_free lbracket y) eqn:E1; [|done]. destruct (byte_free rbracket y) eqn:E2; [|done].
    intros [= <- <-]. by rewrite Hy, E1, E2.
  - destruct (Ascii.eqb a lbracket).
    + destruct (cutByte x rbracket) as [[h' [|b r]]|] eqn:Ec; [|done|done].
      destruct (byte_free lbracket h') eqn:E1; [|done]. destruct (byte_free lbracket y) eqn:E2; [|done].
      destruct (byte_free rbracket y) eqn:E3; [|done]. intros [= <- <-]. rewrite Hy, E1, E2, E3. split; [|done]. cbn [andb].
      clear -Ec. revert h' Ec. induction x as [|c x IH]; cbn; [done|]. intros h'. destruct (Ascii.eqb c rbracket) eqn:Ea; [by intros [= <- _]|].
      destruct (cutByte x rbracket) as [[u v]|]; [|done]. intros [= <- ->]. cbn. rewrite Ea. by apply IH.
    + destruct (byte_free colon (String a x)); [|done].
      destruct (byte_free lbracket (String a x)) eqn:E1; [|done]. destruct (byte_free lbracket y) eqn:E2; [|done].
      destruct (byte_free rbracket (String a x)) eqn:E3; [|done]. destruct (byte_free rbracket y) eqn:E4; [|done].
      intros [= <- <-]. by rewrite Hy, E1, E2, E3, E4.
Qed.

(** A number has digits only, so it is free of every other byte. *)
Lemma pretty_N_digits (c : ascii) (n : N) : is_digit c = false -> byte_free c (pretty n) = true.
Proof.
  intros Hc. assert (forall x, Ascii.eqb (pretty_N_char x) c = false) as Hch.
  { intros x. destruct (Ascii.eqb_spec (pretty_N_char x) c) as [<-|]; [|done]. exfalso. revert Hc. unfold pretty_N_char.
    by repeat case_match. }
  assert (forall x s, byte_free c s = true -> byte_free c (pretty_N_go x s) = true) as Hgo.
  { intros x. induction (N.lt_wf_0 x) as [x _ IH]. intros s Hs. destruct (decide (x = 0)%N) as [->|Hx]; [by rewrite pretty_N_go_0|].
    rewrite pretty_N_go_step by lia. apply IH; [apply N.div_lt; lia|]. cbn -[pretty_N_char]. by rewrite Hch. }
  unfold pretty, pretty_N. destruct (decide _); [|by apply Hgo].
  change (byte_free c (String (pretty_N_char 0) EmptyString) = true). cbn -[pretty_N_char]. by rewrite Hch.
Qed.

Lemma plainPort_pretty (n : nat) : plainPort (pretty n) = true.
Proof. change (pretty n) with (pretty (N.of_nat n)). unfold plainPort. by rewrite !pretty_N_digits. Qed.

Lemma dotted_plain (ip : IP) : plainHost (dotted ip) = true.
Proof.
  assert (forall c, is_digit c = false -> byte_free c "." = true -> byte_free c (dotted ip) = true) as H.
  { intros c Hd Hdot. unfold dotted. induction ip as [|b l IH]; [done|]. cbn [map Join].
    destruct (map pretty l) as [|x xs] eqn:E; [by apply pretty_N_digits|].
    rewrite !byte_free_app, IH, Hdot, (pretty_N_digits c b) by done. done. }
  unfold plainHost. by rewrite !H.
Qed.

Lemma firstIPv4_plain (addrs : list IfAddr) (s : string) : firstIPv4 addrs = Some s -> exists ip4 ip, To4 ip = Some ip4 /\ IsLoopback ip = false /\ s = dotted ip4.
Proof.
  induction addrs as [|[ip|] l IH]; cbn [firstIPv4]; [done| |done]. destruct (To4 ip) as [ip4|] eqn:E4; [|done].
  destruct (IsLoopback ip) eqn:El; [done|]. intros [= <-]. by exists ip4, ip.
Qed.

(** What [LocalIP] gives, once the interfaces can be listed: "localhost" or the text of
    an IPv4 address that is no loopback, of an interface that is up. *)
Lemma localIP_cases (inters : list Interface) :
  LocalIP (Ok inters) = "localhost"
  \/ exists inter addrs ip4 ip, In inter inters /\ ifUp inter = true /\ ifAddrs inter = Ok addrs
       /\ To4 ip = Some ip4 /\ IsLoopback ip = false /\ LocalIP (Ok inters) = dotted ip4.
Proof.
  cbn. induction inters as [|inter rest IH]; [by left|]. cbn [localIPLoop].
  assert (localIPLoop rest = "localhost"
          \/ exists inter' addrs ip4 ip, In inter' (inter :: rest) /\ ifUp inter' = true /\ ifAddrs inter' = Ok addrs
             /\ To4 ip = Some ip4 /\ IsLoopback ip = false /\ localIPLoop rest = dotted ip4) as Hrest.
  { destruct IH as [?|(i & a & ip4 & ip & Hi & Hx)]; [by left|right]. exists i, a, ip4, ip. split; [by right|done]. }
  destruct (ifUp inter) eqn:Eu; cbn [negb orb]; [|done]. destruct (HasPrefix (ifName inter) "lo"); [done|].
  destruct (ifAddrs inter) as [addrs|e] eqn:Ea; [|done]. destruct (firstIPv4 addrs) as [s|] eqn:Ef; [|done]. right.
  apply firstIPv4_plain in Ef as (ip4 & ip & H4 & Hl & ->). exists inter, addrs, ip4, ip. split; [by left|done].
Qed.

(** A TCP address as [net.Listen] gives it: the text of an IP has no brackets. *)
Definition addr_ok (l : option Addr) : Prop := match l with Some (TCPAddr ip _) => plainHost ip = true | _ => True end.

(** The address that is told: it splits into a host and a port; the host is the
    listener's, when that is no wildcard, and else the machine's. *)
Theorem EffectiveAddr_told (inters : list Interface) (addr : string) (l : Addr) :
  addr_ok (Some l) ->
  exists host port, SplitHostPort (EffectiveAddr (Ok inters) addr (Some l)) = Ok (host, port)
    /\ (host = LocalIP (Ok inters) \/ (host <> EmptyString /\ wildcard host = false))
    /\ match l with
       | TCPAddr ip p => port = pretty p /\ (wildcard ip = false -> ip <> EmptyString -> host = ip)
       | OtherAddr _ => True
       end.
Proof.
  intros Hl. assert (plainHost (LocalIP (Ok inters)) = true) as Hlocal.
  { destruct (localIP_cases inters) as [-> |(? & ? & ip4 & ? & _ & _ & _ & _ & _ & ->)]; [done|apply dotted_plain]. }
  assert (forall h p, plainHost h = true -> plainPort p = true ->
            let told := if negb (String.eqb h EmptyString) && negb (wildcard h) then JoinHostPort h p
                        else JoinHostPort (LocalIP (Ok inters)) p in
            exists host, SplitHostPort told = Ok (host, p)
              /\ (host = LocalIP (Ok inters) \/ (host <> EmptyString /\ wildcard host = false))
              /\ (wildcard h = false -> h <> EmptyString -> host = h)) as Hjoin.
  { intros h p Hh Hp. cbn zeta. destruct (String.eqb_spec h EmptyString) as [->|Hne]; cbn [negb andb].
    - exists (LocalIP (Ok inters)). split; [by apply SplitHostPort_JoinHostPort|]. split; [by left|done].
    - destruct (wildcard h) eqn:Ew; cbn [negb].
      + exists (LocalIP (Ok inters)). split; [by apply SplitHostPort_JoinHostPort|]. split; [by left|done].
      + exists h. split; [by apply SplitHostPort_JoinHostPort|]. auto. }
  assert (forall s hp, SplitHostPort s = Ok hp -> plainHost (fst hp) = true /\ plainPort (snd hp) = true) as Hsplit.
  { intros s [h p]. apply SplitHostPort_plain. }
  unfold EffectiveAddr.
  assert (plainHost EmptyString = true /\ plainPort EmptyString = true) as [He1 He2] by done.
  destruct l as [ip p|s].
  - destruct (Hjoin ip (pretty p) Hl (plainPort_pretty p)) as (host & H1 & H2 & H3).
    exists host, (pretty p). destruct (SplitHostPort addr); (split; [exact H1|split; [exact H2|by split]]).
  - set (hp := match SplitHostPort s with Ok hp' => hp' | Err _ => match SplitHostPort addr with Ok hp => hp | Err _ => (EmptyString, EmptyString) end end).
    assert (plainHost (fst hp) = true /\ plainPort (snd hp) = true) as [Hh Hp].
    { unfold hp. destruct (SplitHostPort s) eqn:E1; [by apply (Hsplit s)|].
      destruct (SplitHostPort addr) eqn:E2; [by apply (Hsplit addr)|done]. }
    destruct (Hjoin (fst hp) (snd hp) Hh Hp) as (host & H1 & H2 & _). exists host, (snd hp).
    unfold hp in *. destruct (SplitHostPort addr) as [[h0 p0]|]; destruct (SplitHostPort s) as [[h1 p1]|]; cbn in *; auto.
Qed.

Definition eth0 : Interface := mkInterface true "eth0" (Ok [IPNet [254; 128; 0; 0; 0; 0; 0; 0; 0; 0; 0; 0; 0; 0; 0; 1]%N; IPNet [10; 0; 0; 7]%N]).
Definition lo : Interface := mkInterface true "lo" (Ok [IPNet [127; 0; 0; 1]%N]).

Lemma EffectiveAddr_told_witness :
  exists host port, SplitHostPort (EffectiveAddr (Ok [lo; eth0]) ":8080" (Some (TCPAddr "::" 8080))) = Ok (host, port).
Proof.
  destruct (EffectiveAddr_told [lo; eth0] ":8080" (TCPAddr "::" 8080)) as (host & port & H & _); [reflexivity|].
  exists host, port. exact H.
Defined.

Example effective_addresses :
  EffectiveAddr (Ok [lo; eth0]) ":8080" (Some (TCPAddr "::" 8080)) = "10.0.0.7:8080"
  /\ EffectiveAddr (Ok [lo; eth0]) ":0" (Some (TCPAddr "127.0.0.1" 41235)) = "127.0.0.1:41235"
  /\ EffectiveAddr (Ok []) "[::]:0" (Some (TCPAddr "fe80::1" 80)) = "[fe80::1]:80"
  /\ EffectiveAddr (Ok []) "nonsense" None = EmptyString.
Proof. by vm_compute. Qed.

(** When the interfaces cannot be listed the machine has no name: the address told has
    no host at all, although [LocalIP] promises "localhost". *)
Example no_interfaces (e : error) : EffectiveAddr (Err e) ":8080" (Some (TCPAddr "::" 8080)) = ":8080".
Proof. by vm_compute. Qed.

(** An interface whose name merely starts with "lo" is left out. *)
Example lowpan_skipped : LocalIP (Ok [mkInterface true "lowpan0" (Ok [IPNet [10; 0; 0; 9]%N])]) = "localhost".
Proof. by vm_compute. Qed.
