(* ===== verification/Options.v ===== *)
(** The options of the servers and the clients: [transport/http/types.go],
    [transport/grpc/types.go], [transport/cli/types.go], [registry/types.go],
    [infra/cache/redis/types.go], [infra/cache/memory/types.go], [admin/options.go], [admin/register_model_options.go]:
    what each option sets and what a constructor makes of a list of them. *)

From Stdlib Require Import ZArith Lia String Ascii List Bool.
From stdpp Require Import base tactics list gmap strings pretty.
From S2P Require Import Prelude GoStrings Errs HttpCors.

Local Open Scope string_scope.
Local Open Scope list_scope.

(** ** Options in general *)

Section General.
Context {Opt Opts : Type}.
Variable apply : Opt -> Opts -> Opts.

(** [for _, cb := range cbs { cb(opts) }] *)
Definition applyAll (cbs : list Opt) (o : Opts) : Opts := fold_left (fun o cb => apply cb o) cbs o.

(** A field that an option sets ([sel]) or leaves: the last option that sets it decides,
    and the default when none does. *)
Lemma applyAll_last {A : Type} (get : Opts -> A) (sel : Opt -> option A) (cbs : list Opt) (o : Opts) :
  (forall x o, get (apply x o) = default (get o) (sel x)) ->
  get (applyAll cbs o) = default (get o) (last (omap sel cbs)).
Proof.
  intros Hset. revert o. induction cbs as [|x cbs IH]; intros o; cbn [applyAll fold_left]; [done|].
  unfold applyAll in IH. rewrite IH, Hset. cbn [omap list_omap]. destruct (sel x) as [a|]; [|done].
  rewrite last_cons. by destruct (last (omap sel cbs)).
Qed.

(** A field that options add to holds what they add, in order. *)
Lemma applyAll_concat {A : Type} (get : Opts -> list A) (add : Opt -> list A) (cbs : list Opt) (o : Opts) :
  (forall x o, get (apply x o) = get o ++ add x) ->
  get (applyAll cbs o) = get o ++ concat (map add cbs).
Proof.
  intros Hadd. revert o. induction cbs as [|x cbs IH]; intros o; cbn; [by rewrite app_nil_r|].
  unfold applyAll in IH. by rewrite IH, Hadd, app_assoc.
Qed.

(** A field that no option touches. *)
Lemma applyAll_kept {A : Type} (get : Opts -> A) (cbs : list Opt) (o : Opts) :
  (forall x o, get (apply x o) = get o) -> get (applyAll cbs o) = get o.
Proof.
  intros Hk. rewrite (applyAll_last get (fun _ => None)) by done. by assert (omap (fun _ : Opt => @None A) cbs = []) as -> by (by induction cbs).
Qed.

End General.

(** ** strconv.Atoi and the port of the environment *)

Definition Atoi (s : string) : option Z :=
  let signed := match s with
                | String "-"%char s => Z.opp <$> parseDecimal s
                | String "+"%char s => parseDecimal s
                | s => parseDecimal s
                end in
  match signed with
  | Some z => if (- 2 ^ 63 <=? z)%Z && (z <? 2 ^ 63)%Z then Some z else None
  | None => None
  end.

(** The address of the servers: [HTTP_PORT], [GRPC_PORT], [CLI_PORT]; [None] is the
    panic on a value that is no number. *)
Definition portAddress (portStr : string) : option string :=
  match Atoi portStr with
  | Some port => Some (":" +:+ pretty port)
  | None => if String.eqb portStr EmptyString then Some ":0" else None
  end.

(** ** transport/http *)

Module Http.

Section Params.
Context {Handler Logger Ctx GinOption : Type}.

Record options : Type := mkOptions {
  network : string;
  address : string;
  certFile : string;
  keyFile : string;
  debug : bool;
  debugAddr : string;
  handler : option Handler;
  logger : option Logger;
  context : option Ctx;
  ginOptions : list GinOption;
  cors : option CORSConfig;
  enableHealth : bool;
  enableMetrics : bool;
  readHeaderTimeout : Z;
  readTimeout : Z;
  writeTimeout : Z;
  idleTimeout : Z;
  maxHeaderBytes : Z;
}.

Inductive Option : Type :=
| WithNetwork (v : string)
| WithCORS (cfg : CORSConfig)
| WithAddress (v : string)
| WithCertFile (v : string)
| WithKeyFile (v : string)
| WithLogger (lg : option Logger)
| WithContext (ctx : option Ctx)
| WithDebug (v : bool)
| WithDebugAddr (v : string)
| WithHandler (h : option Handler)
| WithGinOptions (l : list GinOption)
| WithEnableHealth (v : bool)
| WithEnableMetrics (v : bool)
| WithReadHeaderTimeout (d : Z)
| WithReadTimeout (d : Z)
| WithWriteTimeout (d : Z)
| WithIdleTimeout (d : Z)
| WithMaxHeaderBytes (n : Z).

Definition apply (x : Option) (o : options) : options :=
  match x with
  | WithNetwork v =>
      mkOptions v (address o) (certFile o) (keyFile o) (debug o) (debugAddr o) (handler o) (logger o) (context o)
        (ginOptions o) (cors o) (enableHealth o) (enableMetrics o) (readHeaderTimeout o) (readTimeout o)
        (writeTimeout o) (idleTimeout o) (maxHeaderBytes o)
  | WithCORS cfg =>
      mkOptions (network o) (address o) (certFile o) (keyFile o) (debug o) (debugAddr o) (handler o) (logger o)
        (context o) (ginOptions o) (Some cfg) (enableHealth o) (enableMetrics o) (readHeaderTimeout o) (readTimeout o)
        (writeTimeout o) (idleTimeout o) (maxHeaderBytes o)
  | WithAddress v =>
      mkOptions (network o) v (certFile o) (keyFile o) (debug o) (debugAddr o) (handler o) (logger o) (context o)
        (ginOptions o) (cors o) (enableHealth o) (enableMetrics o) (readHeaderTimeout o) (readTimeout o)
        (writeTimeout o) (idleTimeout o) (maxHeaderBytes o)
  | WithCertFile v =>
      mkOptions (network o) (address o) v (keyFile o) (debug o) (debugAddr o) (handler o) (logger o) (context o)
        (ginOptions o) (cors o) (enableHealth o) (enableMetrics o) (readHeaderTimeout o) (readTimeout o)
        (writeTimeout o) (idleTimeout o) (maxHeaderBytes o)
  | WithKeyFile v =>
      mkOptions (network o) (address o) (certFile o) v (debug o) (debugAddr o) (handler o) (logger o) (context o)
        (ginOptions o) (cors o) (enableHealth o) (enableMetrics o) (readHeaderTimeout o) (readTimeout o)
        (writeTimeout o) (idleTimeout o) (maxHeaderBytes o)
  | WithLogger lg =>
      mkOptions (network o) (address o) (certFile o) (keyFile o) (debug o) (debugAddr o) (handler o) lg (context o)
        (ginOptions o) (cors o) (enableHealth o) (enableMetrics o) (readHeaderTimeout o) (readTimeout o)
        (writeTimeout o) (idleTimeout o) (maxHeaderBytes o)
  | WithContext ctx =>
      mkOptions (network o) (address o) (certFile o) (keyFile o) (debug o) (debugAddr o) (handler o) (logger o) ctx
        (ginOptions o) (cors o) (enableHealth o) (enableMetrics o) (readHeaderTimeout o) (readTimeout o)
        (writeTimeout o) (idleTimeout o) (maxHeaderBytes o)
  | WithDebug v =>
      mkOptions (network o) (address o) (certFile o) (keyFile o) v (debugAddr o) (handler o) (logger o) (context o)
        (ginOptions o) (cors o) (enableHealth o) (enableMetrics o) (readHeaderTimeout o) (readTimeout o)
        (writeTimeout o) (idleTimeout o) (maxHeaderBytes o)
  | WithDebugAddr v =>
      mkOptions (network o) (address o) (certFile o) (keyFile o) (debug o) v (handler o) (logger o) (context o)
        (ginOptions o) (cors o) (enableHealth o) (enableMetrics o) (readHeaderTimeout o) (readTimeout o)
        (writeTimeout o) (idleTimeout o) (maxHeaderBytes o)
  | WithHandler h =>
      mkOptions (network o) (address o) (certFile o) (keyFile o) (debug o) (debugAddr o) h (logger o) (context o)
        (ginOptions o) (cors o) (enableHealth o) (enableMetrics o) (readHeaderTimeout o) (readTimeout o)
        (writeTimeout o) (idleTimeout o) (maxHeaderBytes o)
  | WithGinOptions l =>
      mkOptions (network o) (address o) (certFile o) (keyFile o) (debug o) (debugAddr o) (handler o) (logger o)
        (context o) l (cors o) (enableHealth o) (enableMetrics o) (readHeaderTimeout o) (readTimeout o)
        (writeTimeout o) (idleTimeout o) (maxHeaderBytes o)
  | WithEnableHealth v =>
      mkOptions (network o) (address o) (certFile o) (keyFile o) (debug o) (debugAddr o) (handler o) (logger o)
        (context o) (ginOptions o) (cors o) v (enableMetrics o) (readHeaderTimeout o) (readTimeout o) (writeTimeout o)
        (idleTimeout o) (maxHeaderBytes o)
  | WithEnableMetrics v =>
      mkOptions (network o) (address o) (certFile o) (keyFile o) (debug o) (debugAddr o) (handler o) (logger o)
        (context o) (ginOptions o) (cors o) (enableHealth o) v (readHeaderTimeout o) (readTimeout o) (writeTimeout o)
        (idleTimeout o) (maxHeaderBytes o)
  | WithReadHeaderTimeout d =>
      mkOptions (network o) (address o) (certFile o) (keyFile o) (debug o) (debugAddr o) (handler o) (logger o)
        (context o) (ginOptions o) (cors o) (enableHealth o) (enableMetrics o) d (readTimeout o) (writeTimeout o)
        (idleTimeout o) (maxHeaderBytes o)
  | WithReadTimeout d =>
      mkOptions (network o) (address o) (certFile o) (keyFile o) (debug o) (debugAddr o) (handler o) (logger o)
        (context o) (ginOptions o) (cors o) (enableHealth o) (enableMetrics o) (readHeaderTimeout o) d
        (writeTimeout o) (idleTimeout o) (maxHeaderBytes o)
  | WithWriteTimeout d =>
      mkOptions (network o) (address o) (certFile o) (keyFile o) (debug o) (debugAddr o) (handler o) (logger o)
        (context o) (ginOptions o) (cors o) (enableHealth o) (enableMetrics o) (readHeaderTimeout o) (readTimeout o) d
        (idleTimeout o) (maxHeaderBytes o)
  | WithIdleTimeout d =>
      mkOptions (network o) (address o) (certFile o) (keyFile o) (debug o) (debugAddr o) (handler o) (logger o)
        (context o) (ginOptions o) (cors o) (enableHealth o) (enableMetrics o) (readHeaderTimeout o) (readTimeout o)
        (writeTimeout o) d (maxHeaderBytes o)
  | WithMaxHeaderBytes n =>
      mkOptions (network o) (address o) (certFile o) (keyFile o) (debug o) (debugAddr o) (handler o) (logger o)
        (context o) (ginOptions o) (cors o) (enableHealth o) (enableMetrics o) (readHeaderTimeout o) (readTimeout o)
        (writeTimeout o) (idleTimeout o) n
  end.

Definition second : Z := 1000000000.

Definition defaults (address : string) : options :=
  mkOptions "tcp" address EmptyString EmptyString false EmptyString None None None [] None false false
    (10 * second) 0 0 (120 * second) 1048576.

(** The options of [New]: the port of the environment is set before the options run; a
    panic is [None]. *)
Definition newOptions (httpPort : string) (cbs : list Option) : option options :=
  match portAddress httpPort with
  | None => None
  | Some addr => Some (applyAll apply cbs (defaults addr))
  end.

End Params.
End Http.

(** ** transport/grpc *)

Module Grpc.

Section Params.
Context {ServerOption Logger Ctx : Type}.

Record options : Type := mkOptions {
  network : string;
  address : string;
  grpcOpts : list ServerOption;
  logger : option Logger;
  context : option Ctx;
}.

Inductive Option : Type :=
| WithNetwork (v : string)
| WithAddress (v : string)
| WithContext (ctx : option Ctx)
| WithLogger (lg : option Logger).

Definition apply (x : Option) (o : options) : options :=
  match x with
  | WithNetwork v =>
      mkOptions v (address o) (grpcOpts o) (logger o) (context o)
  | WithAddress v =>
      mkOptions (network o) v (grpcOpts o) (logger o) (context o)
  | WithContext ctx =>
      mkOptions (network o) (address o) (grpcOpts o) (logger o) ctx
  | WithLogger lg =>
      mkOptions (network o) (address o) (grpcOpts o) lg (context o)
  end.

(** The two interceptors are the only server options. *)
Definition newOptions (unary stream : ServerOption) (grpcPort : string) (cbs : list Option) : option options :=
  match portAddress grpcPort with
  | None => None
  | Some addr =>
      let o := applyAll apply cbs (mkOptions "tcp" addr [] None None) in
      Some (mkOptions (network o) (address o) ((grpcOpts o ++ [unary]) ++ [stream]) (logger o) (context o))
  end.

End Params.
End Grpc.

(** ** transport/grpc: the client *)

Module GrpcClient.

Section Params.
Context {Tls Registrar DialOption : Type}.

Record options : Type := mkOptions {
  tls : option Tls;
  registry : option Registrar;
  dialOptions : list DialOption;
}.

Inductive Option : Type :=
| WithTLS (v : option Tls)
| WithRegistrar (v : option Registrar)
| WithGrpcDialOptions (l : list DialOption).

Definition apply (x : Option) (o : options) : options :=
  match x with
  | WithTLS v =>
      mkOptions v (registry o) (dialOptions o)
  | WithRegistrar v =>
      mkOptions (tls o) v (dialOptions o)
  | WithGrpcDialOptions l =>
      mkOptions (tls o) (registry o) l
  end.

Definition WithRegistry (v : option Registrar) : Option := WithRegistrar v.

End Params.
End GrpcClient.

(** ** transport/cli *)

Module Cli.

Section Params.
Context {Logger Ctx : Type}.

Record options : Type := mkOptions {
  network : string;
  address : string;
  logger : option Logger;
  context : option Ctx;
}.

Inductive Option : Type :=
| WithAddress (v : string)
| WithNetwork (v : string)
| WithLogger (lg : option Logger)
| WithContext (ctx : option Ctx).

Definition apply (x : Option) (o : options) : options :=
  match x with
  | WithAddress v =>
      mkOptions (network o) v (logger o) (context o)
  | WithNetwork v =>
      mkOptions v (address o) (logger o) (context o)
  | WithLogger lg =>
      mkOptions (network o) (address o) lg (context o)
  | WithContext ctx =>
      mkOptions (network o) (address o) (logger o) ctx
  end.

Definition newOptions (cliPort : string) (cbs : list Option) : option options :=
  match portAddress cliPort with
  | None => None
  | Some addr => Some (applyAll apply cbs (mkOptions "tcp" addr None None))
  end.

End Params.
End Cli.

(** ** registry: the connection *)

Module Registry.

Section Params.
Context {Tls Ctx : Type}.

Record options : Type := mkOptions {
  Context_ : option Ctx;
  TLSConfig : option Tls;
  Addrs : list string;
  Timeout : Z;
  Secure : bool;
}.

Inductive Option : Type :=
| WithRegistryContext (ctx : option Ctx)
| WithAddress (v : string)
| WithTLS (v : option Tls)
| WithTimeout (t : Z).

Definition apply (x : Option) (o : options) : options :=
  match x with
  | WithRegistryContext ctx =>
      mkOptions ctx (TLSConfig o) (Addrs o) (Timeout o) (Secure o)
  | WithAddress v =>
      mkOptions (Context_ o) (TLSConfig o) (Addrs o ++ [v]) (Timeout o) (Secure o)
  | WithTLS v =>
      mkOptions (Context_ o) v (Addrs o) (Timeout o) (Secure o)
  | WithTimeout t =>
      mkOptions (Context_ o) (TLSConfig o) (Addrs o) t (Secure o)
  end.

Definition NewRegistryOption (background : Ctx) (cbs : list Option) : options :=
  applyAll apply cbs (mkOptions (Some background) None [] 0 false).

End Params.
End Registry.

(** ** registry: a registration *)

Module Register.

Section Params.
Context {Ctx : Type}.

Record options : Type := mkOptions {
  Context_ : option Ctx;
  TTL : Z;
}.

Inductive Option : Type :=
| WithTTL (t : Z)
| WithRegisterContext (ctx : option Ctx).

Definition apply (x : Option) (o : options) : options :=
  match x with
  | WithTTL t =>
      mkOptions (Context_ o) t
  | WithRegisterContext ctx =>
      mkOptions ctx (TTL o)
  end.

Definition NewRegisterOption (background : Ctx) (cbs : list Option) : options :=
  applyAll apply cbs (mkOptions (Some background) 0).

End Params.
End Register.

(** ** registry: a watch *)

Module Watch.

Section Params.
Context {Logger Ctx : Type}.

Record options : Type := mkOptions {
  Context_ : option Ctx;
  Service : string;
  Logger_ : option Logger;
}.

Inductive Option : Type :=
| WithService (v : string)
| WithLogger (lg : option Logger)
| WithWatchContext (ctx : option Ctx).

Definition apply (x : Option) (o : options) : options :=
  match x with
  | WithService v =>
      mkOptions (Context_ o) v (Logger_ o)
  | WithLogger lg =>
      mkOptions (Context_ o) (Service o) lg
  | WithWatchContext ctx =>
      mkOptions ctx (Service o) (Logger_ o)
  end.

Definition NewWatchOption (background : Ctx) (std : Logger) (cbs : list Option) : options :=
  applyAll apply cbs (mkOptions (Some background) EmptyString (Some std)).

End Params.
End Watch.

(** ** registry: lookups and deregistrations *)

Module Deregister.

Section Params.
Context {Ctx : Type}.

Record options : Type := mkOptions {
  Context_ : option Ctx;
}.

Inductive Option : Type :=
| WithDeregisterContext (ctx : option Ctx).

Definition apply (x : Option) (o : options) : options :=
  match x with
  | WithDeregisterContext ctx =>
      mkOptions ctx
  end.

Definition NewDeregisterOption (background : Ctx) (cbs : list Option) : options := applyAll apply cbs (mkOptions (Some background)).

End Params.
End Deregister.

(** ** registry: lookups *)

Module Get.

Section Params.
Context {Ctx : Type}.

Record options : Type := mkOptions {
  Context_ : option Ctx;
}.

Inductive Option : Type :=
| WithGetContext (ctx : option Ctx).

Definition apply (x : Option) (o : options) : options :=
  match x with
  | WithGetContext ctx =>
      mkOptions ctx
  end.

Definition NewGetOption (background : Ctx) (cbs : list Option) : options := applyAll apply cbs (mkOptions (Some background)).

End Params.
End Get.

(** ** admin *)

Module Admin.

Section Params.
Context {DB_ Resolver Router_ Responder_ Logger_ ResolveUser : Type}.

Record options : Type := mkOptions {
  DB : option DB_;
  Responder : option Responder_;
  EnabledOpenAPI : bool;
  MultiTenant : bool;
  AutoMigrate : bool;
  TenantResolver : option Resolver;
  Router : option Router_;
  Logger : option Logger_;
  AuditEnabled : bool;
  AuditExcludes : list string;
  UserResolve : option ResolveUser;
  VueOutputDir : string;
}.

Inductive Option : Type :=
| WithResponder (v : option Responder_)
| WithOpenAPI (v : bool)
| WithLogger (lg : option Logger_)
| WithDB (db : option DB_)
| WithAutoMigrate (v : bool)
| WithTenantResolver (r : option Resolver)
| WithMultiTenant (v : bool)
| WithRouter (v : option Router_)
| WithVueOutputDir (dir : string)
| WithAudit (v : bool)
| WithAuditExcludes (l : list string)
| WithUserResolve (fn : option ResolveUser).

Definition apply (x : Option) (o : options) : options :=
  match x with
  | WithResponder v =>
      mkOptions (DB o) v (EnabledOpenAPI o) (MultiTenant o) (AutoMigrate o) (TenantResolver o) (Router o) (Logger o)
        (AuditEnabled o) (AuditExcludes o) (UserResolve o) (VueOutputDir o)
  | WithOpenAPI v =>
      mkOptions (DB o) (Responder o) v (MultiTenant o) (AutoMigrate o) (TenantResolver o) (Router o) (Logger o)
        (AuditEnabled o) (AuditExcludes o) (UserResolve o) (VueOutputDir o)
  | WithLogger lg =>
      mkOptions (DB o) (Responder o) (EnabledOpenAPI o) (MultiTenant o) (AutoMigrate o) (TenantResolver o) (Router o)
        lg (AuditEnabled o) (AuditExcludes o) (UserResolve o) (VueOutputDir o)
  | WithDB db =>
      mkOptions db (Responder o) (EnabledOpenAPI o) (MultiTenant o) (AutoMigrate o) (TenantResolver o) (Router o)
        (Logger o) (AuditEnabled o) (AuditExcludes o) (UserResolve o) (VueOutputDir o)
  | WithAutoMigrate v =>
      mkOptions (DB o) (Responder o) (EnabledOpenAPI o) (MultiTenant o) v (TenantResolver o) (Router o) (Logger o)
        (AuditEnabled o) (AuditExcludes o) (UserResolve o) (VueOutputDir o)
  | WithTenantResolver r =>
      mkOptions (DB o) (Responder o) (EnabledOpenAPI o) true (AutoMigrate o) r (Router o) (Logger o) (AuditEnabled o)
        (AuditExcludes o) (UserResolve o) (VueOutputDir o)
  | WithMultiTenant v =>
      mkOptions (DB o) (Responder o) (EnabledOpenAPI o) v (AutoMigrate o) (TenantResolver o) (Router o) (Logger o)
        (AuditEnabled o) (AuditExcludes o) (UserResolve o) (VueOutputDir o)
  | WithRouter v =>
      mkOptions (DB o) (Responder o) (EnabledOpenAPI o) (MultiTenant o) (AutoMigrate o) (TenantResolver o) v
        (Logger o) (AuditEnabled o) (AuditExcludes o) (UserResolve o) (VueOutputDir o)
  | WithVueOutputDir dir =>
      mkOptions (DB o) (Responder o) (EnabledOpenAPI o) (MultiTenant o) (AutoMigrate o) (TenantResolver o) (Router o)
        (Logger o) (AuditEnabled o) (AuditExcludes o) (UserResolve o) dir
  | WithAudit v =>
      mkOptions (DB o) (Responder o) (EnabledOpenAPI o) (MultiTenant o) (AutoMigrate o) (TenantResolver o) (Router o)
        (Logger o) v (AuditExcludes o) (UserResolve o) (VueOutputDir o)
  | WithAuditExcludes l =>
      mkOptions (DB o) (Responder o) (EnabledOpenAPI o) (MultiTenant o) (AutoMigrate o) (TenantResolver o) (Router o)
        (Logger o) (AuditEnabled o) (AuditExcludes o ++ l) (UserResolve o) (VueOutputDir o)
  | WithUserResolve fn =>
      mkOptions (DB o) (Responder o) (EnabledOpenAPI o) (MultiTenant o) (AutoMigrate o) (TenantResolver o) (Router o)
        (Logger o) (AuditEnabled o) (AuditExcludes o) fn (VueOutputDir o)
  end.

Variable stdResponder : Responder_.
Variable stdLogger : Logger_.
Variable FromClaimsResolver : Resolver.
Variable FromClaimsUserResolve : ResolveUser.

Definition withTenantResolver (r : option Resolver) (o : options) : options :=
  apply (WithUserResolve (UserResolve o)) (mkOptions (DB o) (Responder o) (EnabledOpenAPI o) (MultiTenant o) (AutoMigrate o) r
    (Router o) (Logger o) (AuditEnabled o) (AuditExcludes o) (UserResolve o) (VueOutputDir o)).

Definition newOptions (cbs : list Option) : options :=
  let o := applyAll apply cbs
             (mkOptions None (Some stdResponder) false false true None None (Some stdLogger) false [] None EmptyString) in
  let o := match MultiTenant o, TenantResolver o with
           | true, None => withTenantResolver (Some FromClaimsResolver) o
           | _, _ => o
           end in
  match UserResolve o with None => apply (WithUserResolve (Some FromClaimsUserResolve)) o | Some _ => o end.

End Params.
End Admin.

(** ** admin: one model *)

Module RegisterModel.

Section Params.
Context {MenuSpec : Type}.

Record options : Type := mkOptions {
  menuSpec : option MenuSpec;
  scenarios : option (list string);
  vueOutputDir : option string;
}.

Inductive Option : Type :=
| WithRegisterMenuSpec (spec : MenuSpec)
| WithRegisterScenarios (l : list string)
| WithRegisterVueOutputDir (dir : string).

Definition apply (x : Option) (o : options) : options :=
  match x with
  | WithRegisterMenuSpec spec =>
      mkOptions (Some spec) (scenarios o) (vueOutputDir o)
  | WithRegisterScenarios l =>
      mkOptions (menuSpec o) (Some l) (vueOutputDir o)
  | WithRegisterVueOutputDir dir =>
      mkOptions (menuSpec o) (scenarios o) (Some dir)
  end.

(** The directory of a model: its own, and else the server's. *)
Definition resolveVueOutputDir (c : option options) (serverDefault : string) : string :=
  match c with
  | None => serverDefault
  | Some c => match vueOutputDir c with Some dir => dir | None => serverDefault end
  end.

End Params.
End RegisterModel.

(** ** Theorems *)

(** An address in the environment: the decimal port, or port 0 when there is none. *)
Lemma portAddress_spec (portStr : string) :
  match portAddress portStr with
  | Some a => exists port, a = ":" +:+ pretty port /\ (- 2 ^ 63 <= port < 2 ^ 63)%Z /\ (Atoi portStr = Some port \/ portStr = EmptyString)
  | None => portStr <> EmptyString /\ Atoi portStr = None
  end.
Proof.
  unfold portAddress. destruct (Atoi portStr) as [port|] eqn:Ea.
  - exists port. split; [done|]. split; [|by left]. unfold Atoi in Ea. cbv zeta in Ea.
    repeat (case_hyp Ea; try discriminate); injection Ea as <-;
      repeat match goal with H : (_ && _)%bool = true |- _ => apply andb_true_iff in H as [H%Z.leb_le ?%Z.ltb_lt] end; lia.
  - destruct (String.eqb_spec portStr EmptyString) as [E|Hne]; [|done]. exists 0%Z. split; [done|]. split; [lia|by right].
Qed.

Section Http.
Context {Handler Logger Ctx GinOption : Type}.
Notation Opt := (@Http.Option Handler Logger Ctx GinOption).

Definition setsAddress (x : Opt) : option string := match x with Http.WithAddress v => Some v | _ => None end.
Definition setsReadHeaderTimeout (x : Opt) : option Z := match x with Http.WithReadHeaderTimeout d => Some d | _ => None end.
Definition setsDebug (x : Opt) : option bool := match x with Http.WithDebug v => Some v | _ => None end.
Definition setsDebugAddr (x : Opt) : option string := match x with Http.WithDebugAddr v => Some v | _ => None end.
Definition setsCORS (x : Opt) : option (option CORSConfig) := match x with Http.WithCORS c => Some (Some c) | _ => None end.

(** What the options of an HTTP server come to: the last option of a kind decides, an
    option given beats the environment, the guard against slow headers is on and
    debugging is off unless an option says otherwise. *)
Theorem http_options (httpPort : string) (cbs : list Opt) (o : Http.options) :
  Http.newOptions httpPort cbs = Some o ->
  (exists env, portAddress httpPort = Some env /\ Http.address o = default env (last (omap setsAddress cbs)))
  /\ Http.readHeaderTimeout o = default (10 * Http.second)%Z (last (omap setsReadHeaderTimeout cbs))
  /\ Http.debug o = default false (last (omap setsDebug cbs))
  /\ Http.debugAddr o = default EmptyString (last (omap setsDebugAddr cbs))
  /\ Http.cors o = default None (last (omap setsCORS cbs)).
Proof.
  unfold Http.newOptions. destruct (portAddress httpPort) as [env|]; [|done]. intros [= <-].
  split; [exists env; split; [done|]|repeat split].
  all: erewrite applyAll_last; [done|]; by intros [].
Qed.
End Http.

Lemma http_options_witness :
  Http.address (default (Http.defaults EmptyString) (Http.newOptions (Handler := unit) (Logger := unit) (Ctx := unit) (GinOption := unit)
    "8080" [Http.WithDebug true; Http.WithAddress "127.0.0.1:0"; Http.WithDebug false])) = "127.0.0.1:0".
Proof.
  destruct (http_options (Handler := unit) (Logger := unit) (Ctx := unit) (GinOption := unit) "8080"
    [Http.WithDebug true; Http.WithAddress "127.0.0.1:0"; Http.WithDebug false]
    (default (Http.defaults EmptyString) (Http.newOptions "8080" [Http.WithDebug true; Http.WithAddress "127.0.0.1:0"; Http.WithDebug false])))
    as ((env & _ & ->) & _); [reflexivity|]. reflexivity.
Defined.

Section Admin.
Context {DB_ Resolver Router_ Responder_ Logger_ ResolveUser : Type}.
Variable stdResponder : Responder_.
Variable stdLogger : Logger_.
Variable FromClaimsResolver : Resolver.
Variable FromClaimsUserResolve : ResolveUser.
Notation Opt := (@Admin.Option DB_ Resolver Router_ Responder_ Logger_ ResolveUser).

Definition setsMultiTenant (x : Opt) : option bool :=
  match x with Admin.WithMultiTenant v => Some v | Admin.WithTenantResolver _ => Some true | _ => None end.
Definition setsResolver (x : Opt) : option (option Resolver) :=
  match x with Admin.WithTenantResolver r => Some r | _ => None end.
Definition addsExcludes (x : Opt) : list string :=
  match x with Admin.WithAuditExcludes l => l | _ => [] end.

(** The options of the admin server: tenants are on when the last option that speaks of
    them says so, and never without a resolver, which is the claims' unless one was
    given; there is always a resolver of the user; the exclusions add up. *)
Theorem admin_options (cbs : list Opt) :
  let o := Admin.newOptions stdResponder stdLogger FromClaimsResolver FromClaimsUserResolve cbs in
  Admin.MultiTenant o = default false (last (omap setsMultiTenant cbs))
  /\ (Admin.MultiTenant o = true -> Admin.TenantResolver o = Some (default FromClaimsResolver (mjoin (last (omap setsResolver cbs)))))
  /\ Admin.UserResolve o <> None
  /\ Admin.AuditExcludes o = concat (map addsExcludes cbs).
Proof.
  cbv zeta. unfold Admin.newOptions.
  set (o := applyAll Admin.apply cbs _).
  assert (Admin.MultiTenant o = default false (last (omap setsMultiTenant cbs))) as Hm
    by (apply (applyAll_last Admin.apply Admin.MultiTenant setsMultiTenant); by intros []).
  assert (Admin.TenantResolver o = default None (last (omap setsResolver cbs))) as Hr
    by (apply (applyAll_last Admin.apply Admin.TenantResolver setsResolver); by intros []).
  assert (Admin.AuditExcludes o = [] ++ concat (map addsExcludes cbs)) as He.
  { apply (applyAll_concat Admin.apply Admin.AuditExcludes). by intros []; intros; cbn; rewrite ?app_nil_r. }
  cbn [app] in He. clearbody o. rewrite <- Hm, <- He.
  assert (Admin.TenantResolver o = mjoin (last (omap setsResolver cbs))) as Hj.
  { rewrite Hr. by destruct (last (omap setsResolver cbs)) as [[r|]|]. }
  rewrite <- Hj. unfold Admin.withTenantResolver.
  destruct (Admin.MultiTenant o) eqn:Em, (Admin.TenantResolver o) eqn:Et; cbn; destruct (Admin.UserResolve o) eqn:Eu; cbn;
    rewrite ?Em, ?Et, ?Eu; split_and!; (done || congruence).
Qed.
End Admin.

(** ** [infra/cache/memory/types.go] *)

Module MemoryCache.
Section MemoryCache.
Context {Item Logger : Type}.

(** A map of items is a reference; the maps of the program by theirs. *)
Notation maps := (gmap nat (gmap string Item)).

Record Options : Type := mkOptions { oLogger : Logger; oItems : option nat; oExpiration : Z }.
Inductive Option_ : Type := Expiration (d : Z) | Items (i : option nat) | WithLogger (l : Logger).
Definition apply (x : Option_) (o : Options) : Options :=
  match x with
  | Expiration d => mkOptions (oLogger o) (oItems o) d
  | Items i => mkOptions (oLogger o) i (oExpiration o)
  | WithLogger l => mkOptions l (oItems o) (oExpiration o)
  end.

(** [make(map[string]Item)] *)
Definition makeMap (ms : maps) : maps * nat := let p := fresh (dom ms) in (<[p := ∅]> ms, p).

Definition NewOptions (std : Logger) (cbs : list Option_) (ms : maps) : maps * Options :=
  let '(ms, p) := makeMap ms in (ms, applyAll apply cbs (mkOptions std (Some p) 0%Z)).

Record memCache : Type := mkMemCache { opts : Options; items : nat }.

Definition NewCache (std : Logger) (cbs : list Option_) (ms : maps) : maps * memCache :=
  let '(ms, options) := NewOptions std cbs ms in
  let '(ms, made) := makeMap ms in
  let given := i ← oItems options; m ← ms !! i; if (0 <? size m)%nat then Some i else None in
  (ms, mkMemCache options (default made given)).

Definition itemsOf (x : Option_) : option (option nat) := match x with Items i => Some i | _ => None end.
Definition expirationOf (x : Option_) : option Z := match x with Expiration d => Some d | _ => None end.

(** A new cache keeps its items in a map of its own, empty and known to nobody else; but
    one that was given items keeps them in the very map it was given, which its owner can
    go on writing to without the lock of the cache.  No other map is touched. *)
Theorem NewCache_items (std : Logger) (cbs : list Option_) (ms : maps) :
  (forall i, last (omap itemsOf cbs) = Some (Some i) -> is_Some (ms !! i)) ->
  let '(ms', c) := NewCache std cbs ms in
  oExpiration (opts c) = default 0%Z (last (omap expirationOf cbs))
  /\ (forall i, is_Some (ms !! i) -> ms' !! i = ms !! i)
  /\ match last (omap itemsOf cbs) with
     | Some (Some i) =>
         if (0 <? default 0 (size <$> ms !! i))%nat then items c = i else ms !! items c = None /\ ms' !! items c = Some ∅
     | _ => ms !! items c = None /\ ms' !! items c = Some ∅
     end.
Proof.
  intros Hgiven. unfold NewCache, NewOptions, makeMap. set (p := fresh (dom ms)). set (ms1 := <[p := ∅]> ms). set (q := fresh (dom ms1)).
  set (o := applyAll apply cbs (mkOptions std (Some p) 0%Z)). cbn [opts items].
  assert (ms !! p = None) as Hp by (apply not_elem_of_dom; apply is_fresh).
  assert (ms1 !! q = None) as Hq by (apply not_elem_of_dom; apply is_fresh).
  assert (ms !! q = None) as Hq' by (unfold ms1 in Hq; by apply lookup_insert_None in Hq as [? _]).
  assert (oItems o = default (Some p) (last (omap itemsOf cbs))) as Hi by (apply (applyAll_last apply oItems itemsOf); by intros [] ?).
  assert (forall i, is_Some (ms !! i) -> <[q := ∅]> ms1 !! i = ms !! i) as Hkeep.
  { intros i [m Hm]. unfold ms1. rewrite !lookup_insert_ne; [done|congruence..]. }
  split; [apply (applyAll_last apply oExpiration expirationOf); by intros [] ?|]. split; [exact Hkeep|].
  assert (forall m : maps, <[q := ∅]> m !! q = Some ∅) as Hqq by (intros m; by rewrite lookup_insert_eq).
  rewrite Hi. destruct (last (omap itemsOf cbs)) as [[i|]|] eqn:El; cbn [default from_option id mbind option_bind].
  - pose proof (Hgiven i eq_refl) as [m Hm]. rewrite (Hkeep i) by by exists m. rewrite Hm. cbn [mbind option_bind fmap option_fmap option_map default from_option id].
    by destruct (0 <? size m)%nat.
  - by split.
  - destruct (decide (p = q)) as [E|Hne].
    { exfalso. rewrite <- E in Hq. unfold ms1 in Hq. by rewrite lookup_insert_eq in Hq. }
    rewrite lookup_insert_ne by done. unfold ms1. rewrite lookup_insert_eq. cbn. by split; [|apply Hqq].
Qed.
End MemoryCache.
End MemoryCache.

(** A caller that fills the map it gave away fills the cache. *)
Lemma NewCache_items_witness :
  let ms : gmap nat (gmap string string) := {[7%nat := {["key" := "value"]}]} in
  MemoryCache.items (snd (MemoryCache.NewCache "std" [MemoryCache.Expiration 5%Z; MemoryCache.Items (Some 7%nat)] ms)) = 7%nat.
Proof.
  intros ms.
  pose proof (MemoryCache.NewCache_items "std" [MemoryCache.Expiration 5%Z; MemoryCache.Items (Some 7%nat)] ms) as Hn.
  destruct (MemoryCache.NewCache _ _ _) as [ms' c]. cbn [snd omap list_omap MemoryCache.itemsOf last] in *.
  destruct Hn as (_ & _ & Hi); [intros i [= <-]; by eexists|]. exact Hi.
Defined.
