(* ===== verification/Lifecycle.v ===== *)
(** The life of the servers: [transport/http/server.go] ([New], [Endpoint], [Start],
    [Stop], the profiling listener), [transport/grpc/server.go] and
    [transport/cli/server.go]; start, stop and the questions for the endpoint as
    goroutines that interleave. *)

From Stdlib Require Import ZArith Lia String List Bool.
From stdpp Require Import base tactics list gmap strings pretty relations.
From S2P Require Import Prelude GoStrings Errs NetAddr HttpCors Options.

Local Open Scope string_scope.
Local Open Scope list_scope.

(** ** The listener, of all three servers *)

(** [uri], [listener], and how often [net.Listen] gave the server a listener. *)
Record Listening : Type := mkListening { scheme : string; uriHost : string; listener : option Addr; binds : nat }.

Section Listening.
Variable interfaces : result error (list Interface).

(** [createListener], with what [net.Listen] answers if it is asked: under the mutex,
    so one step. *)
Definition createListener (address : string) (r : result error Addr) (l : Listening) : Listening * option error :=
  match listener l with
  | Some _ => (l, None)
  | None => match r with
            | Err e => (l, Some e)
            | Ok a => (mkListening (scheme l) (EffectiveAddr interfaces address (Some a)) (Some a) (S (binds l)), None)
            end
  end.

Definition uriString (l : Listening) : string := scheme l +:+ "://" +:+ uriHost l.

Definition Endpoint (address : string) (r : result error Addr) (l : Listening) : Listening * result error string :=
  match createListener address r l with
  | (l, Some e) => (l, Err e)
  | (l, None) => (l, Ok (uriString l))
  end.

Definition setScheme (s : string) (l : Listening) : Listening := mkListening s (uriHost l) (listener l) (binds l).

(** Bound once, and the host is that of the listener. *)
Definition listening_ok (address : string) (l : Listening) : Prop :=
  match listener l with
  | None => binds l = 0%nat
  | Some a => binds l = 1%nat /\ uriHost l = EffectiveAddr interfaces address (Some a)
  end.

Lemma createListener_ok (address : string) (r : result error Addr) (l : Listening) :
  listening_ok address l ->
  listening_ok address (fst (createListener address r l))
  /\ (snd (createListener address r l) = None -> is_Some (listener (fst (createListener address r l))))
  /\ (forall a, listener l = Some a -> fst (createListener address r l) = l).
Proof.
  unfold createListener, listening_ok. destruct (listener l) as [a|] eqn:El; cbn.
  - rewrite El. split; [done|]. split; [by exists a|done].
  - intros Hb. destruct r as [a|e]; cbn; [|by rewrite El]. rewrite Hb. split; [done|]. split; [by exists a|done].
Qed.
End Listening.

(** ** transport/http *)

Module HttpLife.
Section HttpLife.
Context {Handler Logger Ctx GinOption : Type}.
Variable interfaces : result error (list Interface).
(** The logger of [logger.Default], the engine's own handler, and whether gin refuses a
    route beside those it has. *)
Variable stdLogger : Logger.
Variable conflict : list (string * string) -> string * string -> bool.
Notation Options := (@Http.options Handler Logger Ctx GinOption).

(** An [http.Server]: [Serve] refuses once [Shutdown] was called. *)
Inductive Serving : Type := NotServing | Serves | ShutDown.

(** Where [Start] stands, and [Stop]. *)
Inductive Starter : Type := Idle | AtDebug | AtRoutes | AtListen | AtServe | InServe | Returned (err : option error) | Panicked.
Inductive Stopper : Type := NoStop | AtShutdown | Stopped.

Inductive Middleware : Type := CORS | Recovery | Request.

Record Server : Type := mkServer {
  opts : Options;
  main : Listening;
  serve : option Serving;
  pprof : option (Addr * Serving);
  log : Logger;
  routes : list (string * string);
  noRoute : bool;
  middlewares : list Middleware;
  starter : Starter;
  stopper : Stopper;
  endpoints : list string;
}.

(** [New]; [None] is a panic: a port that is no number, or a CORS configuration that is
    refused. *)
Definition New (urlParse : string -> option URL) (httpPort : string) (cbs : list (@Http.Option Handler Logger Ctx GinOption)) : option Server :=
  match Http.newOptions httpPort cbs with
  | None => None
  | Some o =>
      let mws := [Recovery; Request; Recovery] in
      let svr mws := mkServer o (mkListening "http" EmptyString None 0) None None (default stdLogger (Http.logger o)) [] false mws
                       Idle NoStop [] in
      match Http.cors o with
      | Some c => match validateCORS urlParse c with Some _ => None | None => Some (svr (CORS :: mws)) end
      | None => Some (svr mws)
      end
  end.

Definition loopback (host : string) : bool :=
  String.eqb host "127.0.0.1" || String.eqb host "::1" || String.eqb host "localhost".

(** [net.Addr.String] *)
Definition addrString (a : Addr) : string :=
  match a with TCPAddr ip port => JoinHostPort ip (pretty port) | OtherAddr s => s end.

(** The guard of [startPprof]: true refuses the listener. *)
Definition refused (a : Addr) : bool :=
  match SplitHostPort (addrString a) with
  | Ok (host, _) => negb (String.eqb host EmptyString) && negb (loopback host)
  | Err _ => false
  end.

Definition startPprof (debugAddr : string) (r : result error Addr) : option Addr * option error :=
  if String.eqb debugAddr EmptyString then (None, None)
  else match r with
       | Err e => (None, Some (EWrap ("pprof listen: " +:+ errText e) [e]))
       | Ok a => if refused a then (None, Some (EPlain "pprof listener must bind to a loopback address"))
                 else (Some a, None)
       end.

Definition wantedRoutes (o : Options) : list (string * string) :=
  (if Http.enableHealth o then [("GET", "/health"); ("GET", "/ready")] else [])
  ++ (if Http.enableMetrics o then [("GET", "/metrics")] else []).

(** The engine takes the routes one by one; [None] is gin's panic. *)
Fixpoint addRoutes (have want : list (string * string)) : option (list (string * string)) :=
  match want with
  | [] => Some have
  | r :: want => if conflict have r then None else addRoutes (have ++ [r]) want
  end.

Definition setStarter (p : Starter) (s : Server) : Server :=
  mkServer (opts s) (main s) (serve s) (pprof s) (log s) (routes s) (noRoute s) (middlewares s) p (stopper s) (endpoints s).
Definition setStopper (p : Stopper) (s : Server) : Server :=
  mkServer (opts s) (main s) (serve s) (pprof s) (log s) (routes s) (noRoute s) (middlewares s) (starter s) p (endpoints s).
Definition setMain (l : Listening) (s : Server) : Server :=
  mkServer (opts s) l (serve s) (pprof s) (log s) (routes s) (noRoute s) (middlewares s) (starter s) (stopper s) (endpoints s).
Definition setServe (v : option Serving) (s : Server) : Server :=
  mkServer (opts s) (main s) v (pprof s) (log s) (routes s) (noRoute s) (middlewares s) (starter s) (stopper s) (endpoints s).
Definition setPprof (v : option (Addr * Serving)) (s : Server) : Server :=
  mkServer (opts s) (main s) (serve s) v (log s) (routes s) (noRoute s) (middlewares s) (starter s) (stopper s) (endpoints s).
Definition setLog (lg : Logger) (s : Server) : Server :=
  mkServer (opts s) (main s) (serve s) (pprof s) lg (routes s) (noRoute s) (middlewares s) (starter s) (stopper s) (endpoints s).
Definition setRoutes (l : list (string * string)) (nr : bool) (s : Server) : Server :=
  mkServer (opts s) (main s) (serve s) (pprof s) (log s) l nr (middlewares s) (starter s) (stopper s) (endpoints s).
Definition addEndpoint (e : string) (s : Server) : Server :=
  mkServer (opts s) (main s) (serve s) (pprof s) (log s) (routes s) (noRoute s) (middlewares s) (starter s) (stopper s) (endpoints s ++ [e]).

Definition tls (o : Options) : bool :=
  negb (String.eqb (Http.certFile o) EmptyString) && negb (String.eqb (Http.keyFile o) EmptyString).

(** [Start], a step per piece that another goroutine can come between. *)
Inductive start_step : Server -> Server -> Prop :=
| start_begin s :
    starter s = Idle ->
    start_step s (setStarter AtDebug (setLog (default (log s) (Http.logger (opts s))) (setServe (Some NotServing) s)))
| start_nodebug s :
    starter s = AtDebug -> Http.debug (opts s) && negb (String.eqb (Http.debugAddr (opts s)) EmptyString) = false ->
    start_step s (setStarter AtRoutes s)
| start_pprof s r a :
    starter s = AtDebug -> Http.debug (opts s) = true -> startPprof (Http.debugAddr (opts s)) r = (Some a, None) ->
    start_step s (setStarter AtRoutes (setPprof (Some (a, Serves)) s))
| start_pprof_error s r e :
    starter s = AtDebug -> Http.debug (opts s) = true -> startPprof (Http.debugAddr (opts s)) r = (None, Some e) ->
    start_step s (setStarter (Returned (Some e)) s)
| start_routes s l :
    starter s = AtRoutes -> addRoutes (routes s) (wantedRoutes (opts s)) = Some l ->
    start_step s (setStarter AtListen (setRoutes l (noRoute s) s))
| start_panic s :
    starter s = AtRoutes -> addRoutes (routes s) (wantedRoutes (opts s)) = None -> start_step s (setStarter Panicked s)
| start_listen s r l :
    starter s = AtListen -> createListener interfaces (Http.address (opts s)) r (main s) = (l, None) ->
    start_step s (setStarter AtServe (setMain l s))
| start_listen_error s r l e :
    starter s = AtListen -> createListener interfaces (Http.address (opts s)) r (main s) = (l, Some e) ->
    start_step s (setStarter (Returned (Some e)) (setMain l s))
| start_serve s :
    starter s = AtServe -> serve s = Some NotServing ->
    start_step s (setStarter InServe (setServe (Some Serves) (setRoutes (routes s) true
                   (setMain (if tls (opts s) then setScheme "https" (main s) else main s) s))))
| start_refused s :
    starter s = AtServe -> serve s = Some ShutDown ->
    start_step s (setStarter (Returned None) (setRoutes (routes s) true
                   (setMain (if tls (opts s) then setScheme "https" (main s) else main s) s)))
| start_closed s :
    starter s = InServe -> serve s = Some ShutDown -> start_step s (setStarter (Returned None) s)
(** [ServeTLS] reads the certificates before it looks at the shutdown. *)
| start_cert_error s e :
    starter s = AtServe -> tls (opts s) = true ->
    start_step s (setStarter (Returned (Some e)) (setRoutes (routes s) true (setMain (setScheme "https" (main s)) s))).

(** What the outside does: an accept fails (of a server that is shut down [Serve] returns
    [ErrServerClosed]: [start_closed]), [Endpoint] is asked, [Stop] is called and runs. *)
Inductive other_step : Server -> Server -> Prop :=
| serve_error s e :
    starter s = InServe -> serve s = Some Serves -> other_step s (setStarter (Returned (Some e)) s)
| ask_endpoint s r l e :
    Endpoint interfaces (Http.address (opts s)) r (main s) = (l, Ok e) -> other_step s (addEndpoint e (setMain l s))
| ask_endpoint_error s r l e :
    Endpoint interfaces (Http.address (opts s)) r (main s) = (l, Err e) -> other_step s (setMain l s)
| stop_pprof s :
    stopper s = NoStop ->
    other_step s (setStopper AtShutdown (setPprof (match pprof s with Some (a, _) => Some (a, ShutDown) | None => None end) s))
| stop_serve s :
    stopper s = AtShutdown ->
    other_step s (setStopper Stopped (setServe (match serve s with Some _ => Some ShutDown | None => None end) s)).

Definition step (s s' : Server) : Prop := start_step s s' \/ other_step s s'.

(** *** What holds whatever the order *)

Definition fresh (s : Server) : Prop :=
  starter s = Idle /\ stopper s = NoStop /\ serve s = None /\ pprof s = None
  /\ main s = mkListening "http" EmptyString None 0 /\ endpoints s = [] /\ noRoute s = false.

Lemma New_fresh (urlParse : string -> option URL) (httpPort : string) (cbs : list (@Http.Option Handler Logger Ctx GinOption)) (s : Server) :
  New urlParse httpPort cbs = Some s -> fresh s.
Proof. unfold New. repeat case_match; try done; by intros [= <-]. Qed.

Definition started (s : Server) : bool := match starter s with Idle => false | _ => true end.
Definition told (s : Server) (e : string) : Prop :=
  e = "http://" +:+ uriHost (main s) \/ e = "https://" +:+ uriHost (main s).

Record life_ok (s0 s : Server) : Prop := {
  ok_opts : opts s = opts s0;
  ok_main : listening_ok interfaces (Http.address (opts s)) (main s);
  ok_scheme : scheme (main s) = "http" \/ scheme (main s) = "https" /\ tls (opts s) = true;
  ok_serve : serve s = None <-> starter s = Idle;
  ok_phase : match starter s with
             | AtDebug | AtRoutes | AtListen => serve s <> Some Serves
             | AtServe => serve s <> Some Serves /\ is_Some (listener (main s))
             | InServe => serve s <> Some NotServing /\ is_Some (listener (main s))
             | _ => True
             end;
  ok_pprof : match pprof s with
             | Some (a, _) => Http.debug (opts s) = true /\ Http.debugAddr (opts s) <> EmptyString /\ refused a = false
             | None => True
             end;
  ok_told : Forall (told s) (endpoints s) /\ (endpoints s <> [] -> is_Some (listener (main s)));
}.

Lemma fresh_ok (s : Server) : fresh s -> life_ok s s.
Proof.
  intros (Hi & Hn & Hv & Hp & Hm & He & Hr). split; rewrite ?Hi, ?Hv, ?Hp, ?Hm, ?He; try done; by left.
Qed.

Lemma startPprof_Some (addr : string) (r : result error Addr) (a : Addr) :
  startPprof addr r = (Some a, None) -> addr <> EmptyString /\ refused a = false.
Proof.
  unfold startPprof. destruct (String.eqb_spec addr EmptyString); [done|]. destruct r as [a'|e]; [|done].
  destruct (refused a') eqn:Er; [done|]. by intros [= ->].
Qed.

(** A step that binds the listener or finds it bound. *)
Lemma bound_told (s : Server) (r : result error Addr) (l : Listening) (err : option error) :
  createListener interfaces (Http.address (opts s)) r (main s) = (l, err) ->
  listening_ok interfaces (Http.address (opts s)) (main s) -> Forall (told s) (endpoints s) ->
  (endpoints s <> [] -> is_Some (listener (main s))) ->
  listening_ok interfaces (Http.address (opts s)) l /\ (err = None -> is_Some (listener l)) /\ scheme l = scheme (main s)
  /\ (is_Some (listener (main s)) -> is_Some (listener l))
  /\ Forall (fun e => e = "http://" +:+ uriHost l \/ e = "https://" +:+ uriHost l) (endpoints s)
  /\ (endpoints s <> [] -> is_Some (listener l)).
Proof.
  intros Hc Hl Hf Hb. pose proof (createListener_ok interfaces (Http.address (opts s)) r (main s) Hl) as (H1 & H2 & H3).
  rewrite Hc in *. cbn [fst snd] in *. split; [done|]. split; [done|].
  assert (scheme l = scheme (main s)) as Hsc.
  { unfold createListener in Hc. repeat case_match; by injection Hc as <- <-. }
  split; [done|]. destruct (listener (main s)) as [a|] eqn:El.
  - rewrite (H3 a eq_refl), El. split; [done|]. split; [exact Hf|]. intros _. by exists a.
  - split; [by intros [? ?]|]. destruct (endpoints s) as [|e es]; [by split|]. destruct Hb as [? ?]; done.
Qed.

Lemma start_step_ok (s0 s s' : Server) : start_step s s' -> life_ok s0 s -> life_ok s0 s'.
Proof.
  intros Hs [Ho Hm Hsc Hv Hp Hpp [Ht Hb]].
  destruct Hs as [s Hi|s Hi Hd|s r a Hi Hd Hr|s r e Hi Hd Hr|s l Hi Hr|s Hi Hr|s r l Hi Hc|s r l e Hi Hc|s Hi Hsv|s Hi Hsv|s Hi Hsv|s e Hi Htls];
    rewrite Hi in *; try (destruct (bound_told _ _ _ _ Hc Hm Ht Hb) as (Hc1 & Hc2 & Hc3 & Hc4 & Hc5 & Hc6)).
  all: try (assert (serve s <> None) as Hne by (intros Hx; apply Hv in Hx; discriminate)).
  all: split; cbn; try done; try (by split); try (rewrite ?Hc3; done).
  all: try (by split; intros Hx; [by apply Hv in Hx|discriminate]).
  - destruct (startPprof_Some _ _ _ Hr). done.
  - split; [done|]. by apply Hc2.
  - by destruct (tls (opts s)).
  - destruct (tls (opts s)) eqn:Et; [by right|]. destruct Hsc as [?|[? ?]]; auto.
  - split; [done|]. destruct Hp as [_ ?]. by destruct (tls (opts s)).
  - destruct (tls (opts s)); by split.
  - by destruct (tls (opts s)).
  - destruct (tls (opts s)) eqn:Et; [by right|]. destruct Hsc as [?|[? ?]]; auto.
  - destruct (tls (opts s)); by split.
  - by right.
Qed.

Lemma other_step_ok (s0 s s' : Server) : other_step s s' -> life_ok s0 s -> life_ok s0 s'.
Proof.
  intros Hs [Ho Hm Hsc Hv Hp Hpp [Ht Hb]].
  destruct Hs as [s e Hi Hser|s r l e He|s r l e He|s Hi|s Hi].
  - rewrite Hi in *. split; cbn; try done. split; [|discriminate]. intros Hx. by apply Hv in Hx.
  - unfold Endpoint in He. destruct (createListener interfaces (Http.address (opts s)) r (main s)) as [l' [e'|]] eqn:Hc; [done|].
    injection He as -> <-. destruct (bound_told _ _ _ _ Hc Hm Ht Hb) as (Hc1 & Hc2 & Hc3 & Hc4 & Hc5 & Hc6).
    split; cbn; rewrite ?Hc3; try done.
    + destruct (starter s); try done; (split; [apply Hp|apply Hc4, Hp]).
    + split; [|intros _; by apply Hc2]. apply Forall_app. split; [exact Hc5|]. constructor; [|done]. unfold told, uriString. cbn.
      rewrite Hc3. destruct Hsc as [-> |[-> _]]; [by left|by right].
  - unfold Endpoint in He. destruct (createListener interfaces (Http.address (opts s)) r (main s)) as [l' [e'|]] eqn:Hc; [|done].
    injection He as -> <-. destruct (bound_told _ _ _ _ Hc Hm Ht Hb) as (Hc1 & Hc2 & Hc3 & Hc4 & Hc5 & Hc6).
    split; cbn; rewrite ?Hc3; try done.
    destruct (starter s); try done; (split; [apply Hp|apply Hc4, Hp]).
  - split; cbn; try done. by destruct (pprof s) as [[a v]|].
  - split; cbn; try done.
    + destruct (serve s); [|done]. split; [discriminate|]. intros Hx. by apply Hv in Hx.
    + destruct (starter s), (serve s); try done; by destruct Hp.
Qed.

Definition reachable (s0 s : Server) : Prop := rtc step s0 s.

Lemma http_reachable_ok (s0 s : Server) : fresh s0 -> reachable s0 s -> life_ok s0 s.
Proof.
  intros H0%fresh_ok Hr. revert s Hr. apply (rtc_ind_r (life_ok s0) s0 H0).
  intros x y _ [Hs|Hs] IH; [by eapply start_step_ok|by eapply other_step_ok].
Qed.

(** One listener whatever [Endpoint] and [Start] race for it, and every endpoint that
    was told, before or after the start, names its host; profiling, if it listens at
    all, was asked for with an address of its own and listens on the loopback
    interface. *)
Theorem http_listens (s0 s : Server) :
  fresh s0 -> reachable s0 s ->
  (binds (main s) <= 1)%nat
  /\ (starter s = InServe -> exists a, listener (main s) = Some a /\ uriHost (main s) = EffectiveAddr interfaces (Http.address (opts s0)) (Some a))
  /\ Forall (fun e => e = "http://" +:+ uriHost (main s) \/ e = "https://" +:+ uriHost (main s)) (endpoints s)
  /\ (forall ip port v, pprof s = Some (TCPAddr ip port, v) -> plainHost ip = true -> ip <> EmptyString ->
        loopback ip = true /\ Http.debug (opts s0) = true /\ Http.debugAddr (opts s0) <> EmptyString).
Proof.
  intros Hf Hr. destruct (http_reachable_ok s0 s Hf Hr) as [Ho Hm _ _ Hp Hpp [Ht _]]. rewrite Ho in *.
  unfold listening_ok in Hm. split; [destruct (listener (main s)); lia|]. split; [|split; [exact Ht|]].
  - intros Hi. rewrite Hi in Hp. destruct Hp as [_ [a Ha]]. rewrite Ha in Hm. exists a. by destruct Hm.
  - intros ip port v Hv Hip Hne. rewrite Hv in Hpp. destruct Hpp as (Hd & Ha & Hr'). split; [|done].
    unfold refused in Hr'. cbn [addrString] in Hr'. rewrite SplitHostPort_JoinHostPort in Hr' by (done || apply plainPort_pretty).
    destruct (String.eqb_spec ip EmptyString); [done|]. by destruct (loopback ip).
Qed.

(** *** Stop *)

Definition rank (p : Starter) : nat :=
  match p with Idle => 6 | AtDebug => 5 | AtRoutes => 4 | AtListen => 3 | AtServe => 2 | InServe => 1 | Returned _ | Panicked => 0 end.

Lemma start_step_rank (s s' : Server) : start_step s s' -> (rank (starter s') < rank (starter s))%nat.
Proof. intros Hs. destruct Hs as [s Hi|s Hi|s r a Hi|s r e Hi|s l Hi|s Hi|s r l Hi|s r l e Hi|s Hi|s Hi|s Hi|s e Hi]; cbn; rewrite Hi; cbn; lia. Qed.

Definition stopping (s : Server) : Prop := serve s = Some ShutDown /\ starter s <> Idle.

Lemma stopping_step (s s' : Server) : start_step s s' -> stopping s -> stopping s'.
Proof. intros Hs [Hv Hi]. destruct Hs; split; cbn; congruence. Qed.

Lemma start_progress (s : Server) :
  stopping s -> (exists s', start_step s s') \/ (exists e, starter s = Returned e) \/ starter s = Panicked.
Proof.
  intros [Hv Hi]. destruct (starter s) eqn:Ep; [done| | | | | |by right; left; eexists|by right; right]; left.
  - destruct (Http.debug (opts s) && negb (String.eqb (Http.debugAddr (opts s)) EmptyString)) eqn:Ed; [|eexists; by apply start_nodebug].
    apply andb_true_iff in Ed as [Ed Ea%negb_true_iff]. eexists. apply (start_pprof_error s (Err (EPlain EmptyString))); [done|done|].
    unfold startPprof. by rewrite Ea.
  - destruct (addRoutes (routes s) (wantedRoutes (opts s))) as [l|] eqn:Er; eexists; [by eapply start_routes|by apply start_panic].
  - destruct (createListener interfaces (Http.address (opts s)) (Err (EPlain EmptyString)) (main s)) as [l [e|]] eqn:Ec; eexists;
      [by eapply start_listen_error|by eapply start_listen].
  - eexists. by apply start_refused.
  - eexists. by apply start_closed.
Qed.

(** C37. [Stop] ends [Start]: once [Stop] has shut the server down, [Start] takes at most
    five more steps, is never stuck before it has returned (or gin has panicked), and
    returns nil when it was serving. *)
Theorem http_stop_ends_start (s0 s : Server) :
  fresh s0 -> reachable s0 s -> serve s = Some ShutDown ->
  (forall n s', nsteps start_step n s s' -> (n <= 5)%nat)
  /\ (forall s', rtc start_step s s' ->
        (exists s'', start_step s' s'') \/ (exists e, starter s' = Returned e) \/ starter s' = Panicked)
  /\ (starter s = InServe -> forall s', start_step s s' -> starter s' = Returned None).
Proof.
  intros Hf Hr Hv. pose proof (http_reachable_ok s0 s Hf Hr) as Hok.
  assert (stopping s) as Hs.
  { split; [done|]. intros Hi. apply (ok_serve _ _ Hok) in Hi. congruence. }
  split; [|split].
  - assert (forall n x y, nsteps start_step n x y -> (n + rank (starter y) <= rank (starter x))%nat) as Hn.
    { induction 1 as [x|n x y z Hxy _ IH]; [lia|]. apply start_step_rank in Hxy. lia. }
    intros n s' Hst. apply Hn in Hst. destruct Hs as [_ Hi]. destruct (starter s); cbn in Hst; (done || lia).
  - intros s' Hst. apply start_progress. clear Hf Hr Hv Hok. induction Hst as [|x y z Hxy _ IH]; [done|].
    by apply IH, (stopping_step x y).
  - intros Hi s' Hst. destruct Hst; try congruence. done.
Qed.

End HttpLife.

(** *** Runs *)

Notation demoOptions := (@Http.options unit unit unit unit).
Definition demoNew (cbs : list (@Http.Option unit unit unit unit)) : option (@Server unit unit unit unit) :=
  New tt (fun _ => None) "8080" cbs.

Definition noConflict : list (string * string) -> string * string -> bool :=
  fun have r => existsb (fun r' => String.eqb (fst r) (fst r') && String.eqb (snd r) (snd r')) have.

Definition bound : result error Addr := Ok (TCPAddr "127.0.0.1" 8080).

(** The server of [demoNew] with the given options, or a server without any. *)
Definition demo (cbs : list (@Http.Option unit unit unit unit)) : @Server unit unit unit unit :=
  match demoNew cbs with
  | Some s => s
  | None => mkServer (Http.defaults EmptyString) (mkListening "http" EmptyString None 0) None None tt [] false [] Idle NoStop []
  end.

Ltac start tac := eapply rtc_l; [left; tac; vm_compute; reflexivity|]; cbn.
Ltac other tac := eapply rtc_l; [right; tac; vm_compute; reflexivity|]; cbn.

Definition served : @Server unit unit unit unit :=
  setStarter InServe (setServe (Some Serves) (setRoutes [("GET", "/health"); ("GET", "/ready")] true
    (setMain (mkListening "http" "127.0.0.1:8080" (Some (TCPAddr "127.0.0.1" 8080)) 1) (demo [Http.WithEnableHealth true])))).

Lemma served_reachable : reachable (Ok []) noConflict (demo [Http.WithEnableHealth true]) served.
Proof.
  start ltac:(apply start_begin). start ltac:(apply start_nodebug).
  eapply rtc_l; [left; eapply start_routes; vm_compute; reflexivity|]. cbn.
  eapply rtc_l; [left; eapply (start_listen _ _ _ bound); vm_compute; reflexivity|]. cbn.
  eapply rtc_l; [left; apply start_serve; vm_compute; reflexivity|]. cbn. apply rtc_refl.
Qed.

Lemma demo_fresh (cbs : list (@Http.Option unit unit unit unit)) : fresh (demo cbs).
Proof. unfold demo. destruct (demoNew cbs) as [s|] eqn:E; [|done]. unfold demoNew in E. exact (New_fresh _ _ _ _ _ E). Qed.

Lemma http_listens_witness : (binds (main served) <= 1)%nat.
Proof. apply (http_listens (Ok []) noConflict (demo [Http.WithEnableHealth true]) served (demo_fresh _) served_reachable). Defined.

Definition stopped : @Server unit unit unit unit := setStopper Stopped (setServe (Some ShutDown) served).

Lemma stopped_reachable : reachable (Ok []) noConflict (demo [Http.WithEnableHealth true]) stopped.
Proof.
  unfold reachable. etrans; [exact served_reachable|].
  other ltac:(apply stop_pprof). other ltac:(apply stop_serve). apply rtc_refl.
Qed.

Lemma http_stop_ends_start_witness :
  starter stopped = InServe
  /\ forall s', start_step (Ok []) noConflict stopped s' -> starter s' = Returned None.
Proof.
  split; [reflexivity|].
  apply (http_stop_ends_start (Ok []) noConflict (demo [Http.WithEnableHealth true]) stopped (demo_fresh _) stopped_reachable);
    reflexivity.
Defined.

(** While its [http.Server] serves, [Start] waits. *)
Lemma serving_waits (s s' : @Server unit unit unit unit) : starter s = InServe -> serve s = Some Serves -> ~ start_step (Ok []) noConflict s s'.
Proof. intros Hi Hs Hst. inversion Hst; subst; congruence. Qed.

(** A [Stop] that comes before [Start] has made its [http.Server] finds nothing to
    stop; [Start] then serves for good, and whoever waits for it waits for good. *)
Example stop_too_early :
  exists s, reachable (Ok []) noConflict (demo []) s
    /\ stopper s = Stopped /\ starter s = InServe /\ serve s = Some Serves
    /\ (forall s', ~ start_step (Ok []) noConflict s s').
Proof.
  eexists. split; [|split; [|split; [|split]]].
  - other ltac:(apply stop_pprof). other ltac:(apply stop_serve).
    start ltac:(apply start_begin). start ltac:(apply start_nodebug).
    eapply rtc_l; [left; eapply start_routes; vm_compute; reflexivity|]. cbn.
    eapply rtc_l; [left; eapply (start_listen _ _ _ bound); vm_compute; reflexivity|]. cbn.
    eapply rtc_l; [left; apply start_serve; vm_compute; reflexivity|]. cbn. apply rtc_refl.
  - reflexivity.
  - reflexivity.
  - reflexivity.
  - intros s'. by apply serving_waits.
Qed.

Definition tlsOptions : list (@Http.Option unit unit unit unit) := [Http.WithCertFile "cert.pem"; Http.WithKeyFile "key.pem"].

(** The endpoint of a TLS server that is asked before the start, as [Service.build]
    does, says "http". *)
Example tls_endpoint_says_http :
  exists s, reachable (Ok []) noConflict (demo tlsOptions) s
    /\ starter s = InServe /\ uriString (main s) = "https://127.0.0.1:8080" /\ endpoints s = ["http://127.0.0.1:8080"].
Proof.
  eexists. split; [|split; [|split]].
  - eapply rtc_l; [right; eapply (ask_endpoint _ _ bound); vm_compute; reflexivity|]. cbn.
    start ltac:(apply start_begin). start ltac:(apply start_nodebug).
    eapply rtc_l; [left; eapply start_routes; vm_compute; reflexivity|]. cbn.
    eapply rtc_l; [left; eapply (start_listen _ _ _ bound); vm_compute; reflexivity|]. cbn.
    eapply rtc_l; [left; apply start_serve; vm_compute; reflexivity|]. cbn. apply rtc_refl.
  - reflexivity.
  - vm_compute. reflexivity.
  - vm_compute. reflexivity.
Qed.

(** The profiler listens although [Start] failed: nothing closes it until [Stop]. *)
Example pprof_outlives_a_failed_start (e : error) :
  exists s, reachable (Ok []) noConflict (demo [Http.WithDebug true; Http.WithDebugAddr "127.0.0.1:6060"]) s
    /\ starter s = Returned (Some e) /\ pprof s = Some (TCPAddr "127.0.0.1" 6060, Serves).
Proof.
  eexists. split; [|split].
  - start ltac:(apply start_begin).
    eapply rtc_l; [left; eapply (start_pprof _ _ _ (Ok (TCPAddr "127.0.0.1" 6060))); vm_compute; reflexivity|]. cbn.
    eapply rtc_l; [left; eapply start_routes; vm_compute; reflexivity|]. cbn.
    eapply rtc_l; [left; eapply (start_listen_error _ _ _ (Err e)); vm_compute; reflexivity|]. cbn. apply rtc_refl.
  - reflexivity.
  - vm_compute. reflexivity.
Qed.

End HttpLife.

(** ** transport/grpc *)

Module GrpcLife.
Section GrpcLife.
Variable interfaces : result error (list Interface).
Variable address : string.

(** A [grpc.Server]: new, serving, draining (no new calls, the ones in flight go on),
    stopped. *)
Inductive Phase : Type := PNew | PServing | PDraining | PStopped.

Inductive Starter : Type := Idle | AtServe | InServe | Returned (err : option error).

(** [Stop]: not called; waiting for the goroutine that stops gracefully, which has
    begun, or is through; returned. *)
Inductive Stopper : Type := NoStop | Waiting (begun done : bool) | Stopped (err : option error).

(** [inflight] counts the calls that run, [cut] those that were cut off. *)
Record Server : Type := mkServer {
  main : Listening;
  phase : Phase;
  inflight : nat;
  cut : nat;
  starter : Starter;
  stopper : Stopper;
  ctxDone : option error;
}.

Definition New : Server := mkServer (mkListening "grpc" EmptyString None 0) PNew 0 0 Idle NoStop None.

(** grpc refuses to serve once it was stopped, and says so. *)
Definition ErrServerStopped : error := EPlain "grpc: the server has been stopped".

Inductive step : Server -> Server -> Prop :=
(** [Start] *)
| start_listen s r l :
    starter s = Idle -> createListener interfaces address r (main s) = (l, None) ->
    step s (mkServer l (phase s) (inflight s) (cut s) AtServe (stopper s) (ctxDone s))
| start_listen_error s r l e :
    starter s = Idle -> createListener interfaces address r (main s) = (l, Some e) ->
    step s (mkServer l (phase s) (inflight s) (cut s) (Returned (Some e)) (stopper s) (ctxDone s))
| start_serve s :
    starter s = AtServe -> phase s = PNew ->
    step s (mkServer (main s) PServing (inflight s) (cut s) InServe (stopper s) (ctxDone s))
| start_refused s :
    starter s = AtServe -> phase s = PDraining \/ phase s = PStopped ->
    step s (mkServer (main s) (phase s) (inflight s) (cut s) (Returned (Some ErrServerStopped)) (stopper s) (ctxDone s))
| start_done s :
    starter s = InServe -> phase s = PStopped ->
    step s (mkServer (main s) (phase s) (inflight s) (cut s) (Returned None) (stopper s) (ctxDone s))
(** the calls *)
| call_begin s :
    phase s = PServing -> step s (mkServer (main s) PServing (S (inflight s)) (cut s) (starter s) (stopper s) (ctxDone s))
| call_end s n :
    inflight s = S n -> step s (mkServer (main s) (phase s) n (cut s) (starter s) (stopper s) (ctxDone s))
(** [Stop], its goroutine, and the context *)
| stop_call s :
    stopper s = NoStop ->
    step s (mkServer (main s) (phase s) (inflight s) (cut s) (starter s) (Waiting false false) (ctxDone s))
| graceful_begin s :
    stopper s = Waiting false false ->
    step s (mkServer (main s) (match phase s with PStopped => PStopped | _ => PDraining end) (inflight s) (cut s) (starter s)
              (Waiting true false) (ctxDone s))
| graceful_end s :
    stopper s = Waiting true false -> inflight s = 0%nat ->
    step s (mkServer (main s) PStopped 0 (cut s) (starter s) (Waiting true true) (ctxDone s))
| stop_graceful s :
    stopper s = Waiting true true ->
    step s (mkServer (main s) (phase s) (inflight s) (cut s) (starter s) (Stopped None) (ctxDone s))
| stop_forced s b d e :
    stopper s = Waiting b d -> ctxDone s = Some e ->
    step s (mkServer (main s) PStopped 0 (cut s + inflight s) (starter s) (Stopped (Some e)) (ctxDone s))
| ctx_fires s e :
    step s (mkServer (main s) (phase s) (inflight s) (cut s) (starter s) (stopper s) (Some e)).

Definition reachable (s : Server) : Prop := rtc step New s.

Record life_ok (s : Server) : Prop := {
  ok_main : listening_ok interfaces address (main s);
  ok_serving : starter s = InServe -> phase s <> PNew;
  ok_cut : match stopper s with Stopped (Some _) => True | _ => cut s = 0%nat end;
  ok_stopped : match stopper s with
               | Stopped _ | Waiting _ true => phase s = PStopped /\ inflight s = 0%nat
               | Waiting true false => phase s = PDraining \/ phase s = PStopped
               | _ => True
               end;
  ok_flags : stopper s <> Waiting false true;
}.

Lemma grpc_step_ok (s s' : Server) : step s s' -> life_ok s -> life_ok s'.
Proof.
  intros Hs [H1 H2 H3 H4 H5].
  destruct Hs as [s r l Hi Hc|s r l e Hi Hc|s Hi Hp|s Hi Hp|s Hi Hp|s Hp|s n Hn|s Hs|s Hs|s Hs Hn|s Hs|s b d e Hs He|s e];
    try (pose proof (createListener_ok interfaces address r (main s) H1) as (Hl & _ & _); rewrite Hc in Hl).
  all: try rewrite Hs in *.
  all: try (split; cbn; done || (by rewrite ?Hi) || congruence).
  all: split; cbn; try done; try (by rewrite ?H3); try congruence.
  all: try (destruct (stopper s) as [|[|] [|]|]; cbn in *; try done; try (destruct H4; congruence); try (split; [tauto|lia])).
  all: destruct (phase s); naive_solver.
Qed.

Lemma grpc_reachable_ok (s : Server) : reachable s -> life_ok s.
Proof.
  revert s. apply (rtc_ind_r life_ok New); [by split|]. intros x y _ Hs. by apply grpc_step_ok.
Qed.

(** [Stop] returns, and what it promises: when it returns nil, no call was cut off and
    none runs; when it returns the context's error, nothing runs either; while it waits
    it can return at once when the context is done, and as soon as no call is in flight
    in any case.  One listener, whatever races for it. *)
Theorem grpc_stop (s : Server) :
  reachable s ->
  (binds (main s) <= 1)%nat
  /\ (stopper s = Stopped None -> cut s = 0%nat /\ inflight s = 0%nat /\ phase s = PStopped)
  /\ (forall e, stopper s = Stopped (Some e) -> inflight s = 0%nat /\ phase s = PStopped)
  /\ (forall b d e, stopper s = Waiting b d -> ctxDone s = Some e -> exists s', step s s' /\ stopper s' = Stopped (Some e))
  /\ (forall b d, stopper s = Waiting b d -> inflight s = 0%nat -> exists s', rtc step s s' /\ stopper s' = Stopped None).
Proof.
  intros Hr%grpc_reachable_ok. destruct Hr as [H1 H2 H3 H4 H5].
  split; [unfold listening_ok in H1; destruct (listener (main s)); lia|].
  split; [|split; [|split]].
  - intros Hs. rewrite Hs in *. destruct H4. auto.
  - intros e Hs. rewrite Hs in *. destruct H4. auto.
  - intros b d e Hs He. eexists. split; [by eapply stop_forced|done].
  - intros b d Hs Hi.
    assert (forall x, stopper x = Waiting true true -> exists s', rtc step x s' /\ stopper s' = Stopped None) as Hdone.
    { intros x Hx. eexists. split; [by apply rtc_once, stop_graceful|done]. }
    assert (forall x, stopper x = Waiting true false -> inflight x = 0%nat -> exists s', rtc step x s' /\ stopper s' = Stopped None) as Hbegun.
    { intros x Hx Hn. edestruct (Hdone (mkServer (main x) PStopped 0 (cut x) (starter x) (Waiting true true) (ctxDone x))) as (s' & Hs' & Hst);
        [done|]. exists s'. split; [|done]. eapply rtc_l; [by apply graceful_end|done]. }
    destruct b, d; [by apply Hdone|by apply Hbegun|done|].
    edestruct Hbegun as (s' & Hs' & Hst); [| |exists s'; split; [eapply rtc_l; [by apply graceful_begin|exact Hs']|done]]; done.
Qed.

(** Once [Stop] has returned, a [Start] that serves returns nil. *)
Lemma grpc_start_ends (s : Server) (err : option error) :
  reachable s -> stopper s = Stopped err -> starter s = InServe -> exists s', step s s' /\ starter s' = Returned None.
Proof.
  intros Hr Hs Hi. destruct (grpc_reachable_ok s Hr) as [_ _ _ H4 _]. rewrite Hs in H4. destruct H4 as [Hp _].
  eexists. split; [by apply start_done|done].
Qed.

End GrpcLife.

Definition bound : result error Addr := Ok (TCPAddr "127.0.0.1" 9090).
Definition deadline : error := EPlain "context deadline exceeded".

Ltac go tac := eapply rtc_l; [tac; vm_compute; reflexivity|]; cbn.

(** A server with one call in flight that was told to stop. *)
Definition busy : Server :=
  mkServer (mkListening "grpc" "127.0.0.1:9090" (Some (TCPAddr "127.0.0.1" 9090)) 1) PDraining 1 0 InServe (Waiting true false) (Some deadline).

Lemma grpc_busy_reachable : reachable (Ok []) ":9090" busy.
Proof.
  go ltac:(eapply (start_listen _ _ _ bound)). go ltac:(apply start_serve). go ltac:(apply call_begin). go ltac:(apply stop_call).
  go ltac:(apply graceful_begin). eapply rtc_l; [apply (ctx_fires _ _ _ deadline)|]. cbn. apply rtc_refl.
Qed.

Lemma grpc_stop_witness :
  (binds (main busy) <= 1)%nat /\ exists s', step (Ok []) ":9090" busy s' /\ stopper s' = Stopped (Some deadline).
Proof.
  split; [apply (grpc_stop (Ok []) ":9090" busy grpc_busy_reachable)|].
  apply (proj1 (proj2 (proj2 (proj2 (grpc_stop (Ok []) ":9090" busy grpc_busy_reachable)))) true false deadline); reflexivity.
Defined.

(** A [Stop] before [Serve] makes [Start] fail: a service that is told to quit while it
    starts ends with an error. *)
Example stop_before_serve :
  exists s, reachable (Ok []) ":9090" s /\ stopper s = Stopped None /\ starter s = Returned (Some ErrServerStopped).
Proof.
  eexists. split; [|split].
  - go ltac:(eapply (start_listen _ _ _ bound)). go ltac:(apply stop_call). go ltac:(apply graceful_begin).
    eapply rtc_l; [apply graceful_end; reflexivity|]. cbn. go ltac:(apply stop_graceful).
    eapply rtc_l; [apply start_refused; [reflexivity|by right]|]. cbn. apply rtc_refl.
  - reflexivity.
  - reflexivity.
Qed.

End GrpcLife.

(** ** transport/cli *)

Module CliLife.
Section CliLife.
Variable interfaces : result error (list Interface).
Variable address : string.

Inductive Starter : Type := Idle | InAccept | Returned (err : option error).
Inductive Stopper : Type := NoStop | AtListener | AtConns | Stopped.

(** [accepted] are the connections whose goroutine has not yet entered them into
    [ctxMap]; [conns] those that are open. *)
Record Server : Type := mkServer {
  main : Listening;
  open : bool;
  exitFlag : bool;
  accepted : gset Z;
  ctxMap : gset Z;
  conns : gset Z;
  starter : Starter;
  stopper : Stopper;
}.

Definition New : Server := mkServer (mkListening "cli" EmptyString None 0) false false ∅ ∅ ∅ Idle NoStop.

(** The loop of [serve] after an accept that failed. *)
Definition acceptError (s : Server) (e : error) : option error := if exitFlag s then None else Some e.

(** A listener that is bound now is open. *)
Definition nowOpen (l : Listening) (s : Server) : bool :=
  match listener (main s) with Some _ => open s | None => match listener l with Some _ => true | None => false end end.

Inductive step : Server -> Server -> Prop :=
| start_listen s r l :
    starter s = Idle -> createListener interfaces address r (main s) = (l, None) ->
    step s (mkServer l (nowOpen l s) (exitFlag s) (accepted s) (ctxMap s) (conns s) InAccept (stopper s))
| start_listen_error s r l e :
    starter s = Idle -> createListener interfaces address r (main s) = (l, Some e) ->
    step s (mkServer l (nowOpen l s) (exitFlag s) (accepted s) (ctxMap s) (conns s) (Returned (Some e)) (stopper s))
| ask_endpoint s r l err :
    createListener interfaces address r (main s) = (l, err) ->
    step s (mkServer l (nowOpen l s) (exitFlag s) (accepted s) (ctxMap s) (conns s) (starter s) (stopper s))
| accept s id :
    starter s = InAccept -> open s = true -> id ∉ conns s ->
    step s (mkServer (main s) true (exitFlag s) ({[id]} ∪ accepted s) (ctxMap s) ({[id]} ∪ conns s) InAccept (stopper s))
| accept_closed s e :
    starter s = InAccept -> open s = false ->
    step s (mkServer (main s) false (exitFlag s) (accepted s) (ctxMap s) (conns s) (Returned (acceptError s e)) (stopper s))
| accept_fails s e :
    starter s = InAccept -> open s = true ->
    step s (mkServer (main s) true (exitFlag s) (accepted s) (ctxMap s) (conns s) (Returned (acceptError s e)) (stopper s))
| process_begin s id :
    id ∈ accepted s ->
    step s (mkServer (main s) (open s) (exitFlag s) (accepted s ∖ {[id]}) ({[id]} ∪ ctxMap s) (conns s) (starter s) (stopper s))
| process_end s id :
    id ∈ ctxMap s ->
    step s (mkServer (main s) (open s) (exitFlag s) (accepted s) (ctxMap s ∖ {[id]}) (conns s ∖ {[id]}) (starter s) (stopper s))
| stop_flag s :
    stopper s = NoStop ->
    step s (mkServer (main s) (open s) true (accepted s) (ctxMap s) (conns s) (starter s) AtListener)
| stop_listener s :
    stopper s = AtListener ->
    step s (mkServer (main s) false (exitFlag s) (accepted s) (ctxMap s) (conns s) (starter s) AtConns)
| stop_conns s :
    stopper s = AtConns ->
    step s (mkServer (main s) (open s) (exitFlag s) (accepted s) (ctxMap s) (conns s ∖ ctxMap s) (starter s) Stopped).

Definition reachable (s : Server) : Prop := rtc step New s.

(** A connection that is open is accounted for; once [Stop] has been called the exit is
    flagged; the listener is closed for good when it was bound before. *)
Record life_ok (s : Server) : Prop := {
  ok_main : listening_ok interfaces address (main s);
  ok_open : open s = true -> is_Some (listener (main s));
  ok_flag : stopper s <> NoStop -> exitFlag s = true;
  ok_accept : starter s = InAccept -> is_Some (listener (main s));
  ok_conns : conns s ⊆ accepted s ∪ ctxMap s;
}.

Lemma bound_open (s : Server) (r : result error Addr) (l : Listening) (err : option error) :
  createListener interfaces address r (main s) = (l, err) -> life_ok s ->
  listening_ok interfaces address l /\ (nowOpen l s = true -> is_Some (listener l))
  /\ (err = None -> is_Some (listener l)) /\ (is_Some (listener (main s)) -> is_Some (listener l)).
Proof.
  intros Hc [H1 H2 _ _ _]. pose proof (createListener_ok interfaces address r (main s) H1) as (Hl & Hs & Hk). rewrite Hc in *. cbn in *.
  split; [done|]. unfold nowOpen. destruct (listener (main s)) as [a|] eqn:El.
  - rewrite (Hk a eq_refl), El. by split_and!.
  - split_and!; [by destruct (listener l)|done|by intros [? ?]].
Qed.

Lemma cli_step_ok (s s' : Server) : step s s' -> life_ok s -> life_ok s'.
Proof.
  intros Hs Hok. pose proof Hok as [H1 H2 H3 H4 H5].
  destruct Hs as [s r l Hi Hc|s r l e Hi Hc|s r l err Hc|s id Hi Ho Hn|s e Hi Ho|s e Hi Ho|s id Hid|s id Hid|s Hs|s Hs|s Hs];
    try (destruct (bound_open _ _ _ _ Hc Hok) as (Hc1 & Hc2 & Hc3 & Hc4)); split; cbn; auto; try done.
  1-3: clear -H5; intros x Hx; specialize (H5 x); destruct (decide (x = id)); set_solver.
  - intros _. apply H3. by rewrite Hs.
  - intros _. apply H3. by rewrite Hs.
  - clear -H5. set_solver.
Qed.

Lemma cli_reachable_ok (s : Server) : reachable s -> life_ok s.
Proof. revert s. apply (rtc_ind_r life_ok New); [by split|]. intros x y _ Hs. by apply cli_step_ok. Qed.

(** [Stop], once it has closed the listener, ends [Start] with nil: no connection is
    accepted any more, and the failed accept is not an error.  When it is through, what
    is still open are connections whose goroutine had not yet entered them. *)
Theorem cli_stop (s : Server) :
  reachable s -> stopper s <> NoStop -> open s = false -> starter s = InAccept ->
  (forall s', step s s' -> conns s' ⊆ conns s /\ (starter s' = InAccept \/ starter s' = Returned None))
  /\ (exists s', step s s' /\ starter s' = Returned None)
  /\ (forall s', step s s' -> stopper s' = Stopped -> stopper s = Stopped \/ conns s' ⊆ accepted s').
Proof.
  intros Hr Hs Ho Hi. destruct (cli_reachable_ok s Hr) as [H1 H2 H3 H4 H5]. specialize (H3 Hs). split; [|split].
  - intros s' Hst. destruct Hst; try congruence; cbn; try (split; [set_solver|by auto]).
    split; [done|]. right. unfold acceptError. by rewrite H3.
  - eexists. split; [by apply (accept_closed s (EPlain EmptyString))|]. cbn. unfold acceptError. by rewrite H3.
  - intros s' Hst. destruct Hst; cbn; try (by left); try discriminate. intros _. right. set_solver.
Qed.

End CliLife.

Definition bound : result error Addr := Ok (TCPAddr "127.0.0.1" 7070).

Ltac go tac := eapply rtc_l; [tac; try (vm_compute; reflexivity); try set_solver|]; cbn.

Definition closing : Server :=
  mkServer (mkListening "cli" "127.0.0.1:7070" (Some (TCPAddr "127.0.0.1" 7070)) 1) false true ∅ ∅ ∅ InAccept AtConns.

Lemma closing_reachable : reachable (Ok []) ":7070" closing.
Proof.
  go ltac:(eapply (start_listen _ _ _ bound)). go ltac:(apply stop_flag). go ltac:(apply stop_listener). apply rtc_refl.
Qed.

Lemma cli_stop_witness : exists s', step (Ok []) ":7070" closing s' /\ starter s' = Returned None.
Proof. apply (cli_stop (Ok []) ":7070" closing closing_reachable); [discriminate|reflexivity|reflexivity]. Defined.

(** A connection accepted just before [Stop] outlives it: its goroutine enters the map
    that [Stop] has already gone through. *)
Example late_connection :
  exists s, reachable (Ok []) ":7070" s /\ stopper s = Stopped /\ 7%Z ∈ conns s /\ 7%Z ∈ ctxMap s.
Proof.
  eexists. split; [|split; [|split]].
  - go ltac:(eapply (start_listen _ _ _ bound)). eapply rtc_l; [apply (accept _ _ _ 7%Z); [reflexivity|reflexivity|set_solver]|]. cbn.
    go ltac:(apply stop_flag). go ltac:(apply stop_listener). go ltac:(apply stop_conns).
    eapply rtc_l; [apply (process_begin _ _ _ 7%Z); cbn; set_solver|]. cbn. apply rtc_refl.
  - reflexivity.
  - cbn. set_solver.
  - cbn. set_solver.
Qed.

(** A [Stop] that comes before the listener exists closes nothing, and [Start] accepts
    connections afterwards. *)
Example stop_before_listen :
  exists s, reachable (Ok []) ":7070" s /\ stopper s = Stopped /\ starter s = InAccept /\ open s = true.
Proof.
  eexists. split; [|split; [|split]].
  - go ltac:(apply stop_flag). go ltac:(apply stop_listener). go ltac:(apply stop_conns).
    go ltac:(eapply (start_listen _ _ _ bound)). apply rtc_refl.
  - reflexivity.
  - reflexivity.
  - reflexivity.
Qed.

End CliLife.
