(* ===== verification/AppBuild.v ===== *)
(** [app.go], [options.go], [types.go]: the options of a service, what it tells the
    registry about itself ([build]), and the heartbeat of its registration. *)

From Stdlib Require Import ZArith Lia String List Bool.
From stdpp Require Import base tactics list gmap strings.
From S2P Require Import Prelude GoStrings Errs NetAddr Options Lifecycle.

Local Open Scope string_scope.
Local Open Scope list_scope.

Definition second : Z := 1000000000.
Definition Minute : Z := 60 * second.

Section App.
(** What an application gives: contexts, loggers, servers and so on. *)
Context {Ctx Logger Server Scope ServiceLoader Registrar Value Tracer Metrics : Type}.

(** ** options.go *)

Record options : Type := mkOptions {
  id : string;
  name : string;
  version : string;
  metadata : gmap string string;
  ctx : option Ctx;
  logger : option Logger;
  servers : list Server;
  endpoints : list string;
  scope : option Scope;
  debug : bool;
  registrarTimeout : Z;
  registry : option Registrar;
  serviceLoader : option ServiceLoader;
  stopTimeout : Z;
  injectVars : list Value;
  tracer : option Tracer;
  metrics : option Metrics;
}.

Inductive Option : Type :=
| WithName (v : string)
| WithVersion (v : string)
| WithMetadata (m : gmap string string)
| WithServer (l : list Server)
| WithEndpoint (l : list string)
| WithLogger (lg : option Logger)
| WithScope (v : option Scope)
| WithDebug (v : bool)
| WithInjectVars (l : list Value)
| WithServiceLoader (v : option ServiceLoader)
| WithStopTimeout (t : Z)
| WithRegistrar (v : option Registrar)
| WithRegistrarTimeout (t : Z)
| WithTracer (v : option Tracer)
| WithMetrics (v : option Metrics)
| WithContext (c : option Ctx).

Definition apply (x : Option) (o : options) : options :=
  match x with
  | WithName v =>
      mkOptions (id o) v (version o) (metadata o) (ctx o) (logger o) (servers o) (endpoints o) (scope o) (debug o)
        (registrarTimeout o) (registry o) (serviceLoader o) (stopTimeout o) (injectVars o) (tracer o) (metrics o)
  | WithVersion v =>
      mkOptions (id o) (name o) v (metadata o) (ctx o) (logger o) (servers o) (endpoints o) (scope o) (debug o)
        (registrarTimeout o) (registry o) (serviceLoader o) (stopTimeout o) (injectVars o) (tracer o) (metrics o)
  | WithMetadata m =>
      mkOptions (id o) (name o) (version o) (m ∪ metadata o) (ctx o) (logger o) (servers o) (endpoints o) (scope o)
        (debug o) (registrarTimeout o) (registry o) (serviceLoader o) (stopTimeout o) (injectVars o) (tracer o)
        (metrics o)
  | WithServer l =>
      mkOptions (id o) (name o) (version o) (metadata o) (ctx o) (logger o) (servers o ++ l) (endpoints o) (scope o)
        (debug o) (registrarTimeout o) (registry o) (serviceLoader o) (stopTimeout o) (injectVars o) (tracer o)
        (metrics o)
  | WithEndpoint l =>
      mkOptions (id o) (name o) (version o) (metadata o) (ctx o) (logger o) (servers o) (endpoints o ++ l) (scope o)
        (debug o) (registrarTimeout o) (registry o) (serviceLoader o) (stopTimeout o) (injectVars o) (tracer o)
        (metrics o)
  | WithLogger lg =>
      mkOptions (id o) (name o) (version o) (metadata o) (ctx o) lg (servers o) (endpoints o) (scope o) (debug o)
        (registrarTimeout o) (registry o) (serviceLoader o) (stopTimeout o) (injectVars o) (tracer o) (metrics o)
  | WithScope v =>
      mkOptions (id o) (name o) (version o) (metadata o) (ctx o) (logger o) (servers o) (endpoints o) v (debug o)
        (registrarTimeout o) (registry o) (serviceLoader o) (stopTimeout o) (injectVars o) (tracer o) (metrics o)
  | WithDebug v =>
      mkOptions (id o) (name o) (version o) (metadata o) (ctx o) (logger o) (servers o) (endpoints o) (scope o) v
        (registrarTimeout o) (registry o) (serviceLoader o) (stopTimeout o) (injectVars o) (tracer o) (metrics o)
  | WithInjectVars l =>
      mkOptions (id o) (name o) (version o) (metadata o) (ctx o) (logger o) (servers o) (endpoints o) (scope o)
        (debug o) (registrarTimeout o) (registry o) (serviceLoader o) (stopTimeout o) (injectVars o ++ l) (tracer o)
        (metrics o)
  | WithServiceLoader v =>
      mkOptions (id o) (name o) (version o) (metadata o) (ctx o) (logger o) (servers o) (endpoints o) (scope o)
        (debug o) (registrarTimeout o) (registry o) v (stopTimeout o) (injectVars o) (tracer o) (metrics o)
  | WithStopTimeout t =>
      mkOptions (id o) (name o) (version o) (metadata o) (ctx o) (logger o) (servers o) (endpoints o) (scope o)
        (debug o) (registrarTimeout o) (registry o) (serviceLoader o) t (injectVars o) (tracer o) (metrics o)
  | WithRegistrar v =>
      mkOptions (id o) (name o) (version o) (metadata o) (ctx o) (logger o) (servers o) (endpoints o) (scope o)
        (debug o) (registrarTimeout o) v (serviceLoader o) (stopTimeout o) (injectVars o) (tracer o) (metrics o)
  | WithRegistrarTimeout t =>
      mkOptions (id o) (name o) (version o) (metadata o) (ctx o) (logger o) (servers o) (endpoints o) (scope o)
        (debug o) t (registry o) (serviceLoader o) (stopTimeout o) (injectVars o) (tracer o) (metrics o)
  | WithTracer v =>
      mkOptions (id o) (name o) (version o) (metadata o) (ctx o) (logger o) (servers o) (endpoints o) (scope o)
        (debug o) (registrarTimeout o) (registry o) (serviceLoader o) (stopTimeout o) (injectVars o) v (metrics o)
  | WithMetrics v =>
      mkOptions (id o) (name o) (version o) (metadata o) (ctx o) (logger o) (servers o) (endpoints o) (scope o)
        (debug o) (registrarTimeout o) (registry o) (serviceLoader o) (stopTimeout o) (injectVars o) (tracer o) v
  | WithContext c =>
      mkOptions (id o) (name o) (version o) (metadata o) c (logger o) (servers o) (endpoints o) (scope o) (debug o)
        (registrarTimeout o) (registry o) (serviceLoader o) (stopTimeout o) (injectVars o) (tracer o) (metrics o)
  end.

Definition WithRegistry (v : option Registrar) : Option := WithRegistrar v.

(** [strconv.ParseBool] with its error dropped. *)
Definition ParseBool (s : string) : bool := existsb (String.eqb s) ["1"; "t"; "T"; "TRUE"; "true"; "True"].

(** [New]: a fresh identifier, [AEUS_DEBUG]. *)
Definition New (uuid : string) (background : Ctx) (std : Logger) (AEUS_DEBUG : string) (cbs : list Option) : options :=
  applyAll apply cbs
    (mkOptions uuid EmptyString EmptyString ∅ (Some background) (Some std) [] [] None (ParseBool AEUS_DEBUG)
       (30 * second) None None (10 * second) [] None None).

(** ** build *)

(** [registry.Service] *)
Record Service : Type := mkService {
  svID : string; svName : string; svVersion : string; svMetadata : gmap string string; svEndpoints : list string;
}.

(** What the servers act on, and [Endpoint] of the servers that have it. *)
Context {World : Type}.
Variable asEndpointer : Server -> option (World -> World * result error string).

(** The loop over the servers: each is asked, up to the first that fails. *)
Fixpoint askEndpoints (l : list Server) (eps : list string) (w : World) : World * result error (list string) :=
  match l with
  | [] => (w, Ok eps)
  | ptr :: l =>
      match asEndpointer ptr with
      | None => askEndpoints l eps w
      | Some ask => match ask w with
                    | (w, Err e) => (w, Err e)
                    | (w, Ok uri) => askEndpoints l (eps ++ [uri]) w
                    end
      end
  end.

(** The metadata of the options is written to, not copied. *)
Definition buildMetadata (GOOS goVersion : string) (hostname : result error string) (uptime : string) (m : gmap string string) : gmap string string :=
  let m := <["os" := GOOS]> m in
  let m := <["go" := goVersion]> m in
  let m := match hostname with Ok h => <["hostname" := h]> m | Err _ => m end in
  <["uptime" := uptime]> m.

Definition build (GOOS goVersion : string) (hostname : result error string) (uptime : string) (o : options) (w : World) :
    World * result error Service :=
  match askEndpoints (servers o) (endpoints o) w with
  | (w, Err e) => (w, Err e)
  | (w, Ok eps) => (w, Ok (mkService (id o) (name o) (version o) (buildMetadata GOOS goVersion hostname uptime (metadata o)) eps))
  end.

(** The accessors before and after [Run] has set [s.service]. *)
Definition Metadata (s : option Service) : option (gmap string string) := svMetadata <$> s.
Definition Endpoint (s : option Service) : list string := match s with Some s => svEndpoints s | None => [] end.
Definition LoggerOf (std : Logger) (o : options) : Logger := default std (logger o).

(** ** The heartbeat of the registration *)

(** How often [preStart] registers again. *)
Definition heartbeatEvery (timeout : Z) : Z :=
  if (Minute <? timeout)%Z then Minute
  else if (second * 10 <? timeout)%Z then timeout - second * 5 else timeout.

(** The whole seconds of a lease. *)
Definition leaseTTL (timeout : Z) : Z := (timeout / second)%Z.

(** The goroutine: what [Register] returned first (without a lease), and at each tick
    (with one); what it recorded, and what it returned when the context ended. *)
Definition registration (recorder : bool) (first : option error) (ticks : list (option error)) : list string * option error :=
  match first with
  | Some e => ([], Some e)
  | None => (if recorder then map (fun r => match r with Some _ => "error" | None => "success" end) ticks else [], None)
  end.

(** The instants at which the lease is renewed: every [heartbeatEvery] after the start. *)
Definition tickAt (timeout : Z) (k : nat) : Z := (Z.of_nat (S k) * heartbeatEvery timeout)%Z.

(** ** Theorems *)

Lemma apply_servers (x : Option) (o : options) :
  servers (apply x o) = servers o ++ match x with WithServer l => l | _ => [] end.
Proof. destruct x; cbn; by rewrite ?app_nil_r. Qed.

(** The options of a service: servers, endpoints and values to inject add up in the order
    given; of the rest the last option decides. *)
Theorem app_options (uuid : string) (background : Ctx) (std : Logger) (env : string) (cbs : list Option) :
  let o := New uuid background std env cbs in
  id o = uuid
  /\ servers o = concat (map (fun x => match x with WithServer l => l | _ => [] end) cbs)
  /\ endpoints o = concat (map (fun x => match x with WithEndpoint l => l | _ => [] end) cbs)
  /\ injectVars o = concat (map (fun x => match x with WithInjectVars l => l | _ => [] end) cbs)
  /\ debug o = default (ParseBool env) (last (omap (fun x => match x with WithDebug v => Some v | _ => None end) cbs))
  /\ stopTimeout o = default (10 * second)%Z (last (omap (fun x => match x with WithStopTimeout t => Some t | _ => None end) cbs))
  /\ (forall k, metadata o !! k
       = last (omap (fun x => match x with WithMetadata m => m !! k | _ => None end) cbs)).
Proof.
  cbv zeta. unfold New. set (o0 := mkOptions _ _ _ _ _ _ _ _ _ _ _ _ _ _ _ _ _). split_and!.
  - rewrite (applyAll_kept apply id); [done|]. by intros [].
  - rewrite (applyAll_concat apply servers _ cbs o0 apply_servers). done.
  - erewrite (applyAll_concat apply endpoints); [done|]. intros []; intros; cbn; by rewrite ?app_nil_r.
  - erewrite (applyAll_concat apply injectVars); [done|]. intros []; intros; cbn; by rewrite ?app_nil_r.
  - erewrite (applyAll_last apply debug); [done|]. by intros [].
  - erewrite (applyAll_last apply stopTimeout); [done|]. by intros [].
  - intros k. revert o0. assert (forall o0, metadata (applyAll apply cbs o0) !! k
      = match last (omap (fun x => match x with WithMetadata m => m !! k | _ => None end) cbs) with Some v => Some v | None => metadata o0 !! k end) as H.
    { induction cbs as [|x cbs IH]; intros o0; [done|]. cbn [applyAll fold_left]. unfold applyAll in IH. rewrite IH.
      cbn [omap list_omap]. destruct (last _) as [v|] eqn:El.
      - destruct x; try (rewrite El; done). destruct (m !! k); [|by rewrite El]. by rewrite last_cons, El.
      - destruct x; try (rewrite El; done). cbn [apply metadata]. rewrite lookup_union. destruct (m !! k) eqn:Em; cbn.
        + rewrite last_cons, El. by destruct (metadata o0 !! k).
        + rewrite El. by destruct (metadata o0 !! k). }
    intros o0. rewrite H. unfold o0. cbn. by destruct (last _).
Qed.


(** The endpoints of a list of servers, asked in order. *)
Inductive asked : list Server -> World -> World -> list string -> Prop :=
| asked_nil w : asked [] w w []
| asked_skip p l w w' uris : asEndpointer p = None -> asked l w w' uris -> asked (p :: l) w w' uris
| asked_one p l ask w w1 w' uri uris :
    asEndpointer p = Some ask -> ask w = (w1, Ok uri) -> asked l w1 w' uris -> asked (p :: l) w w' (uri :: uris).

Lemma askEndpoints_spec (l : list Server) (eps : list string) (w w' : World) (r : result error (list string)) :
  askEndpoints l eps w = (w', r) ->
  match r with
  | Ok eps' => exists uris, eps' = eps ++ uris /\ asked l w w' uris
  | Err e => exists l1 p l2 ask w1 uris,
      l = l1 ++ p :: l2 /\ asked l1 w w1 uris /\ asEndpointer p = Some ask /\ ask w1 = (w', Err e)
  end.
Proof.
  revert eps w. induction l as [|p l IH]; intros eps w; cbn [askEndpoints].
  - intros [= <- <-]. exists []. split; [by rewrite app_nil_r|constructor].
  - destruct (asEndpointer p) as [ask|] eqn:Ep.
    + destruct (ask w) as [w1 [uri|e]] eqn:Ea.
      * intros H%IH. destruct r as [eps'|e].
        -- destruct H as (uris & -> & Hl). exists (uri :: uris). split; [by rewrite <- app_assoc|by eapply asked_one].
        -- destruct H as (l1 & p' & l2 & ask' & w2 & uris & -> & Hl & Hp & He).
           exists (p :: l1), p', l2, ask', w2, (uri :: uris). split; [done|]. split; [by eapply asked_one|done].
      * intros [= <- <-]. exists [], p, l, ask, w, []. split; [done|]. split; [constructor|done].
    + intros H%IH. destruct r as [eps'|e].
      * destruct H as (uris & -> & Hl). exists uris. split; [done|by apply asked_skip].
      * destruct H as (l1 & p' & l2 & ask' & w2 & uris & -> & Hl & Hp & He).
        exists (p :: l1), p', l2, ask', w2, uris. split; [done|]. split; [by apply asked_skip|done].
Qed.

(** What a service tells the registry: under its own identity, the endpoints it was
    given and then those of its servers, each asked once and in order; its metadata with
    the facts of the host written over them.  When a server has none the build fails
    with that server's error, and no server behind it is asked. *)
Theorem build_announces (GOOS goVersion : string) (hostname : result error string) (uptime : string) (o : options) (w w' : World)
    (r : result error Service) :
  build GOOS goVersion hostname uptime o w = (w', r) ->
  match r with
  | Ok svc =>
      svID svc = id o /\ svName svc = name o /\ svVersion svc = version o
      /\ (exists uris, svEndpoints svc = endpoints o ++ uris /\ asked (servers o) w w' uris)
      /\ svMetadata svc !! "os" = Some GOOS /\ svMetadata svc !! "go" = Some goVersion /\ svMetadata svc !! "uptime" = Some uptime
      /\ (forall k, k <> "os" -> k <> "go" -> k <> "hostname" -> k <> "uptime" -> svMetadata svc !! k = metadata o !! k)
  | Err e => exists l1 p l2 ask w1 uris,
      servers o = l1 ++ p :: l2 /\ asked l1 w w1 uris /\ asEndpointer p = Some ask /\ ask w1 = (w', Err e)
  end.
Proof.
  unfold build. destruct (askEndpoints (servers o) (endpoints o) w) as [w1 [eps|e]] eqn:Ea; intros [= <- <-];
    apply askEndpoints_spec in Ea; [|done]. cbn. split_and!; try done.
  - unfold buildMetadata. destruct hostname; repeat rewrite lookup_insert_ne by done; by rewrite lookup_insert_eq.
  - unfold buildMetadata. destruct hostname; repeat rewrite lookup_insert_ne by done; by rewrite lookup_insert_eq.
  - unfold buildMetadata. by rewrite lookup_insert_eq.
  - intros k H1 H2 H3 H4. unfold buildMetadata. destruct hostname; by rewrite !lookup_insert_ne.
Qed.

(** The lease of a registration does not run out between two heartbeats when the timeout
    is a whole number of seconds above ten; at ten seconds or less the heartbeat comes
    at the very instant at which the lease ends. *)
Theorem heartbeat_in_time (n : Z) (k : nat) :
  (0 < n)%Z ->
  let t := (n * second)%Z in
  (0 < heartbeatEvery t <= Minute)%Z
  /\ ((10 < n)%Z -> (tickAt t (S k) < tickAt t k + leaseTTL t * second)%Z)
  /\ ((n <= 10)%Z -> tickAt t (S k) = (tickAt t k + leaseTTL t * second)%Z).
Proof.
  intros Hn. cbv zeta. unfold leaseTTL, tickAt, heartbeatEvery, Minute, second.
  rewrite Z.div_mul by lia.
  destruct (Z.ltb_spec (60 * 1000000000) (n * 1000000000)); [lia|].
  destruct (Z.ltb_spec (1000000000 * 10) (n * 1000000000)); lia.
Qed.

End App.

(** ** Concrete services *)

Notation demoOptions := (@options unit unit nat unit unit unit unit unit unit).

(** Servers named by a number, whose listeners are in a map; the ports that can be bound. *)
Definition demoEndpoint (free : list nat) (p : nat) : option (gmap nat Listening -> gmap nat Listening * result error string) :=
  Some (fun w =>
    let l := default (mkListening "http" EmptyString None 0) (w !! p) in
    let '(l, r) := Lifecycle.Endpoint (Ok []) ":0" (if existsb (Nat.eqb p) free then Ok (TCPAddr "127.0.0.1" p) else Err (EPlain "address already in use")) l in
    (<[p := l]> w, r)).

Definition twoServers : demoOptions :=
  New "id-1" tt tt "1" [WithName "shop"; WithServer [8080%nat]; WithEndpoint ["cli://edge"]; WithServer [9090%nat];
                        WithMetadata {["os" := "mine"; "zone" := "b"]}].

Lemma build_announces_witness :
  exists svc, snd (build (demoEndpoint [8080; 9090]%nat) "linux" "go1.25" (Ok "host") "2025-01-01 00:00:00" twoServers ∅) = Ok svc
    /\ svID svc = "id-1"
    /\ svEndpoints svc = ["cli://edge"; "http://127.0.0.1:8080"; "http://127.0.0.1:9090"].
Proof.
  destruct (build (demoEndpoint [8080; 9090]%nat) "linux" "go1.25" (Ok "host") "2025-01-01 00:00:00" twoServers ∅) as [w r] eqn:E.
  pose proof (build_announces (demoEndpoint [8080; 9090]%nat) "linux" "go1.25" (Ok "host") "2025-01-01 00:00:00" twoServers ∅ w r E) as H.
  destruct r as [svc|e].
  - exists svc. split; [done|]. split; [apply H|]. vm_compute in E. injection E as <- <-. reflexivity.
  - exfalso. vm_compute in E. discriminate.
Defined.

(** A build that fails leaves the listeners of the servers asked before bound: [Run]
    returns without a stop. *)
Example failed_build_leaves_listener :
  exists w, build (demoEndpoint [8080]%nat) "linux" "go1.25" (Ok "host") "2025-01-01 00:00:00" twoServers ∅
            = (w, Err (EPlain "address already in use"))
    /\ option_map listener (w !! 8080%nat) = Some (Some (TCPAddr "127.0.0.1" 8080)).
Proof. eexists. split; vm_compute; reflexivity. Qed.

(** The system's facts overwrite what the application says. *)
Example metadata_overwritten :
  exists w svc, build (demoEndpoint [8080; 9090]%nat) "linux" "go1.25" (Err (EPlain "no name")) "2025-01-01 00:00:00" twoServers ∅ = (w, Ok svc)
    /\ svMetadata svc !! "os" = Some "linux" /\ svMetadata svc !! "zone" = Some "b" /\ svMetadata svc !! "hostname" = None.
Proof. eexists _, _. split; [vm_compute; reflexivity|]. by vm_compute. Qed.

Lemma heartbeat_in_time_witness : (tickAt (30 * second) 1 < tickAt (30 * second) 0 + leaseTTL (30 * second) * second)%Z.
Proof. apply (heartbeat_in_time 30 0); lia. Defined.
