(* ===== verification/Discovery.v ===== *)
(** [registry/etcd], [transport/grpc/resolver], [transport/grpc/client.go]: connecting to
    the registry, dialling a service by its name, and the life of a resolver: its loop,
    its watcher and the callers of its [Close], as steps. *)

From Stdlib Require Import ZArith Lia String Ascii List Bool.
From stdpp Require Import base tactics list gmap strings relations.
From S2P Require Import Prelude GoStrings GoPath Errs Registry Options.

Local Open Scope string_scope.
Local Open Scope list_scope.
Local Open Scope aeus_scope.

(** ** registry/etcd: Init, Status *)

Record ClientOptions : Type := mkClientOptions { Prefix : string; Username : string; Password : string; DialTimeout : Z }.

Inductive HealthStatus : Type := HealthUnknown | HealthOK | HealthUnavailable.

Section Etcd.

Context {Ctx Tls Client : Type}.

(** [FromContext]: the value under the key of the package, if it is one. *)
Variable FromContext : Ctx -> option ClientOptions.

Inductive tlsConfig : Type := Given (t : Tls) | SkipVerify.

(** [clientv3.Config] *)
Record Config : Type := mkConfig {
  cUsername : string; cPassword : string; cDialTimeout : Z; cTLS : option tlsConfig; cEndpoints : list string;
}.

(** [clientv3.New], and the endpoints of a client. *)
Variable newClient : Config -> result error Client.
Variable Endpoints : Client -> list string.

Record etcdRegistry : Type := mkEtcd { prefix : string; client : option Client; options : Registry.options (Tls := Tls) (Ctx := Ctx) }.

Definition New : etcdRegistry := mkEtcd EmptyString None (Registry.mkOptions None None [] 0 false).

Definition Name (e : etcdRegistry) : string := "etcd".

Definition Init (opts : list (Registry.Option (Tls := Tls) (Ctx := Ctx))) (e : etcdRegistry) : etcdRegistry * option error :=
  let o := fold_left (fun o cb => Registry.apply cb o) opts (options e) in
  let clientOpts := match Registry.Context_ o with Some ctx => FromContext ctx | None => None end in
  let pfx := match clientOpts with
             | Some c => if negb (String.eqb (Prefix c) EmptyString) then Prefix c else prefix e
             | None => prefix e
             end in
  let tls := match Registry.TLSConfig o with
             | Some t => Some (Given t)
             | None => if Registry.Secure o then Some SkipVerify else None
             end in
  let pfx := if String.eqb pfx EmptyString then "/micro/service/" else pfx in
  let cfg := mkConfig (match clientOpts with Some c => Username c | None => EmptyString end)
                      (match clientOpts with Some c => Password c | None => EmptyString end)
                      (match clientOpts with Some c => DialTimeout c | None => 0%Z end) tls (Registry.Addrs o) in
  match newClient cfg with
  | Ok c => (mkEtcd pfx (Some c) o, None)
  | Err err => (mkEtcd pfx None o, Some err)
  end.

Definition notInitialized : error := Errs.New CodeUnavailable "etcd registry not initialized".

(** [status] is what one endpoint of the client answers. *)
Definition Status (status : string -> option error) (e : etcdRegistry) : HealthStatus * option error :=
  match client e with
  | None => (HealthUnavailable, Some notInitialized)
  | Some c => match probe status (Endpoints c) with
              | (_, Some err) => (HealthUnavailable, Some err)
              | (_, None) => (HealthOK, None)
              end
  end.

Lemma probe_ok (status : string -> option error) (l : list string) :
  snd (probe status l) = None <-> forall x, In x l -> status x = None.
Proof.
  induction l as [|x l IH]; cbn [probe]; [by split|]. destruct (status x) as [err|] eqn:Ex.
  - split; [done|]. intros H. specialize (H x ltac:(by left)). congruence.
  - rewrite IH. split; [intros H y [<-|Hy]; [done|by apply H]|intros H y Hy; apply H; by right].
Qed.

(** The registry is healthy if and only if it was connected and every endpoint of its
    client answers; a status that is not healthy comes with an error. *)
Theorem Status_healthy (status : string -> option error) (e : etcdRegistry) :
  (fst (Status status e) = HealthOK <-> exists c, client e = Some c /\ forall x, In x (Endpoints c) -> status x = None)
  /\ (fst (Status status e) = HealthOK <-> snd (Status status e) = None).
Proof.
  unfold Status. destruct (client e) as [c|]; cbn; [|split; split; [done|intros (c & [=] & _)|done..]].
  pose proof (probe_ok status (Endpoints c)) as Hp. destruct (probe status (Endpoints c)) as [b [err|]]; cbn in *; (split; split; try done).
  - intros (c' & [= <-] & H). by apply Hp in H.
  - intros _. exists c. split; [done|]. by apply Hp.
Qed.

(** A connection that failed leaves no client, and is unhealthy. *)
Lemma Init_failed (opts : list (Registry.Option (Tls := Tls) (Ctx := Ctx))) (e e' : etcdRegistry) (err : error) (status : string -> option error) :
  Init opts e = (e', Some err) -> Status status e' = (HealthUnavailable, Some notInitialized).
Proof. unfold Init. destruct (newClient _); [done|]. by intros [= <- _]. Qed.

(** The key space is never the root, and a given TLS configuration is the one used. *)
Lemma Init_config (opts : list (Registry.Option (Tls := Tls) (Ctx := Ctx))) (e : etcdRegistry) :
  prefix (fst (Init opts e)) <> EmptyString.
Proof.
  unfold Init. set (pfx := match _ with Some c => _ | None => prefix e end). destruct (newClient _); cbn [fst prefix];
    destruct (String.eqb_spec pfx EmptyString); done.
Qed.

End Etcd.

(** ** transport/grpc/resolver: options *)

Section Build.

Context {Ctx Registrar Watcher : Type}.
Variable background : Ctx.

Record resolverOptions : Type := mkResolverOptions { context : Ctx; registrar : option Registrar }.

Inductive ResolverOption : Type := WithContext (ctx : Ctx) | WithRegistrar (r : option Registrar).
Definition WithRegistry (r : option Registrar) : ResolverOption := WithRegistrar r.

Definition applyResolver (x : ResolverOption) (o : resolverOptions) : resolverOptions :=
  match x with
  | WithContext ctx => mkResolverOptions ctx (registrar o)
  | WithRegistrar r => mkResolverOptions (context o) r
  end.

Definition newOptions (cbs : list ResolverOption) : resolverOptions :=
  fold_left (fun o cb => applyResolver cb o) cbs (mkResolverOptions background None).

(** [New]: a builder is its options. *)
Definition NewBuilder (cbs : list ResolverOption) : resolverOptions := newOptions cbs.
Definition Scheme (b : resolverOptions) : string := "service".

(** [Watch] of the registry, in a context for a service; [None] is the panic of a builder
    without a registry. *)
Variable Watch : Registrar -> Ctx -> string -> result error Watcher.

Definition Build (b : resolverOptions) (host : string) : option (result error Watcher) :=
  match registrar b with
  | None => None
  | Some r => Some (Watch r (context b) host)
  end.

(** ** transport/grpc: Dial *)

Context {Tls Other Conn : Type}.

Inductive Credentials : Type := NewTLS (t : Tls) | Insecure | Own (o : Other).
Inductive DialOption : Type :=
| WithResolvers (b : resolverOptions)
| WithTransportCredentials (c : Credentials)
| AnyOption (o : Other).

Variable NewClient : string -> list DialOption -> result error Conn.

Definition clientOptions : Type := GrpcClient.options (Tls := Tls) (Registrar := Registrar) (DialOption := DialOption).

Definition dialOpts (opts : clientOptions) : list DialOption :=
  (match GrpcClient.registry opts with
   | Some r => [WithResolvers (NewBuilder [WithRegistry (Some r)])]
   | None => []
   end)
  ++ [WithTransportCredentials (match GrpcClient.tls opts with Some t => NewTLS t | None => Insecure end)]
  ++ GrpcClient.dialOptions opts.

Definition Dial (target : string) (cbs : list (GrpcClient.Option (Tls := Tls) (Registrar := Registrar) (DialOption := DialOption))) : result error Conn :=
  let opts := fold_left (fun o cb => GrpcClient.apply cb o) cbs (GrpcClient.mkOptions None None []) in
  NewClient target (dialOpts opts).

(** What grpc makes of the options: the last credentials count. *)
Definition credentials (l : list DialOption) : option Credentials :=
  fold_left (fun acc o => match o with WithTransportCredentials c => Some c | _ => acc end) l None.

Definition ownCredentials (l : list DialOption) : Prop := exists c, In (WithTransportCredentials c) l.

Lemma credentials_none (l : list DialOption) (acc : option Credentials) :
  ~ ownCredentials l -> fold_left (fun acc o => match o with WithTransportCredentials c => Some c | _ => acc end) l acc = acc.
Proof.
  revert acc. induction l as [|o l IH]; intros acc H; [done|]. cbn [fold_left]. rewrite IH by (intros [c Hc]; apply H; exists c; by right).
  destruct o as [|c|]; [done| |done]. destruct H. exists c. by left.
Qed.

(** A connection is in the clear only if no TLS configuration was given, or the caller
    passed credentials of its own; a client without options of its own resolves the
    services of its registry. *)
Lemma dial_credentials (opts : clientOptions) :
  (~ ownCredentials (GrpcClient.dialOptions opts) ->
   credentials (dialOpts opts) = Some (match GrpcClient.tls opts with Some t => NewTLS t | None => Insecure end))
  /\ (forall r, GrpcClient.registry opts = Some r -> In (WithResolvers (mkResolverOptions background (Some r))) (dialOpts opts)).
Proof.
  unfold dialOpts, credentials. split.
  - intros H. rewrite !fold_left_app. cbn [fold_left]. by rewrite credentials_none.
  - intros r ->. by left.
Qed.

End Build.

(** ** The life of a resolver *)

Module Life.

(** Where the loop is: before its [select], in [Next], or ended. *)
Inductive looping : Type := AtSelect | InNext | Ended.

(** Where a caller of [Close] is: at the flag, before [close], in the watcher's [Stop]
    before its watch is closed and before its context is cancelled, or back. *)
Inductive closing : Type := AtFlag | AtClose | AtStop | AtCancel | Back.

Record state : Type := mkState {
  closeFlag : bool;
  closeChan : bool;          (* closed *)
  setupFlag : bool;
  events : nat;              (* in the channel of the watch *)
  watchClosed : bool;
  ctxDone : bool;
  loop : looping;
  closers : list closing;
  panicked : bool;           (* a second [close] of the channel *)
  answers : nat;             (* how often [Next] came back *)
}.

Definition setLoop (l : looping) (s : state) : state :=
  mkState (closeFlag s) (closeChan s) (setupFlag s) (events s) (watchClosed s) (ctxDone s) l (closers s) (panicked s) (answers s).
Definition setClosers (l : list closing) (s : state) : state :=
  mkState (closeFlag s) (closeChan s) (setupFlag s) (events s) (watchClosed s) (ctxDone s) (loop s) l (panicked s) (answers s).
Definition answered (s : state) : state :=
  mkState (closeFlag s) (closeChan s) true (events s) (watchClosed s) (ctxDone s) AtSelect (closers s) (panicked s) (S (answers s)).
Definition setFlag (s : state) : state :=
  mkState true (closeChan s) (setupFlag s) (events s) (watchClosed s) (ctxDone s) (loop s) (closers s) (panicked s) (answers s).
Definition closeIt (s : state) : state :=
  mkState (closeFlag s) true (setupFlag s) (events s) (watchClosed s) (ctxDone s) (loop s) (closers s) (panicked s || closeChan s) (answers s).
Definition closeWatch (s : state) : state :=
  mkState (closeFlag s) (closeChan s) (setupFlag s) (events s) true (ctxDone s) (loop s) (closers s) (panicked s) (answers s).
Definition cancel (s : state) : state :=
  mkState (closeFlag s) (closeChan s) (setupFlag s) (events s) (watchClosed s) true (loop s) (closers s) (panicked s) (answers s).
Definition setEvents (n : nat) (s : state) : state :=
  mkState (closeFlag s) (closeChan s) (setupFlag s) n (watchClosed s) (ctxDone s) (loop s) (closers s) (panicked s) (answers s).

(** [newResolver] over a new watcher. *)
Definition start : state := mkState false false false 0 false false AtSelect [] false 0.

(** [eventLoop]; [Next] waits when nothing is ready, and takes any case that is. *)
Inductive loop_step : state -> state -> Prop :=
| loop_exit s : loop s = AtSelect -> closeChan s = true -> loop_step s (setLoop Ended s)
| loop_go s : loop s = AtSelect -> closeChan s = false -> loop_step s (setLoop InNext s)
| loop_first s : loop s = InNext -> setupFlag s = false -> loop_step s (answered s)
| loop_event s n : loop s = InNext -> setupFlag s = true -> events s = S n -> loop_step s (answered (setEvents n s))
| loop_closed s : loop s = InNext -> setupFlag s = true -> events s = 0%nat -> watchClosed s = true -> loop_step s (answered s)
| loop_ctx s : loop s = InNext -> setupFlag s = true -> ctxDone s = true -> loop_step s (answered s).

(** One step of one caller of [Close]. *)
Definition closeStep (c : closing) (s : state) : state * closing :=
  match c with
  | AtFlag => if closeFlag s then (s, Back) else (setFlag s, AtClose)
  | AtClose => (closeIt s, AtStop)
  | AtStop => (closeWatch s, AtCancel)
  | AtCancel => (cancel s, Back)
  | Back => (s, Back)
  end.

Inductive step : state -> state -> Prop :=
| step_loop s s' : loop_step s s' -> step s s'
| step_event s : watchClosed s = false -> step s (setEvents (S (events s)) s)
| step_lost s : step s (closeWatch s)       (* the client closes the watch by itself *)
| step_close s : step s (setClosers (closers s ++ [AtFlag]) s)
| step_closer s l c r : closers s = l ++ c :: r ->
    step s (setClosers (l ++ snd (closeStep c s) :: r) (fst (closeStep c s))).

Definition reachable (s : state) : Prop := rtc step start s.

(** *** The channel is closed once *)

Definition isAtClose (c : closing) : bool := match c with AtClose => true | _ => false end.
Definition one (b : bool) : nat := if b then 1%nat else 0%nat.
Definition winners (l : list closing) : nat := length (List.filter isAtClose l).

(** Whoever won the flag is before the [close], or has done it. *)
Record life_ok (s : state) : Prop := {
  ok_winner : (winners (closers s) + one (closeChan s) = one (closeFlag s))%nat;
  ok_panic : panicked s = false;
}.

Lemma winners_app (l r : list closing) : winners (l ++ r) = (winners l + winners r)%nat.
Proof. unfold winners. by rewrite List.filter_app, length_app. Qed.

Lemma winners_cons (c : closing) (l : list closing) : winners (c :: l) = (one (isAtClose c) + winners l)%nat.
Proof. unfold winners. cbn. by destruct (isAtClose c). Qed.

Lemma loop_step_close (s s' : state) : loop_step s s' -> closeFlag s' = closeFlag s /\ closeChan s' = closeChan s /\ closers s' = closers s /\ panicked s' = panicked s.
Proof. by intros []. Qed.

Lemma life_step_ok (s s' : state) : step s s' -> life_ok s -> life_ok s'.
Proof.
  intros Hs [H1 H2]. destruct Hs as [s s' Hl|s _|s|s|s l c r Hc].
  - destruct (loop_step_close _ _ Hl) as (E1 & E2 & E3 & E4). split; [by rewrite E1, E2, E3|by rewrite E4].
  - by split.
  - by split.
  - split; [|done]. cbn [setClosers closers closeChan closeFlag]. by rewrite winners_app, Nat.add_0_r.
  - rewrite Hc, winners_app, winners_cons in H1.
    destruct c, (closeFlag s) eqn:Ef, (closeChan s) eqn:Ec; cbn [closeStep isAtClose one] in *; rewrite ?Ef; cbn [fst snd]; split;
      cbn [setClosers setFlag closeIt closeWatch cancel closers closeFlag closeChan panicked]; rewrite ?winners_app, ?winners_cons, ?Ef, ?Ec, ?H2; cbn [isAtClose one];
      done || lia.
Qed.

Lemma life_reachable_ok (s : state) : reachable s -> life_ok s.
Proof. intros Hr. unfold reachable in Hr. apply (rtc_ind_r life_ok start) in Hr; [done|by split|]. intros x y _. apply life_step_ok. Qed.

(** *** The loop ends *)

(** How far the loop is from its end once the resolver is closed. *)
Definition toEnd (s : state) : nat := match loop s with InNext => 2 | AtSelect => 1 | Ended => 0 end.

(** The resolver is closed: its channel, and the context of its watcher. *)
Definition closedDown (s : state) : Prop := closeChan s = true /\ ctxDone s = true.

(** What whoever won the flag has done so far, by where it is. *)
Definition wonBy (s : state) (c : closing) : Prop :=
  match c with AtClose => True | AtStop | AtCancel => closeChan s = true | _ => False end.

(** A caller past the flag means that the flag is set; a set flag, that the winner is on
    its way or the resolver is closed. *)
Record closer_ok (s : state) : Prop := {
  ok_past : forall c, In c (closers s) -> c <> AtFlag -> closeFlag s = true;
  ok_done : closeFlag s = true -> closedDown s \/ exists c, In c (closers s) /\ wonBy s c;
}.

Lemma closer_ok_mono (s s' : state) :
  closers s' = closers s -> closeFlag s' = closeFlag s -> closeChan s' = closeChan s -> ctxDone s' = ctxDone s ->
  closer_ok s -> closer_ok s'.
Proof.
  intros E1 E2 E3 E4 [H1 H2]. split; [by rewrite E1, E2|]. rewrite E1, E2. unfold closedDown, wonBy in *. by rewrite E3, E4.
Qed.

(** A caller's step closes nothing again and opens nothing. *)
Lemma closeStep_mono (c : closing) (s : state) :
  (closeFlag s = true -> closeFlag (fst (closeStep c s)) = true)
  /\ (closeChan s = true -> closeChan (fst (closeStep c s)) = true)
  /\ (ctxDone s = true -> ctxDone (fst (closeStep c s)) = true)
  /\ loop (fst (closeStep c s)) = loop s.
Proof. destruct c; cbn; try done. by destruct (closeFlag s) eqn:E. Qed.

Lemma closer_step_ok (s s' : state) : step s s' -> closer_ok s -> closer_ok s'.
Proof.
  intros Hs Hok. destruct Hs as [s s' Hl|s _|s|s|s l c r Hc].
  - apply (closer_ok_mono s); try done; by destruct Hl.
  - by apply (closer_ok_mono s).
  - by apply (closer_ok_mono s).
  - destruct Hok as [H1 H2]. split; cbn [setClosers closers closeFlag].
    + intros c [Hin|[<-|[]]]%in_app_iff Hne; [by apply (H1 c)|done].
    + intros [Hd|(c & Hin & Hw)]%H2; [by left|right]. exists c. split; [apply in_app_iff; by left|done].
  - destruct Hok as [H1 H2]. rewrite Hc in H1, H2. destruct (closeStep_mono c s) as (Mf & Mc & Mx & _).
    assert (c <> AtFlag -> closeFlag s = true) as Hflag by (apply H1, in_app_iff; right; by left).
    split; cbn [setClosers closers closeFlag].
    + intros c' [Hin|[<-|Hin]]%in_app_iff Hne.
      * apply Mf, (H1 c'); [apply in_app_iff; by left|done].
      * destruct c; cbn in *; try (by apply Hflag). by destruct (closeFlag s) eqn:Ef.
      * apply Mf, (H1 c'); [apply in_app_iff; right; by right|done].
    + intros _. change (closedDown (fst (closeStep c s)) \/ exists c0, In c0 (l ++ snd (closeStep c s) :: r) /\ wonBy (fst (closeStep c s)) c0).
      assert (forall c', wonBy s c' -> wonBy (fst (closeStep c s)) c') as Mw by (intros []; cbn [wonBy]; auto).
      destruct c; cbn [closeStep fst snd] in *.
      * destruct (closeFlag s) eqn:Ef; cbn [fst snd] in *.
        -- destruct (H2 eq_refl) as [Hd|(c & Hin & Hw)]; [by left|right]. exists c. split; [|done].
           apply in_app_iff in Hin as [Hin|[<-|Hin]]; [apply in_app_iff; by left|done|apply in_app_iff; right; by right].
        -- right. exists AtClose. split; [apply in_app_iff; right; by left|done].
      * right. exists AtStop. split; [apply in_app_iff; right; by left|done].
      * destruct (H2 (Hflag ltac:(done))) as [[Hd1 Hd2]|(c & Hin & Hw)]; [by left|right].
        apply in_app_iff in Hin as [Hin|[<-|Hin]]; [exists c|exists AtCancel|exists c]; (split; [apply in_app_iff|by apply Mw]);
          [by left|right; by left|right; by right].
      * destruct (H2 (Hflag ltac:(done))) as [[Hd1 Hd2]|(c & Hin & Hw)]; [by left|].
        apply in_app_iff in Hin as [Hin|[<-|Hin]]; [right; exists c|left; by split|right; exists c]; (split; [apply in_app_iff|by apply Mw]);
          [by left|right; by right].
      * destruct (H2 (Hflag ltac:(done))) as [Hd|Hw]; [by left|by right].
Qed.

Lemma closer_reachable_ok (s : state) : reachable s -> closer_ok s.
Proof. intros Hr. unfold reachable in Hr. apply (rtc_ind_r closer_ok start) in Hr; [done|by split|]. intros x y _. apply closer_step_ok. Qed.


(** A watch that ends by itself is not set up again: the loop goes round without waiting
    and learns nothing more, until someone closes the resolver. *)
Theorem lost_watch_spins (s : state) :
  loop s = AtSelect -> closeChan s = false -> setupFlag s = true -> events s = 0%nat -> watchClosed s = true ->
  exists s1 s2, loop_step s s1 /\ loop_step s1 s2 /\ loop s2 = AtSelect /\ closeChan s2 = false /\ setupFlag s2 = true
  /\ events s2 = 0%nat /\ watchClosed s2 = true /\ answers s2 = S (answers s).
Proof.
  intros Hl Hc Hs He Hw. exists (setLoop InNext s), (answered (setLoop InNext s)).
  split; [by apply loop_go|]. split; [by apply loop_closed|]. done.
Qed.

(** Two callers close a resolver whose loop is in [Next]. *)
Definition busy : state := mkState false false true 0 false false InNext [AtFlag; AtFlag] false 1.

Lemma busy_reachable : reachable busy.
Proof.
  unfold reachable, busy. eapply rtc_l; [apply step_loop, loop_go; reflexivity|]. eapply rtc_l; [apply step_loop, loop_first; reflexivity|].
  eapply rtc_l; [apply step_loop, loop_go; reflexivity|]. eapply rtc_l; [apply step_close|]. eapply rtc_l; [apply step_close|]. apply rtc_refl.
Qed.

Definition closed : state := mkState true true true 0 true true InNext [Back; Back] false 1.


Lemma lost_watch_spins_witness :
  exists s1 s2, loop_step (mkState false false true 0 true false AtSelect [] false 1) s1 /\ loop_step s1 s2 /\ answers s2 = 2%nat.
Proof.
  destruct (lost_watch_spins (mkState false false true 0 true false AtSelect [] false 1) eq_refl eq_refl eq_refl eq_refl eq_refl)
    as (s1 & s2 & H1 & H2 & _ & _ & _ & _ & _ & H3). by exists s1, s2.
Defined.

End Life.
