(* ===== verification/Announce.v ===== *)
(** From an application to its clients: what [app.go] announces, [registry/etcd] keeps and
    the resolver of [transport/grpc] dials. *)

From Stdlib Require Import ZArith Lia String Ascii List Bool.
From stdpp Require Import base tactics list gmap strings.
From S2P Require Import Prelude GoStrings GoPath Errs Registry Resolver NetAddr Options Lifecycle AppBuild.

Local Open Scope string_scope.
Local Open Scope list_scope.

Section Announce.

Context {Ctx Logger Server Scope ServiceLoader Registrar Value Tracer Metrics World : Type}.
Variable asEndpointer : Server -> option (World -> World * result error string).
Context {E : Type} `{EtcdLaws E}.
Variable Marshal : Registry.Service -> result error string.
Variable Unmarshal : string -> result error Registry.Service.
Variable isLeaseNotFound : error -> bool.
Hypothesis Unmarshal_Marshal : forall s b, Marshal s = Ok b -> Unmarshal b = Ok s.
Hypothesis Marshal_total : forall s, exists b, Marshal s = Ok b.
Variable urlHost : string -> option string.

(** The [registry.Service] that [build] made. *)
Definition published (svc : AppBuild.Service) : Registry.Service :=
  Registry.mkService (svID svc) (svName svc) (svVersion svc) (map_to_list (svMetadata svc)) (svEndpoints svc).

Lemma first_registration (s : Registry.Service) (r r' : etcdRegistry) (d : gmap (string * string) Registry.Service) :
  implements Marshal r d -> wellNamed s -> Register Marshal isLeaseNotFound s 0 r = (r', None) -> implements Marshal r' (<[idOf s := s]> d).
Proof. intros Hi Hw. unfold Register. cbn. intros Hp. by eapply putService_implements. Qed.

(** C25. An application is built and registers itself: after the next event of its watcher a
    client of its name dials every grpc endpoint of its servers; if no other instance of
    the name is registered, it dials nothing else than the grpc endpoints that were given
    to the application and those of its servers. *)
Theorem announced_is_dialled (GOOS goVersion : string) (hostname : result error string) (uptime : string)
    (o : @options Ctx Logger Server Scope ServiceLoader Registrar Value Tracer Metrics) (w w' : World) (svc : AppBuild.Service)
    (r r' : etcdRegistry) (d : gmap (string * string) Registry.Service) (kvs : list (string * string)) (addrs : list string) :
  build asEndpointer GOOS goVersion hostname uptime o w = (w', Ok svc) ->
  implements Marshal r d -> plain (name o) -> plain (id o) ->
  Register Marshal isLeaseNotFound (published svc) 0 r = (r', None) ->
  GetPrefix (prefixKey (rgPrefix r') (name o)) (rgStore r') = Ok kvs ->
  let after := eventLoop urlHost [snd (Next Unmarshal (name o) true WatchOk r')] addrs in
  exists uris, asked asEndpointer (servers o) w w' uris
  /\ (forall uri host, In uri (endpoints o ++ uris) -> HasPrefix uri "grpc://" = true -> urlHost uri = Some host -> In host after)
  /\ ((forall s, d !! idOf s = Some s -> sName s = name o -> sID s = id o) ->
      forall host, In host after -> exists uri, In uri (endpoints o ++ uris) /\ HasPrefix uri "grpc://" = true /\ urlHost uri = Some host).
Proof.
  unfold build. destruct (askEndpoints asEndpointer (servers o) (endpoints o) w) as [w1 [eps|e]] eqn:Ea; [|done]. intros [= <- <-] Hd Hn Hi Hreg Hget.
  apply askEndpoints_spec in Ea as (uris & -> & Hask). exists uris. split; [done|].
  set (s := published _) in *. assert (sName s = name o /\ sID s = id o /\ sEndpoints s = endpoints o ++ uris) as (Hsn & Hsi & Hse) by done.
  assert (wellNamed s) as Hw by (split; [by rewrite Hsn|by rewrite Hsi]).
  pose proof (first_registration s r r' d Hd Hw Hreg) as Hd'.
  destruct (resolver_addresses urlHost Marshal Unmarshal Unmarshal_Marshal Marshal_total r' _ (name o) addrs kvs Hd' Hn Hget) as [Hall _].
  assert (<[idOf s := s]> d !! idOf s = Some s) as Hs by (by rewrite lookup_insert_eq).
  specialize (Hall (ex_intro _ s (conj Hs Hsn))). split.
  - intros uri host Hu Hp Hh. apply Hall. exists s, uri. by rewrite Hse.
  - intros Honly host Hh. apply Hall in Hh as (s' & uri & Hl & Hn' & Hu & Hp & Hh). exists uri. split; [|done].
    destruct (decide (idOf s' = idOf s)) as [He|He].
    + rewrite He, lookup_insert_eq in Hl. injection Hl as <-. by rewrite <- Hse.
    + rewrite lookup_insert_ne in Hl by done. destruct He. unfold idOf. by rewrite (Honly s' Hl Hn'), Hn', Hsn, Hsi.
Qed.

End Announce.

(** A gRPC server on a port of its own: its listener is bound when it is asked. *)
Definition grpcEndpoint (p : nat) : option (gmap nat Listening -> gmap nat Listening * result error string) :=
  Some (fun w =>
    let l := default (mkListening "grpc" EmptyString None 0) (w !! p) in
    let '(l, r) := Lifecycle.Endpoint (Ok []) ":0" (Ok (TCPAddr "127.0.0.1" p)) l in (<[p := l]> w, r)).

Definition demoApp : demoOptions := New "id-1" tt tt "1" [WithName "shop"; WithServer [9090%nat; 9091%nat]; WithEndpoint ["cli://edge"]].

Definition demoBuilt : gmap nat Listening * result error AppBuild.Service :=
  build grpcEndpoint "linux" "go1.25" (Ok "host") "2025-01-01 00:00:00" demoApp ∅.

Definition demoHost (uri : string) : option string := Some (TrimPrefix uri "grpc://").

Lemma announced_is_dialled_witness :
  exists svc uris, snd demoBuilt = Ok svc /\ asked grpcEndpoint (servers demoApp) ∅ (fst demoBuilt) uris /\
  let r' := fst (Register demoEncode (fun _ => true) (published svc) 0 emptyRegistry) in
  forall host, In host (eventLoop demoHost [snd (Next demoDecode "shop" true WatchOk r')] []) ->
    exists uri, In uri ("cli://edge" :: uris) /\ HasPrefix uri "grpc://" = true /\ demoHost uri = Some host.
Proof.
  destruct demoBuilt as [w' [svc|e]] eqn:E; [|by vm_compute in E].
  destruct (announced_is_dialled grpcEndpoint demoEncode demoDecode (fun _ => true) demoDecode_Encode (fun s => ex_intro _ _ eq_refl) demoHost
              "linux" "go1.25" (Ok "host") "2025-01-01 00:00:00" demoApp ∅ w' svc emptyRegistry
              (fst (Register demoEncode (fun _ => true) (published svc) 0 emptyRegistry)) ∅ _ [] E empty_implements
              ltac:(repeat split; discriminate) ltac:(repeat split; discriminate) eq_refl eq_refl) as (uris & Hask & _ & Honly).
  exists svc, uris. split; [done|]. split; [exact Hask|]. cbv zeta. apply Honly. intros s Hl. rewrite lookup_empty in Hl. discriminate Hl.
Defined.

(** What the client dials. *)
Example announced_demo :
  exists svc, snd demoBuilt = Ok svc /\
  eventLoop demoHost [snd (Next demoDecode "shop" true WatchOk (fst (Register demoEncode (fun _ => true) (published svc) 0 emptyRegistry)))] []
  = ["127.0.0.1:9090"; "127.0.0.1:9091"].
Proof. eexists. split; [vm_compute; reflexivity|]. vm_compute. reflexivity. Qed.
