(* ===== verification/Cache.v ===== *)
(** [infra/cache]: the interface [Cache] as its clients see it, and its in-memory
    implementation [infra/cache/memory].  Values are immutable here; [MemCache] has the
    same operations over values that share memory and shows that, copied with [clone],
    they behave as these do.

    Instants are nanoseconds of the Unix clock; every operation that reads the
    clock is given the reading. *)

From Stdlib Require Import ZArith Lia String Ascii List Bool.
From stdpp Require Import base tactics list gmap strings.
From S2P Require Import Prelude GoStrings Errs.

Local Open Scope string_scope.
Local Open Scope list_scope.
Local Open Scope Z_scope.

(** ** The interface *)

(** A backend [C] that holds values of type [V] (the type a client always loads
    and stores).  [Load] is given the clock; [Store] the time to live; either may
    fail when the backend is down. *)
Class Cache (V C : Type) : Type := {
  Load : Z -> string -> C -> result error V;
  Store : Z -> string -> V -> Z -> C -> C * option error;
  Delete : string -> C -> C * option error;
}.

(** What every client relies on: a value that is loaded was there before, or is
    the one just stored under that key, not past its time to live.  A backend may
    lose entries and may fail. *)
Class LawfulCache (V C : Type) `{Cache V C} : Prop := {
  load_store t t' k k' v d c e :
    Load t' k' (fst (Store t k v d c)) = Ok e ->
    (k' = k /\ e = v /\ (0 <= t -> 0 < d -> t' <= t + d)) \/ Load t' k' c = Ok e;
  load_delete t' k k' c e :
    Load t' k' (fst (Delete k c)) = Ok e -> Load t' k' c = Ok e;
}.

(** ** The in-memory cache *)

Section Memory.

Context {V : Type}.

Definition DefaultExpiration : Z := 0.
Definition NoExpiration : Z := -1.

Record Item : Type := mkItem { ItemValue : V; Expiration : Z }.

(** The default expiration of the options and the items. *)
Record memCache : Type := mkMemCache { optExpiration : Z; items : gmap string Item }.

Definition Expired (now : Z) (i : Item) : bool :=
  if Expiration i =? 0 then false else (Expiration i <? now).

(** [None] is no item, [Some false] an item that has expired. *)
Definition memExists (now : Z) (key : string) (c : memCache) : bool :=
  match items c !! key with
  | None => false
  | Some item => negb (Expired now item)
  end.

Definition memLoad (now : Z) (key : string) (c : memCache) : result error V :=
  match items c !! key with
  | None => Err (ESentinel CacheErrNotFound)
  | Some item => if Expired now item then Err (ESentinel CacheErrNotFound) else Ok (ItemValue item)
  end.

Definition memStore (now : Z) (key : string) (val : V) (d : Z) (c : memCache) : memCache * option error :=
  let d := if d =? DefaultExpiration then optExpiration c else d in
  let e := if 0 <? d then now + d else 0 in
  (mkMemCache (optExpiration c) (<[key := mkItem val e]> (items c)), None).

Definition memDelete (key : string) (c : memCache) : memCache * option error :=
  (mkMemCache (optExpiration c) (delete key (items c)), None).

Definition NewCache (expiration : Z) (given : gmap string Item) : memCache := mkMemCache expiration given.

#[export] Instance memCache_cache : Cache V memCache := {|
  Load := memLoad; Store := memStore; Delete := memDelete;
|}.

#[export] Instance memCache_lawful : LawfulCache V memCache.
Proof.
  split; cbn.
  - intros t t' k k' v d c e. unfold memLoad, memStore. cbn [items fst].
    destruct (decide (k = k')) as [->|Hne].
    + rewrite lookup_insert_eq. unfold Expired. cbn [Expiration ItemValue]. intros Hl. left.
      destruct (Z.eqb_spec d DefaultExpiration) as [->|]; [repeat case_match; simplify_eq; by repeat split|].
      repeat case_match; simplify_eq; repeat split; lia.
    + rewrite lookup_insert_ne by done. by right.
  - intros t' k k' c e. unfold memLoad, memDelete. cbn [items fst].
    destruct (decide (k = k')) as [->|Hne]; [by rewrite lookup_delete_eq|by rewrite lookup_delete_ne].
Qed.

(** What a stored value's life is: it is loaded at every instant up to its expiry
    and at none after; with no positive time to live it never expires. *)
Lemma memLoad_memStore (now t d : Z) (key : string) (v : V) (c : memCache) :
  0 <= now ->
  let ttl := if d =? DefaultExpiration then optExpiration c else d in
  memLoad t key (fst (memStore now key v d c))
  = if 0 <? ttl then (if t <=? now + ttl then Ok v else Err (ESentinel CacheErrNotFound)) else Ok v.
Proof.
  intros Hn ttl. unfold memLoad, memStore. cbn [items fst]. fold ttl. rewrite lookup_insert_eq.
  unfold Expired. cbn [Expiration ItemValue].
  destruct (Z.ltb_spec 0 ttl); [|done].
  destruct (Z.eqb_spec (now + ttl) 0); [lia|].
  destruct (Z.ltb_spec (now + ttl) t), (Z.leb_spec t (now + ttl)); done || lia.
Qed.

(** Other keys are not touched. *)
Lemma memLoad_other (now t d : Z) (key key' : string) (v : V) (c : memCache) :
  key' <> key ->
  memLoad t key' (fst (memStore now key v d c)) = memLoad t key' c
  /\ memLoad t key' (fst (memDelete key c)) = memLoad t key' c.
Proof.
  intros Hne. unfold memLoad, memStore, memDelete. cbn [items fst].
  by rewrite lookup_insert_ne, lookup_delete_ne.
Qed.

End Memory.

Arguments memCache : clear implicits.
Arguments Item : clear implicits.
