(* ===== verification/RedisCache.v ===== *)
(** [infra/cache/redis] and the generic half of [infra/cache/cache.go]: a cache whose
    entries are texts on a Redis server, the interface it shares with the in-memory
    cache, and the typed view of either. *)

From Stdlib Require Import ZArith Lia String Ascii List Bool.
From stdpp Require Import base tactics list gmap strings.
From S2P Require Import Prelude GoStrings Errs Options Cache.

Local Open Scope string_scope.
Local Open Scope list_scope.
Local Open Scope Z_scope.

(** ** The interface [Cache], and [TypedCache] *)

(** [Load] decodes into a value that the caller gives; what is left in it is part of the
    result, also when it fails. *)
Class Backend (V C : Type) : Type := {
  LoadInto : Z -> string -> V -> C -> V * option error;
  ExistsIn : Z -> string -> C -> bool * option error;
  StoreIn : Z -> string -> V -> Z -> C -> C * option error;
  DeleteFrom : string -> C -> C * option error;
  Name : C -> string;
}.

Section Typed.
Context {V C : Type} `{HB : Backend V C}.
Variable zero : V.

Definition typedLoad (now : Z) (key : string) (c : C) : V * option error :=
  match LoadInto now key zero c with
  | (result, Some err) => (result, Some err)
  | (result, None) => (result, None)
  end.
Definition typedExists (now : Z) (key : string) (c : C) : bool * option error := ExistsIn now key c.
Definition typedStore (now : Z) (key : string) (val : V) (d : Z) (c : C) : C * option error := StoreIn now key val d c.
Definition typedDelete (key : string) (c : C) : C * option error := DeleteFrom key c.
Definition typedString (c : C) : string := Name c.
End Typed.

(** The in-memory cache assigns to the value it is given. *)
#[export] Instance memory_backend {V : Type} : Backend V (memCache V) := {|
  LoadInto := fun now key val c => match memLoad now key c with Ok v => (v, None) | Err e => (val, Some e) end;
  ExistsIn := fun now key c => (memExists now key c, None);
  StoreIn := memStore;
  DeleteFrom := memDelete;
  Name := fun _ => "memory";
|}.

(** ** The Redis client *)

(** The four commands, at the time they are answered; [Err None] is [redis.Nil]. *)
Class Redis (S : Type) : Type := {
  Get : Z -> string -> S -> result (option error) string;
  Exists_ : Z -> string -> S -> result error Z;
  Set_ : Z -> string -> string -> Z -> S -> S * option error;
  Del : string -> S -> S * option error;
}.

Definition Millisecond : Z := 1000000.

(** [redis.KeepTTL]: a time to live of -1 keeps the one the key has. *)
Definition KeepTTL : Z := -1.

(** What the server promises of a key that nobody else writes: a SET that succeeded is
    what is read, until the time to live is over; one that failed may or may not have
    been done; other keys are not touched; a DEL removes. *)
Class RedisLaws (S : Type) `{Redis S} : Prop := {
  get_set t t' k b d s b' : snd (Set_ t k b d s) = None -> Get t' k (fst (Set_ t k b d s)) = Ok b' -> b' = b;
  get_set_expired t t' k b d s b' :
    Millisecond <= d -> Get t' k (fst (Set_ t k b d s)) = Ok b' -> b' <> b \/ t' <= t + d \/ Get t' k s = Ok b';
  get_set_failed t t' k b d s b' : Get t' k (fst (Set_ t k b d s)) = Ok b' -> b' = b \/ Get t' k s = Ok b';
  get_set_other t t' k k' b d s : k' <> k -> Get t' k' (fst (Set_ t k b d s)) = Get t' k' s;
  get_del t' k s b : snd (Del k s) = None -> Get t' k (fst (Del k s)) <> Ok b;
  get_del_other t' k k' s : k' <> k -> Get t' k' (fst (Del k s)) = Get t' k' s;
  get_del_failed t' k s b : Get t' k (fst (Del k s)) = Ok b -> Get t' k s = Ok b;
}.

(** ** The cache *)

Section RedisCache.
Context {V S : Type} `{HR : Redis S} `{HRL : !RedisLaws S}.

(** [json.Marshal]; [json.Unmarshal], which leaves what the text does not speak of. *)
Variable Marshal : V -> result error string.
Variable Unmarshal : string -> V -> V * option error.

Record redisCache : Type := mkRedis { prefix : string; client : S }.

(** The options: the prefix, and the application whose name goes before it. *)
Inductive Option : Type := WithClient (c : S) | WithContext (appName : option string) | WithPrefix (p : string).

Record options : Type := mkOptions { optContext : option string; optClient : option S; optPrefix : string }.

Definition apply (x : Option) (o : options) : options :=
  match x with
  | WithClient c => mkOptions (optContext o) (Some c) (optPrefix o)
  | WithContext a => mkOptions a (optClient o) (optPrefix o)
  | WithPrefix p => mkOptions (optContext o) (optClient o) p
  end.

Definition newOptions (cbs : list Option) : options := applyAll apply cbs (mkOptions None None "cache:").

Definition NewCache (cbs : list Option) : string * option S :=
  let o := newOptions cbs in
  (match optContext o with Some app => app +:+ ":" +:+ optPrefix o | None => optPrefix o end, optClient o).

Definition buildKey (c : redisCache) (key : string) : string := prefix c +:+ key.

Definition redisLoad (now : Z) (key : string) (val : V) (c : redisCache) : V * option error :=
  match Get now (buildKey c key) (client c) with
  | Err None => (val, Some (ESentinel CacheErrNotFound))
  | Err (Some err) => (val, Some err)
  | Ok buf => Unmarshal buf val
  end.

Definition redisExists (now : Z) (key : string) (c : redisCache) : bool * option error :=
  match Exists_ now (buildKey c key) (client c) with
  | Ok n => (0 <? n, None)
  | Err err => (false, Some err)
  end.

Definition redisStore (now : Z) (key : string) (val : V) (d : Z) (c : redisCache) : redisCache * option error :=
  match Marshal val with
  | Err err => (c, Some err)
  | Ok buf => let '(s, err) := Set_ now (buildKey c key) buf d (client c) in (mkRedis (prefix c) s, err)
  end.

Definition redisDelete (key : string) (c : redisCache) : redisCache * option error :=
  let '(s, err) := Del (buildKey c key) (client c) in (mkRedis (prefix c) s, err).

#[export] Instance redis_backend : Backend V redisCache := {|
  LoadInto := redisLoad; ExistsIn := redisExists; StoreIn := redisStore; DeleteFrom := redisDelete; Name := fun _ => "redis";
|}.

(** *** Lemmas *)

Lemma buildKey_ne (c : redisCache) (k k' : string) : k' <> k -> buildKey c k' <> buildKey c k.
Proof. unfold buildKey. by intros Hne Hk%append_inj_l. Qed.

(** A load as a function of what the server answers. *)
Lemma redisLoad_get (now : Z) (key : string) (val v : V) (c : redisCache) :
  redisLoad now key val c = (v, None) <->
  exists buf, Get now (buildKey c key) (client c) = Ok buf /\ Unmarshal buf val = (v, None).
Proof.
  unfold redisLoad. destruct (Get now (buildKey c key) (client c)) as [buf|[e|]]; [|split; [done|by intros (? & ? & _)]..].
  split; [by exists buf|]. by intros (b & [= <-] & ?).
Qed.

Lemma redisStore_client (now : Z) (key : string) (v : V) (d : Z) (c : redisCache) (buf : string) :
  Marshal v = Ok buf ->
  redisStore now key v d c = (mkRedis (prefix c) (fst (Set_ now (buildKey c key) buf d (client c))), snd (Set_ now (buildKey c key) buf d (client c))).
Proof. intros Hm. unfold redisStore. rewrite Hm. by destruct (Set_ now (buildKey c key) buf d (client c)). Qed.

(** *** Theorems *)

(** Any value that a load finds was stored: when it could be there because of the last
    store, it is what that store's text decodes to, no later than its time to live when
    that is a millisecond or more; and otherwise the load would have found it before the
    store.  Storing or deleting under one key changes no other key. *)
Theorem redis_load_store (t t' : Z) (k k' : string) (v zero e : V) (d : Z) (c : redisCache) :
  redisLoad t' k' zero (fst (redisStore t k v d c)) = (e, None) ->
  (k' = k /\ exists buf, Marshal v = Ok buf /\ Unmarshal buf zero = (e, None) /\ (Millisecond <= d -> t' <= t + d))
  \/ redisLoad t' k' zero c = (e, None).
Proof.
  destruct (Marshal v) as [buf|err] eqn:Em; [|unfold redisStore; rewrite Em; by right].
  rewrite (redisStore_client _ _ _ _ _ _ Em). cbn [fst]. intros (b & Hg & Hu)%redisLoad_get. cbn [client] in Hg.
  change (buildKey (mkRedis (prefix c) _) k') with (buildKey c k') in Hg. destruct (decide (k' = k)) as [->|Hne].
  - destruct (get_set_failed t t' (buildKey c k) buf d (client c) b Hg) as [->|Hold].
    + destruct (decide (Millisecond <= d)) as [Hd|Hd].
      * destruct (get_set_expired t t' (buildKey c k) buf d (client c) buf Hd Hg) as [?|[Hle|Hold]]; [done| |].
        -- left. split; [done|]. by exists buf.
        -- right. apply redisLoad_get. by exists buf.
      * left. split; [done|]. exists buf. split; [done|]. split; [done|lia].
    + right. apply redisLoad_get. by exists b.
  - right. apply redisLoad_get. exists b. split; [|done]. rewrite get_set_other in Hg; [done|by apply buildKey_ne].
Qed.

(** What was stored is what is loaded, and nothing else, when the store succeeded: the
    text decodes to the value that was stored. *)
Theorem redis_roundtrip (t t' : Z) (k : string) (v zero e : V) (d : Z) (c : redisCache) :
  (forall buf, Marshal v = Ok buf -> Unmarshal buf zero = (v, None)) ->
  snd (redisStore t k v d c) = None ->
  redisLoad t' k zero (fst (redisStore t k v d c)) = (e, None) -> e = v.
Proof.
  intros Hrt. destruct (Marshal v) as [buf|err] eqn:Em; [|unfold redisStore; by rewrite Em].
  rewrite (redisStore_client _ _ _ _ _ _ Em). cbn [fst snd]. intros Hs (b & Hg & Hu)%redisLoad_get.
  cbn [client] in Hg.
  change (buildKey (mkRedis (prefix c) _) k) with (buildKey c k) in Hg. apply get_set in Hg as ->; [|done]. rewrite Hrt in Hu by done. congruence.
Qed.

(** Deleting forgets the key and no other. *)
Theorem redis_delete (t' : Z) (k k' : string) (zero e : V) (c : redisCache) :
  (snd (redisDelete k c) = None -> redisLoad t' k zero (fst (redisDelete k c)) <> (e, None))
  /\ (redisLoad t' k' zero (fst (redisDelete k c)) = (e, None) -> redisLoad t' k' zero c = (e, None))
  /\ (k' <> k -> redisLoad t' k' zero (fst (redisDelete k c)) = redisLoad t' k' zero c).
Proof.
  unfold redisDelete. destruct (Del (buildKey c k) (client c)) as [s err] eqn:Ed. cbn [fst snd].
  assert (s = fst (Del (buildKey c k) (client c)) /\ err = snd (Del (buildKey c k) (client c))) as [-> ->] by (by rewrite Ed).
  split; [|split].
  - intros Hn (b & Hg & _)%redisLoad_get. cbn [client] in Hg.
    change (buildKey (mkRedis (prefix c) _) k) with (buildKey c k) in Hg. by apply get_del in Hg.
  - intros (b & Hg & Hu)%redisLoad_get. apply redisLoad_get. exists b. split; [|done]. cbn [client] in Hg.
    change (buildKey (mkRedis (prefix c) _) k') with (buildKey c k') in Hg. destruct (decide (k' = k)) as [->|Hne]; [by eapply get_del_failed|].
    rewrite get_del_other in Hg; [done|by apply buildKey_ne].
  - intros Hne. unfold redisLoad. cbn [client]. change (buildKey (mkRedis (prefix c) _) k') with (buildKey c k').
    rewrite get_del_other; [done|by apply buildKey_ne].
Qed.

(** Two caches on one server, neither prefix a beginning of the other, do not see each
    other's entries. *)
Theorem redis_prefixes_apart (t t' : Z) (k k' : string) (v zero : V) (d : Z) (p p' : string) (s : S) :
  HasPrefix p p' = false -> HasPrefix p' p = false ->
  redisLoad t' k' zero (mkRedis p' (client (fst (redisStore t k v d (mkRedis p s))))) = redisLoad t' k' zero (mkRedis p' s).
Proof.
  intros H1 H2. unfold redisStore. destruct (Marshal v) as [buf|e]; [|done].
  destruct (Set_ t (buildKey (mkRedis p s) k) buf d (client (mkRedis p s))) as [s' err] eqn:Es. cbn in *.
  assert (s' = fst (Set_ t (p +:+ k) buf d s)) as -> by (unfold buildKey in Es; cbn in Es; by rewrite Es).
  unfold redisLoad, buildKey. cbn. rewrite get_set_other; [done|]. intros Hk. clear -H1 H2 Hk.
  revert p' H1 H2 Hk. induction p as [|a p IH]; intros [|b p'] H1 H2 Hk; try done.
  cbn in Hk. injection Hk as -> Hk. eapply (IH p'); [| |exact Hk].
  - unfold HasPrefix in *. cbn in H1. by rewrite Ascii.eqb_refl in H1.
  - unfold HasPrefix in *. cbn in H2. by rewrite Ascii.eqb_refl in H2.
Qed.

End RedisCache.

(** ** A server in memory *)

(** Texts with the instant at which they end. *)
Notation Store := (gmap string (string * option Z)).

Definition alive (now : Z) (e : string * option Z) : bool := match snd e with Some t => now <? t | None => true end.

(** The time to live that go-redis sends, whole milliseconds, and what the server keeps. *)
Definition endOf (now : Z) (old : option (string * option Z)) (d : Z) : option Z :=
  if d =? KeepTTL then match old with Some e => if alive now e then snd e else None | None => None end
  else if 0 <? d then Some (now + Z.max Millisecond (d - d mod Millisecond)) else None.

#[export] Instance store_redis : Redis Store := {|
  Get := fun now k s => match s !! k with Some e => if alive now e then Ok (fst e) else Err None | None => Err None end;
  Exists_ := fun now k s => Ok (match s !! k with Some e => if alive now e then 1 else 0 | None => 0 end);
  Set_ := fun now k b d s => (<[k := (b, endOf now (s !! k) d)]> s, None);
  Del := fun k s => (delete k s, None);
|}.

#[export] Instance store_laws : RedisLaws Store.
Proof.
  split; cbn -[lookup insert delete].
  - intros t t' k b d s b' _. rewrite lookup_insert_eq. cbn. by destruct (alive _ _); [intros [= <-]|].
  - intros t t' k b d s b' Hd. rewrite lookup_insert_eq. unfold alive. cbn. unfold endOf, Millisecond, KeepTTL in *.
    destruct (Z.eqb_spec d (-1)); [lia|]. destruct (Z.ltb_spec 0 d); [|lia].
    pose proof (Z.mod_pos_bound d 1000000 ltac:(lia)).
    destruct (Z.ltb_spec t' (t + Z.max 1000000 (d - d mod 1000000))); [|done]. intros _. right. left. lia.
  - intros t t' k b d s b'. rewrite lookup_insert_eq. cbn. destruct (alive _ _); [|done]. intros [= <-]. by left.
  - intros t t' k k' b d s Hne. by rewrite lookup_insert_ne.
  - intros t' k s b _. by rewrite lookup_delete_eq.
  - intros t' k k' s Hne. by rewrite lookup_delete_ne.
  - intros t' k s b. by rewrite lookup_delete_eq.
Qed.

(** A value with two fields, one of which is left out of the text when it is empty. *)
Definition demoMarshal (v : string * string) : result error string := Ok (fst v +:+ "," +:+ snd v).
Definition demoUnmarshal (s : string) (v : string * string) : (string * string) * option error :=
  match cutByte s ","%char with
  | Some (a, EmptyString) => ((a, snd v), None)
  | Some (a, b) => ((a, b), None)
  | None => (v, Some (EPlain "unexpected end of JSON input"))
  end.

Definition emptyRedis : redisCache (S := Store) := mkRedis (fst (NewCache (S := Store) [WithContext (Some "shop")])) ∅.
Definition Second : Z := 1000000000.

Lemma redis_roundtrip_witness :
  redisLoad demoUnmarshal 5 "k" (EmptyString, EmptyString)
    (fst (redisStore demoMarshal 0 "k" ("a", "b") Second emptyRedis)) = (("a", "b"), None)
  /\ ("a", "b") = ("a", "b").
Proof.
  split; [reflexivity|].
  apply (redis_roundtrip demoMarshal demoUnmarshal 0 5 "k" ("a", "b") (EmptyString, EmptyString) ("a", "b") Second emptyRedis);
    [|reflexivity|reflexivity].
  intros buf Hb. vm_compute in Hb. injection Hb as <-. reflexivity.
Defined.

Lemma redis_load_store_witness :
  redisLoad demoUnmarshal 5 "k" (EmptyString, EmptyString) (fst (redisStore demoMarshal 0 "k" ("a", "b") Second emptyRedis)) = (("a", "b"), None)
  /\ 5 <= 0 + Second.
Proof.
  split; [reflexivity|].
  destruct (redis_load_store demoMarshal demoUnmarshal 0 5 "k" "k" ("a", "b") (EmptyString, EmptyString) ("a", "b") Second emptyRedis)
    as [(_ & buf & _ & _ & Hd)|H]; [reflexivity|apply Hd; by vm_compute|vm_compute in H; discriminate].
Defined.

Lemma redis_prefixes_apart_witness :
  redisLoad demoUnmarshal 5 "k" (EmptyString, EmptyString)
    (mkRedis "b:cache:" (client (fst (redisStore demoMarshal 0 "k" ("a", "b") Second (mkRedis "a:cache:" (∅ : Store))))))
  = redisLoad demoUnmarshal 5 "k" (EmptyString, EmptyString) (mkRedis "b:cache:" (∅ : Store)).
Proof. apply redis_prefixes_apart; reflexivity. Defined.

(** [NoExpiration] is the number that go-redis reads as "keep the time to live": a value
    stored for ever over one that was to live a second ends with that second.  The
    in-memory cache keeps it. *)
Example no_expiration_expires :
  let zero := (EmptyString, EmptyString) in
  let c := fst (redisStore demoMarshal 0 "k" ("old", "x") Second emptyRedis) in
  let c := fst (redisStore demoMarshal 1 "k" ("new", "x") NoExpiration c) in
  redisLoad demoUnmarshal 2 "k" zero c = (("new", "x"), None)
  /\ snd (redisLoad demoUnmarshal (2 * Second) "k" zero c) = Some (ESentinel CacheErrNotFound)
  /\ let m := fst (memStore 0 "k" ("old", "x") Second (Cache.NewCache 0 ∅)) in
     let m := fst (memStore 1 "k" ("new", "x") NoExpiration m) in
     memLoad (2 * Second) "k" m = Ok ("new", "x").
Proof. by vm_compute. Qed.

(** Loading into a value that is not empty: the in-memory cache assigns, the Redis cache
    decodes over what is there and leaves the fields that the text leaves out. *)
Example load_merges :
  let v := ("a", EmptyString) in
  LoadInto 1 "k" ("old", "stale") (fst (memStore 0 "k" v 0 (Cache.NewCache 0 ∅))) = (v, None)
  /\ redisLoad demoUnmarshal 1 "k" ("old", "stale") (fst (redisStore demoMarshal 0 "k" v 0 emptyRedis)) = (("a", "stale"), None).
Proof. by vm_compute. Qed.

(** The prefix of a cache: the application's name before the prefix of the options. *)
Example prefixes :
  fst (NewCache (S := Store) []) = "cache:"
  /\ fst (NewCache (S := Store) [WithPrefix "p:"; WithContext (Some "shop")]) = "shop:p:"
  /\ buildKey emptyRedis "user" = "shop:cache:user".
Proof. by vm_compute. Qed.
