(* ===== verification/NatsBroker.v ===== *)
(** [infra/broker], [infra/broker/nats]: the life of a broker and what it does with
    messages, over the NATS client. *)

From Stdlib Require Import ZArith Lia String List Bool.
From stdpp Require Import base tactics list strings relations.
From S2P Require Import Prelude GoStrings Errs.

Local Open Scope string_scope.
Local Open Scope list_scope.

Definition ErrNotInitialized : error := EPlain "broker not initialized".
Definition ErrClosed : error := EPlain "broker closed".
Definition ErrAlreadyInitialized : error := EPlain "broker already initialized".
Definition ErrNotSupported : error := EPlain "operation not supported".
Definition ErrClosedPipe : error := EPlain "io: read/write on closed pipe".

(** [broker.Message] *)
Record Message : Type := mkMessage { Header : list (string * string); Body : string }.

(** The options in a context, and those of a subscriber. *)
Record Options : Type := mkOptions { URL : string }.
Record SubscriberOptions : Type := mkSubscriber { Group : string }.

Definition DefaultURL : string := "nats://127.0.0.1:4222".

(** A message of the client: where it was published, where to answer, what it says. *)
Record Msg : Type := mkMsg { Subject : string; Reply : string; Data : string }.

Section Broker.

(** A connection, and what the client does with it: connections that were made are
    numbered by [Connect]. *)
Context {Net Conn Sub : Type}.
Variable Connect : string -> Net -> Net * result error Conn.
Variable connPublish : Conn -> string -> string -> Net -> Net * option error.
Variable connSubscribe : Conn -> string -> string -> Net -> Net * result error Sub.
Variable connClose : Conn -> Net -> Net.
Variable Marshal : Message -> result error string.
Variable Unmarshal : string -> Message * option error.

(** The broker; its mutex makes each operation one step. *)
Record Broker : Type := mkBroker { conn : option Conn; closed : bool }.

Definition New : Broker := mkBroker None false.

Definition Init (opts : option Options) (b : Broker) (w : Net) : Broker * Net * option error :=
  match conn b with
  | Some _ => (b, w, Some ErrAlreadyInitialized)
  | None =>
      match opts with
      | None => (b, w, Some ErrClosedPipe)
      | Some o =>
          let url := if String.eqb (URL o) EmptyString then DefaultURL else URL o in
          match Connect url w with
          | (w, Ok c) => (mkBroker (Some c) (closed b), w, None)
          | (w, Err e) => (b, w, Some e)
          end
      end
  end.

(** The guard of [Publish] and [Subscribe]. *)
Definition usable (b : Broker) : result error Conn :=
  if closed b then Err ErrClosed
  else match conn b with None => Err ErrNotInitialized | Some c => Ok c end.

Definition Publish (topic : string) (m : Message) (b : Broker) (w : Net) : Net * option error :=
  match usable b with
  | Err e => (w, Some e)
  | Ok c => match Marshal m with
            | Err e => (w, Some e)
            | Ok buf => connPublish c topic buf w
            end
  end.

(** The queue group of a subscription: none without options or with an empty group. *)
Definition queueGroup (opts : option SubscriberOptions) : string :=
  match opts with Some o => Group o | None => EmptyString end.

Definition Subscribe (topic : string) (opts : option SubscriberOptions) (b : Broker) (w : Net) : Net * result error Sub :=
  match usable b with
  | Err e => (w, Err e)
  | Ok c => connSubscribe c topic (queueGroup opts) w
  end.

Definition Destroy (b : Broker) (w : Net) : Broker * Net * option error :=
  if closed b then (b, w, None)
  else (mkBroker (conn b) true, match conn b with Some c => connClose c w | None => w end, None).

(** ** A message at the consumer *)

(** [publication.Message]: what decodes, also when it fails. *)
Definition pubMessage (msg : Msg) : Message * option error := Unmarshal (Data msg).
Definition pubTopic (msg : Msg) : string := Subject msg.

(** [publication.Ack] of a message that may be missing; [None] of the first component:
    nothing is sent. *)
Definition pubAck (ack : Msg -> option error) (msg : option Msg) : option Msg * option error :=
  match msg with
  | None => (None, Some ErrNotSupported)
  | Some m => if String.eqb (Reply m) EmptyString then (None, Some ErrNotSupported) else (Some m, ack m)
  end.

(** The callback of a subscription: a handler that fails has the message handed back. *)
Definition handleFunc (h : Msg -> option error) (msg : Msg) : bool :=
  match h msg with Some _ => true | None => false end.

(** ** The life of a broker *)

Inductive Op : Type := OpInit (opts : option Options) | OpPublish (topic : string) (m : Message)
| OpSubscribe (topic : string) (opts : option SubscriberOptions) | OpDestroy.

Definition run (op : Op) (b : Broker) (w : Net) : Broker * Net * option error :=
  match op with
  | OpInit opts => Init opts b w
  | OpPublish topic m => let '(w, e) := Publish topic m b w in (b, w, e)
  | OpSubscribe topic opts => match Subscribe topic opts b w with (w, Ok _) => (b, w, None) | (w, Err e) => (b, w, Some e) end
  | OpDestroy => Destroy b w
  end.

Fixpoint runAll (ops : list Op) (b : Broker) (w : Net) : Broker * Net * list (option error) :=
  match ops with
  | [] => (b, w, [])
  | op :: ops => let '(b, w, e) := run op b w in let '(b, w, es) := runAll ops b w in (b, w, e :: es)
  end.

(** ** The contract: the state a client may rely on *)

Inductive State : Type := Fresh | Ready (c : Conn) | Closed.

(** What a broker stands for. *)
Definition abstract (b : Broker) : State :=
  if closed b then Closed else match conn b with Some c => Ready c | None => Fresh end.

(** What may happen to it, and the answer: [Some (Some e)] is the error [e], [Some None]
    success; [None] leaves the answer to the client library. *)
Inductive spec : State -> Op -> State -> option error -> Prop :=
| spec_init_ok c opts : spec Fresh (OpInit (Some opts)) (Ready c) None
| spec_init_failed opts e : spec Fresh (OpInit (Some opts)) Fresh (Some e)
| spec_init_none : spec Fresh (OpInit None) Fresh (Some ErrClosedPipe)
| spec_init_again c opts : spec (Ready c) (OpInit opts) (Ready c) (Some ErrAlreadyInitialized)
| spec_init_closed opts e : spec Closed (OpInit opts) Closed e
| spec_publish_fresh t m : spec Fresh (OpPublish t m) Fresh (Some ErrNotInitialized)
| spec_publish_closed t m : spec Closed (OpPublish t m) Closed (Some ErrClosed)
| spec_publish c t m e : spec (Ready c) (OpPublish t m) (Ready c) e
| spec_subscribe_fresh t o : spec Fresh (OpSubscribe t o) Fresh (Some ErrNotInitialized)
| spec_subscribe_closed t o : spec Closed (OpSubscribe t o) Closed (Some ErrClosed)
| spec_subscribe c t o e : spec (Ready c) (OpSubscribe t o) (Ready c) e
| spec_destroy s : spec s OpDestroy Closed None.

Lemma run_spec (op : Op) (b b' : Broker) (w w' : Net) (e : option error) :
  run op b w = (b', w', e) -> spec (abstract b) op (abstract b') e.
Proof.
  unfold abstract. destruct b as [[c|] [|]]; destruct op as [[o|]|t m|t o|]; cbn;
    unfold Init, Publish, Subscribe, Destroy; cbn; repeat case_match; intros; simplify_eq/=; try constructor.
Qed.

(** The run of a sequence of operations, as the contract has it. *)
Inductive specs : State -> list Op -> State -> list (option error) -> Prop :=
| specs_nil s : specs s [] s []
| specs_cons s op s1 e ops s2 es : spec s op s1 e -> specs s1 ops s2 es -> specs s (op :: ops) s2 (e :: es).

Lemma runAll_specs (ops : list Op) (b b' : Broker) (w w' : Net) (es : list (option error)) :
  runAll ops b w = (b', w', es) -> specs (abstract b) ops (abstract b') es.
Proof.
  revert b w es. induction ops as [|op ops IH]; intros b w es; cbn [runAll]; [intros [= <- _ <-]; constructor|].
  destruct (run op b w) as [[b1 w1] e] eqn:E1. destruct (runAll ops b1 w1) as [[b2 w2] es2] eqn:E2. intros [= <- <- <-].
  econstructor; [by eapply run_spec|by eapply IH].
Qed.

(** C40. Whatever is done to a broker, its answers are those of the contract: nothing is
    published or subscribed before it is initialised or after it was destroyed, it is
    initialised at most once while it lives, and once destroyed it stays so. *)
Theorem broker_refines (ops : list Op) (b b' : Broker) (w w' : Net) (es : list (option error)) :
  runAll ops b w = (b', w', es) -> specs (abstract b) ops (abstract b') es.
Proof. apply runAll_specs. Qed.

Lemma closed_stays (ops : list Op) (s : State) (es : list (option error)) : specs Closed ops s es -> s = Closed.
Proof.
  intros H. remember Closed as s0 eqn:E in H. induction H as [s0|s0 op s1 e ops s2 es Hs _ IH]; [done|]. apply IH.
  subst s0. by inversion Hs.
Qed.

(** After a destruction nothing is published and nothing subscribed, whatever follows. *)
Theorem destroyed_is_closed (ops : list Op) (b : Broker) (w : Net) :
  let '(b1, w1, e) := Destroy b w in
  e = None
  /\ (forall topic m, let '(b2, w2, _) := runAll ops b1 w1 in Publish topic m b2 w2 = (w2, Some ErrClosed))
  /\ (forall topic o, let '(b2, w2, _) := runAll ops b1 w1 in Subscribe topic o b2 w2 = (w2, Err ErrClosed)).
Proof.
  destruct (Destroy b w) as [[b1 w1] e] eqn:Ed.
  assert (abstract b1 = Closed /\ e = None) as [Hc ->].
  { unfold Destroy in Ed. destruct (closed b) eqn:Ec; injection Ed as <- <- <-; unfold abstract; cbn; by rewrite ?Ec. }
  destruct (runAll ops b1 w1) as [[b2 w2] es] eqn:Er. apply runAll_specs in Er. rewrite Hc in Er. apply closed_stays in Er.
  assert (closed b2 = true) as H2. { unfold abstract in Er. destruct (closed b2); [done|]. by destruct (conn b2). }
  split; [done|]. unfold Publish, Subscribe, usable. by rewrite H2.
Qed.

End Broker.

(** ** A client in memory *)

(** The connections that are open, and what was published. *)
Record Net : Type := mkNet { opened : list nat; published : list (string * string) }.

Definition demoRun : list Op -> Broker -> Net -> Broker * Net * list (option error) :=
  runAll (fun _ w => (mkNet (opened w ++ [length (opened w)]) (published w), Ok (length (opened w))))
    (fun _ topic buf w => (mkNet (opened w) (published w ++ [(topic, buf)]), None))
    (fun _ _ _ w => (w, Ok tt))
    (fun c w => mkNet (List.filter (fun d => negb (Nat.eqb c d)) (opened w)) (published w))
    (fun m => Ok (Body m)).

Definition news : Message := mkMessage [] "news".

Lemma broker_refines_witness :
  let ops := [OpPublish "t" news; OpInit (Some (mkOptions EmptyString)); OpPublish "t" news; OpDestroy; OpPublish "t" news] in
  specs (Conn := nat) Fresh ops Closed [Some ErrNotInitialized; None; None; None; Some ErrClosed].
Proof.
  intros ops.
  change (specs (abstract (Conn := nat) New) ops (abstract (mkBroker (Some 0%nat) true)) [Some ErrNotInitialized; None; None; None; Some ErrClosed]).
  refine (broker_refines _ _ _ _ _ ops New (mkBroker (Some 0%nat) true) (mkNet [] []) (mkNet [] [("t", "news")]) _ (_ : demoRun ops New (mkNet [] []) = _)).
  vm_compute. reflexivity.
Defined.

(** A broker that was destroyed before it was initialised can still be initialised: the
    connection is opened, nothing can be done with it, and no later [Destroy] closes
    it. *)
Example init_after_destroy_leaks :
  exists b w, demoRun [OpDestroy; OpInit (Some (mkOptions EmptyString)); OpPublish "t" news; OpDestroy] New (mkNet [] [])
              = (b, w, [None; None; Some ErrClosed; None])
    /\ opened w = [0%nat] /\ published w = [].
Proof. eexists _, _. split; [vm_compute; reflexivity|]. by vm_compute. Qed.
