(* ===== verification/BytePool.v ===== *)
(** [pkg/bytepool]: the pools of byte slices by size, and of buffers, with the memory
    their slices share. *)

From Stdlib Require Import ZArith Lia String List Bool.
From stdpp Require Import base tactics list gmap relations.
From S2P Require Import Prelude.

Local Open Scope list_scope.
Local Open Scope nat_scope.

(** ** bytes.go *)

(** A slice: the array it is of (its capacity is the array's), and its length. *)
Record Slice : Type := mkSlice { array : nat; len : nat }.

Inductive Bucket : Type := bufPool5k | bufPool2k | bufPool1k | bufPool.

#[export] Instance Bucket_dec : EqDecision Bucket.
Proof. solve_decision. Defined.

Definition bucketOf (size : nat) : Bucket :=
  if 5 * 1024 <=? size then bufPool5k
  else if 2 * 1024 <=? size then bufPool2k
  else if 1 * 1024 <=? size then bufPool1k else bufPool.

(** The arrays, with what they hold; what each pool holds. *)
Record Pools : Type := mkPools { arrays : gmap nat (list nat); pool : Bucket -> list Slice }.

Definition cap (p : Pools) (s : Slice) : nat := length (default [] (arrays p !! array s)).

Definition setPool (b : Bucket) (l : list Slice) (p : Pools) : Pools :=
  mkPools (arrays p) (fun b' => if decide (b' = b) then l else pool p b').

(** [make([]byte, size)] *)
Definition make (size : nat) (p : Pools) : Pools * Slice :=
  let id := fresh (dom (arrays p)) in
  (mkPools (<[id := replicate size 0]> (arrays p)) (pool p), mkSlice id size).

(** [sync.Pool.Get] hands out any element, or none; [choice] is which. *)
Definition poolGet (b : Bucket) (choice : option nat) (p : Pools) : Pools * option Slice :=
  match choice with
  | None => (p, None)
  | Some i => match pool p b !! i with
              | None => (p, None)
              | Some s => (setPool b (delete i (pool p b)) p, Some s)
              end
  end.

Definition GetBytes (size : Z) (choice : option nat) (p : Pools) : Pools * option Slice :=
  if (size <=? 0)%Z then (p, None)
  else let size := Z.to_nat size in
       match poolGet (bucketOf size) choice p with
       | (p, None) => let '(p, s) := make size p in (p, Some s)
       | (p, Some buf) =>
           if cap p buf <? size then let '(p, s) := make size p in (p, Some s)
           else (p, Some (mkSlice (array buf) size))
       end.

Definition PutBytes (buf : Slice) (p : Pools) : Pools :=
  let size := cap p buf in
  if size =? 0 then p else setPool (bucketOf size) (pool p (bucketOf size) ++ [buf]) p.

(** ** The callers *)

(** Who holds which slice is the callers' affair; a caller that gives a slice back gives
    it back once.  The runtime may drop what is pooled. *)
Inductive step : Pools * list Slice -> Pools * list Slice -> Prop :=
| step_get size choice p p' held s :
    GetBytes size choice p = (p', Some s) -> step (p, held) (p', s :: held)
| step_put p l s r : step (p, l ++ s :: r) (PutBytes s p, l ++ r)
| step_write p held s bytes :
    In s held -> length bytes = cap p s ->
    step (p, held) (mkPools (<[array s := bytes]> (arrays p)) (pool p), held)
| step_drop p held b i : step (p, held) (setPool b (delete i (pool p b)) p, held).

Definition empty : Pools := mkPools ∅ (fun _ => []).

Definition reachable (p : Pools) (held : list Slice) : Prop := rtc step (empty, []) (p, held).

(** All slices there are: held, or in a pool. *)
Definition buckets : list Bucket := [bufPool5k; bufPool2k; bufPool1k; bufPool].
Definition pooled (p : Pools) : list Slice := concat (map (pool p) buckets).

(** No array is in two hands, whether callers' or pools'; a pool holds slices of its
    size; a slice is no longer than its array. *)
Record pools_ok (p : Pools) (held : list Slice) : Prop := {
  ok_apart : NoDup (map array (held ++ pooled p));
  ok_known : forall s, In s (held ++ pooled p) -> is_Some (arrays p !! array s) /\ len s <= cap p s;
  ok_bucket : forall b s, In s (pool p b) -> bucketOf (cap p s) = b /\ 0 < cap p s;
}.

Lemma pooled_In (p : Pools) (s : Slice) : In s (pooled p) <-> exists b, In s (pool p b).
Proof.
  unfold pooled, buckets. cbn [map concat]. rewrite !in_app_iff. split.
  - intros [H|[H|[H|[H|[]]]]]; eauto.
  - intros [[] H]; auto.
Qed.

(** The pools after one of them was changed, up to order. *)
Lemma pooled_setPool (b : Bucket) (l : list Slice) (p : Pools) :
  exists rest, pooled p ≡ₚ pool p b ++ rest /\ pooled (setPool b l p) ≡ₚ l ++ rest.
Proof.
  unfold pooled, buckets, setPool. cbn [map concat pool]. rewrite !app_nil_r.
  destruct b.
  - exists (pool p bufPool2k ++ pool p bufPool1k ++ pool p bufPool). by split.
  - exists (pool p bufPool5k ++ pool p bufPool1k ++ pool p bufPool). split; cbn; solve_Permutation.
  - exists (pool p bufPool5k ++ pool p bufPool2k ++ pool p bufPool). split; cbn; solve_Permutation.
  - exists (pool p bufPool5k ++ pool p bufPool2k ++ pool p bufPool1k). split; cbn; solve_Permutation.
Qed.

(** The invariant speaks of the slices up to order. *)
Lemma pools_ok_perm (p p' : Pools) (held held' : list Slice) :
  arrays p' = arrays p -> held' ++ pooled p' ≡ₚ held ++ pooled p ->
  (forall b s, In s (pool p' b) -> bucketOf (cap p s) = b /\ 0 < cap p s) ->
  pools_ok p held -> pools_ok p' held'.
Proof.
  intros Ha Hp Hb [H1 H2 _]. split.
  - by rewrite Hp.
  - intros s Hs. unfold cap. rewrite Ha. apply H2. apply list_elem_of_In. rewrite <- Hp. by apply list_elem_of_In.
  - intros b s Hs. unfold cap. rewrite Ha. by apply Hb.
Qed.

(** Fewer slices are no problem. *)
Lemma pools_ok_drop (p p' : Pools) (held held' lost : list Slice) :
  arrays p' = arrays p -> lost ++ held' ++ pooled p' ≡ₚ held ++ pooled p ->
  (forall b s, In s (pool p' b) -> In s (pool p b)) -> pools_ok p held -> pools_ok p' held'.
Proof.
  intros Ha Hp Hb [H1 H2 H3]. split.
  - rewrite <- Hp, map_app in H1. by apply NoDup_app in H1 as (_ & _ & ?).
  - intros s Hs. unfold cap. rewrite Ha. apply H2. apply list_elem_of_In. rewrite <- Hp. apply elem_of_app. right. by apply list_elem_of_In.
  - intros b s Hs. unfold cap. rewrite Ha. by apply H3, Hb.
Qed.

Lemma setPool_In (b b' : Bucket) (l : list Slice) (p : Pools) (s : Slice) :
  (forall x, In x l -> In x (pool p b)) -> In s (pool (setPool b l p) b') -> In s (pool p b').
Proof. intros Hl. unfold setPool. cbn. case_decide; [subst; apply Hl|done]. Qed.

Lemma In_delete (l : list Slice) (i : nat) (s : Slice) : In s (delete i l) -> In s l.
Proof. rewrite <- !list_elem_of_In. apply list_elem_of_delete_inv. Qed.

Lemma pooled_delete (b : Bucket) (i : nat) (s : Slice) (p : Pools) :
  pool p b !! i = Some s -> pooled p ≡ₚ s :: pooled (setPool b (delete i (pool p b)) p).
Proof.
  intros Hd%delete_Permutation. destruct (pooled_setPool b (delete i (pool p b)) p) as (rest & H1 & H2).
  transitivity (pool p b ++ rest); [exact H1|]. transitivity ((s :: delete i (pool p b)) ++ rest); [by apply Permutation_app_tail|].
  cbn. by apply perm_skip.
Qed.

Lemma delete_none {A} (l : list A) (i : nat) : l !! i = None -> delete i l = l.
Proof. revert i. induction l as [|x l IH]; intros [|i] Hi; cbn in *; [done..|]. f_equal. by apply IH. Qed.

Lemma poolGet_ok (b : Bucket) (choice : option nat) (p p' : Pools) (r : option Slice) :
  poolGet b choice p = (p', r) ->
  arrays p' = arrays p /\ (forall b' s, In s (pool p' b') -> In s (pool p b'))
  /\ match r with Some s => In s (pool p b) /\ pooled p ≡ₚ s :: pooled p' | None => p' = p end.
Proof.
  unfold poolGet. destruct choice as [i|]; [|by intros [= <- <-]].
  destruct (pool p b !! i) as [s|] eqn:Ei; [|by intros [= <- <-]]. intros [= <- <-]. split; [done|]. split.
  - intros b' s' Hs. eapply setPool_In; [|exact Hs]. intros x. apply In_delete.
  - split; [by eapply list_elem_of_In, list_elem_of_lookup_2|].
    by apply pooled_delete.
Qed.

Lemma make_ok (size : nat) (p p' : Pools) (held : list Slice) (s : Slice) :
  make size p = (p', s) -> pools_ok p held ->
  pools_ok p' (s :: held) /\ len s = size /\ (forall a, is_Some (arrays p !! a) -> arrays p' !! a = arrays p !! a).
Proof.
  unfold make. intros [= <- <-] [H1 H2 H3]. set (id := fresh (dom (arrays p))).
  assert (arrays p !! id = None) as Hid by (apply not_elem_of_dom, is_fresh).
  assert (forall s, In s (held ++ pooled p) -> array s <> id) as Hne.
  { intros x [[v Hv] _]%H2 Hx. congruence. }
  assert (forall x, array x <> id -> cap (mkPools (<[id:=replicate size 0]> (arrays p)) (pool p)) x = cap p x) as Hcap.
  { intros x Hx. unfold cap. cbn. by rewrite lookup_insert_ne. }
  split; [split; cbn [app map arrays array]|split; [done|]].
  - constructor; [|exact H1]. intros (x & Hx & Hin)%list_elem_of_fmap. apply (Hne x); [by apply list_elem_of_In|done].
  - intros x [<-|Hx].
    + unfold cap. cbn. rewrite lookup_insert_eq. cbn. rewrite length_replicate. split; [by eexists|done].
    + pose proof (Hne x Hx). rewrite lookup_insert_ne, Hcap by done. by apply H2.
  - cbn. intros b x Hx. rewrite Hcap; [by apply H3|]. apply Hne, in_app_iff. right. apply pooled_In. by exists b.
  - cbn. intros a [v Hv]. rewrite lookup_insert_ne; [done|]. intros <-. congruence.
Qed.

Lemma GetBytes_ok (size : Z) (choice : option nat) (p p' : Pools) (held : list Slice) (s : Slice) :
  GetBytes size choice p = (p', Some s) -> pools_ok p held ->
  pools_ok p' (s :: held) /\ Z.of_nat (len s) = size
  /\ (forall a, is_Some (arrays p !! a) -> arrays p' !! a = arrays p !! a).
Proof.
  unfold GetBytes. destruct (Z.leb_spec size 0) as [|Hsz]; [done|].
  destruct (poolGet (bucketOf (Z.to_nat size)) choice p) as [p1 r] eqn:Eg. apply poolGet_ok in Eg as (Ha & Hb & Hr). intros Hget Hok.
  destruct r as [buf|].
  - destruct Hr as [Hin Hperm].
    assert (pools_ok p1 held) as Hok1.
    { apply (pools_ok_drop p p1 held held [buf]); [done| |done|done]. rewrite Hperm. exact (Permutation_middle _ _ _). }
    destruct (Nat.ltb_spec (cap p1 buf) (Z.to_nat size)) as [|Hcap].
    + destruct (make (Z.to_nat size) p1) as [p2 s2] eqn:Em. injection Hget as <- <-.
      destruct (make_ok _ _ _ _ _ Em Hok1) as (H1 & H2 & H3). split; [done|]. split; [lia|]. intros a Hsome. rewrite H3; by rewrite Ha.
    + injection Hget as <- <-. split; [|split; [cbn; lia|intros a _; by rewrite Ha]].
      assert (pools_ok p1 (buf :: held)) as [H1 H2 H3].
      { apply (pools_ok_perm p p1 held); [done|rewrite Hperm; exact (Permutation_middle _ _ _)| |done].
        intros b x Hx. apply (ok_bucket _ _ Hok). by apply Hb. }
      split; [exact H1| |exact H3]. intros x [<-|Hx]; [|apply H2; by right].
      split; [by apply (H2 buf); left|]. change (cap p1 (mkSlice (array buf) (Z.to_nat size))) with (cap p1 buf). cbn. lia.
  - subst p1. destruct (make (Z.to_nat size) p) as [p2 s2] eqn:Em. injection Hget as <- <-.
    destruct (make_ok _ _ _ _ _ Em Hok) as (H1 & H2 & H3). split; [done|]. split; [lia|done].
Qed.

Lemma PutBytes_ok (p : Pools) (l r : list Slice) (s : Slice) : pools_ok p (l ++ s :: r) -> pools_ok (PutBytes s p) (l ++ r).
Proof.
  intros Hok. unfold PutBytes. destruct (Nat.eqb_spec (cap p s) 0) as [|Hc].
  - apply (pools_ok_drop p p (l ++ s :: r) (l ++ r) [s]); [done| |done|done]. cbn. solve_Permutation.
  - apply (pools_ok_perm p _ (l ++ s :: r)); [done| | |done].
    + destruct (pooled_setPool (bucketOf (cap p s)) (pool p (bucketOf (cap p s)) ++ [s]) p) as (rest & -> & ->). solve_Permutation.
    + intros b x. unfold setPool. cbn. case_decide as Hb; [|apply (ok_bucket _ _ Hok)].
      intros [Hx|[<-|[]]]%in_app_iff; [subst b; by apply (ok_bucket _ _ Hok)|]. split; [done|lia].
Qed.

Lemma pools_step_ok (c c' : Pools * list Slice) : step c c' -> pools_ok (fst c) (snd c) -> pools_ok (fst c') (snd c').
Proof.
  intros Hs Hok. destruct Hs as [size choice p p' held s Hg|p l s r|p held s bytes Hin Hl|p held b i]; cbn in *.
  - by eapply GetBytes_ok.
  - by apply PutBytes_ok.
  - assert (forall x, cap (mkPools (<[array s:=bytes]> (arrays p)) (pool p)) x = cap p x) as Hcap.
    { intros x. unfold cap. cbn. destruct (decide (array s = array x)) as [Hx|Hx]; [|by rewrite lookup_insert_ne].
      rewrite Hx, lookup_insert_eq. cbn. unfold cap in Hl. by rewrite Hl, Hx. }
    destruct Hok as [H1 H2 H3]. split; [exact H1| |].
    + intros x Hx. rewrite Hcap. destruct (H2 x Hx) as [? ?]. split; [|done]. cbn.
      destruct (decide (array s = array x)) as [->|Hne]; [rewrite lookup_insert_eq; by eexists|by rewrite lookup_insert_ne].
    + intros b x Hx. rewrite Hcap. by apply H3.
  - destruct (pool p b !! i) as [s|] eqn:Ei.
    + apply (pools_ok_drop p _ held held [s]); [done| | |done].
      * etransitivity; [exact (Permutation_middle _ _ _)|]. apply Permutation_app_head. symmetry. by apply pooled_delete.
      * intros b' x. apply setPool_In. intros y. apply In_delete.
    + apply (pools_ok_drop p _ held held []); [done| | |done].
      * destruct (pooled_setPool b (delete i (pool p b)) p) as (rest & -> & ->).
        by rewrite (delete_none _ _ Ei).
      * intros b' x. apply setPool_In. intros y. apply In_delete.
Qed.

Lemma pools_reachable_ok (p : Pools) (held : list Slice) : reachable p held -> pools_ok p held.
Proof.
  intros Hr. assert (forall c, rtc step (empty, []) c -> pools_ok (fst c) (snd c)) as H; [|by apply (H (p, held))].
  clear. apply (rtc_ind_r (fun c => pools_ok (fst c) (snd c)) (empty, [])).
  - split; [constructor|by intros s []|by intros [] s []].
  - intros c c' _ Hs. by apply pools_step_ok.
Qed.

(** As long as every caller gives back what it got, and once, [GetBytes] gives a slice
    of exactly the length asked for, on an array that no other caller holds, and changes
    none of theirs. *)
Theorem get_exclusive (size : Z) (choice : option nat) (p p' : Pools) (held : list Slice) (s : Slice) :
  reachable p held -> GetBytes size choice p = (p', Some s) ->
  Z.of_nat (len s) = size /\ len s <= cap p' s
  /\ (forall s', In s' held -> array s' <> array s /\ arrays p' !! array s' = arrays p !! array s').
Proof.
  intros Hr%pools_reachable_ok Hg. destruct (GetBytes_ok _ _ _ _ _ _ Hg Hr) as ([H1 H2 _] & Hl & Hk). split; [done|].
  split; [apply H2; by left|]. intros s' Hs'. split.
  - intros He. cbn in H1. apply NoDup_cons in H1 as [Hn _]. apply Hn. rewrite <- He. apply list_elem_of_fmap.
    exists s'. split; [done|]. apply elem_of_app. left. by apply list_elem_of_In.
  - apply Hk. apply (ok_known _ _ Hr). apply in_app_iff. by left.
Qed.

(** Asking for 0 or less gives nothing; asking for more gives something, whatever is pooled. *)
Lemma GetBytes_none (size : Z) (choice : option nat) (p : Pools) :
  snd (GetBytes size choice p) = None <-> (size <= 0)%Z.
Proof.
  unfold GetBytes. destruct (Z.leb_spec size 0); [done|]. split; [|lia].
  destruct (poolGet (bucketOf (Z.to_nat size)) choice p) as [p1 [buf|]]; [|done]. by destruct (cap p1 buf <? Z.to_nat size).
Qed.

(** A caller has given 1500 bytes back; the next, who asks for 1100, is given that array. *)
Lemma get_exclusive_witness :
  exists p p' s, reachable p [] /\ GetBytes 1100 (Some 0) p = (p', Some s) /\ array s = 0 /\ cap p' s = 1500
  /\ Z.of_nat (len s) = 1100%Z.
Proof.
  assert (reachable (PutBytes (mkSlice 0 1500) (fst (make 1500 empty))) []) as Hr.
  { eapply rtc_l; [apply (step_get 1500 None empty (fst (make 1500 empty)) [] (mkSlice 0 1500)); vm_compute; reflexivity|].
    eapply rtc_l; [apply (step_put (fst (make 1500 empty)) [] (mkSlice 0 1500) [])|]. apply rtc_refl. }
  set (p := PutBytes (mkSlice 0 1500) (fst (make 1500 empty))) in *.
  assert (GetBytes 1100 (Some 0) p = (fst (GetBytes 1100 (Some 0) p), Some (mkSlice 0 1100))) as Hg by (vm_compute; reflexivity).
  exists p, (fst (GetBytes 1100 (Some 0) p)), (mkSlice 0 1100). split; [exact Hr|]. split; [exact Hg|]. split; [reflexivity|].
  split; [vm_compute; reflexivity|]. exact (proj1 (get_exclusive 1100 (Some 0) p _ [] _ Hr Hg)).
Defined.

(** A slice given back twice is handed out twice. *)
Example put_twice :
  let '(p, s) := make 8 empty in
  let p := PutBytes s (PutBytes s p) in
  let '(p, a) := GetBytes 8 (Some 0) p in
  let '(p, b) := GetBytes 8 (Some 0) p in a = b.
Proof. vm_compute. reflexivity. Qed.

(** What is handed out again still holds what the last caller wrote. *)
Example stale_bytes :
  let '(p, s) := make 4 empty in
  let p := PutBytes s (mkPools (<[array s := [1; 2; 3; 4]]> (arrays p)) (pool p)) in
  let '(p, a) := GetBytes 4 (Some 0) p in option_map (fun s => arrays p !! array s) a = Some (Some [1; 2; 3; 4]).
Proof. vm_compute. reflexivity. Qed.

(** A pooled slice that is too small is lost to the pool. *)
Example small_dropped :
  let '(p, s) := make 4 empty in
  let p := PutBytes s p in
  let '(p, a) := GetBytes 100 (Some 0) p in pool p bufPool = [] /\ option_map len a = Some 100.
Proof. vm_compute. split; reflexivity. Qed.

(** ** buffer.go *)

(** The pool of buffers, by what they hold. *)
Definition GetBuffer (choice : option nat) (bufferPool : list (list nat)) : list (list nat) * list nat :=
  match choice with
  | None => (bufferPool, [])
  | Some i => match bufferPool !! i with
              | None => (bufferPool, [])
              | Some b => (delete i bufferPool, b)
              end
  end.

Definition PutBuffer (b : list nat) (bufferPool : list (list nat)) : list (list nat) := bufferPool ++ [[]].

(** However a buffer was filled before it was given back, the one handed out is empty. *)
Lemma GetBuffer_empty (written : list (list nat)) (choice : option nat) :
  snd (GetBuffer choice (fold_left (fun pool b => PutBuffer b pool) written [])) = [].
Proof.
  assert (forall acc, Forall (fun b => b = []) acc -> Forall (fun b => b = []) (fold_left (fun pool b => PutBuffer b pool) written acc)) as H.
  { induction written as [|w ws IH]; intros acc Ha; [done|]. cbn. apply IH. apply Forall_app. by split; [|repeat constructor]. }
  specialize (H [] (Forall_nil_2 _)). unfold GetBuffer. destruct choice as [i|]; [|done].
  destruct (_ !! i) as [b|] eqn:Ei; [|done]. by apply (Forall_lookup_1 _ _ _ _ H Ei).
Qed.
