(* ===== verification/GoHeap.v ===== *)
(** [infra/cache/memory/clone.go]: values of Go that share memory, and their deep copy.

    Pointers, slices and maps refer to objects of a heap.  Reflection is modelled on the
    shape of a value: a scalar (a string, a number, a truth value) is immutable, a struct
    and an array are their fields, a field may be unexported.  Pointers are to whole
    variables.  A map is ranged over in the order of its list, which is any order. *)

From Stdlib Require Import ZArith Lia String Ascii List Bool.
From stdpp Require Import base tactics list gmap strings.
From S2P Require Import Prelude GoStrings.

Local Open Scope list_scope.
Local Open Scope nat_scope.

(** ** Values and objects *)

Record slice : Type := mkSlice { sArr : nat; sOff : nat; sLen : nat; sCap : nat }.

Inductive val : Type :=
| VScalar (s : string)
| VRef (n : nat)                       (* a channel or a function *)
| VPtr (l : option nat)
| VIface (v : option val)
| VSlice (s : option slice)
| VMap (l : option nat)
| VFields (fs : list (bool * val)).    (* whether a field is exported; an array: all *)

Inductive obj : Type :=
| OVar (v : val)
| OArr (es : list val)
| OMap (es : list (val * val)).

Notation heap := (gmap nat obj) (only parsing).

(** The zero value of the type of a value. *)
Fixpoint zero (v : val) : val :=
  match v with
  | VScalar _ => VScalar EmptyString
  | VRef _ => VScalar EmptyString
  | VPtr _ => VPtr None
  | VIface _ => VIface None
  | VSlice _ => VSlice None
  | VMap _ => VMap None
  | VFields fs => VFields (map (fun f => (fst f, zero (snd f))) fs)
  end.

(** [==] of map keys. *)
Fixpoint keyEq (a b : val) : bool :=
  match a, b with
  | VScalar s, VScalar t => String.eqb s t
  | VRef m, VRef n => Nat.eqb m n
  | VPtr l, VPtr l' => bool_decide (l = l')
  | VIface None, VIface None => true
  | VIface (Some v), VIface (Some w) => keyEq v w
  | VFields fs, VFields gs =>
      (fix all (fs gs : list (bool * val)) : bool :=
         match fs, gs with
         | [], [] => true
         | f :: fs, g :: gs => keyEq (snd f) (snd g) && all fs gs
         | _, _ => false
         end) fs gs
  | _, _ => false
  end.

(** [SetMapIndex] *)
Fixpoint mapSet (k v : val) (es : list (val * val)) : list (val * val) :=
  match es with
  | [] => [(k, v)]
  | e :: es => if keyEq (fst e) k then (k, v) :: es else e :: mapSet k v es
  end.

(** ** clone *)

Record St : Type := mkSt { hp : gmap nat obj; next : nat; seen : gmap nat nat }.

Definition alloc (o : obj) (s : St) : St * nat := (mkSt (<[next s := o]> (hp s)) (S (next s)) (seen s), next s).
Definition write (l : nat) (o : obj) (s : St) : St := mkSt (<[l := o]> (hp s)) (next s) (seen s).
Definition mark (l p : nat) (s : St) : St := mkSt (hp s) (next s) (<[l := p]> (seen s)).

(** A loop that clones and collects. *)
Fixpoint traverse {A B : Type} (f : A -> St -> option (St * B)) (l : list A) (s : St) : option (St * list B) :=
  match l with
  | [] => Some (s, [])
  | a :: l =>
      match f a s with
      | None => None
      | Some (s, b) => match traverse f l s with None => None | Some (s, bs) => Some (s, b :: bs) end
      end
  end.

(** The elements of a slice. *)
Definition elements (sl : slice) (es : list val) : list val := take (sLen sl) (drop (sOff sl) es).

(** [cloneInto] with a bound on its depth; [None]: the bound is too small (or a pointer
    dangles, which Go has not). *)
Fixpoint cloneInto (n : nat) (v : val) (s : St) {struct n} : option (St * val) :=
  match n with
  | O => None
  | S n =>
      match v with
      | VScalar _ | VRef _ | VPtr None | VIface None | VSlice None | VMap None => Some (s, v)
      | VPtr (Some l) =>
          match seen s !! l with
          | Some p => Some (s, VPtr (Some p))
          | None =>
              match hp s !! l with
              | Some (OVar x) =>
                  let '(s, p) := alloc (OVar (zero x)) s in
                  match cloneInto n x (mark l p s) with
                  | None => None
                  | Some (s, x) => Some (write p (OVar x) s, VPtr (Some p))
                  end
              | _ => None
              end
          end
      | VIface (Some x) =>
          match cloneInto n x s with
          | None => None
          | Some (s, x) => Some (s, VIface (Some x))
          end
      | VSlice (Some sl) =>
          match hp s !! sArr sl with
          | Some (OArr es) =>
              let spare := map zero (take (sCap sl - sLen sl) (drop (sOff sl + sLen sl) es)) in
              let '(s, p) := alloc (OArr (elements sl es ++ spare)) s in
              Some (s, VSlice (Some (mkSlice p 0 (sLen sl) (sCap sl))))
          | _ => None
          end
      | VMap (Some l) =>
          match hp s !! l with
          | Some (OMap es) =>
              (* the new map is made here and filled before anything refers to it *)
              match traverse (fun (e : val * val) (s : St) =>
                                match cloneInto n (fst e) s with
                                | None => None
                                | Some (s, k) => match cloneInto n (snd e) s with None => None | Some (s, x) => Some (s, (k, x)) end
                                end) es s with
              | None => None
              | Some (s, es) =>
                  let '(s, p) := alloc (OMap (fold_left (fun m e => mapSet (fst e) (snd e) m) es [])) s in
                  Some (s, VMap (Some p))
              end
          | _ => None
          end
      | VFields fs =>
          match traverse (fun (f : bool * val) (s : St) =>
                            if fst f then match cloneInto n (snd f) s with None => None | Some (s, x) => Some (s, (true, x)) end
                            else Some (s, (false, zero (snd f)))) fs s with
          | None => None
          | Some (s, fs) => Some (s, VFields fs)
          end
      end
  end.

(** [clone]: with a map of pointers of its own. *)
Definition clone (n : nat) (v : val) (h : gmap nat obj) (nx : nat) : option (gmap nat obj * nat * val) :=
  match cloneInto n v (mkSt h nx ∅) with
  | None => None
  | Some (s, v) => Some (hp s, next s, v)
  end.

(** ** What a value looks like *)

(** A value unfolded to a depth; what is unexported is not seen. *)
Inductive tree : Type :=
| TCut
| TBad
| THidden
| TScalar (s : string)
| TRef (n : nat)
| TNil
| TPtr (t : tree)
| TIface (t : tree)
| TSlice (ts : list tree)
| TMap (ts : list (tree * tree))
| TFields (ts : list tree).

Fixpoint unfold_ (d : nat) (h : gmap nat obj) (v : val) {struct d} : tree :=
  match d with
  | O => TCut
  | S d =>
      match v with
      | VScalar s => TScalar s
      | VRef n => TRef n
      | VPtr None | VIface None | VSlice None | VMap None => TNil
      | VPtr (Some l) => match h !! l with Some (OVar x) => TPtr (unfold_ d h x) | _ => TBad end
      | VIface (Some x) => TIface (unfold_ d h x)
      | VSlice (Some sl) => match h !! sArr sl with Some (OArr es) => TSlice (map (unfold_ d h) (elements sl es)) | _ => TBad end
      | VMap (Some l) => match h !! l with Some (OMap es) => TMap (map (fun e => (unfold_ d h (fst e), unfold_ d h (snd e))) es) | _ => TBad end
      | VFields fs => TFields (map (fun f : bool * val => if fst f then unfold_ d h (snd f) else THidden) fs)
      end
  end.

(** Two values that look the same at every depth, each in its heap. *)
Definition looks (h h' : gmap nat obj) (v v' : val) : Prop := forall d, unfold_ d h v = unfold_ d h' v'.

(** ** What a value refers to *)

(** Every object the value itself refers to satisfies [P]; it has no channel or function. *)
Fixpoint refs (P : nat -> Prop) (v : val) : Prop :=
  match v with
  | VScalar _ | VPtr None | VIface None | VSlice None | VMap None => True
  | VRef _ => False
  | VPtr (Some l) | VMap (Some l) => P l
  | VIface (Some x) => refs P x
  | VSlice (Some sl) => P (sArr sl)
  | VFields fs => (fix all (fs : list (bool * val)) : Prop := match fs with [] => True | f :: fs => refs P (snd f) /\ all fs end) fs
  end.

Definition refsObj (P : nat -> Prop) (o : obj) : Prop :=
  match o with
  | OVar v => refs P v
  | OArr es => Forall (refs P) es
  | OMap es => Forall (fun e => refs P (fst e) /\ refs P (snd e)) es
  end.

Lemma refs_fields (P : nat -> Prop) (fs : list (bool * val)) : refs P (VFields fs) <-> Forall (fun f => refs P (snd f)) fs.
Proof.
  cbn. induction fs as [|f fs IH]; [by split; constructor|]. rewrite IH. split; [intros [H1 H2]; by constructor|]. by inversion 1.
Qed.

(** A value without references: it is the same in every heap. *)
Definition flat (v : val) : Prop := refs (fun _ => False) v.

(** What [clone] looks at (not what is unexported): no channel or function, and pointers,
    arrays of slices and maps that satisfy a predicate each. *)
Fixpoint shape (Pp Ps Pm : nat -> Prop) (v : val) : Prop :=
  match v with
  | VScalar _ | VPtr None | VIface None | VSlice None | VMap None => True
  | VRef _ => False
  | VPtr (Some l) => Pp l
  | VMap (Some l) => Pm l
  | VIface (Some x) => shape Pp Ps Pm x
  | VSlice (Some sl) => Ps (sArr sl)
  | VFields fs => (fix all (fs : list (bool * val)) : Prop :=
                     match fs with [] => True | f :: fs => (fst f = true -> shape Pp Ps Pm (snd f)) /\ all fs end) fs
  end.

Notation plain P := (shape P P P) (only parsing).

Definition scalarKey (v : val) : Prop := match v with VScalar _ => True | _ => False end.

(** What is copied in full: elements of slices that refer to nothing, keys of maps that are
    distinct scalars. *)
Definition plainObj (P : nat -> Prop) (o : obj) : Prop :=
  match o with
  | OVar v => plain P v
  | OArr es => Forall flat es
  | OMap es => Forall (fun e => scalarKey (fst e) /\ plain P (snd e)) es /\ NoDup (map fst es)
  end.

(** What [clone] makes. *)
Definition copied (P : nat -> Prop) (o : obj) : Prop :=
  match o with
  | OVar v => refs P v
  | OArr es => Forall flat es
  | OMap es => Forall (fun e => scalarKey (fst e) /\ refs P (snd e)) es /\ NoDup (map fst es)
  end.

Lemma shape_fields (Pp Ps Pm : nat -> Prop) (fs : list (bool * val)) :
  shape Pp Ps Pm (VFields fs) <-> Forall (fun f => fst f = true -> shape Pp Ps Pm (snd f)) fs.
Proof.
  cbn. induction fs as [|f fs IH]; [by split; constructor|]. rewrite IH. split; [intros [H1 H2]; by constructor|]. by inversion 1.
Qed.

Definition val_ind' (Q : val -> Prop)
  (Hscalar : forall s, Q (VScalar s)) (Href : forall n, Q (VRef n)) (Hptr : forall l, Q (VPtr l))
  (Hnil : Q (VIface None)) (Hiface : forall v, Q v -> Q (VIface (Some v)))
  (Hslice : forall s, Q (VSlice s)) (Hmap : forall l, Q (VMap l))
  (Hfields : forall fs, Forall (fun f => Q (snd f)) fs -> Q (VFields fs)) : forall v, Q v :=
  fix go v :=
    match v with
    | VScalar s => Hscalar s
    | VRef n => Href n
    | VPtr l => Hptr l
    | VIface None => Hnil
    | VIface (Some x) => Hiface x (go x)
    | VSlice s => Hslice s
    | VMap l => Hmap l
    | VFields fs => Hfields fs ((fix all fs : Forall (fun f => Q (snd f)) fs :=
                                   match fs with [] => List.Forall_nil _ | f :: fs => List.Forall_cons _ f fs (go (snd f)) (all fs) end) fs)
    end.

Lemma refs_impl (P Q : nat -> Prop) (v : val) : (forall l, P l -> Q l) -> refs P v -> refs Q v.
Proof.
  intros HPQ. induction v as [s|n|[l|]| |v IH|[s|]|[l|]|fs IH] using val_ind'; cbn [refs]; auto.
  change (refs P (VFields fs) -> refs Q (VFields fs)). rewrite !refs_fields. intros Hf.
  induction IH; [constructor|]. inversion Hf; subst. constructor; auto.
Qed.

Lemma shape_impl (Pp Ps Pm Qp Qs Qm : nat -> Prop) (v : val) :
  (forall l, Pp l -> Qp l) -> (forall l, Ps l -> Qs l) -> (forall l, Pm l -> Qm l) -> shape Pp Ps Pm v -> shape Qp Qs Qm v.
Proof.
  intros Hp Hs Hm. induction v as [s|n|[l|]| |v IH|[s|]|[l|]|fs IH] using val_ind'; cbn [shape]; auto.
  change (shape Pp Ps Pm (VFields fs) -> shape Qp Qs Qm (VFields fs)). rewrite !shape_fields. intros Hf.
  induction IH; [constructor|]. inversion Hf; subst. constructor; auto.
Qed.

Lemma refsObj_impl (P Q : nat -> Prop) (o : obj) : (forall l, P l -> Q l) -> refsObj P o -> refsObj Q o.
Proof.
  intros HPQ. destruct o as [v|es|es]; cbn [refsObj]; [by apply refs_impl| |]; intros Hf; (eapply Forall_impl; [exact Hf|]).
  - intros v. by apply refs_impl.
  - intros e [H1 H2]. split; by eapply refs_impl.
Qed.

Lemma refs_plain (P : nat -> Prop) (v : val) : refs P v -> plain P v.
Proof.
  induction v as [s|n|[l|]| |v IH|[s|]|[l|]|fs IH] using val_ind'; cbn [refs shape]; auto.
  change (refs P (VFields fs) -> plain P (VFields fs)). rewrite refs_fields, shape_fields. intros Hf.
  induction IH; [constructor|]. inversion Hf; subst. constructor; auto.
Qed.

Lemma copied_impl (P Q : nat -> Prop) (o : obj) : (forall l, P l -> Q l) -> copied P o -> copied Q o.
Proof.
  intros HPQ. destruct o as [v|es|es]; cbn [copied]; [by apply refs_impl|done|]. intros [Hf Hn]. split; [|done].
  eapply Forall_impl; [exact Hf|]. intros e [H1 H2]. split; [done|]. by eapply refs_impl.
Qed.

Lemma copied_refs (P : nat -> Prop) (o : obj) : copied P o -> refsObj P o.
Proof.
  destruct o as [v|es|es]; cbn [copied refsObj]; [done| |]; [intros Hf|intros [Hf _]]; (eapply Forall_impl; [exact Hf|]).
  - intros v. by apply refs_impl.
  - intros [[] ?] [H1 H2]; done.
Qed.

Lemma copied_plain (P : nat -> Prop) (o : obj) : copied P o -> plainObj P o.
Proof.
  destruct o as [v|es|es]; cbn [copied plainObj]; [apply refs_plain|done|]. intros [Hf Hn]. split; [|done].
  eapply Forall_impl; [exact Hf|]. intros e [H1 H2]. split; [done|]. by apply refs_plain.
Qed.

Lemma refs_zero (P : nat -> Prop) (v : val) : refs P (zero v).
Proof.
  induction v as [s|n|l| |v IH|s|l|fs IH] using val_ind'; try done. cbn [zero]. apply refs_fields.
  induction IH; constructor; done.
Qed.

Lemma flat_refs (P : nat -> Prop) (v : val) : flat v -> refs P v.
Proof. by apply refs_impl. Qed.

Lemma Forall_elements (P : val -> Prop) (sl : slice) (es : list val) : Forall P es -> Forall P (elements sl es).
Proof. intros Hes. by apply Forall_take, Forall_drop. Qed.

(** Values whose references agree look the same. *)
Lemma looks_frame (P : nat -> Prop) (h h' : gmap nat obj) :
  (forall l, P l -> h' !! l = h !! l) -> (forall l o, P l -> h !! l = Some o -> refsObj P o) ->
  forall v, refs P v -> looks h h' v v.
Proof.
  intros Heq Hcl v Hv d. revert v Hv. induction d as [|d IH]; intros v Hv; [done|].
  destruct v as [s|n|[l|]|[x|]|[sl|]|[l|]|fs]; cbn [unfold_]; try done.
  - cbn in Hv. rewrite (Heq l Hv). destruct (h !! l) as [[x| |]|] eqn:El; try done. f_equal. apply IH. exact (Hcl l _ Hv El).
  - f_equal. by apply IH.
  - cbn in Hv. rewrite (Heq _ Hv). destruct (h !! sArr sl) as [[|es|]|] eqn:El; try done. f_equal. pose proof (Hcl _ _ Hv El) as Hes. cbn in Hes.
    apply (Forall_elements _ sl) in Hes. rewrite List.Forall_forall in Hes. apply map_ext_in. intros e He. by apply IH, Hes.
  - cbn in Hv. rewrite (Heq _ Hv). destruct (h !! l) as [[| |es]|] eqn:El; try done. f_equal. pose proof (Hcl _ _ Hv El) as Hes. cbn in Hes.
    rewrite List.Forall_forall in Hes. apply map_ext_in. intros e He. destruct (Hes e He) as [H1 H2]. f_equal; by apply IH.
  - f_equal. apply refs_fields in Hv. rewrite List.Forall_forall in Hv. apply map_ext_in. intros f Hf. destruct (fst f); [|done]. apply IH, Hv, Hf.
Qed.

(** ** The copy *)

Section Clone.

(** The heap before, and where it ends. *)
Context (h0 : gmap nat obj) (n0 : nat).
Hypothesis h0_end : forall l, n0 <= l -> h0 !! l = None.
Hypothesis h0_plain : forall l o, h0 !! l = Some o -> plainObj (fun l => l < n0) o.

Definition between (n : nat) (l : nat) : Prop := n0 <= l < n.

Record inv (s : St) : Prop := {
  i_old : forall l, l < n0 -> hp s !! l = h0 !! l;
  i_next : n0 <= next s;
  i_free : forall l, next s <= l -> hp s !! l = None;
  i_new : forall l o, n0 <= l -> hp s !! l = Some o -> copied (between (next s)) o;
  i_seen : forall l p, seen s !! l = Some p -> between (next s) p;
}.

Record grows (s s' : St) : Prop := {
  g_next : next s <= next s';
  g_hp : forall l, l < next s -> hp s' !! l = hp s !! l;
  g_seen : forall l p, seen s !! l = Some p -> seen s' !! l = Some p;
  g_new : forall l p, seen s' !! l = Some p -> seen s !! l = Some p \/ next s <= p;
}.

Lemma clone_grows_refl (s : St) : grows s s.
Proof. split; auto. Qed.

Lemma clone_grows_trans (s1 s2 s3 : St) : grows s1 s2 -> grows s2 s3 -> grows s1 s3.
Proof.
  intros [A1 A2 A3 A4] [B1 B2 B3 B4]. split; [lia| | |].
  - intros l Hl. rewrite B2 by lia. by apply A2.
  - auto.
  - intros l p Hp. destruct (B4 l p Hp) as [H|H]; [by apply A4|right; lia].
Qed.

(** A value and its copy, pointers through the map of the copy. *)
Fixpoint rel (k : nat) (sn : gmap nat nat) (h : gmap nat obj) (v v' : val) {struct k} : Prop :=
  match k with
  | O => False
  | S k =>
      match v, v' with
      | VScalar s, VScalar t => s = t
      | VPtr None, VPtr None | VIface None, VIface None | VSlice None, VSlice None | VMap None, VMap None => True
      | VPtr (Some l), VPtr (Some p) => sn !! l = Some p
      | VIface (Some x), VIface (Some y) => rel k sn h x y
      | VSlice (Some sl), VSlice (Some sl') =>
          exists es es', h0 !! sArr sl = Some (OArr es) /\ h !! sArr sl' = Some (OArr es') /\ elements sl es = elements sl' es'
      | VMap (Some l), VMap (Some p) =>
          exists es es', h0 !! l = Some (OMap es) /\ h !! p = Some (OMap es') /\
          Forall2 (fun e e' => fst e = fst e' /\ scalarKey (fst e) /\ rel k sn h (snd e) (snd e')) es es'
      | VFields fs, VFields gs => Forall2 (fun f g => fst f = fst g /\ (fst f = true -> rel k sn h (snd f) (snd g))) fs gs
      | _, _ => False
      end
  end.

(** Slices and maps that are there stay as they are. *)
Definition keepsShared (h h' : gmap nat obj) : Prop :=
  forall l o, h !! l = Some o -> match o with OVar _ => True | _ => h' !! l = Some o end.

Lemma rel_stable (k : nat) (sn sn' : gmap nat nat) (h h' : gmap nat obj) (v v' : val) :
  (forall l p, sn !! l = Some p -> sn' !! l = Some p) -> keepsShared h h' -> rel k sn h v v' -> rel k sn' h' v v'.
Proof.
  intros Hsn Hh. revert v v'. induction k as [|k IH]; intros v v'; [done|].
  destruct v as [s|n|[l|]|[x|]|[sl|]|[l|]|fs], v' as [s'|n'|[l'|]|[x'|]|[sl'|]|[l'|]|fs']; cbn [rel]; try done.
  - apply Hsn.
  - apply IH.
  - intros (es & es' & H1 & H2 & H3). exists es, es'. split; [done|]. split; [exact (Hh _ _ H2)|done].
  - intros (es & es' & H1 & H2 & H3). exists es, es'. split; [done|]. split; [exact (Hh _ _ H2)|].
    eapply Forall2_impl; [exact H3|]. intros e e' (He1 & He2 & He3). auto.
  - intros H3. eapply Forall2_impl; [exact H3|]. intros f f' (Hf1 & Hf2). auto.
Qed.

(** Every pointer met so far has its copy, or is in progress. *)
Definition seenDone (s : St) (G : nat -> Prop) : Prop :=
  forall l p, seen s !! l = Some p ->
  G p \/ exists k x x', h0 !! l = Some (OVar x) /\ hp s !! p = Some (OVar x') /\ rel k (seen s) (hp s) x x'.

Lemma grows_keepsShared (s s' : St) : inv s -> grows s s' -> keepsShared (hp s) (hp s').
Proof.
  intros Hi Hg l o Ho. destruct o; [done| |]; rewrite (g_hp s s' Hg); try done;
    (destruct (le_lt_dec (next s) l) as [Hle|]; [|done]); rewrite (i_free s Hi l Hle) in Ho; done.
Qed.

Lemma rel_grows (k : nat) (s s' : St) (v v' : val) :
  inv s -> grows s s' -> rel k (seen s) (hp s) v v' -> rel k (seen s') (hp s') v v'.
Proof. intros Hi Hg. apply rel_stable; [apply Hg|by apply grows_keepsShared]. Qed.

Lemma refs_grows (s s' : St) (v : val) : grows s s' -> refs (between (next s)) v -> refs (between (next s')) v.
Proof. intros Hg. apply refs_impl. intros l [? ?]. pose proof (g_next s s' Hg). split; lia. Qed.

(** A loop of clones. *)
Lemma traverse_spec {A C : Type} (f : A -> St -> option (St * C)) (Pre : A -> Prop) (Post : St -> A -> C -> Prop) (I : St -> Prop) :
  (forall a s s' b, Pre a -> I s -> f a s = Some (s', b) -> I s' /\ grows s s' /\ Post s' a b) ->
  (forall s s' a b, I s -> grows s s' -> Post s a b -> Post s' a b) ->
  forall l s s' bs, Forall Pre l -> I s -> traverse f l s = Some (s', bs) -> I s' /\ grows s s' /\ Forall2 (Post s') l bs.
Proof.
  intros Hf Hstable l. induction l as [|a l IH]; intros s s' bs Hl HI E; cbn [traverse] in E.
  - injection E as <- <-. split; [done|]. split; [apply clone_grows_refl|constructor].
  - inversion Hl; subst. destruct (f a s) as [[s1 b]|] eqn:Ef; [|done]. destruct (traverse f l s1) as [[s2 bs']|] eqn:Et; [|done].
    injection E as <- <-. destruct (Hf _ _ _ _ ltac:(done) HI Ef) as (HI1 & Hg1 & HP).
    destruct (IH _ _ _ ltac:(done) HI1 Et) as (HI2 & Hg2 & HF). split; [done|]. split; [by eapply clone_grows_trans|].
    constructor; [exact (Hstable _ _ _ _ HI1 Hg2 HP)|done].
Qed.

Lemma alloc_inv (o : obj) (s : St) : inv s -> copied (between (S (next s))) o -> inv (fst (alloc o s)) /\ grows s (fst (alloc o s)).
Proof.
  intros Hi Ho. pose proof (i_next s Hi) as Hn. split.
  - destruct Hi as [H1 H2 H3 H4 H5]. split; cbn [alloc fst hp next seen].
    + intros l Hl. rewrite lookup_insert_ne by lia. auto.
    + lia.
    + intros l Hl. rewrite lookup_insert_ne by lia. apply H3. lia.
    + intros l o' Hl. rewrite lookup_insert. case_decide; [by intros [= <-]|]. intros Ho'. eapply copied_impl; [|exact (H4 l o' Hl Ho')].
      unfold between. lia.
    + intros l p Hp. apply H5 in Hp. unfold between in *. lia.
  - split; cbn [alloc fst hp next seen]; [lia| |auto|auto]. intros l Hl. by rewrite lookup_insert_ne by lia.
Qed.

Lemma seenDone_grows (s s' : St) (G : nat -> Prop) : inv s -> grows s s' -> seen s' = seen s -> seenDone s G -> seenDone s' G.
Proof.
  intros Hi Hg Hs Hd l p Hp. rewrite Hs in Hp. destruct (Hd l p Hp) as [HG|(k & x & x' & H1 & H2 & H3)]; [by left|right].
  exists k, x, x'. split; [done|]. split; [|by apply rel_grows with s].
  rewrite (g_hp s s' Hg); [done|]. by apply (i_seen s Hi) in Hp as [_ ?].
Qed.

(** Distinct scalar keys are set one after the other. *)
Lemma mapSet_fresh (k v : val) (es : list (val * val)) :
  scalarKey k -> Forall (fun e => scalarKey (fst e)) es -> ~ k ∈ map fst es -> mapSet k v es = es ++ [(k, v)].
Proof.
  intros Hk Hes Hin. induction Hes as [|[k' x] es He _ IH]; [done|]. cbn [mapSet fst map] in *.
  destruct k as [s| | | | | |]; try done. destruct k' as [s'| | | | | |]; try done. cbn [keyEq].
  destruct (String.eqb_spec s' s) as [->|_]; [destruct Hin; by left|]. cbn [app]. f_equal. apply IH. intros H. apply Hin. by right.
Qed.

Lemma mapSet_all (es acc : list (val * val)) :
  Forall (fun e => scalarKey (fst e)) (acc ++ es) -> NoDup (map fst (acc ++ es)) ->
  fold_left (fun m e => mapSet (fst e) (snd e) m) es acc = acc ++ es.
Proof.
  revert acc. induction es as [|[k x] es IH]; intros acc Hs Hnd; [by rewrite app_nil_r|]. cbn [fold_left fst snd].
  assert (mapSet k x acc = acc ++ [(k, x)]) as ->.
  { apply Forall_app in Hs as [Hs1 Hs2]. inversion Hs2; subst. apply mapSet_fresh; [done|done|].
    rewrite map_app in Hnd. apply NoDup_app in Hnd as (_ & Hnd & _). intros Hin. apply (Hnd k Hin). by left. }
  rewrite IH; rewrite <- app_assoc; done.
Qed.

(** A new array holds the elements first. *)
Lemma elements_copy (sl : slice) (es : list val) (p : nat) :
  elements sl es =
  elements (mkSlice p 0 (sLen sl) (sCap sl)) (elements sl es ++ map zero (take (sCap sl - sLen sl) (drop (sOff sl + sLen sl) es))).
Proof.
  unfold elements at 2. cbn [sLen sOff]. rewrite drop_0. destruct (le_lt_dec (sLen sl) (length (elements sl es))) as [Hle|Hlt].
  - assert (length (elements sl es) = sLen sl) as Hlen.
    { unfold elements in *. rewrite length_take in *. lia. }
    by rewrite take_app_le, take_ge by lia.
  - assert (drop (sOff sl + sLen sl) es = []) as ->.
    { apply drop_ge. unfold elements in Hlt. rewrite length_take, length_drop in Hlt. lia. }
    rewrite take_nil, app_nil_r. by rewrite take_ge by lia.
Qed.

(** A pointer that is met for the first time: its placeholder is marked. *)
Lemma mark_spec (l p : nat) (s : St) (G : nat -> Prop) :
  inv s -> seenDone s G -> seen s !! l = None -> between (next s) p ->
  inv (mark l p s) /\ seenDone (mark l p s) (fun q => G q \/ q = p).
Proof.
  intros Hi Hd Hl Hp. split.
  - destruct Hi as [H1 H2 H3 H4 H5]. split; cbn [mark hp next seen]; try done.
    intros a q. rewrite lookup_insert. case_decide; [by intros [= <-]|apply H5].
  - intros a q. cbn [mark hp next seen]. rewrite lookup_insert. case_decide as Ha; [intros [= <-]; by left; right|]. intros Hq.
    destruct (Hd a q Hq) as [HG|(k & x & x' & H1 & H2 & H3)]; [by left; left|right]. exists k, x, x'. split; [done|]. split; [done|].
    eapply rel_stable; [|intros ? [] ?; done|exact H3]. intros b r Hb. cbn. rewrite lookup_insert_ne; [done|]. intros ->. congruence.
Qed.

(** The placeholder is filled at the end. *)
Lemma write_spec (l p : nat) (x x' : val) (k : nat) (s0 s1 s2 : St) (G : nat -> Prop) :
  inv s0 -> s1 = mark l p (fst (alloc (OVar (zero x)) s0)) -> p = next s0 -> seen s0 !! l = None ->
  inv s2 -> grows s1 s2 -> seenDone s2 (fun q => G q \/ q = p) -> h0 !! l = Some (OVar x) ->
  rel k (seen s2) (hp s2) x x' -> refs (between (next s2)) x' ->
  let s3 := write p (OVar x') s2 in
  inv s3 /\ grows s0 s3 /\ seenDone s3 G /\ seen s3 !! l = Some p /\ between (next s3) p.
Proof.
  intros Hi0 -> -> Hl Hi2 Hg Hd Hx Hrel Hrefs. cbv zeta. pose proof (i_next s0 Hi0) as Hn0. pose proof (g_next _ _ Hg) as Hn. cbn in Hn.
  set (p := next s0) in *.
  assert (hp s2 !! p = Some (OVar (zero x))) as Hph.
  { rewrite (g_hp _ _ Hg); cbn; [apply lookup_insert_eq|lia]. }
  assert (keepsShared (hp s2) (<[p := OVar x']> (hp s2))) as Hks.
  { intros a o Ha. destruct o; [done| |]; (rewrite lookup_insert_ne; [done|]; intros ->; congruence). }
  split; [|split; [|split; [|split]]].
  - destruct Hi2 as [H1 H2 H3 H4 H5]. split; cbn [write hp next seen]; try done.
    + intros a Ha. rewrite lookup_insert_ne by lia. auto.
    + intros a Ha. rewrite lookup_insert_ne by lia. auto.
    + intros a o Ha. rewrite lookup_insert. case_decide; [intros [= <-]; exact Hrefs|apply H4; done].
  - split; cbn [write hp next seen]; [lia| | |].
    + intros a Ha. rewrite lookup_insert_ne by lia. rewrite (g_hp _ _ Hg) by (cbn; lia). cbn. by rewrite lookup_insert_ne by lia.
    + intros a q Hq. apply (g_seen _ _ Hg). cbn. rewrite lookup_insert_ne; [done|]. intros ->. congruence.
    + intros a q Hq. destruct (g_new _ _ Hg a q Hq) as [H|H]; [|right; cbn in H; lia]. cbn in H. rewrite lookup_insert in H.
      case_decide; [injection H as <-; right; lia|by left].
  - intros a q Hq. cbn [write hp next seen] in *. destruct (Nat.eq_dec q p) as [->|Hne].
    + right. assert (a = l) as ->.
      { destruct (g_new _ _ Hg a p Hq) as [H|H]; [|cbn in H; lia]. cbn in H. rewrite lookup_insert in H. case_decide; [done|].
        apply (i_seen s0 Hi0) in H as [_ H]. lia. }
      exists k, x, x'. split; [done|]. split; [apply lookup_insert_eq|]. by eapply rel_stable.
    + destruct (Hd a q Hq) as [[HG|HG]|(j & y & y' & H1 & H2 & H3)]; [by left|done|right]. exists j, y, y'.
      split; [done|]. split; [by rewrite lookup_insert_ne|]. by eapply rel_stable.
  - cbn. apply (g_seen _ _ Hg). cbn. apply lookup_insert_eq.
  - split; cbn; lia.
Qed.

(** The copy of a plain value: the old heap is untouched, the copy refers to new objects
    only, and it is related to the value. *)
Lemma cloneInto_spec (f : nat) (v v' : val) (s s' : St) (G : nat -> Prop) :
  inv s -> seenDone s G -> plain (fun l => l < n0) v -> cloneInto f v s = Some (s', v') ->
  inv s' /\ grows s s' /\ seenDone s' G /\ rel f (seen s') (hp s') v v' /\ refs (between (next s')) v'.
Proof.
  revert v v' s s' G. induction f as [|f IH]; intros v v' s s' G Hi Hd Hv E; [done|].
  pose proof (clone_grows_refl s) as Hrefl.
  destruct v as [t|n|[l|]|[x|]|[sl|]|[l|]|fs]; cbn [cloneInto] in E; try (injection E as <- <-; by cbn in Hv |- *).
  - (* a pointer *)
    cbn in Hv. destruct (seen s !! l) as [p|] eqn:El.
    { injection E as <- <-. split_and!; try done. cbn. by apply (i_seen s Hi) in El. }
    rewrite (i_old s Hi l Hv) in E. destruct (h0 !! l) as [[x| |]|] eqn:Ex; [|done..].
    destruct (alloc_inv (OVar (zero x)) s Hi (refs_zero _ _)) as [Hi1 Hg1].
    destruct (mark_spec l (next s) (fst (alloc (OVar (zero x)) s)) G Hi1) as [Hi2 Hd2];
      [by apply seenDone_grows with s|done|split; cbn; [apply (i_next s Hi)|lia]|].
    cbn [alloc] in E. destruct (cloneInto f x _) as [[s2 x']|] eqn:Ec; [|done]. injection E as <- <-.
    destruct (IH x x' _ s2 (fun q => G q \/ q = next s) Hi2 Hd2 (h0_plain _ _ Ex) Ec) as (Hi3 & Hg3 & Hd3 & Hr3 & Hf3).
    destruct (write_spec l (next s) x x' f s _ s2 G Hi eq_refl eq_refl El Hi3 Hg3 Hd3 Ex Hr3 Hf3) as (A & B & C & D & F).
    split_and!; done.
  - (* an interface *)
    destruct (cloneInto f x s) as [[s1 x']|] eqn:Ex; [|done]. injection E as <- <-. exact (IH x x' s s1 G Hi Hd Hv Ex).
  - (* a slice *)
    cbn in Hv. rewrite (i_old s Hi _ Hv) in E. destruct (h0 !! sArr sl) as [[|es|]|] eqn:Ex; [done| |done..].
    pose proof (h0_plain _ _ Ex) as Hes. cbn [plainObj] in Hes.
    set (spare := map zero _) in E. set (o := OArr (elements sl es ++ spare)) in *.
    destruct (alloc_inv o s Hi) as [Hi1 Hg1].
    { cbn. apply Forall_app. split.
      - exact (Forall_elements _ sl es Hes).
      - apply List.Forall_map, List.Forall_forall. intros e _. apply refs_zero. }
    cbn [alloc] in E. injection E as <- <-. split; [exact Hi1|]. split; [exact Hg1|].
    split; [by apply seenDone_grows with s|]. split; [|split; cbn; [apply (i_next s Hi)|lia]].
    cbn [rel]. exists es, (elements sl es ++ spare). split; [done|]. split; [apply lookup_insert_eq|].
    exact (elements_copy sl es _).
  - (* a map *)
    cbn in Hv. rewrite (i_old s Hi _ Hv) in E. destruct (h0 !! l) as [[| |es]|] eqn:Ex; [done..| |done].
    pose proof (h0_plain _ _ Ex) as [Hes Hnd].
    destruct (traverse _ es s) as [[s1 es']|] eqn:Et; [|done].
    apply traverse_spec with (Pre := fun e => scalarKey (fst e) /\ plain (fun l => l < n0) (snd e)) (I := fun s => inv s /\ seenDone s G)
      (Post := fun s e e' => (fst e = fst e' /\ scalarKey (fst e) /\ rel f (seen s) (hp s) (snd e) (snd e')) /\ refs (between (next s)) (snd e'))
      in Et as ([Hi1 Hd1] & Hg1 & HF); [|..|exact Hes|by split].
    + set (m := fold_left _ es' []) in E. cbn [alloc] in E. injection E as <- <-.
      assert (map fst es' = map fst es) as Hkeys.
      { clear -HF. induction HF as [|e e' es es' [[He _] _] _ IH]; [done|]. cbn. by rewrite He, IH. }
      assert (Forall (fun e => scalarKey (fst e) /\ refs (between (next s1)) (snd e)) es') as Hes'.
      { clear -HF. induction HF as [|e e' es es' [(He & Hs & _) Hr] _ IH]; [constructor|]. constructor; [|done]. by rewrite <- He. }
      assert (m = es') as ->.
      { unfold m. rewrite mapSet_all; [done| |by cbn; rewrite Hkeys]. eapply Forall_impl; [exact Hes'|]. by intros e [? _]. }
      destruct (alloc_inv (OMap es') s1 Hi1) as [Hi2 Hg2].
      { cbn. split; [|by rewrite Hkeys]. eapply Forall_impl; [exact Hes'|]. intros [k x] [Hk Hr]. split; [done|]. eapply refs_impl; [|exact Hr].
        unfold between. cbn. lia. }
      split; [exact Hi2|]. split; [exact (clone_grows_trans _ _ _ Hg1 Hg2)|]. split; [by apply seenDone_grows with s1|].
      split; [|split; cbn; [apply (i_next s1 Hi1)|lia]]. cbn [rel]. exists es, es'. split; [done|]. split; [apply lookup_insert_eq|].
      eapply Forall2_impl; [exact HF|]. intros e e' [(H1 & H2 & H3) _]. split; [done|]. split; [done|]. exact (rel_grows _ _ _ _ _ Hi1 Hg2 H3).
    + intros [k x] s0 s2 [k' x'] [Hk Hx] [Hi0 Hd0] Ea. cbn [fst snd] in *. destruct k as [t| | | | | |]; try done.
      destruct (cloneInto f (VScalar t) s0) as [[s3 k3]|] eqn:Ek; [|done]. destruct f as [|f']; [done|]. cbn [cloneInto] in Ek. injection Ek as <- <-.
      destruct (cloneInto (S f') x s0) as [[s4 x4]|] eqn:Ex4; [|done]. injection Ea as <- <- <-.
      destruct (IH x x4 s0 s4 G Hi0 Hd0 Hx Ex4) as (A & B & C & D & F). by split_and!.
    + intros s0 s2 e e' [Hi0 _] Hg0 [(H1 & H2 & H3) H4]. split_and!; [done|done|by apply rel_grows with s0|by eapply refs_grows].
  - (* fields *)
    apply shape_fields in Hv. destruct (traverse _ fs s) as [[s1 fs']|] eqn:Et; [|done]. injection E as <- <-.
    apply traverse_spec with (Pre := fun g => fst g = true -> plain (fun l => l < n0) (snd g)) (I := fun s => inv s /\ seenDone s G)
      (Post := fun s g g' => (fst g = fst g' /\ (fst g = true -> rel f (seen s) (hp s) (snd g) (snd g'))) /\ refs (between (next s)) (snd g'))
      in Et as ([Hi1 Hd1] & Hg1 & HF); [|..|exact Hv|by split].
    + split; [done|]. split; [done|]. split; [done|]. split; [cbn [rel]; eapply Forall2_impl; [exact HF|]; by intros g g' [? _]|].
      apply refs_fields. clear -HF. induction HF as [|g g' fs fs' [_ Hr] _ IH]; by constructor.
    + intros [[] x] s0 s2 [b x'] Hx [Hi0 Hd0] Ea; cbn [fst snd] in *.
      * destruct (cloneInto f x s0) as [[s4 x4]|] eqn:Ex4; [|done]. injection Ea as <- <- <-.
        destruct (IH x x4 s0 s4 G Hi0 Hd0 (Hx eq_refl) Ex4) as (A & B & C & D & F). by split_and!.
      * injection Ea as <- <- <-. split; [done|]. split; [apply clone_grows_refl|]. split; [done|]. apply refs_zero.
    + intros s0 s2 g g' [Hi0 _] Hg0 [(H1 & H2) H4]. split_and!; [done|intros Hg; apply rel_grows with s0; auto|by eapply refs_grows].
Qed.

(** When every pointer has its copy, a value and its copy look the same. *)
Lemma rel_looks (sn : gmap nat nat) (h : gmap nat obj) :
  (forall l p, sn !! l = Some p -> exists k x x', h0 !! l = Some (OVar x) /\ h !! p = Some (OVar x') /\ rel k sn h x x') ->
  forall d k v v', rel k sn h v v' -> unfold_ d h0 v = unfold_ d h v'.
Proof.
  intros Hsn d. induction d as [|d IH]; intros k v v'; [done|]. destruct k as [|k]; [done|].
  destruct v as [t|n|[l|]|[x|]|[sl|]|[l|]|fs], v' as [t'|n'|[l'|]|[x'|]|[sl'|]|[l'|]|fs']; cbn [rel unfold_]; try done.
  - by intros ->.
  - intros Hp. destruct (Hsn l l' Hp) as (j & x & x' & -> & -> & Hr). f_equal. by eapply IH.
  - intros Hr. f_equal. by eapply IH.
  - intros (es & es' & Hes & -> & He). rewrite Hes, <- He. f_equal. pose proof (h0_plain _ _ Hes) as Hfl. cbn [plainObj] in Hfl.
    apply (Forall_elements _ sl) in Hfl. rewrite List.Forall_forall in Hfl. apply map_ext_in. intros e Hin.
    by apply (looks_frame (fun _ => False) h0 h); [| |apply Hfl].
  - intros (es & es' & -> & -> & HF). f_equal. induction HF as [|e e' es es' (H1 & H2 & H3) _ IHF]; [done|]. cbn [map]. f_equal; [|done].
    rewrite <- H1. f_equal; [|by eapply IH]. destruct (fst e); [|done..]. by destruct d.
  - intros HF. f_equal. induction HF as [|f f' fs fs' (H1 & H2) _ IHF]; [done|]. cbn [map]. f_equal; [|done].
    rewrite <- H1. destruct (fst f); [|done]. eapply IH. by apply H2.
Qed.

(** What [clone] gives when it returns. *)
Lemma clone_spec_in (f : nat) (v v' : val) (h' : gmap nat obj) (n' : nat) :
  plain (fun l => l < n0) v -> clone f v h0 n0 = Some (h', n', v') ->
  n0 <= n' /\ (forall l, l < n0 -> h' !! l = h0 !! l) /\ (forall l, n' <= l -> h' !! l = None) /\
  (forall l o, n0 <= l -> h' !! l = Some o -> copied (between n') o) /\ refs (between n') v' /\ looks h0 h' v v'.
Proof.
  intros Hv E. unfold clone in E. destruct (cloneInto f v _) as [[s' x]|] eqn:Ec; [|done]. injection E as <- <- <-.
  destruct (cloneInto_spec f v x (mkSt h0 n0 ∅) s' (fun _ => False)) as (Hi & Hg & Hd & Hr & Hf); [|done..|].
  { split; cbn; [done|lia|exact h0_end| |done]. intros l o Hl Ho. by rewrite (h0_end l Hl) in Ho. }
  split; [apply Hi|]. split; [apply Hi|]. split; [apply Hi|]. split; [apply Hi|]. split; [exact Hf|]. intros d.
  eapply rel_looks; [|exact Hr]. intros l p Hp. by destruct (Hd l p Hp).
Qed.

(** ** It returns *)

Lemma traverse_mono {A C : Type} (f g : A -> St -> option (St * C)) (l : list A) :
  (forall a s r, f a s = Some r -> g a s = Some r) -> forall s r, traverse f l s = Some r -> traverse g l s = Some r.
Proof.
  intros Hfg. induction l as [|a l IH]; intros s r; cbn [traverse]; [done|]. destruct (f a s) as [[s1 b]|] eqn:Ef; [|done].
  rewrite (Hfg _ _ _ Ef). destruct (traverse f l s1) as [r'|] eqn:Et; [|done]. by rewrite (IH _ _ Et).
Qed.

Lemma cloneInto_S (n : nat) : forall v s r, cloneInto n v s = Some r -> cloneInto (S n) v s = Some r.
Proof.
  induction n as [|n IH]; intros v s r E; [done|]. remember (S n) as m eqn:Em in IH |- *. cbn [cloneInto] in E |- *.
  destruct v as [t|k|[l|]|[x|]|[sl|]|[l|]|fs]; try done.
  - destruct (seen s !! l); [done|]. destruct (hp s !! l) as [[x| |]|]; try done. cbn [alloc] in E |- *.
    destruct (cloneInto n x _) as [q|] eqn:Ex; [|done]. apply IH in Ex. by rewrite Ex.
  - destruct (cloneInto n x s) as [q|] eqn:Ex; [|done]. apply IH in Ex. by rewrite Ex.
  - destruct (hp s !! l) as [[| |es]|]; try done. destruct (traverse _ es s) as [q|] eqn:Et in E; [|done].
    apply (traverse_mono _ (fun (e : val * val) (s : St) =>
                                match cloneInto m (fst e) s with
                                | None => None
                                | Some (s, k) => match cloneInto m (snd e) s with None => None | Some (s, x) => Some (s, (k, x)) end
                                end)) in Et; [by rewrite Et|]. intros e s1 r1 E1.
    destruct (cloneInto n (fst e) s1) as [[s2 k]|] eqn:E2; [|done]. apply IH in E2. rewrite E2.
    destruct (cloneInto n (snd e) s2) as [[s3 x]|] eqn:E3; [|done]. apply IH in E3. by rewrite E3.
  - destruct (traverse _ fs s) as [q|] eqn:Et in E; [|done].
    apply (traverse_mono _ (fun (f : bool * val) (s : St) =>
                            if fst f then match cloneInto m (snd f) s with None => None | Some (s, x) => Some (s, (true, x)) end
                            else Some (s, (false, zero (snd f))))) in Et; [by rewrite Et|]. intros f s1 r1 E1. destruct (fst f); [|done].
    destruct (cloneInto n (snd f) s1) as [q'|] eqn:E2; [|done]. apply IH in E2. by rewrite E2.
Qed.

Lemma cloneInto_mono (n m : nat) (v : val) (s : St) r : n <= m -> cloneInto n v s = Some r -> cloneInto m v s = Some r.
Proof. induction 1; [done|]. intros E. apply cloneInto_S; auto. Qed.

Definition returns (v : val) (s : St) : Prop := exists n r, cloneInto n v s = Some r.

Lemma traverse_returns {A C : Type} (f : nat -> A -> St -> option (St * C)) (I : St -> Prop) (Pre : A -> Prop) :
  (forall n m a s r, n <= m -> f n a s = Some r -> f m a s = Some r) ->
  (forall a s, Pre a -> I s -> exists n s' b, f n a s = Some (s', b) /\ I s') ->
  forall l s, Forall Pre l -> I s -> exists n r, traverse (f n) l s = Some r.
Proof.
  intros Hm Hf l. induction l as [|a l IH]; intros s Hl HI; [by exists 0, (s, [])|]. inversion Hl; subst.
  destruct (Hf a s ltac:(done) HI) as (n1 & s1 & b & E1 & HI1). destruct (IH s1 ltac:(done) HI1) as (n2 & [s2 bs] & E2).
  exists (max n1 n2), (s2, b :: bs). cbn [traverse]. rewrite (Hm n1 (max n1 n2) _ _ _ (Nat.le_max_l _ _) E1).
  rewrite (traverse_mono (f n2) (f (max n1 n2)) l) with (r := (s2, bs)); [done| |done]. intros a' s' r' E. exact (Hm n2 (max n1 n2) _ _ _ (Nat.le_max_r _ _) E).
Qed.

(** No map holds itself without a pointer in between: maps have ranks that decrease. *)
Context (rank : nat -> nat) (R : nat).

Definition good (r : nat) : val -> Prop :=
  shape (fun l => exists x, h0 !! l = Some (OVar x)) (fun l => exists es, h0 !! l = Some (OArr es))
        (fun l => rank l < r /\ exists es, h0 !! l = Some (OMap es)).

Hypothesis h0_good :
  forall l o, h0 !! l = Some o ->
  match o with OVar x => good R x | OArr _ => True | OMap es => Forall (fun e => good (rank l) (snd e)) es end.

Lemma h0_lt (l : nat) (o : obj) : h0 !! l = Some o -> l < n0.
Proof. intros Hl. destruct (le_lt_dec n0 l) as [Hle|]; [by rewrite (h0_end l Hle) in Hl|done]. Qed.

Lemma good_plain (r : nat) (v : val) : good r v -> plain (fun l => l < n0) v.
Proof. apply shape_impl; [intros l [? ?]|intros l [? ?]|intros l [_ [? ?]]]; by eapply h0_lt. Qed.

(** The pointers that are not met yet. *)
Definition unseen (s : St) : nat := length (List.filter (fun l => if seen s !! l then false else true) (seq 0 n0)).

Lemma filter_le {A : Type} (f g : A -> bool) (l : list A) :
  (forall a, f a = true -> g a = true) -> length (List.filter f l) <= length (List.filter g l).
Proof.
  intros Hfg. induction l as [|a l IH]; [done|]. cbn. destruct (f a) eqn:Ef; [rewrite (Hfg a Ef); cbn; lia|].
  destruct (g a); cbn; lia.
Qed.

Lemma filter_lt {A : Type} (f g : A -> bool) (l : list A) (x : A) :
  (forall a, f a = true -> g a = true) -> In x l -> f x = false -> g x = true -> length (List.filter f l) < length (List.filter g l).
Proof.
  intros Hfg. induction l as [|a l IH]; [done|]. intros [->|Hin] Hf Hg; cbn.
  - rewrite Hf, Hg. cbn. pose proof (filter_le f g l Hfg). lia.
  - specialize (IH Hin Hf Hg). destruct (f a) eqn:Ef; [rewrite (Hfg a Ef); cbn; lia|]. destruct (g a); cbn; lia.
Qed.

Lemma unseen_grows (s s' : St) : grows s s' -> unseen s' <= unseen s.
Proof.
  intros Hg. apply filter_le. intros l Hl. destruct (seen s !! l) as [p|] eqn:E; [|done]. by rewrite (g_seen s s' Hg l p E) in Hl.
Qed.

Lemma unseen_mark (l p : nat) (s : St) : l < n0 -> seen s !! l = None -> unseen (mark l p s) < unseen s.
Proof.
  intros Hl E. apply filter_lt with l; cbn [mark seen].
  - intros a Ha. destruct (decide (l = a)) as [->|]; [by rewrite E|]. by rewrite lookup_insert_ne in Ha.
  - apply in_seq. lia.
  - by rewrite lookup_insert_eq.
  - by rewrite E.
Qed.

(** Each pointer is followed once, and between two pointers the maps have smaller and smaller ranks. *)
Lemma cloneInto_returns (u : nat) :
  forall r, r <= R -> forall v s, inv s -> unseen s <= u -> good r v -> returns v s.
Proof.
  induction u as [u IHu] using lt_wf_ind. intros r. induction r as [r IHr] using lt_wf_ind. intros Hr v.
  induction v as [t|n|[l|]| |x IH|[sl|]|[l|]|fs IH] using val_ind'; intros s Hi Hu Hv; try (by exists 1; eexists).
  - (* a pointer *)
    destruct Hv as [x Ex]. pose proof (h0_lt _ _ Ex) as Hlt. destruct (seen s !! l) as [p|] eqn:El; [exists 1; eexists; cbn; by rewrite El|].
    destruct (alloc_inv (OVar (zero x)) s Hi (refs_zero _ _)) as [Hi1 Hg1].
    destruct (mark_spec l (next s) (fst (alloc (OVar (zero x)) s)) (fun _ => True) Hi1) as [Hi2 _];
      [by left|done|split; cbn; [apply (i_next s Hi)|lia]|].
    assert (unseen (mark l (next s) (fst (alloc (OVar (zero x)) s))) < unseen s) as Hless.
    { eapply Nat.lt_le_trans; [by apply unseen_mark|by apply unseen_grows]. }
    destruct (IHu _ (Nat.lt_le_trans _ _ _ Hless Hu) R (le_n R) x _ Hi2 (le_n _)) as (n & [s2 x'] & E); [exact (h0_good _ _ Ex)|].
    exists (S n). eexists. cbn [cloneInto]. rewrite El, (i_old s Hi l Hlt), Ex. cbn [alloc]. cbn [alloc fst] in E. by rewrite E.
  - destruct (IH s Hi Hu Hv) as (n & [s1 x'] & E). exists (S n). eexists. cbn [cloneInto]. by rewrite E.
  - destruct Hv as [es Ex]. exists 1. eexists. cbn [cloneInto]. by rewrite (i_old s Hi _ (h0_lt _ _ Ex)), Ex.
  - (* a map *)
    destruct Hv as (Hrk & es & Ex). pose proof (h0_good _ _ Ex) as Hes. cbn in Hes. destruct (h0_plain _ _ Ex) as [Hk _].
    destruct (traverse_returns (fun n (e : val * val) (s : St) =>
                                match cloneInto n (fst e) s with
                                | None => None
                                | Some (s, k) => match cloneInto n (snd e) s with None => None | Some (s, x) => Some (s, (k, x)) end
                                end) (fun s => inv s /\ unseen s <= u) (fun e => scalarKey (fst e) /\ good (rank l) (snd e)))
      with (l := es) (s := s) as (n & [s1 es'] & E); [..|by split|].
    + intros n m a s0 q Hle. destruct (cloneInto n (fst a) s0) as [[s1 k]|] eqn:E1; [|done]. rewrite (cloneInto_mono _ _ _ _ _ Hle E1).
      destruct (cloneInto n (snd a) s1) as [[s2 x]|] eqn:E2; [|done]. by rewrite (cloneInto_mono _ _ _ _ _ Hle E2).
    + intros [k x] s0 [Hks Hx] [Hi0 Hu0]. cbn [fst snd] in *. destruct k as [t| | | | | |]; try done.
      destruct (IHr (rank l) Hrk ltac:(lia) x s0 Hi0 Hu0 Hx) as (n & [s1 x'] & E). exists (S n), s1, (VScalar t, x'). cbn [cloneInto fst snd].
      pose proof (cloneInto_S _ _ _ _ E) as E'. cbn [cloneInto] in E'. rewrite E'. split; [done|].
      destruct (cloneInto_spec n x x' s0 s1 (fun _ => True)) as (A & B & _); [done|by intros ???; left|by eapply good_plain|done|].
      split; [done|]. pose proof (unseen_grows _ _ B). lia.
    + rewrite List.Forall_forall in Hes, Hk |- *. intros e He. split; [by apply Hk|by apply Hes].
    + exists (S n). eexists. cbn [cloneInto]. rewrite (i_old s Hi l (h0_lt _ _ Ex)), Ex. by rewrite E.
  - (* fields *)
    apply shape_fields in Hv.
    destruct (traverse_returns (fun n (f : bool * val) (s : St) =>
                            if fst f then match cloneInto n (snd f) s with None => None | Some (s, x) => Some (s, (true, x)) end
                            else Some (s, (false, zero (snd f)))) (fun s => inv s /\ unseen s <= u)
      (fun f => fst f = true -> good r (snd f) /\ forall s, inv s -> unseen s <= u -> returns (snd f) s))
      with (l := fs) (s := s) as (n & [s1 es'] & E); [..|by split|].
    + intros n m a s0 q Hle. destruct (fst a); [|done]. destruct (cloneInto n (snd a) s0) as [[s1 k]|] eqn:E1; [|done].
      by rewrite (cloneInto_mono _ _ _ _ _ Hle E1).
    + intros [[] x] s0 Hx [Hi0 Hu0]; cbn [fst snd] in *; [|by exists 0, s0, (false, zero x)]. destruct (Hx eq_refl) as [Hg Hret].
      destruct (Hret s0 Hi0 Hu0) as (n & [s1 x'] & E). exists n, s1, (true, x'). rewrite E. split; [done|].
      destruct (cloneInto_spec n x x' s0 s1 (fun _ => True)) as (A & B & _); [done|by intros ???; left|by eapply good_plain|done|].
      split; [done|]. pose proof (unseen_grows _ _ B). lia.
    + rewrite List.Forall_forall in Hv, IH |- *. intros f Hin Hf. pose proof (Hv f Hin Hf) as Hg. split; [exact Hg|].
      intros s0 H1 H2. by apply IH.
    + exists (S n). eexists. cbn [cloneInto]. by rewrite E.
Qed.

Lemma clone_returns (v : val) : good R v -> exists f r, clone f v h0 n0 = Some r.
Proof.
  intros Hv. destruct (cloneInto_returns (unseen (mkSt h0 n0 ∅)) R (le_n R) v (mkSt h0 n0 ∅)) as (f & [s x] & E); [|done|done|].
  { split; cbn; [done|lia|exact h0_end| |done]. intros l o Hl Ho. by rewrite (h0_end l Hl) in Ho. }
  exists f. eexists. unfold clone. by rewrite E.
Qed.

End Clone.

(** A heap with its end. *)
Record wellFormed (h : gmap nat obj) (n : nat) : Prop := {
  wf_end : forall l, n <= l -> h !! l = None;
  wf_plain : forall l o, h !! l = Some o -> plainObj (fun l => l < n) o;
}.

Lemma clone_spec (f : nat) (v v' : val) (h h' : gmap nat obj) (n n' : nat) :
  wellFormed h n -> plain (fun l => l < n) v -> clone f v h n = Some (h', n', v') ->
  n <= n' /\ wellFormed h' n' /\ (forall l, l < n -> h' !! l = h !! l) /\
  (forall l o, n <= l -> h' !! l = Some o -> copied (between n n') o) /\ refs (between n n') v' /\ looks h h' v v'.
Proof.
  intros [He Hp] Hv E. destruct (clone_spec_in h n He Hp f v v' h' n' Hv E) as (A & B & C & D & F & G).
  split; [done|]. split; [|done]. split; [done|]. intros l o Hl. destruct (le_lt_dec n l) as [Hle|Hlt].
  - intros. apply copied_plain. eapply copied_impl; [|exact (D l o Hle Hl)]. unfold between. lia.
  - rewrite (B l Hlt) in Hl. pose proof (Hp l o Hl) as Ho. revert Ho. destruct o as [x|es|es]; cbn [plainObj]; [|done|].
    + apply shape_impl; lia.
    + intros [H1 H2]. split; [|done]. eapply Forall_impl; [exact H1|]. intros e [? Hs]. split; [done|]. revert Hs. apply shape_impl; lia.
Qed.

(** Maps that hold maps, with no pointer in between, have decreasing ranks: no map holds itself. *)
Definition ranked (rank : nat -> nat) (R : nat) (h : gmap nat obj) : Prop :=
  forall l o, h !! l = Some o ->
  match o with OVar x => good h rank R x | OArr _ => True | OMap es => Forall (fun e => good h rank (rank l) (snd e)) es end.

(** C39. On a heap of plain values only (slices and arrays of flat elements, maps with
    distinct scalar keys, no channels and functions in exported places) whose maps do not
    hold themselves other than through a pointer, [clone] returns, and with every larger
    bound on its depth it returns the same; the pointers of a value may form cycles. *)
Theorem clone_terminates (rank : nat -> nat) (R : nat) (h : gmap nat obj) (n : nat) (v : val) :
  wellFormed h n -> ranked rank R h -> good h rank R v ->
  exists f r, forall m, f <= m -> clone m v h n = Some r.
Proof.
  intros [H1 H2] Hr Hv. destruct (clone_returns h n H1 H2 rank R Hr v Hv) as (f & r & E). exists f, r. intros m Hm. revert E. unfold clone.
  destruct (cloneInto f v _) as [q|] eqn:Eq; [|done]. by rewrite (cloneInto_mono _ _ _ _ _ Hm Eq).
Qed.

(** A node that points to itself through its field, next to a map. *)
Lemma clone_terminates_witness :
  let h : gmap nat obj := {[0 := OVar (VFields [(true, VPtr (Some 0)); (true, VMap (Some 1))]); 1 := OMap [(VScalar "k"%string, VPtr (Some 0))]]} in
  exists f r, forall m, f <= m -> clone m (VPtr (Some 0)) h 2 = Some r.
Proof.
  intros h. assert (forall l o, h !! l = Some o -> (l = 0 /\ h !! 0 = Some o) \/ (l = 1 /\ h !! 1 = Some o)) as Hh.
  { intros l o. destruct l as [|[|l]]; [by left|by right|]. unfold h. by rewrite lookup_insert_ne, lookup_singleton_ne by lia. }
  eapply (clone_terminates (fun _ => 0) 1).
  - split.
    + intros l Hl. destruct (h !! l) as [o|] eqn:E; [|done]. destruct (Hh l o E) as [[-> _]|[-> _]]; lia.
    + intros l o E. destruct (Hh l o E) as [[-> Ho]|[-> Ho]]; vm_compute in Ho; injection Ho as <-.
      * cbn. split_and!; [intros _; lia|intros _; lia|done].
      * split; [constructor; [split; [done|cbn; lia]|constructor]|apply NoDup_singleton].
  - intros l o E. destruct (Hh l o E) as [[-> Ho]|[-> Ho]]; vm_compute in Ho; injection Ho as <-.
    + cbn. split_and!; [intros _; eexists; by vm_compute|intros _; split; [lia|]; eexists; by vm_compute|done].
    + constructor; [|constructor]. eexists. by vm_compute.
  - eexists. by vm_compute.
Defined.

(** ** What it does not copy *)

(** A map that holds itself: only pointers are looked up among the values met so far. *)
Example clone_map_cycle_diverges (f : nat) (s : St) :
  hp s !! 0 = Some (OMap [(VScalar "self"%string, VMap (Some 0))]) -> cloneInto f (VMap (Some 0)) s = None.
Proof.
  revert s. induction f as [|f IH]; intros s Hs; [done|]. cbn [cloneInto]. rewrite Hs. cbn [traverse fst snd].
  destruct f as [|f]; [done|]. change (cloneInto (S f) (VScalar "self"%string) s) with (Some (s, VScalar "self"%string)). cbv iota. by rewrite (IH s Hs).
Qed.

(** The elements of a slice are copied as they are: a pointer among them is shared. *)
Example clone_slice_shares :
  match clone 3 (VSlice (Some (mkSlice 0 0 1 1))) {[0 := OArr [VPtr (Some 1)]; 1 := OVar (VScalar "a"%string)]} 2 with
  | Some (h, _, VSlice (Some sl)) => h !! sArr sl = Some (OArr [VPtr (Some 1)]) /\ sArr sl = 2
  | _ => False
  end.
Proof. by vm_compute. Qed.

(** A field that is not exported is lost (an assignment keeps it). *)
Example clone_loses_unexported :
  match clone 3 (VFields [(false, VScalar "2024-01-01"%string)]) ∅ 0 with
  | Some (_, _, v) => v = VFields [(false, VScalar EmptyString)]
  | _ => False
  end.
Proof. reflexivity. Qed.
