(* ===== verification/MemCache.v ===== *)
(** [infra/cache/memory/cache.go] with values that share memory: the items hold
    references into the heap their callers write to.

    [Load] and [Store] copy with [GoHeap.clone]; here the copies are shown to be enough
    that the cache behaves as [Cache.memCache] does, which holds immutable values, for
    the values [GoHeap.plainObj] describes. *)

From Stdlib Require Import ZArith Lia String Ascii List Bool.
From stdpp Require Import base tactics list gmap strings.
From S2P Require Import Prelude GoStrings Errs Cache GoHeap.

Local Open Scope list_scope.
Local Open Scope nat_scope.

(** ** The cache *)

(** An [any]: a type and a value of it, or nil.  The type is that of
    [reflect.Indirect] of the value. *)
Definition any : Type := string * option val.

Record world : Type := mkWorld { wheap : gmap nat obj; wnext : nat; wcache : memCache any }.

(** Where [Load] puts the value. *)
Inductive dest : Type := NotPointer | NilPointer | PointerTo (ty : string).

Inductive outcome (V : Type) : Type :=
| Hit (v : V) | NotFound | WrongType | NotAddressable | Mismatch | Panics.
Arguments Hit {V} v.
Arguments NotFound {V}.
Arguments WrongType {V}.
Arguments NotAddressable {V}.
Arguments Mismatch {V}.
Arguments Panics {V}.

(** [reflect.Indirect]; [None]: the zero [reflect.Value] a nil pointer gives. *)
Definition indirect (h : gmap nat obj) (v : val) : option val :=
  match v with
  | VPtr None => None
  | VPtr (Some l) => match h !! l with Some (OVar x) => Some x | _ => None end
  | _ => Some v
  end.

(** [Load]; the fuel is that of [clone]. *)
Definition hLoad (f : nat) (now : Z) (key : string) (dst : dest) (w : world) : option (world * outcome val) :=
  match dst with
  | NotPointer => Some (w, WrongType)
  | NilPointer => Some (w, NotAddressable)
  | PointerTo ty =>
      match memLoad now key (wcache w) with
      | Err _ => Some (w, NotFound)
      | Ok (_, None) => Some (w, NotFound)
      | Ok (ty', Some v) =>
          match indirect (wheap w) v with
          | None => Some (w, Panics)
          | Some x =>
              if bool_decide (ty' = ty) then
                match clone f x (wheap w) (wnext w) with
                | None => None
                | Some (h, n, x) => Some (mkWorld h n (wcache w), Hit x)
                end
              else Some (w, Mismatch)
          end
      end
  end.

(** [Store] *)
Definition hStore (f : nat) (now : Z) (key : string) (val : any) (d : Z) (w : world) : option world :=
  match val with
  | (ty, None) => Some (mkWorld (wheap w) (wnext w) (fst (memStore now key (ty, None) d (wcache w))))
  | (ty, Some v) =>
      match clone f v (wheap w) (wnext w) with
      | None => None
      | Some (h, n, v) => Some (mkWorld h n (fst (memStore now key (ty, Some v) d (wcache w))))
      end
  end.

Definition hDelete (key : string) (w : world) : world :=
  mkWorld (wheap w) (wnext w) (fst (memDelete key (wcache w))).

(** ** What it means *)

(** A value as it looks, behind its pointer. *)
Inductive content : Type := CNil | CNilPointer | CValue (ty : string) (t : nat -> tree).

Definition means (h : gmap nat obj) (a : any) (c : content) : Prop :=
  match a, c with
  | (_, None), CNil => True
  | (_, Some v), CNilPointer => v = VPtr None
  | (ty, Some v), CValue ty' t => ty = ty' /\ exists x, indirect h v = Some x /\ forall d, unfold_ d h x = t d
  | _, _ => False
  end.

(** What [Load] gives of a cache of immutable values. *)
Definition cLoad (now : Z) (key : string) (dst : dest) (c : memCache content) : outcome (nat -> tree) :=
  match dst with
  | NotPointer => WrongType
  | NilPointer => NotAddressable
  | PointerTo ty =>
      match memLoad now key c with
      | Err _ | Ok CNil => NotFound
      | Ok CNilPointer => Panics
      | Ok (CValue ty' t) => if bool_decide (ty' = ty) then Hit t else Mismatch
      end
  end.

Definition sameOutcome (h : gmap nat obj) (o : outcome val) (o' : outcome (nat -> tree)) : Prop :=
  match o, o' with
  | Hit x, Hit t => forall d, unfold_ d h x = t d
  | NotFound, NotFound | WrongType, WrongType | NotAddressable, NotAddressable | Mismatch, Mismatch | Panics, Panics => True
  | _, _ => False
  end.

Definition anyRefs (P : nat -> Prop) (a : any) : Prop := match snd a with None => True | Some v => refs P v end.
Definition anyPlain (P : nat -> Prop) (a : any) : Prop := match snd a with None => True | Some v => plain P v end.

(** The objects the cache owns; nobody else refers to them. *)
Definition outside (O : nat -> Prop) (n : nat) (l : nat) : Prop := l < n /\ ~ O l.

Record repr (O : nat -> Prop) (w : world) (c : memCache content) : Prop := {
  r_wf : wellFormed (wheap w) (wnext w);
  r_lt : forall l, O l -> l < wnext w;
  r_owned : forall l o, O l -> wheap w !! l = Some o -> refsObj O o;
  r_others : forall l o, ~ O l -> wheap w !! l = Some o -> refsObj (outside O (wnext w)) o;
  r_expiration : optExpiration (wcache w) = optExpiration c;
  r_items : forall key,
    match items (wcache w) !! key, items c !! key with
    | None, None => True
    | Some i, Some j => Expiration i = Expiration j /\ anyRefs O (ItemValue i) /\ means (wheap w) (ItemValue i) (ItemValue j)
    | _, _ => False
    end;
}.

(** A step of the program: of the cache, or of anyone else, who can write to what the
    cache does not own only. *)
Inductive event : Type :=
| EStore (now : Z) (key : string) (c : content) (d : Z)
| ELoad (now : Z) (key : string) (dst : dest) (o : outcome (nat -> tree))
| EDelete (key : string)
| EOther.

Inductive hstep : (nat -> Prop) -> world -> event -> (nat -> Prop) -> world -> Prop :=
| hstep_store O f now key a c d w w' :
    anyRefs (outside O (wnext w)) a -> anyPlain (fun l => l < wnext w) a -> means (wheap w) a c ->
    hStore f now key a d w = Some w' ->
    hstep O w (EStore now key c d) (fun l => O l \/ between (wnext w) (wnext w') l) w'
| hstep_load O f now key dst w w' o o' :
    hLoad f now key dst w = Some (w', o) -> sameOutcome (wheap w') o o' ->
    hstep O w (ELoad now key dst o') O w'
| hstep_delete O key w : hstep O w (EDelete key) O (hDelete key w)
| hstep_other O w h n :
    wellFormed h n -> wnext w <= n -> (forall l, O l -> h !! l = wheap w !! l) ->
    (forall l o, ~ O l -> h !! l = Some o -> refsObj (outside O n) o) ->
    hstep O w EOther O (mkWorld h n (wcache w)).

(** The same step of a cache of immutable values; equal as they look. *)
Definition sameResult (o o' : outcome (nat -> tree)) : Prop :=
  match o, o' with
  | Hit t, Hit t' => forall d, t d = t' d
  | NotFound, NotFound | WrongType, WrongType | NotAddressable, NotAddressable | Mismatch, Mismatch | Panics, Panics => True
  | _, _ => False
  end.

Definition cstep (c : memCache content) (e : event) (c' : memCache content) : Prop :=
  match e with
  | EStore now key v d => c' = fst (memStore now key v d c)
  | ELoad now key dst o => c' = c /\ sameResult o (cLoad now key dst c)
  | EDelete key => c' = fst (memDelete key c)
  | EOther => c' = c
  end.

(** ** The copies are enough *)

Lemma clone_pointer (f : nat) (v : val) (p : option nat) (h h' : gmap nat obj) (n n' : nat) :
  clone f v h n = Some (h', n', VPtr p) -> match p with None => v = VPtr None | Some _ => exists l, v = VPtr (Some l) end.
Proof.
  unfold clone. destruct (cloneInto f v _) as [[s x]|] eqn:E; [|done]. intros [= <- <- ->]. destruct f as [|f]; [done|].
  destruct v as [t|k|[l|]|[x|]|[sl|]|[l|]|fs]; cbn [cloneInto] in E; repeat case_match; simplify_eq; eauto.
Qed.

Lemma means_clone (f : nat) (ty : string) (v v' : val) (c : content) (h h' : gmap nat obj) (n n' : nat) :
  clone f v h n = Some (h', n', v') -> looks h h' v v' -> means h (ty, Some v) c -> means h' (ty, Some v') c.
Proof.
  intros E Hl. pose proof (clone_pointer f v) as Hp. destruct c as [| |ty' t]; cbn [means]; [done| |].
  - intros ->. destruct f as [|f]; [done|]. by injection E as <- <- <-.
  - intros [-> (x & Hx & Ht)]. split; [done|]. destruct v as [| |[l|]|y|y|y|]; cbn in Hx; try done;
      try (injection Hx as <-; exists v'; split; [|intros d; rewrite <- Ht; symmetry; apply Hl];
           destruct v' as [| |p| | | |]; try done; apply Hp in E; destruct p as [p|]; [by destruct E|done]).
    destruct (h !! l) as [[y| |]|] eqn:Ey; try done. injection Hx as ->.
    destruct f as [|f]; [done|]. pose proof (Hl 1) as H1. cbn in H1. rewrite Ey in H1.
    destruct v' as [| |[l'|]|[]|[]|[]|]; cbn in H1; try done; try by repeat case_match.
    cbn. destruct (h' !! l') as [[y'| |]|] eqn:Ey'; try done. exists y'. split; [done|]. intros d. rewrite <- Ht.
    pose proof (Hl (S d)) as HS. cbn in HS. rewrite Ey, Ey' in HS. by injection HS.
Qed.

Lemma means_frame (O : nat -> Prop) (h h' : gmap nat obj) (a : any) (c : content) :
  (forall l, O l -> h' !! l = h !! l) -> (forall l o, O l -> h !! l = Some o -> refsObj O o) ->
  anyRefs O a -> means h a c -> means h' a c.
Proof.
  intros Heq Hcl. destruct a as [ty [v|]], c as [| |ty' t]; cbn [anyRefs means snd]; try done.
  intros Hv [-> (x & Hx & Ht)]. split; [done|]. exists x. assert (indirect h' v = Some x /\ refs O x) as [Hx' Hr].
  { destruct v as [| |[l|]| | | |]; cbn in Hx |- *; try done; try by injection Hx as <-. rewrite (Heq l Hv).
    destruct (h !! l) as [[y| |]|] eqn:Ey; try done. injection Hx as <-. split; [done|]. exact (Hcl l _ Hv Ey). }
  split; [done|]. intros d. rewrite <- Ht. symmetry. by apply (looks_frame O h h').
Qed.

(** The cache sees a heap that others have written to as it was. *)
Lemma repr_heap (O : nat -> Prop) (w : world) (c : memCache content) (h : gmap nat obj) (n : nat) :
  repr O w c -> wellFormed h n -> wnext w <= n -> (forall l, O l -> h !! l = wheap w !! l) ->
  (forall l o, ~ O l -> h !! l = Some o -> refsObj (outside O n) o) -> repr O (mkWorld h n (wcache w)) c.
Proof.
  intros [H1 H2 H3 H4 H5 H6] Hwf Hn Heq Hout. split; cbn [wheap wnext wcache]; try done.
  - intros l Hl. specialize (H2 l Hl). lia.
  - intros l o Hl. rewrite (Heq l Hl). by apply H3.
  - intros key. specialize (H6 key). destruct (items (wcache w) !! key) as [i|], (items c !! key) as [j|]; try done.
    destruct H6 as (A & B & C). split; [done|]. split; [done|]. by apply (means_frame O (wheap w) h).
Qed.

(** What [clone] makes is new to everyone. *)
Lemma clone_heap (O : nat -> Prop) (w : world) (c : memCache content) (f : nat) (v v' : val) (h : gmap nat obj) (n : nat) :
  repr O w c -> plain (fun l => l < wnext w) v -> clone f v (wheap w) (wnext w) = Some (h, n, v') ->
  repr O (mkWorld h n (wcache w)) c /\ repr (fun l => O l \/ between (wnext w) n l) (mkWorld h n (wcache w)) c /\
  refs (between (wnext w) n) v' /\ looks (wheap w) h v v'.
Proof.
  intros Hr Hv E. destruct (clone_spec f v v' (wheap w) h (wnext w) n (r_wf _ _ _ Hr) Hv E) as (A & B & C & D & F & G).
  assert (forall l, O l -> h !! l = wheap w !! l) as Heq by (intros l Hl; apply C, (r_lt _ _ _ Hr), Hl).
  assert (forall l o, ~ O l -> h !! l = Some o -> l < wnext w -> refsObj (outside O (wnext w)) o) as Hold.
  { intros l o Hl Ho Hlt. rewrite (C l Hlt) in Ho. exact (r_others _ _ _ Hr l o Hl Ho). }
  assert (forall l o, h !! l = Some o -> wnext w <= l -> refsObj (between (wnext w) n) o) as Hnew.
  { intros l o Ho Hle. apply copied_refs. exact (D l o Hle Ho). }
  assert (repr O (mkWorld h n (wcache w)) c) as Hr'.
  { apply repr_heap; try done. intros l o Hl Ho. destruct (le_lt_dec (wnext w) l) as [Hle|Hlt].
    - eapply refsObj_impl; [|exact (Hnew l o Ho Hle)]. intros b [Hb1 Hb2]. split; [done|]. intros Hb. apply (r_lt _ _ _ Hr) in Hb. lia.
    - eapply refsObj_impl; [|exact (Hold l o Hl Ho Hlt)]. intros b [Hb1 Hb2]. split; [lia|done]. }
  split; [exact Hr'|]. split; [|done]. destruct Hr' as [H1 H2 H3 H4 H5 H6]. split; cbn [wheap wnext wcache] in *; try done.
  - intros l [Hl|[_ Hl]]; [by apply H2|done].
  - intros l o [Hl|[Hl1 Hl2]] Ho; (eapply refsObj_impl; [|first [exact (H3 l o Hl Ho)|exact (Hnew l o Ho Hl1)]]); [by left|by right].
  - intros l o Hl Ho. destruct (le_lt_dec (wnext w) l) as [Hle|Hlt].
    + destruct Hl. right. split; [done|]. destruct (le_lt_dec n l) as [Hge|]; [|done]. by rewrite (wf_end _ _ B l Hge) in Ho.
    + eapply refsObj_impl; [|exact (Hold l o ltac:(auto) Ho Hlt)]. intros b [Hb1 Hb2]. split; [lia|]. intros [Hb|[Hb _]]; [done|lia].
  - intros key. specialize (H6 key). destruct (items (wcache w) !! key) as [i|], (items c !! key) as [j|]; try done.
    destruct H6 as (P & Q & S). split; [done|]. split; [|done]. unfold anyRefs in *. destruct (snd (ItemValue i)) as [y|]; [|done].
    eapply refs_impl; [|exact Q]. by left.
Qed.

Lemma repr_store (O : nat -> Prop) (w : world) (c : memCache content) (now d : Z) (key : string) (a : any) (v : content) :
  repr O w c -> anyRefs O a -> means (wheap w) a v ->
  repr O (mkWorld (wheap w) (wnext w) (fst (memStore now key a d (wcache w)))) (fst (memStore now key v d c)).
Proof.
  intros [H1 H2 H3 H4 H5 H6] Ha Hm. split; cbn [wheap wnext wcache]; try done. intros k. unfold memStore. cbn [fst items]. rewrite H5.
  destruct (decide (key = k)) as [->|Hne]; [by rewrite !lookup_insert_eq|]. rewrite !lookup_insert_ne by done. apply H6.
Qed.

(** A loaded value is plain: it refers to what the cache owns. *)
Lemma owned_plain (O : nat -> Prop) (w : world) (c : memCache content) (ty : string) (v x : val) :
  repr O w c -> anyRefs O (ty, Some v) -> indirect (wheap w) v = Some x -> plain (fun l => l < wnext w) x.
Proof.
  intros Hr Hv Hx. assert (refs O x) as Hrx.
  { destruct v as [| |[l|]| | | |]; cbn in Hx, Hv; try done; try by injection Hx as <-.
    destruct (wheap w !! l) as [[y| |]|] eqn:Ey; try done. injection Hx as <-. exact (r_owned _ _ _ Hr l _ Hv Ey). }
  apply refs_plain. eapply refs_impl; [|exact Hrx]. apply (r_lt _ _ _ Hr).
Qed.

Lemma hLoad_repr (O : nat -> Prop) (w w' : world) (c : memCache content) (f : nat) (now : Z) (key : string) (dst : dest) (o : outcome val) :
  repr O w c -> hLoad f now key dst w = Some (w', o) ->
  repr O w' c /\ sameOutcome (wheap w') o (cLoad now key dst c) /\
  (forall x, o = Hit x -> refs (outside O (wnext w')) x).
Proof.
  intros Hr E. destruct dst as [| |ty]; cbn [hLoad cLoad] in *; [by injection E as <- <-..|].
  pose proof (r_items _ _ _ Hr key) as Hi. unfold memLoad in *.
  destruct (items (wcache w) !! key) as [i|], (items c !! key) as [j|]; try done; [|by injection E as <- <-].
  destruct Hi as (He & Ha & Hm). unfold Expired in *. rewrite He in E. destruct (if (Expiration j =? 0)%Z then _ else _); [by injection E as <- <-|].
  destruct (ItemValue i) as [ty' [v|]], (ItemValue j) as [| |ty2 t]; cbn [means] in Hm; try done; try by injection E as <- <-.
  - subst v. cbn in E. by injection E as <- <-.
  - destruct Hm as [-> (x & Hx & Ht)]. rewrite Hx in E. case_bool_decide; [|by injection E as <- <-]. subst ty2.
    destruct (clone f x _ _) as [[[h n] x']|] eqn:Ec; [|done]. injection E as <- <-.
    destruct (clone_heap O w c f x x' h n Hr (owned_plain _ _ _ _ _ _ Hr Ha Hx) Ec) as (R1 & R2 & Hx' & Hl). split; [done|]. split.
    + intros d. rewrite <- Ht. symmetry. apply Hl.
    + intros y [= <-]. eapply refs_impl; [|exact Hx']. intros l [Hl1 Hl2]. split; [done|]. intros HO. apply (r_lt _ _ _ Hr) in HO. lia.
Qed.

Lemma hStore_repr (O : nat -> Prop) (w w' : world) (c : memCache content) (f : nat) (now d : Z) (key : string) (a : any) (v : content) :
  repr O w c -> anyPlain (fun l => l < wnext w) a -> means (wheap w) a v -> hStore f now key a d w = Some w' ->
  repr (fun l => O l \/ between (wnext w) (wnext w') l) w' (fst (memStore now key v d c)).
Proof.
  intros Hr Hp Hm E. destruct a as [ty [x|]]; cbn [hStore] in E.
  - destruct (clone f x _ _) as [[[h n] x']|] eqn:Ec; [|done]. injection E as <-. cbn [wnext].
    destruct (clone_heap O w c f x x' h n Hr Hp Ec) as (_ & R2 & Hx' & Hl).
    apply (repr_store _ _ _ now d key (ty, Some x') v R2); [|by eapply means_clone].
    unfold anyRefs. cbn [snd]. eapply refs_impl; [|exact Hx']. by right.
  - injection E as <-. cbn [wnext]. destruct Hr as [H1 H2 H3 H4 H5 H6].
    apply (repr_store _ w c now d key (ty, None) v); [|done|done]. split; try done.
    + intros l [Hl|[? ?]]; [by apply H2|lia].
    + intros l o [Hl|[? ?]] Ho; [|lia]. eapply refsObj_impl; [|exact (H3 l o Hl Ho)]. by left.
    + intros l o Hl Ho. eapply refsObj_impl; [|exact (H4 l o ltac:(auto) Ho)]. intros b [Hb1 Hb2]. split; [done|]. intros [Hb|[? ?]]; [done|lia].
    + intros k. specialize (H6 k). destruct (items (wcache w) !! k) as [i|], (items c !! k) as [j|]; try done.
      destruct H6 as (P & Q & S). split; [done|]. split; [|done]. unfold anyRefs in *. destruct (snd (ItemValue i)); [|done].
      eapply refs_impl; [|exact Q]. by left.
Qed.

Lemma hstep_sim (O O' : nat -> Prop) (w w' : world) (c : memCache content) (e : event) :
  repr O w c -> hstep O w e O' w' -> exists c', cstep c e c' /\ repr O' w' c'.
Proof.
  intros Hr Hs. destruct Hs as [O f now key a v d w w' H1 H2 H3 H4|O f now key dst w w' o o' H1 H2|O key w|O w h n H1 H2 H3 H4].
  - eexists. split; [reflexivity|]. by eapply hStore_repr.
  - destruct (hLoad_repr O w w' c f now key dst o Hr H1) as (A & B & _). exists c. split; [|done]. split; [done|].
    destruct o, o', (cLoad now key dst c); try done. intros d. by rewrite <- H2, B.
  - eexists. split; [reflexivity|]. destruct Hr as [A B C D E F]. split; try done. intros k. cbn. specialize (F k).
    destruct (decide (key = k)) as [->|]; [by rewrite !lookup_delete_eq|by rewrite !lookup_delete_ne].
  - exists c. split; [done|]. by apply repr_heap.
Qed.

Inductive hrun : (nat -> Prop) -> world -> list event -> (nat -> Prop) -> world -> Prop :=
| hrun_nil O w : hrun O w [] O w
| hrun_cons O w e O1 w1 es O2 w2 : hstep O w e O1 w1 -> hrun O1 w1 es O2 w2 -> hrun O w (e :: es) O2 w2.

Inductive crun : memCache content -> list event -> memCache content -> Prop :=
| crun_nil c : crun c [] c
| crun_cons c e c1 es c2 : cstep c e c1 -> crun c1 es c2 -> crun c (e :: es) c2.

(** ** Values do not leak *)

(** C32. The in-memory cache over shared memory that holds plain values only: scalars,
    pointers, structs (of which the exported fields count), arrays and slices of flat
    elements (no pointer, map or slice among them) and maps with distinct scalar keys, no
    channels and functions.  Whatever its callers do to the values they stored and to those
    they loaded, as long as these stay plain, every [Load] of a history gives what a cache
    of immutable values gives: the value as it looked when it was stored.  (Elements that
    are pointers are shared, [clone_slice_shares]; a field that is not exported is lost,
    [clone_loses_unexported].) *)
Theorem memory_cache_refines (exp : Z) (h : gmap nat obj) (n : nat) (es : list event) (O : nat -> Prop) (w : world) :
  wellFormed h n -> (forall l o, h !! l = Some o -> refsObj (fun l => l < n) o) ->
  hrun (fun _ => False) (mkWorld h n (NewCache exp ∅)) es O w ->
  exists c, crun (NewCache exp ∅) es c /\ repr O w c.
Proof.
  intros Hwf Hcl Hrun. assert (repr (fun _ => False) (mkWorld h n (NewCache exp ∅)) (NewCache exp ∅)) as Hr.
  { split; cbn [wheap wnext wcache]; [done|done|done| |done|].
    - intros l o _ Ho. eapply refsObj_impl; [|exact (Hcl l o Ho)]. intros b Hb. by split; [|intros []].
    - intros key. cbn [NewCache items]. by rewrite !lookup_empty. }
  revert Hr. generalize (NewCache (V := content) exp ∅). induction Hrun as [O w|O w e O1 w1 es O2 w2 Hs _ IH]; intros c Hr.
  - exists c. split; [constructor|done].
  - destruct (hstep_sim _ _ _ _ _ _ Hr Hs) as (c1 & Hc & Hr1). destruct (IH c1 Hr1) as (c2 & Hc2 & Hr2). exists c2. split; [by econstructor|done].
Qed.

(** A pointer to a map is stored, the map is then changed by the caller, the value loaded is the old one. *)
Definition exampleHeap : gmap nat obj := {[0 := OVar (VMap (Some 1)); 1 := OMap [(VScalar "k"%string, VScalar "old"%string)]]}.

Definition oldMap (d : nat) : tree := unfold_ d exampleHeap (VMap (Some 1)).

Definition exampleEvents : list event :=
  [EStore 5 "key" (CValue "map[string]string" oldMap) 10; EOther; ELoad 7 "key" (PointerTo "map[string]string") (Hit oldMap)].

Lemma by_list (P : nat -> obj -> Prop) (h : gmap nat obj) :
  Forall (fun e => P (fst e) (snd e)) (map_to_list h) -> forall l o, h !! l = Some o -> P l o.
Proof. rewrite List.Forall_forall. intros Hl l o Ho. apply (Hl (l, o)), list_elem_of_In, elem_of_map_to_list, Ho. Qed.

Lemma wellFormed_by_list (h : gmap nat obj) (n : nat) :
  Forall (fun e => fst e < n /\ plainObj (fun l => l < n) (snd e)) (map_to_list h) -> wellFormed h n.
Proof.
  intros Hl. pose proof (by_list (fun l o => l < n /\ plainObj (fun l => l < n) o) h Hl) as Hh. split.
  - intros l Hle. destruct (h !! l) as [o|] eqn:E; [|done]. apply Hh in E. lia.
  - intros l o E. apply Hh in E as [_ ?]. done.
Qed.

(** The heap after the store (the copies are at 2 and 3), and after the caller's write. *)
Definition storedHeap : gmap nat obj := <[2 := OVar (VMap (Some 3))]> (<[3 := OMap [(VScalar "k"%string, VScalar "old"%string)]]> exampleHeap).
Definition writtenHeap : gmap nat obj := <[1 := OMap [(VScalar "k"%string, VScalar "new"%string)]]> storedHeap.

Lemma NoDup_one (x : val) : NoDup [x].
Proof. apply NoDup_singleton. Qed.

Ltac by_heap h :=
  let l := eval vm_compute in (map_to_list h) in
  replace (map_to_list h) with l by (vm_compute; reflexivity);
  repeat first [apply List.Forall_nil|apply List.Forall_cons|split|apply NoDup_one]; cbn; try done; try lia.

Lemma memory_cache_refines_witness :
  exists O w c, crun (NewCache 0 ∅) exampleEvents c /\ repr O w c.
Proof.
  eexists _, _. eapply (memory_cache_refines 0 exampleHeap 2 exampleEvents).
  - apply wellFormed_by_list. by_heap exampleHeap.
  - apply by_list. by_heap exampleHeap.
  - eapply hrun_cons; [|eapply hrun_cons; [|eapply hrun_cons; [|apply hrun_nil]]].
    + eapply (hstep_store _ 4 5 "key" ("map[string]string"%string, Some (VPtr (Some 0)))); [| | |vm_compute; reflexivity].
      * split; [cbn; lia|by intros []].
      * cbn. lia.
      * split; [done|]. exists (VMap (Some 1)). split; [by vm_compute|done].
    + apply (hstep_other _ _ writtenHeap 4).
      * apply wellFormed_by_list. by_heap writtenHeap.
      * cbn. lia.
      * intros l [[]|[Hl1 Hl2]]. cbn [wnext wheap] in *. assert (l = 2 \/ l = 3) as [->| ->] by lia; by vm_compute.
      * intros l x Hl Hx. assert ((l = 2 \/ l = 3) \/ refsObj (fun b => b < 2) x) as [Hc|Hc].
        { revert l x Hl Hx. intros l x _. apply (by_list (fun l x => (l = 2 \/ l = 3) \/ refsObj (fun b => b < 2) x)).
          by_heap writtenHeap; first [solve [left; lia]|solve [right; cbn; lia]|solve [right; cbn; repeat constructor]]. }
        { destruct Hl. right. cbn. split; lia. }
        eapply refsObj_impl; [|exact Hc]. intros b Hb. cbn in Hb. split; [lia|]. intros [[]|[Hb1 _]]. cbn in Hb1. lia.
    + eapply (hstep_load _ 4); [vm_compute; reflexivity|]. intros [|[|d]]; [by vm_compute..|]. destruct d; by vm_compute.
Defined.
