(* ===== verification/DbCache.v ===== *)
(** [admin/dbcache]: the read-through cache over the database, and the SQL
    dependency that gives its version marker.

    The database changes under the cache: a history gives its state at every
    instant, and one call of [Try] reads it at four instants (the revalidation,
    the marker, the loader, the store). *)

From Stdlib Require Import ZArith Lia String Ascii List Bool.
From stdpp Require Import base tactics list gmap strings.
From S2P Require Import Prelude GoStrings Errs Cache.

Local Open Scope string_scope.
Local Open Scope list_scope.
Local Open Scope Z_scope.
Local Open Scope aeus_scope.

Definition maxCacheKeyLen : nat := 256.
Definition second : Z := 1000000000.
Definition defaultCacheDuration : Z := 600 * second.
Definition graceWindow : Z := second.

(** ** depend.go *)

Section Depend.

(** The database, the model values and the query arguments; the marker query is
    run by gorm: a table or model, a condition and a column expression to a
    nullable scalar. *)
Context {DB Model Arg : Type}.

Record SqlDependency : Type := mkSqlDependency {
  table : string;
  column : string;
  model : option Model;
  condition : string;
  conditionArgs : list Arg;
}.

Definition WithTable (t : string) (d : SqlDependency) : SqlDependency :=
  mkSqlDependency t (column d) (model d) (condition d) (conditionArgs d).
Definition WithColumn (c : string) (d : SqlDependency) : SqlDependency :=
  mkSqlDependency (table d) c (model d) (condition d) (conditionArgs d).
Definition WithModel (m : Model) (d : SqlDependency) : SqlDependency :=
  mkSqlDependency (table d) (column d) (Some m) (condition d) (conditionArgs d).
Definition WithCondition (c : string) (args : list Arg) (d : SqlDependency) : SqlDependency :=
  mkSqlDependency (table d) (column d) (model d) c args.

Definition NewSqlDependency (cbs : list (SqlDependency -> SqlDependency)) : SqlDependency :=
  fold_left (fun d cb => cb d) cbs (mkSqlDependency EmptyString EmptyString None EmptyString []).

(** [^[a-zA-Z_][a-zA-Z0-9_]*$]; Go's [$] without the m flag is the end of text. *)
Definition identStart (a : ascii) : bool := is_lower a || is_upper a || Ascii.eqb a "_".
Definition identByte (a : ascii) : bool := identStart a || is_digit a.
Fixpoint allBytes (p : ascii -> bool) (s : string) : bool :=
  match s with
  | EmptyString => true
  | String a s' => p a && allBytes p s'
  end.
Definition validTableName (s : string) : bool :=
  match s with
  | EmptyString => false
  | String a s' => identStart a && allBytes identByte s'
  end.

(** [\s] of RE2: tab, newline, form feed, carriage return, space. *)
Definition regexSpace (a : ascii) : bool :=
  let n := nat_of_ascii a in
  (n =? 9)%nat || (n =? 10)%nat || (n =? 12)%nat || (n =? 13)%nat || (n =? 32)%nat.
Definition columnByte (a : ascii) : bool :=
  identByte a || regexSpace a || Ascii.eqb a "(" || Ascii.eqb a ")" || Ascii.eqb a ",".
Definition validColumnExpr (s : string) : bool :=
  match s with
  | EmptyString => false
  | String a s' => identStart a && allBytes columnByte s'
  end.

(** The target of the query: a table name or a model. *)
Inductive source : Type := STable (t : string) | SModel (m : Model).

Variable selectScalar : DB -> source -> string -> list Arg -> string -> result error (option string).

Definition GetValue (d : SqlDependency) (tx : DB) : result error string :=
  if negb (validColumnExpr (column d)) then Err (EPlain ("invalid column expression: " +:+ column d))
  else
    let! q := if negb (String.eqb (table d) EmptyString)
              then if validTableName (table d) then Ok (STable (table d))
                   else Err (EPlain ("invalid table name: " +:+ table d))
              else match model d with
                   | Some m => Ok (SModel m)
                   | None => Err (EPlain "dbcache: SqlDependency requires WithTable or WithModel")
                   end in
    let! v := selectScalar tx q (condition d) (conditionArgs d) (column d) in
    Ok (default EmptyString v).

(** Nothing but identifiers and function punctuation reaches the query text: no
    quote, no semicolon, no comment, no parameter mark. *)
Lemma columnByte_harmless (s : string) (a : ascii) :
  validColumnExpr s = true -> In a (list_ascii_of_string s) ->
  ~ In a ["'"; ";"; "-"; "`"; "?"; "\"; "/"; "*"; "="]%char.
Proof.
  destruct s as [|a0 s]; [done|]. cbn [validColumnExpr list_ascii_of_string]. intros Hv Hin.
  assert (columnByte a = true) as Ha.
  { apply andb_true_iff in Hv as [Hs Hv]. destruct Hin as [<-|Hin].
    - unfold columnByte, identByte. by rewrite Hs.
    - revert Hv Hin. induction s as [|b s IH]; cbn; [done|].
      intros [Hb Hr]%andb_true_iff [<-|Hi]; [done|by apply IH]. }
  intros Hbad. cbn in Hbad. repeat (destruct Hbad as [<-|Hbad]; [discriminate Ha|]). done.
Qed.

Lemma GetValue_safe (d : SqlDependency) (tx : DB) (v : string) :
  GetValue d tx = Ok v -> validColumnExpr (column d) = true.
Proof. unfold GetValue. by destruct (validColumnExpr (column d)). Qed.

End Depend.

Arguments SqlDependency : clear implicits.

(** ** cacher.go *)

(** A cached value with the marker and the instant (milliseconds) of its load. *)
Record cacheEntry (T : Type) : Type := mkEntry {
  Value : T;
  CompareValue : string;
  CreatedAt : Z;
}.
Arguments mkEntry {T} _ _ _.
Arguments Value {T} _.
Arguments CompareValue {T} _.
Arguments CreatedAt {T} _.

(** The instants of one call. *)
Record times : Type := mkTimes {
  tCheck : Z;   (** the cache is read and its entry revalidated *)
  tMarker : Z;  (** the marker of the reload *)
  tLoad : Z;    (** the loader *)
  tStore : Z;   (** the store of the entry *)
}.

Section Cacher.

Context {DB T C : Type} `{LawfulCache (cacheEntry T) C}.

Record Cacher : Type := mkCacher {
  duration : Z;
  dependency : option (DB -> result error string);
}.

Definition WithCacheDuration (d : Z) (o : Cacher) : Cacher :=
  if 0 <? d then mkCacher d (dependency o) else o.
Definition WithDependency (dep : DB -> result error string) (o : Cacher) : Cacher :=
  mkCacher (duration o) (Some dep).
Definition New (opts : list (Cacher -> Cacher)) : Cacher :=
  fold_left (fun c opt => opt c) opts (mkCacher defaultCacheDuration None).

Definition milli : Z := 1000000.
Definition UnixMilli (t : Z) : Z := t / milli.

(** The verdict on the entry found: serve it, or reload, possibly after deleting
    it. *)
Definition readPath (c : Cacher) (now : Z) (db : DB) (key : string) (cache : C) : C * option T :=
  match Load now key cache with
  | Err _ => (cache, None)
  | Ok entry =>
      let created := CreatedAt entry * milli in
      if now <? created then (cache, None)
      else if now - created <=? graceWindow then (cache, Some (Value entry))
      else match dependency c with
           | None => (cache, Some (Value entry))
           | Some dep =>
               match dep db with
               | Err _ => (cache, None)
               | Ok dependValue =>
                   if String.eqb (CompareValue entry) dependValue then (cache, Some (Value entry))
                   else (fst (Delete key cache), None)
               end
           end
  end.

(** What the leader of the single flight runs; the callers it dedups get its
    result. *)
Definition reload (c : Cacher) (ts : times) (db : Z -> DB) (f : DB -> result error T) (key : string) (cache : C) :
    C * result error T :=
  match match dependency c with
        | Some dep => dep (db (tMarker ts))
        | None => Ok EmptyString
        end with
  | Err e => (cache, Err e)
  | Ok dependValue =>
      match f (db (tLoad ts)) with
      | Err e => (cache, Err e)
      | Ok result =>
          (fst (Store (tStore ts) key (mkEntry result dependValue (UnixMilli (tStore ts))) (duration c) cache),
           Ok result)
      end
  end.

Definition Try (c : Cacher) (ts : times) (db : Z -> DB) (key : string) (f : DB -> result error T) (cache : C) :
    C * result error T :=
  if (maxCacheKeyLen <? String.length key)%nat then (cache, Err (Newf CodeInvalid "cache key too long"))
  else match readPath c (tCheck ts) (db (tCheck ts)) key cache with
       | (cache, Some v) => (cache, Ok v)
       | (cache, None) => reload c ts db f key cache
       end.

Lemma Try_ext (c : Cacher) (ts : times) (db : Z -> DB) (key : string) (f g : DB -> result error T) (cache : C) :
  (forall d, f d = g d) -> Try c ts db key f cache = Try c ts db key g cache.
Proof. intros He. unfold Try, reload. by rewrite He. Qed.

(** A call changes nothing under any other key. *)
Lemma Try_frame (db : Z -> DB) (c : Cacher) (ts : times) (key key' : string) (cache : C) (t : Z) (e : cacheEntry T) (g : DB -> result error T) :
  key' <> key -> Load t key' (fst (Try c ts db key g cache)) = Ok e -> Load t key' cache = Ok e.
Proof.
  intros Hne. unfold Try. destruct (maxCacheKeyLen <? String.length key)%nat; [done|].
  assert (forall r, Load t key' (fst (reload c ts db g key r)) = Ok e -> Load t key' r = Ok e) as Hrel.
  { intros r. unfold reload. repeat case_match; cbn [fst]; try done.
    all: intros Hl; by apply load_store in Hl as [(? & _)|?]. }
  unfold readPath. destruct (Load (tCheck ts) key cache) as [en|er]; [|apply Hrel].
  repeat case_match; simplify_eq; cbn [fst] in *; try done; try apply Hrel.
  all: intros Hl; apply Hrel in Hl; by apply load_delete in Hl.
Qed.

(** ** Freshness *)

(** The instants of a call are ordered, and a call's reload takes at most [L]. *)
Variable L : Z.
Definition times_ok (ts : times) : Prop :=
  0 <= tCheck ts <= tMarker ts /\ tMarker ts <= tLoad ts <= tStore ts /\ tStore ts - tMarker ts <= L.

(** The database history, the keys this cacher uses and the value of each. *)
Variable db : Z -> DB.
Variable owned : string -> Prop.
Variable f : string -> DB -> result error T.

(** *** Without trust in the marker: the time to live *)

(** Whatever the cache can give at [t] was loaded no earlier than the time to live
    and one reload before [t]. *)
Definition live_ok (d now : Z) (cache : C) : Prop :=
  forall t key e, owned key -> Load t key cache = Ok e ->
  exists u, f key (db u) = Ok (Value e) /\ u <= now /\ t - d - L <= u.

Lemma live_ok_mono (d now now' : Z) (cache : C) : now <= now' -> live_ok d now cache -> live_ok d now' cache.
Proof. intros Hle Hc t key e Ho He. destruct (Hc t key e Ho He) as (u & ? & ? & ?). exists u. repeat split; try done. lia. Qed.

Lemma live_ok_delete (d now : Z) (key : string) (cache : C) : live_ok d now cache -> live_ok d now (fst (Delete key cache)).
Proof. intros Hc t k e Ho He. apply load_delete in He. by apply (Hc t k e Ho). Qed.

Lemma readPath_live (c : Cacher) (d now : Z) (key : string) (cache cache' : C) (r : option T) :
  owned key -> live_ok d now cache -> readPath c now (db now) key cache = (cache', r) ->
  live_ok d now cache'
  /\ match r with
     | Some v => exists u, f key (db u) = Ok v /\ now - d - L <= u <= now
     | None => True
     end.
Proof.
  intros Ho Hc Hr. unfold readPath in Hr. destruct (Load now key cache) as [e|] eqn:El; [|by simplify_eq].
  destruct (Hc now key e Ho El) as (u & Hu & Hle & Hlo).
  repeat case_match; simplify_eq; try (split; [done|by exists u] || done).
  split; [by apply live_ok_delete|done].
Qed.

Lemma reload_live (c : Cacher) (ts : times) (key : string) (cache cache' : C) (r : result error T) :
  0 < duration c -> times_ok ts -> live_ok (duration c) (tMarker ts) cache ->
  reload c ts db (f key) key cache = (cache', r) ->
  live_ok (duration c) (tStore ts) cache'
  /\ match r with
     | Ok v => f key (db (tLoad ts)) = Ok v
     | Err e => (exists dep, dependency c = Some dep /\ dep (db (tMarker ts)) = Err e) \/ f key (db (tLoad ts)) = Err e
     end.
Proof.
  intros Hd (Hpos & Ht & HL) Hc Hr. unfold reload in Hr.
  assert (live_ok (duration c) (tStore ts) cache) as Hc' by (eapply live_ok_mono; [|exact Hc]; lia).
  destruct (match dependency c with Some dep => dep (db (tMarker ts)) | None => Ok EmptyString end) as [m|e] eqn:Em.
  - destruct (f key (db (tLoad ts))) as [v|e] eqn:Ef; simplify_eq; [|by auto]. split; [|done].
    intros t k e Hk He. apply load_store in He as [(-> & -> & Hlife)|He]; [|by eapply Hc'].
    exists (tLoad ts). cbn [Value]. split; [done|]. split; lia.
  - simplify_eq. split; [done|]. left. destruct (dependency c) as [dep|]; [by exists dep|done].
Qed.

(** The time to live bounds the age of what is served even where no write
    moves the marker: a value [Try] returns was loaded no earlier than the cache
    duration and one reload before the call. *)
Theorem Try_bounded_age (c : Cacher) (ts : times) (key : string) (cache cache' : C) (r : result error T) :
  owned key -> 0 < duration c -> times_ok ts -> live_ok (duration c) (tCheck ts) cache ->
  Try c ts db key (f key) cache = (cache', r) ->
  live_ok (duration c) (tStore ts) cache'
  /\ match r with
     | Ok v => exists u, f key (db u) = Ok v /\ tCheck ts - duration c - L <= u <= tStore ts
     | Err e => (exists dep, dependency c = Some dep /\ dep (db (tMarker ts)) = Err e)
                \/ f key (db (tLoad ts)) = Err e \/ (maxCacheKeyLen < String.length key)%nat
     end.
Proof.
  intros Ho Hd Hts Hc Ht. unfold Try in Ht. pose proof Hts as (H1 & H2 & HL).
  destruct (Nat.ltb_spec maxCacheKeyLen (String.length key)).
  { simplify_eq. split; [eapply live_ok_mono; [|exact Hc]; lia|]. by auto. }
  destruct (readPath c (tCheck ts) (db (tCheck ts)) key cache) as [cache1 [v|]] eqn:Er.
  - simplify_eq. destruct (readPath_live _ _ _ _ _ _ _ Ho Hc Er) as [Hc1 (u & Hu & Hb)].
    split; [eapply live_ok_mono; [|exact Hc1]; lia|]. exists u. split; [done|]. lia.
  - destruct (readPath_live _ _ _ _ _ _ _ Ho Hc Er) as [Hc1 _].
    destruct (reload_live c ts key cache1 cache' r Hd Hts) as [Hc2 Hr];
      [eapply live_ok_mono; [|exact Hc1]; lia|done|].
    split; [done|]. destruct r as [v|e]; [|tauto]. exists (tLoad ts). split; [done|]. lia.
Qed.

(** *** With a marker that moves with every write *)

Section Marked.

Variable dep : DB -> result error string.

(** The marker moves with every write the loaders can see: when it reads the same at
    two instants, nothing they load changed in between.  The markers of the code have
    blind spots, so this is a condition of the sharper bound only. *)
Definition marker_moves : Prop := forall key s t m,
  s <= t -> dep (db s) = Ok m -> dep (db t) = Ok m -> forall u, s <= u <= t -> f key (db u) = f key (db t).

(** An entry was loaded at some instant [u], after its marker was read at [s] and
    not long before it was stored. *)
Definition entry_ok (key : string) (now : Z) (e : cacheEntry T) : Prop :=
  exists s u, dep (db s) = Ok (CompareValue e) /\ f key (db u) = Ok (Value e)
    /\ s <= u /\ u <= now /\ CreatedAt e * milli - L <= u.

(** Every entry the cache can give at any time from [now] on. *)
Definition cache_ok (now : Z) (cache : C) : Prop :=
  forall t key e, owned key -> Load t key cache = Ok e -> entry_ok key now e.

Lemma entry_ok_mono (key : string) (now now' : Z) (e : cacheEntry T) :
  now <= now' -> entry_ok key now e -> entry_ok key now' e.
Proof. intros Hle (s & u & Hs & Hu & H1 & H2 & H3). exists s, u. repeat split; try done. lia. Qed.

Lemma cache_ok_mono (now now' : Z) (cache : C) : now <= now' -> cache_ok now cache -> cache_ok now' cache.
Proof. intros Hle Hc t key e Ho He. eapply entry_ok_mono; [exact Hle|by eapply Hc]. Qed.

Variable c : Cacher.
Hypothesis c_dep : dependency c = Some dep.

Section Moves.

Hypothesis detects : marker_moves.

Lemma readPath_ok (now : Z) (key : string) (cache cache' : C) (r : option T) :
  owned key -> 0 <= L -> cache_ok now cache -> readPath c now (db now) key cache = (cache', r) ->
  cache_ok now cache'
  /\ match r with
     | Some v => exists u, f key (db u) = Ok v /\ now - graceWindow - L <= u <= now
     | None => True
     end.
Proof.
  intros Ho HL Hc Hr. unfold readPath in Hr. rewrite c_dep in Hr.
  destruct (Load now key cache) as [e|e] eqn:El; [|simplify_eq; done].
  pose proof (Hc _ _ _ Ho El) as (s & u & Hs & Hu & Hsu & Hun & Hlo).
  destruct (Z.ltb_spec now (CreatedAt e * milli)); [simplify_eq; done|].
  destruct (Z.leb_spec (now - CreatedAt e * milli) graceWindow).
  { simplify_eq. split; [done|]. exists u. split; [done|]. lia. }
  destruct (dep (db now)) as [m|e'] eqn:Em; [|simplify_eq; done].
  destruct (String.eqb_spec (CompareValue e) m) as [Heq|Hne]; simplify_eq.
  - split; [done|]. exists now. split; [|unfold graceWindow, second in *; lia].
    rewrite <- Hu. symmetry. apply (detects key s now (CompareValue e)); [lia|done|done|lia].
  - split; [|done]. intros t k e' Hk He'. apply load_delete in He'. by apply (Hc _ _ _ Hk) in He'.
Qed.

Lemma reload_ok (ts : times) (key : string) (cache cache' : C) (r : result error T) :
  times_ok ts -> cache_ok (tMarker ts) cache -> reload c ts db (f key) key cache = (cache', r) ->
  cache_ok (tStore ts) cache'
  /\ match r with
     | Ok v => f key (db (tLoad ts)) = Ok v
     | Err e => dep (db (tMarker ts)) = Err e \/ f key (db (tLoad ts)) = Err e
     end.
Proof.
  intros (_ & Ht & HL) Hc Hr. unfold reload in Hr. rewrite c_dep in Hr.
  assert (cache_ok (tStore ts) cache) as Hc' by (eapply cache_ok_mono; [|exact Hc]; lia).
  destruct (dep (db (tMarker ts))) as [m|e] eqn:Em; [|simplify_eq; by eauto].
  destruct (f key (db (tLoad ts))) as [v|e] eqn:Ef; [|simplify_eq; by eauto].
  simplify_eq. split; [|done]. intros t k e Hk He. apply load_store in He as [(-> & -> & _)|He]; [|by eapply Hc'].
  exists (tMarker ts), (tLoad ts). cbn [CompareValue Value CreatedAt]. repeat split; try done; try lia.
  unfold UnixMilli, milli. pose proof (Z.mul_div_le (tStore ts) 1000000 ltac:(lia)). lia.
Qed.

(** Bounded staleness, the marker trusted. *)
Lemma Try_marked (ts : times) (key : string) (cache cache' : C) (r : result error T) :
  owned key -> times_ok ts -> cache_ok (tCheck ts) cache ->
  Try c ts db key (f key) cache = (cache', r) ->
  cache_ok (tStore ts) cache'
  /\ match r with
     | Ok v => exists u, f key (db u) = Ok v /\ tCheck ts - graceWindow - L <= u <= tStore ts
     | Err e => dep (db (tMarker ts)) = Err e \/ f key (db (tLoad ts)) = Err e
                \/ (maxCacheKeyLen < String.length key)%nat
     end.
Proof.
  intros Ho Hts Hc Ht. unfold Try in Ht. pose proof Hts as (H1 & H2 & HL).
  assert (0 <= L) as HL0 by lia.
  destruct (Nat.ltb_spec maxCacheKeyLen (String.length key)).
  { simplify_eq. split; [eapply cache_ok_mono; [|exact Hc]; lia|]. by auto. }
  destruct (readPath c (tCheck ts) (db (tCheck ts)) key cache) as [cache1 [v|]] eqn:Er.
  - simplify_eq. destruct (readPath_ok _ _ _ _ _ Ho HL0 Hc Er) as [Hc1 (u & Hu & Hb)].
    split; [eapply cache_ok_mono; [|exact Hc1]; lia|]. exists u. split; [done|]. lia.
  - destruct (readPath_ok _ _ _ _ _ Ho HL0 Hc Er) as [Hc1 _].
    destruct (reload_ok ts key cache1 cache' r Hts) as [Hc2 Hr];
      [eapply cache_ok_mono; [|exact Hc1]; lia|done|].
    split; [done|]. destruct r as [v|e]; [|tauto]. exists (tLoad ts). split; [done|].
    unfold graceWindow, second. lia.
Qed.

End Moves.

(** A cache in which every entry is of bounded age: by the time to live in any case, by
    the grace window where the marker moves with every write. *)
Definition sound_cache (now : Z) (cache : C) : Prop :=
  live_ok (duration c) now cache /\ (marker_moves -> cache_ok now cache).

Definition age_bound (a : Z) : Prop := a = duration c \/ (marker_moves /\ a = graceWindow).

Lemma sound_cache_mono (now now' : Z) (cache : C) : now <= now' -> sound_cache now cache -> sound_cache now' cache.
Proof. intros Hle [H1 H2]. split; [by eapply live_ok_mono|]. intros Hm. eapply cache_ok_mono; [exact Hle|by apply H2]. Qed.

(** What another cacher over the same backend does to the keys that are not its own. *)
Lemma sound_cache_frame (now : Z) (cache cache' : C) :
  (forall t key e, owned key -> Load t key cache' = Ok e -> Load t key cache = Ok e) ->
  sound_cache now cache -> sound_cache now cache'.
Proof. intros Hf [H1 H2]. split; [|intros Hm]; intros t k e Hk He; [by apply (H1 t k e Hk), Hf|by apply (H2 Hm t k e Hk), Hf]. Qed.

Lemma sound_cache_empty (now : Z) (cache : C) : (forall t key, exists e, Load t key cache = Err e) -> sound_cache now cache.
Proof. intros He. split; [|intros _]; intros t key e _ Hl; destruct (He t key) as [e' He']; congruence. Qed.

Lemma Try_aged (ts : times) (key : string) (cache cache' : C) (r : result error T) :
  owned key -> 0 < duration c -> times_ok ts -> sound_cache (tCheck ts) cache ->
  Try c ts db key (f key) cache = (cache', r) ->
  sound_cache (tStore ts) cache'
  /\ match r with
     | Ok v => forall a, age_bound a -> exists u, f key (db u) = Ok v /\ tCheck ts - a - L <= u <= tStore ts
     | Err e => dep (db (tMarker ts)) = Err e \/ f key (db (tLoad ts)) = Err e
                \/ (maxCacheKeyLen < String.length key)%nat
     end.
Proof.
  intros Ho Hd Hts [Hl Hc] Ht. destruct (Try_bounded_age c ts key cache cache' r Ho Hd Hts Hl Ht) as [Hl' Hr].
  split; [split; [done|]|].
  - intros Hm. by destruct (Try_marked Hm ts key cache cache' r Ho Hts (Hc Hm) Ht).
  - destruct r as [v|e].
    + intros a [->|[Hm ->]]; [done|]. by destruct (Try_marked Hm ts key cache cache' (Ok v) Ho Hts (Hc Hm) Ht).
    + destruct Hr as [(dep' & Hdep & He)|Hr]; [left; congruence|by right].
Qed.

(** C15. Bounded staleness: whatever other writers do and whenever the call's four
    readings of the database fall, a value [Try] returns is what the loader gives at an
    instant no earlier than the cache duration and one reload before the call and no
    later than its end; where the marker moves with every write to what is loaded (the
    markers of the code have blind spots), no earlier than the grace window and one
    reload; an error is a failed query of this call, never one remembered, or the refusal
    of a key over the limit; and the cache stays in the state that makes the next call
    right. *)
Theorem Try_fresh (ts : times) (key : string) (cache cache' : C) (r : result error T) :
  owned key -> 0 < duration c -> times_ok ts -> sound_cache (tCheck ts) cache ->
  Try c ts db key (f key) cache = (cache', r) ->
  sound_cache (tStore ts) cache'
  /\ match r with
     | Ok v => (exists u, f key (db u) = Ok v /\ tCheck ts - duration c - L <= u <= tStore ts)
               /\ (marker_moves -> exists u, f key (db u) = Ok v /\ tCheck ts - graceWindow - L <= u <= tStore ts)
     | Err e => dep (db (tMarker ts)) = Err e \/ f key (db (tLoad ts)) = Err e
                \/ (maxCacheKeyLen < String.length key)%nat
     end.
Proof.
  intros Ho Hd Hts Hc Ht. destruct (Try_aged ts key cache cache' r Ho Hd Hts Hc Ht) as [Hc' Hr]. split; [done|].
  destruct r as [v|e]; [|done]. split; [|intros Hm]; apply Hr; [by left|by right].
Qed.

End Marked.

End Cacher.

Arguments Cacher : clear implicits.

(** ** A concrete run: one table whose marker is its version *)

Definition demoDb (t : Z) : Z := if t <? 5 * second then 1 else 2.
Definition demoDep (d : Z) : result error string := Ok (if d =? 1 then "v1" else "v2").
Definition demoLoad (_ : string) (d : Z) : result error Z := Ok d.
Definition demoCacher : Cacher Z := mkCacher defaultCacheDuration (Some demoDep).
Definition demoTimes (t : Z) : times := mkTimes t t t t.

Lemma demo_moves : marker_moves demoDb demoLoad demoDep.
Proof.
  intros key s t m. unfold demoDep, demoDb, demoLoad. intros Hst H1 H2 u Hu.
  destruct (Z.ltb_spec s (5 * second)), (Z.ltb_spec t (5 * second)), (Z.ltb_spec u (5 * second));
    cbn in *; simplify_eq; try done; lia.
Qed.

(** Loaded at second 1, read again at second 8 after the write of second 5: the
    entry is dropped and the new value returned. *)
Lemma Try_fresh_witness :
  let c0 := NewCache 0 ∅ in
  let cache1 := fst (Try demoCacher (demoTimes second) demoDb "k" (demoLoad "k") c0) in
  (exists u, demoLoad "k" (demoDb u) = Ok 2 /\ 8 * second - defaultCacheDuration - 0 <= u <= 8 * second)
  /\ exists u, demoLoad "k" (demoDb u) = Ok 2 /\ 8 * second - graceWindow - 0 <= u <= 8 * second.
Proof.
  intros c0 cache1.
  assert (forall t, 0 <= t -> times_ok 0 (demoTimes t)) as Ht by (intros t Ht; unfold times_ok; cbn; lia).
  assert (sound_cache 0 demoDb (fun _ => True) demoLoad demoDep demoCacher second cache1) as H1.
  { apply (Try_fresh 0 demoDb (fun _ => True) demoLoad demoDep demoCacher eq_refl (demoTimes second) "k" c0 cache1 (Ok 1));
      [exact I|done|apply Ht; done|apply sound_cache_empty; intros t k; eexists; reflexivity|vm_compute; reflexivity]. }
  destruct (Try_fresh 0 demoDb (fun _ => True) demoLoad demoDep demoCacher eq_refl (demoTimes (8 * second)) "k" cache1
           (fst (Try demoCacher (demoTimes (8 * second)) demoDb "k" (demoLoad "k") cache1)) (Ok 2)) as [_ [Ha Hb]].
  - exact I.
  - done.
  - apply Ht. done.
  - apply (sound_cache_mono 0 demoDb (fun _ => True) demoLoad demoDep demoCacher second); [done|exact H1].
  - vm_compute. reflexivity.
  - split; [exact Ha|]. apply Hb, demo_moves.
Defined.
