(* ===== verification/AdminClaims.v ===== *)
(** [admin/auth/claims.go]: the claims of an admin token, and the two readers of
    the claims a context carries. *)

From Stdlib Require Import ZArith String List Bool.
From stdpp Require Import base tactics list gmap strings.
From S2P Require Import Prelude GoStrings Errs Metadata Middleware.

Local Open Scope string_scope.

(** The registered claims aeus uses (instants in nanoseconds) and its own. *)
Record Claims : Type := mkClaims {
  cID : string;
  cExpiresAt : option Z;
  cIssuedAt : option Z;
  cNotBefore : option Z;
  UID : string;
  Role : string;
  TenantID : string;
  TokenType : string;
}.

#[export] Instance Claims_eq_dec : EqDecision Claims.
Proof. solve_decision. Defined.

(** A [jwt.Claims] interface value: an admin claims pointer, a nil one, or a claims
    type of another package. *)
Inductive AnyClaims : Type :=
| AdminClaims (c : Claims)
| NilAdminClaims
| OtherClaims.

(** The type assertion [.( *auth.Claims)]: the claims, and whether it held. *)
Definition ClaimsFromContext (ctx : GoContext AnyClaims) : option Claims * bool :=
  match ctxClaims ctx with
  | Some (AdminClaims c) => (Some c, true)
  | Some NilAdminClaims => (None, true)
  | Some OtherClaims | None => (None, false)
  end.

(** A nil claims pointer is dereferenced: the one panic, [None]. *)
Definition TenantIDFromContext (ctx : GoContext AnyClaims) : option string :=
  match ClaimsFromContext ctx with
  | (Some c, true) => Some (TenantID c)
  | (None, true) => None
  | (_, false) => Some EmptyString
  end.
