(* ===== verification/PermissionChecker.v ===== *)
(** [admin/permission.go]: the permission checker of the HTTP API.

    The database is read through two caches, the catalog of api permissions and
    the grants of a role in a tenant; the two queries (gorm) are parameters. *)

From Stdlib Require Import ZArith Lia String Ascii List Bool.
From stdpp Require Import base tactics list gmap strings.
From S2P Require Import Prelude GoStrings Errs Metadata Middleware JwtAuth Cache DbCache AdminClaims.

Local Open Scope string_scope.
Local Open Scope list_scope.
Local Open Scope Z_scope.

Definition httpProtocol : string := "http".
Definition catalogMarker : string := "MAX(updated_at)".
Definition grantsMarker : string := "SUM(id)".

(** ** The allowlist *)

Record allowEntry : Type := mkAllow { aMethod : string; aPattern : string }.

Definition matchPattern (pattern path : string) : bool :=
  let n := String.length pattern in
  if String.eqb pattern path then true
  else if String.eqb pattern "*" then true
  else if (1 <? n)%nat && bool_decide (byteAt pattern (n - 1) = Some star) then
    let prefix := substring 0 (n - 1) pattern in
    if negb (HasPrefix path prefix) then false
    else if bool_decide (byteAt prefix (String.length prefix - 1) = Some slashB) then true
    else (String.length prefix <? String.length path)%nat
         && bool_decide (byteAt path (String.length prefix) = Some slashB)
  else false.

(** The loop of [pathMatcher.match]; the flag is [wildcardHit]. *)
Fixpoint matchLoop (m : list allowEntry) (method path : string) (wildcardHit : bool) : bool :=
  match m with
  | [] => wildcardHit
  | e :: m' =>
      if String.eqb (aMethod e) EmptyString
      then matchLoop m' method path (if matchPattern (aPattern e) path then true else wildcardHit)
      else if String.eqb (aMethod e) method
      then if matchPattern (aPattern e) path then true else matchLoop m' method path wildcardHit
      else matchLoop m' method path wildcardHit
  end.

Definition pathMatch (m : list allowEntry) (method path : string) : bool := matchLoop m method path false.

Definition splitAllowEntry (s : string) : string * string :=
  let s := TrimSpace s in
  if String.eqb s EmptyString then (EmptyString, EmptyString)
  else match cutByte s " "%char with
       | None => (EmptyString, s)
       | Some (before, after) =>
           let method := TrimSpace before in
           (if String.eqb method "*" then EmptyString else method, TrimSpace after)
       end.

Definition toAllow (s : string) : allowEntry := let '(m, p) := splitAllowEntry s in mkAllow m p.

Definition isInfrastructurePath (path : string) : bool :=
  String.eqb path EmptyString
  || existsb (String.eqb path) ["/health"; "/ready"; "/metrics"; "/mcp"]
  || HasPrefix path "/mcp/" || HasSuffix path "/openapi.json".

Definition defaultCheckerAllowlist : list string :=
  [ "GET /user/profile"; "PATCH /user/profile"; "POST /user/change-password"; "POST /user/set-avatar"
  ; "GET /user/menus"; "GET /user/permissions"; "GET /menu/tree"; "GET /menu/breadcrumb"
  ; "GET /dashboard/overview" ].

(** The matcher is the existence of an entry for the method and the path; the
    order of the entries and the wildcard flag do not matter. *)
Lemma pathMatch_spec (m : list allowEntry) (method path : string) :
  pathMatch m method path
  = existsb (fun e => (String.eqb (aMethod e) EmptyString || String.eqb (aMethod e) method)
                      && matchPattern (aPattern e) path) m.
Proof.
  unfold pathMatch. assert (forall w, matchLoop m method path w
    = w || existsb (fun e => (String.eqb (aMethod e) EmptyString || String.eqb (aMethod e) method)
                      && matchPattern (aPattern e) path) m) as Hl; [|apply Hl].
  induction m as [|e m IH]; intros w; cbn [matchLoop existsb]; [by rewrite orb_false_r|].
  destruct (String.eqb (aMethod e) EmptyString); cbn [orb andb].
  { rewrite IH. destruct (matchPattern (aPattern e) path), w; cbn; try done; by rewrite orb_true_r. }
  destruct (String.eqb (aMethod e) method); cbn [andb orb]; [|apply IH].
  destruct (matchPattern (aPattern e) path); [by rewrite orb_true_r|]. cbn. apply IH.
Qed.

(** The checker's patterns and the JWT middleware's are one language: a path
    one of them lets through, the other does. *)
Theorem matchPattern_is_isAllowed (pattern path : string) :
  matchPattern pattern path = isAllowed path [pattern].
Proof.
  cbn [isAllowed]. unfold matchPattern, allowedBy. repeat case_match; simplify_eq; done.
Qed.

(** ** The checker *)

Section Checker.

Context {DB World C : Type}.
Notation set := (gset string).
Context `{LawfulCache (cacheEntry set) C}.

Record checkerConfig : Type := mkConfig {
  shared : bool;  (** a cache backend was supplied: both caches use it *)
  allowlist : list allowEntry;
  failOpen : bool;
}.

Definition WithCheckerFailOpen (b : bool) (c : checkerConfig) : checkerConfig :=
  mkConfig (shared c) (allowlist c) b.
Definition WithCheckerAllowlist (entries : list string) (c : checkerConfig) : checkerConfig :=
  mkConfig (shared c) (allowlist c ++ map toAllow entries) (failOpen c).
Definition WithCheckerCache (c : checkerConfig) : checkerConfig :=
  mkConfig true (allowlist c) (failOpen c).

Definition newConfig (opts : list (checkerConfig -> checkerConfig)) : checkerConfig :=
  fold_left (fun c o => o c) opts (mkConfig false (map toAllow defaultCheckerAllowlist) false).

(** The two queries, and the marker of each table. *)
Variable pluckCatalog : DB -> result error (list string).
Variable pluckGrants : string -> string -> DB -> result error (list string).
Variable catalogVersion grantsVersion : DB -> result error string.

(** The two caches: one backend, or one each. *)
Inductive backends : Type :=
| Shared (c : C)
| Own (catalog grants : C).

Definition catalogCache (b : backends) : C := match b with Shared c => c | Own c _ => c end.
Definition grantsCache (b : backends) : C := match b with Shared c => c | Own _ c => c end.
Definition setCatalog (c : C) (b : backends) : backends :=
  match b with Shared _ => Shared c | Own _ g => Own c g end.
Definition setGrants (c : C) (b : backends) : backends :=
  match b with Shared _ => Shared c | Own k _ => Own k c end.

Definition apiCatalog : Cacher DB := New [WithDependency catalogVersion].
Definition grants : Cacher DB := New [WithDependency grantsVersion; WithCacheDuration (60 * second)].

Definition toSet (datas : list string) : set := list_to_set datas.
Definition loadSet (q : DB -> result error (list string)) (db : DB) : result error set :=
  match q db with Ok l => Ok (toSet l) | Err e => Err e end.

Definition catalogKey : string := "perm:catalog".
Definition grantKey (tenant role : string) : string := "perm:grant:" +:+ tenant +:+ ":" +:+ role.

Notation St := (State (World := World)).
Notation Ctx := (GoContext AnyClaims).

Definition denied : option error := Some (ESentinel (SErrs ErrPermissionDenied)).
Definition accessDenied : option error := Some (ESentinel (SErrs ErrAccessDenied)).

(** The route the request is identified by. *)
Definition requestRoute (ctx : Ctx) (s : St) : string :=
  let '(path, _) := Get s (ctxMeta ctx) RequestPath in
  let '(route, routeSet) := Get s (ctxMeta ctx) RequestRoute in
  if routeSet then route else path.

(** The catalogued part: the catalog, then the grants of the caller's role in the
    caller's tenant.  [ts1] and [ts2] are the instants of the two cache reads. *)
Definition checkCatalog (cfg : checkerConfig) (ac : Claims) (code : string) (db : Z -> DB) (ts1 ts2 : times)
    (b : backends) : backends * option error :=
  let '(c, r) := Try apiCatalog ts1 db catalogKey (loadSet pluckCatalog) (catalogCache b) in
  let b := setCatalog c b in
  match r with
  | Err e => (b, Some e)
  | Ok catalogSet =>
      if negb (bool_decide (code ∈ catalogSet)) then (b, if failOpen cfg then None else denied)
      else
        let '(c, r) := Try grants ts2 db (grantKey (TenantID ac) (Role ac))
                         (loadSet (pluckGrants (Role ac) (TenantID ac))) (grantsCache b) in
        let b := setGrants c b in
        match r with
        | Err e => (b, Some e)
        | Ok grantSet => (b, if bool_decide (code ∈ grantSet) then None else denied)
        end
  end.

Definition PermissionChecker (cfg : checkerConfig) (db : Z -> DB) (ts1 ts2 : times)
    (ctx : Ctx) (s : St) (claims : AnyClaims) (b : backends) : backends * option error :=
  let '(proto, _) := Get s (ctxMeta ctx) RequestProtocol in
  if negb (String.eqb proto httpProtocol) then (b, None)
  else match claims with
       | AdminClaims ac =>
           let '(method, _) := Get s (ctxMeta ctx) RequestMethod in
           let '(path, _) := Get s (ctxMeta ctx) RequestPath in
           let route := requestRoute ctx s in
           if isInfrastructurePath route then (b, None)
           else if pathMatch (allowlist cfg) method path then (b, None)
           else checkCatalog cfg ac (method +:+ " " +:+ route) db ts1 ts2 b
       | _ => (b, accessDenied)
       end.

(** ** The decision *)

(** The two readings of the database are ordered; a reload takes at most [L]. *)
Variable L : Z.
Variable db : Z -> DB.

(** The keys of the two caches.  A role key has no colon (the rule of [Role.Key]
    in models/role.go: lower case, digits and underscores). *)
Definition isCatalogKey (key : string) : Prop := key = catalogKey.
Definition isGrantKey (key : string) : Prop :=
  exists tenant role, byte_free ":"%char role = true /\ key = grantKey tenant role.

(** What a grant key stands for. *)
Definition ofGrantKey (key : string) (d : DB) : result error set :=
  match cutPrefix key "perm:grant:" with
  | Some rest => match cutLastByte rest ":"%char with
                 | Some (tenant, role) => loadSet (pluckGrants role tenant) d
                 | None => Err (ESentinel (SErrs ErrInvalid))
                 end
  | None => Err (ESentinel (SErrs ErrInvalid))
  end.

Lemma ofGrantKey_grantKey (tenant role : string) (d : DB) :
  byte_free ":"%char role = true ->
  ofGrantKey (grantKey tenant role) d = loadSet (pluckGrants role tenant) d.
Proof.
  intros Ht. unfold ofGrantKey, grantKey. rewrite cutPrefix_app.
  change (":" +:+ role) with (String ":"%char role). by rewrite cutLastByte_app.
Qed.

(** Every entry of either cache is of bounded age: by its time to live (ten minutes for
    the catalog, one for the grants), and by the grace window of a second where the
    marker of the table moves with every write to it, which same-second writes may
    escape. *)
Definition caches_ok (now : Z) (b : backends) : Prop :=
  sound_cache L db isCatalogKey (fun _ => loadSet pluckCatalog) catalogVersion apiCatalog now (catalogCache b)
  /\ sound_cache L db isGrantKey ofGrantKey grantsVersion grants now (grantsCache b).

(** The ages the answers of the two caches can have. *)
Definition catalog_age (a : Z) : Prop := age_bound db (fun _ => loadSet pluckCatalog) catalogVersion apiCatalog a.
Definition grants_age (a : Z) : Prop := age_bound db ofGrantKey grantsVersion grants a.

Lemma caches_ok_mono (now now' : Z) (b : backends) : now <= now' -> caches_ok now b -> caches_ok now' b.
Proof. intros Hle [H1 H2]. split; (eapply sound_cache_mono; [|done]; done). Qed.

Lemma keys_differ (tenant role : string) : grantKey tenant role <> catalogKey.
Proof. discriminate. Qed.

(** The catalog is read: the other cache keeps its state. *)
Lemma Try_catalog (ts : times) (b : backends) (c' : C) (r : result error set) :
  times_ok L ts -> caches_ok (tCheck ts) b ->
  Try apiCatalog ts db catalogKey (loadSet pluckCatalog) (catalogCache b) = (c', r) ->
  caches_ok (tStore ts) (setCatalog c' b)
  /\ match r with
     | Ok v => forall a, catalog_age a -> exists u, loadSet pluckCatalog (db u) = Ok v /\ tCheck ts - a - L <= u <= tStore ts
     | Err _ => True
     end.
Proof.
  intros Hts [Hc Hg] Ht. pose proof Hts as (Ha & Hb & _).
  destruct (Try_aged L db isCatalogKey (fun _ => loadSet pluckCatalog) catalogVersion
              apiCatalog eq_refl ts catalogKey (catalogCache b) c' r) as [Hc' Hr]; [done|done|done|done|done|].
  split; [|by destruct r].
  assert (sound_cache L db isGrantKey ofGrantKey grantsVersion grants (tStore ts) (grantsCache b)) as Hg'.
  { eapply sound_cache_mono; [|exact Hg]. lia. }
  destruct b as [c|ck cg]; cbn [setCatalog catalogCache grantsCache] in *; split; try done.
  eapply sound_cache_frame; [|exact Hg']. intros t key e Hk He. destruct Hk as (tn & rl & _ & ->).
  eapply (Try_frame db apiCatalog ts catalogKey (grantKey tn rl)); [apply keys_differ|]. rewrite Ht. exact He.
Qed.

Lemma Try_grants (ts : times) (b : backends) (ac : Claims) (c' : C) (r : result error set) :
  byte_free ":"%char (Role ac) = true ->
  times_ok L ts -> caches_ok (tCheck ts) b ->
  Try grants ts db (grantKey (TenantID ac) (Role ac)) (loadSet (pluckGrants (Role ac) (TenantID ac))) (grantsCache b)
  = (c', r) ->
  caches_ok (tStore ts) (setGrants c' b)
  /\ match r with
     | Ok v => forall a, grants_age a -> exists u, loadSet (pluckGrants (Role ac) (TenantID ac)) (db u) = Ok v
                         /\ tCheck ts - a - L <= u <= tStore ts
     | Err _ => True
     end.
Proof.
  intros Hcolon Hts [Hc Hg] Ht. pose proof Hts as (Ha & Hb & _).
  set (key := grantKey (TenantID ac) (Role ac)) in *.
  assert (Try grants ts db key (ofGrantKey key) (grantsCache b) = (c', r)) as Ht'.
  { rewrite <- Ht. unfold Try. case_match; [done|]. destruct (readPath _ _ _ _ _) as [c1 [v|]]; [done|].
    unfold reload, key. by rewrite (ofGrantKey_grantKey (TenantID ac) (Role ac) (db (tLoad ts)) Hcolon). }
  destruct (Try_aged L db isGrantKey ofGrantKey grantsVersion
              grants eq_refl ts key (grantsCache b) c' r) as [Hg' Hr]; [by eexists _, _|done|done|done|done|].
  split.
  - assert (sound_cache L db isCatalogKey (fun _ => loadSet pluckCatalog) catalogVersion apiCatalog (tStore ts) (catalogCache b)) as Hc'.
    { eapply sound_cache_mono; [|exact Hc]. lia. }
    destruct b as [c|ck cg]; cbn [setGrants catalogCache grantsCache] in *; split; try done.
    eapply sound_cache_frame; [|exact Hc']. intros t k e Hk He. unfold isCatalogKey in Hk. subst k.
    eapply (Try_frame db grants ts key catalogKey); [apply not_eq_sym, keys_differ|]. rewrite Ht'. exact He.
  - destruct r as [v|]; [|done]. intros a Hage. destruct (Hr a Hage) as (u & Hu & Hb').
    exists u. by rewrite <- (ofGrantKey_grantKey (TenantID ac) (Role ac) (db u) Hcolon).
Qed.

(** What a request that passes has to show. *)
Lemma checker_passes (cfg : checkerConfig) (ts1 ts2 : times) (ctx : Ctx) (s : St) (claims : AnyClaims)
    (b b' : backends) :
  times_ok L ts1 -> times_ok L ts2 -> tStore ts1 <= tCheck ts2 -> caches_ok (tCheck ts1) b ->
  (forall ac, claims = AdminClaims ac -> byte_free ":"%char (Role ac) = true) ->
  fst (Get s (ctxMeta ctx) RequestProtocol) = httpProtocol ->
  PermissionChecker cfg db ts1 ts2 ctx s claims b = (b', None) ->
  caches_ok (tStore ts2) b'
  /\ exists ac, claims = AdminClaims ac /\
     let method := fst (Get s (ctxMeta ctx) RequestMethod) in
     let code := method +:+ " " +:+ requestRoute ctx s in
     isInfrastructurePath (requestRoute ctx s) = true
     \/ pathMatch (allowlist cfg) method (fst (Get s (ctxMeta ctx) RequestPath)) = true
     \/ (forall a1 a2, catalog_age a1 -> grants_age a2 -> exists u1 u2 cat gr,
           (tCheck ts1 - a1 - L <= u1 <= tStore ts1) /\ (tCheck ts2 - a2 - L <= u2 <= tStore ts2)
           /\ pluckCatalog (db u1) = Ok cat /\ In code cat
           /\ pluckGrants (Role ac) (TenantID ac) (db u2) = Ok gr /\ In code gr)
     \/ (failOpen cfg = true /\ forall a, catalog_age a ->
           exists u cat, (tCheck ts1 - a - L <= u <= tStore ts1) /\ pluckCatalog (db u) = Ok cat /\ ~ In code cat).
Proof.
  intros Ht1 Ht2 Hle Hb Hcolon Hhttp Hpc.
  pose proof Ht1 as (Ha1 & Hb1 & _). pose proof Ht2 as (Ha2 & Hb2 & _).
  assert (caches_ok (tStore ts2) b) as Hbend by (eapply caches_ok_mono; [|exact Hb]; lia).
  unfold PermissionChecker in Hpc.
  destruct (Get s (ctxMeta ctx) RequestProtocol) as [proto pok]. cbn [fst] in Hhttp. subst proto.
  cbn [negb] in Hpc. rewrite String.eqb_refl in Hpc. cbn [negb] in Hpc.
  destruct claims as [ac| |]; [|discriminate|discriminate].
  destruct (Get s (ctxMeta ctx) RequestMethod) as [method mok]. cbn [fst].
  destruct (Get s (ctxMeta ctx) RequestPath) as [path pathok]. cbn [fst].
  destruct (isInfrastructurePath (requestRoute ctx s)) eqn:Einf.
  { injection Hpc as <-. split; [done|]. exists ac. auto. }
  destruct (pathMatch (allowlist cfg) method path) eqn:Eal.
  { injection Hpc as <-. split; [done|]. exists ac. auto. }
  assert (forall u q (v : set), loadSet q (db u) = Ok v -> exists l, q (db u) = Ok l /\ v = toSet l) as Hload.
  { intros u q v. unfold loadSet. destruct (q (db u)) as [l|]; [|done]. intros [= <-]. by eauto. }
  unfold checkCatalog in Hpc.
  destruct (Try apiCatalog ts1 db catalogKey (loadSet pluckCatalog) (catalogCache b)) as [c1 r1] eqn:E1.
  destruct (Try_catalog ts1 b c1 r1 Ht1 Hb E1) as [Hb1' Hr1].
  destruct r1 as [catalogSet|]; [|discriminate].
  destruct (bool_decide (method +:+ " " +:+ requestRoute ctx s ∈ catalogSet)) eqn:Emem; cbn [negb] in Hpc.
  2: { destruct (failOpen cfg) eqn:Efo; [|discriminate]. injection Hpc as <-.
       split; [eapply caches_ok_mono; [|exact Hb1']; lia|]. exists ac. split; [done|]. right; right; right.
       split; [done|]. intros a Hage. destruct (Hr1 a Hage) as (u1 & (cat & Hcat & ->)%Hload & Hu1).
       exists u1, cat. split; [lia|]. split; [done|].
       apply bool_decide_eq_false in Emem. intros Hin. apply Emem. apply elem_of_list_to_set. by apply list_elem_of_In. }
  destruct (Try grants ts2 db _ _ _) as [c2 r2] eqn:E2.
  destruct (Try_grants ts2 (setCatalog c1 b) ac c2 r2 (Hcolon ac eq_refl) Ht2) as [Hb2' Hr2];
    [eapply caches_ok_mono; [|exact Hb1']; lia|exact E2|].
  destruct r2 as [grantSet|]; [|discriminate].
  destruct (bool_decide (method +:+ " " +:+ requestRoute ctx s ∈ grantSet)) eqn:Emem2; [|discriminate].
  injection Hpc as <-. split; [done|]. exists ac. split; [done|]. right; right; left.
  intros a1 a2 Hage1 Hage2. destruct (Hr1 a1 Hage1) as (u1 & (cat & Hcat & ->)%Hload & Hu1).
  destruct (Hr2 a2 Hage2) as (u2 & (gr & Hgr & ->)%Hload & Hu2).
  apply bool_decide_eq_true, elem_of_list_to_set, list_elem_of_In in Emem.
  apply bool_decide_eq_true, elem_of_list_to_set, list_elem_of_In in Emem2.
  exists u1, u2, cat, gr. repeat split; try done; lia.
Qed.

(** C4. Fail closed.  When the checker passes an HTTP request, the claims are
    admin claims and the request is an infrastructure route, is on the allowlist,
    or its code was in the catalog and granted to the caller's role in the caller's own
    tenant, at instants no older than the time to live of either cache (ten minutes,
    one minute) and one reload, or than a second and one reload where the marker of the
    table moves with every write; only with the fail-open option may it instead have
    been missing from the catalog.  The role keys of claims have no colon.  The caches
    stay sound for the next request. *)
Theorem checker_fail_closed (cfg : checkerConfig) (ts1 ts2 : times) (ctx : Ctx) (s : St) (claims : AnyClaims)
    (b b' : backends) :
  times_ok L ts1 -> times_ok L ts2 -> tStore ts1 <= tCheck ts2 -> caches_ok (tCheck ts1) b ->
  (forall ac, claims = AdminClaims ac -> byte_free ":"%char (Role ac) = true) ->
  fst (Get s (ctxMeta ctx) RequestProtocol) = httpProtocol ->
  PermissionChecker cfg db ts1 ts2 ctx s claims b = (b', None) ->
  caches_ok (tStore ts2) b'
  /\ exists ac, claims = AdminClaims ac /\
     let method := fst (Get s (ctxMeta ctx) RequestMethod) in
     let code := method +:+ " " +:+ requestRoute ctx s in
     isInfrastructurePath (requestRoute ctx s) = true
     \/ pathMatch (allowlist cfg) method (fst (Get s (ctxMeta ctx) RequestPath)) = true
     \/ (forall a1 a2, catalog_age a1 -> grants_age a2 -> exists u1 u2 cat gr,
           (tCheck ts1 - a1 - L <= u1 <= tStore ts1) /\ (tCheck ts2 - a2 - L <= u2 <= tStore ts2)
           /\ pluckCatalog (db u1) = Ok cat /\ In code cat
           /\ pluckGrants (Role ac) (TenantID ac) (db u2) = Ok gr /\ In code gr)
     \/ (failOpen cfg = true /\ forall a, catalog_age a ->
           exists u cat, (tCheck ts1 - a - L <= u <= tStore ts1) /\ pluckCatalog (db u) = Ok cat /\ ~ In code cat).
Proof. apply checker_passes. Qed.

(** Only HTTP requests are checked. *)
Lemma checker_other_protocols (cfg : checkerConfig) (ts1 ts2 : times) (ctx : Ctx) (s : St) (claims : AnyClaims)
    (b : backends) :
  fst (Get s (ctxMeta ctx) RequestProtocol) <> httpProtocol ->
  PermissionChecker cfg db ts1 ts2 ctx s claims b = (b, None).
Proof.
  intros Hp. unfold PermissionChecker. destruct (Get s (ctxMeta ctx) RequestProtocol) as [proto ok]. cbn [fst] in Hp.
  by destruct (String.eqb_spec proto httpProtocol).
Qed.

End Checker.

(** ** A concrete request: an editor of tenant t1 reads an order *)

Definition demoVars : gmap string string :=
  list_to_map [ (canonicalMetadataKey RequestProtocol, "http"); (canonicalMetadataKey RequestMethod, "GET")
              ; (canonicalMetadataKey RequestPath, "/orders/7"); (canonicalMetadataKey RequestRoute, "/orders/:id") ].
Definition demoStore : State (World := unit) :=
  mkStore (<[1%positive := mkMetadata None None demoVars]> ∅) tt.
Definition demoCtx : GoContext AnyClaims := mkCtx (Some 1%positive) None.
Definition editor : Claims := mkClaims "jti" None None None "u1" "editor" "t1" "access".
(** The database at an instant: its grants are withdrawn at second 5, and the marker of
    the table, their number, moves with that. *)
Definition demoDb (u : Z) : bool := u <? 5 * second.
Definition demoGrants (role tenant : string) (granting : bool) : result error (list string) :=
  if granting && String.eqb role "editor" && String.eqb tenant "t1" then Ok ["GET /orders/:id"] else Ok [].
Definition demoCatalog (_ : bool) : result error (list string) := Ok ["GET /orders/:id"; "DELETE /orders/:id"].
Definition demoVersion (_ : bool) : result error string := Ok "7".
Definition demoGrantsVersion (granting : bool) : result error string := Ok (if granting then "1" else "0").
Definition demoCfg : checkerConfig := newConfig [].
Definition emptyCaches : backends (C := memCache (cacheEntry (gset string))) := Own (NewCache 0 ∅) (NewCache 0 ∅).
Definition at_ (t : Z) : times := mkTimes t t t t.

Definition demoCheckAt (t : Z) (b : backends) (c : AnyClaims) : backends * option error :=
  PermissionChecker demoCatalog demoGrants demoVersion demoGrantsVersion demoCfg demoDb (at_ t) (at_ t) demoCtx demoStore c b.
Definition demoCheck (c : AnyClaims) : backends * option error := demoCheckAt second emptyCaches c.

Lemma checker_fail_closed_witness :
  snd (demoCheck (AdminClaims editor)) = None
  /\ exists ac, AdminClaims editor = AdminClaims ac /\
     let code := "GET" +:+ " " +:+ "/orders/:id" in
     isInfrastructurePath "/orders/:id" = true
     \/ pathMatch (allowlist demoCfg) "GET" "/orders/7" = true
     \/ (forall a1 a2, catalog_age demoCatalog demoVersion demoDb a1 -> grants_age demoGrants demoGrantsVersion demoDb a2 ->
         exists u1 u2 cat gr, (second - a1 - 0 <= u1 <= second) /\ (second - a2 - 0 <= u2 <= second)
           /\ demoCatalog (demoDb u1) = Ok cat /\ In code cat
           /\ demoGrants (Role ac) (TenantID ac) (demoDb u2) = Ok gr /\ In code gr)
     \/ (failOpen demoCfg = true /\ forall a, catalog_age demoCatalog demoVersion demoDb a ->
         exists u cat, (second - a - 0 <= u <= second) /\ demoCatalog (demoDb u) = Ok cat /\ ~ In code cat).
Proof.
  split; [vm_compute; reflexivity|].
  apply (checker_fail_closed demoCatalog demoGrants demoVersion demoGrantsVersion 0 demoDb
           demoCfg (at_ second) (at_ second) demoCtx demoStore (AdminClaims editor)
           emptyCaches (fst (demoCheck (AdminClaims editor)))).
  - unfold times_ok. cbn. unfold second. lia.
  - unfold times_ok. cbn. unfold second. lia.
  - cbn. lia.
  - split; apply sound_cache_empty; intros t k; eexists; reflexivity.
  - intros ac [= <-]. reflexivity.
  - vm_eq.
  - vm_eq.
Defined.

(** After the grants were withdrawn the same request, over the caches it left, is
    denied. *)
Example demo_revoked :
  snd (demoCheckAt (8 * second) (fst (demoCheck (AdminClaims editor))) (AdminClaims editor)) = denied.
Proof. vm_compute. reflexivity. Qed.

(** The same request from another role, and from the same role of another tenant,
    is denied. *)
Example demo_denied :
  snd (demoCheck (AdminClaims (mkClaims "j" None None None "u2" "viewer" "t1" "access"))) = denied
  /\ snd (demoCheck (AdminClaims (mkClaims "j" None None None "u3" "editor" "t2" "access"))) = denied
  /\ snd (demoCheck OtherClaims) = accessDenied.
Proof. vm_compute. auto. Qed.

(** Without that rule on role keys the cache keys of two tenants could be one. *)
Example grantKey_collision : grantKey "a" "b:c" = grantKey "a:b" "c".
Proof. reflexivity. Qed.
