(* ===== verification/Gorm.v ===== *)
(** The database as the admin module uses it through gorm: an interface of
    statements on one table with the laws its clients rely on, and a table kept as
    a list, which shows the laws can hold. *)

From Stdlib Require Import ZArith Lia String List Bool.
From stdpp Require Import base tactics list strings.
From S2P Require Import Prelude GoStrings Errs.

Local Open Scope string_scope.
Local Open Scope list_scope.

(** Statements on the live rows of type [R] in the database [DB]: a WHERE clause is
    a predicate, an UPDATE a change of the rows it selects.  A statement may fail.  [Create]
    is given the rows as they will be stored: the primary keys, times and column defaults
    the database draws are those the rows carry, whatever they are. *)
Class Gorm (DB R : Type) : Type := {
  rows : DB -> list R;
  Find : (R -> bool) -> DB -> result error (list R);
  Update : (R -> bool) -> (R -> R) -> DB -> DB * option error;
  DeleteRows : (R -> bool) -> DB -> DB * option error;
  Create : list R -> DB -> DB * option error;
}.

Definition updateRows {R : Type} (w : R -> bool) (f : R -> R) (l : list R) : list R :=
  map (fun r => if w r then f r else r) l.
Definition keepRows {R : Type} (w : R -> bool) (l : list R) : list R := List.filter (fun r => negb (w r)) l.

(** What a statement that reports no error has done. *)
Class GormLaws (DB R : Type) `{Gorm DB R} : Prop := {
  Find_ok w db l : Find w db = Ok l -> l = List.filter w (rows db);
  Update_ok w f db db' : Update w f db = (db', None) -> rows db' = updateRows w f (rows db);
  DeleteRows_ok w db db' : DeleteRows w db = (db', None) -> rows db' = keepRows w (rows db);
  Create_ok rs db db' : Create rs db = (db', None) -> rows db' = rows db ++ rs;
}.

(** [Find] does not report a missing row: it gives none. *)
Class GormFinds (DB R : Type) `{Gorm DB R} : Prop :=
  Find_not_missing w db e : Find w db = Err e -> Is e ErrRecordNotFound = false.

(** A statement on one table leaves another as it is. *)
Class GormFrame (DB R R' : Type) `{Gorm DB R} `{Gorm DB R'} : Prop := {
  Update_frame w f db : rows (R := R') (fst (Update (R := R) w f db)) = rows db;
  DeleteRows_frame w db : rows (R := R') (fst (DeleteRows (R := R) w db)) = rows db;
  Create_frame rs db : rows (R := R') (fst (Create (R := R) rs db)) = rows db;
}.

(** [db.Save(row)]: an UPDATE of every column of the row with that primary key.  The
    law is stated for a row that is in the table (gorm inserts a missing one). *)
Class GormSave (DB R : Type) : Type := Save : R -> DB -> DB * option error.
Class GormSaveLaws (DB R : Type) `{Gorm DB R} `{GormSave DB R} (key : R -> Z) : Prop :=
  Save_ok r db db' :
    Save r db = (db', None) -> (exists x, In x (rows db) /\ key x = key r) ->
    rows db' = updateRows (fun x => Z.eqb (key x) (key r)) (fun _ => r) (rows db).

(** [db.Unscoped()]: soft-deleted rows are seen too. *)
Class GormUnscoped (DB R : Type) : Type := {
  allRows : DB -> list R;
  FindAll : (R -> bool) -> DB -> result error (list R);
}.
Class GormUnscopedLaws (DB R : Type) `{Gorm DB R} `{GormUnscoped DB R} : Prop := {
  FindAll_ok w db l : FindAll w db = Ok l -> l = List.filter w (allRows db);
  FindAll_err w db e : FindAll w db = Err e -> Is e ErrRecordNotFound = false;
  Create_all rs db db' : Create rs db = (db', None) -> allRows db' = allRows db ++ rs;
  Update_all w f db db' : Update w f db = (db', None) -> Forall2 (fun r r' => r' = r \/ r' = f r) (allRows db) (allRows db');
}.

(** A statement on one table leaves another, with its soft-deleted rows, as it is. *)
Class GormFrameAll (DB R R' : Type) `{Gorm DB R} `{GormUnscoped DB R'} : Prop := {
  Update_frame_all w f db : allRows (R := R') (fst (Update (R := R) w f db)) = allRows db;
  DeleteRows_frame_all w db : allRows (R := R') (fst (DeleteRows (R := R) w db)) = allRows db;
  Create_frame_all rs db : allRows (R := R') (fst (Create (R := R) rs db)) = allRows db;
}.

(** [db.Unscoped().Delete]: the rows go for good. *)
Class GormHard (DB R : Type) : Type := DeleteAll : (R -> bool) -> DB -> DB * option error.
Class GormHardLaws (DB R : Type) `{Gorm DB R} `{GormUnscoped DB R} `{GormHard DB R} : Prop :=
  DeleteAll_ok w db db' :
    DeleteAll w db = (db', None) -> allRows db' = keepRows w (allRows db) /\ rows db' = keepRows w (rows db).
Class GormHardFrame (DB R R' : Type) `{GormHard DB R} `{GormUnscoped DB R'} : Prop :=
  DeleteAll_frame_all w db : allRows (R := R') (fst (DeleteAll (R := R) w db)) = allRows db.

Section Statements.

Context {DB R : Type} `{Gorm DB R}.

(** [First]: the first row, or [gorm.ErrRecordNotFound]. *)
Definition First (w : R -> bool) (db : DB) : result error R :=
  match Find w db with
  | Ok (r :: _) => Ok r
  | Ok [] => Err (ESentinel ErrRecordNotFound)
  | Err e => Err e
  end.

Definition FirstAll `{GormUnscoped DB R} (w : R -> bool) (db : DB) : result error R :=
  match FindAll w db with
  | Ok (r :: _) => Ok r
  | Ok [] => Err (ESentinel ErrRecordNotFound)
  | Err e => Err e
  end.

(** [Limit(n)] before [Find]. *)
Definition FindLimit (n : nat) (w : R -> bool) (db : DB) : result error (list R) :=
  match Find w db with
  | Ok l => Ok (take n l)
  | Err e => Err e
  end.

(** [Pluck] of one column. *)
Definition Pluck {A : Type} (col : R -> A) (w : R -> bool) (db : DB) : result error (list A) :=
  match Find w db with
  | Ok l => Ok (map col l)
  | Err e => Err e
  end.

Lemma First_ok `{!GormLaws DB R} (w : R -> bool) (db : DB) (r : R) :
  First w db = Ok r -> In r (rows db) /\ w r = true.
Proof.
  unfold First. destruct (Find w db) as [l|] eqn:E; [|done]. apply Find_ok in E. subst l.
  destruct (List.filter w (rows db)) as [|x l] eqn:El; [done|]. intros [= ->].
  apply List.filter_In. rewrite El. by left.
Qed.

Lemma First_none `{!GormLaws DB R} `{!GormFinds DB R} (w : R -> bool) (db : DB) (e : error) :
  First w db = Err e -> Is e ErrRecordNotFound = true -> forall r, In r (rows db) -> w r = false.
Proof.
  unfold First. destruct (Find w db) as [l|e'] eqn:E; [|intros [= ->] He; apply Find_not_missing in E; congruence].
  apply Find_ok in E. subst l. destruct (List.filter w (rows db)) as [|x l] eqn:El; [|done]. intros _ _ r Hr.
  destruct (w r) eqn:Ew; [|done]. assert (In r []) as [] by (rewrite <- El; by apply List.filter_In).
Qed.

Lemma Pluck_ok `{!GormLaws DB R} {A : Type} (col : R -> A) (w : R -> bool) (db : DB) (l : list A) :
  Pluck col w db = Ok l -> l = map col (List.filter w (rows db)).
Proof. unfold Pluck. destruct (Find w db) eqn:E; [|done]. apply Find_ok in E. by intros [= <-]; subst. Qed.

End Statements.

(** [db.Transaction(f)]: an error rolls everything back. *)
Definition Transaction {DB : Type} (f : DB -> DB * option error) (db : DB) : DB * option error :=
  match f db with
  | (db', None) => (db', None)
  | (_, Some e) => (db, Some e)
  end.

(** Statements in sequence, stopping at the first error. *)
Definition thenDo {DB : Type} (m : DB * option error) (k : DB -> DB * option error) : DB * option error :=
  match m with
  | (db, None) => k db
  | r => r
  end.

Lemma thenDo_ok {DB : Type} (m : DB * option error) (k : DB -> DB * option error) (db' : DB) :
  thenDo m k = (db', None) -> exists db1, m = (db1, None) /\ k db1 = (db', None).
Proof. destruct m as [db1 [e|]]; cbn; [done|]. eauto. Qed.

(** A loop of statements that returns at the first error. *)
Fixpoint forEach {DB A : Type} (f : A -> DB -> DB * option error) (l : list A) (db : DB) : DB * option error :=
  match l with
  | [] => (db, None)
  | x :: l' => thenDo (f x db) (forEach f l')
  end.

Lemma forEach_ind {DB A : Type} (f : A -> DB -> DB * option error) (P : list A -> DB -> Prop) (l : list A) (db db' : DB) :
  (forall done x db db', P done db -> f x db = (db', None) -> P (done ++ [x]) db') ->
  P [] db -> forEach f l db = (db', None) -> P l db'.
Proof.
  intros Hstep. assert (forall done db, P done db -> forEach f l db = (db', None) -> P (done ++ l) db') as Hgen;
    [|intros; by apply (Hgen [] db)].
  induction l as [|x l IH]; intros done db0 Hd; cbn; [rewrite app_nil_r; by intros [= <-]|].
  intros (db1 & Hx & Hl)%thenDo_ok. replace (done ++ x :: l) with ((done ++ [x]) ++ l) by (by rewrite <- app_assoc).
  apply (IH _ db1); [by eapply Hstep|done].
Qed.

(** A transaction is all or nothing. *)
Lemma Transaction_atomic {DB : Type} (f : DB -> DB * option error) (db : DB) :
  (exists db', f db = (db', None) /\ Transaction f db = (db', None))
  \/ (exists e, snd (f db) = Some e /\ Transaction f db = (db, Some e)).
Proof. unfold Transaction. destruct (f db) as [db' [e|]]; eauto. Qed.

(** ** One table as a list; it never fails *)

Definition tableGorm {DB R : Type} (get : DB -> list R) (set : list R -> DB -> DB) : Gorm DB R := {|
  rows := get;
  Find w db := Ok (List.filter w (get db));
  Update w f db := (set (updateRows w f (get db)) db, None);
  DeleteRows w db := (set (keepRows w (get db)) db, None);
  Create rs db := (set (get db ++ rs) db, None);
|}.

Lemma tableGorm_laws {DB R : Type} (get : DB -> list R) (set : list R -> DB -> DB) :
  (forall l db, get (set l db) = l) -> @GormLaws DB R (tableGorm get set).
Proof.
  intros Hgs. split; cbn.
  - by intros w db l [= <-].
  - intros w f db db' [= <-]. apply Hgs.
  - intros w db db' [= <-]. apply Hgs.
  - intros rs db db' [= <-]. apply Hgs.
Qed.

Lemma tableGorm_frame {DB R R' : Type} (get : DB -> list R) (set : list R -> DB -> DB)
    (get' : DB -> list R') (set' : list R' -> DB -> DB) :
  (forall l db, get' (set l db) = get' db) ->
  @GormFrame DB R R' (tableGorm get set) (tableGorm get' set').
Proof. intros Hf. split; intros; cbn; apply Hf. Qed.

Definition tableSave {DB R : Type} (get : DB -> list R) (set : list R -> DB -> DB) (key : R -> Z) : GormSave DB R :=
  fun r db => (set (updateRows (fun x => Z.eqb (key x) (key r)) (fun _ => r) (get db)) db, None).

Lemma tableSave_laws {DB R : Type} (get : DB -> list R) (set : list R -> DB -> DB) (key : R -> Z) :
  (forall l db, get (set l db) = l) -> @GormSaveLaws DB R (tableGorm get set) (tableSave get set key) key.
Proof. intros Hgs r db db' [= <-] _. apply Hgs. Qed.

Definition tableUnscoped {DB R : Type} (get : DB -> list R) : GormUnscoped DB R := {|
  allRows := get; FindAll w db := Ok (List.filter w (get db));
|}.
Lemma tableUnscoped_laws {DB R : Type} (get : DB -> list R) (set : list R -> DB -> DB) :
  (forall l db, get (set l db) = l) -> @GormUnscopedLaws DB R (tableGorm get set) (tableUnscoped get).
Proof.
  intros Hgs. split; cbn; [by intros w db l [= <-]|done|intros rs db db' [= <-]; apply Hgs|].
  intros w f db db' [= <-]. rewrite Hgs. unfold updateRows. induction (get db) as [|r l IH]; cbn; constructor; [|done].
  destruct (w r); auto.
Qed.
Lemma tableGorm_frame_all {DB R R' : Type} (get : DB -> list R) (set : list R -> DB -> DB) (get' : DB -> list R') :
  (forall l db, get' (set l db) = get' db) -> @GormFrameAll DB R R' (tableGorm get set) (tableUnscoped get').
Proof. intros Hf. split; intros; cbn; apply Hf. Qed.

Definition tableHard {DB R : Type} (get : DB -> list R) (set : list R -> DB -> DB) : GormHard DB R :=
  fun w db => (set (keepRows w (get db)) db, None).
Lemma tableHard_laws {DB R : Type} (get : DB -> list R) (set : list R -> DB -> DB) :
  (forall l db, get (set l db) = l) -> @GormHardLaws DB R (tableGorm get set) (tableUnscoped get) (tableHard get set).
Proof. intros Hgs w db db' [= <-]. cbn. by rewrite Hgs. Qed.
Lemma tableHard_frame {DB R R' : Type} (get : DB -> list R) (set : list R -> DB -> DB) (get' : DB -> list R') :
  (forall l db, get' (set l db) = get' db) -> @GormHardFrame DB R R' (tableHard get set) (tableUnscoped get').
Proof. intros Hf w db. cbn. apply Hf. Qed.
