(* ===== verification/UserModel.v ===== *)
(** [admin/models/model.go], [user.go]: the base of every model, users, login log
    rows, the password policy and the hooks that keep plaintext out of the
    database.  bcrypt and SHA-256 are parameters. *)

From Stdlib Require Import ZArith Lia String Ascii List Bool.
From stdpp Require Import base tactics list gmap strings.
From S2P Require Import Prelude GoStrings Errs.

Local Open Scope string_scope.
Local Open Scope list_scope.
Local Open Scope aeus_scope.

Definition DefaultTenantID : string := "00000000-0000-0000-0000-000000000000".

Record BaseModel : Type := mkBase { bID : Z; CreatedAt : Z; UpdatedAt : Z; DeletedAt : option Z }.
Record TenantModel : Type := mkTenantModel { tmBase : BaseModel; tmTenantID : string }.

Definition ApplyDefaultTenant (m : TenantModel) : TenantModel :=
  if String.eqb (tmTenantID m) EmptyString then mkTenantModel (tmBase m) DefaultTenantID else m.

Record User : Type := mkUser {
  uTenant : TenantModel;
  uUID : string;
  uUsername : string;
  uRoleKey : string;
  uStatus : string;
  uDeptID : Z;
  uPassword : string;
  uEmail : string;
  uAvatar : string;
  uGender : string;
  uDescription : string;
}.

Definition uTenantID (u : User) : string := tmTenantID (uTenant u).

Definition withPassword (p : string) (u : User) : User :=
  mkUser (uTenant u) (uUID u) (uUsername u) (uRoleKey u) (uStatus u) (uDeptID u) p (uEmail u) (uAvatar u)
    (uGender u) (uDescription u).
Definition withTenantModel (t : TenantModel) (u : User) : User :=
  mkUser t (uUID u) (uUsername u) (uRoleKey u) (uStatus u) (uDeptID u) (uPassword u) (uEmail u) (uAvatar u)
    (uGender u) (uDescription u).

Record LoginLog : Type := mkLoginLog {
  lTenant : TenantModel;
  lUID : string;
  lIP : string;
  lBrowser : string;
  lOS : string;
  lPlatform : string;
  lAccessToken : string;
  lUserAgent : string;
}.

(** ** The password policy *)

Definition is_letter (a : ascii) : bool := is_lower a || is_upper a.

(** The loop over the runes: a byte of a non-ASCII rune is no letter and no digit,
    so the bytes decide the same. *)
Fixpoint policyLoop (s : string) (hasLetter hasDigit : bool) : option (bool * bool) :=
  match s with
  | EmptyString => Some (hasLetter, hasDigit)
  | String a s' =>
      if is_letter a then policyLoop s' true hasDigit
      else if is_digit a then policyLoop s' hasLetter true
      else None
  end.

Definition CheckPasswordPolicy (pwd : string) : option error :=
  let n := String.length pwd in
  if (n <? 8)%nat || (32 <? n)%nat then Some (Newf CodeInvalid "password must be 8-32 characters")
  else match policyLoop pwd false false with
       | None => Some (Newf CodeInvalid "password may only contain letters and digits")
       | Some (hasLetter, hasDigit) =>
           if negb hasLetter || negb hasDigit
           then Some (Newf CodeInvalid "password must contain both letters and digits")
           else None
       end.

Definition hashedPrefix : string := "$2".

Definition checkPlaintextPasswordPolicy (m : User) : option error :=
  if String.eqb (uPassword m) EmptyString || HasPrefix (uPassword m) hashedPrefix then None
  else CheckPasswordPolicy (uPassword m).

Section Hooks.

(** [bcrypt.GenerateFromPassword] at the default cost, with the salt it draws;
    [bcrypt.CompareHashAndPassword]; the hex digest of SHA-256. *)
Context {Salt : Type}.
Variable GenerateFromPassword : Salt -> string -> result error string.
Variable CompareHashAndPassword : string -> string -> option error.
Variable sha256hex : string -> string.

Definition hashPassword (salt : Salt) (pwd : string) : result error string :=
  if String.eqb pwd EmptyString || HasPrefix pwd hashedPrefix then Ok pwd
  else GenerateFromPassword salt pwd.

Definition hashToken (token : string) : string :=
  if String.eqb token EmptyString then EmptyString else sha256hex token.

Definition policyThenHash (salt : Salt) (m : User) : result error User :=
  match checkPlaintextPasswordPolicy m with
  | Some e => Err e
  | None => let! hashed := hashPassword salt (uPassword m) in Ok (withPassword hashed m)
  end.

Definition BeforeCreate (salt : Salt) (m : User) : result error User :=
  policyThenHash salt (withTenantModel (ApplyDefaultTenant (uTenant m)) m).

Definition BeforeUpdate (salt : Salt) (m : User) : result error User := policyThenHash salt m.

Definition ValidatePassword (m : User) (pwd : string) : bool :=
  if String.eqb (uPassword m) EmptyString || String.eqb pwd EmptyString then false
  else match CompareHashAndPassword (uPassword m) pwd with None => true | Some _ => false end.

Definition LoginLogBeforeCreate (m : LoginLog) : LoginLog :=
  mkLoginLog (lTenant m) (lUID m) (lIP m) (lBrowser m) (lOS m) (lPlatform m) (hashToken (lAccessToken m)) (lUserAgent m).

(** ** The policy *)

Definition all_alnum (s : string) : Prop :=
  Forall (fun a => is_letter a = true \/ is_digit a = true) (list_ascii_of_string s).
Definition has (p : ascii -> bool) (s : string) : Prop := Exists (fun a => p a = true) (list_ascii_of_string s).

Lemma letter_not_digit (a : ascii) : is_letter a = true -> is_digit a = false.
Proof. destruct a as [[] [] [] [] [] [] [] []]; vm_compute; congruence. Qed.

Lemma policyLoop_spec (s : string) (l d l' d' : bool) :
  policyLoop s l d = Some (l', d') <->
  all_alnum s /\ l' = l || existsb is_letter (list_ascii_of_string s)
  /\ d' = d || existsb is_digit (list_ascii_of_string s).
Proof.
  revert l d. induction s as [|a s IH]; intros l d; cbn [policyLoop list_ascii_of_string existsb].
  - rewrite !orb_false_r. split; [|by intros (_ & -> & ->)]. intros [= -> ->]. by repeat constructor.
  - destruct (is_letter a) eqn:El.
    + rewrite IH, (letter_not_digit a El). cbn [orb]. rewrite !orb_true_r. cbn. split.
      * intros (Ha & Hl & Hd). split; [constructor; auto|done].
      * intros (Ha & Hl & Hd). split; [by inversion Ha|done].
    + destruct (is_digit a) eqn:Ed.
      * rewrite IH. cbn [orb]. rewrite !orb_true_r. cbn. split.
        -- intros (Ha & Hl & Hd). split; [constructor; auto|done].
        -- intros (Ha & Hl & Hd). split; [by inversion Ha|done].
      * split; [done|]. intros (Ha & _). inversion Ha as [|? ? [|]]; congruence.
Qed.

Lemma existsb_has (p : ascii -> bool) (s : string) : existsb p (list_ascii_of_string s) = true <-> has p s.
Proof. unfold has. rewrite existsb_exists, Exists_exists. setoid_rewrite <- list_elem_of_In. done. Qed.

(** The policy is exactly: 8 to 32 bytes, all letters and digits, one of each. *)
Lemma CheckPasswordPolicy_spec (pwd : string) :
  CheckPasswordPolicy pwd = None <->
  (8 <= String.length pwd <= 32)%nat /\ all_alnum pwd /\ has is_letter pwd /\ has is_digit pwd.
Proof.
  unfold CheckPasswordPolicy.
  destruct (Nat.ltb_spec (String.length pwd) 8); cbn [orb]; [split; [done|lia]|].
  destruct (Nat.ltb_spec 32 (String.length pwd)); [split; [done|lia]|].
  rewrite <- !existsb_has. destruct (policyLoop pwd false false) as [[l d]|] eqn:E.
  - apply policyLoop_spec in E as (Ha & -> & ->). cbn [orb].
    destruct (existsb is_letter _), (existsb is_digit _); cbn; naive_solver lia.
  - split; [done|]. intros (_ & Ha & Hl & Hd).
    assert (policyLoop pwd false false = Some (true, true)) as E'; [|congruence].
    apply policyLoop_spec. rewrite Hl, Hd. done.
Qed.

Lemma CheckPasswordPolicy_code (pwd : string) (e : error) :
  CheckPasswordPolicy pwd = Some e -> IsCode e CodeInvalid = true.
Proof. unfold CheckPasswordPolicy. repeat case_match; intros; simplify_eq; reflexivity. Qed.

(** ** The life of a password *)

Hypothesis bcrypt_form : forall salt pwd h, GenerateFromPassword salt pwd = Ok h -> HasPrefix h hashedPrefix = true.
Hypothesis bcrypt_accepts : forall salt pwd h, GenerateFromPassword salt pwd = Ok h -> CompareHashAndPassword h pwd = None.

Lemma policyThenHash_id (salt : Salt) (m : User) :
  uPassword m = EmptyString \/ HasPrefix (uPassword m) hashedPrefix = true -> policyThenHash salt m = Ok m.
Proof.
  intros Hp. unfold policyThenHash, checkPlaintextPasswordPolicy, hashPassword.
  assert (String.eqb (uPassword m) EmptyString || HasPrefix (uPassword m) hashedPrefix = true) as ->.
  { destruct Hp as [->| ->]; [done|]. apply orb_true_r. }
  cbn [rbind]. by destruct m.
Qed.

(** The life of a password, from the create hook on: what is stored is empty
    or a bcrypt hash, never the plaintext; every later update hook leaves it as it
    is, whatever salt it would draw; and a non-empty plaintext that was stored
    satisfied the policy and is the one the login check accepts. *)
Theorem password_lifecycle (salt : Salt) (m m' : User) :
  BeforeCreate salt m = Ok m' ->
  (uPassword m' = EmptyString \/ HasPrefix (uPassword m') hashedPrefix = true)
  /\ (forall salt', BeforeUpdate salt' m' = Ok m')
  /\ uTenantID m' <> EmptyString
  /\ (uPassword m <> EmptyString -> HasPrefix (uPassword m) hashedPrefix = false ->
      CheckPasswordPolicy (uPassword m) = None /\ ValidatePassword m' (uPassword m) = true
      /\ uPassword m' <> uPassword m).
Proof.
  unfold BeforeCreate. set (m1 := withTenantModel _ m). intros Hc.
  assert (uPassword m1 = uPassword m /\ uTenantID m1 <> EmptyString) as [Hp Ht].
  { split; [done|]. unfold m1, uTenantID, withTenantModel, ApplyDefaultTenant. cbn [uTenant].
    by destruct (String.eqb_spec (tmTenantID (uTenant m)) EmptyString). }
  unfold policyThenHash, checkPlaintextPasswordPolicy, hashPassword in Hc. rewrite Hp in Hc.
  destruct (String.eqb_spec (uPassword m) EmptyString) as [He|He]; cbn [orb] in Hc.
  { injection Hc as <-. rewrite He. split; [by left|]. split; [|done].
    intros salt'. apply policyThenHash_id. by left. }
  destruct (HasPrefix (uPassword m) hashedPrefix) eqn:Epre.
  { injection Hc as <-. split; [by right|]. split; [|done]. intros salt'. apply policyThenHash_id. by right. }
  destruct (CheckPasswordPolicy (uPassword m)) as [e|] eqn:Epol; [done|].
  destruct (GenerateFromPassword salt (uPassword m)) as [h|e] eqn:Eg; [|done]. injection Hc as <-.
  pose proof (bcrypt_form _ _ _ Eg) as Hh. cbn [withPassword uPassword].
  split; [by right|]. split; [intros salt'; apply policyThenHash_id; by right|]. split; [done|].
  intros _ _. split; [done|]. split; [|congruence].
  unfold ValidatePassword. cbn [withPassword uPassword]. rewrite (bcrypt_accepts _ _ _ Eg).
  destruct (String.eqb_spec h EmptyString) as [->|]; [discriminate|].
  by destruct (String.eqb_spec (uPassword m) EmptyString).
Qed.

End Hooks.

(** A hash function of the bcrypt shape. *)
Definition demoHash (salt pwd : string) : result error string := Ok ("$2" +:+ pwd).
Definition demoCompare (h pwd : string) : option error :=
  if String.eqb h ("$2" +:+ pwd) then None else Some (EPlain "mismatch").
Definition alice (pwd : string) : User :=
  mkUser (mkTenantModel (mkBase 1 0 0 None) EmptyString) "alice1" "alice" "editor" "normal" 1 pwd "" "" "" "".

Lemma password_lifecycle_witness :
  exists m', BeforeCreate demoHash "s" (alice "secret99") = Ok m'
  /\ CheckPasswordPolicy "secret99" = None /\ ValidatePassword demoCompare m' "secret99" = true
  /\ uPassword m' <> "secret99".
Proof.
  exists (withPassword "$2secret99" (withTenantModel (mkTenantModel (mkBase 1 0 0 None) DefaultTenantID) (alice "secret99"))).
  split; [reflexivity|].
  destruct (password_lifecycle demoHash demoCompare
    (fun salt pwd h Hh => match Hh in _ = y return match y with Ok h' => HasPrefix h' hashedPrefix = true | Err _ => True end with eq_refl => eq_refl end)
    (fun salt pwd h (Hh : demoHash salt pwd = Ok h) =>
       ltac:(unfold demoHash in Hh; injection Hh as <-; unfold demoCompare; rewrite String.eqb_refl; reflexivity))
    "s" (alice "secret99")
    (withPassword "$2secret99" (withTenantModel (mkTenantModel (mkBase 1 0 0 None) DefaultTenantID) (alice "secret99"))))
    as (_ & _ & _ & Hlast).
  - reflexivity.
  - apply Hlast; [discriminate|reflexivity].
Defined.
