(* ===== verification/RoleModel.v ===== *)
(** [admin/models/role.go], [role_permission.go], [permission.go],
    [permissions.go]: roles, the grants that join a role to menus and permissions,
    and the cascades that keep grants and users in step with a role's key. *)

From Stdlib Require Import ZArith Lia String List Bool.
From stdpp Require Import base tactics list strings.
From S2P Require Import Prelude GoStrings Errs Gorm UserModel.

Local Open Scope string_scope.
Local Open Scope list_scope.
Local Open Scope aeus_scope.

Record Role : Type := mkRole {
  rTenant : TenantModel;
  rKey : string;
  rName : string;
  rStatus : string;
  rBuiltin : bool;
  rIsSuper : bool;
  rDataScope : string;
  rSort : Z;
  rCreatedBy : string;
  rDescription : string;
}.

Record RolePermission : Type := mkRP {
  rpTenant : TenantModel;
  rpRoleKey : string;
  rpType : string;
  rpData : string;
}.

Record Permission : Type := mkPermission {
  pBase : BaseModel;
  pGroup : string;
  pType : string;
  pData : string;
  pDescription : string;
}.

Definition rTenantID (r : Role) : string := tmTenantID (rTenant r).
Definition rpTenantID (r : RolePermission) : string := tmTenantID (rpTenant r).

Definition RolePermissionTypeMenu : string := "menu".
Definition RolePermissionTypePermission : string := "permission".

Definition PermissionTypeUnspec : string := EmptyString.
Definition PermissionTypeAPI : string := "api".
Definition PermissionTypeButton : string := "button".
Definition PermissionTypeData : string := "data_scope".

(** The create hooks. *)
Definition RoleBeforeCreate (m : Role) : Role :=
  mkRole (ApplyDefaultTenant (rTenant m)) (rKey m) (rName m) (rStatus m) (rBuiltin m) (rIsSuper m) (rDataScope m)
    (rSort m) (rCreatedBy m) (rDescription m).
Definition RPBeforeCreate (m : RolePermission) : RolePermission :=
  mkRP (ApplyDefaultTenant (rpTenant m)) (rpRoleKey m) (rpType m) (rpData m).

Definition strIn (s : string) (l : list string) : bool := existsb (String.eqb s) l.

Lemma strIn_spec (s : string) (l : list string) : strIn s l = true <-> In s l.
Proof.
  unfold strIn. rewrite existsb_exists. split.
  - intros (x & Hx & ->%String.eqb_eq). done.
  - intros Hs. exists s. by rewrite String.eqb_refl.
Qed.

(** [SELECT DISTINCT] of a column. *)
Definition distinct (l : list string) : list string := nodup string_dec l.

Definition emptyBase : BaseModel := mkBase 0 0 0 None.
Definition newRP (tenantID roleKey type data : string) : RolePermission :=
  mkRP (mkTenantModel emptyBase tenantID) roleKey type data.

Definition setRoleKey (k : string) (r : RolePermission) : RolePermission := mkRP (rpTenant r) k (rpType r) (rpData r).
Definition setUserRole (k : string) (u : User) : User :=
  mkUser (uTenant u) (uUID u) (uUsername u) k (uStatus u) (uDeptID u) (uPassword u) (uEmail u) (uAvatar u)
    (uGender u) (uDescription u).

Section Roles.

Context {DB : Type} `{Gorm DB Role} `{Gorm DB RolePermission} `{Gorm DB User} `{Gorm DB Permission}.

(** The grants and the users that carry a role key of a tenant. *)
Definition rpOf (roleKey tenantID : string) (r : RolePermission) : bool :=
  String.eqb (rpRoleKey r) roleKey && String.eqb (rpTenantID r) tenantID.
Definition userOf (roleKey tenantID : string) (u : User) : bool :=
  String.eqb (uRoleKey u) roleKey && String.eqb (uTenantID u) tenantID.

(** ** role_permission.go, permission.go: queries *)

Definition MenuPermissionDatas (roleKey : string) (db : DB) : result error (list string) :=
  let! l := Pluck rpData (fun r => String.eqb (rpRoleKey r) roleKey && String.eqb (rpType r) RolePermissionTypeMenu) db in
  Ok (distinct l).

Definition APIPermissionDatas (roleKey : string) (db : DB) : result error (list string) :=
  let! l := Pluck rpData (fun r => String.eqb (rpRoleKey r) roleKey && String.eqb (rpType r) RolePermissionTypePermission) db in
  Ok (distinct l).

Definition ListByType (t : string) (db : DB) : result error (list string) :=
  let! l := Pluck pData (fun p => String.eqb t PermissionTypeUnspec || String.eqb (pType p) t) db in
  Ok (distinct l).

Definition missingDataValues {R : Type} `{Gorm DB R} (column : R -> string) (values : list string) (tx : DB) :
    result error (list string) :=
  match values with
  | [] => Ok []
  | _ => let! existing := Pluck column (fun r => strIn (column r) values) tx in
         Ok (List.filter (fun n => negb (strIn n existing)) values)
  end.

Definition ValidatePermissionData (datas : list string) (tx : DB) : result error (list string) :=
  missingDataValues pData datas tx.

(** ** role.go *)

Definition ReplacePermissions (roleKey : string) (menus perms tenantIDs : list string) (tx : DB) : DB * option error :=
  let tenantID := match tenantIDs with t :: _ => t | [] => EmptyString end in
  thenDo (DeleteRows (fun r => String.eqb (rpRoleKey r) roleKey) tx) (fun tx =>
    if (length menus + length perms =? 0)%nat then (tx, None)
    else
      let rows := map (newRP tenantID roleKey RolePermissionTypeMenu) menus
                  ++ map (newRP tenantID roleKey RolePermissionTypePermission) perms in
      Create (map RPBeforeCreate rows) tx).

(** What the role already holds of a type. *)
Definition held (type : string) (existing : list RolePermission) : list string :=
  map rpData (List.filter (fun r => String.eqb (rpType r) type) existing).

Definition missingRows (roleKey tenantID type : string) (existing : list RolePermission) (datas : list string) :
    list RolePermission :=
  map (newRP tenantID roleKey type) (List.filter (fun d => negb (strIn d (held type existing))) datas).

Definition GrantMissingPermissions (roleKey tenantID : string) (menus perms : list string) (tx : DB) :
    DB * option error :=
  match menus, perms with
  | [], [] => (tx, None)
  | _, _ =>
      match Find (rpOf roleKey tenantID) tx with
      | Err e => (tx, Some e)
      | Ok existing =>
          match missingRows roleKey tenantID RolePermissionTypeMenu existing menus
                ++ missingRows roleKey tenantID RolePermissionTypePermission existing perms with
          | [] => (tx, None)
          | rows => Create (map RPBeforeCreate rows) tx
          end
      end
  end.

Definition purgeRolePermissions (scope : RolePermission -> bool) (tx : DB) : DB * option error :=
  DeleteRows scope tx.

(** The key a column update carries in its map of values. *)
Definition destKey (dest : option (list (string * string))) : string :=
  match dest with
  | None => EmptyString
  | Some m =>
      let get k := List.find (fun e => String.eqb (fst e) k) m in
      match get "`key`" with
      | Some (_, v) => v
      | None => match get "key" with Some (_, v) => v | None => EmptyString end
      end
  end.

(** [Statement.Changed] of the two columns and the map of a column update are what
    the hook reads of the statement. *)
Definition RoleBeforeUpdate (m : Role) (keyChanged deletedChanged : bool) (dest : option (list (string * string)))
    (tx : DB) : DB * option error :=
  let newKey := destKey dest in
  let keyChanged := keyChanged || negb (String.eqb newKey EmptyString) in
  if negb keyChanged && negb deletedChanged then (tx, None)
  else
    match First (fun r : Role => Z.eqb (bID (tmBase (rTenant r))) (bID (tmBase (rTenant m)))) tx with
    | Err e => (tx, Some e)
    | Ok old =>
        if String.eqb (rTenantID old) EmptyString then (tx, None)
        else
          thenDo
            (if keyChanged then
               let newKey := if String.eqb newKey EmptyString then rKey m else newKey in
               if negb (String.eqb newKey EmptyString) && negb (String.eqb newKey (rKey old)) then
                 thenDo (Update (rpOf (rKey old) (rTenantID old)) (setRoleKey newKey) tx) (fun tx =>
                   Update (userOf (rKey old) (rTenantID old)) (setUserRole newKey) tx)
               else (tx, None)
             else (tx, None))
            (fun tx =>
               if deletedChanged then
                 thenDo (DeleteRows (rpOf (rKey old) (rTenantID old)) tx) (fun tx =>
                   Update (userOf (rKey old) (rTenantID old)) (setUserRole EmptyString) tx)
               else (tx, None))
    end.

Definition RoleAfterDelete (m : Role) (tx : DB) : DB * option error :=
  if String.eqb (rTenantID m) EmptyString then (tx, None)
  else thenDo (Update (userOf (rKey m) (rTenantID m)) (setUserRole EmptyString) tx) (fun tx =>
         purgeRolePermissions (rpOf (rKey m) (rTenantID m)) tx).

(** ** Lemmas *)

Context `{!GormLaws DB Role} `{!GormLaws DB RolePermission} `{!GormLaws DB User}.
Context `{!GormFrame DB RolePermission User} `{!GormFrame DB User RolePermission}.

Lemma missingDataValues_spec {R : Type} `{GormLaws DB R} (column : R -> string) (values missing : list string) (tx : DB) :
  missingDataValues column values tx = Ok missing ->
  forall v, In v missing <-> In v values /\ ~ exists r, In r (rows tx) /\ column r = v.
Proof.
  unfold missingDataValues. destruct values as [|v0 vs]; [intros [= <-]; naive_solver|].
  generalize (v0 :: vs). clear v0 vs. intros values Hm v. apply rbind_Ok in Hm as (existing & He & Hok).
  apply Pluck_ok in He as ->. injection Hok as <-. rewrite List.filter_In, negb_true_iff, <- not_true_iff_false, strIn_spec, in_map_iff.
  setoid_rewrite List.filter_In. setoid_rewrite strIn_spec. naive_solver.
Qed.

Lemma keepRows_none {R : Type} (w : R -> bool) (l : list R) : List.filter w (keepRows w l) = [].
Proof. unfold keepRows. induction l as [|x l IH]; cbn; [done|]. destruct (w x) eqn:E; cbn; [done|by rewrite E]. Qed.

Lemma updateRows_none {R : Type} (w : R -> bool) (f : R -> R) (l : list R) :
  (forall r, w (f r) = false) -> List.filter w (updateRows w f l) = [].
Proof.
  intros Hf. unfold updateRows. induction l as [|x l IH]; cbn; [done|].
  destruct (w x) eqn:E; [by rewrite Hf|by rewrite E].
Qed.

Lemma updateRows_others {R : Type} (w v : R -> bool) (f : R -> R) (l : list R) :
  (forall r, w r = true -> v r = false /\ v (f r) = false) ->
  List.filter v (updateRows w f l) = List.filter v l.
Proof.
  intros Hv. unfold updateRows. induction l as [|x l IH]; cbn; [done|].
  destruct (w x) eqn:E; [destruct (Hv x E) as [-> ->]; done|]. destruct (v x); by rewrite IH.
Qed.

(** A role's grants are replaced as a whole: when [ReplacePermissions]
    succeeds, the live grants of the role key are exactly one row per menu and per
    permission, in the given tenant (the default tenant when none is given), and
    every grant of another role key is as it was. *)
Lemma ReplacePermissions_spec (roleKey : string) (menus perms tenantIDs : list string) (tx tx' : DB) :
  ReplacePermissions roleKey menus perms tenantIDs tx = (tx', None) ->
  let tenant := match tenantIDs with
                | t :: _ => if String.eqb t EmptyString then DefaultTenantID else t
                | [] => DefaultTenantID
                end in
  List.filter (fun r => String.eqb (rpRoleKey r) roleKey) (rows tx')
  = map (newRP tenant roleKey RolePermissionTypeMenu) menus
    ++ map (newRP tenant roleKey RolePermissionTypePermission) perms
  /\ List.filter (fun r => negb (String.eqb (rpRoleKey r) roleKey)) (rows tx')
     = List.filter (fun r => negb (String.eqb (rpRoleKey r) roleKey)) (rows tx).
Proof.
  intros Hr tenant. unfold ReplacePermissions in Hr. apply thenDo_ok in Hr as (tx1 & Hd & Hr).
  apply DeleteRows_ok in Hd.
  set (mine := fun r : RolePermission => String.eqb (rpRoleKey r) roleKey) in *.
  assert (forall type l, map RPBeforeCreate (map (newRP (match tenantIDs with t :: _ => t | [] => EmptyString end) roleKey type) l)
          = map (newRP tenant roleKey type) l) as Hnew.
  { intros type l. rewrite map_map. apply map_ext. intros d. unfold RPBeforeCreate, newRP, ApplyDefaultTenant, tenant.
    cbn [rpTenant tmTenantID rpRoleKey rpType rpData tmBase].
    destruct tenantIDs as [|t ts]; [done|]. by destruct (String.eqb t EmptyString). }
  assert (forall type l, List.filter mine (map (newRP tenant roleKey type) l) = map (newRP tenant roleKey type) l
          /\ List.filter (fun r => negb (mine r)) (map (newRP tenant roleKey type) l) = []) as Hmine.
  { intros type l. assert (forall r, In r (map (newRP tenant roleKey type) l) -> mine r = true) as Hm.
    { intros r (d & <- & _)%in_map_iff. unfold mine. cbn. apply String.eqb_refl. }
    split; [by apply filter_all|]. apply filter_none. intros r Hr'. by rewrite Hm. }
  assert (rows tx' = keepRows mine (rows tx)
          ++ (map (newRP tenant roleKey RolePermissionTypeMenu) menus
              ++ map (newRP tenant roleKey RolePermissionTypePermission) perms)) as Hrows.
  { destruct (Nat.eqb_spec (length menus + length perms) 0) as [E|E].
    - injection Hr as <-. rewrite Hd. destruct menus, perms; cbn in E; try lia. by rewrite app_nil_r.
    - apply Create_ok in Hr. by rewrite Hr, Hd, map_app, !Hnew. }
  rewrite Hrows, !List.filter_app, keepRows_none, !(proj1 (Hmine _ _)), !(proj2 (Hmine _ _)), !app_nil_r.
  split; [done|]. by apply filter_twice.
Qed.

(** A held entry of the role in the tenant. *)
Definition holds (roleKey tenantID type data : string) (l : list RolePermission) : Prop :=
  exists r, In r l /\ rpOf roleKey tenantID r = true /\ rpType r = type /\ rpData r = data.

Lemma held_spec (roleKey tenantID type d : string) (l : list RolePermission) :
  In d (held type (List.filter (rpOf roleKey tenantID) l)) <-> holds roleKey tenantID type d l.
Proof.
  unfold held, holds. rewrite in_map_iff. setoid_rewrite List.filter_In. setoid_rewrite List.filter_In.
  setoid_rewrite String.eqb_eq. naive_solver.
Qed.

Lemma In_missingRows (roleKey tenantID type : string) (existing : list RolePermission) (datas : list string) r :
  In r (missingRows roleKey tenantID type existing datas)
  <-> exists d, In d datas /\ ~ In d (held type existing) /\ r = newRP tenantID roleKey type d.
Proof.
  unfold missingRows. rewrite in_map_iff. setoid_rewrite List.filter_In.
  setoid_rewrite negb_true_iff. setoid_rewrite <- not_true_iff_false. setoid_rewrite strIn_spec. naive_solver.
Qed.

Lemma RPBeforeCreate_id (r : RolePermission) : rpTenantID r <> EmptyString -> RPBeforeCreate r = r.
Proof.
  intros Ht. unfold RPBeforeCreate, ApplyDefaultTenant. fold (rpTenantID r).
  destruct (String.eqb_spec (rpTenantID r) EmptyString); [done|]. by destruct r.
Qed.

(** The converge pass only adds: when [GrantMissingPermissions] succeeds,
    every row that was there is still there, in place; what was added is a grant
    of this role and tenant that it did not hold; the role now holds every entry
    it was given; and running it again changes nothing. *)
Lemma GrantMissingPermissions_converges (roleKey tenantID : string) (menus perms : list string) (tx tx' : DB) :
  tenantID <> EmptyString ->
  GrantMissingPermissions roleKey tenantID menus perms tx = (tx', None) ->
  (exists added, rows tx' = rows tx ++ added
     /\ Forall (fun r => exists type d, r = newRP tenantID roleKey type d /\ ~ holds roleKey tenantID type d (rows tx)) added)
  /\ Forall (fun d => holds roleKey tenantID RolePermissionTypeMenu d (rows tx')) menus
  /\ Forall (fun d => holds roleKey tenantID RolePermissionTypePermission d (rows tx')) perms
  /\ (forall l, Find (rpOf roleKey tenantID) tx' = Ok l ->
      GrantMissingPermissions roleKey tenantID menus perms tx' = (tx', None)).
Proof.
  intros Hten Hg.
  assert (forall type d, rpOf roleKey tenantID (newRP tenantID roleKey type d) = true) as Hof.
  { intros type d. unfold rpOf, newRP, rpTenantID. cbn. by rewrite !String.eqb_refl. }
  set (fresh := fun existing => missingRows roleKey tenantID RolePermissionTypeMenu existing menus
                ++ missingRows roleKey tenantID RolePermissionTypePermission existing perms).
  assert (forall db l, Find (rpOf roleKey tenantID) db = Ok l ->
     GrantMissingPermissions roleKey tenantID menus perms db
     = match fresh l with [] => (db, None) | rows => Create (map RPBeforeCreate rows) db end) as Hunf.
  { intros db l Hl. unfold GrantMissingPermissions. rewrite Hl. by destruct menus, perms. }
  assert (exists added, rows tx' = rows tx ++ added
     /\ (forall r, In r added <-> In r (fresh (List.filter (rpOf roleKey tenantID) (rows tx))))) as (added & Hrows & Hadd).
  { destruct (Find (rpOf roleKey tenantID) tx) as [l|e] eqn:Ef.
    - rewrite (Hunf _ _ Ef) in Hg. apply Find_ok in Ef. subst l.
      set (new := fresh _) in *. assert (map RPBeforeCreate new = new) as Hid.
      { rewrite <- (map_id new) at 2. apply map_ext_in. intros r Hr. apply RPBeforeCreate_id.
        apply in_app_iff in Hr as [Hr|Hr]; apply In_missingRows in Hr as (d & _ & _ & ->); done. }
      exists new. split; [|done]. clearbody new.
      destruct new; [injection Hg as <-; by rewrite app_nil_r|]. rewrite Hid in Hg. by apply Create_ok in Hg.
    - unfold GrantMissingPermissions in Hg. rewrite Ef in Hg. destruct menus as [|m0 menus'], perms as [|p0 perms']; try done.
      injection Hg as <-. exists []. rewrite app_nil_r. split; [done|]. done. }
  assert (forall type datas, (type = RolePermissionTypeMenu /\ datas = menus
             \/ type = RolePermissionTypePermission /\ datas = perms) ->
          Forall (fun d => holds roleKey tenantID type d (rows tx')) datas) as Hall.
  { intros type datas Hcase. apply Forall_forall. intros d Hd. apply list_elem_of_In in Hd.
    destruct (strIn d (held type (List.filter (rpOf roleKey tenantID) (rows tx)))) eqn:E.
    - apply strIn_spec, held_spec in E as (r & Hr & Hrest). exists r. split; [|done].
      rewrite Hrows. apply in_app_iff. by left.
    - exists (newRP tenantID roleKey type d). split; [|by rewrite Hof].
      rewrite Hrows. apply in_app_iff. right. apply Hadd. unfold fresh. apply in_app_iff.
      apply not_true_iff_false in E. rewrite strIn_spec in E.
      destruct Hcase as [[-> ->]|[-> ->]]; [left|right]; apply In_missingRows; eauto. }
  split; [exists added; split; [done|]|split; [apply Hall; auto|split; [apply Hall; auto|]]].
  - apply Forall_forall. intros r Hr. apply list_elem_of_In, Hadd, in_app_iff in Hr.
    destruct Hr as [Hr|Hr]; apply In_missingRows in Hr as (d & _ & Hd & ->); do 2 eexists; (split; [done|]);
      by rewrite <- held_spec.
  - intros l Hl. rewrite (Hunf _ _ Hl). apply Find_ok in Hl. subst l.
    assert (fresh (List.filter (rpOf roleKey tenantID) (rows tx')) = []) as ->; [|done].
    unfold fresh. assert (forall type datas, (type = RolePermissionTypeMenu /\ datas = menus
             \/ type = RolePermissionTypePermission /\ datas = perms) ->
        missingRows roleKey tenantID type (List.filter (rpOf roleKey tenantID) (rows tx')) datas = []) as Hnone.
    { intros type datas Hcase. unfold missingRows. rewrite filter_none; [done|]. intros d Hd.
      apply negb_false_iff, strIn_spec, held_spec.
      pose proof (Hall type datas Hcase) as Hf. rewrite Forall_forall in Hf. apply Hf. by apply list_elem_of_In. }
    rewrite !Hnone; auto.
Qed.

(** Renaming a role takes its users and grants along: after the update hook
    accepted a new key, no live user or grant of the role's tenant carries the old
    key any more, and every user and grant of another key or tenant is as it was. *)
Theorem rename_cascades (m old : Role) (newKey : string) (tx tx' : DB) :
  First (fun r : Role => Z.eqb (bID (tmBase (rTenant r))) (bID (tmBase (rTenant m)))) tx = Ok old ->
  rTenantID old <> EmptyString -> newKey <> EmptyString -> newKey <> rKey old ->
  RoleBeforeUpdate m true false (Some [("key", newKey)]) tx = (tx', None) ->
  rows tx' = updateRows (rpOf (rKey old) (rTenantID old)) (setRoleKey newKey) (rows tx)
  /\ rows tx' = updateRows (userOf (rKey old) (rTenantID old)) (setUserRole newKey) (rows tx)
  /\ List.filter (rpOf (rKey old) (rTenantID old)) (rows tx') = []
  /\ List.filter (userOf (rKey old) (rTenantID old)) (rows tx') = [].
Proof.
  intros Hf Ht Hn Hne Hu. unfold RoleBeforeUpdate in Hu.
  change (destKey (Some [("key", newKey)])) with newKey in Hu. cbn [orb negb andb] in Hu. rewrite Hf in Hu.
  rewrite (proj2 (String.eqb_neq _ _) Ht), (proj2 (String.eqb_neq _ _) Hn), (proj2 (String.eqb_neq _ _) Hne) in Hu.
  cbn [negb andb] in Hu. rewrite ?(proj2 (String.eqb_neq _ _) Hn) in Hu. cbn [negb andb] in Hu.
  apply thenDo_ok in Hu as (tx1 & Hu & [= <-]).
  apply thenDo_ok in Hu as (tx2 & Hrp & Hus).
  pose proof (Update_frame (R := RolePermission) (R' := User) (rpOf (rKey old) (rTenantID old)) (setRoleKey newKey) tx) as Fu.
  pose proof (Update_frame (R := User) (R' := RolePermission) (userOf (rKey old) (rTenantID old)) (setUserRole newKey) tx2) as Fr.
  rewrite Hrp in Fu. rewrite Hus in Fr. cbn [fst] in Fu, Fr.
  apply Update_ok in Hrp. apply Update_ok in Hus. rewrite Fu in Hus. rewrite <- Fr in Hrp.
  split; [done|]. split; [done|]. rewrite Hrp, Hus.
  split; apply updateRows_none; intros r; unfold rpOf, userOf; cbn [setRoleKey setUserRole rpRoleKey uRoleKey];
    by rewrite (proj2 (String.eqb_neq _ _) Hne).
Qed.

(** Deleting a role leaves nothing behind: after [AfterDelete], or after the
    update hook saw the soft delete, no live grant or user of the tenant carries
    the key, so a role recreated under the same key starts with none. *)
Theorem delete_detaches (m : Role) (tx tx' : DB) :
  rTenantID m <> EmptyString -> rKey m <> EmptyString ->
  (RoleAfterDelete m tx = (tx', None)
   \/ exists m0, First (fun r : Role => Z.eqb (bID (tmBase (rTenant r))) (bID (tmBase (rTenant m0)))) tx = Ok m
                 /\ RoleBeforeUpdate m0 false true None tx = (tx', None)) ->
  List.filter (rpOf (rKey m) (rTenantID m)) (rows tx') = []
  /\ List.filter (userOf (rKey m) (rTenantID m)) (rows tx') = [].
Proof.
  intros Ht Hk Hd.
  assert (forall l, List.filter (userOf (rKey m) (rTenantID m))
                      (updateRows (userOf (rKey m) (rTenantID m)) (setUserRole EmptyString) l) = []) as Hnone.
  { intros l. apply updateRows_none. intros u. unfold userOf. cbn [setUserRole uRoleKey].
    by rewrite (proj2 (String.eqb_neq EmptyString (rKey m)) (not_eq_sym Hk)). }
  destruct Hd as [Hd|(m0 & Hf & Hd)].
  - unfold RoleAfterDelete in Hd. rewrite (proj2 (String.eqb_neq _ _) Ht) in Hd.
    apply thenDo_ok in Hd as (tx1 & Hu & Hp). unfold purgeRolePermissions in Hp.
    pose proof (DeleteRows_frame (R := RolePermission) (R' := User) (rpOf (rKey m) (rTenantID m)) tx1) as Fu.
    rewrite Hp in Fu. cbn [fst] in Fu. apply DeleteRows_ok in Hp. apply Update_ok in Hu.
    rewrite Fu, Hu, Hp. split; [apply keepRows_none|apply Hnone].
  - unfold RoleBeforeUpdate in Hd. cbn [destKey orb negb andb String.eqb] in Hd. rewrite Hf in Hd.
    rewrite (proj2 (String.eqb_neq _ _) Ht) in Hd. cbn in Hd.
    apply thenDo_ok in Hd as (tx1 & Hp & Hu).
    pose proof (Update_frame (R := User) (R' := RolePermission) (userOf (rKey m) (rTenantID m)) (setUserRole EmptyString) tx1) as Fr.
    rewrite Hu in Fr. cbn [fst] in Fr. apply DeleteRows_ok in Hp. apply Update_ok in Hu.
    rewrite Fr, Hu, Hp. split; [apply keepRows_none|apply Hnone].
Qed.

End Roles.

(** ** A concrete database *)

Record Tables : Type := mkTables {
  tRoles : list Role;
  tGrants : list RolePermission;
  tUsers : list User;
  tPermissions : list Permission;
}.

#[export] Instance Tables_Role : Gorm Tables Role :=
  tableGorm tRoles (fun l t => mkTables l (tGrants t) (tUsers t) (tPermissions t)).
#[export] Instance Tables_RP : Gorm Tables RolePermission :=
  tableGorm tGrants (fun l t => mkTables (tRoles t) l (tUsers t) (tPermissions t)).
#[export] Instance Tables_User : Gorm Tables User :=
  tableGorm tUsers (fun l t => mkTables (tRoles t) (tGrants t) l (tPermissions t)).
#[export] Instance Tables_Permission : Gorm Tables Permission :=
  tableGorm tPermissions (fun l t => mkTables (tRoles t) (tGrants t) (tUsers t) l).

#[export] Instance Tables_Role_laws : GormLaws Tables Role.
Proof. by apply tableGorm_laws. Qed.
#[export] Instance Tables_RP_laws : GormLaws Tables RolePermission.
Proof. by apply tableGorm_laws. Qed.
#[export] Instance Tables_User_laws : GormLaws Tables User.
Proof. by apply tableGorm_laws. Qed.
#[export] Instance Tables_Permission_laws : GormLaws Tables Permission.
Proof. by apply tableGorm_laws. Qed.
#[export] Instance Tables_RP_User : GormFrame Tables RolePermission User.
Proof. by apply tableGorm_frame. Qed.
#[export] Instance Tables_User_RP : GormFrame Tables User RolePermission.
Proof. by apply tableGorm_frame. Qed.

Definition tenant1 : TenantModel := mkTenantModel (mkBase 1 0 0 None) "t1".
Definition demoRole : Role := mkRole tenant1 "editor" "Editor" "enabled" false false "all" 0 "" "".
Definition demoTables : Tables :=
  mkTables [demoRole] [newRP "t1" "editor" "menu" "Home"; newRP "t1" "viewer" "menu" "Home"]
    [withTenantModel tenant1 (alice "$2x")] [].

Example ReplacePermissions_run :
  let tx' := fst (ReplacePermissions "editor" ["Home"; "Users"] ["GET /users"] ["t1"] demoTables) in
  List.filter (fun r => String.eqb (rpRoleKey r) "editor") (rows tx')
  = map (newRP "t1" "editor" RolePermissionTypeMenu) ["Home"; "Users"]
    ++ map (newRP "t1" "editor" RolePermissionTypePermission) ["GET /users"]
  /\ List.filter (fun r => negb (String.eqb (rpRoleKey r) "editor")) (rows tx')
     = List.filter (fun r => negb (String.eqb (rpRoleKey r) "editor")) (rows demoTables).
Proof.
  intros tx'. apply (ReplacePermissions_spec "editor" ["Home"; "Users"] ["GET /users"] ["t1"] demoTables tx').
  reflexivity.
Qed.

Example GrantMissingPermissions_run :
  let tx' := fst (GrantMissingPermissions "editor" "t1" ["Home"; "Users"] ["GET /users"] demoTables) in
  length (rows (R := RolePermission) tx') = 4
  /\ Forall (fun d => holds "editor" "t1" RolePermissionTypeMenu d (rows tx')) ["Home"; "Users"].
Proof.
  intros tx'. split; [reflexivity|].
  apply (GrantMissingPermissions_converges "editor" "t1" ["Home"; "Users"] ["GET /users"] demoTables tx');
    [discriminate|reflexivity].
Qed.

Lemma rename_cascades_witness :
  let tx' := fst (RoleBeforeUpdate demoRole true false (Some [("key", "author")]) demoTables) in
  map uRoleKey (rows tx') = [ "author" ]
  /\ List.filter (rpOf "editor" "t1") (rows tx') = [] /\ List.filter (userOf "editor" "t1") (rows tx') = [].
Proof.
  intros tx'. split; [reflexivity|].
  apply (rename_cascades demoRole demoRole "author" demoTables tx'); [reflexivity|discriminate|discriminate|discriminate|reflexivity].
Defined.

Lemma delete_detaches_witness :
  let tx' := fst (RoleAfterDelete demoRole demoTables) in
  List.filter (rpOf "editor" "t1") (rows tx') = [] /\ List.filter (userOf "editor" "t1") (rows tx') = [].
Proof.
  intros tx'. apply (delete_detaches demoRole demoTables tx'); [discriminate|discriminate|]. left. reflexivity.
Defined.
