(* ===== verification/AuditLog.v ===== *)
(** [admin/audit.go]: which REST writes leave an audit row and what fits in it. *)

From Stdlib Require Import ZArith Lia String Ascii List Bool.
From stdpp Require Import base tactics list gmap strings.
From S2P Require Import Prelude GoStrings Utf8 Errs Gorm UserModel RoleModel.

Local Open Scope string_scope.
Local Open Scope list_scope.
Local Open Scope nat_scope.
Local Open Scope aeus_scope.

(** The loop of [truncateUTF8]: shorten until valid. *)
Fixpoint shrink (n : nat) (s : string) : string :=
  match n with
  | O => EmptyString
  | S n' => if ValidString (sliceTo n s) then sliceTo n s else shrink n' s
  end.
Definition truncateUTF8 (s : string) (max : nat) : string :=
  if String.length s <=? max then s else shrink max s.

Lemma shrink_spec (n : nat) (s : string) :
  n <= String.length s ->
  exists k, k <= n /\ shrink n s = sliceTo k s /\ ValidString (shrink n s) = true
    /\ (forall j, j <= n -> ValidString (sliceTo j s) = true -> j <= k).
Proof.
  induction n as [|n IH]; intros Hn; [exists 0; cbn; repeat split; [lia|by intros; lia]|].
  cbn [shrink]. destruct (ValidString (sliceTo (S n) s)) eqn:E; [exists (S n); split; [lia|]; split; [done|]; by split|].
  destruct IH as (k & Hk & Hs & Hv & Hmax); [lia|]. exists k. split; [lia|]. split; [done|]. split; [done|].
  intros j Hj Hjv. destruct (decide (j = S n)) as [->|Hne]; [congruence|]. apply Hmax; [lia|done].
Qed.

(** What a truncation keeps: a prefix that fits; a string that fits as it is; of a
    longer one the longest valid prefix, which loses at most three bytes of a valid
    string. *)
Lemma truncateUTF8_spec (s : string) (max : nat) :
  (exists k, truncateUTF8 s max = sliceTo k s) /\ String.length (truncateUTF8 s max) <= max
  /\ (String.length s <= max -> truncateUTF8 s max = s)
  /\ (max < String.length s -> ValidString (truncateUTF8 s max) = true
        /\ (ValidString s = true -> max < String.length (truncateUTF8 s max) + 4)).
Proof.
  unfold truncateUTF8. destruct (Nat.leb_spec (String.length s) max) as [Hle|Hgt].
  - split; [exists (String.length s)|split; [done|split; [done|lia]]].
    rewrite <- (slice_app (String.length s) s) at 1. assert (sliceFrom (String.length s) s = EmptyString) as ->.
    { pose proof (sliceFrom_exact s EmptyString) as Hx. by rewrite append_nil_r in Hx. }
    apply append_nil_r.
  - destruct (shrink_spec max s) as (k & Hk & Hs & Hv & Hmax); [lia|]. rewrite Hs in *. rewrite length_sliceTo.
    split; [by exists k|]. split; [lia|]. split; [lia|]. intros _. split; [done|]. intros Hvs.
    destruct (valid_cut (String.length s) max s) as (j & Hj1 & Hj2 & Hjv); [done|done|lia|]. specialize (Hmax j Hj1 Hjv). lia.
Qed.

(** ** The recorder *)

Definition auditExcludeAudits : string := "system/sys_audits".
Definition auditExcludeLoginLogs : string := "system/sys_login_logs".
Definition auditActionCreate : string := "create".
Definition auditActionUpdate : string := "update".
Definition auditActionDelete : string := "delete".
Definition auditDataMaxBytes : nat := 10240.
Definition auditUIDMaxBytes : nat := 20.
Definition auditNameMaxBytes : nat := 60.
Definition auditTenantMaxBytes : nat := 60.

(** A row of [models.Audit], and what rest/v3 knows of the request. *)
Record AuditRow : Type := mkAudit {
  auTenant : TenantModel; auUID : string; auAction : string; auModule : string; auTable : string; auData : string;
}.
Record RuntimeScope : Type := mkScope { rsTenantID : string; rsUser : string; rsModuleName : string; rsTableName : string }.

(** The exclusions [installAuditHooks] binds: the two built-in ones and those given. *)
Definition auditExcludes (given : list string) : gset string :=
  {[ auditExcludeAudits; auditExcludeLoginLogs ]} ∪ list_to_set given.

Section Recorder.

(** The table; a changed attribute, a model and a JSON value; [encoding/json] on a diff,
    on a model, on the object with the one member "id", and back to an object. *)
Context {DB DiffAttr Any J : Type} `{GormLaws DB AuditRow}.
Variable MarshalDiff : list DiffAttr -> result error string.
Variable MarshalModel : Any -> result error string.
Variable MarshalID : option J -> result error string.
Variable UnmarshalObject : string -> result error (gmap string J).
Variable excludes : gset string.

Definition shouldRecord (scope : option RuntimeScope) (action : string) (diff : list DiffAttr) : bool :=
  match scope with
  | None => false
  | Some sc =>
      if String.eqb (rsModuleName sc) EmptyString || String.eqb (rsTableName sc) EmptyString then false
      else if bool_decide (rsModuleName sc +:+ "/" +:+ rsTableName sc ∈ excludes) then false
      else negb (String.eqb action auditActionUpdate && (length diff =? 0))
  end.

Definition deletePrimaryKey (model : option Any) : option J :=
  match model with
  | None => None
  | Some m => match MarshalModel m with
              | Err _ => None
              | Ok b => match UnmarshalObject b with Err _ => None | Ok obj => obj !! "id" end
              end
  end.

Definition auditData (action : string) (diff : list DiffAttr) (deleted : option Any) : string :=
  match (if String.eqb action auditActionDelete then MarshalID (deletePrimaryKey deleted) else MarshalDiff diff) with
  | Err _ => EmptyString
  | Ok b => truncateUTF8 b auditDataMaxBytes
  end.

Definition auditRow (sc : RuntimeScope) (action data : string) : AuditRow :=
  mkAudit (mkTenantModel emptyBase (truncateUTF8 (rsTenantID sc) auditTenantMaxBytes)) (truncateUTF8 (rsUser sc) auditUIDMaxBytes)
    action (truncateUTF8 (rsModuleName sc) auditNameMaxBytes) (truncateUTF8 (rsTableName sc) auditNameMaxBytes) data.

(** The database, and the warnings logged. *)
Definition record (scope : option RuntimeScope) (action : string) (diff : list DiffAttr) (deleted : option Any) (db : DB) :
    DB * list error :=
  match scope with
  | Some sc =>
      if shouldRecord scope action diff
      then match Create [auditRow sc action (auditData action diff deleted)] db with
           | (db', Some e) => (db', [e])
           | (db', None) => (db', [])
           end
      else (db, [])
  | None => (db, [])
  end.

(** The hooks; a scope that is not in the context is [None]. *)
Definition afterCreate (scope : option RuntimeScope) (diff : list DiffAttr) : DB -> DB * list error :=
  record scope auditActionCreate diff None.
Definition afterUpdate (scope : option RuntimeScope) (diff : list DiffAttr) : DB -> DB * list error :=
  record scope auditActionUpdate diff None.
Definition afterDelete (scope : option RuntimeScope) (model : option Any) : DB -> DB * list error :=
  record scope auditActionDelete [] model.

Inductive Hook : Type := HCreate (diff : list DiffAttr) | HUpdate (diff : list DiffAttr) | HDelete (model : option Any).
Definition runHook (h : Hook) (scope : option RuntimeScope) : DB -> DB * list error :=
  match h with
  | HCreate diff => afterCreate scope diff
  | HUpdate diff => afterUpdate scope diff
  | HDelete model => afterDelete scope model
  end.
Definition hookAction (h : Hook) : string :=
  match h with HCreate _ => "create" | HUpdate _ => "update" | HDelete _ => "delete" end.

(** [stored] is what a column of [max] bytes keeps of [v]. *)
Definition storedAs (max : nat) (v stored : string) : Prop :=
  String.length stored <= max /\ (exists k, stored = sliceTo k v) /\ (String.length v <= max -> stored = v)
  /\ (ValidString v = true -> ValidString stored = true /\ (max < String.length v -> max < String.length stored + 4)).

Lemma truncateUTF8_stores (v : string) (max : nat) : storedAs max v (truncateUTF8 v max).
Proof.
  destruct (truncateUTF8_spec v max) as (Hp & Hl & Hs & Hv). split; [done|]. split; [done|]. split; [done|]. intros Hvs.
  destruct (Nat.le_gt_cases (String.length v) max) as [Hle|Hgt]; [rewrite Hs by done; split; [done|lia]|].
  destruct (Hv Hgt) as [? Hlo]. split; [done|]. intros _. by apply Hlo.
Qed.

(** Writes that leave a row: attributed, not excluded, and not an update of nothing. *)
Definition audited (h : Hook) (sc : RuntimeScope) : Prop :=
  rsModuleName sc <> EmptyString /\ rsTableName sc <> EmptyString /\ (rsModuleName sc +:+ "/" +:+ rsTableName sc) ∉ excludes
  /\ h <> HUpdate [].

Lemma shouldRecord_spec (h : Hook) (scope : option RuntimeScope) :
  shouldRecord scope (hookAction h) (match h with HCreate d | HUpdate d => d | HDelete _ => [] end) = true
  <-> exists sc, scope = Some sc /\ audited h sc.
Proof.
  unfold shouldRecord, audited. destruct scope as [sc|]; [|split; [done|intros (? & ? & _); done]].
  destruct (String.eqb_spec (rsModuleName sc) EmptyString) as [E|E]; [split; [done|intros (? & [= <-] & ? & _); done]|].
  destruct (String.eqb_spec (rsTableName sc) EmptyString) as [E'|E']; [split; [done|intros (? & [= <-] & _ & ? & _); done]|].
  cbn [orb]. destruct (bool_decide_reflect (rsModuleName sc +:+ "/" +:+ rsTableName sc ∈ excludes)) as [Ei|Ei].
  { split; [done|intros (? & [= <-] & _ & _ & ? & _); done]. }
  destruct h as [d|[|x d]|m]; cbn; (split; [intros ?; eauto 10|intros (? & [= <-] & _ & _ & _ & ?); congruence]) || idtac.
Qed.

(** The key of a deleted model: the member "id" of the object it is encoded as, if it is. *)
Definition keyOf (model : option Any) (key : option J) : Prop :=
  forall j, key = Some j <-> exists m b obj, model = Some m /\ MarshalModel m = Ok b /\ UnmarshalObject b = Ok obj /\ obj !! "id" = Some j.

(** What the data column holds: the encoded diff of a create or an update, the encoded key
    of what a delete removed, cut to the column; nothing when the encoding fails. *)
Definition dataOf (h : Hook) (data : string) : Prop :=
  exists encoded,
    match h with
    | HCreate diff | HUpdate diff => encoded = MarshalDiff diff
    | HDelete model => exists key, keyOf model key /\ encoded = MarshalID key
    end
    /\ match encoded with Ok b => storedAs auditDataMaxBytes b data | Err _ => data = EmptyString end.

Lemma deletePrimaryKey_keyOf (model : option Any) : keyOf model (deletePrimaryKey model).
Proof.
  unfold keyOf, deletePrimaryKey. intros j. split.
  - destruct model as [m|]; [|done]. destruct (MarshalModel m) as [b|e] eqn:Em; [|done].
    destruct (UnmarshalObject b) as [obj|e] eqn:Eo; [|done]. intros Hj. by exists m, b, obj.
  - intros (m & b & obj & -> & -> & -> & Hj). done.
Qed.

Lemma auditData_dataOf (h : Hook) :
  dataOf h (auditData (hookAction h) (match h with HCreate d | HUpdate d => d | HDelete _ => [] end)
              (match h with HDelete m => m | _ => None end)).
Proof.
  unfold dataOf, auditData. destruct h as [d|d|m]; cbn [hookAction].
  - exists (MarshalDiff d). split; [done|]. change (String.eqb "create" auditActionDelete) with false. cbn match.
    destruct (MarshalDiff d); [apply truncateUTF8_stores|done].
  - exists (MarshalDiff d). split; [done|]. change (String.eqb "update" auditActionDelete) with false. cbn match.
    destruct (MarshalDiff d); [apply truncateUTF8_stores|done].
  - exists (MarshalID (deletePrimaryKey m)). split; [exists (deletePrimaryKey m); split; [apply deletePrimaryKey_keyOf|done]|].
    change (String.eqb "delete" auditActionDelete) with true. cbn match. destruct (MarshalID _); [apply truncateUTF8_stores|done].
Qed.

(** C23. A hook leaves exactly one row for a write that is attributed to a model outside
    the exclusions and changed something, and none otherwise; each column holds its
    value cut to the column's bytes at a character boundary, losing no more than the
    last three bytes that would fit, the data column the encoded diff of a create or an
    update and the encoded key, nothing more, of the row a delete removed (or nothing, if
    they cannot be encoded); an insert that fails is a warning and nothing else. *)
Theorem hook_records (h : Hook) (scope : option RuntimeScope) (db : DB) :
  (forall sc, scope = Some sc -> audited h sc ->
     exists row, storedAs auditTenantMaxBytes (rsTenantID sc) (tmTenantID (auTenant row))
       /\ storedAs auditUIDMaxBytes (rsUser sc) (auUID row)
       /\ storedAs auditNameMaxBytes (rsModuleName sc) (auModule row)
       /\ storedAs auditNameMaxBytes (rsTableName sc) (auTable row)
       /\ auAction row = hookAction h /\ dataOf h (auData row)
       /\ (snd (runHook h scope db) = [] -> rows (fst (runHook h scope db)) = rows db ++ [row])
       /\ (snd (runHook h scope db) <> [] -> exists e, snd (Create [row] db) = Some e /\ snd (runHook h scope db) = [e]))
  /\ ((forall sc, scope = Some sc -> ~ audited h sc) -> runHook h scope db = (db, [])).
Proof.
  set (diff := match h with HCreate d | HUpdate d => d | HDelete _ => [] end).
  set (deleted := match h with HDelete m => m | _ => None end).
  assert (forall db, runHook h scope db = record scope (hookAction h) diff deleted db) as Hrun by (by destruct h).
  pose proof (shouldRecord_spec h scope) as Hsr. fold diff in Hsr. split.
  - intros sc -> Ha.
    rewrite Hrun in *. unfold record in *. rewrite (proj2 Hsr) by eauto.
    exists (auditRow sc (hookAction h) (auditData (hookAction h) diff deleted)).
    do 4 (split; [apply truncateUTF8_stores|]). split; [done|]. split; [apply auditData_dataOf|].
     destruct (Create _ db) as [db' [e|]] eqn:Ec; cbn; (split; [|]); try done; [intros _; by exists e|]. intros _. by apply Create_ok in Ec.
  - intros Hn. rewrite Hrun. unfold record. destruct scope as [sc|]; [|done].
    destruct (shouldRecord _ _ _); [|done]. destruct (proj1 Hsr eq_refl) as (sc' & [= <-] & Ha). by destruct (Hn sc eq_refl).
Qed.

End Recorder.

(** The audit table is never audited, nor the login log, whatever is configured. *)
Lemma builtin_excluded (given : list string) :
  auditExcludeAudits ∈ auditExcludes given /\ auditExcludeLoginLogs ∈ auditExcludes given.
Proof. unfold auditExcludes. set_solver. Qed.

(** ** A concrete recorder *)

#[export] Instance AuditTable : Gorm (list AuditRow) AuditRow := tableGorm id (fun l _ => l).
#[export] Instance AuditTable_laws : GormLaws (list AuditRow) AuditRow.
Proof. by apply tableGorm_laws. Qed.

Definition demoHook : Hook (DiffAttr := string) (Any := string) -> option RuntimeScope -> list AuditRow -> list AuditRow * list error :=
  runHook (J := string) (fun l => Ok (String.concat "," l)) Ok (fun k => Ok (default "null" k))
    (fun s => Ok {[ "id" := s ]}) (auditExcludes ["shop/orders"]).
Definition demoScope : RuntimeScope := mkScope "t1" "an-operator-with-a-long-uid" "system" "sys_users".

Example truncate_rune : truncateUTF8 "ab用户" 6 = "ab用" /\ truncateUTF8 "ab用户" 4 = "ab" /\ ValidString "用户" = true.
Proof. repeat split; vm_compute; reflexivity. Qed.
Example hook_runs :
  map (fun r => (auUID r, auAction r, auData r)) (fst (demoHook (HUpdate ["name"]) (Some demoScope) []))
  = [("an-operator-with-a-l", "update", "name")]
  /\ demoHook (HUpdate []) (Some demoScope) [] = ([], [])
  /\ demoHook (HCreate []) (Some (mkScope "t1" "u" "system" "sys_audits")) [] = ([], []).
Proof. repeat split; vm_compute; reflexivity. Qed.

Lemma hook_records_witness :
  rows (fst (demoHook (HUpdate ["name"]) (Some demoScope) [])) <> []
  /\ demoHook (HUpdate []) (Some demoScope) [] = ([], []).
Proof.
  split.
  - destruct (hook_records (J := string) (fun l => Ok (String.concat "," l)) Ok (fun k => Ok (default "null" k))
      (fun s => Ok {[ "id" := s ]}) (auditExcludes ["shop/orders"]) (HUpdate ["name"]) (Some demoScope) ([] : list AuditRow)) as [Hs _].
    destruct (Hs demoScope eq_refl) as (row & _ & _ & _ & _ & _ & _ & Hrow & _).
    + split; [discriminate|]. split; [discriminate|]. split; [|discriminate]. vm_compute. intros Hbad. discriminate Hbad.
    + unfold demoHook. rewrite (Hrow eq_refl). discriminate.
  - destruct (hook_records (J := string) (fun l => Ok (String.concat "," l)) Ok (fun k => Ok (default "null" k))
      (fun s => Ok {[ "id" := s ]}) (auditExcludes ["shop/orders"]) (HUpdate []) (Some demoScope) ([] : list AuditRow)) as [_ Hn].
    apply Hn. intros sc _ (_ & _ & _ & Hne). by apply Hne.
Defined.
