(* ===== verification/Menus.v ===== *)
(** [admin/models/menu.go]: menu rows, the tree that is built of them and the path
    of a row. *)

From Stdlib Require Import ZArith Lia String List Bool.
From stdpp Require Import base tactics list gmap strings pretty.
From S2P Require Import Prelude GoStrings Errs Gorm UserModel RoleModel.

Local Open Scope string_scope.
Local Open Scope list_scope.
Local Open Scope aeus_scope.

Record Menu : Type := mkMenu {
  mBase : BaseModel;
  mParent : string;
  mName : string;
  mComponent : string;
  mUri : string;
  mViewPath : string;
  mIcon : string;
  mHidden : bool;
  mPublic : bool;
  mSort : Z;
  mDescription : string;
}.

Inductive MenuTreeNode : Type :=
| mkNode (Component Title Uri Icon : string) (Hidden Public : bool) (Children : list MenuTreeNode).

Definition nodeComponent (n : MenuTreeNode) : string := let '(mkNode c _ _ _ _ _ _) := n in c.
Definition nodeChildren (n : MenuTreeNode) : list MenuTreeNode := let '(mkNode _ _ _ _ _ _ l) := n in l.

Fixpoint flatten (n : MenuTreeNode) : list string :=
  let '(mkNode c _ _ _ _ _ l) := n in c :: flat_map flatten l.

(** ** BuildTree *)

(** Some row has that component: the key is in [byComponent]. *)
Definition known (menus : list Menu) (c : string) : bool := existsb (fun m => String.eqb (mComponent m) c) menus.

Definition isRoot (menus : list Menu) (m : Menu) : bool :=
  String.eqb (mParent m) EmptyString || negb (known menus (mParent m)).

(** [children[m.Parent] = append(children[m.Parent], i)] over the rows. *)
Definition addChild (menus : list Menu) (acc : gmap string (list nat)) (e : nat * Menu) : gmap string (list nat) :=
  let '(i, m) := e in
  if isRoot menus m then acc else <[mParent m := default [] (acc !! mParent m) ++ [i]]> acc.

Definition indexed (menus : list Menu) : list (nat * Menu) := combine (seq 0 (length menus)) menus.

Definition childrenMap (menus : list Menu) : gmap string (list nat) :=
  fold_left (addChild menus) (indexed menus) ∅.

Definition zeroMenu : Menu := mkMenu (mkBase 0 0 0 None) "" "" "" "" "" "" false false 0%Z "".

Fixpoint mapOption {A B : Type} (f : A -> option B) (l : list A) : option (list B) :=
  match l with
  | [] => Some []
  | x :: l' => match f x, mapOption f l' with
               | Some y, Some ys => Some (y :: ys)
               | _, _ => None
               end
  end.

(** The recursion follows the rows; [None] is out of fuel. *)
Fixpoint buildSubtree (n : nat) (menus : list Menu) (children : gmap string (list nat)) (idx : nat) : option MenuTreeNode :=
  match n with
  | O => None
  | S n' =>
      let m := nth idx menus zeroMenu in
      match mapOption (buildSubtree n' menus children) (default [] (children !! mComponent m)) with
      | Some l => Some (mkNode (mComponent m) (mName m) (mUri m) (mIcon m) (mHidden m) (mPublic m) l)
      | None => None
      end
  end.

(** A path of distinct rows is no longer than the table (see [BuildTree_complete]). *)
Definition BuildTree (menus : list Menu) : option (list MenuTreeNode) :=
  mapOption (buildSubtree (S (length menus)) menus (childrenMap menus))
    (map fst (List.filter (fun e => isRoot menus (snd e)) (indexed menus))).

(** ** PathTo *)

Section Path.

Context {DB : Type} `{Gorm DB Menu} `{Gorm DB RolePermission}.

(** The walk up the parents: [None] is out of fuel. *)
Fixpoint walkUp (n : nat) (db : DB) (visited path : list string) (cur : string) : option (list string) :=
  if String.eqb cur EmptyString then Some path
  else if strIn cur visited then Some path
  else match n with
       | O => None
       | S n' =>
           match First (fun m => String.eqb (mComponent m) cur) db with
           | Err _ => Some path
           | Ok p => walkUp n' db (cur :: visited) (mComponent p :: path) (mParent p)
           end
       end.

Definition PathTo (db : DB) (id : Z) : result error (list string) :=
  let! start := First (fun m => Z.eqb (bID (mBase m)) id) db in
  match walkUp (S (length (rows (R := Menu) db))) db [mComponent start] [mComponent start] (mParent start) with
  | Some path => Ok path
  | None => Ok []
  end.

(** The database orders by parent, then by id. *)
Variable orderByParent : list Menu -> list Menu.

Definition VisibleMenusByComponents (components : list string) (db : DB) : result error (list Menu) :=
  let! l := Find (fun m => strIn (mComponent m) components) db in Ok (orderByParent l).

Definition VisibleByRole (role : string) (db : DB) : result error (list Menu) :=
  let! components := MenuPermissionDatas role db in
  match components with
  | [] => Ok []
  | _ => VisibleMenusByComponents components db
  end.

Definition MenuAfterDelete (m : Menu) (tx : DB) : DB * option error :=
  purgeRolePermissions (fun r => String.eqb (rpType r) RolePermissionTypeMenu && String.eqb (rpData r) (mComponent m)) tx.

Definition ValidateMenuData (components : list string) (tx : DB) : result error (list string) :=
  missingDataValues mComponent components tx.

(** ** The walk terminates *)

Context `{!GormLaws DB Menu}.

Definition components (db : DB) : list string := map mComponent (rows (R := Menu) db).

(** One step of the walk: from a component to its parent's. *)
Definition parentOf (db : DB) (parent child : string) : Prop :=
  exists m, In m (rows db) /\ mComponent m = child /\ mParent m = parent.

Fixpoint ladder (db : DB) (path : list string) : Prop :=
  match path with
  | p :: ((c :: _) as rest) => parentOf db p c /\ ladder db rest
  | _ => True
  end.

Lemma walkUp_spec (n : nat) (db : DB) (visited path : list string) (cur : string) :
  NoDup visited -> incl visited (components db) -> (length (components db) < n + length visited)%nat ->
  Permutation visited path -> ladder db path ->
  match path with c :: _ => parentOf db cur c | [] => True end -> path <> [] ->
  exists up, walkUp n db visited path cur = Some (up ++ path)
    /\ NoDup (up ++ path) /\ incl (up ++ path) (components db) /\ ladder db (up ++ path).
Proof.
  revert visited path cur. induction n as [|n IH]; intros visited path cur Hnd Hincl Hn Hperm Hlad Hcur Hne.
  - exfalso. apply (NoDup_incl_length) in Hincl; [lia|by apply NoDup_ListNoDup].
  - assert (NoDup path /\ incl path (components db)) as [Hnd' Hincl'].
    { split; [by rewrite <- Hperm|]. intros x Hx. apply Hincl. by eapply Permutation_in; [symmetry|]. }
    cbn [walkUp]. destruct (String.eqb_spec cur EmptyString); [by exists []|].
    destruct (strIn cur visited) eqn:Ev; [by exists []|].
    destruct (First _ db) as [p|e] eqn:Ef; [|by exists []].
    apply First_ok in Ef as [Hin Hp%String.eqb_eq]. subst cur.
    assert (~ In (mComponent p) visited) as Hnew by (rewrite <- strIn_spec; congruence).
    destruct (IH (mComponent p :: visited) (mComponent p :: path) (mParent p)) as (up & Hw & Hu1 & Hu2 & Hu3).
    + constructor; [|done]. by rewrite list_elem_of_In.
    + intros x [<-|Hx]; [|by apply Hincl]. by apply in_map.
    + cbn. lia.
    + by constructor.
    + destruct path as [|c path]; [done|]. by split.
    + by exists p.
    + done.
    + exists (up ++ [mComponent p]). rewrite <- app_assoc. done.
Qed.

(** The breadcrumb: the walk up the parents always ends, on tables with
    cycles, dangling parents and duplicate components too; the path ends with the
    row asked for, names no component twice, and each of its steps is a row of the
    table under its parent. *)
Lemma PathTo_ends (db : DB) (id : Z) (start : Menu) :
  First (fun m => Z.eqb (bID (mBase m)) id) db = Ok start ->
  exists up, PathTo db id = Ok (up ++ [mComponent start])
    /\ NoDup (up ++ [mComponent start]) /\ incl (up ++ [mComponent start]) (components db)
    /\ ladder db (up ++ [mComponent start]).
Proof.
  intros Hs. unfold PathTo. rewrite Hs. cbn [rbind]. apply First_ok in Hs as [Hin _].
  destruct (walkUp_spec (S (length (rows (R := Menu) db))) db [mComponent start] [mComponent start] (mParent start))
    as (up & -> & Hrest); [repeat constructor; set_solver| | | | | | |by exists up].
  - intros x [<-|[]]. by apply in_map.
  - unfold components. rewrite length_map. cbn. lia.
  - done.
  - done.
  - by exists start.
  - done.
Qed.

End Path.

(** ** The tree is complete *)

Section Tree.

Variable menus : list Menu.

(** A row at depth [d]: [d] parents above it, the topmost a root. *)
Inductive depth : nat -> Menu -> Prop :=
| depth_root m : isRoot menus m = true -> depth 0 m
| depth_child d p m :
    isRoot menus m = false -> In p menus -> mComponent p = mParent m -> depth d p -> depth (S d) m.

Hypothesis distinct_components : NoDup (map mComponent menus).

Lemma same_component (x y : Menu) : In x menus -> In y menus -> mComponent x = mComponent y -> x = y.
Proof.
  revert distinct_components. generalize menus. intros l Hnd. induction l as [|z l IH]; [done|].
  cbn in Hnd. apply NoDup_cons in Hnd as [Hz Hnd]. rewrite list_elem_of_In in Hz.
  intros [->|Hx] [->|Hy] Heq; [done| | |by apply IH].
  - exfalso. apply Hz. rewrite Heq. by apply in_map.
  - exfalso. apply Hz. rewrite <- Heq. by apply in_map.
Qed.

Lemma depth_fun (d d' : nat) (m : Menu) : depth d m -> depth d' m -> d = d'.
Proof.
  intros Hd; revert d'; induction Hd as [m Hr|d p m Hr Hp Hc Hd IH]; intros d' Hd'; inversion Hd'; subst; try congruence.
  f_equal. apply IH. assert (p0 = p) as -> by (apply same_component; congruence). done.
Qed.

(** The rows under a row, and the rows of a level, in table order. *)
Definition childRows (p : Menu) : list Menu :=
  List.filter (fun m => negb (isRoot menus m) && String.eqb (mParent m) (mComponent p)) menus.

Fixpoint level (k : nat) : list Menu :=
  match k with
  | O => List.filter (isRoot menus) menus
  | S k' => flat_map childRows (level k')
  end.

Lemma In_childRows (p m : Menu) :
  In m (childRows p) <-> In m menus /\ isRoot menus m = false /\ mParent m = mComponent p.
Proof.
  unfold childRows. rewrite List.filter_In, andb_true_iff, negb_true_iff, String.eqb_eq. naive_solver.
Qed.

Lemma level_depth (k : nat) (m : Menu) : In m (level k) <-> In m menus /\ depth k m.
Proof.
  revert m. induction k as [|k IH]; intros m; cbn [level].
  - rewrite List.filter_In. split; [|by intros [? Hd]; inversion Hd].
    intros [? ?]. split; [done|]. by constructor.
  - rewrite in_flat_map. setoid_rewrite IH. setoid_rewrite In_childRows. split.
    + intros (p & [Hp Hd] & Hm & Hr & He). split; [exact Hm|]. apply (depth_child k p m); [exact Hr|exact Hp|congruence|exact Hd].
    + intros [Hm Hd]. inversion Hd as [|? p ? Hr Hp He Hdp]; subst. eauto 10.
Qed.

Lemma NoDup_filter_list {A : Type} (f : A -> bool) (l : list A) : NoDup l -> NoDup (List.filter f l).
Proof. rewrite !NoDup_ListNoDup. apply List.NoDup_filter. Qed.

Lemma NoDup_menus : NoDup menus.
Proof. by eapply NoDup_fmap_1. Qed.

Lemma NoDup_flat_children (l : list Menu) :
  NoDup l -> incl l menus -> NoDup (flat_map childRows l).
Proof.
  induction l as [|p l IH]; intros Hnd Hincl; cbn [flat_map]; [constructor|].
  apply NoDup_cons in Hnd as [Hp Hnd]. apply NoDup_app. split; [apply NoDup_filter_list, NoDup_menus|].
  split; [|apply IH; [done|intros x Hx; apply Hincl; by right]].
  intros x Hx Hx'. rewrite list_elem_of_In in Hx. rewrite list_elem_of_In in Hx'.
  apply in_flat_map in Hx' as (q & Hq & Hxq). apply In_childRows in Hx as (_ & _ & E1).
  apply In_childRows in Hxq as (_ & _ & E2).
  assert (p = q) as <-; [|by apply Hp, list_elem_of_In].
  apply same_component; [apply Hincl; by left|apply Hincl; by right|congruence].
Qed.

Lemma level_NoDup (k : nat) : NoDup (level k).
Proof.
  induction k as [|k IH]; cbn [level]; [apply NoDup_filter_list, NoDup_menus|].
  apply NoDup_flat_children; [done|]. intros x Hx. apply level_depth in Hx. tauto.
Qed.

(** Levels [k .. k+n-1]. *)
Fixpoint levels (n k : nat) : list Menu :=
  match n with
  | O => []
  | S n' => level k ++ levels n' (S k)
  end.

Lemma In_levels (n k : nat) (m : Menu) : In m (levels n k) <-> In m menus /\ exists d, k <= d < k + n /\ depth d m.
Proof.
  revert k. induction n as [|n IH]; intros k; cbn [levels].
  - split; [done|]. intros (_ & d & Hd & _). lia.
  - rewrite in_app_iff, level_depth, IH. split.
    + intros [[Hm Hd]|(Hm & d & Hr & Hd)]; (split; [done|]); [exists k|exists d]; (split; [lia|done]).
    + intros (Hm & d & Hr & Hd). destruct (decide (d = k)) as [->|]; [by left|]. right. split; [done|].
      exists d. split; [lia|done].
Qed.

Lemma levels_NoDup (n k : nat) : NoDup (levels n k).
Proof.
  revert k. induction n as [|n IH]; intros k; cbn [levels]; [constructor|].
  apply NoDup_app. split; [apply level_NoDup|]. split; [|apply IH].
  intros x Hx Hx'. rewrite list_elem_of_In in Hx. rewrite list_elem_of_In in Hx'.
  apply level_depth in Hx as [_ Hd]. apply In_levels in Hx' as (_ & d & Hr & Hd').
  pose proof (depth_fun _ _ _ Hd Hd'). lia.
Qed.

(** The depth of a row is less than the number of rows. *)
Lemma depth_bound (d : nat) (m : Menu) : In m menus -> depth d m -> d < length menus.
Proof.
  intros Hin Hd.
  assert (exists l, length l = S d /\ NoDup l /\ incl l menus /\ forall x, In x l -> exists d', d' <= d /\ depth d' x)
    as (l & Hlen & Hnd & Hincl & _).
  { induction Hd as [m Hr|d p m Hr Hp Hc Hd IH].
    - exists [m]. repeat split; [apply NoDup_singleton|by intros x [<-|[]]|].
      intros x [<-|[]]. exists 0. split; [lia|]. by constructor.
    - destruct (IH Hp) as (l & Hlen & Hnd & Hincl & Hall). exists (m :: l).
      split; [cbn; lia|]. split; [|split].
      + apply NoDup_cons. split; [|done]. rewrite list_elem_of_In. intros Hm.
        destruct (Hall m Hm) as (d' & Hle & Hd'). assert (depth (S d) m) as Hd2 by (by econstructor).
        pose proof (depth_fun _ _ _ Hd' Hd2). lia.
      + intros x [<-|Hx]; [done|by apply Hincl].
      + intros x [<-|Hx]; [exists (S d); split; [lia|by econstructor]|].
        destruct (Hall x Hx) as (d' & Hle & Hd'). exists d'. split; [lia|done]. }
  apply NoDup_ListNoDup in Hnd. pose proof (NoDup_incl_length Hnd Hincl). lia.
Qed.

(** *** The map of children *)

Lemma indexed_fold (acc : gmap string (list nat)) (k : nat) (l : list Menu) (c : string) :
  default [] (fold_left (addChild menus) (combine (seq k (length l)) l) acc !! c)
  = default [] (acc !! c)
    ++ map fst (List.filter (fun e => negb (isRoot menus (snd e)) && String.eqb (mParent (snd e)) c)
                  (combine (seq k (length l)) l)).
Proof.
  revert acc k. induction l as [|m l IH]; intros acc k; cbn [length seq combine fold_left List.filter map].
  - by rewrite app_nil_r.
  - rewrite IH. cbn [addChild snd]. destruct (isRoot menus m); cbn [negb andb]; [done|].
    destruct (String.eqb_spec (mParent m) c) as [->|Hne].
    + rewrite lookup_insert_eq. cbn. by rewrite <- app_assoc.
    + by rewrite lookup_insert_ne.
Qed.

Lemma nth_filter (f : Menu -> bool) (l pre : list Menu) :
  map (fun i => nth i (pre ++ l) zeroMenu)
    (map fst (List.filter (fun e => f (snd e)) (combine (seq (length pre) (length l)) l)))
  = List.filter f l.
Proof.
  revert pre. induction l as [|m l IH]; intros pre; cbn [length seq combine List.filter snd]; [done|].
  specialize (IH (pre ++ [m])). rewrite <- app_assoc, length_app in IH. cbn [app length] in IH.
  rewrite Nat.add_1_r in IH. destruct (f m); cbn [map fst]; [|exact IH]. rewrite IH. f_equal.
  rewrite app_nth2 by lia. by rewrite Nat.sub_diag.
Qed.

Lemma children_rows (p : Menu) :
  map (fun i => nth i menus zeroMenu) (default [] (childrenMap menus !! mComponent p)) = childRows p.
Proof.
  unfold childrenMap, indexed. rewrite indexed_fold. rewrite lookup_empty. cbn [default app].
  apply (nth_filter (fun m => negb (isRoot menus m) && String.eqb (mParent m) (mComponent p)) menus []).
Qed.

Lemma root_rows :
  map (fun i => nth i menus zeroMenu) (map fst (List.filter (fun e => isRoot menus (snd e)) (indexed menus)))
  = level 0.
Proof. apply (nth_filter (isRoot menus) menus []). Qed.

(** *** The recursion *)

Definition flattenAll (l : list MenuTreeNode) : list string := flat_map flatten l.

Lemma flat_map_perm {A B : Type} (f : A -> list B) (l : list A) (g : A -> list B) :
  (forall x, In x l -> Permutation (f x) (g x)) -> Permutation (flat_map f l) (flat_map g l).
Proof.
  induction l as [|x l IH]; intros Hf; cbn; [done|]. apply Permutation_app; [apply Hf; by left|].
  apply IH. intros y Hy. apply Hf. by right.
Qed.

Lemma flat_map_cons_perm {A B : Type} (h : A -> B) (g : A -> list B) (l : list A) :
  Permutation (flat_map (fun x => h x :: g x) l) (map h l ++ flat_map g l).
Proof.
  induction l as [|x l IH]; cbn; [done|]. constructor. rewrite IH, !app_assoc.
  apply Permutation_app_tail, Permutation_app_comm.
Qed.

(** Rows and the rows under them, [n] levels deep. *)
Fixpoint below (n : nat) (rows : list Menu) : list Menu :=
  match n with
  | O => []
  | S n' => rows ++ below n' (flat_map childRows rows)
  end.

Lemma below_nil (n : nat) : below n [] = [].
Proof. by induction n. Qed.

Lemma below_app (n : nat) (a b : list Menu) : Permutation (below n (a ++ b)) (below n a ++ below n b).
Proof.
  revert a b. induction n as [|n IH]; intros a b; cbn [below]; [done|]. rewrite flat_map_app, IH, !app_assoc.
  apply Permutation_app_tail. rewrite <- !app_assoc. apply Permutation_app_head, Permutation_app_comm.
Qed.

Lemma below_level (n k : nat) : below n (level k) = levels n k.
Proof. revert k. induction n as [|n IH]; intros k; cbn [below levels]; [done|]. by rewrite <- (IH (S k)). Qed.

(** A forest built over the rows of a list of indices, with fuel for the levels
    below: its components are those rows and all rows below them. *)
Lemma buildSubtree_forest (n k : nat) (rows : list Menu) (idxs : list nat) :
  incl rows (level k) -> level (k + n) = [] -> map (fun i => nth i menus zeroMenu) idxs = rows ->
  exists forest, mapOption (buildSubtree n menus (childrenMap menus)) idxs = Some forest
    /\ Permutation (flattenAll forest) (map mComponent (below n rows)).
Proof.
  revert k rows idxs. induction n as [|n IHn]; intros k rows idxs Hincl Hend.
  - rewrite Nat.add_0_r in Hend. rewrite Hend in Hincl. apply incl_l_nil in Hincl as ->.
    destruct idxs; [|done]. intros _. by exists [].
  - revert rows Hincl. induction idxs as [|i idxs IHi]; intros rows Hincl Hi; subst rows.
    { exists []. split; [done|]. by rewrite below_nil. }
    destruct (IHi (map (fun i => nth i menus zeroMenu) idxs)) as (forest & Hm & Hf);
      [intros x Hx; apply Hincl; by right|done|]. cbn [mapOption]. rewrite Hm. cbn [buildSubtree].
    cbn [map] in *. set (p := nth i menus zeroMenu) in *.
    set (rest := map (fun i => nth i menus zeroMenu) idxs) in *.
    destruct (IHn (S k) (childRows p) (default [] (childrenMap menus !! mComponent p))) as (sub & Hs & Hsub).
    + intros x Hx. cbn [level]. apply in_flat_map. exists p. split; [apply Hincl; by left|done].
    + by replace (S k + n) with (k + S n) by lia.
    + apply children_rows.
    + rewrite Hs. eexists. split; [done|]. unfold flattenAll in *. cbn [flat_map flatten app].
      rewrite Hsub, Hf, <- map_app.
      change (mComponent p :: map mComponent (below n (childRows p) ++ below (S n) rest))
        with (map mComponent (p :: (below n (childRows p) ++ below (S n) rest))).
      apply Permutation_map. cbn [below app flat_map]. constructor. rewrite below_app, !app_assoc.
      apply Permutation_app_tail, Permutation_app_comm.
Qed.

(** When components are distinct the recursion ends, and the rows of the tree are exactly
    those with a path to a root (a row without a parent or with an unknown one), each
    once. *)
Lemma BuildTree_reached :
  exists forest shown, BuildTree menus = Some forest
    /\ Permutation (flattenAll forest) (map mComponent shown) /\ NoDup shown
    /\ forall m, In m shown <-> In m menus /\ exists d, depth d m.
Proof.
  assert (forall k, length menus <= k -> level k = []) as Hend.
  { intros k Hk. destruct (level k) as [|m l] eqn:E; [done|]. exfalso.
    assert (In m (level k)) as Hm by (rewrite E; by left). apply level_depth in Hm as [Hin Hd].
    apply depth_bound in Hd; [lia|done]. }
  destruct (buildSubtree_forest (S (length menus)) 0 (level 0)
              (map fst (List.filter (fun e => isRoot menus (snd e)) (indexed menus)))) as (forest & Hf & Hp);
    [intros x Hx; exact Hx|apply Hend; lia|apply root_rows|].
  eexists forest, _. split; [exact Hf|]. rewrite Hp, below_level. split; [done|]. split; [apply levels_NoDup|]. intros m.
  rewrite In_levels. split; [intros (Hm & d & _ & Hd); split; [done|by exists d]|]. intros (Hm & d & Hd). split; [done|].
  exists d. split; [|done]. apply depth_bound in Hd; [lia|done].
Qed.

(** When no row is its own ancestor either, every row is in the tree. *)
Lemma BuildTree_complete :
  (forall m, In m menus -> exists d, depth d m) ->
  exists forest, BuildTree menus = Some forest
    /\ Permutation (flattenAll forest) (map mComponent menus).
Proof.
  intros Hall. destruct BuildTree_reached as (forest & shown & Hf & Hp & Hnd & Hin). exists forest. split; [done|].
  rewrite Hp. apply Permutation_map, NoDup_Permutation; [done|apply NoDup_menus|]. intros m. rewrite !list_elem_of_In, Hin.
  split; [by intros [? _]|auto].
Qed.

End Tree.

(** The order of the rows does not matter to who has a path to a root. *)
Lemma depth_perm (l l' : list Menu) (d : nat) (m : Menu) : Permutation l l' -> depth l d m -> depth l' d m.
Proof.
  intros Hp. assert (forall x, isRoot l' x = isRoot l x) as Hr.
  { intros x. unfold isRoot. do 2 f_equal. unfold known. apply eq_true_iff_eq. rewrite !existsb_exists.
    split; intros (y & Hy & Hc); exists y; (split; [by rewrite ?Hp in *; rewrite <- ?Hp in *|done]). }
  induction 1 as [m Hm|d p m Hm Hin Hc Hd IH]; [constructor; by rewrite Hr|].
  apply (depth_child l' d p m); [by rewrite Hr|by rewrite <- Hp|done|done].
Qed.

(** Rows that are each other's parents are in no tree: neither is a root. *)
Example cycle_is_dropped :
  BuildTree [ mkMenu (mkBase 1 0 0 None) "B" "a" "A" "" "" "" false false 0%Z ""
            ; mkMenu (mkBase 2 0 0 None) "A" "b" "B" "" "" "" false false 0%Z "" ] = Some [].
Proof. vm_compute. reflexivity. Qed.

Definition demoMenu (id : Z) (parent component : string) : Menu :=
  mkMenu (mkBase id 0 0 None) parent component component "" "" "" false false 0%Z "".
Definition demoMenus : list Menu := [demoMenu 1 "" "System"; demoMenu 2 "System" "Users"; demoMenu 3 "Users" "UserEdit"; demoMenu 4 "Gone" "Orphan"].

Lemma demoMenus_well_formed :
  NoDup (map mComponent demoMenus) /\ forall m, In m demoMenus -> exists d, depth demoMenus d m.
Proof.
  split; [repeat (constructor; [set_solver|]); constructor|].
  assert (depth demoMenus 0 (demoMenu 1 "" "System")) as H1 by (constructor; reflexivity).
  assert (depth demoMenus 1 (demoMenu 2 "System" "Users")) as H2.
  { apply (depth_child demoMenus 0 (demoMenu 1 "" "System")); [reflexivity|left; reflexivity|reflexivity|exact H1]. }
  intros m [<-|[<-|[<-|[<-|[]]]]]; [by exists 0|by exists 1| |exists 0; by constructor].
  exists 2. apply (depth_child demoMenus 1 (demoMenu 2 "System" "Users")); [reflexivity|right; left; reflexivity|reflexivity|exact H2].
Qed.

#[export] Instance menuTable : Gorm (list Menu) Menu := tableGorm id (fun l _ => l).
#[export] Instance menuTable_laws : GormLaws (list Menu) Menu.
Proof. by apply tableGorm_laws. Qed.

Example path_of_UserEdit : PathTo demoMenus 3 = Ok ["System"; "Users"; "UserEdit"].
Proof. reflexivity. Qed.
