(* ===== verification/Derive.v ===== *)
(** [admin/derive.go], [admin/module_menu.go], [admin/endpoint_permissions.go],
    [admin/policy]: what registering a model derives from its names, and the rows that
    are made once and never overwritten. *)

From Stdlib Require Import ZArith Lia String Ascii List Bool.
From stdpp Require Import base tactics list strings pretty.
From S2P Require Import Prelude GoStrings Errs Gorm UserModel RoleModel Menus.

Local Open Scope string_scope.
Local Open Scope list_scope.
Local Open Scope aeus_scope.

(** ** Names *)

(** [strings.FieldsFunc] with a predicate on ASCII bytes. *)
Fixpoint fieldsFunc (p : ascii -> bool) (cur : string) (s : string) : list string :=
  match s with
  | EmptyString => flushField cur []
  | String a s' => if p a then flushField cur (fieldsFunc p EmptyString s')
                   else fieldsFunc p (cur +:+ String a EmptyString) s'
  end.

Definition wordBoundary (a : ascii) : bool := Ascii.eqb a "_" || Ascii.eqb a "-".

(** Case is that of ASCII letters; module and table names are identifiers. *)
Definition capitalize (p : string) : string :=
  match p with
  | EmptyString => EmptyString
  | String a p' => String (upperByte a) (ToLower p')
  end.

Definition pascalWords (s : string) : string :=
  String.concat EmptyString (map capitalize (fieldsFunc wordBoundary EmptyString s)).

Definition deriveUri (module table : string) : string :=
  if String.eqb module EmptyString || String.eqb table EmptyString then EmptyString
  else "/" +:+ ReplaceAll module "_" "-" +:+ "/" +:+ ReplaceAll table "_" "-".

(** ** Registered models *)

Record MenuSpec : Type := mkMenuSpec {
  msComponent : string; msUri : string; msViewPath : string; msName : string; msIcon : string;
  msParent : string; msSort : Z; msHidden : bool; msPublic : bool; msDescription : string;
}.
Record ModuleSpec : Type := mkModuleSpec { moName : string; moTitle : string; moIcon : string; moComponent : string; moSort : Z }.

(** A [rest.Resource]: the names of its model, the scenarios that are mounted, the
    optional interfaces of the model, and the route of a scenario. *)
Record Resource : Type := mkResource {
  resModule : string;
  resTable : string;
  resSingular : string;
  hasScenario : string -> bool;
  scenarioProvider : option (list string);
  menuEntry : option MenuSpec;
  permissionGroupOf : option string;
  BuildUri : string -> string * string;
}.

(** [path.Join] cleans the path; the pieces are names without slashes or dots. *)
Definition deriveViewPath (r : Resource) : string :=
  if String.eqb (resModule r) EmptyString || String.eqb (resSingular r) EmptyString then EmptyString
  else "@/views/" +:+ ToLower (resModule r) +:+ "/" +:+ resSingular r +:+ "/Index.vue".

Definition orDefault (s d : string) : string := if String.eqb s EmptyString then d else s.

Definition fillDerivedSpec (r : Resource) (spec : MenuSpec) : MenuSpec :=
  mkMenuSpec (orDefault (msComponent spec) (pascalWords (resModule r) +:+ pascalWords (resTable r)))
    (orDefault (msUri spec) (deriveUri (resModule r) (resTable r)))
    (orDefault (msViewPath spec) (deriveViewPath r))
    (msName spec) (msIcon spec) (msParent spec) (msSort spec) (msHidden spec) (msPublic spec) (msDescription spec).

Section Codes.

(** The scenario names of rest/v3. *)
Variables ScenarioCreate ScenarioUpdate ScenarioDelete ScenarioSearch ScenarioDetail ScenarioExport : string.

Definition canonicalPermissionScenarios : list string :=
  [ScenarioCreate; ScenarioUpdate; ScenarioDelete; ScenarioSearch; ScenarioDetail; ScenarioExport].

Definition scenarioCNLabel (scenario : string) : string :=
  if String.eqb scenario ScenarioCreate then "创建"
  else if String.eqb scenario ScenarioUpdate then "更新"
  else if String.eqb scenario ScenarioDelete then "删除"
  else if String.eqb scenario ScenarioSearch then "列表"
  else if String.eqb scenario ScenarioDetail then "详情"
  else if String.eqb scenario ScenarioExport then "导出"
  else scenario.

Definition permissionScenarios (r : Resource) : list string :=
  match scenarioProvider r with
  | Some l => l
  | None => List.filter (hasScenario r) canonicalPermissionScenarios
  end.

Definition permissionResourceLabel (r : Resource) : string :=
  let fromNames := if negb (String.eqb (resModule r) EmptyString) && negb (String.eqb (resTable r) EmptyString)
                   then resModule r +:+ "/" +:+ resTable r else resTable r in
  match menuEntry r with
  | Some spec => orDefault (msName spec) fromNames
  | None => fromNames
  end.

Definition permissionGroup (r : Resource) : string :=
  match permissionGroupOf r with
  | Some g => orDefault g (permissionResourceLabel r)
  | None => permissionResourceLabel r
  end.

(** Data, description and group; empty data is the signal to skip. *)
Definition permissionCode (r : Resource) (scenario : string) : string * string * string :=
  let '(method, uri) := BuildUri r scenario in
  match uri with
  | EmptyString => (EmptyString, EmptyString, EmptyString)
  | String a _ =>
      let uri := if Ascii.eqb a "/" then uri else "/" +:+ uri in
      (method +:+ " " +:+ uri, scenarioCNLabel scenario +:+ " " +:+ permissionResourceLabel r, permissionGroup r)
  end.

End Codes.

(** [admin/policy]: [Permission] joins method and path. *)
Record Policy : Type := mkPolicy {
  poMethod : string; poPath : string; poButton : string; poDescription : string; poGroup : string; poPublic : bool;
}.

Definition policyPermission (p : Policy) : string :=
  if String.eqb (poMethod p) EmptyString || String.eqb (poPath p) EmptyString then EmptyString
  else ToUpper (poMethod p) +:+ " " +:+ poPath p.

(** ** Rows made once *)

(** [fmt.Errorf("...: %w", err)] *)
Definition wrapf (what : string) (e : error) : error := EWrap (what +:+ ": " +:+ errText e) [e].

Section Ensure.

Context {DB R : Type} `{GormLaws DB R} `{!GormUnscoped DB R} `{!GormUnscopedLaws DB R}.

(** Look a row up, soft-deleted ones included; make it when there is none. *)
Definition ensure (w : R -> bool) (row : R) (onLookup onCreate : error -> error) (db : DB) : DB * option error :=
  match FirstAll w db with
  | Ok _ => (db, None)
  | Err e =>
      if negb (Is e ErrRecordNotFound) then (db, Some (onLookup e))
      else match Create [row] db with
           | (db', Some e) => (db', Some (onCreate e))
           | (db', None) => (db', None)
           end
  end.

Definition present (w : R -> bool) (db : DB) : Prop := exists r, In r (allRows db) /\ w r = true.

(** Rows are only added, and only for keys that were missing. *)
Definition grows (db db' : DB) : Prop := exists added, allRows db' = allRows db ++ added.

Lemma grows_refl (db : DB) : grows db db.
Proof. exists []. by rewrite app_nil_r. Qed.
Lemma grows_trans (a b c : DB) : grows a b -> grows b c -> grows a c.
Proof. intros [l Hl] [k Hk]. exists (l ++ k). by rewrite Hk, Hl, app_assoc. Qed.
Lemma grows_present (w : R -> bool) (db db' : DB) : grows db db' -> present w db -> present w db'.
Proof. intros [l Hl] (r & Hr & Hw). exists r. split; [|done]. rewrite Hl. apply in_app_iff. by left. Qed.

Lemma FirstAll_Ok (w : R -> bool) (db : DB) (r : R) : FirstAll w db = Ok r -> present w db.
Proof.
  unfold FirstAll. destruct (FindAll w db) as [l|] eqn:E; [|done]. apply FindAll_ok in E.
  destruct l as [|x l]; [done|]. intros [= ->]. exists r. apply List.filter_In. rewrite <- E. by left.
Qed.

Lemma ensure_ok (w : R -> bool) (row : R) (onLookup onCreate : error -> error) (db db' : DB) :
  w row = true -> ensure w row onLookup onCreate db = (db', None) ->
  present w db' /\ grows db db' /\ (present w db -> db' = db) /\ (db' <> db -> allRows db' = allRows db ++ [row]).
Proof.
  intros Hw He. unfold ensure in He. destruct (FirstAll w db) as [r|e] eqn:Ef.
  { injection He as <-. split; [by eapply FirstAll_Ok|]. split; [apply grows_refl|done]. }
  destruct (Is e ErrRecordNotFound) eqn:Ei; [|done]. cbn [negb] in He.
  destruct (Create [row] db) as [db1 [e'|]] eqn:Ec; [done|]. injection He as <-. apply Create_all in Ec.
  split; [exists row; split; [rewrite Ec; apply in_app_iff; right; by left|done]|].
  split; [by exists [row]|]. split; [|done]. intros (r & Hr & Hwr). exfalso.
  unfold FirstAll in Ef. destruct (FindAll w db) as [l|e'] eqn:El.
  - apply FindAll_ok in El. destruct l; [|done]. assert (In r []) as []. rewrite El. by apply List.filter_In.
  - injection Ef as <-. apply FindAll_err in El. congruence.
Qed.

(** A loop of such lookups, each with its key and its row. *)
Lemma ensure_all {A : Type} (w : A -> R -> bool) (row : A -> R) (f : A -> DB -> DB * option error) (l : list A) (db db' : DB) :
  (forall x db db', f x db = (db', None) -> present (w x) db' /\ grows db db' /\ (present (w x) db -> db' = db)) ->
  forEach f l db = (db', None) ->
  Forall (fun x => present (w x) db') l /\ grows db db' /\ (Forall (fun x => present (w x) db) l -> db' = db).
Proof.
  intros Hf He.
  apply (forEach_ind f (fun done d => Forall (fun x => present (w x) d) done /\ grows db d
           /\ (Forall (fun x => present (w x) db) done -> d = db)) l db db'); [|by split; [|split; [apply grows_refl|]]|exact He].
  intros seen x d d' (Hall & Hg & Hid) Hx. destruct (Hf x d d' Hx) as (Hp & Hg' & Hid').
  split; [|split; [by eapply grows_trans|]].
  - apply Forall_app. split; [|by repeat constructor]. eapply Forall_impl; [exact Hall|].
    intros y Hy. by eapply grows_present.
  - intros [Ha Hb]%Forall_app. specialize (Hid Ha). subst d. apply Hid'. by inversion Hb.
Qed.

End Ensure.

(** ** Menus *)

Definition menuRow (spec : MenuSpec) : Menu :=
  mkMenu emptyBase (msParent spec) (msName spec) (msComponent spec) (msUri spec) (msViewPath spec) (msIcon spec)
    (msHidden spec) (msPublic spec) (msSort spec) (msDescription spec).
Definition hasComponent (c : string) (m : Menu) : bool := String.eqb (mComponent m) c.

Section Menus.

Context {DB : Type} `{GormLaws DB Menu} `{!GormUnscoped DB Menu} `{!GormUnscopedLaws DB Menu}.

(** [created] is not read by the caller. *)
Definition ensureMenuRow (spec : MenuSpec) (db : DB) : DB * option error :=
  if String.eqb (msComponent spec) EmptyString || String.eqb (msName spec) EmptyString then (db, None)
  else ensure (hasComponent (msComponent spec)) (menuRow spec) id id db.

Definition moduleSpecMenu (spec : ModuleSpec) : MenuSpec :=
  mkMenuSpec (orDefault (moComponent spec) (pascalWords (moName spec) +:+ "Center")) EmptyString EmptyString (moTitle spec)
    (moIcon spec) EmptyString (moSort spec) false false EmptyString.

Definition EnsureModuleMenu (spec : ModuleSpec) (db : DB) : DB * option error :=
  if String.eqb (moName spec) EmptyString then (db, Some (EPlain "admin: module name is required"))
  else if String.eqb (moTitle spec) EmptyString then (db, Some (EPlain "admin: module title is required"))
  else let m := moduleSpecMenu spec in
       ensure (hasComponent (msComponent m)) (menuRow m) (wrapf ("lookup module menu " +:+ quote (msComponent m)))
         (wrapf ("insert module menu " +:+ quote (msComponent m))) db.

(** The rows whose parent no row has. *)
Definition orphans (rows : list Menu) : list Menu :=
  List.filter (fun m => negb (String.eqb (mParent m) EmptyString) && negb (known rows (mParent m))) rows.

Definition validateMenuParentsRef (db : DB) : option error :=
  match Find (fun _ => true) db with
  | Err e => Some (wrapf "list sys_menus" e)
  | Ok rows => match orphans rows with
               | [] => None
               | l => Some (EPlain (pretty (length l) +:+ " menu row(s) reference missing parent: "
                            +:+ String.concat "; " (map (fun m => quote (mComponent m) +:+ " -> " +:+ quote (mParent m)) l)))
               end
  end.

(** What [BuildTree] makes roots of: the rows without a parent and the orphans the
    warning names. *)
Lemma orphans_are_roots (rows : list Menu) (m : Menu) :
  In m rows -> isRoot rows m = true <-> mParent m = EmptyString \/ In m (orphans rows).
Proof.
  intros Hin. unfold isRoot, orphans. rewrite List.filter_In, orb_true_iff, andb_true_iff, !negb_true_iff, String.eqb_eq.
  destruct (String.eqb_spec (mParent m) EmptyString) as [E|E]; [naive_solver|]. naive_solver.
Qed.

(** Registering menus, in any order and any number of times: every named component
    has a row, rows an operator has changed or deleted stay as they are, and a second
    pass writes nothing. *)
Lemma ensureMenuRows_converge (specs : list MenuSpec) (db db' : DB) :
  Forall (fun s => msComponent s <> EmptyString /\ msName s <> EmptyString) specs ->
  forEach ensureMenuRow specs db = (db', None) ->
  Forall (fun s => present (hasComponent (msComponent s)) db') specs /\ grows db db'
  /\ (Forall (fun s => present (hasComponent (msComponent s)) db) specs -> db' = db).
Proof.
  intros Hs He.
  apply (forEach_ind ensureMenuRow (fun done d => Forall (fun s => msComponent s <> EmptyString /\ msName s <> EmptyString) done ->
           Forall (fun s => present (hasComponent (msComponent s)) d) done /\ grows db d
           /\ (Forall (fun s => present (hasComponent (msComponent s)) db) done -> d = db)) specs db db');
    [|intros _; split; [done|]; split; [apply grows_refl|done]|exact He|exact Hs].
  intros seen x d d' IH Hx [Hseen Hone]%Forall_app. inversion Hone as [|? ? [Hc Hn] _]; subst. destruct (IH Hseen) as (Hall & Hg & Hid).
  unfold ensureMenuRow in Hx. destruct (String.eqb_spec (msComponent x) EmptyString); [done|].
  destruct (String.eqb_spec (msName x) EmptyString); [done|]. cbn [orb] in Hx.
  apply ensure_ok in Hx as (Hp & Hg' & Hid' & _); [|apply String.eqb_refl].
  split; [|split; [by eapply grows_trans|]].
  - apply Forall_app. split; [|by repeat constructor]. eapply Forall_impl; [exact Hall|]. intros y Hy. by eapply grows_present.
  - intros [Ha Hb]%Forall_app. specialize (Hid Ha). subst d. apply Hid'. by inversion Hb.
Qed.

End Menus.

(** ** Permissions *)

Definition permissionRow (type data description group : string) : Permission :=
  mkPermission emptyBase group type data description.
Definition hasData (data : string) (p : Permission) : bool := String.eqb (pData p) data.
Definition hasTypeData (type data : string) (p : Permission) : bool := String.eqb (pType p) type && String.eqb (pData p) data.

(** The routes that belong to no model. *)
Definition endpointPermissionCodes : list (string * string * string) :=
  [ ("GET /rest/model-types/:module/:table", "选项查询 元数据下拉", "系统")
  ; ("GET /rest/model-tiers/:module/:table", "层级查询 树形选择", "系统")
  ; ("GET /schema/:module/:table", "Schema 元数据", "系统")
  ; ("GET /dashboard/overview", "查询 工作台概览", "工作台")
  ; ("GET /role/options", "选项查询 角色下拉", "角色")
  ; ("GET /role/permissions", "查询 角色授权", "角色")
  ; ("PUT /role/permissions", "更新 角色授权", "角色")
  ; ("GET /role/menus", "查询 角色菜单", "角色")
  ; ("GET /permission/catalog", "查询 权限目录", "权限")
  ; ("GET /permission/list", "查询 权限列表", "权限")
  ; ("GET /menu/tree", "查询 菜单树", "菜单")
  ; ("GET /menu/all", "查询 全部菜单", "菜单")
  ; ("GET /menu/options", "查询 菜单选项", "菜单")
  ; ("GET /menu/breadcrumb", "查询 面包屑", "菜单")
  ; ("GET /tenant/options", "选项查询 租户下拉", "租户")
  ; ("GET /tenant/detail", "查询 租户详情", "租户")
  ; ("POST /user/reset-password", "重置 用户密码", "用户") ].

Section Permissions.

Context {DB : Type} `{GormLaws DB Permission} `{!GormUnscoped DB Permission} `{!GormUnscopedLaws DB Permission}.

Definition ensureEndpoint (code : string * string * string) (db : DB) : DB * option error :=
  let '(data, description, group) := code in
  ensure (hasData data) (permissionRow PermissionTypeAPI data description group)
    (wrapf ("lookup sys_permission " +:+ quote data)) (wrapf ("auto-create endpoint permission " +:+ quote data)) db.
Definition ensureEndpoints (db : DB) : DB * option error := forEach ensureEndpoint endpointPermissionCodes db.

Definition ensurePermission (typ data description group : string) (db : DB) : DB * option error :=
  if String.eqb data EmptyString then (db, None)
  else ensure (hasTypeData typ data) (permissionRow typ data description group)
         (wrapf ("lookup sys_permission " +:+ quote typ +:+ "/" +:+ quote data))
         (wrapf ("auto-create endpoint permission " +:+ quote typ +:+ "/" +:+ quote data)) db.

Definition ensurePolicy (p : Policy) (db : DB) : DB * option error :=
  if poPublic p then (db, None)
  else
    thenDo (ensurePermission PermissionTypeAPI (policyPermission p) (poDescription p) (poGroup p) db) (fun db =>
      ensurePermission PermissionTypeButton (poButton p) (poDescription p) (poGroup p) db).
Definition EnsureEndpointPermissions (policies : list Policy) (db : DB) : DB * option error := forEach ensurePolicy policies db.

Definition wrapErr (what : string) (r : DB * option error) : DB * option error :=
  match r with (db, Some e) => (db, Some (wrapf what e)) | _ => r end.

(** The DDL of sys_permissions, when the server migrates. *)
Variable migratePermissions : option (DB -> DB * option error).
Definition migrated (k : DB -> DB * option error) (db : DB) : DB * option error :=
  match migratePermissions with
  | Some migrate => thenDo (wrapErr "migrate sys_permissions" (migrate db)) k
  | None => k db
  end.

Definition ensureEndpointPermissions (db : DB) : DB * option error := migrated ensureEndpoints db.

(** One scenario of a model: an existing row only gets a group when it has none. *)
Definition withGroup (g : string) (p : Permission) : Permission := mkPermission (pBase p) g (pType p) (pData p) (pDescription p).
Definition samePermission (p q : Permission) : bool := Z.eqb (bID (pBase p)) (bID (pBase q)).

Definition ensureScenario (code : string * string * string) (db : DB) : DB * option error :=
  let '(data, description, group) := code in
  if String.eqb data EmptyString then (db, None)
  else match FirstAll (hasData data) db with
       | Ok existing =>
           if String.eqb (pGroup existing) EmptyString && negb (String.eqb group EmptyString)
           then wrapErr ("back-fill group on " +:+ quote data) (Update (samePermission existing) (withGroup group) db) else (db, None)
       | Err e =>
           if negb (Is e ErrRecordNotFound) then (db, Some (wrapf ("lookup sys_permission " +:+ quote data) e))
           else wrapErr ("auto-create permission " +:+ quote data) (Create [permissionRow PermissionTypeAPI data description group] db)
       end.

(** [overrideScenarios] is nil or the list given at registration. *)
Definition ensurePermissionRows (code : Resource -> string -> string * string * string) (scenarios : list string)
    (override : option (list string)) (r : Resource) (db : DB) : DB * option error :=
  migrated (fun db =>
    if String.eqb (resModule r) EmptyString || String.eqb (resTable r) EmptyString then (db, None)
    else forEach (fun sc => ensureScenario (code r sc)) (default scenarios override) db) db.

(** The catalog of the built-in routes converges in the same way. *)
Lemma ensureEndpoints_converge (db db' : DB) :
  ensureEndpoints db = (db', None) ->
  Forall (fun c => present (hasData (fst (fst c))) db') endpointPermissionCodes /\ grows db db'
  /\ (Forall (fun c => present (hasData (fst (fst c))) db) endpointPermissionCodes -> db' = db).
Proof.
  apply (ensure_all (fun c => hasData (fst (fst c))) (fun c => permissionRow PermissionTypeAPI (fst (fst c)) (snd (fst c)) (snd c))
           ensureEndpoint endpointPermissionCodes).
  intros [[data description] group] d d' Hx. unfold ensureEndpoint in Hx.
  apply ensure_ok in Hx as (Hp & Hg & Hid & _); [done|apply String.eqb_refl].
Qed.

End Permissions.

(** Names of different modules can derive one component; the second model then gets
    no menu row. *)
Example component_collision :
  pascalWords "system" +:+ pascalWords "sys_users" = pascalWords "system_sys" +:+ pascalWords "users".
Proof. reflexivity. Qed.
Example derive_users : pascalWords "__sys_users" = "SysUsers" /\ deriveUri "system" "sys_users" = "/system/sys-users".
Proof. split; reflexivity. Qed.
