(* ===== verification/Manifest.v ===== *)
(** [cmd/aeus/gen.go]: the manifests of the proto files, and what the two generators of
    source code share: a name that is not taken, and a slice sorted by a key. *)

From Stdlib Require Import ZArith Lia String Ascii List Bool.
From stdpp Require Import base tactics list gmap strings pretty sorting.
From S2P Require Import Prelude GoStrings.

Local Open Scope string_scope.
Local Open Scope list_scope.

(** ** The manifest *)

Record manifestEnumValue : Type := mkEnumValue { evName : string; evNumber : Z }.      (* an int32 *)

Record manifestEnum : Type := mkEnum { enGoName : string; enValues : list manifestEnumValue }.

Record manifestRef : Type := mkRef { refKind : string; refPackage : string; refName : string }.

Record manifestField : Type := mkField {
  fName : string; fType : string; fRef : option manifestRef; fList : bool; fMap : bool;
}.

Record manifestMessage : Type := mkMessage { msgGoName : string; msgFields : list manifestField }.

Record manifestModule : Type := mkModule {
  modName : string; modTitle : string; modIcon : string; modComponent : string; modSort : Z; modVarName : string;
}.

Record manifestEntity : Type := mkEntity {
  eGoName : string; eModelName : string; eTable : string; eModule : string; eSingular : string; ePlural : string;
  eViewPath : string; eMenuName : string; eComponent : string; eBase : string; eScenarios : list string;
  ePermissionGroup : string; eReadOnly : bool;
}.

Record manifestPolicy : Type := mkPolicy {
  polMethod : string; polPath : string; polButton : string; polGroup : string; polDescription : string; polPublic : bool;
}.

Record manifestMethod : Type := mkMethod {
  mtGoName : string; mtRequest : string; mtResponse : string; mtRequestRef : option manifestRef;
  mtResponseRef : option manifestRef; mtHTTPMethod : string; mtHTTPPath : string; mtBody : string;
}.

Record manifestService : Type := mkService {
  svGoName : string; svPoliciesVar : string; svPolicies : list manifestPolicy; svMethods : list manifestMethod;
}.

Record resourceManifest : Type := mkManifest {
  rmSource : string; rmGoPackage : string; rmGoPackageName : string; rmModule : option manifestModule;
  rmMessages : list manifestMessage; rmEnums : list manifestEnum; rmEntities : list manifestEntity;
  rmServices : list manifestService;
}.

(** ** A name that is not taken *)

(** [fmt.Sprintf("%s_%d", base, n)] *)
Definition numbered (base : string) (n : nat) : string := base +:+ "_" +:+ pretty n.

(** [for n := 2; used[alias]; n++]; the fuel is enough, [freshName_spec]. *)
Fixpoint freshFrom (fuel n : nat) (base alias : string) (used : gset string) : string :=
  match fuel with
  | O => alias
  | S fuel => if bool_decide (alias ∈ used) then freshFrom fuel (S n) base (numbered base n) used else alias
  end.

Definition freshName (base : string) (used : gset string) : string := freshFrom (S (size used)) 2 base base used.

Lemma numbered_inj (base : string) (m n : nat) : numbered base m = numbered base n -> m = n.
Proof. unfold numbered. intros H%append_inj_l%append_inj_l. by apply (inj pretty) in H. Qed.

Lemma numbered_longer (base : string) (n : nat) : numbered base n <> base.
Proof. intros H%(f_equal String.length). unfold numbered in H. rewrite !length_append in H. cbn in H. lia. Qed.

(** The names that are tried. *)
Definition tried (base : string) (n : nat) : list string := base :: map (numbered base) (seq 2 n).

Lemma tried_NoDup (base : string) (n : nat) : NoDup (tried base n).
Proof.
  apply NoDup_cons. split.
  - intros (m & Hm & _)%list_elem_of_fmap. by apply (numbered_longer base m).
  - apply NoDup_fmap_2; [|apply NoDup_seq]. intros m k. apply numbered_inj.
Qed.

Lemma freshFrom_spec (fuel n : nat) (base alias : string) (used : gset string) :
  let a := freshFrom fuel n base alias used in
  (a = alias \/ exists m, n <= m /\ a = numbered base m)%nat /\
  (a ∈ used -> alias ∈ used /\ forall m, (n <= m < n + pred fuel)%nat -> numbered base m ∈ used) /\
  (a = alias \/ alias ∈ used).
Proof.
  revert n alias. induction fuel as [|fuel IH]; intros n alias; cbn [freshFrom].
  - cbn. split; [by left|]. split; [intros H; split; [done|]; lia|by left].
  - case_bool_decide as Hin; [|split; [by left|]; split; [intros H; by destruct Hin|by left]].
    destruct (IH (S n) (numbered base n)) as (A & B & C). cbv zeta. split; [|split; [|by right]].
    + right. destruct A as [->|(m & Hm & ->)]; [exists n|exists m]; split; try done; lia.
    + intros Ha. destruct (B Ha) as [Hn Hm]. split; [done|]. intros m Hmm. cbn in Hmm.
      destruct (decide (m = n)) as [->|Hne]; [done|]. destruct fuel as [|fuel]; [lia|]. apply Hm. cbn. lia.
Qed.

(** The loop ends: more names are tried than are taken. *)
Lemma freshName_fresh (base : string) (used : gset string) : freshName base used ∉ used.
Proof.
  intros Hin. destruct (freshFrom_spec (S (size used)) 2 base base used) as (_ & B & _).
  destruct (B Hin) as [Hb Hall]. pose proof (tried_NoDup base (size used)) as Hnd.
  assert (list_to_set (tried base (size used)) ⊆ used) as Hsub.
  { intros x Hx%elem_of_list_to_set. apply elem_of_cons in Hx as [->|Hx]; [done|]. apply list_elem_of_fmap in Hx as (m & -> & Hm).
    apply elem_of_seq in Hm. apply Hall. cbn. lia. }
  apply subseteq_size in Hsub. rewrite size_list_to_set in Hsub by done. unfold tried in Hsub. cbn in Hsub.
  rewrite length_map, length_seq in Hsub. lia.
Qed.

(** It is the name itself when that is free. *)
Lemma freshName_free (base : string) (used : gset string) : base ∉ used -> freshName base used = base.
Proof. intros H. unfold freshName. cbn [freshFrom]. by rewrite bool_decide_false. Qed.

Lemma freshName_shape (base : string) (used : gset string) :
  freshName base used = base \/ exists n, (2 <= n)%nat /\ freshName base used = numbered base n.
Proof. apply (freshFrom_spec (S (size used)) 2 base base used). Qed.

(** ** Sorting *)

(** [sort.Slice] by a key; what it does with equal keys nothing here relies on. *)
Definition byKey {A : Type} (key : A -> string) (a b : A) : Prop := String.leb (key a) (key b) = true.
#[export] Instance byKey_dec {A : Type} (key : A -> string) : RelDecision (byKey key) :=
  fun a b => decide (String.leb (key a) (key b) = true).

Definition sortSlice {A : Type} (key : A -> string) (l : list A) : list A := merge_sort (byKey key) l.

(** [sort.Strings] of the keys of a map. *)
Definition sortedKeysOf {A : Type} (m : gmap string A) : list string := sortSlice (fun x => x) (map fst (map_to_list m)).
Definition sortedElements (m : gset string) : list string := sortSlice (fun x => x) (elements m).

Lemma sortSlice_perm {A : Type} (key : A -> string) (l : list A) : Permutation (sortSlice key l) l.
Proof. apply merge_sort_Permutation. Qed.

Lemma sortSlice_In {A : Type} (key : A -> string) (l : list A) (x : A) : In x (sortSlice key l) <-> In x l.
Proof. split; apply Permutation_in; [apply sortSlice_perm|symmetry; apply sortSlice_perm]. Qed.

Lemma sortedKeysOf_spec {A : Type} (m : gmap string A) : NoDup (sortedKeysOf m) /\ forall k, In k (sortedKeysOf m) <-> is_Some (m !! k).
Proof.
  unfold sortedKeysOf. split.
  - rewrite sortSlice_perm. apply NoDup_fst_map_to_list.
  - intros k. rewrite sortSlice_In, in_map_iff. split.
    + intros ([k' v] & <- & H%list_elem_of_In). exists v. by apply elem_of_map_to_list.
    + intros [v H]. exists (k, v). split; [done|]. by apply list_elem_of_In, elem_of_map_to_list.
Qed.

Lemma sortedElements_spec (m : gset string) : NoDup (sortedElements m) /\ forall k, In k (sortedElements m) <-> k ∈ m.
Proof.
  unfold sortedElements. split; [rewrite sortSlice_perm; apply NoDup_elements|].
  intros k. by rewrite sortSlice_In, <- list_elem_of_In, elem_of_elements.
Qed.
