(* ===== verification/VueGen.v ===== *)
(** [admin/vue_gen.go], [cmd/aeus/vue.go]: the pages that are generated: where they are
    written, and that none is written over. *)

From Stdlib Require Import ZArith Lia String Ascii List Bool.
From stdpp Require Import base tactics list gmap strings.
From S2P Require Import Prelude GoStrings GoPath Errs Options Derive Manifest.

Local Open Scope string_scope.
Local Open Scope list_scope.
Local Open Scope aeus_scope.

(** ** Paths below a directory *)

(** [filepath.Join] *)
Definition JoinAll (l : list string) : string :=
  match List.filter (fun s => negb (String.eqb s EmptyString)) l with
  | [] => EmptyString
  | l => Clean (Join l "/")
  end.

(** What [Clean] keeps of elements among which none climbs. *)
Lemma cleanStep_flat (root : bool) (l kept : list string) :
  ~ In ".." l ->
  fold_left (cleanStep root) l kept = rev (List.filter (fun x => negb (String.eqb x EmptyString || String.eqb x ".")) l) ++ kept.
Proof.
  revert kept. induction l as [|x l IH]; intros kept Hin; [done|]. cbn [fold_left List.filter].
  rewrite IH by (intros H; apply Hin; by right). unfold cleanStep.
  destruct (String.eqb x EmptyString || String.eqb x "."); [done|]. cbn [negb rev].
  destruct (String.eqb_spec x "..") as [->|_]; [destruct Hin; by left|]. by rewrite <- app_assoc.
Qed.

Lemma clean_below (p rest : string) (ep : list string) :
  rootedClean p ep ->
  fold_left (cleanStep true) (SplitByte (p +:+ String slash rest) slash) [] = fold_left (cleanStep true) (SplitByte rest slash) (rev ep).
Proof.
  intros [-> Hp]. change (("/" +:+ Join ep "/") +:+ String slash rest) with (EmptyString +:+ String slash (Join ep "/" +:+ String slash rest)).
  rewrite SplitByte_cons by done. cbn [fold_left]. change (cleanStep true [] EmptyString) with (@nil string). destruct ep as [|x l].
  - change (Join [] "/" +:+ String slash rest) with (EmptyString +:+ String slash rest). by rewrite SplitByte_cons.
  - by rewrite SplitByte_Join_app, fold_left_app, (cleanStep_id true [] (x :: l) Hp), app_nil_r by done.
Qed.

(** A path whose pieces do not climb stays below the directory it is joined to. *)
Lemma join_below (p rest : string) (ep : list string) :
  rootedClean p ep -> ~ In ".." (SplitByte rest slash) ->
  rootedClean (Clean (p +:+ String slash rest)) (ep ++ List.filter (fun x => negb (String.eqb x EmptyString || String.eqb x ".")) (SplitByte rest slash)).
Proof.
  intros Hp Hin. split.
  - unfold Clean. assert (rooted (p +:+ String slash rest) = true) as ->.
    { destruct Hp as [-> _]. apply rooted_spec. by eexists. }
    by rewrite (clean_below p rest ep Hp), cleanStep_flat, rev_app_distr, !rev_involutive.
  - apply Forall_app. split; [apply Hp|]. apply Forall_forall. intros x Hx%list_elem_of_In. apply List.filter_In in Hx as [Hx Hk].
    apply negb_true_iff, orb_false_iff in Hk as [H1%String.eqb_neq H2%String.eqb_neq]. split; [done|]. split; [done|]. split; [by intros ->|].
    pose proof (SplitByte_pieces rest slash) as Hf. rewrite List.Forall_forall in Hf. by apply Hf.
Qed.

(** ** admin/vue_gen.go *)

(** [strings.ContainsAny] with the two separators. *)
Definition hasSeparator (s : string) : bool := negb (byte_free "/" s) || negb (byte_free "\" s).

Definition vuePathForModel (outputDir module singular : string) : string :=
  if String.eqb module EmptyString || String.eqb singular EmptyString then EmptyString
  else if Contains module ".." || Contains singular ".." || hasSeparator module || hasSeparator singular then EmptyString
  else JoinAll [outputDir; ToLower module; singular; "Index.vue"].

(** What the generators ask of the file system: whether a path is there, and the two
    calls that change it; a failed write may leave anything at its path. *)
Class FileSystem (FS : Type) : Type := {
  content : FS -> string -> option string;
  Stat : string -> FS -> result (option error) unit;     (* [Err None]: not there *)
  MkdirAll : string -> FS -> FS * option error;
  WriteFile : string -> string -> FS -> FS * option error;
}.
Class FileSystemLaws (FS : Type) `{FileSystem FS} : Prop := {
  Stat_missing path fs : Stat path fs = Err None -> content fs path = None;
  MkdirAll_content path fs path' : content (fst (MkdirAll path fs)) path' = content fs path';
  WriteFile_other path c fs path' : path' <> path -> content (fst (WriteFile path c fs)) path' = content fs path';
  WriteFile_ok path c fs fs' : WriteFile path c fs = (fs', None) -> content fs' path = Some c;
}.

(** [filepath.Dir] *)
Definition Dir (p : string) : string :=
  match cutLastByte p slash with Some (d, _) => Clean (d +:+ "/") | None => "." end.

Section Generate.

Context {FS : Type} `{HFS : FileSystem FS} `{HFSL : !FileSystemLaws FS}.

Definition generateVueFile (path c : string) (fs : FS) : FS * (bool * option error) :=
  if String.eqb path EmptyString then (fs, (false, None))
  else match Stat path fs with
       | Ok _ => (fs, (false, None))
       | Err (Some e) => (fs, (false, Some (wrapf ("stat " +:+ path) e)))
       | Err None =>
           match MkdirAll (Dir path) fs with
           | (fs, Some e) => (fs, (false, Some (wrapf ("mkdir " +:+ Dir path) e)))
           | (fs, None) =>
               match WriteFile path c fs with
               | (fs, Some e) => (fs, (false, Some (wrapf ("write " +:+ path) e)))
               | (fs, None) => (fs, (true, None))
               end
           end
       end.

(** The names of a resource, the plural of its table among them. *)
Record naming : Type := mkNaming { nmModule : string; nmTable : string; nmSingular : string; nmPluralize : string }.

Variable vueTemplate : string.

Definition buildVueContent (resource : option naming) : result error string :=
  match resource with
  | None => Err (EPlain "buildVueContent: nil resource")
  | Some n =>
      if String.eqb (nmModule n) EmptyString || String.eqb (nmTable n) EmptyString || String.eqb (nmSingular n) EmptyString then Ok EmptyString
      else
        let componentName := pascalWords (nmModule n) +:+ pascalWords (nmPluralize n) in
        let body := ReplaceAll vueTemplate "{{MODULE}}" (ToLower (nmModule n)) in
        let body := ReplaceAll body "{{TABLE}}" (nmTable n) in
        let body := ReplaceAll body "{{SINGULAR}}" (nmSingular n) in
        Ok (ReplaceAll body "{{COMPONENT_NAME}}" componentName)
  end.

(** [generateVueForResource]: every failure is only logged; what is reported is whether
    a file was written. *)
Definition generateVueForResource (resource : option naming) (outputDir : string) (fs : FS) : FS * bool :=
  match resource with
  | None => (fs, false)
  | Some n =>
      if String.eqb outputDir EmptyString then (fs, false)
      else match buildVueContent resource with
           | Err _ => (fs, false)
           | Ok content =>
               if String.eqb content EmptyString then (fs, false)
               else let path := vuePathForModel outputDir (ToLower (nmModule n)) (nmSingular n) in
                    if String.eqb path EmptyString then (fs, false)
                    else let '(fs, (written, _)) := generateVueFile path content fs in (fs, written)
           end
  end.

(** The end of [registerModel]: the directory of the model, and else the server's. *)
Definition registerModelVue {MenuSpec : Type} (c : option (@RegisterModel.options MenuSpec)) (serverDefault : string)
    (resource : option naming) (fs : FS) : FS :=
  let dir := RegisterModel.resolveVueOutputDir c serverDefault in
  if String.eqb dir EmptyString then fs else fst (generateVueForResource resource dir fs).

(** ** cmd/aeus/vue.go *)

Definition invalidViewPath (e : manifestEntity) : error := EPlain (eGoName e +:+ ": invalid view_path " +:+ quote (eViewPath e)).

Definition viewPathOf (e : manifestEntity) : string :=
  let viewPath := TrimSpace (eViewPath e) in
  if String.eqb viewPath EmptyString then
    let singular := if String.eqb (eSingular e) EmptyString then TrimSuffix (eTable e) "s" else eSingular e in
    "@/views/" +:+ ToLower (eModule e) +:+ "/" +:+ singular +:+ "/Index.vue"
  else viewPath.

(** A relative path that is cleaned and refused: it names no file, or climbs. *)
Definition escapes (clean : string) : bool :=
  String.eqb clean "." || rooted clean || String.eqb clean ".." || HasPrefix clean "../".

Definition vueFilePath (webDir : string) (e : manifestEntity) : result error string :=
  if String.eqb (eModule e) EmptyString then Err (EPlain (eGoName e +:+ ": entity module is empty"))
  else
    let rel := TrimPrefix (TrimPrefix (viewPathOf e) "@/views/") "@/" in
    let clean := Clean rel in
    if escapes clean then Err (invalidViewPath e)
    else Ok (JoinAll [webDir; clean]).

(** [html.EscapeString] *)
Fixpoint EscapeString (s : string) : string :=
  match s with
  | EmptyString => EmptyString
  | String a s =>
      (if Ascii.eqb a "&" then "&amp;"
       else if Ascii.eqb a "'" then "&#39;"
       else if Ascii.eqb a "<" then "&lt;"
       else if Ascii.eqb a ">" then "&gt;"
       else if Ascii.eqb a (ascii_of_nat 34) then "&#34;"
       else String a EmptyString) +:+ EscapeString s
  end.

(** [pascalName]; names begin with an ASCII byte. *)
Definition nameBoundary (a : ascii) : bool := Ascii.eqb a "_" || Ascii.eqb a "-" || Ascii.eqb a " " || Ascii.eqb a "/".

Definition upperFirst (p : string) : string :=
  match p with EmptyString => EmptyString | String a p => String (upperByte a) p end.

Definition pascalName (s : string) : string :=
  Join (map upperFirst (List.filter (fun p => negb (String.eqb p EmptyString)) (fieldsFunc nameBoundary EmptyString s))) EmptyString.

Definition nl : string := String "010" EmptyString.

Definition vueComponent (e : manifestEntity) : string :=
  if String.eqb (eComponent e) EmptyString then pascalName (eModule e) +:+ pascalName (eTable e) else eComponent e.

Definition vueTitle (e : manifestEntity) : string := if String.eqb (eMenuName e) EmptyString then eTable e else eMenuName e.

(** The lines of the page; [quote] is [strconv.Quote] of a name. *)
Definition vueLines (e : manifestEntity) : list string :=
  ["<!-- Code generated by aeus gen. DO NOT EDIT. -->";
   "<script setup lang=" +:+ quote "ts" +:+ ">";
   "// 与菜单 route meta.componentName 对齐，保证 keep-alive 能缓存页面。";
   "defineOptions({ name: " +:+ quote (vueComponent e) +:+ " })";
   EmptyString;
   "import { computed } from 'vue'";
   "import { useRoute } from 'vue-router'";
   "import { SchemaViewer } from '@sjlit/rest-ui'";
   EmptyString;
   "const route = useRoute()";
   EmptyString;
   "// 页面标题跟随菜单；未配置菜单时回落到表名。";
   "const title = computed(() => (route.meta.title as string | undefined) || " +:+ quote (vueTitle e) +:+ ")";
   "</script>";
   EmptyString;
   "<template>";
   "  <SchemaViewer module=" +:+ quote (EscapeString (eModule e)) +:+ " table=" +:+ quote (EscapeString (eTable e))
     +:+ " :title=" +:+ quote "title" +:+ (if eReadOnly e then " readonly" else EmptyString) +:+ " />";
   "</template>"].

Definition renderVue (e : manifestEntity) : string := Join (vueLines e) nl +:+ nl.

(** The counters and the missing files of a run. *)
Record tally : Type := mkTally { written : Z; skipped : Z; missing : list string }.

(** One entity; [None] is the next one, an error ends the run. *)
Definition generateOne (check : bool) (path : string) (e : manifestEntity) (t : tally) (fs : FS) : FS * result error tally :=
  match Stat path fs with
  | Ok _ => (fs, Ok (mkTally (written t) (skipped t + 1) (missing t)))
  | Err (Some err) => (fs, Err (wrapf ("stat " +:+ path) err))
  | Err None =>
      if check then (fs, Ok (mkTally (written t) (skipped t) (missing t ++ [path])))
      else match MkdirAll (Dir path) fs with
           | (fs, Some err) => (fs, Err (wrapf ("mkdir " +:+ Dir path) err))
           | (fs, None) =>
               match WriteFile path (renderVue e) fs with
               | (fs, Some err) => (fs, Err (wrapf ("write " +:+ path) err))
               | (fs, None) => (fs, Ok (mkTally (written t + 1) (skipped t) (missing t)))
               end
           end
  end.

(** The entities of all manifests, in order. *)
Fixpoint generateEntities (es : list manifestEntity) (webDir : string) (check : bool) (seen : gset string) (t : tally) (fs : FS) : FS * result error tally :=
  match es with
  | [] => (fs, Ok t)
  | e :: es =>
      match vueFilePath webDir e with
      | Err err => (fs, Err err)
      | Ok path =>
          if bool_decide (path ∈ seen) then generateEntities es webDir check seen t fs
          else
            match generateOne check path e t fs with
            | (fs, Err err) => (fs, Err err)
            | (fs, Ok t) => generateEntities es webDir check ({[path]} ∪ seen) t fs
            end
      end
  end.

Definition generateVueFiles (manifests : list (list manifestEntity)) (webDir : string) (check : bool) (fs : FS) : FS * result error tally :=
  generateEntities (concat manifests) webDir check ∅ (mkTally 0 0 []) fs.

(** ** Where they write *)

Lemma filter_keeps (x : string) (l : list string) :
  In x l -> x <> EmptyString -> x <> "." -> In x (List.filter (fun x => negb (String.eqb x EmptyString || String.eqb x ".")) l).
Proof.
  intros Hin H1 H2. apply List.filter_In. split; [done|]. by rewrite (proj2 (String.eqb_neq _ _) H1), (proj2 (String.eqb_neq _ _) H2).
Qed.

Lemma no_dots (s : string) : Contains s ".." = false -> s <> "..".
Proof. by intros Hc ->. Qed.

Lemma lower_free (c : ascii) (s : string) : is_upper c = false -> is_lower c = false -> byte_free c s = true -> byte_free c (ToLower s) = true.
Proof.
  intros Hu Hl. induction s as [|a s IH]; [done|]. cbn [byte_free ToLower mapBytes]. change (mapBytes lowerByte s) with (ToLower s).
  intros [Ha Hs]%andb_true_iff. rewrite (IH Hs), andb_true_r. apply negb_true_iff, Ascii.eqb_neq in Ha. apply negb_true_iff, Ascii.eqb_neq.
  intros <-. unfold lowerByte in *. destruct (is_upper a) eqn:E; [|done].
  revert E Hl Hu. destruct a as [[] [] [] [] [] [] [] []]; vm_compute; done.
Qed.

Lemma lower_nil (s : string) : s <> EmptyString -> ToLower s <> EmptyString.
Proof. by destruct s. Qed.

Lemma lower_dots (s : string) : s <> ".." -> ToLower s <> "..".
Proof.
  intros Hs E. apply Hs. destruct s as [|a [|b [|c s]]]; try done. cbn in E. injection E as Ea Eb.
  f_equal; [|f_equal]; [revert Ea; destruct a as [[] [] [] [] [] [] [] []]|revert Eb; destruct b as [[] [] [] [] [] [] [] []]]; vm_compute; done.
Qed.

Lemma rooted_nonempty (p : string) (ep : list string) : rootedClean p ep -> String.eqb p EmptyString = false.
Proof. by intros [-> _]. Qed.

(** The file of a model is called Index.vue, below the output directory, whatever the
    model is called. *)
Lemma vuePathForModel_below (out module singular : string) (ep : list string) :
  rootedClean out ep -> vuePathForModel out module singular <> EmptyString ->
  exists ks, rootedClean (vuePathForModel out module singular) (ep ++ ks ++ ["Index.vue"]).
Proof.
  intros Hp Hne. unfold vuePathForModel in *.
  destruct (String.eqb_spec module EmptyString); [done|]. destruct (String.eqb_spec singular EmptyString); [done|]. cbn [orb] in *.
  destruct (Contains module "..") eqn:Em; [done|]. destruct (Contains singular "..") eqn:Es; [done|]. cbn [orb] in *.
  destruct (hasSeparator module) eqn:Hm; [done|]. destruct (hasSeparator singular) eqn:Hs; [done|]. cbn [orb] in *.
  unfold hasSeparator in Hm, Hs. apply orb_false_iff in Hm as [Hm _]. apply orb_false_iff in Hs as [Hs _]. apply negb_false_iff in Hm, Hs.
  unfold JoinAll. cbn [List.filter]. rewrite (rooted_nonempty out ep Hp). cbn [negb].
  rewrite (proj2 (String.eqb_neq _ _) (lower_nil module ltac:(done))), (proj2 (String.eqb_neq singular EmptyString)) by done. cbn [negb String.eqb Join].
  assert (SplitByte (ToLower module +:+ String slash (singular +:+ String slash "Index.vue")) slash = [ToLower module; singular; "Index.vue"]) as Hsplit.
  { rewrite SplitByte_cons by by apply lower_free. by rewrite SplitByte_cons. }
  destruct (join_below out (ToLower module +:+ String slash (singular +:+ String slash "Index.vue")) ep Hp) as [Hc Hf].
  { rewrite Hsplit. intros [Hx|[Hx|[Hx|[]]]]; [by apply (lower_dots module); [apply no_dots|]|by apply (no_dots singular)|done]. }
  rewrite Hsplit in Hc, Hf. eexists (List.filter _ [ToLower module; singular]). 
  assert (forall k : string -> bool, k "Index.vue" = true -> List.filter k [ToLower module; singular; "Index.vue"] = List.filter k [ToLower module; singular] ++ ["Index.vue"]) as Hk.
  { intros k Hk. change [ToLower module; singular; "Index.vue"] with ([ToLower module; singular] ++ ["Index.vue"]). rewrite List.filter_app. cbn. by rewrite Hk. }
  rewrite Hk in Hc, Hf by done. split; [exact Hc|exact Hf].
Qed.

Lemma exists_last_or_nil {A : Type} (l : list A) : l = [] \/ exists k x, l = k ++ [x].
Proof. destruct l as [|a l] using rev_ind; [by left|right; eauto]. Qed.

(** A relative path that is clean climbs first, if at all. *)
Lemma cleanStep_relative (l kept : list string) :
  (exists n ps, rev kept = replicate n ".." ++ ps /\ Forall plain ps) -> Forall (fun x => byte_free slash x = true) l ->
  exists n ps, rev (fold_left (cleanStep false) l kept) = replicate n ".." ++ ps /\ Forall plain ps.
Proof.
  intros Hkept Hl. revert kept Hkept. induction Hl as [|x l Hx _ IH]; intros kept Hkept; [done|]. cbn [fold_left]. apply IH.
  destruct Hkept as (n & ps & Hr & Hps). unfold cleanStep.
  destruct (String.eqb_spec x EmptyString); [by exists n, ps|]. destruct (String.eqb_spec x "."); [by exists n, ps|]. cbn [orb].
  destruct (String.eqb_spec x "..") as [->|Hne].
  - destruct kept as [|y rest]; [by exists 1, []|]. cbn [rev] in Hr. destruct (exists_last_or_nil ps) as [->|(ps' & z & ->)].
    + rewrite app_nil_r in Hr. destruct n as [|n]; [by destruct (rev rest)|].
      assert (y = ".." /\ rev rest = replicate n "..") as [-> Hrest].
      { rewrite replicate_S_end in Hr. by apply app_inj_tail in Hr as [? ?]. }
      rewrite String.eqb_refl. exists (S (S n)), []. cbn [rev]. by rewrite Hrest, !replicate_S_end, app_nil_r.
    + rewrite app_assoc in Hr. apply app_inj_tail in Hr as [Hrest ->]. apply Forall_app in Hps as [Hps Hz].
      inversion Hz as [|? ? (_ & _ & Hz3 & _) _]; subst. rewrite (proj2 (String.eqb_neq _ _) Hz3). by exists n, ps'.
  - exists n, (ps ++ [x]). cbn [rev]. rewrite Hr, app_assoc. split; [done|]. apply Forall_app. split; [done|]. by repeat constructor.
Qed.

(** A path that passed the test is below the directory it is joined to. *)
Lemma checked_below (dir rel : string) (ep : list string) :
  rootedClean dir ep -> escapes (Clean rel) = false ->
  exists es, es <> [] /\ Forall plain es /\ Clean rel = Join es "/" /\ rootedClean (JoinAll [dir; Clean rel]) (ep ++ es).
Proof.
  intros Hp Hesc. unfold escapes in Hesc. 
  destruct (String.eqb_spec (Clean rel) "."); [done|]. destruct (rooted (Clean rel)) eqn:Er; [done|].
  destruct (String.eqb_spec (Clean rel) ".."); [done|]. cbn [orb] in Hesc. rename Hesc into Ed.
  assert (rooted rel = false) as Hrel.
  { destruct (rooted rel) eqn:E; [|done]. destruct (Clean_rooted rel E) as (es & Hc & _). rewrite Hc in Er. done. }
  assert (exists es, es <> [] /\ Forall plain es /\ Clean rel = Join es "/") as (es & Hne & Hes & Hc).
  { unfold Clean in *. rewrite Hrel in *. 
    destruct (cleanStep_relative (SplitByte rel slash) [] ltac:(by exists 0, []) (SplitByte_pieces rel slash)) as (k & ps & Hk & Hps).
    rewrite Hk in *. destruct k as [|k].
    - cbn [replicate app] in *. destruct ps as [|x ps]; [done|]. by exists (x :: ps).
    - exfalso. cbn [replicate app] in *. destruct (replicate k ".." ++ ps) as [|y l]; [done|].
      cbn [Join] in Ed. change (HasPrefix (".." +:+ "/" +:+ Join (y :: l) "/") "../" = false) in Ed. 
      assert (HasPrefix (".." +:+ "/" +:+ Join (y :: l) "/") "../" = true) as E; [|by rewrite E in Ed]. apply HasPrefix_spec. by eexists. }
  assert (String.eqb (Join es "/") EmptyString = false) as Hj.
  { destruct (Join_plain_head es Hne Hes) as (a & t & -> & _). done. }
  unfold JoinAll.
  assert (SplitByte (Join es "/") slash = es) as Hsplit by by apply SplitByte_plain.
  exists es. split; [done|]. split; [done|]. split; [done|]. rewrite Hc. cbn [List.filter]. rewrite (rooted_nonempty dir ep Hp), Hj. cbn [negb Join].
  assert (List.filter (fun x => negb (String.eqb x EmptyString || String.eqb x ".")) es = es) as Hf.
  { apply filter_all. intros x Hx. rewrite List.Forall_forall in Hes. destruct (Hes x Hx) as (Hx1 & Hx2 & _).
    by rewrite (proj2 (String.eqb_neq _ _) Hx1), (proj2 (String.eqb_neq _ _) Hx2). }
  rewrite <- Hf at 2. rewrite <- Hsplit at 2. apply join_below; [done|]. rewrite Hsplit. intros Hx. rewrite List.Forall_forall in Hes.
  by destruct (Hes _ Hx) as (_ & _ & ? & _).
Qed.

Lemma vueFilePath_below (webDir path : string) (e : manifestEntity) (ep : list string) :
  rootedClean webDir ep -> vueFilePath webDir e = Ok path -> exists ks, ks <> [] /\ rootedClean path (ep ++ ks).
Proof.
  intros Hp. unfold vueFilePath. destruct (String.eqb (eModule e) EmptyString); [done|]. cbv zeta.
  destruct (escapes _) eqn:Ee; [done|]. intros [= <-]. destruct (checked_below webDir _ ep Hp Ee) as (es & Hne & _ & _ & Hr). by exists es.
Qed.

(** ** What they leave *)

(** One file system after another: what was there is there, and what is new is below the
    directory, at one of the paths of the entities. *)
Definition keeps (fs fs' : FS) (P : string -> Prop) : Prop :=
  forall path, content fs' path = content fs path \/ (content fs path = None /\ P path).

Lemma keeps_refl (fs : FS) (P : string -> Prop) : keeps fs fs P.
Proof. intros path. by left. Qed.

Lemma keeps_trans (fs1 fs2 fs3 : FS) (P : string -> Prop) : keeps fs1 fs2 P -> keeps fs2 fs3 P -> keeps fs1 fs3 P.
Proof.
  intros H1 H2 path. destruct (H1 path) as [E1|[E1 Hp]], (H2 path) as [E2|[E2 Hp2]].
  - left. by rewrite E2.
  - right. by rewrite <- E1.
  - by right.
  - by right.
Qed.

(** A page is made only where nothing was. *)
Lemma write_keeps (dir path c : string) (fs : FS) (P : string -> Prop) :
  Stat path fs = Err None -> P path ->
  keeps fs (fst (MkdirAll dir fs)) P /\ keeps fs (fst (WriteFile path c (fst (MkdirAll dir fs)))) P.
Proof.
  intros Hst Hp. split.
  - intros q. left. apply MkdirAll_content.
  - intros q. destruct (String.eqb_spec q path) as [->|Hne]; [right; split; [by apply Stat_missing|done]|].
    left. rewrite WriteFile_other by done. apply MkdirAll_content.
Qed.

Lemma generateVueFile_keeps (path c : string) (fs : FS) : keeps fs (fst (generateVueFile path c fs)) (fun q => q = path).
Proof.
  unfold generateVueFile. destruct (String.eqb path EmptyString); [apply keeps_refl|].
  destruct (Stat path fs) as [|[e|]] eqn:Est; [apply keeps_refl..|].
  destruct (write_keeps (Dir path) path c fs (fun q => q = path) Est eq_refl) as [H1 H2].
  destruct (MkdirAll (Dir path) fs) as [fs1 [e|]]; [exact H1|]. cbn [fst] in H2. by destruct (WriteFile path c fs1) as [fs2 [e|]].
Qed.

(** Registering a model writes over no page, whatever its options, and writes nothing
    when the option of the model is the empty directory. *)
Theorem model_page_kept {MenuSpec : Type} (c : option (@RegisterModel.options MenuSpec)) (serverDefault : string)
    (resource : option naming) (fs : FS) :
  keeps fs (registerModelVue c serverDefault resource fs) (fun _ => True)
  /\ (forall o, c = Some o -> RegisterModel.vueOutputDir o = Some EmptyString -> registerModelVue c serverDefault resource fs = fs).
Proof.
  split.
  - unfold registerModelVue. destruct (String.eqb _ _); [apply keeps_refl|]. unfold generateVueForResource.
    destruct resource as [n|]; [|apply keeps_refl]. destruct (String.eqb _ _); [apply keeps_refl|].
    destruct (buildVueContent (Some n)) as [content|e]; [|apply keeps_refl]. destruct (String.eqb content _); [apply keeps_refl|].
    set (path := vuePathForModel _ _ _). destruct (String.eqb path _); [apply keeps_refl|].
    pose proof (generateVueFile_keeps path content fs) as Hk. destruct (generateVueFile path content fs) as [fs' [w e]].
    intros q. destruct (Hk q) as [?|[? ?]]; auto.
  - intros o -> Ho. unfold registerModelVue, RegisterModel.resolveVueOutputDir. by rewrite Ho.
Qed.

Lemma generateOne_keeps (check : bool) (path : string) (e : manifestEntity) (t : tally) (fs : FS) (P : string -> Prop) :
  P path -> keeps fs (fst (generateOne check path e t fs)) P.
Proof.
  intros Hp. unfold generateOne. destruct (Stat path fs) as [|[err|]] eqn:Est; [apply keeps_refl..|].
  destruct check; [apply keeps_refl|]. destruct (write_keeps (Dir path) path (renderVue e) fs P Est Hp) as [H1 H2].
  destruct (MkdirAll (Dir path) fs) as [fs1 [err|]]; [exact H1|]. cbn [fst] in H2. by destruct (WriteFile path (renderVue e) fs1) as [fs2 [err|]].
Qed.

(** A run of the generator, also one that fails half-way, writes over no file and writes
    below the directory only. *)
Theorem pages_never_overwritten (manifests : list (list manifestEntity)) (webDir : string) (ep : list string) (check : bool) (fs : FS) :
  rootedClean webDir ep ->
  keeps fs (fst (generateVueFiles manifests webDir check fs)) (fun path => exists ks, ks <> [] /\ rootedClean path (ep ++ ks)).
Proof.
  intros Hw. unfold generateVueFiles. generalize (concat manifests) as es. generalize (mkTally 0 0 []) as t. generalize (∅ : gset string) as seen.
  intros seen t es. revert seen t fs. induction es as [|e es IH]; intros seen t fs; [apply keeps_refl|]. cbn [generateEntities].
  destruct (vueFilePath webDir e) as [path|err] eqn:Ev; [|apply keeps_refl]. case_bool_decide; [apply IH|].
  pose proof (generateOne_keeps check path e t fs (fun q => exists ks, ks <> [] /\ rootedClean q (ep ++ ks)) (vueFilePath_below _ _ _ _ Hw Ev)) as H1.
  destruct (generateOne check path e t fs) as [fs1 [t1|err]]; [|exact H1]. eapply keeps_trans; [exact H1|apply IH].
Qed.

(** Checking writes nothing. *)
Lemma check_writes_nothing (es : list manifestEntity) (webDir : string) (seen : gset string) (t : tally) (fs : FS) :
  fst (generateEntities es webDir true seen t fs) = fs.
Proof.
  revert seen t. induction es as [|e es IH]; intros seen t; [done|]. cbn [generateEntities].
  destruct (vueFilePath webDir e); [|done]. case_bool_decide; [apply IH|]. unfold generateOne. destruct (Stat _ fs) as [|[|]]; [apply IH|done|apply IH].
Qed.

End Generate.

(** ** A run *)

(** Files by path; no call fails. *)
#[export] Instance demoFS : FileSystem (gmap string string) := {|
  content := fun fs path => fs !! path;
  Stat := fun path fs => match fs !! path with Some _ => Ok tt | None => Err None end;
  MkdirAll := fun _ fs => (fs, None);
  WriteFile := fun path c fs => (<[path := c]> fs, None);
|}.

#[export] Instance demoFS_laws : FileSystemLaws (gmap string string).
Proof.
  split.
  - intros path fs. cbn. by destruct (fs !! path).
  - done.
  - intros path c fs path' Hne. cbn. by rewrite lookup_insert_ne.
  - intros path c fs fs' [= <-]. cbn. by rewrite lookup_insert_eq.
Qed.

Definition demoEntities : list manifestEntity :=
  let entity name table module singular path :=
    mkEntity name EmptyString table module singular EmptyString path EmptyString EmptyString EmptyString [] EmptyString false in
  [entity "User" "sys_users" "System" "sys_user" EmptyString; entity "Evil" "t" "m" EmptyString "@/views/../../etc/x"].

Example pages_never_overwritten_witness :
  rootedClean "/web" ["web"] /\
  let '(fs, r) := generateVueFiles [demoEntities] "/web" false {[ "/web/a" := "mine" ]} in
  (exists page, fs !! "/web/system/sys_user/Index.vue" = Some page /\ Contains page "defineOptions({ name: " = true) /\ fs !! "/web/a" = Some "mine" /\ is_ok r = false.
Proof.
  assert (rootedClean "/web" ["web"]) as Hw by (split; [done|]; by repeat constructor).
  split; [exact Hw|]. split; [eexists; vm_compute; split; reflexivity|]. split; [|vm_compute; reflexivity].
  destruct (pages_never_overwritten [demoEntities] "/web" ["web"] false ({[ "/web/a" := "mine" ]} : gmap string string) Hw "/web/a")
    as [E|[E _]]; [exact E|discriminate E].
Defined.

(** A page that is there stays as it is, and a model may ask for none. *)
Lemma model_page_kept_witness :
  registerModelVue EmptyString (Some (RegisterModel.mkOptions (None : option unit) None (Some EmptyString))) "/views"
    (Some (mkNaming "shop" "orders" "order" "orders")) {[ "/views/shop/order/Index.vue" := "mine" ]}
  = {[ "/views/shop/order/Index.vue" := "mine" ]}.
Proof.
  apply (model_page_kept EmptyString (Some (RegisterModel.mkOptions (None : option unit) None (Some EmptyString))) "/views"
           (Some (mkNaming "shop" "orders" "order" "orders")) {[ "/views/shop/order/Index.vue" := "mine" ]}
         : _ /\ _) with (RegisterModel.mkOptions (None : option unit) None (Some EmptyString)); reflexivity.
Defined.
