(* ===== verification/WireGen.v ===== *)
(** [cmd/aeus/gen.go]: the Go file that wires the generated resources into the admin
    server: its imports, its registrations, and the manifests it is made of. *)

From Stdlib Require Import ZArith Lia String Ascii List Bool.
From stdpp Require Import base tactics list gmap strings pretty sorting.
From S2P Require Import Prelude GoStrings Utf8 GoPath Errs Manifest VueGen.

Local Open Scope string_scope.
Local Open Scope list_scope.
Local Open Scope aeus_scope.

(** ** Names of packages *)

(** [unicode.IsLetter] and [unicode.IsDigit] of runes that are not ASCII. *)
Class Unicode : Type := { wideLetter : string -> bool; wideDigit : string -> bool }.

Definition asciiLetter (a : ascii) : bool := is_upper a || is_lower a.

Section Alias.

Context {HU : Unicode}.

(** A rune, the bytes of it; a byte that is not of a rune is no letter. *)
Definition keepsRune (first : bool) (r : string) : bool :=
  match r with
  | String a EmptyString => asciiLetter a || Ascii.eqb a "_" || (negb first && is_digit a)
  | _ => wideLetter r || (negb first && wideDigit r)
  end.

(** The loop over the runes of a string; the fuel is its length. *)
Fixpoint aliasRunes (fuel : nat) (first : bool) (s : string) : string :=
  match fuel, s with
  | S fuel, String _ rest =>
      match runeLen s with
      | O => aliasRunes fuel false rest
      | n => (if keepsRune first (sliceTo n s) then sliceTo n s else EmptyString) +:+ aliasRunes fuel false (sliceFrom n s)
      end
  | _, _ => EmptyString
  end.

Definition aliasName (s : string) : string :=
  let s := TrimSpace s in
  if String.eqb s EmptyString then "pkg"
  else
    let b := aliasRunes (String.length s) true s in
    if String.eqb b EmptyString then "pkg" else b.

(** ** What is registered *)

Record genModule : Type := mkGenModule { gmAlias : string; gmVarName : string; gmSpec : manifestModule }.
Record genEntity : Type := mkGenEntity { geAlias : string; geModel : string; geName : string }.
Record genPolicy : Type := mkGenPolicy { gpAlias : string; gpName : string; gpGoName : string }.

(** The aliases of the packages, and the names that are taken. *)
Definition assignAlias (acc : gmap string string * gset string) (m : resourceManifest) : gmap string string * gset string :=
  let '(aliases, used) := acc in
  match aliases !! rmGoPackage m with
  | Some _ => acc
  | None =>
      let alias := freshName (aliasName (rmGoPackageName m)) used in
      (<[rmGoPackage m := alias]> aliases, {[alias]} ∪ used)
  end.

Definition reservedAliases : gset string := {["admin"; "gorm"; "fmt"]}.

Definition assignAliases (ms : list resourceManifest) : gmap string string :=
  fst (fold_left assignAlias ms (∅, reservedAliases)).

(** What the loop over the manifests collects. *)
Record collected : Type := mkCollected {
  cModules : list genModule; cEntities : list genEntity; cPolicies : list genPolicy;
  cPackages : gset string; seenModule : gset string; seenEntity : gset string; seenPolicy : gset string;
}.

Definition moduleKey (m : manifestModule) : string := if String.eqb (modComponent m) EmptyString then modName m else modComponent m.

Definition collectModule (alias pkg : string) (c : collected) (m : option manifestModule) : collected :=
  match m with
  | None => c
  | Some spec =>
      if bool_decide (moduleKey spec ∈ seenModule c) then c
      else
        let varName := if String.eqb (modVarName spec) EmptyString then "Module" else modVarName spec in
        mkCollected (cModules c ++ [mkGenModule alias varName spec]) (cEntities c) (cPolicies c) ({[pkg]} ∪ cPackages c)
                    ({[moduleKey spec]} ∪ seenModule c) (seenEntity c) (seenPolicy c)
  end.

Definition collectEntity (alias pkg : string) (c : collected) (e : manifestEntity) : collected :=
  let key := pkg +:+ "." +:+ eModelName e in
  if bool_decide (key ∈ seenEntity c) then c
  else mkCollected (cModules c) (cEntities c ++ [mkGenEntity alias (eModelName e) (eGoName e)]) (cPolicies c) ({[pkg]} ∪ cPackages c)
                   (seenModule c) ({[key]} ∪ seenEntity c) (seenPolicy c).

Definition collectPolicy (alias pkg : string) (c : collected) (s : manifestService) : collected :=
  if String.eqb (svPoliciesVar s) EmptyString then c
  else
    let key := pkg +:+ "." +:+ svPoliciesVar s in
    if bool_decide (key ∈ seenPolicy c) then c
    else mkCollected (cModules c) (cEntities c) (cPolicies c ++ [mkGenPolicy alias (svPoliciesVar s) (svGoName s)]) ({[pkg]} ∪ cPackages c)
                     (seenModule c) (seenEntity c) ({[key]} ∪ seenPolicy c).

Definition collectManifest (aliases : gmap string string) (c : collected) (m : resourceManifest) : collected :=
  let pkg := rmGoPackage m in
  let alias := default EmptyString (aliases !! pkg) in
  let c := collectModule alias pkg c (rmModule m) in
  let c := fold_left (collectEntity alias pkg) (rmEntities m) c in
  fold_left (collectPolicy alias pkg) (rmServices m) c.

Definition collect (ms : list resourceManifest) : collected :=
  fold_left (collectManifest (assignAliases ms)) ms (mkCollected [] [] [] ∅ ∅ ∅ ∅).

(** The registrations, in the order they are written. *)
Definition sortedModules (c : collected) : list genModule := sortSlice (fun g => moduleKey (gmSpec g)) (cModules c).
Definition sortedEntities (c : collected) : list genEntity := sortSlice (fun g => geAlias g +:+ "." +:+ geModel g) (cEntities c).
Definition sortedPolicies (c : collected) : list genPolicy := sortSlice (fun g => gpAlias g +:+ "." +:+ gpName g) (cPolicies c).

Definition hasOps (c : collected) : bool :=
  negb (length (cModules c) + length (cEntities c) + length (cPolicies c) =? 0)%nat.

(** The imports of packages of the project: an alias and a path. *)
Definition packageImports (ms : list resourceManifest) : list (string * string) :=
  map (fun path => (default EmptyString (assignAliases ms !! path), path)) (sortedElements (cPackages (collect ms))).

(** The aliases the code of [Register] and [Migrate] refers to. *)
Definition usedAliases (c : collected) : list string :=
  map gmAlias (sortedModules c) ++ map geAlias (sortedEntities c) ++ map gpAlias (sortedPolicies c).

(** ** The text *)

Definition tab : string := String "009" EmptyString.

Definition failureLines (what : string) : list string :=
  [tab +:+ tab +:+ "return fmt.Errorf(" +:+ quote what +:+ ", err)"; tab +:+ "}"].

Definition moduleLines (m : genModule) : list string :=
  (tab +:+ "if err := admin.EnsureModuleMenu(db, " +:+ gmAlias m +:+ "." +:+ gmVarName m +:+ "); err != nil {")
  :: failureLines ("ensure module " +:+ modName (gmSpec m) +:+ ": %w").

Definition entityLines (e : genEntity) : list string :=
  (tab +:+ "if err := s.RegisterModel(&" +:+ geAlias e +:+ "." +:+ geModel e +:+ "{}); err != nil {")
  :: failureLines ("register " +:+ geName e +:+ ": %w").

Definition policyLines (p : genPolicy) : list string :=
  (tab +:+ "if err := admin.EnsureEndpointPermissions(db, " +:+ gpAlias p +:+ "." +:+ gpName p +:+ "...); err != nil {")
  :: failureLines ("register policies for " +:+ gpGoName p +:+ ": %w").

Definition migrateLine (entities : list genEntity) : string :=
  match entities with
  | [] => tab +:+ "return nil"
  | _ => tab +:+ "return db.AutoMigrate(" +:+ Join (map (fun e => "&" +:+ geAlias e +:+ "." +:+ geModel e +:+ "{}") entities) ", " +:+ ")"
  end.

Definition generatedLines (pkg : string) (ms : list resourceManifest) : list string :=
  let c := collect ms in
  ["// Code generated by aeus gen. DO NOT EDIT."; EmptyString; "package " +:+ pkg; EmptyString; "import ("]
  ++ (if hasOps c then [tab +:+ quote "fmt"] else [])
  ++ [tab +:+ quote "github.com/sjlit/aeus/admin"; tab +:+ quote "gorm.io/gorm"]
  ++ map (fun i => tab +:+ fst i +:+ " " +:+ quote (snd i)) (packageImports ms)
  ++ [")"; EmptyString;
      "// Register wires proto-generated business models, module menus and";
      "// route permissions into the admin server. It is called after Setup.";
      "func Register(s *admin.Server, db *gorm.DB) error {"]
  ++ flat_map moduleLines (sortedModules c) ++ flat_map entityLines (sortedEntities c) ++ flat_map policyLines (sortedPolicies c)
  ++ [tab +:+ "return nil"; "}"; EmptyString;
      "// Migrate creates the tables for proto-generated entities.";
      "func Migrate(db *gorm.DB) error {"; migrateLine (sortedEntities c); "}"].

Definition renderGenerated (pkg : string) (ms : list resourceManifest) : string := Join (generatedLines pkg ms) nl +:+ nl.

(** ** The aliases *)

Record assigned (aliases : gmap string string) (used : gset string) : Prop := {
  as_used : forall p a, aliases !! p = Some a -> a ∈ used /\ a ∉ reservedAliases;
  as_inj : forall p q a, aliases !! p = Some a -> aliases !! q = Some a -> p = q;
  as_reserved : reservedAliases ⊆ used;
}.

Lemma assignAlias_assigned (aliases : gmap string string) (used : gset string) (m : resourceManifest) :
  assigned aliases used -> assigned (fst (assignAlias (aliases, used) m)) (snd (assignAlias (aliases, used) m)).
Proof.
  intros [H1 H2 H3]. cbn [assignAlias]. destruct (aliases !! rmGoPackage m) eqn:E; [by split|]. cbn [fst snd].
  pose proof (freshName_fresh (aliasName (rmGoPackageName m)) used) as Hf. set (alias := freshName _ used) in *. split.
  - intros p a. destruct (decide (rmGoPackage m = p)) as [<-|Hne].
    + rewrite lookup_insert_eq. intros [= <-]. split; set_solver.
    + rewrite lookup_insert_ne by done. intros Ha%H1. set_solver.
  - intros p q a. destruct (decide (rmGoPackage m = p)) as [<-|Hp], (decide (rmGoPackage m = q)) as [<-|Hq];
      rewrite ?lookup_insert_eq, ?lookup_insert_ne by done; [done| | |apply H2].
    + intros [= <-] [Hu _]%H1. by destruct Hf.
    + intros [Hu _]%H1 [= <-]. by destruct Hf.
  - set_solver.
Qed.

Lemma assignAlias_keeps (acc : gmap string string * gset string) (m : resourceManifest) (p : string) :
  is_Some (fst acc !! p) \/ p = rmGoPackage m -> is_Some (fst (assignAlias acc m) !! p).
Proof.
  destruct acc as [aliases used]. cbn [assignAlias fst]. destruct (aliases !! rmGoPackage m) eqn:E; cbn [fst].
  - intros [?| ->]; [done|by eexists].
  - rewrite lookup_insert. case_decide; [by eexists|]. intros [?| ->]; done.
Qed.

Lemma assignAliases_spec (ms : list resourceManifest) :
  (exists used, assigned (assignAliases ms) used) /\ forall m, In m ms -> is_Some (assignAliases ms !! rmGoPackage m).
Proof.
  unfold assignAliases.
  assert (forall acc, assigned (fst acc) (snd acc) ->
    (exists used, assigned (fst (fold_left assignAlias ms acc)) used) /\
    (forall p, is_Some (fst acc !! p) \/ (exists m, In m ms /\ p = rmGoPackage m) -> is_Some (fst (fold_left assignAlias ms acc) !! p))) as H.
  { induction ms as [|m ms IH]; intros [aliases used] Ha; cbn [fold_left fst snd] in *.
    - split; [by exists used|]. intros p [?|(m & [] & _)]. done.
    - destruct (IH (assignAlias (aliases, used) m)) as [A B]; [by apply assignAlias_assigned|]. split; [done|].
      intros p Hp. apply B. destruct Hp as [Hp|(m' & [<-|Hm] & ->)]; [left; apply assignAlias_keeps; by left|left; apply assignAlias_keeps; by right|].
      right. by exists m'. }
  destruct (H (∅, reservedAliases)) as [A B]; [by split; cbn; [intros ?? ?|intros ??? ?|]|]. split; [done|].
  intros m Hm. apply B. right. by exists m.
Qed.

(** An alias is the name of a package of a manifest, or that name with a number. *)
Lemma assignAliases_shape (ms : list resourceManifest) (p a : string) :
  assignAliases ms !! p = Some a ->
  exists m, In m ms /\ (a = aliasName (rmGoPackageName m) \/ exists n, a = numbered (aliasName (rmGoPackageName m)) n).
Proof.
  unfold assignAliases.
  assert (forall l acc, fst (fold_left assignAlias l acc) !! p = Some a -> fst acc !! p = Some a
    \/ exists m, In m l /\ (a = aliasName (rmGoPackageName m) \/ exists n, a = numbered (aliasName (rmGoPackageName m)) n)) as Hall.
  { induction l as [|m l IH]; intros acc; cbn [fold_left]; [by left|]. intros [Hacc|(m' & Hm & Ha)]%IH; [|right; exists m'; split; [by right|done]].
    destruct acc as [aliases used]. cbn [assignAlias fst] in Hacc. destruct (aliases !! rmGoPackage m); [by left|]. cbn [fst] in Hacc.
    destruct (decide (rmGoPackage m = p)) as [<-|Hne]; [|rewrite lookup_insert_ne in Hacc by done; by left].
    rewrite lookup_insert_eq in Hacc. injection Hacc as <-. right. exists m. split; [by left|].
    destruct (freshName_shape (aliasName (rmGoPackageName m)) used) as [Hs|(n & _ & Hs)]; [by left|right; by exists n]. }
  intros [Hx|Hx]%Hall; [unfold fst in Hx; by rewrite lookup_empty in Hx|done].
Qed.

(** ** What is collected *)

Definition opAliases (c : collected) : list string := map gmAlias (cModules c) ++ map geAlias (cEntities c) ++ map gpAlias (cPolicies c).

Definition adds (alias pkg : string) (c c' : collected) : Prop :=
  cPackages c' = {[pkg]} ∪ cPackages c /\ forall a, In a (opAliases c') <-> In a (opAliases c) \/ a = alias.

Ltac adds_step :=
  unfold adds, opAliases; cbn [cModules cEntities cPolicies cPackages];
  rewrite ?map_app; cbn [map gmAlias geAlias gpAlias]; split; [done|];
  let a := fresh "a" in intros a; rewrite !in_app_iff; cbn [In]; intuition congruence.

Lemma collectModule_adds (alias pkg : string) (c : collected) (m : option manifestModule) :
  collectModule alias pkg c m = c \/ adds alias pkg c (collectModule alias pkg c m).
Proof. destruct m as [spec|]; cbn [collectModule]; [|by left]. case_bool_decide; [by left|right; adds_step]. Qed.

Lemma collectEntity_adds (alias pkg : string) (c : collected) (e : manifestEntity) :
  collectEntity alias pkg c e = c \/ adds alias pkg c (collectEntity alias pkg c e).
Proof. unfold collectEntity. case_bool_decide; [by left|right; adds_step]. Qed.

Lemma collectPolicy_adds (alias pkg : string) (c : collected) (s : manifestService) :
  collectPolicy alias pkg c s = c \/ adds alias pkg c (collectPolicy alias pkg c s).
Proof. unfold collectPolicy. destruct (String.eqb _ _); [by left|]. case_bool_decide; [by left|right; adds_step]. Qed.

(** Every alias in use belongs to a package that is imported, and the other way round. *)
Definition balanced (aliases : gmap string string) (P : string -> Prop) (c : collected) : Prop :=
  (forall a, In a (opAliases c) -> exists p, p ∈ cPackages c /\ default EmptyString (aliases !! p) = a) /\
  (forall p, p ∈ cPackages c -> P p /\ In (default EmptyString (aliases !! p)) (opAliases c)).

Lemma balanced_adds (aliases : gmap string string) (P : string -> Prop) (pkg : string) (c c' : collected) :
  P pkg -> balanced aliases P c -> c' = c \/ adds (default EmptyString (aliases !! pkg)) pkg c c' -> balanced aliases P c'.
Proof.
  intros HP [A B] [->|[Hp Ha]]; [by split|]. split.
  - intros a [Hin| ->]%Ha; [destruct (A a Hin) as (p & ? & ?); exists p; rewrite Hp; set_solver|]. exists pkg. rewrite Hp. set_solver.
  - intros p. rewrite Hp, elem_of_union, elem_of_singleton, Ha. intros [->|Hin]; [split; [done|by right]|]. destruct (B p Hin). split; [done|by left].
Qed.

Lemma fold_balanced {A : Type} (f : collected -> A -> collected) (aliases : gmap string string) (P : string -> Prop) (pkg : string) :
  P pkg -> (forall c x, f c x = c \/ adds (default EmptyString (aliases !! pkg)) pkg c (f c x)) ->
  forall l c, balanced aliases P c -> balanced aliases P (fold_left f l c).
Proof. intros HP Hf l. induction l as [|x l IH]; intros c Hc; [done|]. cbn [fold_left]. apply IH. by apply (balanced_adds aliases P pkg c). Qed.

Lemma collect_balanced (ms : list resourceManifest) :
  balanced (assignAliases ms) (fun p => exists m, In m ms /\ p = rmGoPackage m) (collect ms).
Proof.
  unfold collect. generalize (assignAliases ms) as aliases. intros aliases. set (P := fun p => _).
  assert (forall l c, (forall m, In m l -> In m ms) -> balanced aliases P c -> balanced aliases P (fold_left (collectManifest aliases) l c)) as H.
  { induction l as [|m l IH]; intros c Hl Hc; [done|]. cbn [fold_left]. apply IH; [intros x Hx; apply Hl; by right|].
    assert (P (rmGoPackage m)) as Hm by (exists m; split; [apply Hl; by left|done]). unfold collectManifest.
    apply (fold_balanced _ aliases P (rmGoPackage m) Hm); [intros; apply collectPolicy_adds|].
    apply (fold_balanced _ aliases P (rmGoPackage m) Hm); [intros; apply collectEntity_adds|].
    eapply (balanced_adds aliases P (rmGoPackage m)); [done|exact Hc|apply collectModule_adds]. }
  apply H; [done|]. split; cbn; [done|set_solver].
Qed.

Lemma usedAliases_In (c : collected) (a : string) : In a (usedAliases c) <-> In a (opAliases c).
Proof.
  unfold usedAliases, opAliases, sortedModules, sortedEntities, sortedPolicies. rewrite !in_app_iff, !in_map_iff.
  repeat setoid_rewrite sortSlice_In. done.
Qed.

(** ** Each resource once *)

Definition keyOf (pkg name : string) : string := pkg +:+ "." +:+ name.

Lemma keyOf_inj (p q m n : string) : byte_free "." m = true -> byte_free "." n = true -> keyOf p m = keyOf q n -> p = q /\ m = n.
Proof.
  intros Hm Hn H. apply (f_equal (fun s => cutLastByte s ".")) in H. cbv beta in H. unfold keyOf in H.
  change ("." +:+ m) with (String "." m) in H. change ("." +:+ n) with (String "." n) in H.
  rewrite !(cutLastByte_app _ _ ".") in H by done. by injection H.
Qed.

(** What is collected of one kind, entities or policies: an alias and a name each. *)
Section Kind.

Context (aliases : gmap string string).
Context (items : collected -> list (string * string)) (seen : collected -> gset string).

Definition same (c c' : collected) : Prop := items c' = items c /\ seen c' = seen c.

Definition keyedStep (pkg name : string) (c c' : collected) : Prop :=
  if bool_decide (keyOf pkg name ∈ seen c) then same c c'
  else items c' = items c ++ [(default EmptyString (aliases !! pkg), name)] /\ seen c' = {[keyOf pkg name]} ∪ seen c.

Record keyed (c : collected) : Prop := {
  kd_nodup : NoDup (items c);
  kd_dot : forall a n, In (a, n) (items c) -> byte_free "." n = true;
  kd_in : forall p a n, aliases !! p = Some a -> In (a, n) (items c) -> keyOf p n ∈ seen c;
  kd_out : forall k, k ∈ seen c -> exists p a n, k = keyOf p n /\ aliases !! p = Some a /\ In (a, n) (items c);
}.

Hypothesis aliases_inj : forall p q a, aliases !! p = Some a -> aliases !! q = Some a -> p = q.

Lemma keyed_same (c c' : collected) : same c c' -> keyed c -> keyed c'.
Proof. intros [Hi Hs] [A B C D]. split; rewrite ?Hi, ?Hs; done. Qed.

Lemma keyedStep_keyed (pkg name : string) (c c' : collected) :
  is_Some (aliases !! pkg) -> byte_free "." name = true -> keyedStep pkg name c c' -> keyed c -> keyed c' /\ keyOf pkg name ∈ seen c' /\ seen c ⊆ seen c'.
Proof.
  intros [alias Ha] Hn Hs [A B C D]. unfold keyedStep in Hs. case_bool_decide as Hin.
  - split; [by apply (keyed_same c c' Hs)|]. destruct Hs as [_ ->]. done.
  - destruct Hs as [Hi Hs]. rewrite Ha in Hi. cbn [default] in Hi. split; [|rewrite Hs; set_solver]. split; rewrite ?Hi, ?Hs.
    + apply NoDup_app. split; [done|]. split; [|apply NoDup_singleton]. intros x Hx ->%list_elem_of_singleton.
      apply Hin. apply (C pkg alias name Ha). by apply list_elem_of_In.
    + intros a n [Hx|[[= <- <-]|[]]]%in_app_iff; [by apply (B a n)|done].
    + intros p a n Hp [Hx|[[= <- <-]|[]]]%in_app_iff; [apply elem_of_union_r; by apply (C p a n)|].
      rewrite (aliases_inj p pkg alias Hp Ha). set_solver.
    + intros k [->%elem_of_singleton|Hk]%elem_of_union.
      * exists pkg, alias, name. split; [done|]. split; [done|]. apply in_app_iff. right. by left.
      * destruct (D k Hk) as (p & a & n & ? & ? & ?). exists p, a, n. split; [done|]. split; [done|]. apply in_app_iff. by left.
Qed.

(** A key that was seen is registered. *)
Lemma keyed_registered (pkg name : string) (c : collected) :
  byte_free "." name = true -> keyed c -> keyOf pkg name ∈ seen c -> exists a, aliases !! pkg = Some a /\ In (a, name) (items c).
Proof.
  intros Hn [A B C D] (p & a & n & Hk & Ha & Hin)%D. apply keyOf_inj in Hk as [-> ->]; [by exists a|done|by apply (B a n)].
Qed.

Lemma fold_keyed {A : Type} (f : collected -> A -> collected) (name : A -> option string) (pkg : string) :
  is_Some (aliases !! pkg) ->
  (forall c x, match name x with Some n => keyedStep pkg n c (f c x) | None => same c (f c x) end) ->
  forall l c, (forall x n, In x l -> name x = Some n -> byte_free "." n = true) -> keyed c ->
  keyed (fold_left f l c) /\ seen c ⊆ seen (fold_left f l c) /\
  forall x n, In x l -> name x = Some n -> keyOf pkg n ∈ seen (fold_left f l c).
Proof.
  intros Hp Hf l. induction l as [|x l IH]; intros c Hl Hc; cbn [fold_left]; [by split_and!|].
  assert (keyed (f c x) /\ seen c ⊆ seen (f c x) /\ forall n, name x = Some n -> keyOf pkg n ∈ seen (f c x)) as (H1 & H2 & H3).
  { pose proof (Hf c x) as Hx. destruct (name x) as [n|] eqn:En.
    - destruct (keyedStep_keyed pkg n c (f c x)) as (P & Q & R); [done|by apply (Hl x); [left|]|done|done|]. split_and!; [done|done|]. by intros ? [= <-].
    - split; [by apply (keyed_same c)|]. destruct Hx as [_ ->]. done. }
  destruct (IH (f c x)) as (A1 & A2 & A3); [intros y n Hy; apply Hl; by right|done|]. split; [done|]. split; [set_solver|].
  intros y n [<-|Hy] Hn; [apply A2; by apply H3|by apply (A3 y)].
Qed.

End Kind.

Definition entityItems (c : collected) : list (string * string) := map (fun g => (geAlias g, geModel g)) (cEntities c).
Definition policyItems (c : collected) : list (string * string) := map (fun g => (gpAlias g, gpName g)) (cPolicies c).
Definition policyName (s : manifestService) : option string := if String.eqb (svPoliciesVar s) EmptyString then None else Some (svPoliciesVar s).

(** The names of Go have no dots. *)
Definition plainNames (m : resourceManifest) : Prop :=
  (forall e, In e (rmEntities m) -> byte_free "." (eModelName e) = true) /\
  (forall s, In s (rmServices m) -> byte_free "." (svPoliciesVar s) = true).

Lemma collectEntity_step (aliases : gmap string string) (pkg : string) (c : collected) (e : manifestEntity) :
  let c' := collectEntity (default EmptyString (aliases !! pkg)) pkg c e in
  keyedStep aliases entityItems seenEntity pkg (eModelName e) c c' /\ same policyItems seenPolicy c c'.
Proof.
  unfold collectEntity, keyedStep. fold (keyOf pkg (eModelName e)). case_bool_decide; [done|]. split; [|done].
  unfold entityItems. cbn [cEntities seenEntity]. by rewrite map_app.
Qed.

Lemma collectPolicy_step (aliases : gmap string string) (pkg : string) (c : collected) (s : manifestService) :
  let c' := collectPolicy (default EmptyString (aliases !! pkg)) pkg c s in
  match policyName s with Some n => keyedStep aliases policyItems seenPolicy pkg n c c' | None => same policyItems seenPolicy c c' end
  /\ same entityItems seenEntity c c'.
Proof.
  unfold collectPolicy, policyName. destruct (String.eqb _ _); [done|]. unfold keyedStep. fold (keyOf pkg (svPoliciesVar s)).
  case_bool_decide; [done|]. split; [|done]. unfold policyItems. cbn [cPolicies seenPolicy]. by rewrite map_app.
Qed.

Lemma collectModule_same (alias pkg : string) (c : collected) (m : option manifestModule) :
  same entityItems seenEntity c (collectModule alias pkg c m) /\ same policyItems seenPolicy c (collectModule alias pkg c m).
Proof. destruct m; cbn [collectModule]; [|done]. by case_bool_decide. Qed.

Lemma fold_same {A : Type} (items : collected -> list (string * string)) (seen : collected -> gset string) (f : collected -> A -> collected) :
  (forall c x, same items seen c (f c x)) -> forall l c, same items seen c (fold_left f l c).
Proof. intros Hf l. induction l as [|x l IH]; intros c; [done|]. cbn [fold_left]. destruct (IH (f c x)) as [A1 A2], (Hf c x) as [B1 B2]. split; congruence. Qed.

(** The modules, by their component. *)
Definition moduleKeys (c : collected) : list string := map (fun g => moduleKey (gmSpec g)) (cModules c).

Definition keyedModules (c : collected) : Prop := NoDup (moduleKeys c) /\ forall k, k ∈ seenModule c <-> In k (moduleKeys c).

Lemma collectModule_keyed (alias pkg : string) (c : collected) (m : option manifestModule) :
  keyedModules c -> let c' := collectModule alias pkg c m in
  keyedModules c' /\ seenModule c ⊆ seenModule c' /\ match m with Some spec => moduleKey spec ∈ seenModule c' | None => True end.
Proof.
  intros [H1 H2]. destruct m as [spec|]; cbn [collectModule]; [|done]. case_bool_decide as Hin; [done|].
  unfold keyedModules, moduleKeys in *. cbn [cModules seenModule]. rewrite map_app. cbn [map gmSpec]. split_and!; [|intros k|set_solver|set_solver].
  - apply NoDup_app. split; [done|]. split; [|apply NoDup_singleton]. intros x Hx ->%list_elem_of_singleton. apply Hin, H2. by apply list_elem_of_In.
  - rewrite elem_of_union, elem_of_singleton, in_app_iff, H2. cbn [In]. intuition congruence.
Qed.

Lemma fold_modules {A : Type} (f : collected -> A -> collected) :
  (forall c x, cModules (f c x) = cModules c /\ seenModule (f c x) = seenModule c) ->
  forall l c, cModules (fold_left f l c) = cModules c /\ seenModule (fold_left f l c) = seenModule c.
Proof. intros Hf l. induction l as [|x l IH]; intros c; [done|]. cbn [fold_left]. destruct (IH (f c x)) as [A1 A2], (Hf c x) as [B1 B2]. split; congruence. Qed.

Lemma collectEntity_modules (alias pkg : string) (c : collected) (e : manifestEntity) :
  cModules (collectEntity alias pkg c e) = cModules c /\ seenModule (collectEntity alias pkg c e) = seenModule c.
Proof. unfold collectEntity. by case_bool_decide. Qed.

Lemma collectPolicy_modules (alias pkg : string) (c : collected) (s : manifestService) :
  cModules (collectPolicy alias pkg c s) = cModules c /\ seenModule (collectPolicy alias pkg c s) = seenModule c.
Proof. unfold collectPolicy. destruct (String.eqb _ _); [done|]. by case_bool_decide. Qed.

(** Everything of a manifest that was read is registered. *)
Definition covers (aliases : gmap string string) (c : collected) (m : resourceManifest) : Prop :=
  (forall e, In e (rmEntities m) -> keyOf (rmGoPackage m) (eModelName e) ∈ seenEntity c) /\
  (forall s, In s (rmServices m) -> svPoliciesVar s <> EmptyString -> keyOf (rmGoPackage m) (svPoliciesVar s) ∈ seenPolicy c) /\
  (forall spec, rmModule m = Some spec -> moduleKey spec ∈ seenModule c).

Record collectedWell (aliases : gmap string string) (c : collected) : Prop := {
  cw_entities : keyed aliases entityItems seenEntity c;
  cw_policies : keyed aliases policyItems seenPolicy c;
  cw_modules : keyedModules c;
}.

Definition seenMore (c c' : collected) : Prop :=
  seenEntity c ⊆ seenEntity c' /\ seenPolicy c ⊆ seenPolicy c' /\ seenModule c ⊆ seenModule c'.

Lemma covers_more (aliases : gmap string string) (c c' : collected) (m : resourceManifest) : seenMore c c' -> covers aliases c m -> covers aliases c' m.
Proof. intros (H1 & H2 & H3) (A & B & D). split_and!; [intros e He; apply H1; auto|intros s Hs Hn; apply H2; auto|intros s Hs; apply H3; auto]. Qed.

Lemma collectManifest_well (aliases : gmap string string) (c : collected) (m : resourceManifest) :
  (forall p q a, aliases !! p = Some a -> aliases !! q = Some a -> p = q) -> is_Some (aliases !! rmGoPackage m) -> plainNames m ->
  collectedWell aliases c ->
  let c' := collectManifest aliases c m in collectedWell aliases c' /\ seenMore c c' /\ covers aliases c' m.
Proof.
  intros Hinj Ha [Hne Hns] [Ce Cp Cm]. unfold collectManifest. cbv zeta. set (pkg := rmGoPackage m) in *.
  set (c1 := collectModule _ pkg c (rmModule m)). set (c2 := fold_left _ (rmEntities m) c1). set (c3 := fold_left _ (rmServices m) c2).
  destruct (collectModule_same (default EmptyString (aliases !! pkg)) pkg c (rmModule m)) as [S1 S2]. fold c1 in S1, S2.
  destruct (collectModule_keyed (default EmptyString (aliases !! pkg)) pkg c (rmModule m) Cm) as (M1 & M2 & M3). fold c1 in M1, M2, M3.
  destruct (fold_keyed aliases entityItems seenEntity Hinj (collectEntity (default EmptyString (aliases !! pkg)) pkg) (fun e => Some (eModelName e)) pkg Ha)
    with (l := rmEntities m) (c := c1) as (E1 & E2 & E3); [intros; apply collectEntity_step|intros e n He [= <-]; auto|by apply (keyed_same _ _ _ c)|].
  destruct (fold_same policyItems seenPolicy (collectEntity (default EmptyString (aliases !! pkg)) pkg)) with (l := rmEntities m) (c := c1) as [P1 P2];
    [intros; apply (collectEntity_step aliases)|].
  destruct (fold_modules (collectEntity (default EmptyString (aliases !! pkg)) pkg)) with (l := rmEntities m) (c := c1) as [Q1 Q2];
    [intros; apply collectEntity_modules|]. fold c2 in E1, E2, E3, P1, P2, Q1, Q2.
  destruct (fold_keyed aliases policyItems seenPolicy Hinj (collectPolicy (default EmptyString (aliases !! pkg)) pkg) policyName pkg Ha)
    with (l := rmServices m) (c := c2) as (F1 & F2 & F3);
    [intros; apply (collectPolicy_step aliases)|unfold policyName; intros s n Hs; destruct (String.eqb _ _); [done|]; intros [= <-]; auto
    |apply (keyed_same _ _ _ c1); [done|]; by apply (keyed_same _ _ _ c)|].
  destruct (fold_same entityItems seenEntity (collectPolicy (default EmptyString (aliases !! pkg)) pkg)) with (l := rmServices m) (c := c2) as [G1 G2];
    [intros; apply (collectPolicy_step aliases)|].
  destruct (fold_modules (collectPolicy (default EmptyString (aliases !! pkg)) pkg)) with (l := rmServices m) (c := c2) as [R1 R2];
    [intros; apply collectPolicy_modules|]. fold c3 in F1, F2, F3, G1, G2, R1, R2.
  destruct S1 as [S11 S12], S2 as [S21 S22]. split; [|split].
  - split; [by apply (keyed_same _ _ _ c2)|done|]. unfold keyedModules, moduleKeys in *. by rewrite R1, R2, Q1, Q2.
  - unfold seenMore. rewrite G2, R2, Q2. rewrite <- S12, <- S22, <- P2. split_and!; [set_solver|set_solver|done].
  - split_and!.
    + intros e He. rewrite G2. by apply (E3 e).
    + intros s Hs Hn. apply (F3 s); [done|]. unfold policyName. by destruct (String.eqb_spec (svPoliciesVar s) EmptyString).
    + intros spec Hspec. rewrite R2, Q2. by rewrite Hspec in M3.
Qed.

Lemma collect_well (ms : list resourceManifest) :
  Forall plainNames ms -> collectedWell (assignAliases ms) (collect ms) /\ Forall (covers (assignAliases ms) (collect ms)) ms.
Proof.
  intros Hms. destruct (assignAliases_spec ms) as [[used Hu] Ha]. pose proof (as_inj _ _ Hu) as Hinj. unfold collect.
  revert Ha Hinj. generalize (assignAliases ms) as aliases. intros aliases Ha Hinj.
  assert (forall l c, Forall plainNames l -> (forall m, In m l -> is_Some (aliases !! rmGoPackage m)) -> collectedWell aliases c ->
    let c' := fold_left (collectManifest aliases) l c in collectedWell aliases c' /\ seenMore c c' /\ Forall (covers aliases c') l) as H.
  { induction l as [|m l IH]; intros c Hl Hal Hc; cbn [fold_left]; [split_and!; done|]. inversion Hl; subst.
    destruct (collectManifest_well aliases c m Hinj) as (A1 & A2 & A3); [apply Hal; by left|done|done|].
    destruct (IH (collectManifest aliases c m)) as (B1 & B2 & B3); [done|intros x Hx; apply Hal; by right|done|].
    split; [done|]. unfold seenMore in *. split; [set_solver|]. constructor; [by apply (covers_more _ (collectManifest aliases c m))|done]. }
  destruct (H ms (mkCollected [] [] [] ∅ ∅ ∅ ∅)) as (A & _ & B); [done|done| |done].
  assert (forall items seen, items (mkCollected [] [] [] ∅ ∅ ∅ ∅) = [] -> seen (mkCollected [] [] [] ∅ ∅ ∅ ∅) = ∅ ->
    keyed aliases items seen (mkCollected [] [] [] ∅ ∅ ∅ ∅)) as Hk.
  { intros items seen Hi Hs. split; rewrite ?Hi, ?Hs; [apply NoDup_nil_2|done|done|set_solver]. }
  split; [by apply Hk|by apply Hk|]. split; [apply NoDup_nil_2|]. cbn. set_solver.
Qed.

(** ** The file that is written *)

(** The imports and the aliases that are in use. *)
Lemma imports_balanced (ms : list resourceManifest) :
  (forall a, In a (map fst (packageImports ms)) <-> In a (usedAliases (collect ms))) /\
  NoDup (map fst (packageImports ms)) /\ NoDup (map snd (packageImports ms)) /\
  (forall i, In i (packageImports ms) -> fst i ∉ reservedAliases /\ assignAliases ms !! snd i = Some (fst i) /\ exists m, In m ms /\ rmGoPackage m = snd i) /\
  (hasOps (collect ms) = true <-> usedAliases (collect ms) <> []).
Proof.
  destruct (assignAliases_spec ms) as [[used Hu] Ha]. destruct (collect_balanced ms) as [B1 B2].
  destruct (sortedElements_spec (cPackages (collect ms))) as [Hnd Hin].
  assert (forall p, In p (sortedElements (cPackages (collect ms))) ->
    exists a m, assignAliases ms !! p = Some a /\ default EmptyString (assignAliases ms !! p) = a /\ In m ms /\ rmGoPackage m = p) as Hal.
  { intros p Hp. apply Hin, B2 in Hp as [(m & Hm & ->) _]. destruct (Ha m Hm) as [a Ea]. exists a, m. by rewrite Ea. }
  unfold packageImports. rewrite !map_map. cbn [fst snd]. rewrite map_id. split; [|split; [|split; [done|split]]].
  - intros a. rewrite usedAliases_In, in_map_iff. split.
    + intros (p & <- & Hp). by apply B2, Hin.
    + intros (p & Hp & <-)%B1. exists p. split; [done|]. by apply Hin.
  - revert Hal Hnd. generalize (sortedElements (cPackages (collect ms))) as l. intros l Hl Hn. induction Hn as [|p l Hp _ IH]; [constructor|].
    cbn [map]. constructor; [|apply IH; intros q Hq; apply Hl; by right]. intros (q & Hq & Hql)%list_elem_of_fmap.
    destruct (Hl p) as (a & m & E1 & E2 & _); [by left|]. destruct (Hl q) as (b & m' & F1 & F2 & _); [right; by apply list_elem_of_In|].
    assert (a = b) as <- by congruence. apply Hp. by rewrite (as_inj _ _ Hu p q a E1 F1).
  - intros i (p & <- & Hp)%in_map_iff. cbn [fst snd]. destruct (Hal p Hp) as (a & m & E1 & -> & Hm & Hp'). split; [|split; [done|by exists m]].
    by apply (as_used _ _ Hu p a).
  - unfold hasOps, usedAliases, sortedModules, sortedEntities, sortedPolicies. rewrite negb_true_iff, Nat.eqb_neq.
    rewrite <- (Permutation_length (sortSlice_perm (fun g => moduleKey (gmSpec g)) (cModules (collect ms)))).
    rewrite <- (Permutation_length (sortSlice_perm (fun g => geAlias g +:+ "." +:+ geModel g) (cEntities (collect ms)))).
    rewrite <- (Permutation_length (sortSlice_perm (fun g => gpAlias g +:+ "." +:+ gpName g) (cPolicies (collect ms)))).
    destruct (sortSlice _ (cModules _)), (sortSlice _ (cEntities _)), (sortSlice _ (cPolicies _)); cbn; split; done || lia.
Qed.

Lemma sorted_NoDup {A B : Type} (key : A -> string) (f : A -> B) (l : list A) : NoDup (map f l) -> NoDup (map f (sortSlice key l)).
Proof. intros H. rewrite (Permutation_map f (sortSlice_perm key l)). done. Qed.

(** [Register] registers every model and every policy list of the manifests under the
    alias of its package, and a menu for every module; each of them once. *)
Theorem wiring_registers (ms : list resourceManifest) :
  Forall plainNames ms ->
  let c := collect ms in
  NoDup (map (fun g => (geAlias g, geModel g)) (sortedEntities c)) /\
  NoDup (map (fun g => (gpAlias g, gpName g)) (sortedPolicies c)) /\
  NoDup (map (fun g => moduleKey (gmSpec g)) (sortedModules c)) /\
  forall m, In m ms -> exists a, assignAliases ms !! rmGoPackage m = Some a /\
    (forall e, In e (rmEntities m) -> In (a, eModelName e) (map (fun g => (geAlias g, geModel g)) (sortedEntities c))) /\
    (forall s, In s (rmServices m) -> svPoliciesVar s <> EmptyString -> In (a, svPoliciesVar s) (map (fun g => (gpAlias g, gpName g)) (sortedPolicies c))) /\
    (forall spec, rmModule m = Some spec -> In (moduleKey spec) (map (fun g => moduleKey (gmSpec g)) (sortedModules c))).
Proof.
  intros Hms c. destruct (collect_well ms Hms) as [[We Wp [Wm1 Wm2]] Hcov]. destruct (assignAliases_spec ms) as [_ Ha]. fold c in We, Wp, Wm1, Wm2, Hcov.
  split_and!; [apply sorted_NoDup, (kd_nodup _ _ _ _ We)|apply sorted_NoDup, (kd_nodup _ _ _ _ Wp)|by apply sorted_NoDup|].
  intros m Hm. destruct (Ha m Hm) as [a Ea]. exists a. split; [done|]. rewrite List.Forall_forall in Hms, Hcov.
  destruct (Hms m Hm) as [Hne Hns]. destruct (Hcov m Hm) as (C1 & C2 & C3). split_and!.
  - intros e He. destruct (keyed_registered _ _ _ _ _ c (Hne e He) We (C1 e He)) as (b & Eb & Hin). rewrite Ea in Eb. injection Eb as <-.
    apply in_map_iff in Hin as (g & Hg & Hin). apply in_map_iff. exists g. split; [done|]. by apply sortSlice_In.
  - intros s Hs Hn. destruct (keyed_registered _ _ _ _ _ c (Hns s Hs) Wp (C2 s Hs Hn)) as (b & Eb & Hin). rewrite Ea in Eb. injection Eb as <-.
    apply in_map_iff in Hin as (g & Hg & Hin). apply in_map_iff. exists g. split; [done|]. by apply sortSlice_In.
  - intros spec Hspec. pose proof (proj1 (Wm2 _) (C3 spec Hspec)) as (g & Hg & Hin)%in_map_iff. apply in_map_iff. exists g. split; [done|].
    by apply sortSlice_In.
Qed.

Lemma numbered_not_in (base : string) (n : nat) (l : list string) : Forall (fun x => byte_free "_" x = true) l -> ~ In (numbered base n) l.
Proof.
  intros Hl Hin. rewrite List.Forall_forall in Hl. apply Hl in Hin. revert Hin. unfold numbered.
  induction base as [|b base IH]; cbn; [done|]. destruct (Ascii.eqb b "_"); cbn; done.
Qed.

(** The names the generated functions use themselves: parameters and variables, and what
    they take from the language. *)
Definition generatedNames : list string := ["s"; "db"; "err"; "nil"; "error"; "Register"; "Migrate"].

(** C35. The imports of the generated file, of manifests whose packages are not named like
    what the generated functions use themselves ([alias_shadowed]) and whose models and
    policy lists have names without dots, as Go's are: exactly the packages that are used
    are imported, each once and under an alias of its own that is none of [admin], [gorm],
    [fmt] and those names; every model and every policy list of a manifest is registered
    under the alias its own package is imported by; and [fmt], which wraps the errors, is
    imported exactly when something is registered. *)
Theorem wiring_imports (ms : list resourceManifest) :
  (forall m, In m ms -> ~ In (aliasName (rmGoPackageName m)) generatedNames) -> Forall plainNames ms ->
  (forall a, In a (map fst (packageImports ms)) <-> In a (usedAliases (collect ms))) /\
  NoDup (map fst (packageImports ms)) /\ NoDup (map snd (packageImports ms)) /\
  (forall i, In i (packageImports ms) ->
     ~ In (fst i) (["admin"; "gorm"; "fmt"] ++ generatedNames) /\ exists m, In m ms /\ rmGoPackage m = snd i) /\
  (forall m, In m ms ->
     (forall e, In e (rmEntities m) -> exists a, In (a, rmGoPackage m) (packageImports ms)
        /\ In (a, eModelName e) (map (fun g => (geAlias g, geModel g)) (sortedEntities (collect ms)))) /\
     (forall s, In s (rmServices m) -> svPoliciesVar s <> EmptyString -> exists a, In (a, rmGoPackage m) (packageImports ms)
        /\ In (a, svPoliciesVar s) (map (fun g => (gpAlias g, gpName g)) (sortedPolicies (collect ms))))) /\
  (hasOps (collect ms) = true <-> usedAliases (collect ms) <> []).
Proof.
  intros Hnames Hplain. destruct (imports_balanced ms) as (H1 & H2 & H3 & H4 & H5). destruct (assignAliases_spec ms) as [[used Hu] _].
  split; [exact H1|]. split; [exact H2|]. split; [exact H3|]. split; [|split; [|exact H5]].
  - intros i Hi. destruct (H4 i Hi) as (Hr & Ha & Hm). split; [|exact Hm]. intros [Hin|Hin]%in_app_iff.
    { apply Hr. unfold reservedAliases. cbn in Hin. set_solver. }
    destruct (assignAliases_shape ms _ _ Ha) as (m & Hms & [E|[n E]]); rewrite E in Hin; [by apply (Hnames m)|].
    revert Hin. unfold generatedNames. apply numbered_not_in. by repeat constructor.
  - assert (forall p a, assignAliases ms !! p = Some a -> In a (usedAliases (collect ms)) -> In (a, p) (packageImports ms)) as Himp.
    { intros p a Hp Hin%H1. apply in_map_iff in Hin as ([a' p'] & Heq & Hi). cbn [fst] in Heq. subst a'.
      destruct (H4 _ Hi) as (_ & Ha & _). cbn [fst snd] in Ha. by rewrite (as_inj _ _ Hu p p' a Hp Ha). }
    intros m Hm. destruct (wiring_registers ms Hplain) as (_ & _ & _ & Hreg). destruct (Hreg m Hm) as (a & Ha & He & Hs & _). split.
    + intros e Hin. exists a. split; [|by apply He]. apply Himp; [done|]. unfold usedAliases. rewrite !in_app_iff. right. left.
      apply He, in_map_iff in Hin as (g & [= <- _] & Hg). apply in_map_iff. by exists g.
    + intros v Hin Hne. exists a. split; [|by apply Hs]. apply Himp; [done|]. unfold usedAliases. rewrite !in_app_iff. right. right.
      apply (Hs v Hin), in_map_iff in Hne as (g & [= <- _] & Hg). apply in_map_iff. by exists g.
Qed.

End Alias.

(** Letters and digits beyond ASCII, in the examples: none. *)
Definition asciiOnly : Unicode := {| wideLetter := fun _ => false; wideDigit := fun _ => false |}.

Definition shopModule : manifestModule := mkModule "shop" "Shop" EmptyString EmptyString 1 EmptyString.

Definition demoEntity (name model : string) : manifestEntity :=
  mkEntity name model "t" "shop" "s" "p" EmptyString EmptyString EmptyString EmptyString [] EmptyString false.

(** Two packages of one name, a module declared twice, a model listed twice. *)
Definition demoManifests : list resourceManifest :=
  [mkManifest "shop/v1/order.proto" "example.com/shop/v1" "v1" (Some shopModule) [] [] [demoEntity "Order" "OrderModel"; demoEntity "Order" "OrderModel"]
     [mkService "Orders" "OrdersPolicies" [] []];
   mkManifest "user/v1/user.proto" "example.com/user/v1" "v1" (Some shopModule) [] [] [demoEntity "User" "UserModel"] [];
   mkManifest "types/v1/types.proto" "example.com/types/v1" "fmt" None [] [] [] []].

Lemma wiring_registers_witness :
  let c := collect (HU := asciiOnly) demoManifests in
  packageImports (HU := asciiOnly) demoManifests = [("v1", "example.com/shop/v1"); ("v1_2", "example.com/user/v1")] /\
  exists a, assignAliases (HU := asciiOnly) demoManifests !! "example.com/user/v1" = Some a /\
    In (a, "UserModel") (map (fun g => (geAlias g, geModel g)) (sortedEntities c)).
Proof.
  intros c. split; [by vm_compute|].
  destruct (wiring_registers (HU := asciiOnly) demoManifests) as (_ & _ & _ & H).
  { repeat constructor; cbn; intros x Hx; repeat destruct Hx as [<-|Hx]; done. }
  destruct (H _ (or_intror (or_introl eq_refl))) as (a & Ha & He & _). exists a. split; [exact Ha|].
  apply (He (demoEntity "User" "UserModel")). by left.
Defined.

Lemma wiring_imports_witness :
  In ("v1_2", "example.com/user/v1") (packageImports (HU := asciiOnly) demoManifests)
  /\ exists a, In (a, "example.com/user/v1") (packageImports (HU := asciiOnly) demoManifests)
      /\ In (a, "UserModel") (map (fun g => (geAlias g, geModel g)) (sortedEntities (collect (HU := asciiOnly) demoManifests))).
Proof.
  split; [vm_compute; auto|].
  destruct (wiring_imports (HU := asciiOnly) demoManifests) as (_ & _ & _ & _ & Hreg & _).
  - intros m [<-|[<-|[<-|[]]]]; vm_compute; intuition discriminate.
  - repeat constructor; cbn; intros x Hx; repeat destruct Hx as [<-|Hx]; done.
  - destruct (Hreg _ (or_intror (or_introl eq_refl))) as [He _]. apply (He (demoEntity "User" "UserModel")). by left.
Defined.

(** The name of a parameter of [Register] is not reserved: a package [db] is imported and
    then hidden by the parameter. *)
Example alias_shadowed :
  packageImports (HU := asciiOnly) [mkManifest "db/v1/db.proto" "example.com/db" "db" None [] [] [demoEntity "User" "UserModel"] []]
  = [("db", "example.com/db")].
Proof. by vm_compute. Qed.

(** A digit is only refused at the first byte of the name, not of the alias. *)
Example alias_starts_with_digit : aliasName (HU := asciiOnly) "-9a" = "9a" /\ aliasName (HU := asciiOnly) "9a" = "a".
Proof. by vm_compute. Qed.
