(* ===== verification/ApiPath.v ===== *)
(** [cmd/aeus/api.go]: where the TypeScript files of the manifests are, and how one of
    them names another in an import. *)

From Stdlib Require Import ZArith Lia String Ascii List Bool.
From stdpp Require Import base tactics list gmap strings.
From S2P Require Import Prelude GoStrings GoPath Errs VueGen.

Local Open Scope string_scope.
Local Open Scope list_scope.

(** ** filepath.Rel *)

Definition elementsOf (clean : string) : list string :=
  List.filter (fun x => negb (String.eqb x EmptyString)) (SplitByte clean slash).

Fixpoint stripCommon (bs ts : list string) : list string * list string :=
  match bs, ts with
  | b :: bs', t :: ts' => if String.eqb b t then stripCommon bs' ts' else (bs, ts)
  | _, _ => (bs, ts)
  end.

(** [filepath.Rel]; it goes up only from elements it knows. *)
Definition Rel (base targ : string) : result error string :=
  let fails := Err (EPlain ("Rel: can't make " +:+ targ +:+ " relative to " +:+ base)) in
  let b := Clean base in
  let t := Clean targ in
  if String.eqb b t then Ok "."
  else
    let b := if String.eqb b "." then EmptyString else b in
    if negb (Bool.eqb (rooted b) (rooted t)) then fails
    else
      match stripCommon (elementsOf b) (elementsOf t) with
      | ([], ts) => Ok (Join ts "/")
      | (x :: bs, ts) =>
          if String.eqb x ".." && negb (length ts =? 0)%nat then fails
          else Ok (Join (replicate (length (x :: bs)) ".." ++ ts) "/")
      end.

(** ** The files *)

(** [apiFilePath] *)
Definition apiFilePath (apiDir source : string) : result error string :=
  let rel := TrimSuffix source ".proto" +:+ ".ts" in
  let clean := Clean rel in
  if escapes clean then Err (EPlain ("invalid proto source " +:+ quote source)) else Ok (JoinAll [apiDir; clean]).

(** The module specifier of a file in another one ([resolveType]). *)
Definition importPath (currentPath filePath : string) : result error string :=
  match Rel (Dir currentPath) filePath with
  | Err e => Err e
  | Ok rel =>
      let rel := TrimSuffix rel ".ts" in
      Ok (if HasPrefix rel "." then rel else "./" +:+ rel)
  end.

(** ** A relative path leads where it should *)

Lemma stripCommon_spec (bs ts : list string) :
  exists pre, bs = pre ++ fst (stripCommon bs ts) /\ ts = pre ++ snd (stripCommon bs ts).
Proof.
  revert ts. induction bs as [|b bs IH]; intros [|t ts]; cbn [stripCommon]; try by exists [].
  destruct (String.eqb_spec b t) as [->|]; [|by exists []]. destruct (IH ts) as (pre & H1 & H2). exists (t :: pre). cbn [app]. by rewrite <- H1, <- H2.
Qed.

Lemma elementsOf_rooted (p : string) (es : list string) : rootedClean p es -> elementsOf p = es.
Proof.
  intros [-> Hp]. unfold elementsOf. change ("/" +:+ Join es "/") with (EmptyString +:+ String slash (Join es "/")).
  rewrite SplitByte_cons by done. cbn [List.filter String.eqb negb]. destruct es as [|x l]; [done|]. rewrite SplitByte_plain by done.
  apply filter_all. intros y Hy. rewrite List.Forall_forall in Hp. destruct (Hp y Hy) as (Hne & _). by rewrite (proj2 (String.eqb_neq _ _) Hne).
Qed.

Lemma climb (n : nat) (kept : list string) :
  (n <= length kept)%nat -> Forall plain kept -> fold_left (cleanStep true) (replicate n "..") kept = drop n kept.
Proof.
  revert kept. induction n as [|n IH]; intros kept Hn Hk; [done|]. destruct kept as [|y kept]; [cbn in Hn; lia|]. inversion Hk as [|? ? (_ & _ & Hy & _) Hk']; subst.
  cbn [replicate fold_left drop]. unfold cleanStep at 2. cbn [String.eqb orb]. rewrite (proj2 (String.eqb_neq _ _) Hy). apply IH; [cbn in Hn; lia|done].
Qed.

Lemma dots_free (n : nat) (ts : list string) :
  Forall plain ts -> Forall (fun x => byte_free slash x = true) (replicate n ".." ++ ts).
Proof.
  intros Ht. apply Forall_app. split; [by apply Forall_replicate|]. eapply Forall_impl; [exact Ht|]. by intros x (_ & _ & _ & ?).
Qed.

(** Below a clean rooted path: up, and then down. *)
Lemma Clean_up_down (p : string) (pre bs ts : list string) :
  rootedClean p (pre ++ bs) -> Forall plain ts -> replicate (length bs) ".." ++ ts <> [] ->
  rootedClean (Clean (p +:+ String slash (Join (replicate (length bs) ".." ++ ts) "/"))) (pre ++ ts).
Proof.
  intros Hp Ht Hne. assert (rooted (p +:+ String slash (Join (replicate (length bs) ".." ++ ts) "/")) = true) as Hr.
  { destruct Hp as [-> _]. apply rooted_spec. by eexists. }
  unfold Clean. rewrite Hr, (clean_below p _ _ Hp). rewrite SplitByte_Join by (done || by apply dots_free).
  destruct Hp as [_ Hp]. rewrite fold_left_app, climb; [|rewrite length_rev, length_app; lia|by apply Forall_rev].
  rewrite rev_app_distr. rewrite drop_app_length' by by rewrite length_rev. rewrite cleanStep_id, rev_app_distr, !rev_involutive by done.
  split; [done|]. apply Forall_app in Hp as [Hpre _]. by apply Forall_app.
Qed.

Lemma rooted_Clean_eq (p q : string) (es : list string) : rootedClean p es -> rootedClean q es -> p = q.
Proof. by intros [-> _] [-> _]. Qed.

Lemma Rel_rooted (base targ : string) (bs ts : list string) :
  rootedClean base bs -> rootedClean targ ts ->
  exists r, Rel base targ = Ok r /\ Clean (base +:+ String slash r) = targ.
Proof.
  intros Hb Ht. unfold Rel. rewrite (Clean_id base bs Hb), (Clean_id targ ts Ht). destruct (String.eqb_spec base targ) as [->|Hne].
  - exists ".". split; [done|]. pose proof (join_below targ "." bs Hb) as Hj. eapply rooted_Clean_eq; [apply Hj; by intros [?|[]]|].
    cbn. by rewrite app_nil_r.
  - assert (String.eqb base "." = false) as -> by by destruct Hb as [-> _].
    assert (rooted base = true) as -> by (destruct Hb as [-> _]; apply rooted_spec; by eexists).
    assert (rooted targ = true) as -> by (destruct Ht as [-> _]; apply rooted_spec; by eexists). cbn [Bool.eqb negb].
    rewrite (elementsOf_rooted base bs Hb), (elementsOf_rooted targ ts Ht).
    destruct (stripCommon_spec bs ts) as (pre & H1 & H2). destruct (stripCommon bs ts) as [bs' ts']. cbn [fst snd] in H1, H2. subst bs ts.
    destruct Hb as [Hb1 Hb2]. pose proof Ht as [Ht1 Ht2]. apply Forall_app in Ht2 as [_ Hts'].
    assert (replicate (length bs') ".." ++ ts' <> []) as Hnil.
    { destruct bs' as [|x bs'], ts' as [|y ts']; try done. destruct Hne. congruence. }
    pose proof (Clean_up_down base pre bs' ts' ltac:(by split) Hts' Hnil) as Hc.
    eexists. split; [|exact (rooted_Clean_eq _ _ _ Hc Ht)]. destruct bs' as [|x bs']; [done|].
    apply Forall_app in Hb2 as [_ Hx]. inversion Hx as [|? ? (_ & _ & Hx3 & _) _]; subst. by rewrite (proj2 (String.eqb_neq _ _) Hx3).
Qed.

(** The directory of a file. *)
Lemma Dir_rooted (p x : string) (es : list string) : rootedClean p (es ++ [x]) -> rootedClean (Dir p) es.
Proof.
  intros [-> Hp]. apply Forall_app in Hp as [Hes Hx]. inversion Hx as [|? ? (_ & _ & _ & Hf) _]; subst. unfold Dir.
  assert (exists d, "/" +:+ Join (es ++ [x]) "/" = d +:+ String slash x /\ d +:+ "/" = "/" +:+ (match es with [] => EmptyString | _ => Join es "/" +:+ "/" end)) as (d & -> & Hd).
  { destruct es as [|y l]; [by exists EmptyString|]. exists ("/" +:+ Join (y :: l) "/"). rewrite Join_app by done. by rewrite !append_assoc. }
  rewrite cutLastByte_app by done. rewrite Hd. destruct es as [|y l]; [split; [done|constructor]|].
  pose proof (join_below ("/" +:+ Join (y :: l) "/") EmptyString (y :: l) ltac:(by split)) as Hj.
  rewrite append_assoc in Hj. cbn [SplitByte List.filter String.eqb orb negb] in Hj. rewrite app_nil_r in Hj. apply Hj. by intros [?|[]].
Qed.

Lemma SplitByte_tail (s t : string) (c : ascii) :
  byte_free c t = true -> exists l z, SplitByte s c = l ++ [z] /\ SplitByte (s +:+ t) c = l ++ [z +:+ t].
Proof.
  intros Ht. induction s as [|a s (l & z & IH1 & IH2)]; [exists [], EmptyString; split; [done|]; by apply SplitByte_free|].
  cbn [String.append SplitByte]. destruct (Ascii.eqb a c); rewrite IH1, IH2; [by exists (EmptyString :: l), z|].
  destruct l as [|w l]; [by exists [], (String a z)|by exists (String a w :: l), z].
Qed.

Lemma ts_plain (z : string) : byte_free slash z = true -> plain (z +:+ ".ts").
Proof.
  intros Hz. split; [by destruct z|]. split; [intros H|split; [intros H|]].
  1,2: apply (f_equal String.length) in H; rewrite length_append in H; cbn in H; lia.
  induction z as [|a z IH]; [done|]. cbn in Hz |- *. apply andb_true_iff in Hz as [-> Hz]. by apply IH.
Qed.

(** A file of the generator: below the directory, its name ends in [.ts]. *)
Lemma apiFilePath_below (apiDir source path : string) (ep : list string) :
  rootedClean apiDir ep -> apiFilePath apiDir source = Ok path -> exists es z, rootedClean path (ep ++ es ++ [z +:+ ".ts"]).
Proof.
  intros Hp. unfold apiFilePath. destruct (escapes _) eqn:Ee; [done|]. intros [= <-].
  destruct (checked_below apiDir _ ep Hp Ee) as (es & Hne & Hes & Hc & Hr).
  destruct (SplitByte_tail (TrimSuffix source ".proto") ".ts" slash) as (l & z & H1 & H2); [done|].
  pose proof (SplitByte_pieces (TrimSuffix source ".proto") slash) as Hf. rewrite H1 in Hf. apply Forall_app in Hf as [_ Hz]. inversion Hz; subst.
  pose proof (ts_plain z ltac:(done)) as (Hz1 & Hz2 & Hz3 & Hz4).
  set (rel := TrimSuffix source ".proto" +:+ ".ts") in *.
  assert (exists k, rev (fold_left (cleanStep (rooted rel)) (SplitByte rel slash) []) = k ++ [z +:+ ".ts"]) as [k Hk].
  { rewrite H2, fold_left_app. cbn [fold_left]. unfold cleanStep at 1. rewrite !(proj2 (String.eqb_neq _ _)) by done. cbn [orb rev]. by eexists. }
  unfold Clean in Hc, Ee. rewrite Hk in Hc, Ee. destruct (rooted rel) eqn:Er; [by cbn in Ee|].
  assert (Join (k ++ [z +:+ ".ts"]) "/" = Join es "/") as Hj by by destruct k.
  assert (es = k ++ [z +:+ ".ts"]) as ->.
  { rewrite <- (SplitByte_plain es Hne Hes), <- Hj. apply SplitByte_Join; [by destruct k|].
    destruct (cleanStep_relative (SplitByte rel slash) [] ltac:(by exists 0%nat, []) (SplitByte_pieces rel slash)) as (n & ps & Hn & Hps).
    rewrite <- Hk, Hn. by apply dots_free. }
  by exists k, z.
Qed.

(** The specifier of a file, resolved from the directory of the file that imports it, is
    that file; it starts with a dot.  (A file is not a directory above another one.) *)
Lemma importPath_resolves (cur file x y : string) (es fs : list string) :
  rootedClean cur (es ++ [x]) -> rootedClean file (fs ++ [y +:+ ".ts"]) -> (forall k, es <> (fs ++ [y +:+ ".ts"]) ++ k) ->
  exists spec, importPath cur file = Ok spec /\ HasPrefix spec "." = true /\ Clean (Dir cur +:+ String slash (spec +:+ ".ts")) = file.
Proof.
  intros Hc Hf Hne. unfold importPath. pose proof (Dir_rooted cur x es Hc) as Hd.
  destruct (Rel_rooted (Dir cur) file es (fs ++ [y +:+ ".ts"]) Hd Hf) as (r & Er & Hr). rewrite Er.
  assert (exists r0, r = r0 +:+ ".ts") as [r0 ->].
  { unfold Rel in Er. rewrite (Clean_id _ _ Hd), (Clean_id _ _ Hf) in Er. destruct (String.eqb_spec (Dir cur) file) as [Heq|_].
    { destruct (Hne []). rewrite app_nil_r. rewrite Heq in Hd. by apply (rootedClean_inj file). }
    assert (String.eqb (Dir cur) "." = false) as Hdot by by destruct Hd as [-> _]. rewrite Hdot in Er.
    destruct (negb _); [done|]. rewrite (elementsOf_rooted _ _ Hd), (elementsOf_rooted _ _ Hf) in Er.
    destruct (stripCommon_spec es (fs ++ [y +:+ ".ts"])) as (pre & H1 & H2). destruct (stripCommon es _) as [bs ts]. cbn [fst snd] in H1, H2.
    destruct (exists_last_or_nil ts) as [->|(ts' & z & ->)].
    { destruct (Hne bs). rewrite app_nil_r in H2. by rewrite H2. }
    rewrite app_assoc in H2. apply app_inj_tail in H2 as [_ <-].
    assert (forall l, exists r0, Join (l ++ [y +:+ ".ts"]) "/" = r0 +:+ ".ts") as Hlast.
    { intros [|w l]; [by exists y|]. rewrite Join_app by done. cbn [Join]. exists (Join (w :: l) "/" +:+ "/" +:+ y). by rewrite !append_assoc. }
    destruct bs as [|b bs]; [injection Er as <-; apply Hlast|]. destruct (_ && _); [done|].
    destruct (Hlast (replicate (length (b :: bs)) ".." ++ ts')) as [r0 Hr0]. exists r0. rewrite <- Hr0, <- app_assoc. congruence. }
  assert (TrimSuffix (r0 +:+ ".ts") ".ts" = r0) as ->.
  { unfold TrimSuffix. by rewrite (proj2 (cutSuffix_Some _ _ r0)). }
  eexists. split; [reflexivity|]. destruct (HasPrefix r0 ".") eqn:Ep; [by split|]. split; [done|].
  rewrite <- Hr. unfold Clean. destruct Hd as [Hd1 Hd2].
  assert (forall t, rooted (Dir cur +:+ String slash t) = true) as Hrt by (intros t; rewrite Hd1; apply rooted_spec; by eexists).
  rewrite !Hrt, !(clean_below (Dir cur) _ es) by by split.
  rewrite append_assoc. change ("./" +:+ (r0 +:+ ".ts")) with ("." +:+ String slash (r0 +:+ ".ts")). by rewrite SplitByte_cons.
Qed.

Example importPath_runs :
  importPath "/api/shop/v1/order.ts" "/api/user/v1/user.ts" = Ok "../../user/v1/user" /\
  importPath "/api/shop/v1/order.ts" "/api/shop/v1/user.ts" = Ok "./user" /\
  importPath "web/api/a.ts" "web/api/b/c.ts" = Ok "./b/c" /\
  apiFilePath "web/api" "shop/v1/order.proto" = Ok "web/api/shop/v1/order.ts" /\
  is_ok (apiFilePath "web/api" "../x.proto") = false.
Proof. by vm_compute. Qed.

(** A directory whose name starts with a dot: the specifier is not a relative one. *)
Example importPath_dot_directory : importPath "/api/a.ts" "/api/.internal/c.ts" = Ok ".internal/c".
Proof. by vm_compute. Qed.
