(* ===== verification/ApiGen.v ===== *)
(** [cmd/aeus/api.go]: the TypeScript module of a manifest: its types, its imports and
    the functions that call the service. *)

From Stdlib Require Import ZArith Lia String Ascii List Bool.
From stdpp Require Import base tactics list gmap strings pretty sorting.
From S2P Require Import Prelude GoStrings GoPath Errs Manifest VueGen ApiPath.

Local Open Scope string_scope.
Local Open Scope list_scope.

(** ** Imports *)

Record typeImports : Type := mkTypeImports { byPath : gmap string (gmap string string); used : gset string }.

Definition newTypeImports (m : resourceManifest) : typeImports :=
  let names := List.filter (fun n => negb (String.eqb n EmptyString)) (map msgGoName (rmMessages m) ++ map enGoName (rmEnums m)) in
  mkTypeImports ∅ (list_to_set ("http" :: names)).

(** The alias of a name of a path, [""] when there is none. *)
Definition aliasOf (t : typeImports) (path name : string) : string := default EmptyString (default ∅ (byPath t !! path) !! name).

(** [add] *)
Definition addImport (path name : string) (t : typeImports) : typeImports * string :=
  if String.eqb path EmptyString || String.eqb name EmptyString || String.eqb name "unknown" then (t, name)
  else
    let existing := aliasOf t path name in
    if negb (String.eqb existing EmptyString) then (t, existing)
    else
      let alias := freshName name (used t) in
      (mkTypeImports (<[path := <[name := alias]> (default ∅ (byPath t !! path))]> (byPath t)) ({[alias]} ∪ used t), alias).

(** The lines of [lines]: a path and its specifiers, both sorted. *)
Definition importSpec (names : gmap string string) (name : string) : string :=
  let alias := default EmptyString (names !! name) in
  if String.eqb alias name then name else name +:+ " as " +:+ alias.

Definition importLine (t : typeImports) (path : string) : string :=
  let names := default ∅ (byPath t !! path) in
  "import type { " +:+ Join (map (importSpec names) (sortedKeysOf names)) ", " +:+ " } from '" +:+ path +:+ "'".

Definition importLines (t : typeImports) : list string := map (importLine t) (sortedKeysOf (byPath t)).

(** ** The index *)

Record apiTypeInfo : Type := mkTypeInfo { infoSource : string; infoPath : string; infoName : string; infoFields : list manifestField }.
Record apiIndex : Type := mkIndex { messages : gmap string apiTypeInfo; enums : gmap string apiTypeInfo }.

Definition apiTypeKey (pkg name : string) : string := pkg +:+ "." +:+ name.

Fixpoint indexManifests (ms : list resourceManifest) (apiDir : string) (idx : apiIndex) : result error apiIndex :=
  match ms with
  | [] => Ok idx
  | m :: ms =>
      match apiFilePath apiDir (rmSource m) with
      | Err e => Err e
      | Ok path =>
          let msgs := fold_left (fun t msg => <[apiTypeKey (rmGoPackage m) (msgGoName msg) := mkTypeInfo (rmSource m) path (msgGoName msg) (msgFields msg)]> t)
                                (rmMessages m) (messages idx) in
          let ens := fold_left (fun t e => <[apiTypeKey (rmGoPackage m) (enGoName e) := mkTypeInfo (rmSource m) path (enGoName e) []]> t)
                               (rmEnums m) (enums idx) in
          indexManifests ms apiDir (mkIndex msgs ens)
      end
  end.

Definition buildAPIIndex (ms : list resourceManifest) (apiDir : string) : result error apiIndex := indexManifests ms apiDir (mkIndex ∅ ∅).

Definition wellKnownTS (name : string) : string :=
  let any_of := existsb (String.eqb name) in
  if any_of ["google.protobuf.Timestamp"; "google.protobuf.Duration"] then "{ seconds?: number; nanos?: number }"
  else if any_of ["google.protobuf.FieldMask"] then "{ paths?: string[] }"
  else if any_of ["google.protobuf.StringValue"; "google.protobuf.BytesValue"] then "{ value?: string }"
  else if any_of ["google.protobuf.BoolValue"] then "{ value?: boolean }"
  else if any_of ["google.protobuf.Int32Value"; "google.protobuf.Int64Value"; "google.protobuf.UInt32Value"; "google.protobuf.UInt64Value";
                  "google.protobuf.FloatValue"; "google.protobuf.DoubleValue"] then "{ value?: number }"
  else "unknown".

(** [resolveType]: a name and the path it is imported from, [""] for none. *)
Definition resolveType (table : gmap string apiTypeInfo) (ref : manifestRef) (currentPath : string) : string * string :=
  if String.eqb (refName ref) EmptyString then ("unknown", EmptyString)
  else
    match table !! apiTypeKey (refPackage ref) (refName ref) with
    | None => ("unknown", EmptyString)
    | Some info =>
        if String.eqb (infoPath info) currentPath then (infoName info, EmptyString)
        else match importPath currentPath (infoPath info) with
             | Err _ => ("unknown", EmptyString)
             | Ok rel => (infoName info, rel)
             end
    end.

Definition resolve (idx : apiIndex) (ref : option manifestRef) (currentPath : string) : string * string :=
  match ref with
  | None => (EmptyString, EmptyString)
  | Some ref =>
      if String.eqb (refKind ref) "well_known" then (wellKnownTS (refName ref), EmptyString)
      else if String.eqb (refKind ref) "message" then resolveType (messages idx) ref currentPath
      else if String.eqb (refKind ref) "enum" then resolveType (enums idx) ref currentPath
      else ("unknown", EmptyString)
  end.

(** ** Names *)

Definition lowerFirst (s : string) : string :=
  match s with EmptyString => EmptyString | String a s => String (lowerByte a) s end.

Definition tsReserved : list string :=
  ["arguments"; "eval"; "await"; "break"; "case"; "catch"; "class"; "const"; "continue"; "debugger"; "default"; "delete"; "do"; "else";
   "enum"; "export"; "extends"; "false"; "finally"; "for"; "function"; "if"; "implements"; "import"; "in"; "instanceof"; "interface"; "let";
   "new"; "null"; "package"; "private"; "protected"; "public"; "return"; "static"; "super"; "switch"; "this"; "throw"; "true"; "try";
   "typeof"; "var"; "void"; "while"; "with"; "yield"].

Definition isReserved (name : string) : bool := existsb (String.eqb name) tsReserved.

Definition tsFunctionName (goName : string) : string :=
  let name := lowerFirst goName in
  if isReserved name then "rpc" +:+ upperFirst name else name.

(** ** Paths of requests *)

Inductive piece : Type := Lit (a : ascii) | Param (name : string).

Definition identStart (a : ascii) : bool := is_upper a || is_lower a || Ascii.eqb a "_".
Definition identPart (a : ascii) : bool := identStart a || is_digit a.

Definition startsIdent (s : string) : bool := match s with String a _ => identStart a | EmptyString => false end.

(** The matches of [pathParamRE] and what is between them; the name of the match we are in. *)
Fixpoint pathPieces (cur : option string) (s : string) : list piece :=
  match s with
  | EmptyString => match cur with None => [] | Some n => [Param n] end
  | String a s =>
      let outside := if Ascii.eqb a ":" && startsIdent s then pathPieces (Some EmptyString) s else Lit a :: pathPieces None s in
      match cur with
      | None => outside
      | Some n => if identPart a then pathPieces (Some (n +:+ String a EmptyString)) s else Param n :: outside
      end
  end.

Definition pathParams (path : string) : list string :=
  flat_map (fun p => match p with Lit _ => [] | Param n => [n] end) (pathPieces None path).

Definition pathParamNames (path : string) : gset string := list_to_set (pathParams path).

Definition renderPiece (p : piece) : string :=
  match p with Lit a => String a EmptyString | Param n => "${encodeURIComponent(String(req." +:+ n +:+ "))}" end.

Definition renderPath (path : string) : string := Join (map renderPiece (pathPieces None path)) EmptyString.

(** ** The module *)

Definition generatedTSHeader : string := "// Code generated by aeus gen. DO NOT EDIT.".

Section Render.

Context (index : apiIndex) (currentPath : string).

(** The type of a field, and the import it needs. *)
Definition fieldBaseType (f : manifestField) (t : typeImports) : typeImports * string :=
  match fRef f with
  | None => (t, if String.eqb (fType f) EmptyString then "unknown" else fType f)
  | Some ref =>
      let '(resolved, path) := resolve index (Some ref) currentPath in
      addImport path (if String.eqb resolved EmptyString then "unknown" else resolved) t
  end.

Definition fieldTSType (f : manifestField) (t : typeImports) : typeImports * string :=
  let '(t, base) := fieldBaseType f t in
  (t, if fMap f then "Record<string, " +:+ base +:+ ">" else if fList f then base +:+ "[]" else base).

(** A loop that collects lines. *)
Fixpoint linesOf {A : Type} (f : A -> typeImports -> typeImports * list string) (l : list A) (t : typeImports) : typeImports * list string :=
  match l with
  | [] => (t, [])
  | a :: l => let '(t, x) := f a t in let '(t, y) := linesOf f l t in (t, x ++ y)
  end.

Definition distinctNumbers (values : list manifestEnumValue) : list Z :=
  fold_left (fun ns v => if existsb (Z.eqb (evNumber v)) ns then ns else ns ++ [evNumber v]) values [].

Definition enumLines (e : manifestEnum) (t : typeImports) : typeImports * list string :=
  if String.eqb (enGoName e) EmptyString then (t, [])
  else
    (t, [match distinctNumbers (enValues e) with
         | [] => "export type " +:+ enGoName e +:+ " = number"
         | numbers => "export type " +:+ enGoName e +:+ " = " +:+ Join (map pretty numbers) " | "
         end; EmptyString; "export const " +:+ enGoName e +:+ " = {"]
        ++ map (fun v => "  " +:+ evName v +:+ ": " +:+ pretty (evNumber v) +:+ ",") (enValues e)
        ++ ["} as const"; EmptyString]).

Definition fieldLines (f : manifestField) (t : typeImports) : typeImports * list string :=
  if String.eqb (fName f) EmptyString then (t, [])
  else let '(t, typ) := fieldTSType f t in (t, ["  " +:+ fName f +:+ "?: " +:+ typ]).

Definition messageLines (msg : manifestMessage) (t : typeImports) : typeImports * list string :=
  if String.eqb (msgGoName msg) EmptyString then (t, [])
  else
    let '(t, ls) := linesOf fieldLines (msgFields msg) t in
    (t, ("export interface " +:+ msgGoName msg +:+ " {") :: ls ++ ["}"; EmptyString]).

(** [req.a !== undefined && req.a !== null] *)
Definition isSet (name : string) : string := "req." +:+ name +:+ " !== undefined && req." +:+ name +:+ " !== null".
Definition setParam (name : string) : string := "params.set(" +:+ quote name +:+ ", String(req." +:+ name +:+ "))".

Definition isQueryField (f : manifestField) (base : string) : bool :=
  existsb (String.eqb base) ["string"; "number"; "boolean"]
  || match fRef f with Some ref => String.eqb (refKind ref) "enum" | None => false end.

Definition queryField (pathParams : gset string) (f : manifestField) (t : typeImports) : typeImports * list string :=
  if bool_decide (fName f ∈ pathParams) || fMap f then (t, [])
  else
    let '(t, base) := fieldBaseType f t in
    let n := fName f in
    (t, if negb (isQueryField f base) then []
        else if fList f then
               ["  if (Array.isArray(req." +:+ n +:+ ")) req." +:+ n +:+ ".forEach((v) => params.append(" +:+ quote n +:+ ", String(v)))";
                "  else if (" +:+ isSet n +:+ ") " +:+ setParam n]
             else ["  if (" +:+ isSet n +:+ ") " +:+ setParam n]).

(** [renderQuery]; the first line is written with the first field. *)
Definition renderQuery (fields : list manifestField) (pathParams : gset string) (t : typeImports) : typeImports * list string :=
  let '(t, ls) := linesOf (queryField pathParams) fields t in
  (t, match ls with [] => [] | _ => "  const params = new URLSearchParams()" :: ls end).

Definition localFields (m : resourceManifest) (name : string) : list manifestField :=
  match List.find (fun msg => String.eqb (msgGoName msg) name) (rmMessages m) with Some msg => msgFields msg | None => [] end.

Definition messageFields (m : resourceManifest) (ref : option manifestRef) (name : string) : list manifestField :=
  match ref with
  | Some ref =>
      if String.eqb (refKind ref) "message" then
        match messages index !! apiTypeKey (refPackage ref) (refName ref) with
        | Some info => infoFields info
        | None => localFields m name
        end
      else localFields m name
  | None => localFields m name
  end.

(** The type of a request or a response. *)
Definition methodType (name : string) (ref : option manifestRef) (t : typeImports) : typeImports * string :=
  let '(t, typ) :=
    match ref with
    | None => (t, name)
    | Some _ => let '(resolved, path) := resolve index ref currentPath in
                if String.eqb resolved EmptyString then (t, name) else addImport path resolved t
    end in
  (t, if String.eqb typ EmptyString then "void" else typ).

Definition allMethods (m : resourceManifest) : list (manifestService * manifestMethod) :=
  flat_map (fun svc => map (pair svc) (svMethods svc)) (rmServices m).

Definition nameCount (m : resourceManifest) (name : string) : nat :=
  length (List.filter (fun sm => String.eqb (tsFunctionName (mtGoName (snd sm))) name) (allMethods m)).

Definition functionName (m : resourceManifest) (sm : manifestService * manifestMethod) : string :=
  let name := tsFunctionName (mtGoName (snd sm)) in
  if (1 <? nameCount m name)%nat then lowerFirst (svGoName (fst sm)) +:+ mtGoName (snd sm) else name.

Definition methodLines (m : resourceManifest) (sm : manifestService * manifestMethod) (t : typeImports) : typeImports * list string :=
  let method := snd sm in
  let '(t, reqType) := methodType (mtRequest method) (mtRequestRef method) t in
  let '(t, respType) := methodType (mtResponse method) (mtResponseRef method) t in
  let params := if String.eqb reqType "void" then EmptyString else "req: " +:+ reqType in
  let '(t, call) :=
    if String.eqb (ToUpper (mtHTTPMethod method)) "GET" then
      let '(t, query) := renderQuery (messageFields m (mtRequestRef method) reqType) (pathParamNames (mtHTTPPath method)) t in
      (t, match query with
          | [] => ["  return http.get<" +:+ respType +:+ ">(path)"]
          | _ => query ++ ["  const query = params.toString()"; "  return http.get<" +:+ respType +:+ ">(`${path}${query ? `?${query}` : ''}`)"]
          end)
    else
      let args :=
        if String.eqb reqType "void" then EmptyString
        else if String.eqb (mtBody method) "*" then ", req"
        else if String.eqb (mtBody method) EmptyString then EmptyString else ", req." +:+ mtBody method in
      (t, ["  return http." +:+ ToLower (mtHTTPMethod method) +:+ "<" +:+ respType +:+ ">(path" +:+ args +:+ ")"]) in
  (t, ["/** " +:+ mtHTTPMethod method +:+ " " +:+ mtHTTPPath method +:+ " */";
       "export function " +:+ functionName m sm +:+ "(" +:+ params +:+ "): Promise<" +:+ respType +:+ "> {";
       "  const path = `" +:+ renderPath (mtHTTPPath method) +:+ "`"]
      ++ call ++ ["}"; EmptyString]).

Definition hasMethod (m : resourceManifest) : bool := negb (length (allMethods m) =? 0)%nat.

(** The body: enums, messages, methods; the first two in the order of their names. *)
Definition apiBody (m : resourceManifest) : typeImports * list string :=
  let '(t, es) := linesOf enumLines (sortSlice enGoName (rmEnums m)) (newTypeImports m) in
  let '(t, ms) := linesOf messageLines (sortSlice msgGoName (rmMessages m)) t in
  let '(t, fs) := linesOf (methodLines m) (allMethods m) t in
  (t, es ++ ms ++ fs).

Definition isEmptyAPI (m : resourceManifest) : bool :=
  (length (rmMessages m) =? 0)%nat && (length (rmEnums m) =? 0)%nat && negb (hasMethod m).

Definition terminated (ls : list string) : string := Join (map (fun l => l +:+ nl) ls) EmptyString.

Definition renderAPI (m : resourceManifest) : string :=
  if isEmptyAPI m then EmptyString
  else
    let '(t, body) := apiBody m in
    let imports := importLines t in
    terminated ([generatedTSHeader; EmptyString]
                ++ (if hasMethod m then ["import { http } from '@/api/http'"] else [])
                ++ match imports with [] => [] | _ => EmptyString :: imports end
                ++ [EmptyString] ++ body).

(** ** What is imported *)

Definition importedAs (t : typeImports) (path name alias : string) : Prop := default ∅ (byPath t !! path) !! name = Some alias.

(** A type of the index, under its own name and a path that leads to its file. *)
Definition realImport (path name : string) : Prop :=
  exists info, (exists key, messages index !! key = Some info \/ enums index !! key = Some info) /\
  infoName info = name /\ infoPath info <> currentPath /\ importPath currentPath (infoPath info) = Ok path.

Record importsOK (reserved : gset string) (t : typeImports) : Prop := {
  io_used : forall p n a, importedAs t p n a -> a ∈ used t /\ a ∉ reserved /\ a <> EmptyString;
  io_inj : forall p n p' n' a, importedAs t p n a -> importedAs t p' n' a -> p = p' /\ n = n';
  io_real : forall p n a, importedAs t p n a -> realImport p n;
  io_reserved : reserved ⊆ used t;
}.

Lemma importedAs_insert (t : typeImports) (path name alias p n a : string) (u : gset string) :
  importedAs (mkTypeImports (<[path := <[name := alias]> (default ∅ (byPath t !! path))]> (byPath t)) u) p n a <->
  (p = path /\ n = name /\ a = alias) \/ ((p <> path \/ n <> name) /\ importedAs t p n a).
Proof.
  unfold importedAs. cbn [byPath]. destruct (decide (path = p)) as [<-|Hp].
  - rewrite lookup_insert_eq. cbn [from_option id]. destruct (decide (name = n)) as [<-|Hn].
    + rewrite lookup_insert_eq. naive_solver.
    + rewrite lookup_insert_ne by done. naive_solver.
  - rewrite lookup_insert_ne by done. naive_solver.
Qed.

Lemma freshName_nonempty (name : string) (u : gset string) : name <> EmptyString -> freshName name u <> EmptyString.
Proof. intros Hn. destruct (freshName_shape name u) as [->|(k & _ & ->)]; [done|]. by destruct name. Qed.

Lemma addImport_OK (reserved : gset string) (path name : string) (t : typeImports) :
  (path <> EmptyString -> name <> "unknown" -> realImport path name) -> importsOK reserved t -> importsOK reserved (fst (addImport path name t)).
Proof.
  intros Hreal [H1 H2 H3 H4]. unfold addImport. destruct (String.eqb_spec path EmptyString) as [|Hp]; [by split|].
  destruct (String.eqb_spec name EmptyString) as [|Hn]; [by split|]. destruct (String.eqb_spec name "unknown") as [|Hu]; [by split|]. cbn [orb].
  destruct (String.eqb_spec (aliasOf t path name) EmptyString) as [He|]; [|by split]. cbn [negb fst].
  pose proof (freshName_fresh name (used t)) as Hf. pose proof (freshName_nonempty name (used t) Hn) as Hne. set (alias := freshName name (used t)) in *.
  split; cbn [used].
  - intros p n a [(-> & -> & ->)|[_ Ha]]%importedAs_insert; [split_and!; [set_solver|intros Hr; by apply Hf, H4|done]|]. destruct (H1 p n a Ha) as (A & B & C). split_and!; [set_solver|done|done].
  - intros p n p' n' a [(-> & -> & ->)|[_ Ha]]%importedAs_insert [(-> & -> & Hq)|[_ Hb]]%importedAs_insert; [done| | |by apply (H2 p n p' n' a)].
    + by apply H1 in Hb as (Hb & _).
    + rewrite Hq in Ha. by apply H1 in Ha as (Ha & _).
  - intros p n a [(-> & -> & ->)|[_ Ha]]%importedAs_insert; [by apply Hreal|by apply (H3 p n a)].
  - set_solver.
Qed.

Lemma resolveType_real (table : gmap string apiTypeInfo) (ref : manifestRef) :
  (forall key info, table !! key = Some info -> messages index !! key = Some info \/ enums index !! key = Some info) ->
  let '(name, path) := resolveType table ref currentPath in path <> EmptyString -> realImport path name.
Proof.
  intros Ht. unfold resolveType. destruct (String.eqb _ _); [done|]. destruct (table !! _) as [info|] eqn:E; [|done].
  destruct (String.eqb_spec (infoPath info) currentPath); [done|]. destruct (importPath _ _) as [rel|] eqn:Er; [|done]. intros _.
  exists info. split; [eexists; exact (Ht _ _ E)|done].
Qed.

Lemma resolve_real (ref : option manifestRef) :
  let '(name, path) := resolve index ref currentPath in path <> EmptyString -> realImport path name.
Proof.
  unfold resolve. destruct ref as [ref|]; [|done]. destruct (String.eqb _ "well_known"); [done|].
  destruct (String.eqb _ "message"); [apply resolveType_real; auto|]. destruct (String.eqb _ "enum"); [apply resolveType_real; auto|done].
Qed.

(** A part of the generator keeps the imports well. *)
Definition keepsImports {B : Type} (f : typeImports -> typeImports * B) : Prop :=
  forall reserved t, importsOK reserved t -> importsOK reserved (fst (f t)).

Lemma linesOf_keeps {A : Type} (f : A -> typeImports -> typeImports * list string) (l : list A) :
  (forall a, keepsImports (f a)) -> keepsImports (linesOf f l).
Proof.
  intros Hf. induction l as [|a l IH]; intros reserved t Ht; cbn [linesOf]; [done|].
  pose proof (Hf a reserved t Ht) as H1. destruct (f a t) as [t1 x]. pose proof (IH reserved t1 H1) as H2. by destruct (linesOf f l t1).
Qed.

Lemma fieldBaseType_keeps (f : manifestField) : keepsImports (fieldBaseType f).
Proof.
  intros reserved t Ht. unfold fieldBaseType. destruct (fRef f) as [ref|]; [|done]. pose proof (resolve_real (Some ref)) as Hr.
  destruct (resolve index (Some ref) currentPath) as [name path]. apply addImport_OK; [|done]. intros Hp Hn.
  destruct (String.eqb_spec name EmptyString); [done|]. by apply Hr.
Qed.

Lemma fieldLines_keeps (f : manifestField) : keepsImports (fieldLines f).
Proof.
  intros reserved t Ht. unfold fieldLines, fieldTSType. destruct (String.eqb _ _); [done|]. pose proof (fieldBaseType_keeps f reserved t Ht). by destruct (fieldBaseType f t).
Qed.

Lemma messageLines_keeps (msg : manifestMessage) : keepsImports (messageLines msg).
Proof.
  intros reserved t Ht. unfold messageLines. destruct (String.eqb _ _); [done|].
  pose proof (linesOf_keeps fieldLines (msgFields msg) fieldLines_keeps reserved t Ht). by destruct (linesOf _ _ t).
Qed.

Lemma enumLines_keeps (e : manifestEnum) : keepsImports (enumLines e).
Proof. intros reserved t Ht. unfold enumLines. by destruct (String.eqb _ _). Qed.

Lemma renderQuery_keeps (fields : list manifestField) (ps : gset string) : keepsImports (renderQuery fields ps).
Proof.
  intros reserved t Ht. unfold renderQuery. assert (forall f, keepsImports (queryField ps f)) as Hq.
  { intros f r u Hu. unfold queryField. destruct (_ || _); [done|]. pose proof (fieldBaseType_keeps f r u Hu). by destruct (fieldBaseType f u). }
  pose proof (linesOf_keeps (queryField ps) fields Hq reserved t Ht). by destruct (linesOf _ _ t).
Qed.

Lemma methodType_keeps (name : string) (ref : option manifestRef) : keepsImports (methodType name ref).
Proof.
  intros reserved t Ht. unfold methodType. destruct ref as [ref|]; [|done]. pose proof (resolve_real (Some ref)) as Hr.
  destruct (resolve index (Some ref) currentPath) as [n path]. destruct (String.eqb n EmptyString); [done|].
  pose proof (addImport_OK reserved path n t (fun Hp _ => Hr Hp) Ht). by destruct (addImport path n t).
Qed.

Lemma methodLines_keeps (m : resourceManifest) (sm : manifestService * manifestMethod) : keepsImports (methodLines m sm).
Proof.
  intros reserved t Ht. unfold methodLines. pose proof (methodType_keeps (mtRequest (snd sm)) (mtRequestRef (snd sm)) reserved t Ht) as H1.
  destruct (methodType _ _ t) as [t1 reqType]. pose proof (methodType_keeps (mtResponse (snd sm)) (mtResponseRef (snd sm)) reserved t1 H1) as H2.
  destruct (methodType _ _ t1) as [t2 respType]. cbn [fst] in *. destruct (String.eqb _ "GET"); [|done].
  pose proof (renderQuery_keeps (messageFields m (mtRequestRef (snd sm)) reqType) (pathParamNames (mtHTTPPath (snd sm))) reserved t2 H2) as H3.
  by destruct (renderQuery _ _ t2).
Qed.

Lemma apiBody_imports (m : resourceManifest) : importsOK (used (newTypeImports m)) (fst (apiBody m)).
Proof.
  unfold apiBody. assert (importsOK (used (newTypeImports m)) (newTypeImports m)) as H0.
  { split; [intros p n a|intros p n p' n' a|intros p n a|done]; unfold importedAs, newTypeImports; cbn [byPath]; rewrite lookup_empty; done. }
  pose proof (linesOf_keeps enumLines (sortSlice enGoName (rmEnums m)) enumLines_keeps _ _ H0) as H1. destruct (linesOf enumLines _ _) as [t1 es].
  pose proof (linesOf_keeps messageLines (sortSlice msgGoName (rmMessages m)) messageLines_keeps _ _ H1) as H2. destruct (linesOf messageLines _ _) as [t2 ms].
  pose proof (linesOf_keeps (methodLines m) (allMethods m) (methodLines_keeps m) _ _ H2) as H3. by destruct (linesOf (methodLines m) _ _) as [t3 fs].
Qed.

End Render.

(** ** The index *)

Definition declares (m : resourceManifest) (name : string) : Prop :=
  In name (map msgGoName (rmMessages m)) \/ In name (map enGoName (rmEnums m)).

Definition fromManifest (ms : list resourceManifest) (apiDir : string) (info : apiTypeInfo) : Prop :=
  exists m, In m ms /\ apiFilePath apiDir (rmSource m) = Ok (infoPath info) /\ declares m (infoName info).

Lemma fold_table {A : Type} (key : A -> string) (info : A -> apiTypeInfo) (l : list A) (t : gmap string apiTypeInfo) (k : string) (i : apiTypeInfo) :
  fold_left (fun t a => <[key a := info a]> t) l t !! k = Some i -> t !! k = Some i \/ exists a, In a l /\ info a = i.
Proof.
  revert t. induction l as [|a l IH]; intros t; [by left|]. cbn [fold_left]. intros [H|(b & Hb & <-)]%IH; [|right; exists b; split; [by right|done]].
  destruct (decide (key a = k)) as [<-|Hne]; [|rewrite lookup_insert_ne in H by done; by left].
  rewrite lookup_insert_eq in H. injection H as <-. right. exists a. split; [by left|done].
Qed.

Lemma buildAPIIndex_spec (ms : list resourceManifest) (apiDir : string) (idx : apiIndex) :
  buildAPIIndex ms apiDir = Ok idx ->
  (forall key info, messages idx !! key = Some info \/ enums idx !! key = Some info -> fromManifest ms apiDir info) /\
  forall m, In m ms -> exists path, apiFilePath apiDir (rmSource m) = Ok path.
Proof.
  unfold buildAPIIndex.
  assert (forall l idx0, (forall m, In m l -> In m ms) -> (forall key info, messages idx0 !! key = Some info \/ enums idx0 !! key = Some info -> fromManifest ms apiDir info) ->
    indexManifests l apiDir idx0 = Ok idx -> (forall key info, messages idx !! key = Some info \/ enums idx !! key = Some info -> fromManifest ms apiDir info) /\
    forall m, In m l -> exists path, apiFilePath apiDir (rmSource m) = Ok path) as H.
  { induction l as [|m l IH]; intros idx0 Hl H0 E; cbn [indexManifests] in E; [by injection E as <-|].
    destruct (apiFilePath apiDir (rmSource m)) as [path|] eqn:Ep; [|done]. apply IH in E as [E1 E2].
    - split; [done|]. intros m' [<-|Hm]; [by exists path|by apply E2].
    - intros m' Hm. apply Hl. by right.
    - assert (In m ms) as Hm by (apply Hl; by left). cbn [messages enums].
      intros key info [Hk|Hk].
      + apply (fold_table (fun msg => apiTypeKey (rmGoPackage m) (msgGoName msg)) (fun msg => mkTypeInfo (rmSource m) path (msgGoName msg) (msgFields msg))) in Hk
          as [Hk|(a & Ha & <-)]; [apply (H0 key); by left|]. exists m. split; [done|]. split; [done|]. left. by apply (in_map msgGoName).
      + apply (fold_table (fun e => apiTypeKey (rmGoPackage m) (enGoName e)) (fun e => mkTypeInfo (rmSource m) path (enGoName e) [])) in Hk
          as [Hk|(a & Ha & <-)]; [apply (H0 key); by right|]. exists m. split; [done|]. split; [done|]. right. by apply (in_map enGoName). }
  apply H; [done|]. intros key info. cbn. rewrite lookup_empty. by intros [?|?].
Qed.

(** The imports of a generated module: each specifier, resolved from the directory of
    the module, is the file of a manifest that declares the type; no two of them have one
    local name, and none has the name of a type of the module itself or of [http]. *)
Theorem api_imports_resolve (ms : list resourceManifest) (apiDir : string) (ep : list string) (idx : apiIndex) (m : resourceManifest) (cur : string) :
  rootedClean apiDir ep -> buildAPIIndex ms apiDir = Ok idx -> apiFilePath apiDir (rmSource m) = Ok cur ->
  (forall m' file, In m' ms -> apiFilePath apiDir (rmSource m') = Ok file -> HasPrefix cur (file +:+ "/") = false) ->
  let t := fst (apiBody idx cur m) in
  (forall path name alias, importedAs t path name alias ->
    (exists m' file, In m' ms /\ apiFilePath apiDir (rmSource m') = Ok file /\ declares m' name /\ file <> cur /\
      HasPrefix path "." = true /\ Clean (Dir cur +:+ "/" +:+ path +:+ ".ts") = file) /\
    alias <> "http" /\ (alias <> EmptyString -> ~ declares m alias)) /\
  (forall path name path' name' alias, importedAs t path name alias -> importedAs t path' name' alias -> path = path' /\ name = name').
Proof.
  intros Hd Hidx Hcur Hnest t. destruct (apiBody_imports idx cur m) as [H1 H2 H3 _]. fold t in H1, H2, H3. split; [|exact H2].
  intros path name alias Ha. destruct (H1 path name alias Ha) as (_ & Hr & _). split.
  - destruct (H3 path name alias Ha) as (info & (key & Hk) & <- & Hne & Hp).
    destruct (proj1 (buildAPIIndex_spec ms apiDir idx Hidx) key info Hk) as (m' & Hm & Hf & Hdec). exists m', (infoPath info).
    split; [done|]. split; [done|]. split; [done|]. split; [done|].
    destruct (apiFilePath_below apiDir (rmSource m) cur ep Hd Hcur) as (es & x & Hce).
    destruct (apiFilePath_below apiDir (rmSource m') (infoPath info) ep Hd Hf) as (fs & y & Hfe).
    rewrite app_assoc in Hce, Hfe. destruct (importPath_resolves cur (infoPath info) (x +:+ ".ts") y (ep ++ es) (ep ++ fs) Hce Hfe) as (spec & Hs & Hp1 & Hp2).
    + intros k Hk'. pose proof (Hnest m' (infoPath info) Hm Hf) as Hpre. rewrite Hk' in Hce. destruct Hce as [Hc1 Hc2]. destruct Hfe as [Hf1 _].
      assert (HasPrefix cur (infoPath info +:+ "/") = true) as E; [|by rewrite E in Hpre]. apply HasPrefix_spec. exists (Join (k ++ [x +:+ ".ts"]) "/").
      rewrite Hc1, Hf1, <- app_assoc, Join_app; [by rewrite !append_assoc|by destruct (ep ++ fs)|by destruct k].
    + rewrite Hs in Hp. injection Hp as <-. by split.
  - assert (forall n, (n = "http" \/ (n <> EmptyString /\ declares m n)) -> n ∈ used (newTypeImports m)) as Hin.
    { intros n Hn. unfold newTypeImports. cbn [used]. rewrite elem_of_list_to_set, list_elem_of_In. destruct Hn as [->|[Hne Hn]]; [by left|right].
      apply List.filter_In. split; [apply in_app_iff; exact Hn|]. by rewrite (proj2 (String.eqb_neq _ _) Hne). }
    split; [intros ->; apply Hr, Hin; by left|]. intros Hne Hn. apply Hr, Hin. by right.
Qed.

Definition demoRef (pkg name : string) : manifestRef := mkRef "message" pkg name.

(** Two types [User] of other packages, imported side by side. *)
Definition demoAPI : list resourceManifest :=
  [mkManifest "shop/v1/order.proto" "shop/v1" "v1" None
     [mkMessage "OrderView" [mkField "buyer" "User" (Some (demoRef "user/v1" "User")) false false;
                             mkField "seller" "User" (Some (demoRef "admin/v1" "User")) true false]] [] []
     [mkService "OrderService" EmptyString []
        [mkMethod "Delete" EmptyString EmptyString (Some (demoRef "shop/v1" "OrderView")) None "DELETE" "/shop/orders/:id" EmptyString]];
   mkManifest "user/v1/user.proto" "user/v1" "v1" None [mkMessage "User" [mkField "name" "string" None false false]] [] [] [];
   mkManifest "admin/v1/user.proto" "admin/v1" "v1" None [mkMessage "User" [mkField "name" "string" None false false]] [] [] []].

Lemma api_imports_resolve_witness :
  exists idx m, In m demoAPI /\ buildAPIIndex demoAPI "/api" = Ok idx /\
  importedAs (fst (apiBody idx "/api/shop/v1/order.ts" m)) "../../admin/v1/user" "User" "User_2" /\
  Clean (Dir "/api/shop/v1/order.ts" +:+ "/" +:+ "../../admin/v1/user" +:+ ".ts") = "/api/admin/v1/user.ts" /\ ~ declares m "User_2".
Proof.
  destruct (buildAPIIndex demoAPI "/api") as [idx|] eqn:E; [|by vm_compute in E]. exists idx.
  destruct demoAPI as [|m l] eqn:Ed; [done|]. exists m. split; [by left|]. split; [done|].
  assert (importedAs (fst (apiBody idx "/api/shop/v1/order.ts" m)) "../../admin/v1/user" "User" "User_2") as Hi.
  { unfold demoAPI in Ed. injection Ed as <- <-. vm_compute in E. injection E as <-. by vm_compute. }
  split; [exact Hi|]. split; [by vm_compute|].
  refine (proj2 (proj2 (proj1 (api_imports_resolve (m :: l) "/api" ["api"] idx m "/api/shop/v1/order.ts" _ E _ _) _ _ _ Hi)) _); [|..|done].
  - split; [done|]. by repeat constructor.
  - unfold demoAPI in Ed. injection Ed as <- _. by vm_compute.
  - rewrite <- Ed. intros m' file [<-|[<-|[<-|[]]]] Hf; vm_compute in Hf; injection Hf as <-; by vm_compute.
Defined.

(** ** Paths *)

Definition unparse (p : piece) : string := match p with Lit a => String a EmptyString | Param n => ":" +:+ n end.

Fixpoint allPart (s : string) : bool := match s with EmptyString => true | String a s => identPart a && allPart s end.
Definition isIdent (s : string) : bool := match s with EmptyString => false | String a s => identStart a && allPart s end.

Lemma allPart_snoc (s : string) (a : ascii) : allPart (s +:+ String a EmptyString) = allPart s && identPart a.
Proof. induction s as [|b s IH]; cbn; [by rewrite andb_true_r|]. by rewrite IH, andb_assoc. Qed.

Lemma Join_cons (x : string) (l : list string) : Join (x :: l) EmptyString = x +:+ Join l EmptyString.
Proof. destruct l; [by rewrite append_nil_r|done]. Qed.

(** Where a match is open its name is an identifier, or about to start. *)
Definition openName (cur : option string) (s : string) : Prop :=
  match cur with
  | None => True
  | Some n => if String.eqb n EmptyString then startsIdent s = true else isIdent n = true
  end.

Lemma pathPieces_spec (s : string) (cur : option string) :
  openName cur s ->
  Join (map unparse (pathPieces cur s)) EmptyString = match cur with None => s | Some n => ":" +:+ n +:+ s end /\
  Forall (fun p => match p with Lit _ => True | Param n => isIdent n = true end) (pathPieces cur s).
Proof.
  revert cur. induction s as [|a s IH]; intros cur Ho.
  { destruct cur as [n|]; [|done]. cbn [openName startsIdent] in Ho. destruct (String.eqb n EmptyString); [done|].
    cbn [pathPieces map unparse Join]. rewrite append_nil_r. split; [done|]. by repeat constructor. }
  cbn [pathPieces].
  set (outside := if Ascii.eqb a ":" && startsIdent s then _ else _).
  assert (Join (map unparse outside) EmptyString = String a s /\
          Forall (fun p => match p with Lit _ => True | Param n => isIdent n = true end) outside) as [O1 O2].
  { unfold outside. destruct (Ascii.eqb_spec a ":") as [->|_]; [destruct (startsIdent s) eqn:Es|]; cbn [andb].
    - destruct (IH (Some EmptyString) Es) as [H1 H2]. by split.
    - destruct (IH None I) as [H1 H2]. cbn [map]. rewrite Join_cons, H1. split; [done|]. by constructor.
    - destruct (IH None I) as [H1 H2]. cbn [map]. rewrite Join_cons, H1. split; [done|]. by constructor. }
  clearbody outside. destruct cur as [n|]; [|done]. cbn [openName] in Ho. destruct (identPart a) eqn:Ea.
  - destruct (IH (Some (n +:+ String a EmptyString))) as [H1 H2].
    + cbn [openName]. assert (String.eqb (n +:+ String a EmptyString) EmptyString = false) as -> by by destruct n.
      destruct n as [|b n]; cbn in Ho |- *; [by rewrite Ho|]. apply andb_true_iff in Ho as [-> Ho]. by rewrite allPart_snoc, Ho, Ea.
    + split; [|done]. rewrite H1. by rewrite (append_assoc n).
  - destruct (String.eqb n EmptyString); [cbn [startsIdent] in Ho; unfold identPart in Ea; by rewrite Ho in Ea|].
    cbn [map]. rewrite Join_cons, O1. split; [cbn [unparse]; by rewrite append_assoc|]. by constructor.
Qed.

(** The URL of a generated function: the path of the RPC with every parameter, and
    nothing else, replaced by the encoded field of that name; the fields of the path, and
    only they, are left out of the query. *)
Theorem api_path_params (path : string) :
  let ps := pathPieces None path in
  Join (map unparse ps) EmptyString = path /\
  renderPath path = Join (map renderPiece ps) EmptyString /\
  (forall n, n ∈ pathParamNames path <-> In (Param n) ps) /\
  (forall n, In (Param n) ps -> isIdent n = true).
Proof.
  intros ps. destruct (pathPieces_spec path None I) as [H1 H2]. fold ps in H1, H2. split; [done|]. split; [done|]. split.
  - intros n. unfold pathParamNames, pathParams. fold ps. rewrite elem_of_list_to_set, list_elem_of_In, in_flat_map. split.
    + intros ([a|k] & Hin & Hn); [done|]. by destruct Hn as [->|[]].
    + intros Hin. exists (Param n). split; [done|by left].
  - intros n Hin. rewrite List.Forall_forall in H2. exact (H2 _ Hin).
Qed.

(** ** Names *)

Lemma tsFunctionName_free (goName : string) : isReserved (tsFunctionName goName) = false.
Proof. unfold tsFunctionName. destruct (isReserved (lowerFirst goName)) eqn:E; [reflexivity|done]. Qed.

Lemma distinctNumbers_spec (values : list manifestEnumValue) :
  NoDup (distinctNumbers values) /\ forall n, In n (distinctNumbers values) <-> In n (map evNumber values).
Proof.
  unfold distinctNumbers. assert (forall l acc, NoDup acc ->
    NoDup (fold_left (fun ns v => if existsb (Z.eqb (evNumber v)) ns then ns else ns ++ [evNumber v]) l acc) /\
    forall n, In n (fold_left (fun ns v => if existsb (Z.eqb (evNumber v)) ns then ns else ns ++ [evNumber v]) l acc) <-> In n acc \/ In n (map evNumber l)) as H.
  { induction l as [|v l IH]; intros acc Hacc; cbn [fold_left map In]; [split; [done|tauto]|].
    destruct (existsb (Z.eqb (evNumber v)) acc) eqn:E.
    - destruct (IH acc Hacc) as [A B]. split; [done|]. intros n. rewrite B. apply existsb_exists in E as (x & Hx & E). apply Z.eqb_eq in E. subst x.
      split; [tauto|]. intros [Hn|[Hn|Hn]]; [by left|left; by rewrite <- Hn|by right].
    - destruct (IH (acc ++ [evNumber v])) as [A B].
      + apply NoDup_app. split; [done|]. split; [|apply NoDup_singleton]. intros x Hx ->%list_elem_of_singleton.
        assert (existsb (Z.eqb (evNumber v)) acc = true) as Ht; [|by rewrite Ht in E]. apply existsb_exists. exists (evNumber v).
        split; [by apply list_elem_of_In|apply Z.eqb_refl].
      + split; [done|]. intros n. rewrite B, in_app_iff. cbn [In]. tauto. }
  destruct (H values []) as [A B]; [apply NoDup_nil_2|]. split; [done|]. intros n. rewrite B. cbn [In]. tauto.
Qed.

(** The file starts with the header that marks it as generated. *)
Lemma renderAPI_header (index : apiIndex) (cur : string) (m : resourceManifest) :
  renderAPI index cur m = EmptyString \/ HasPrefix (renderAPI index cur m) generatedTSHeader = true.
Proof.
  unfold renderAPI. destruct (isEmptyAPI m); [by left|right]. destruct (apiBody index cur m) as [t body]. apply HasPrefix_spec.
  unfold terminated. cbn [map app]. rewrite Join_cons. rewrite append_assoc. by eexists.
Qed.

Definition demoMethod (name verb path : string) : manifestMethod := mkMethod name EmptyString EmptyString None None verb path EmptyString.
Definition demoService (name : string) (ms : list manifestMethod) : manifestService := mkService name EmptyString [] ms.
Definition demoServices (ss : list manifestService) : resourceManifest := mkManifest "a.proto" "a" "a" None [] [] [] ss.

(** A method that is renamed because its name is taken twice may take the name of a third. *)
Example function_names_clash :
  let m := demoServices [demoService "User" [demoMethod "Get" "GET" "/u"]; demoService "Role" [demoMethod "Get" "GET" "/r"];
                         demoService "Misc" [demoMethod "UserGet" "GET" "/m"]] in
  map (functionName m) (allMethods m) = ["userGet"; "roleGet"; "userGet"].
Proof. by vm_compute. Qed.

(** A method [Http] has the name of the import. *)
Example function_name_http : tsFunctionName "Http" = "http" /\ tsFunctionName "Delete" = "rpcDelete".
Proof. by vm_compute. Qed.

(** Without a request type the function has no [req], which a path parameter uses. *)
Example path_without_request :
  let m := demoServices [demoService "User" [demoMethod "Get" "GET" "/u/:id"]] in
  let text := renderAPI (mkIndex ∅ ∅) "/api/a.ts" m in
  Contains text "export function get(): Promise<void> {" = true /\ Contains text "String(req.id)" = true.
Proof. by vm_compute. Qed.

Example renderPath_runs :
  renderPath "/a/:id/b:7/:x_y2-z" = "/a/${encodeURIComponent(String(req.id))}/b:7/${encodeURIComponent(String(req.x_y2))}-z" /\
  pathParams "/a/:id/b:7/:x_y2-z" = ["id"; "x_y2"].
Proof. by vm_compute. Qed.
