(* ===== verification/ApiFiles.v ===== *)
(** [cmd/aeus/api.go], [cmd/aeus/gen.go]: what [aeus gen] and [aeus gen --check] do to the
    files: the manifests they read, the files they write and those they leave alone. *)

From Stdlib Require Import ZArith Lia String Ascii List Bool.
From stdpp Require Import base tactics list gmap strings pretty sorting.
From S2P Require Import Prelude GoStrings GoPath Errs Derive Manifest VueGen ApiPath ApiGen WireGen.

Local Open Scope string_scope.
Local Open Scope list_scope.
Local Open Scope aeus_scope.

(** [os.ReadFile]; [Err None]: not there. *)
Class Readable (FS : Type) : Type := { ReadFile : string -> FS -> result (option error) string }.

(** What is read is what is there, and stays so while other files are written. *)
Class ReadableLaws (FS : Type) `{FileSystem FS} `{!Readable FS} : Prop := {
  ReadFile_ok path fs c : ReadFile path fs = Ok c -> content fs path = Some c;
  ReadFile_missing path fs : ReadFile path fs = Err None -> content fs path = None;
  ReadFile_written path c fs fs' : WriteFile path c fs = (fs', None) -> ReadFile path fs' = Ok c;
  ReadFile_other path path' c fs c' : path <> path' -> ReadFile path fs = Ok c -> ReadFile path (fst (WriteFile path' c' fs)) = Ok c;
  ReadFile_mkdir path dir fs c : ReadFile path fs = Ok c -> ReadFile path (fst (MkdirAll dir fs)) = Ok c;
}.

Section Files.

Context {FS : Type} `{HFS : FileSystem FS} `{HFSL : !FileSystemLaws FS} `{HR : !Readable FS} `{HRL : !ReadableLaws FS}.

(** ** generateAPIFiles *)

Definition outOfDate (path : string) : error := EPlain (path +:+ " is out of date; run `aeus gen`").

(** One manifest whose text is [body]. *)
Definition generateAPIOne (check : bool) (path body : string) (t : tally) (fs : FS) : FS * result error tally :=
  let write fs :=
    match WriteFile path body fs with
    | (fs, Some err) => (fs, Err (wrapf ("write " +:+ path) err))
    | (fs, None) => (fs, Ok (mkTally (written t + 1) (skipped t) (missing t)))
    end in
  let skip := (fs, Ok (mkTally (written t) (skipped t + 1) (missing t))) in
  match ReadFile path fs with
  | Ok existing =>
      if negb (HasPrefix existing generatedTSHeader) then skip
      else if String.eqb existing body then skip
      else if check then (fs, Err (outOfDate path))
      else write fs
  | Err (Some err) => (fs, Err (wrapf ("read " +:+ path) err))
  | Err None =>
      if check then (fs, Ok (mkTally (written t) (skipped t) (missing t ++ [path])))
      else match MkdirAll (Dir path) fs with
           | (fs, Some err) => (fs, Err (wrapf ("mkdir " +:+ Dir path) err))
           | (fs, None) => write fs
           end
  end.

Fixpoint generateAPILoop (index : apiIndex) (ms : list resourceManifest) (apiDir : string) (check : bool) (seen : gset string) (t : tally) (fs : FS)
  : FS * result error tally :=
  match ms with
  | [] => (fs, Ok t)
  | m :: ms =>
      match apiFilePath apiDir (rmSource m) with
      | Err err => (fs, Err err)
      | Ok path =>
          let body := renderAPI index path m in
          if String.eqb body EmptyString then generateAPILoop index ms apiDir check seen t fs
          else if bool_decide (path ∈ seen) then generateAPILoop index ms apiDir check seen t fs
          else
            match generateAPIOne check path body t fs with
            | (fs, Err err) => (fs, Err err)
            | (fs, Ok t) => generateAPILoop index ms apiDir check ({[path]} ∪ seen) t fs
            end
      end
  end.

Definition generateAPIFiles (ms : list resourceManifest) (apiDir : string) (check : bool) (fs : FS) : FS * result error tally :=
  match buildAPIIndex ms apiDir with
  | Err err => (fs, Err err)
  | Ok index => generateAPILoop index ms apiDir check ∅ (mkTally 0 0 []) fs
  end.

(** ** loadManifests *)

(** A directory tree as [filepath.WalkDir] meets it: a file, a directory, an entry that
    cannot be read. *)
Inductive node : Type :=
| NFile (name : string)
| NDir (name : string) (children : list node)
| NBad (name : string) (e : error).

Definition nodeName (n : node) : string := match n with NFile s | NDir s _ | NBad s _ => s end.

Section Load.

(** [json.Unmarshal] of a manifest, and [os.Stat]: whether a path is there. *)
Variable Unmarshal : string -> result error resourceManifest.
Variable exists_ : string -> FS -> bool.

(** [filepath.Dir] of the root and the root itself are where the proto file may be. *)
Definition sourceFound (root source : string) (fs : FS) : bool :=
  existsb (fun base => exists_ (JoinAll [base; source]) fs) [root; Dir root].

Definition loadOne (root path : string) (fs : FS) : result error resourceManifest :=
  match ReadFile path fs with
  | Err e => Err (default (EPlain ("open " +:+ path +:+ ": no such file or directory")) e)
  | Ok data =>
      match Unmarshal data with
      | Err e => Err (wrapf ("parse " +:+ path) e)
      | Ok m =>
          if String.eqb (rmGoPackage m) EmptyString then Err (EPlain (path +:+ ": go_package is empty"))
          else
            let source := Clean (rmSource m) in
            if String.eqb (rmSource m) EmptyString || escapes source then Err (EPlain (path +:+ ": invalid proto source " +:+ quote (rmSource m)))
            else if negb (sourceFound root source fs) then
                   Err (EPlain (path +:+ ": stale manifest for " +:+ quote (rmSource m) +:+ " (source not found under " +:+ root
                                +:+ "); rerun `make proto` or remove stale generated files"))
                 else Ok m
      end
  end.

(** The walk: depth first, what it finds is appended. *)
Fixpoint walk (root path : string) (n : node) (acc : list resourceManifest) (fs : FS) : result error (list resourceManifest) :=
  match n with
  | NBad _ e => Err e
  | NDir name children =>
      if String.eqb name ".git" || String.eqb name "node_modules" then Ok acc
      else
        (fix all (l : list node) (acc : list resourceManifest) : result error (list resourceManifest) :=
           match l with
           | [] => Ok acc
           | c :: l => match walk root (JoinAll [path; nodeName c]) c acc fs with Err e => Err e | Ok acc => all l acc end
           end) children acc
  | NFile name =>
      if HasSuffix name "_aeus.json" then
        match loadOne root path fs with Err e => Err e | Ok m => Ok (acc ++ [m]) end
      else Ok acc
  end.

Definition loadManifests (root : string) (tree : node) (fs : FS) : result error (list resourceManifest) :=
  match walk root root tree [] fs with
  | Err e => Err (wrapf ("scan " +:+ root) e)
  | Ok ms => Ok (sortSlice rmSource ms)
  end.

(** ** runGen *)

Record genOptions : Type := mkGenOptions {
  protoDir : string; outDir : string; goPkg : string; fileName : string; webDir : string; apiDir : string;
  noWeb : bool; noAPI : bool; checkOnly : bool;
}.

(** [flag.Parse] gives the options and what is left of the arguments; [format.Source]. *)
Variable parseFlags : list string -> result error (genOptions * list string).
Variable formatSource : string -> result error string.
Context {HU : Unicode}.

(** The two generators of the web, as a check: the files that are missing. *)
Definition checkWeb (o : genOptions) (ms : list resourceManifest) (fs : FS) : FS * result error (list string) :=
  let '(fs, vue) := if noWeb o then (fs, Ok (mkTally 0 0 [])) else generateVueFiles (map rmEntities ms) (webDir o) true fs in
  match vue with
  | Err e => (fs, Err e)
  | Ok v =>
      let '(fs, api) := if noAPI o then (fs, Ok (mkTally 0 0 [])) else generateAPIFiles ms (apiDir o) true fs in
      match api with
      | Err e => (fs, Err e)
      | Ok a => (fs, Ok (missing v ++ missing a))
      end
  end.

Definition writeWeb (o : genOptions) (ms : list resourceManifest) (fs : FS) : FS * option error :=
  let '(fs, vue) := if noWeb o then (fs, Ok (mkTally 0 0 [])) else generateVueFiles (map rmEntities ms) (webDir o) false fs in
  match vue with
  | Err e => (fs, Some e)
  | Ok _ =>
      let '(fs, api) := if noAPI o then (fs, Ok (mkTally 0 0 [])) else generateAPIFiles ms (apiDir o) false fs in
      match api with
      | Err e => (fs, Some e)
      | Ok _ => (fs, None)
      end
  end.

(** After the flags: the Go file, then the web. *)
Definition genWith (o : genOptions) (tree : node) (fs : FS) : FS * option error :=
  match loadManifests (protoDir o) tree fs with
  | Err e => (fs, Some e)
  | Ok ms =>
      let source := renderGenerated (goPkg o) ms in
      match formatSource source with
      | Err e => (fs, Some (wrapf "gofmt generated source" e))
      | Ok formatted =>
          let target := JoinAll [outDir o; fileName o] in
          if checkOnly o then
            match ReadFile target fs with
            | Err e => (fs, Some (wrapf ("read " +:+ target) (default (EPlain "file does not exist") e)))
            | Ok existing =>
                if negb (String.eqb existing formatted) then (fs, Some (outOfDate target))
                else match checkWeb o ms fs with
                     | (fs, Err e) => (fs, Some e)
                     | (fs, Ok []) => (fs, None)
                     | (fs, Ok l) => (fs, Some (EPlain ("missing generated file(s): " +:+ Join l ", ")))
                     end
            end
          else
            match MkdirAll (outDir o) fs with
            | (fs, Some e) => (fs, Some e)
            | (fs, None) =>
                match WriteFile target formatted fs with
                | (fs, Some e) => (fs, Some e)
                | (fs, None) => writeWeb o ms fs
                end
            end
      end
  end.

Definition runGen (args : list string) (tree : node) (fs : FS) : FS * option error :=
  match parseFlags args with
  | Err e => (fs, Some e)
  | Ok (o, []) => genWith o tree fs
  | Ok (_, rest) => (fs, Some (EPlain ("gen: unexpected arguments: " +:+ Join rest " ")))
  end.

(** ** What is left alone *)

(** One file system after another: a file that changed was missing, or generated before. *)
Definition refreshes (fs fs' : FS) (P : string -> Prop) : Prop :=
  forall path, content fs' path = content fs path \/
  ((content fs path = None \/ exists c, content fs path = Some c /\ HasPrefix c generatedTSHeader = true) /\ P path).

Lemma refreshes_refl (fs : FS) (P : string -> Prop) : refreshes fs fs P.
Proof. intros path. by left. Qed.

Lemma refreshes_trans (fs1 fs2 fs3 : FS) (P : string -> Prop) : refreshes fs1 fs2 P -> refreshes fs2 fs3 P -> refreshes fs1 fs3 P.
Proof.
  intros H1 H2 path. destruct (H1 path) as [E1|E1]; [|by right]. destruct (H2 path) as [E2|[E2 Hp]]; [left; congruence|right].
  by rewrite E1 in E2.
Qed.

Lemma generateAPIOne_refreshes (check : bool) (path body : string) (t : tally) (fs : FS) (P : string -> Prop) :
  P path -> refreshes fs (fst (generateAPIOne check path body t fs)) P.
Proof.
  intros Hp. unfold generateAPIOne. destruct (ReadFile path fs) as [c|[e|]] eqn:Er.
  - destruct (HasPrefix c generatedTSHeader) eqn:Eh; cbn [negb]; [|apply refreshes_refl]. destruct (String.eqb c body); [apply refreshes_refl|].
    destruct check; [apply refreshes_refl|]. intros q. destruct (WriteFile path body fs) as [fs' e] eqn:Ew. pose proof (WriteFile_other path body fs) as Ho. rewrite Ew in Ho. cbn [fst] in Ho.
    destruct (String.eqb_spec q path) as [->|Hne]; [right; split; [right; exists c; split; [by apply ReadFile_ok|done]|done]|left]. destruct e; cbn [fst]; by apply Ho.
  - apply refreshes_refl.
  - destruct check; [apply refreshes_refl|]. intros q. destruct (MkdirAll (Dir path) fs) as [fs1 e1] eqn:Em. pose proof (MkdirAll_content (Dir path) fs q) as Hm. rewrite Em in Hm. cbn [fst] in Hm.
    destruct e1; cbn [fst]; [by left|]. destruct (WriteFile path body fs1) as [fs' e] eqn:Ew. pose proof (WriteFile_other path body fs1) as Ho. rewrite Ew in Ho. cbn [fst] in Ho.
    destruct (String.eqb_spec q path) as [->|Hne]; [right; split; [left; by apply ReadFile_missing|done]|left]. destruct e; cbn [fst]; rewrite Ho by done; done.
Qed.

Lemma generateAPILoop_refreshes (index : apiIndex) (ms : list resourceManifest) (apiDir : string) (check : bool) (P : string -> Prop) :
  (forall m path, In m ms -> apiFilePath apiDir (rmSource m) = Ok path -> P path) ->
  forall seen t fs, refreshes fs (fst (generateAPILoop index ms apiDir check seen t fs)) P.
Proof.
  induction ms as [|m ms IH]; intros HP seen t fs; cbn [generateAPILoop]; [apply refreshes_refl|].
  destruct (apiFilePath apiDir (rmSource m)) as [path|] eqn:Ep; [|apply refreshes_refl].
  specialize (IH (fun m' path' Hm => HP m' path' (or_intror Hm))). destruct (String.eqb _ _); [apply IH|]. case_bool_decide; [apply IH|].
  pose proof (generateAPIOne_refreshes check path (renderAPI index path m) t fs P (HP m path (or_introl eq_refl) Ep)) as H1.
  destruct (generateAPIOne check path _ t fs) as [fs1 [t1|e]]; [|exact H1]. exact (refreshes_trans _ _ _ P H1 (IH _ _ _)).
Qed.

Lemma generateAPIOne_check (path body : string) (t : tally) (fs : FS) : fst (generateAPIOne true path body t fs) = fs.
Proof. unfold generateAPIOne. destruct (ReadFile path fs) as [c|[e|]]; [|done..]. destruct (negb _); [done|]. by destruct (String.eqb _ _). Qed.

Lemma generateAPIFiles_check (ms : list resourceManifest) (apiDir : string) (fs : FS) : fst (generateAPIFiles ms apiDir true fs) = fs.
Proof.
  unfold generateAPIFiles. destruct (buildAPIIndex ms apiDir) as [index|]; [|done]. generalize (∅ : gset string) as seen, (mkTally 0 0 []) as t.
  induction ms as [|m ms IH]; intros seen t; cbn [generateAPILoop]; [done|]. destruct (apiFilePath _ _) as [v|]; [|done]. destruct (String.eqb _ _); [apply IH|].
  case_bool_decide; [apply IH|]. pose proof (generateAPIOne_check v (renderAPI index v m) t fs) as H1. destruct (generateAPIOne true v _ t fs) as [fs1 [t1|e]]; [|exact H1].
  cbn [fst] in H1. subst fs1. apply IH.
Qed.

(** ** A second run *)

(** A file that a run leaves as it is. *)
Definition settled (fs : FS) (path body : string) : Prop :=
  exists c, ReadFile path fs = Ok c /\ (HasPrefix c generatedTSHeader = false \/ c = body).

Lemma generateAPIOne_settled (check : bool) (path body : string) (t : tally) (fs : FS) :
  settled fs path body -> generateAPIOne check path body t fs = (fs, Ok (mkTally (written t) (skipped t + 1) (missing t))).
Proof.
  intros (c & Hc & H). unfold generateAPIOne. rewrite Hc. destruct H as [->| ->]; [done|]. destruct (negb _); [done|]. by rewrite String.eqb_refl.
Qed.

Lemma generateAPIOne_settles (path body : string) (t t' : tally) (fs fs' : FS) :
  generateAPIOne false path body t fs = (fs', Ok t') ->
  settled fs' path body /\ forall p b, p <> path -> settled fs p b -> settled fs' p b.
Proof.
  unfold generateAPIOne. destruct (ReadFile path fs) as [c|[e|]] eqn:Er; [| done|].
  - destruct (HasPrefix c generatedTSHeader) eqn:Eh; cbn [negb].
    + destruct (String.eqb_spec c body) as [->|]; [intros [= <- <-]; split; [by exists body; split; [|right]|done]|].
      destruct (WriteFile path body fs) as [fs1 [e|]] eqn:Ew; [done|]. intros [= <- <-]. split; [exists body; split; [by eapply ReadFile_written|by right]|].
      intros p b Hne (x & Hx & H). exists x. split; [|done]. pose proof (ReadFile_other p path x fs body Hne Hx) as Ho. by rewrite Ew in Ho.
    + intros [= <- <-]. split; [exists c; split; [done|by left]|done].
  - destruct (MkdirAll (Dir path) fs) as [fs1 [e|]] eqn:Em; [done|]. destruct (WriteFile path body fs1) as [fs2 [e|]] eqn:Ew; [done|]. intros [= <- <-].
    split; [exists body; split; [by eapply ReadFile_written|by right]|]. intros p b Hne (x & Hx & H). exists x. split; [|done].
    pose proof (ReadFile_mkdir p (Dir path) fs x Hx) as Hm. rewrite Em in Hm. pose proof (ReadFile_other p path x fs1 body Hne Hm) as Ho. by rewrite Ew in Ho.
Qed.

Fixpoint allSettled (index : apiIndex) (ms : list resourceManifest) (apiDir : string) (seen : gset string) (fs : FS) : Prop :=
  match ms with
  | [] => True
  | m :: ms =>
      match apiFilePath apiDir (rmSource m) with
      | Err _ => False
      | Ok path =>
          let body := renderAPI index path m in
          if String.eqb body EmptyString then allSettled index ms apiDir seen fs
          else if bool_decide (path ∈ seen) then allSettled index ms apiDir seen fs
          else settled fs path body /\ allSettled index ms apiDir ({[path]} ∪ seen) fs
      end
  end.

Lemma allSettled_run (index : apiIndex) (ms : list resourceManifest) (apiDir : string) (check : bool) (seen : gset string) (t : tally) (fs : FS) :
  allSettled index ms apiDir seen fs ->
  exists k, generateAPILoop index ms apiDir check seen t fs = (fs, Ok (mkTally (written t) k (missing t))).
Proof.
  revert seen t. induction ms as [|m ms IH]; intros seen t; cbn [allSettled generateAPILoop]; [intros _; exists (skipped t); by destruct t|].
  destruct (apiFilePath apiDir (rmSource m)) as [path|]; [|done]. destruct (String.eqb _ _); [apply IH|]. case_bool_decide; [apply IH|].
  intros [H1 H2]. rewrite (generateAPIOne_settled check _ _ t fs H1). apply (IH _ (mkTally (written t) (skipped t + 1) (missing t)) H2).
Qed.

Lemma generateAPILoop_settles (index : apiIndex) (ms : list resourceManifest) (apiDir : string) (seen : gset string) (t t' : tally) (fs fs' : FS) :
  generateAPILoop index ms apiDir false seen t fs = (fs', Ok t') ->
  allSettled index ms apiDir seen fs' /\ forall p b, p ∈ seen -> settled fs p b -> settled fs' p b.
Proof.
  revert seen t fs. induction ms as [|m ms IH]; intros seen t fs; cbn [allSettled generateAPILoop]; [by intros [= <- <-]|].
  destruct (apiFilePath apiDir (rmSource m)) as [path|]; [|done]. destruct (String.eqb _ _); [apply IH|]. case_bool_decide as Hin; [apply IH|].
  destruct (generateAPIOne false path _ t fs) as [fs1 [t1|e]] eqn:E1; [|done]. intros E2. destruct (generateAPIOne_settles _ _ _ _ _ _ E1) as [S1 S2].
  destruct (IH _ _ _ E2) as [A B]. split; [split; [|done]; apply B; [set_solver|done]|]. intros p b Hp Hs. apply B; [set_solver|]. apply S2; [|done].
  intros ->. done.
Qed.

Lemma generateAPIFiles_settles (ms : list resourceManifest) (apiDir : string) (check : bool) (fs fs' : FS) (t : tally) :
  generateAPIFiles ms apiDir false fs = (fs', Ok t) -> exists k, generateAPIFiles ms apiDir check fs' = (fs', Ok (mkTally 0 k [])).
Proof.
  unfold generateAPIFiles. destruct (buildAPIIndex ms apiDir) as [index|]; [|done]. intros E.
  apply (allSettled_run index ms apiDir check ∅ (mkTally 0 0 []) fs'). exact (proj1 (generateAPILoop_settles _ _ _ _ _ _ _ _ E)).
Qed.

(** ** The pages of a second run *)

(** What is there stays there. *)
Definition statKept (fs fs' : FS) : Prop := forall p, Stat p fs = Ok tt -> Stat p fs' = Ok tt.

Class StatLaws : Prop := {
  Stat_written path c fs fs' : WriteFile path c fs = (fs', None) -> Stat path fs' = Ok tt;
  Stat_write path c fs : statKept fs (fst (WriteFile path c fs));
  Stat_mkdir dir fs : statKept fs (fst (MkdirAll dir fs));
}.

Context {HSL : StatLaws}.

Lemma statKept_trans (fs1 fs2 fs3 : FS) : statKept fs1 fs2 -> statKept fs2 fs3 -> statKept fs1 fs3.
Proof. intros H1 H2 p Hp. auto. Qed.

(** A file of another path is read as before. *)
Definition readKept (p : string) (fs fs' : FS) : Prop := forall c, ReadFile p fs = Ok c -> ReadFile p fs' = Ok c.

Lemma made_keeps (dir path body : string) (fs fs1 fs2 : FS) (e : option error) :
  MkdirAll dir fs = (fs1, None) -> WriteFile path body fs1 = (fs2, e) -> statKept fs fs2 /\ forall p, p <> path -> readKept p fs fs2.
Proof.
  intros Em Ew. pose proof (Stat_mkdir dir fs) as S1. pose proof (Stat_write path body fs1) as S2. rewrite Em in S1. rewrite Ew in S2. cbn [fst] in *.
  split; [by eapply statKept_trans|]. intros p Hp c Hc. pose proof (ReadFile_mkdir p dir fs c Hc) as R1. rewrite Em in R1.
  pose proof (ReadFile_other p path c fs1 body Hp R1) as R2. by rewrite Ew in R2.
Qed.

Lemma generateOne_settles (path : string) (e : manifestEntity) (t t' : tally) (fs fs' : FS) :
  generateOne false path e t fs = (fs', Ok t') -> Stat path fs' = Ok tt /\ statKept fs fs' /\ forall p, p <> path -> readKept p fs fs'.
Proof.
  unfold generateOne. destruct (Stat path fs) as [[]|[err|]] eqn:Est; [intros [= <- _]; split_and!; [done|by intros ?|by intros ????]|done|].
  destruct (MkdirAll (Dir path) fs) as [fs1 [err|]] eqn:Em; [done|]. destruct (WriteFile path (renderVue e) fs1) as [fs2 [err|]] eqn:Ew; [done|].
  intros [= <- _]. destruct (made_keeps _ _ _ _ _ _ _ Em Ew) as [A B]. split; [by eapply Stat_written|done].
Qed.

Lemma generateEntities_settles (es : list manifestEntity) (dir : string) (seen : gset string) (t t' : tally) (fs fs' : FS) :
  generateEntities es dir false seen t fs = (fs', Ok t') ->
  statKept fs fs' /\ (forall p, (forall e, In e es -> vueFilePath dir e <> Ok p) -> readKept p fs fs') /\
  forall fs2 check t2, statKept fs' fs2 -> exists k, generateEntities es dir check seen t2 fs2 = (fs2, Ok (mkTally (written t2) k (missing t2))).
Proof.
  revert seen t fs. induction es as [|e es IH]; intros seen t fs; cbn [generateEntities].
  - intros [= <- _]. split_and!; [by intros ?|by intros ???|]. intros fs2 check t2 _. exists (skipped t2). by destruct t2.
  - destruct (vueFilePath dir e) as [path|] eqn:Ep; [|done]. case_bool_decide as Hin.
    + intros E. destruct (IH _ _ _ E) as (A & B & D). split; [done|]. split; [intros p Hp; apply B; intros e' He; apply Hp; by right|done].
    + destruct (generateOne false path e t fs) as [fs1 [t1|err]] eqn:E1; [|done]. intros E. destruct (generateOne_settles _ _ _ _ _ _ E1) as (S1 & S2 & S3).
      destruct (IH _ _ _ E) as (A & B & D). split; [by eapply statKept_trans|]. split.
      * intros p Hp c Hc. apply B; [intros e' He; apply Hp; by right|]. apply S3; [|done]. intros ->. apply (Hp e); [by left|done].
      * intros fs2 check t2 Hk. assert (generateOne check path e t2 fs2 = (fs2, Ok (mkTally (written t2) (skipped t2 + 1) (missing t2)))) as ->.
        { unfold generateOne. by rewrite (Hk path (A path S1)). }
        apply (D fs2 check (mkTally (written t2) (skipped t2 + 1) (missing t2)) Hk).
Qed.

Lemma generateAPIOne_keeps (path body : string) (t t' : tally) (fs fs' : FS) :
  generateAPIOne false path body t fs = (fs', Ok t') -> statKept fs fs' /\ forall p, p <> path -> readKept p fs fs'.
Proof.
  unfold generateAPIOne. destruct (ReadFile path fs) as [c|[e|]] eqn:Er; [|done|].
  - destruct (negb _); [intros [= <- _]; split; [by intros ?|by intros ????]|]. destruct (String.eqb _ _); [intros [= <- _]; split; [by intros ?|by intros ????]|].
    destruct (WriteFile path body fs) as [fs1 [e|]] eqn:Ew; [done|]. intros [= <- _]. split.
    + pose proof (Stat_write path body fs) as S2. by rewrite Ew in S2.
    + intros p Hp x Hx. pose proof (ReadFile_other p path x fs body Hp Hx) as R2. by rewrite Ew in R2.
  - destruct (MkdirAll (Dir path) fs) as [fs1 [e|]] eqn:Em; [done|]. destruct (WriteFile path body fs1) as [fs2 [e|]] eqn:Ew; [done|]. intros [= <- _].
    by eapply made_keeps.
Qed.

Lemma generateAPIFiles_keeps (ms : list resourceManifest) (apiDir : string) (t' : tally) (fs fs' : FS) :
  generateAPIFiles ms apiDir false fs = (fs', Ok t') ->
  statKept fs fs' /\ forall p, (forall m, In m ms -> apiFilePath apiDir (rmSource m) <> Ok p) -> readKept p fs fs'.
Proof.
  unfold generateAPIFiles. destruct (buildAPIIndex ms apiDir) as [index|]; [|done]. generalize (∅ : gset string) as seen, (mkTally 0 0 []) as t.
  revert fs. induction ms as [|m ms IH]; intros fs seen t; cbn [generateAPILoop]; [intros [= <- _]; split; [by intros ?|by intros ????]|].
  destruct (apiFilePath apiDir (rmSource m)) as [path|] eqn:Ep; [|done].
  destruct (String.eqb _ _); [intros E; destruct (IH _ _ _ E) as [A B]; split; [done|]; intros p Hp; apply B; intros m' Hm; apply Hp; by right|].
  case_bool_decide; [intros E; destruct (IH _ _ _ E) as [A B]; split; [done|]; intros p Hp; apply B; intros m' Hm; apply Hp; by right|].
  destruct (generateAPIOne false path _ t fs) as [fs1 [t1|e]] eqn:E1; [|done]. intros E. destruct (generateAPIOne_keeps _ _ _ _ _ _ E1) as [S1 S2].
  destruct (IH _ _ _ E) as [A B]. split; [by eapply statKept_trans|]. intros p Hp c Hc. apply B; [intros m' Hm; apply Hp; by right|].
  apply S2; [|done]. intros ->. apply (Hp m); [by left|done].
Qed.

(** ** The command *)

Definition withCheck (b : bool) (o : genOptions) : genOptions :=
  mkGenOptions (protoDir o) (outDir o) (goPkg o) (fileName o) (webDir o) (apiDir o) (noWeb o) (noAPI o) b.

Lemma writeWeb_settles (o : genOptions) (ms : list resourceManifest) (fs fs' : FS) (target c : string) :
  writeWeb o ms fs = (fs', None) -> ReadFile target fs = Ok c ->
  (forall m, In m ms -> apiFilePath (apiDir o) (rmSource m) <> Ok target) ->
  (forall m e, In m ms -> In e (rmEntities m) -> vueFilePath (webDir o) e <> Ok target) ->
  ReadFile target fs' = Ok c /\ checkWeb o ms fs' = (fs', Ok []).
Proof.
  intros E Hc Ha Hv. unfold writeWeb, checkWeb in *.
  assert (forall e, In e (concat (map rmEntities ms)) -> vueFilePath (webDir o) e <> Ok target) as Hv'.
  { intros e He. apply in_concat in He as (l & Hl & He). apply in_map_iff in Hl as (m & <- & Hm). by apply (Hv m). }
  destruct (if noWeb o then _ else _) as [fs1 [t1|e1]] eqn:E1 in E; [|done].
  assert (readKept target fs fs1 /\ forall fs2, statKept fs1 fs2 ->
    exists t2, (if noWeb o then (fs2, Ok (mkTally 0 0 [])) else generateVueFiles (map rmEntities ms) (webDir o) true fs2) = (fs2, Ok t2) /\ missing t2 = []) as [R1 W1].
  { destruct (noWeb o); [injection E1 as <- <-; split; [by intros ?|]; intros fs2 _; by eexists|].
    destruct (generateEntities_settles _ _ _ _ _ _ _ E1) as (_ & B & D). split; [by apply B|]. intros fs2 Hk.
    destruct (D fs2 true (mkTally 0 0 []) Hk) as [k Hk']. eexists. split; [exact Hk'|done]. }
  destruct (if noAPI o then _ else _) as [fs2 [t2|e2]] eqn:E2 in E; [|done]. injection E as <-.
  assert (statKept fs1 fs2 /\ readKept target fs1 fs2 /\
    exists t3, (if noAPI o then (fs2, Ok (mkTally 0 0 [])) else generateAPIFiles ms (apiDir o) true fs2) = (fs2, Ok t3) /\ missing t3 = []) as (S2 & R2 & t3 & W2 & M2).
  { destruct (noAPI o); [injection E2 as <- <-; split_and!; [by intros ?|by intros ?|by eexists]|].
    destruct (generateAPIFiles_keeps _ _ _ _ _ E2) as [A B]. split; [done|]. split; [by apply B|].
    destruct (generateAPIFiles_settles ms (apiDir o) true fs1 fs2 t2 E2) as [k Hk]. eexists. split; [exact Hk|done]. }
  split; [by apply R2, R1|]. destruct (W1 fs2 S2) as (t4 & -> & M4). rewrite W2, M2, M4. done.
Qed.

(** A check after a run finds what the run has left. *)
Lemma genWith_settles (o : genOptions) (tree : node) (fs fs' : FS) :
  let target := JoinAll [outDir o; fileName o] in
  genWith (withCheck false o) tree fs = (fs', None) ->
  loadManifests (protoDir o) tree fs' = loadManifests (protoDir o) tree fs ->
  (forall ms m, loadManifests (protoDir o) tree fs = Ok ms -> In m ms ->
     apiFilePath (apiDir o) (rmSource m) <> Ok target /\ forall e, In e (rmEntities m) -> vueFilePath (webDir o) e <> Ok target) ->
  genWith (withCheck true o) tree fs' = (fs', None).
Proof.
  intros target E Hload Hsep. unfold genWith in *. cbn [withCheck protoDir outDir goPkg fileName checkOnly] in *. rewrite Hload.
  destruct (loadManifests (protoDir o) tree fs) as [ms|]; [|done]. specialize (fun m => Hsep ms m eq_refl).
  destruct (formatSource _) as [formatted|]; [|done]. fold target in E |- *.
  destruct (MkdirAll (outDir o) fs) as [fs1 [e|]]; [done|]. destruct (WriteFile target formatted fs1) as [fs2 [e|]] eqn:Ew; [done|].
  pose proof (ReadFile_written _ _ _ _ Ew) as Hr.
  destruct (writeWeb_settles o ms fs2 fs' target formatted E Hr) as [Hr' Hc].
  - intros m Hm. apply (Hsep m Hm).
  - intros m e Hm He. by apply (Hsep m Hm).
  - rewrite Hr', String.eqb_refl. cbn [negb]. change (checkWeb (withCheck true o) ms fs') with (checkWeb o ms fs'). by rewrite Hc.
Qed.

(** C33. [aeus gen] followed by [aeus gen --check] succeeds and changes nothing, as long as
    the manifests are not among the files that are written and the Go file is not where a
    page or a TypeScript file goes. *)
Theorem gen_then_check (o : genOptions) (tree : node) (fs fs' : FS) :
  let target := JoinAll [outDir o; fileName o] in
  genWith (withCheck false o) tree fs = (fs', None) ->
  loadManifests (protoDir o) tree fs' = loadManifests (protoDir o) tree fs ->
  (forall ms m, loadManifests (protoDir o) tree fs = Ok ms -> In m ms ->
     apiFilePath (apiDir o) (rmSource m) <> Ok target /\ forall e, In e (rmEntities m) -> vueFilePath (webDir o) e <> Ok target) ->
  genWith (withCheck true o) tree fs' = (fs', None).
Proof. intros target. apply genWith_settles. Qed.

(** ** The manifests that are read *)

Record validManifest (root : string) (fs : FS) (m : resourceManifest) : Prop := {
  vm_package : rmGoPackage m <> EmptyString;
  vm_source : escapes (Clean (rmSource m)) = false;
  vm_found : sourceFound root (Clean (rmSource m)) fs = true;
}.

Lemma loadOne_valid (root path : string) (fs : FS) (m : resourceManifest) : loadOne root path fs = Ok m -> validManifest root fs m.
Proof.
  unfold loadOne. destruct (ReadFile path fs) as [data|]; [|done]. destruct (Unmarshal data) as [m'|]; [|done].
  destruct (String.eqb_spec (rmGoPackage m') EmptyString); [done|]. destruct (String.eqb (rmSource m') EmptyString); [done|]. cbn [orb].
  destruct (escapes _) eqn:Ee; [done|]. destruct (sourceFound _ _ _) eqn:Ef; [|done]. by intros [= <-].
Qed.

Lemma node_ind' (Q : node -> Prop) :
  (forall s, Q (NFile s)) -> (forall s e, Q (NBad s e)) -> (forall s l, Forall Q l -> Q (NDir s l)) -> forall n, Q n.
Proof.
  intros Hf Hb Hd. fix IH 1. intros [s|s l|s e]; [apply Hf| |apply Hb]. apply Hd. induction l as [|n l IHl]; constructor; [apply IH|exact IHl].
Qed.

Lemma walk_valid (root : string) (fs : FS) (n : node) :
  forall path acc ms, walk root path n acc fs = Ok ms -> Forall (validManifest root fs) acc -> Forall (validManifest root fs) ms.
Proof.
  induction n as [name|name e|name l IH] using node_ind'; intros path acc ms; cbn [walk].
  - destruct (HasSuffix _ _); [|by intros [= <-]]. destruct (loadOne root path fs) as [m|] eqn:E; [|done]. intros [= <-] Hacc.
    apply Forall_app. split; [done|]. constructor; [by eapply loadOne_valid|done].
  - done.
  - destruct (_ || _); [by intros [= <-]|]. revert acc. induction IH as [|c l Hc _ IHl]; intros acc; [by intros [= <-]|].
    destruct (walk root (JoinAll [path; nodeName c]) c acc fs) as [acc1|] eqn:E; [|done]. intros E2 Hacc. eapply IHl; [exact E2|]. by eapply Hc.
Qed.

Lemma loadManifests_valid (root : string) (tree : node) (fs : FS) (ms : list resourceManifest) :
  loadManifests root tree fs = Ok ms -> Forall (validManifest root fs) ms.
Proof.
  unfold loadManifests. destruct (walk root root tree [] fs) as [l|] eqn:E; [|done]. intros [= <-].
  pose proof (walk_valid _ _ _ _ _ _ E (List.Forall_nil _)) as H. rewrite List.Forall_forall in H |- *. intros m Hm. apply H. by apply sortSlice_In in Hm.
Qed.

End Load.

End Files.

(** ** Paths of valid sources *)

Lemma escapes_false (s : string) : escapes (Clean s) = false -> rooted s = false /\ exists es, es <> [] /\ Forall plain es /\ rev (fold_left (cleanStep false) (SplitByte s slash) []) = es.
Proof.
  intros He. assert (rooted s = false) as Hr.
  { destruct (rooted s) eqn:E; [|done]. destruct (Clean_rooted s E) as (es & Hc & _). unfold escapes in He. rewrite Hc in He. by cbn in He. }
  split; [done|]. destruct (checked_below "/" s [] ltac:(by split) He) as (es & Hne & Hes & Hc & _). exists es. split; [done|]. split; [done|].
  unfold Clean in Hc. rewrite Hr in Hc. destruct (cleanStep_relative (SplitByte s slash) [] ltac:(by exists 0%nat, []) (SplitByte_pieces s slash)) as (n & ps & Hn & Hps).
  rewrite Hn in Hc |- *. assert (replicate n ".." ++ ps <> []) as Hne2.
  { intros H0. rewrite H0 in Hc. unfold escapes in He. unfold Clean in He. by rewrite Hr, Hn, H0 in He. }
  assert (Join (replicate n ".." ++ ps) "/" = Join es "/") as Hj by by destruct (replicate n ".." ++ ps).
  pose proof (SplitByte_Join (replicate n ".." ++ ps) slash Hne2 (dots_free n ps Hps)) as H1. pose proof (SplitByte_plain es Hne Hes) as H2.
  change (String slash EmptyString) with "/" in H1. congruence.
Qed.

Lemma escapes_plain (s : string) (es : list string) :
  rooted s = false -> es <> [] -> Forall plain es -> rev (fold_left (cleanStep false) (SplitByte s slash) []) = es -> escapes (Clean s) = false.
Proof.
  intros Hr Hne Hes He. unfold escapes, Clean. rewrite Hr, He. destruct es as [|x l]; [done|]. destruct (Join_plain_head (x :: l) Hne Hes) as (a & t & Hj & Ha).
  pose proof (SplitByte_plain (x :: l) Hne Hes) as Hs. pose proof Hes as Hes'. inversion Hes' as [|? ? (Hx1 & Hx2 & Hx3 & _) _]; subst.
  assert (forall y, SplitByte y slash <> x :: l -> String.eqb (Join (x :: l) "/") y = false) as Hd.
  { intros y Hy. apply String.eqb_neq. intros E. apply Hy. by rewrite <- E. }
  rewrite !Hd by (cbn; congruence). assert (rooted (Join (x :: l) "/") = false) as ->.
  { rewrite Hj. destruct (rooted (String a t)) eqn:E; [|done]. apply rooted_spec in E as [t' [= -> _]]. done. }
  destruct (HasPrefix _ "../") eqn:E; [|done]. apply HasPrefix_spec in E as [t' Ht]. rewrite Ht in Hs.
  change ("../" +:+ t') with (".." +:+ String slash t') in Hs. rewrite SplitByte_cons in Hs by done. congruence.
Qed.

Lemma kept_plain (K : list string) (w : string) :
  (exists n ps, rev K = replicate n ".." ++ ps /\ Forall plain ps) -> Forall plain (cleanStep false K w) -> cleanStep false K w <> [] -> Forall plain K.
Proof.
  intros (n & ps & Hn & Hps) Hp Hne. unfold cleanStep in *. destruct (_ || _); [done|]. destruct (String.eqb w ".."); [|by inversion Hp].
  destruct K as [|y K]; [done|]. destruct (String.eqb_spec y "..") as [->|Hy]; [inversion Hp as [|? ? (_ & _ & ? & _) _]; done|].
  apply Forall_rev in Hp as Hp'. cbn [rev] in Hn. assert (n = 0%nat) as ->.
  { destruct n as [|n]; [done|]. destruct (rev K) as [|z r] eqn:Er; [by destruct K; [|apply (f_equal length) in Er; rewrite length_rev in Er]|].
    cbn in Hn. injection Hn as -> _. inversion Hp' as [|? ? (_ & _ & ? & _) _]; done. }
  cbn [replicate app] in Hn. rewrite <- Hn in Hps. apply Forall_rev in Hps. by rewrite rev_app_distr, rev_involutive in Hps.
Qed.

Lemma TrimSuffix_cases (s suf : string) : s = TrimSuffix s suf \/ s = TrimSuffix s suf +:+ suf.
Proof. unfold TrimSuffix. destruct (cutSuffix s suf) as [r|] eqn:E; [right|by left]. by apply cutSuffix_Some in E. Qed.

(** A source that [loadManifests] accepts has a TypeScript file. *)
Lemma source_has_path (apiDir source : string) : escapes (Clean source) = false -> exists path, apiFilePath apiDir source = Ok path.
Proof.
  intros He. destruct (escapes_false source He) as (Hr & es & Hne & Hes & Hk). unfold apiFilePath.
  destruct (SplitByte_tail (TrimSuffix source ".proto") ".ts" slash) as (l & z & H1 & H2); [done|].
  assert (exists w, SplitByte source slash = l ++ [w]) as [w Hw].
  { destruct (TrimSuffix_cases source ".proto") as [Hc|Hc]; [exists z; by rewrite Hc|].
    destruct (SplitByte_tail (TrimSuffix source ".proto") ".proto" slash) as (l' & z' & H1' & H2'); [done|].
    rewrite H1 in H1'. apply app_inj_tail in H1' as [<- <-]. exists (z +:+ ".proto"). by rewrite Hc. }
  rewrite Hw, fold_left_app in Hk. cbn [fold_left] in Hk. set (K := fold_left (cleanStep false) l []) in *.
  pose proof (SplitByte_pieces source slash) as Hf. rewrite Hw in Hf. apply Forall_app in Hf as [Hfl _].
  assert (Forall plain K) as HK.
  { apply (kept_plain K w).
    - apply cleanStep_relative; [by exists 0%nat, []|done].
    - apply (Forall_rev (P := plain)) in Hes. by rewrite <- Hk, rev_involutive in Hes.
    - intros H0. rewrite H0 in Hk. by subst es. }
  pose proof (SplitByte_pieces (TrimSuffix source ".proto") slash) as Hz. rewrite H1 in Hz. apply Forall_app in Hz as [_ Hz]. inversion Hz; subst.
  pose proof (ts_plain z ltac:(done)) as Hzp. pose proof Hzp as (Hz1 & Hz2 & Hz3 & _).
  rewrite (escapes_plain (TrimSuffix source ".proto" +:+ ".ts") (rev K ++ [z +:+ ".ts"])); [by eexists| |by destruct (rev K)| |].
  - destruct (rooted (_ +:+ _)) eqn:E; [|done]. apply rooted_spec in E as [t Ht]. destruct (TrimSuffix source ".proto") as [|a s'] eqn:Es; [done|].
    injection Ht as -> _. assert (rooted source = true) as Hrt; [|by rewrite Hrt in Hr]. apply rooted_spec.
    destruct (TrimSuffix_cases source ".proto") as [Hc|Hc]; rewrite Es in Hc; rewrite Hc; by eexists.
  - apply Forall_app. split; [by apply Forall_rev|constructor; [done|constructor]].
  - rewrite H2, fold_left_app. fold K. cbn [fold_left]. unfold cleanStep at 1. rewrite !(proj2 (String.eqb_neq _ _)) by done. done.
Qed.

Section Loaded.

Context {FS : Type} `{HFS : FileSystem FS} `{HR : !Readable FS}.
Context (Unmarshal : string -> result error resourceManifest) (exists_ : string -> FS -> bool).

(** What is loaded can be generated: the manifests that [loadManifests] accepts have a
    package, a source that was found and does not climb, and their types are indexed
    whatever the output directory. *)
Theorem loaded_manifests_valid (root apiDir : string) (tree : node) (fs : FS) (ms : list resourceManifest) :
  loadManifests Unmarshal exists_ root tree fs = Ok ms ->
  Forall (validManifest exists_ root fs) ms /\ is_ok (buildAPIIndex ms apiDir) = true.
Proof.
  intros E. pose proof (loadManifests_valid _ _ _ _ _ _ E) as Hv. split; [done|]. clear E. unfold buildAPIIndex. generalize (mkIndex ∅ ∅) as idx.
  induction Hv as [|m ms' Hm _ IH]; intros idx; [done|]. cbn [indexManifests].
  destruct (source_has_path apiDir (rmSource m) (vm_source _ _ _ _ Hm)) as [path ->]. apply IH.
Qed.

End Loaded.

Section Kept.

Context {FS : Type} `{HFS : FileSystem FS} `{HFSL : !FileSystemLaws FS} `{HR : !Readable FS} `{HRL : !ReadableLaws FS}.

(** A TypeScript file without the header of the generator is never written to, nor is
    any file outside the output directory; a check writes nothing at all. *)
Theorem hand_written_kept (ms : list resourceManifest) (apiDir : string) (ep : list string) (check : bool) (fs : FS) :
  rootedClean apiDir ep ->
  let fs' := fst (generateAPIFiles ms apiDir check fs) in
  (forall path, content fs' path = content fs path \/
    ((content fs path = None \/ exists c, content fs path = Some c /\ HasPrefix c generatedTSHeader = true) /\
     exists ks, ks <> [] /\ rootedClean path (ep ++ ks))) /\
  (check = true -> fs' = fs).
Proof.
  intros Hp fs'. split.
  - unfold fs', generateAPIFiles. destruct (buildAPIIndex ms apiDir) as [index|]; [|by intros path; left].
    apply (generateAPILoop_refreshes index ms apiDir check (fun path => exists ks, ks <> [] /\ rootedClean path (ep ++ ks))).
    intros m path _ Hm. destruct (apiFilePath_below apiDir (rmSource m) path ep Hp Hm) as (es & z & Hr). exists (es ++ [z +:+ ".ts"]). split; [by destruct es|done].
  - unfold fs'. intros ->. apply generateAPIFiles_check.
Qed.

End Kept.

(** ** A file system *)

#[export] Instance demoReadable : Readable (gmap string string) := {|
  ReadFile := fun path fs => match fs !! path with Some c => Ok c | None => Err None end;
|}.

#[export] Instance demoReadable_laws : ReadableLaws (gmap string string).
Proof.
  split; cbn.
  - intros path fs c. destruct (fs !! path); [by intros [= <-]|done].
  - intros path fs. by destruct (fs !! path).
  - intros path c fs fs' [= <-]. by rewrite lookup_insert_eq.
  - intros path path' c fs c' Hne. by rewrite lookup_insert_ne.
  - done.
Qed.

#[export] Instance demoStat : StatLaws (FS := gmap string string).
Proof.
  split; unfold statKept; cbn.
  - intros path c fs fs' [= <-]. by rewrite lookup_insert_eq.
  - intros path c fs p. destruct (decide (path = p)) as [->|]; [by rewrite lookup_insert_eq|by rewrite lookup_insert_ne].
  - done.
Qed.

Lemma hand_written_kept_witness :
  let fs : gmap string string := {["/api/user/v1/user.ts" := "mine"; "/api/admin/v1/user.ts" := generatedTSHeader +:+ " (old)"]} in
  let fs' := fst (generateAPIFiles demoAPI "/api" false fs) in
  (fs' !! "/api/user/v1/user.ts" = Some "mine") /\
  (exists c, fs' !! "/api/admin/v1/user.ts" = Some c /\ Contains c "export interface User {" = true) /\
  fst (generateAPIFiles demoAPI "/api" true fs) = fs.
Proof.
  intros fs fs'. assert (rootedClean "/api" ["api"]) as Hr by (split; [done|]; by repeat constructor).
  split; [|split; [eexists; vm_compute; split; reflexivity|]].
  - destruct (proj1 (hand_written_kept demoAPI "/api" ["api"] false fs Hr) "/api/user/v1/user.ts") as [E|[[E|(c & E & Hc)] _]]; [exact E|discriminate E|].
    vm_compute in E. injection E as <-. discriminate Hc.
  - exact (proj2 (hand_written_kept demoAPI "/api" ["api"] true fs Hr) eq_refl).
Defined.

(** The tree and the options of the examples; a manifest is its own text. *)
Definition demoTree : node := NDir "proto" [NDir "shop" [NFile "order_aeus.json"; NFile "order.proto"]; NDir "node_modules" [NFile "x_aeus.json"]].

Definition demoUnmarshal (data : string) : result error resourceManifest :=
  if String.eqb data "order" then
    Ok (mkManifest "shop/order.proto" "shop" "shop" None [mkMessage "Order" [mkField "id" "number" None false false]] []
          [demoEntity "Order" "OrderModel"] [])
  else Err (EPlain "unexpected end of JSON input").

Definition demoProject : gmap string string := {["/p/proto/shop/order_aeus.json" := "order"; "/p/proto/shop/order.proto" := "syntax"]}.
Definition demoExists (path : string) (fs : gmap string string) : bool := match fs !! path with Some _ => true | None => false end.
Definition demoOptions : genOptions := mkGenOptions "/p/proto" "/p/gen" "gen" "wiring.go" "/p/views" "/p/api" false false false.

Lemma loaded_manifests_valid_witness :
  exists ms, loadManifests demoUnmarshal demoExists "/p/proto" demoTree demoProject = Ok ms /\ length ms = 1%nat /\
  is_ok (buildAPIIndex ms "/p/api") = true.
Proof.
  destruct (loadManifests demoUnmarshal demoExists "/p/proto" demoTree demoProject) as [ms|] eqn:E; [|by vm_compute in E].
  exists ms. split; [done|]. split; [vm_compute in E; by injection E as <-|].
  exact (proj2 (loaded_manifests_valid demoUnmarshal demoExists "/p/proto" "/p/api" demoTree demoProject ms E)).
Defined.

Definition demoRun (check : bool) (fs : gmap string string) : gmap string string * option error :=
  genWith demoUnmarshal demoExists (fun s => Ok s) (HU := asciiOnly) (withCheck check demoOptions) demoTree fs.

Definition demoOutput : gmap string string := fst (demoRun false demoProject).

Lemma gen_then_check_witness :
  demoRun true demoOutput = (demoOutput, None) /\ is_Some (demoOutput !! "/p/views/shop/s/Index.vue") /\
  is_Some (snd (demoRun true demoProject)).
Proof.
  split; [|split; [vm_compute; by eexists|vm_compute; by eexists]].
  apply (gen_then_check demoUnmarshal demoExists (fun s => Ok s) (HU := asciiOnly) demoOptions demoTree demoProject demoOutput).
  - vm_eq.
  - vm_eq.
  - intros ms m Hl Hm. vm_compute in Hl. injection Hl as <-. destruct Hm as [<-|[]]. split; [by vm_compute|]. intros x [<-|[]]. by vm_compute.
Defined.
