(* ===== verification/Scaffold.v ===== *)
(** [cmd/aeus/main.go], [cmd/aeus/scaffold.go]: [aeus new]: its arguments, the names it
    accepts, and the files it writes. *)

From Stdlib Require Import ZArith Lia String Ascii List Bool.
From stdpp Require Import base tactics list gmap strings.
From S2P Require Import Prelude GoStrings GoPath Errs Derive Manifest VueGen ApiPath ApiFiles.

Local Open Scope string_scope.
Local Open Scope list_scope.
Local Open Scope aeus_scope.

(** ** Names *)

(** [baseName]: what follows the last separator, trailing ones aside. *)
Definition isSeparator (a : ascii) : bool := Ascii.eqb a "/" || Ascii.eqb a "\".

Fixpoint afterSeparator (s : string) : option string :=
  match s with
  | EmptyString => None
  | String a s =>
      match afterSeparator s with
      | Some r => Some r
      | None => if isSeparator a then Some s else None
      end
  end.

(** [len(p) > 1]: a lone separator is kept. *)
Fixpoint trimSeparators (s : string) : string :=
  match s with
  | EmptyString => EmptyString
  | String a rest =>
      match trimSeparators rest with
      | EmptyString => String a EmptyString
      | String b EmptyString => if isSeparator b then String a EmptyString else String a (String b EmptyString)
      | r => String a r
      end
  end.

Definition baseName (p : string) : string :=
  let p := trimSeparators p in
  match afterSeparator p with Some r => r | None => p end.

(** [sanitizeName]; names are ASCII, of others no byte is kept. *)
Definition keepName (a : ascii) : string :=
  if is_lower a || is_digit a || Ascii.eqb a "-" then String a EmptyString
  else if Ascii.eqb a "_" || Ascii.eqb a "." || Ascii.eqb a " " || Ascii.eqb a "009" then "-" else EmptyString.

Fixpoint keepNames (s : string) : string :=
  match s with EmptyString => EmptyString | String a s => keepName a +:+ keepNames s end.

Definition sanitizeName (s : string) : string := TrimByte "-" (keepNames (TrimSpace (ToLower s))).

Definition packageName (s : string) : string := let s := sanitizeName s in if String.eqb s EmptyString then "app" else s.

(** [validateModulePath]; [None] is no error. *)
Definition badModuleByte (a : ascii) : bool :=
  existsb (Ascii.eqb a) [" "; "009"; "013"; "010"; "@"; "\"; ":"]%char.

Fixpoint anyByte (p : ascii -> bool) (s : string) : bool :=
  match s with EmptyString => false | String a s => p a || anyByte p s end.

Definition validateModulePath (module : string) : option error :=
  if String.eqb module EmptyString then Some (EPlain "module path is empty")
  else if anyByte badModuleByte module then Some (EPlain ("module path " +:+ quote module +:+ " contains an invalid character"))
  else if HasPrefix module "/" || HasSuffix module "/" || Contains module "//" then
         Some (EPlain ("module path " +:+ quote module +:+ " has an empty path element"))
  else if existsb (fun e => String.eqb e EmptyString || String.eqb e "." || String.eqb e "..") (SplitByte module slash) then
         Some (EPlain ("module path " +:+ quote module +:+ " has an invalid path element"))
  else None.

(** ** Arguments *)

Record newArgs : Type := mkNewArgs { templateFlag : string; moduleFlag : string; localFlag : string; force : bool; target : string }.

Definition defaultArgs : newArgs := mkNewArgs "minimal" EmptyString EmptyString false EmptyString.

Definition setTemplate (v : string) (a : newArgs) : newArgs := mkNewArgs v (moduleFlag a) (localFlag a) (force a) (target a).
Definition setModule (v : string) (a : newArgs) : newArgs := mkNewArgs (templateFlag a) v (localFlag a) (force a) (target a).
Definition setLocal (v : string) (a : newArgs) : newArgs := mkNewArgs (templateFlag a) (moduleFlag a) v (force a) (target a).
Definition setForce (a : newArgs) : newArgs := mkNewArgs (templateFlag a) (moduleFlag a) (localFlag a) true (target a).
Definition setTarget (v : string) (a : newArgs) : newArgs := mkNewArgs (templateFlag a) (moduleFlag a) (localFlag a) (force a) v.

Definition oneName : error := EPlain "expected exactly one project name".

Definition isFlag (arg name : string) : bool := String.eqb arg ("--" +:+ name) || String.eqb arg ("-" +:+ name).

(** The loop over the arguments; [Ok None]: help was asked for. *)
Fixpoint parseNew (args : list string) (a : newArgs) : result error (option newArgs) :=
  match args with
  | [] => if String.eqb (target a) EmptyString then Err oneName else Ok (Some a)
  | arg :: rest =>
      if String.eqb arg "-h" || String.eqb arg "--help" then Ok None
      else if isFlag arg "template" then
             match rest with [] => Err (EPlain (arg +:+ " needs a value")) | v :: rest => parseNew rest (setTemplate v a) end
      else if HasPrefix arg "--template=" then parseNew rest (setTemplate (TrimPrefix arg "--template=") a)
      else if isFlag arg "module" then
             match rest with [] => Err (EPlain (arg +:+ " needs a value")) | v :: rest => parseNew rest (setModule v a) end
      else if HasPrefix arg "--module=" then parseNew rest (setModule (TrimPrefix arg "--module=") a)
      else if isFlag arg "local" then
             match rest with [] => Err (EPlain (arg +:+ " needs a value")) | v :: rest => parseNew rest (setLocal v a) end
      else if HasPrefix arg "--local=" then parseNew rest (setLocal (TrimPrefix arg "--local=") a)
      else if isFlag arg "force" then parseNew rest (setForce a)
      else if HasPrefix arg "-" then Err (EPlain ("unknown flag " +:+ quote arg))
      else if negb (String.eqb (target a) EmptyString) then Err oneName
      else parseNew rest (setTarget arg a)
  end.

(** What is checked before anything is written: the name and the module of the project. *)
Definition projectOf (a : newArgs) : result error (string * string) :=
  let name := sanitizeName (baseName (target a)) in
  if String.eqb name EmptyString then Err (EPlain "project name must contain at least one letter or digit")
  else
    let module := if String.eqb (moduleFlag a) EmptyString then name else moduleFlag a in
    match validateModulePath module with
    | Some e => Err e
    | None =>
        if negb (String.eqb (templateFlag a) "minimal") && negb (String.eqb (templateFlag a) "admin") then
          Err (EPlain ("unknown template " +:+ quote (templateFlag a) +:+ " (want minimal or admin)"))
        else Ok (name, module)
    end.

(** ** Placeholders *)

(** [strings.NewReplacer]: at every position the first pair whose key is there. *)
Definition matchPair (pairs : list (string * string)) (s : string) : option (string * string) :=
  match List.find (fun p => HasPrefix s (fst p)) pairs with
  | None => None
  | Some (old, new) => match cutPrefix s old with Some rest => Some (new, rest) | None => None end
  end.

Fixpoint replacerFuel (fuel : nat) (pairs : list (string * string)) (s : string) : string :=
  match fuel, s with
  | S fuel, String a rest =>
      match matchPair pairs s with
      | Some (new, rest) => new +:+ replacerFuel fuel pairs rest
      | None => String a (replacerFuel fuel pairs rest)
      end
  | _, _ => EmptyString
  end.

(** The keys are not empty, so every step takes a byte of the text. *)
Definition Replacer (pairs : list (string * string)) (s : string) : string := replacerFuel (String.length s) pairs s.

Definition versionKeys : list string := ["root"; "transport/http"; "admin"].

(** [loadVersions], of the parsed file. *)
Definition loadVersions (parsed : result error (gmap string string)) : result error (gmap string string) :=
  match parsed with
  | Err e => Err (wrapf "parse embedded versions.json" e)
  | Ok versions =>
      match List.find (fun k => String.eqb (default EmptyString (versions !! k)) EmptyString) versionKeys with
      | Some k => Err (EPlain ("versions.json is missing " +:+ quote k))
      | None => Ok versions
      end
  end.

Definition replacements (name module replaces : string) (versions : gmap string string) : gmap string string :=
  let version k := default EmptyString (versions !! k) in
  list_to_map [("__AEUS_NAME__", name); ("__AEUS_MODULE__", module); ("__AEUS_PACKAGE__", packageName name);
               ("__AEUS_ROOT_VERSION__", version "root"); ("__AEUS_HTTP_VERSION__", version "transport/http");
               ("__AEUS_ADMIN_VERSION__", version "admin"); ("__AEUS_REPLACES__", replaces)].

(** ** Files *)

(** The templates that are embedded: files with their text, directories. *)
Inductive template : Type :=
| TFile (name : string) (data : string)
| TDir (name : string) (children : list template).

Definition templateName (t : template) : string := match t with TFile s _ | TDir s _ => s end.

Definition ignoredTemplateDirs : list string := ["node_modules"; "dist"; ".git"; ".mimocode"].

Section New.

Context {FS : Type} `{HFS : FileSystem FS} `{HR : !Readable FS}.

(** [os.ReadDir]; what a walk over a directory meets, a path and whether it is a
    directory; [go mod tidy]; the formatter; [filepath.Abs]; the build information. *)
Variable ReadDir : string -> FS -> result error (list string).
Variable WalkDir : string -> FS -> result error (list (string * bool)).
Variable tidy : string -> FS -> FS.
Variable formatSource : string -> result error string.
Variable Abs : string -> result error string.
Variable developmentBuild : bool.
Variable workingDir : result error string.
Variable parsedVersions : result error (gmap string string).
Variable templates : string -> result error (list template).

Definition fileThere (path : string) (fs : FS) : bool := is_ok (Stat path fs).

(** [replaceDirectives] *)
Definition checkModule (abs modulePath : string) (fs : FS) : option error :=
  if fileThere (JoinAll [JoinAll [abs; modulePath]; "go.mod"]) fs then None
  else Some (EPlain ("local AEUS checkout " +:+ abs +:+ " is missing " +:+ modulePath +:+ "/go.mod")).

Definition replaceLine (module path : string) : string := "replace " +:+ module +:+ " => " +:+ quote path.

Definition replaceDirectives (localPath templateName : string) (fs : FS) : result error string :=
  if String.eqb localPath EmptyString then Ok EmptyString
  else
    match Abs localPath with
    | Err e => Err e
    | Ok abs =>
        match checkModule abs "." fs, checkModule abs "transport/http" fs with
        | Some e, _ | None, Some e => Err e
        | None, None =>
            let lines := [replaceLine "github.com/sjlit/aeus" abs;
                          replaceLine "github.com/sjlit/aeus/transport/http" (JoinAll [abs; "transport"; "http"])] in
            if String.eqb templateName "admin" then
              match checkModule abs "admin" fs with
              | Some e => Err e
              | None => Ok (Join (lines ++ [replaceLine "github.com/sjlit/aeus/admin" (JoinAll [abs; "admin"])]) nl)
              end
            else Ok (Join lines nl)
        end
    end.

(** The loop of [detectLocalCheckout], up to the root; the fuel bounds the elements. *)
Fixpoint findCheckout (fuel : nat) (dir : string) (fs : FS) : string :=
  match fuel with
  | O => EmptyString
  | S fuel =>
      let found := match ReadFile (JoinAll [dir; "go.mod"]) fs with
                   | Ok data => HasPrefix (TrimSpace data) "module github.com/sjlit/aeus"
                   | Err _ => false
                   end in
      if found then dir
      else let parent := Dir dir in if String.eqb parent dir then EmptyString else findCheckout fuel parent fs
  end.

Definition detectLocalCheckout (fs : FS) : string :=
  if negb developmentBuild then EmptyString
  else match workingDir with Err _ => EmptyString | Ok dir => findCheckout (S (String.length dir)) dir fs end.

(** [renderTemplate]: the walk over the template; [dest] is where the entries of a
    directory go. *)
Fixpoint renderNode (pairs : list (string * string)) (dest : string) (t : template) (fs : FS) : FS * option error :=
  match t with
  | TDir name children =>
      if existsb (String.eqb name) ignoredTemplateDirs then (fs, None)
      else
        match MkdirAll (JoinAll [dest; TrimSuffix name ".tmpl"]) fs with
        | (fs, Some e) => (fs, Some e)
        | (fs, None) =>
            (fix all (l : list template) (fs : FS) : FS * option error :=
               match l with
               | [] => (fs, None)
               | c :: l => match renderNode pairs (JoinAll [dest; name]) c fs with (fs, Some e) => (fs, Some e) | (fs, None) => all l fs end
               end) children fs
        end
  | TFile name data =>
      let dest := JoinAll [dest; TrimSuffix name ".tmpl"] in
      match MkdirAll (Dir dest) fs with
      | (fs, Some e) => (fs, Some e)
      | (fs, None) => WriteFile dest (Replacer pairs data) fs
      end
  end.

Fixpoint renderNodes (pairs : list (string * string)) (dest : string) (l : list template) (fs : FS) : FS * option error :=
  match l with
  | [] => (fs, None)
  | t :: l => match renderNode pairs dest t fs with (fs, Some e) => (fs, Some e) | (fs, None) => renderNodes pairs dest l fs end
  end.

Definition renderTemplate (templateName dest : string) (pairs : list (string * string)) (fs : FS) : FS * option error :=
  match templates templateName with
  | Err e => (fs, Some e)
  | Ok l => renderNodes pairs dest l fs
  end.

(** [gofmtTree]: every Go file below the target. *)
Fixpoint formatFiles (entries : list (string * bool)) (fs : FS) : FS * option error :=
  match entries with
  | [] => (fs, None)
  | (path, isDir) :: rest =>
      if isDir || negb (String.eqb (Ext path) ".go") then formatFiles rest fs
      else
        match ReadFile path fs with
        | Err e => (fs, Some (default (EPlain "file does not exist") e))
        | Ok src =>
            match formatSource src with
            | Err e => (fs, Some (wrapf ("gofmt " +:+ path) e))
            | Ok formatted =>
                match WriteFile path formatted fs with
                | (fs, Some e) => (fs, Some e)
                | (fs, None) => formatFiles rest fs
                end
            end
        end
  end.

Definition gofmtTree (target : string) (fs : FS) : FS * option error :=
  match WalkDir target fs with
  | Err e => (fs, Some e)
  | Ok entries => formatFiles entries fs
  end.

(** Whether there is something in the way. *)
Definition inTheWay (a : newArgs) (fs : FS) : bool :=
  negb (force a) && match ReadDir (target a) fs with Ok (_ :: _) => true | _ => false end.

(** [runNew] after its arguments; [order] is that of the iteration over the map. *)
Definition createProject (order : gmap string string -> list (string * string)) (a : newArgs) (name module : string) (fs : FS) : FS * option error :=
  match MkdirAll (target a) fs with
  | (fs, Some e) => (fs, Some e)
  | (fs, None) =>
      match loadVersions parsedVersions with
      | Err e => (fs, Some e)
      | Ok versions =>
          let local := if String.eqb (localFlag a) EmptyString then detectLocalCheckout fs else localFlag a in
          match replaceDirectives local (templateFlag a) fs with
          | Err e => (fs, Some e)
          | Ok replaces =>
              match renderTemplate (templateFlag a) (target a) (order (replacements name module replaces versions)) fs with
              | (fs, Some e) => (fs, Some e)
              | (fs, None) =>
                  match gofmtTree (target a) fs with
                  | (fs, Some e) => (fs, Some e)
                  | (fs, None) => (tidy (target a) fs, None)
                  end
              end
          end
      end
  end.

Definition runNew (order : gmap string string -> list (string * string)) (args : list string) (fs : FS) : FS * option error :=
  match parseNew args defaultArgs with
  | Err e => (fs, Some e)
  | Ok None => (fs, None)
  | Ok (Some a) =>
      match projectOf a with
      | Err e => (fs, Some e)
      | Ok (name, module) =>
          if inTheWay a fs then (fs, Some (EPlain (target a +:+ " is not empty; pass --force to overwrite template files")))
          else createProject order a name module fs
      end
  end.

End New.

(** ** The names are safe *)

Fixpoint allName (s : string) : bool :=
  match s with EmptyString => true | String a s => (is_lower a || is_digit a || Ascii.eqb a "-") && allName s end.

Lemma allName_app (s t : string) : allName (s +:+ t) = allName s && allName t.
Proof. induction s as [|a s IH]; cbn; [done|]. by rewrite IH, andb_assoc. Qed.

Lemma keepNames_all (s : string) : allName (keepNames s) = true.
Proof.
  induction s as [|a s IH]; [done|]. cbn [keepNames]. rewrite allName_app, IH, andb_true_r. unfold keepName.
  destruct (is_lower a || is_digit a || Ascii.eqb a "-") eqn:E; [cbn; by rewrite E|]. by case_match.
Qed.

Lemma TrimByte_part (c : ascii) (s : string) : exists x y, s = x +:+ TrimByte c s +:+ y.
Proof.
  destruct (TrimByte_spec c s) as (m & n & H). exists (Repeat (String c EmptyString) m), (Repeat (String c EmptyString) n). exact H.
Qed.

Lemma sanitizeName_all (s : string) : allName (sanitizeName s) = true.
Proof.
  unfold sanitizeName. pose proof (keepNames_all (TrimSpace (ToLower s))) as H. destruct (TrimByte_part "-" (keepNames (TrimSpace (ToLower s)))) as (x & y & E).
  rewrite E in H. rewrite !allName_app, !andb_true_iff in H. tauto.
Qed.

Lemma keepName_byte (a : ascii) : (is_lower a || is_digit a || Ascii.eqb a "-") = true ->
  lowerByte a = a /\ asciiSpace (byteN a) = false /\ (byteN a < 128)%nat /\ keepName a = String a EmptyString.
Proof. intros H. unfold keepName. rewrite H. revert H. destruct a as [[] [] [] [] [] [] [] []]; vm_compute; intros H; try discriminate H; repeat split; lia. Qed.

Lemma ToLower_name (s : string) : allName s = true -> ToLower s = s.
Proof. induction s as [|a s IH]; [done|]. cbn [allName ToLower mapBytes]. intros [Ha Hs]%andb_true_iff. destruct (keepName_byte a Ha) as (-> & _). f_equal. by apply IH. Qed.

Lemma keepNames_name (s : string) : allName s = true -> keepNames s = s.
Proof. induction s as [|a s IH]; [done|]. cbn [allName keepNames]. intros [Ha Hs]%andb_true_iff. destruct (keepName_byte a Ha) as (_ & _ & _ & ->). by rewrite (IH Hs). Qed.

Lemma skipSpace_name (a : ascii) (s : string) : allName (String a s) = true -> skipSpace (String a s) = None.
Proof.
  intros [Ha _]%andb_true_iff. destruct (keepName_byte a Ha) as (_ & Hsp & Hlt & _). cbn [skipSpace]. rewrite Hsp. destruct s as [|b s]; [done|].
  assert (space2 (byteN a) (byteN b) = false) as ->.
  { unfold space2. destruct (Nat.eqb_spec (byteN a) 194); [lia|done]. }
  destruct s as [|c s]; [done|]. unfold space3. destruct (Nat.eqb_spec (byteN a) 225); [lia|]. destruct (Nat.eqb_spec (byteN a) 226); [lia|].
  destruct (Nat.eqb_spec (byteN a) 227); [lia|done].
Qed.

Lemma TrimLeftSpace_name (s : string) : allName s = true -> TrimLeftSpace s = s.
Proof. destruct s as [|a s]; [done|]. intros H. unfold TrimLeftSpace. cbn [String.length trimLeftFuel]. by rewrite skipSpace_name. Qed.

Lemma TrimSpace_name (s : string) : allName s = true -> TrimSpace s = s.
Proof.
  intros H. unfold TrimSpace. rewrite (TrimLeftSpace_name s H). induction s as [|a s IH]; [done|].
  unfold TrimRightSpace. fold TrimRightSpace. unfold all_space. rewrite (TrimLeftSpace_name _ H). f_equal. apply IH. by apply andb_true_iff in H as [_ H].
Qed.

Lemma TrimRightByte_idem (c : ascii) (s : string) : TrimRightByte c (TrimRightByte c s) = TrimRightByte c s.
Proof.
  induction s as [|a s IH]; [done|]. cbn [TrimRightByte]. destruct (allByte c (String a s)) eqn:E; [done|].
  cbn [TrimRightByte]. destruct (allByte c (String a (TrimRightByte c s))) eqn:E2; [|by rewrite IH].
  exfalso. cbn in E2. apply andb_true_iff in E2 as [Ha Hs]. destruct (TrimRightByte_spec c s) as [n Hn].
  assert (allByte c (String a s) = true) as Ht; [|by rewrite Ht in E]. cbn. rewrite Ha, Hn, allByte_app, Hs. apply allByte_repeat.
Qed.

Lemma TrimByte_idem (c : ascii) (s : string) : TrimByte c (TrimByte c s) = TrimByte c s.
Proof.
  unfold TrimByte at 1. assert (TrimLeftByte c (TrimByte c s) = TrimByte c s) as ->; [|apply TrimRightByte_idem].
  unfold TrimByte. assert (TrimLeftByte c s = EmptyString \/ exists a t, TrimLeftByte c s = String a t /\ a <> c) as [->|(a & t & -> & Ha)]; [|done|].
  - induction s as [|a s IH]; [by left|]. cbn. destruct (Ascii.eqb_spec a c); [exact IH|right; by exists a, s].
  - cbn [TrimRightByte]. destruct (allByte c (String a t)) eqn:E; [done|]. by apply TrimLeftByte_head.
Qed.

Lemma sanitizeName_idem (s : string) : sanitizeName (sanitizeName s) = sanitizeName s.
Proof.
  pose proof (sanitizeName_all s) as H. unfold sanitizeName at 1. rewrite (ToLower_name _ H), (TrimSpace_name _ H), (keepNames_name _ H).
  unfold sanitizeName. apply TrimByte_idem.
Qed.

(** ** Module paths *)

Lemma anyByte_false (p : ascii -> bool) (s : string) : anyByte p s = false <-> forall a, In a (list_ascii_of_string s) -> p a = false.
Proof.
  induction s as [|a s IH]; cbn; [tauto|]. rewrite orb_false_iff, IH. split; [intros [H1 H2] b [<-|Hb]; auto|]. intros H. split; [apply H; by left|].
  intros b Hb. apply H. by right.
Qed.

Lemma SplitByte_app (x y : string) (c : ascii) : SplitByte (x +:+ String c y) c = SplitByte x c ++ SplitByte y c.
Proof.
  induction x as [|a x IH]; cbn [String.append SplitByte]; [by rewrite Ascii.eqb_refl|]. destruct (Ascii.eqb a c); [by rewrite IH|].
  rewrite IH. pose proof (SplitByte_nonempty x c). by destruct (SplitByte x c).
Qed.

(** The three tests for an empty element find what the elements show. *)
Lemma empty_element (s : string) :
  HasPrefix s "/" || HasSuffix s "/" || Contains s "//" = true -> In EmptyString (SplitByte s slash).
Proof.
  rewrite !orb_true_iff. intros [[H|H]|H].
  - apply HasPrefix_spec in H as [r ->]. by left.
  - unfold HasSuffix in H. destruct (cutSuffix s "/") as [r|] eqn:E; [|done]. apply cutSuffix_Some in E as ->.
    change "/" with (String slash EmptyString). rewrite SplitByte_app. apply in_app_iff. right. by left.
  - assert (exists x y, s = x +:+ String slash (String slash y)) as (x & y & ->).
    { induction s as [|a s IH]; [done|]. cbn [Contains] in H. apply orb_true_iff in H as [H|H].
      - apply HasPrefix_spec in H as [r Hr]. exists EmptyString, r. exact Hr.
      - destruct (IH H) as (x & y & ->). by exists (String a x), y. }
    rewrite SplitByte_app. apply in_app_iff. right. by left.
Qed.

(** A module path is accepted when its elements are those of a clean path and none of its
    bytes is one a Go module path cannot have. *)
Lemma validateModulePath_spec (module : string) :
  validateModulePath module = None <->
  module <> EmptyString /\ Forall plain (SplitByte module slash) /\ forall a, In a (list_ascii_of_string module) -> badModuleByte a = false.
Proof.
  unfold validateModulePath. rewrite <- anyByte_false. destruct (String.eqb_spec module EmptyString) as [->|Hne]; [naive_solver|].
  destruct (anyByte badModuleByte module); [naive_solver|].
  assert (Forall plain (SplitByte module slash) <-> existsb (fun e => String.eqb e EmptyString || String.eqb e "." || String.eqb e "..") (SplitByte module slash) = false) as ->.
  { pose proof (SplitByte_pieces module slash) as Hf. split.
    - intros Hp. apply not_true_iff_false. intros (x & Hx & Hb)%existsb_exists. rewrite List.Forall_forall in Hp. destruct (Hp x Hx) as (H1 & H2 & H3 & _).
      by rewrite !(proj2 (String.eqb_neq _ _)) in Hb.
    - intros Hb. rewrite List.Forall_forall in Hf |- *. intros x Hx.
      assert ((String.eqb x EmptyString || String.eqb x "." || String.eqb x "..") = false) as Hxb.
      { apply not_true_iff_false. intros Ht. apply not_true_iff_false in Hb. apply Hb, existsb_exists. by exists x. }
      rewrite !orb_false_iff, !String.eqb_neq in Hxb. destruct Hxb as [[? ?] ?]. split_and!; try done. by apply Hf. }
  destruct (HasPrefix module "/" || HasSuffix module "/" || Contains module "//") eqn:E.
  - apply empty_element in E. split; [done|]. intros (_ & Hb & _). exfalso. apply not_true_iff_false in Hb. apply Hb, existsb_exists. by exists EmptyString.
  - destruct (existsb _ _); naive_solver.
Qed.

Lemma allName_split (s : string) (x : string) : allName s = true -> In x (SplitByte s slash) -> x = s.
Proof.
  intros H Hx. rewrite SplitByte_free in Hx; [by destruct Hx as [<-|[]]|]. clear Hx. induction s as [|a s IH]; [done|]. cbn in H |- *. apply andb_true_iff in H as [Ha Hs].
  rewrite (IH Hs), andb_true_r. apply negb_true_iff, Ascii.eqb_neq. intros ->. by vm_compute in Ha.
Qed.

(** The name of a project: lower-case letters, digits and hyphens only, with no hyphen
    at either end, the same when it is sanitized again; unless it is empty it is a valid
    module path and the package name, so [aeus new] needs no [--module]. *)
Theorem new_names (a : newArgs) :
  let name := sanitizeName (baseName (target a)) in
  allName name = true /\ sanitizeName name = name /\ tight "-" name /\
  (name <> EmptyString -> validateModulePath name = None /\ packageName name = name) /\
  (moduleFlag a = EmptyString -> templateFlag a = "minimal" \/ templateFlag a = "admin" ->
   projectOf a = if String.eqb name EmptyString then Err (EPlain "project name must contain at least one letter or digit") else Ok (name, name)).
Proof.
  intros name. pose proof (sanitizeName_all (baseName (target a))) as Hall. pose proof (sanitizeName_idem (baseName (target a))) as Hidem. fold name in Hall, Hidem.
  assert (name <> EmptyString -> validateModulePath name = None) as Hv.
  { intros Hne. apply validateModulePath_spec. split; [done|]. split.
    - rewrite List.Forall_forall. intros x Hx. apply (allName_split name x Hall) in Hx as Hxe. subst x.
      split; [done|]. split; [intros E; rewrite E in Hall; by vm_compute in Hall|]. split; [intros E; rewrite E in Hall; by vm_compute in Hall|].
      pose proof (SplitByte_pieces name slash) as Hf. rewrite List.Forall_forall in Hf. by apply Hf.
    - clear -Hall. revert Hall. generalize name as s. induction s as [|b s IH]; [done|]. cbn [allName list_ascii_of_string]. intros [Hb Hs]%andb_true_iff c [<-|Hc]; [|by apply (IH Hs)].
      revert Hb. destruct b as [[] [] [] [] [] [] [] []]; vm_compute; done. }
  split; [done|]. split; [done|]. split; [unfold tight, name, sanitizeName; apply TrimByte_idem|]. split.
  - intros Hne. split; [by apply Hv|]. unfold packageName. rewrite Hidem. by rewrite (proj2 (String.eqb_neq _ _) Hne).
  - intros Hm Ht. unfold projectOf. fold name. destruct (String.eqb_spec name EmptyString) as [|Hne]; [done|]. rewrite Hm. cbn [String.eqb]. rewrite (Hv Hne).
    destruct Ht as [-> | ->]; done.
Qed.

(** ** Flags *)

(** [--flag=v] is [--flag v]. *)
Lemma parse_forms (name v : string) (rest : list string) (a : newArgs) :
  In name ["template"; "module"; "local"] ->
  parseNew (("--" +:+ name +:+ "=" +:+ v) :: rest) a = parseNew (("--" +:+ name) :: v :: rest) a.
Proof. intros [<-|[<-|[<-|[]]]]; reflexivity. Qed.

(** ** Placeholders *)

Definition prefixFree (pairs : list (string * string)) : Prop :=
  forall p q, In p pairs -> In q pairs -> HasPrefix (fst p) (fst q) = true -> p = q.

Lemma prefix_comparable (s p q : string) : HasPrefix s p = true -> HasPrefix s q = true -> HasPrefix p q = true \/ HasPrefix q p = true.
Proof.
  rewrite !HasPrefix_spec. intros [x ->] [y Hy]. revert q Hy. induction p as [|a p IH]; intros q Hy; [right; by exists q|].
  destruct q as [|b q]; [left; by exists (String a p)|]. cbn in Hy. injection Hy as -> Hy. destruct (IH q Hy) as [[r ->]|[r ->]]; [left|right]; by exists r.
Qed.

(** With no key a prefix of another the order of the pairs does not matter. *)
Lemma matchPair_perm (pairs pairs' : list (string * string)) (s : string) :
  prefixFree pairs -> Permutation pairs pairs' -> matchPair pairs s = matchPair pairs' s.
Proof.
  intros Hfree Hp. unfold matchPair.
  assert (List.find (fun p => HasPrefix s (fst p)) pairs = List.find (fun p => HasPrefix s (fst p)) pairs') as ->; [|done].
  destruct (List.find _ pairs) as [p|] eqn:E1, (List.find (fun p => HasPrefix s (fst p)) pairs') as [q|] eqn:E2; [| | |done].
  - apply List.find_some in E1 as [H1 H2], E2 as [H3 H4]. apply (Permutation_in q (Permutation_sym Hp)) in H3. f_equal.
    destruct (prefix_comparable s _ _ H2 H4) as [H|H]; [by apply Hfree|symmetry; by apply Hfree].
  - apply List.find_some in E1 as [H1 H2]. pose proof (List.find_none _ _ E2 p (Permutation_in p Hp H1)) as H3. cbv beta in H3. by rewrite H2 in H3.
  - apply List.find_some in E2 as [H1 H2]. pose proof (List.find_none _ _ E1 q (Permutation_in q (Permutation_sym Hp) H1)) as H3. cbv beta in H3. by rewrite H2 in H3.
Qed.

Lemma Replacer_perm (pairs pairs' : list (string * string)) (s : string) :
  prefixFree pairs -> Permutation pairs pairs' -> Replacer pairs s = Replacer pairs' s.
Proof.
  intros Hfree Hp. unfold Replacer. generalize (String.length s) as n. intros n. revert s. induction n as [|n IH]; intros s; [done|]. cbn [replacerFuel].
  destruct s as [|a s]; [done|]. rewrite (matchPair_perm pairs pairs' _ Hfree Hp). destruct (matchPair pairs' _) as [[new rest]|]; f_equal; apply IH.
Qed.

(** Text after a step: the fuel of the whole text is enough for what is left. *)
Lemma replacerFuel_enough (pairs : list (string * string)) (n m : nat) (s : string) :
  Forall (fun p => fst p <> EmptyString) pairs -> (String.length s <= n)%nat -> (String.length s <= m)%nat -> replacerFuel n pairs s = replacerFuel m pairs s.
Proof.
  intros Hne. revert m s. induction n as [|n IH]; intros m s Hn Hm; [by destruct s; [destruct m|cbn in Hn; lia]|].
  destruct s as [|a s]; [by destruct m|]. destruct m as [|m]; [cbn in Hm; lia|]. cbn [replacerFuel]. destruct (matchPair pairs (String a s)) as [[new rest]|] eqn:E.
  - f_equal. unfold matchPair in E. destruct (List.find _ pairs) as [[old new']|] eqn:Ef; [|done]. destruct (cutPrefix (String a s) old) as [r|] eqn:Ec; [|done].
    injection E as <- <-. apply List.find_some in Ef as [Hin _]. rewrite List.Forall_forall in Hne. specialize (Hne _ Hin). cbn [fst] in Hne.
    apply cutPrefix_Some in Ec. apply (f_equal String.length) in Ec. rewrite length_append in Ec. destruct old; [done|]. cbn in Ec, Hn, Hm. apply IH; lia.
  - f_equal. cbn in Hn, Hm. apply IH; lia.
Qed.

(** A text without placeholders before one: it stays, and the value is not read again. *)
Lemma Replacer_value (pairs : list (string * string)) (old new rest : string) :
  Forall (fun p => fst p <> EmptyString) pairs -> prefixFree pairs -> In (old, new) pairs ->
  Replacer pairs (old +:+ rest) = new +:+ Replacer pairs rest.
Proof.
  intros Hne Hfree Hin. unfold Replacer. pose proof Hne as Hne'. rewrite List.Forall_forall in Hne'. pose proof (Hne' _ Hin) as Ho. cbn [fst] in Ho.
  assert (matchPair pairs (old +:+ rest) = Some (new, rest)) as Hm.
  { unfold matchPair. assert (HasPrefix (old +:+ rest) old = true) as Hpre by (apply HasPrefix_spec; by exists rest).
    destruct (List.find _ pairs) as [p|] eqn:E.
    - apply List.find_some in E as [H1 H2]. assert (p = (old, new)) as ->; [|by rewrite cutPrefix_app].
      destruct (prefix_comparable _ _ _ H2 Hpre) as [H|H]; [by apply Hfree|symmetry; by apply Hfree].
    - pose proof (List.find_none _ _ E _ Hin) as H3. cbn [fst] in H3. by rewrite Hpre in H3. }
  destruct (old +:+ rest) as [|b s] eqn:Es; [by destruct old|]. cbn [String.length replacerFuel]. rewrite Hm. f_equal.
  apply replacerFuel_enough; [done| |done]. apply (f_equal String.length) in Es. rewrite length_append in Es. destruct old; [done|]. cbn in Es. lia.
Qed.

Definition placeholders : list string :=
  ["__AEUS_NAME__"; "__AEUS_MODULE__"; "__AEUS_PACKAGE__"; "__AEUS_ROOT_VERSION__"; "__AEUS_HTTP_VERSION__"; "__AEUS_ADMIN_VERSION__"; "__AEUS_REPLACES__"].

Lemma replacements_free (name module replaces : string) (versions : gmap string string) (pairs : list (string * string)) :
  Permutation pairs (map_to_list (replacements name module replaces versions)) -> prefixFree pairs.
Proof.
  intros Hp [k v] [k' v'] H1 H2 H3. apply (Permutation_in _ Hp) in H1, H2. apply list_elem_of_In, elem_of_map_to_list in H1, H2.
  assert (forall k v, replacements name module replaces versions !! k = Some v -> In k placeholders) as Hk.
  { intros x y Hx. apply elem_of_list_to_map_2, list_elem_of_In in Hx. by repeat (destruct Hx as [[= <- _]|Hx]; [cbn; tauto|]). }
  pose proof (Hk _ _ H1) as K1. pose proof (Hk _ _ H2) as K2. cbn [fst] in H3.
  assert (k = k') as <-.
  { clear -K1 K2 H3. repeat (destruct K1 as [<-|K1]; [repeat (destruct K2 as [<-|K2]; [first [done|by vm_compute in H3]|]); destruct K2|]). destruct K1. }
  congruence.
Qed.

Lemma rootedClean_length (dir : string) (es : list string) : rootedClean dir es -> (length es <= String.length dir)%nat.
Proof.
  intros [-> Hes]. assert (length es <= String.length (Join es "/"))%nat; [|cbn; lia]. induction Hes as [|x l (Hx & _) _ IH]; [done|].
  destruct l as [|y l]; [destruct x; [done|]; cbn; lia|]. change (Join (x :: y :: l) "/") with (x +:+ "/" +:+ Join (y :: l) "/").
  rewrite !length_append. cbn in *. lia.
Qed.

Lemma template_ind' (Q : template -> Prop) :
  (forall s d, Q (TFile s d)) -> (forall s l, Forall Q l -> Q (TDir s l)) -> forall t, Q t.
Proof.
  intros Hf Hd. fix IH 1. intros [s d|s l]; [apply Hf|]. apply Hd. induction l as [|t l IHl]; constructor; [apply IH|exact IHl].
Qed.

Section NewProps.

Context {FS : Type} `{HFS : FileSystem FS} `{HFSL : !FileSystemLaws FS} `{HR : !Readable FS}.
Context (ReadDir : string -> FS -> result error (list string)) (WalkDir : string -> FS -> result error (list (string * bool))).
Context (tidy : string -> FS -> FS) (formatSource Abs : string -> result error string) (developmentBuild : bool).
Context (workingDir : result error string) (parsedVersions : result error (gmap string string)) (templates : string -> result error (list template)).

Notation create := (createProject WalkDir tidy formatSource Abs developmentBuild workingDir parsedVersions templates).
Notation new := (runNew ReadDir WalkDir tidy formatSource Abs developmentBuild workingDir parsedVersions templates).

Lemma renderNode_perm (pairs pairs' : list (string * string)) (t : template) :
  (forall s, Replacer pairs s = Replacer pairs' s) -> forall dest (fs : FS), renderNode pairs dest t fs = renderNode pairs' dest t fs.
Proof.
  intros Hr. induction t as [s d|s l IH] using template_ind'; intros dest fs; cbn [renderNode]; [by rewrite Hr|].
  destruct (existsb _ _); [done|]. destruct (MkdirAll _ fs) as [fs1 [e|]]; [done|]. revert fs1. induction IH as [|t l Ht _ IHl]; intros fs1; [done|].
  rewrite Ht. destruct (renderNode pairs' _ t fs1) as [fs2 [e|]]; [done|]. apply IHl.
Qed.

Lemma renderTemplate_perm (name dest : string) (pairs pairs' : list (string * string)) (fs : FS) :
  (forall s, Replacer pairs s = Replacer pairs' s) -> renderTemplate templates name dest pairs fs = renderTemplate templates name dest pairs' fs.
Proof.
  intros Hr. unfold renderTemplate. destruct (templates name) as [l|]; [|done]. revert fs. induction l as [|t l IH]; intros fs; [done|]. cbn [renderNodes].
  rewrite (renderNode_perm pairs pairs' t Hr). destruct (renderNode pairs' dest t fs) as [fs1 [e|]]; [done|]. apply IH.
Qed.

(** C38. The placeholders are kept in a map, which is iterated over in any order: the
    project that is written is the same. *)
Theorem new_deterministic (order order' : gmap string string -> list (string * string)) (args : list string) (fs : FS) :
  (forall m, Permutation (order m) (map_to_list m)) -> (forall m, Permutation (order' m) (map_to_list m)) ->
  runNew ReadDir WalkDir tidy formatSource Abs developmentBuild workingDir parsedVersions templates order args fs
    = runNew ReadDir WalkDir tidy formatSource Abs developmentBuild workingDir parsedVersions templates order' args fs.
Proof.
  intros Ho Ho'. unfold runNew. destruct (parseNew args defaultArgs) as [[a|]|]; [|done..]. destruct (projectOf a) as [[name module]|]; [|done].
  destruct (inTheWay ReadDir a fs); [done|]. unfold createProject. destruct (MkdirAll (target a) fs) as [fs1 [e|]]; [done|].
  destruct (loadVersions parsedVersions) as [versions|]; [|done]. destruct (replaceDirectives _ _ _ _) as [replaces|]; [|done].
  set (m := replacements name module replaces versions). rewrite (renderTemplate_perm (templateFlag a) (target a) (order m) (order' m)); [done|].
  intros s. apply Replacer_perm; [exact (replacements_free _ _ _ _ _ (Ho m))|]. by rewrite Ho, Ho'.
Qed.

(** ** Where it writes *)

Definition onlyBelow (ep : list string) (fs fs' : FS) : Prop :=
  forall path, content fs' path = content fs path \/ exists ks, rootedClean path (ep ++ ks).

Lemma onlyBelow_refl (ep : list string) (fs : FS) : onlyBelow ep fs fs.
Proof. intros path. by left. Qed.

Lemma onlyBelow_trans (ep : list string) (fs1 fs2 fs3 : FS) : onlyBelow ep fs1 fs2 -> onlyBelow ep fs2 fs3 -> onlyBelow ep fs1 fs3.
Proof. intros H1 H2 path. destruct (H1 path) as [E1|], (H2 path) as [E2|]; [left; congruence|by right..]. Qed.

Lemma onlyBelow_mkdir (ep : list string) (dir : string) (fs : FS) : onlyBelow ep fs (fst (MkdirAll dir fs)).
Proof. intros path. left. apply MkdirAll_content. Qed.

Lemma onlyBelow_write (ep ks : list string) (path c : string) (fs : FS) : rootedClean path (ep ++ ks) -> onlyBelow ep fs (fst (WriteFile path c fs)).
Proof. intros Hp q. destruct (String.eqb_spec q path) as [->|Hne]; [right; by exists ks|left; by apply WriteFile_other]. Qed.

(** The names of a template are those of files; [.tmpl] is not all of one. *)
Fixpoint plainTemplate (t : template) : Prop :=
  plain (templateName t) /\ plain (TrimSuffix (templateName t) ".tmpl") /\
  match t with TFile _ _ => True | TDir _ l => (fix all l := match l with [] => True | c :: l => plainTemplate c /\ all l end) l end.

Lemma join_plain (dest name : string) (es : list string) : rootedClean dest es -> plain name -> rootedClean (JoinAll [dest; name]) (es ++ [name]).
Proof.
  intros Hd Hn. pose proof Hn as (H1 & H2 & H3 & H4). unfold JoinAll. cbn [List.filter]. rewrite (rooted_nonempty dest es Hd), (proj2 (String.eqb_neq name EmptyString) H1). cbn [negb Join].
  pose proof (join_below dest name es Hd) as Hj. rewrite (SplitByte_free name) in Hj by done. cbn [List.filter] in Hj.
  rewrite (proj2 (String.eqb_neq _ _) H1), (proj2 (String.eqb_neq _ _) H2) in Hj. apply Hj. by intros [->|[]].
Qed.

Lemma renderNode_below (pairs : list (string * string)) (ep : list string) (t : template) :
  plainTemplate t -> forall dest ks (fs : FS), rootedClean dest (ep ++ ks) -> onlyBelow ep fs (fst (renderNode pairs dest t fs)).
Proof.
  induction t as [s d|s l IH] using template_ind'; intros Ht dest ks fs Hd; cbn [renderNode].
  - destruct Ht as (_ & Hs & _). cbn [templateName] in Hs. pose proof (join_plain dest _ _ Hd Hs) as Hp. rewrite <- app_assoc in Hp.
    pose proof (onlyBelow_mkdir ep (Dir (JoinAll [dest; TrimSuffix s ".tmpl"])) fs) as H1. destruct (MkdirAll _ fs) as [fs1 [e|]]; [done|].
    exact (onlyBelow_trans _ _ _ _ H1 (onlyBelow_write ep _ _ _ fs1 Hp)).
  - destruct (existsb _ _); [apply onlyBelow_refl|]. destruct Ht as (Hs & _ & Hl). cbn [templateName] in Hs. pose proof (join_plain dest s _ Hd Hs) as Hp. rewrite <- app_assoc in Hp.
    pose proof (onlyBelow_mkdir ep (JoinAll [dest; TrimSuffix s ".tmpl"]) fs) as H1. destruct (MkdirAll _ fs) as [fs1 [e|]]; [done|]. cbn [fst] in H1.
    eapply onlyBelow_trans; [exact H1|]. clear H1. revert fs1. induction IH as [|t l Ht _ IHl]; intros fs1; [apply onlyBelow_refl|]. destruct Hl as [Ht' Hl].
    pose proof (Ht Ht' _ _ fs1 Hp) as H2. destruct (renderNode pairs _ t fs1) as [fs2 [e|]]; [done|]. exact (onlyBelow_trans _ _ _ _ H2 (IHl Hl fs2)).
Qed.

Lemma renderNodes_below (pairs : list (string * string)) (ep : list string) (l : list template) (dest : string) (fs : FS) :
  Forall plainTemplate l -> rootedClean dest ep -> onlyBelow ep fs (fst (renderNodes pairs dest l fs)).
Proof.
  intros Hl Hd. revert fs. induction Hl as [|t l Ht _ IH]; intros fs; cbn [renderNodes]; [apply onlyBelow_refl|].
  pose proof (renderNode_below pairs ep t Ht dest [] fs ltac:(by rewrite app_nil_r)) as H1. destruct (renderNode pairs dest t fs) as [fs1 [e|]]; [done|].
  exact (onlyBelow_trans _ _ _ _ H1 (IH fs1)).
Qed.

Lemma formatFiles_below (ep : list string) (entries : list (string * bool)) (fs : FS) :
  Forall (fun e => exists ks, rootedClean (fst e) (ep ++ ks)) entries -> onlyBelow ep fs (fst (formatFiles formatSource entries fs)).
Proof.
  intros He. revert fs. induction He as [|[path isDir] l [ks Hp] _ IH]; intros fs; cbn [formatFiles]; [apply onlyBelow_refl|].
  destruct (_ || _); [apply IH|]. destruct (ReadFile path fs) as [src|]; [|apply onlyBelow_refl]. destruct (formatSource src) as [formatted|]; [|apply onlyBelow_refl].
  pose proof (onlyBelow_write ep ks path formatted fs Hp) as H1. destruct (WriteFile path formatted fs) as [fs1 [e|]]; [done|]. exact (onlyBelow_trans _ _ _ _ H1 (IH fs1)).
Qed.

(** [aeus new] writes below its target only; it writes nothing when it is asked for
    help, when an argument is refused, or when there is something in the target and
    [--force] was not given. *)
Theorem new_writes_below (order : gmap string string -> list (string * string)) (args : list string) (ep : list string) (fs : FS) :
  (forall a, parseNew args defaultArgs = Ok (Some a) -> rootedClean (target a) ep) ->
  (forall name l, templates name = Ok l -> Forall plainTemplate l) ->
  (forall t fs entries, WalkDir t fs = Ok entries -> rootedClean t ep -> Forall (fun e => exists ks, rootedClean (fst e) (ep ++ ks)) entries) ->
  (forall t fs, rootedClean t ep -> onlyBelow ep fs (tidy t fs)) ->
  onlyBelow ep fs (fst (new order args fs)) /\
  (match parseNew args defaultArgs with
   | Ok (Some a) => is_ok (projectOf a) = false \/ (force a = false /\ exists x l, ReadDir (target a) fs = Ok (x :: l))
   | _ => True
   end -> fst (new order args fs) = fs).
Proof.
  intros Htarget Htmpl Hwalk Htidy. unfold runNew. destruct (parseNew args defaultArgs) as [[a|]|]; [|split; [apply onlyBelow_refl|done]..].
  specialize (Htarget a eq_refl). destruct (projectOf a) as [[name module]|]; [|split; [apply onlyBelow_refl|done]].
  destruct (inTheWay ReadDir a fs) eqn:Eway; [split; [apply onlyBelow_refl|done]|]. split.
  - unfold createProject. pose proof (onlyBelow_mkdir ep (target a) fs) as H1. destruct (MkdirAll (target a) fs) as [fs1 [e|]]; [done|]. cbn [fst] in H1.
    destruct (loadVersions parsedVersions) as [versions|]; [|done]. destruct (replaceDirectives _ _ _ _) as [replaces|]; [|done].
    eapply onlyBelow_trans; [exact H1|]. unfold renderTemplate. destruct (templates (templateFlag a)) as [l|] eqn:El; [|apply onlyBelow_refl].
    set (pairs := order _). pose proof (renderNodes_below pairs ep l (target a) fs1 (Htmpl _ _ El) Htarget) as H2.
    destruct (renderNodes pairs (target a) l fs1) as [fs2 [e|]]; [done|]. cbn [fst] in H2. eapply onlyBelow_trans; [exact H2|]. unfold gofmtTree.
    destruct (WalkDir (target a) fs2) as [entries|] eqn:Ew; [|apply onlyBelow_refl]. pose proof (formatFiles_below ep entries fs2 (Hwalk _ _ _ Ew Htarget)) as H3.
    destruct (formatFiles formatSource entries fs2) as [fs3 [e|]]; [done|]. exact (onlyBelow_trans _ _ _ _ H3 (Htidy _ _ Htarget)).
  - intros [Hp|(Hf & x & l & Hr)]; [done|]. unfold inTheWay in Eway. by rewrite Hf, Hr in Eway.
Qed.

(** The search for a checkout ends at the root. *)
Lemma findCheckout_enough (es : list string) (dir : string) (fs : FS) (n : nat) :
  rootedClean dir es -> (length es < n)%nat -> findCheckout n dir fs = findCheckout (S (length es)) dir fs.
Proof.
  revert dir n. induction es as [|x es IH] using rev_ind; intros dir n Hd Hn.
  - destruct n as [|n]; [lia|]. cbn [findCheckout length]. destruct (match ReadFile _ _ with Ok _ => _ | Err _ => _ end); [done|].
    assert (Dir dir = dir) as ->; [|by rewrite String.eqb_refl]. destruct Hd as [-> _]. reflexivity.
  - rewrite length_app in *. cbn [length] in *. destruct n as [|n]; [lia|]. rewrite Nat.add_1_r. cbn [findCheckout].
    destruct (match ReadFile _ _ with Ok _ => _ | Err _ => _ end); [done|]. destruct (String.eqb _ _); [done|].
    pose proof (Dir_rooted dir x es Hd) as Hp. by rewrite (IH (Dir dir) n Hp) by lia.
Qed.

End NewProps.

(** ** Examples *)

Definition forward (m : gmap string string) : list (string * string) := map_to_list m.
Definition backward (m : gmap string string) : list (string * string) := reverse (map_to_list m).

Definition demoVersions : result error (gmap string string) := Ok {["root" := "v1"; "transport/http" := "v2"; "admin" := "v3"]}.
Definition demoTemplates (name : string) : result error (list template) :=
  Ok [TFile "go.mod.tmpl" "module __AEUS_MODULE__ // __AEUS_ROOT_VERSION__"; TDir "node_modules" [TFile "x.js" EmptyString];
      TDir "cmd" [TFile "main.go.tmpl" "package main"]].

Definition runDemo (order : gmap string string -> list (string * string)) (args : list string) (fs : gmap string string) : gmap string string * option error :=
  runNew (fun t fs => Ok (map fst (map_to_list fs))) (fun t fs => Ok []) (fun t fs => fs) (fun s => Ok s) (fun s => Ok s) false (Ok "/") demoVersions demoTemplates
    order args fs.

Lemma new_deterministic_witness :
  runDemo forward ["/My.App_1/"; "--module=__AEUS_NAME__"] ∅ = runDemo backward ["/My.App_1/"; "--module=__AEUS_NAME__"] ∅ /\
  fst (runDemo backward ["/My.App_1"; "--module=__AEUS_NAME__"] ∅) !! "/My.App_1/go.mod" = Some "module __AEUS_NAME__ // v1".
Proof.
  split; [|by vm_compute]. refine (new_deterministic _ _ _ _ _ _ _ _ _ forward backward ["/My.App_1/"; "--module=__AEUS_NAME__"] ∅ _ _).
  - intros m. reflexivity.
  - intros m. unfold backward. by rewrite reverse_Permutation.
Defined.

Lemma new_writes_below_witness :
  let fs : gmap string string := {["/etc/x" := "mine"]} in
  (fst (runDemo forward ["/app"; "--force"] fs) !! "/etc/x" = Some "mine") /\
  (fst (runDemo forward ["/app"; "--force"] fs) !! "/app/cmd/main.go" = Some "package main") /\
  fst (runDemo forward ["/app"] fs) = fs.
Proof.
  intros fs.
  assert (forall args, (args = ["/app"] \/ args = ["/app"; "--force"]) ->
    (forall a, parseNew args defaultArgs = Ok (Some a) -> rootedClean (target a) ["app"])) as Hargs.
  { intros args Ha a E. assert (target a = "/app") as -> by (destruct Ha as [-> | ->]; cbn in E; by injection E as <-). split; [done|]. by repeat constructor. }
  assert (forall name l, demoTemplates name = Ok l -> Forall plainTemplate l) as Ht.
  { intros name l [= <-]. by repeat constructor. }
  pose proof (fun args H => new_writes_below (fun t fs => Ok (map fst (map_to_list fs))) (fun t (fs : gmap string string) => Ok []) (fun t fs => fs)
    (fun s => Ok s) (fun s => Ok s) false (Ok "/") demoVersions demoTemplates forward args ["app"] fs (Hargs args H) Ht) as Hnew.
  split; [|split; [by vm_compute|]].
  - refine (match proj1 (Hnew ["/app"; "--force"] (or_intror eq_refl) _ _) "/etc/x" with or_introl E => E | or_intror H => _ end).
    + intros t fs' entries [= <-] _. constructor.
    + intros t fs' _ path. by left.
    + exfalso. destruct H as [ks [H _]]. by destruct ks.
  - refine (proj2 (Hnew ["/app"] (or_introl eq_refl) _ _) _).
    + intros t fs' entries [= <-] _. constructor.
    + intros t fs' _ path. by left.
    + cbn. right. split; [done|]. eexists _, _. vm_compute. reflexivity.
Defined.

(** A module of the repository is taken for its root: the name is a prefix. *)
Example checkout_in_a_module :
  findCheckout 5 "/aeus/admin/pb" ({["/aeus/go.mod" := "module github.com/sjlit/aeus"; "/aeus/admin/go.mod" := "module github.com/sjlit/aeus/admin"]} : gmap string string)
  = "/aeus/admin".
Proof. by vm_compute. Qed.

(** With [--force] every Go file below the target is formatted, those of the user too. *)
Example force_formats_all :
  fst (formatFiles (fun s => Ok (s +:+ " (formatted)")) [("/app/mine.go", false)] ({["/app/mine.go" := "mine"]} : gmap string string)) !! "/app/mine.go"
  = Some "mine (formatted)".
Proof. by vm_compute. Qed.

Example parse_runs :
  parseNew ["app"; "--template"; "admin"; "--force"] defaultArgs = Ok (Some (mkNewArgs "admin" EmptyString EmptyString true "app")) /\
  parseNew ["app"; "--template=admin"; "-force"] defaultArgs = Ok (Some (mkNewArgs "admin" EmptyString EmptyString true "app")) /\
  is_ok (parseNew ["a"; "b"] defaultArgs) = false /\ is_ok (parseNew [] defaultArgs) = false /\ parseNew ["-h"; "x"; "y"] defaultArgs = Ok None /\
  map (fun s => sanitizeName (baseName s)) ["/srv/My App_1/"; "a\b"; "--x--"; "."] = ["my-app-1"; "b"; "x"; EmptyString].
Proof. by vm_compute. Qed.
