(* ===== verification/AeusCmd.v ===== *)
(** [cmd/aeus]: the command line of the tool (main.go): the flags of [aeus gen] as the
    [flag] package reads them, the dispatch on the first argument, and the exit code. *)

From Stdlib Require Import ZArith Lia String Ascii List Bool.
From stdpp Require Import base tactics list gmap strings.
From S2P Require Import Prelude GoStrings Errs GoPath Manifest VueGen WireGen ApiPath ApiGen ApiFiles Scaffold.

Local Open Scope string_scope.
Local Open Scope list_scope.

(** ** The flags of [aeus gen] *)

Inductive flagSetter : Type :=
| StringFlag (set : string -> genOptions -> genOptions)
| BoolFlag (set : bool -> genOptions -> genOptions).

Definition setProtoDir (v : string) (o : genOptions) : genOptions :=
  mkGenOptions v (outDir o) (goPkg o) (fileName o) (webDir o) (apiDir o) (noWeb o) (noAPI o) (checkOnly o).
Definition setOutDir (v : string) (o : genOptions) : genOptions :=
  mkGenOptions (protoDir o) v (goPkg o) (fileName o) (webDir o) (apiDir o) (noWeb o) (noAPI o) (checkOnly o).
Definition setPackage (v : string) (o : genOptions) : genOptions :=
  mkGenOptions (protoDir o) (outDir o) v (fileName o) (webDir o) (apiDir o) (noWeb o) (noAPI o) (checkOnly o).
Definition setFile (v : string) (o : genOptions) : genOptions :=
  mkGenOptions (protoDir o) (outDir o) (goPkg o) v (webDir o) (apiDir o) (noWeb o) (noAPI o) (checkOnly o).
Definition setWebDir (v : string) (o : genOptions) : genOptions :=
  mkGenOptions (protoDir o) (outDir o) (goPkg o) (fileName o) v (apiDir o) (noWeb o) (noAPI o) (checkOnly o).
Definition setAPIDir (v : string) (o : genOptions) : genOptions :=
  mkGenOptions (protoDir o) (outDir o) (goPkg o) (fileName o) (webDir o) v (noWeb o) (noAPI o) (checkOnly o).
Definition setNoWeb (b : bool) (o : genOptions) : genOptions :=
  mkGenOptions (protoDir o) (outDir o) (goPkg o) (fileName o) (webDir o) (apiDir o) b (noAPI o) (checkOnly o).
Definition setNoAPI (b : bool) (o : genOptions) : genOptions :=
  mkGenOptions (protoDir o) (outDir o) (goPkg o) (fileName o) (webDir o) (apiDir o) (noWeb o) b (checkOnly o).

Definition genFlags : list (string * flagSetter) :=
  [ ("proto-dir", StringFlag setProtoDir); ("out", StringFlag setOutDir); ("package", StringFlag setPackage); ("file", StringFlag setFile);
    ("web-dir", StringFlag setWebDir); ("api-dir", StringFlag setAPIDir);
    ("no-web", BoolFlag setNoWeb); ("no-api", BoolFlag setNoAPI); ("check", BoolFlag withCheck) ].
Definition genDefaults : genOptions := mkGenOptions "proto" "internal/gen" "gen" "wiring.go" "web/src/views" "web/src/api/generated" false false false.

(** *** [flag.FlagSet.Parse] with [flag.ContinueOnError] *)

(** What one argument is to the parser. *)
Inductive argument : Type := Positional | EndOfFlags | BadFlag | Flag (name : string) (value : option string).

Definition classify (s : string) : argument :=
  match s with
  | String "-" s' =>
      let name := match s' with String "-" n => n | _ => s' end in
      if String.eqb s "-" then Positional
      else if String.eqb s "--" then EndOfFlags
      else match name with
           | EmptyString | String "-" _ | String "=" _ => BadFlag
           | _ => match cutByte name "=" with Some (n, v) => Flag n (Some v) | None => Flag name None end
           end
  | _ => Positional
  end.

Definition parseBoolFlag (v : string) : option bool :=
  if existsb (String.eqb v) ["1"; "t"; "T"; "true"; "TRUE"; "True"] then Some true
  else if existsb (String.eqb v) ["0"; "f"; "F"; "false"; "FALSE"; "False"] then Some false
  else None.

Definition ErrHelp : error := EPlain "flag: help requested".
Definition lookupFlag (name : string) : option flagSetter := snd <$> find (fun f => String.eqb (fst f) name) genFlags.

Fixpoint parseFlags (args : list string) (o : genOptions) : result error (genOptions * list string) :=
  match args with
  | [] => Ok (o, [])
  | s :: rest =>
      match classify s with
      | Positional => Ok (o, args)
      | EndOfFlags => Ok (o, rest)
      | BadFlag => Err (EPlain ("bad flag syntax: " +:+ s))
      | Flag name value =>
          match lookupFlag name with
          | None =>
              Err (if String.eqb name "help" || String.eqb name "h" then ErrHelp
                   else EPlain ("flag provided but not defined: -" +:+ name))
          | Some (BoolFlag set) =>
              match value with
              | None => parseFlags rest (set true o)
              | Some v =>
                  match parseBoolFlag v with
                  | Some b => parseFlags rest (set b o)
                  | None => Err (EPlain ("invalid boolean value " +:+ quote v +:+ " for -" +:+ name +:+ ": parse error"))
                  end
              end
          | Some (StringFlag set) =>
              match value, rest with
              | Some v, _ => parseFlags rest (set v o)
              | None, v :: rest => parseFlags rest (set v o)
              | None, [] => Err (EPlain ("flag needs an argument: -" +:+ name))
              end
          end
      end
  end.

(** ** [main] *)

Section Main.

Context {FS : Type} `{HFS : FileSystem FS} `{HFSL : !FileSystemLaws FS} `{HR : !Readable FS} `{HRL : !ReadableLaws FS} {HSL : StatLaws (FS := FS)} {HU : Unicode}.
Variable ReadDir : string -> FS -> result error (list string).
Variable WalkDir : string -> FS -> result error (list (string * bool)).
Variable tidy : string -> FS -> FS.
Variable formatSource : string -> result error string.
Variable Abs : string -> result error string.
Variable developmentBuild : bool.
Variable workingDir : result error string.
Variable parsedVersions : result error (gmap string string).
Variable templates : string -> result error (list template).
Variable order : gmap string string -> list (string * string).
Variable Unmarshal : string -> result error resourceManifest.
Variable exists_ : string -> FS -> bool.

(** [os.Args] and the tree of the manifests; the exit code.  What goes to the standard
    error (the usage, the error) is left out. *)
Definition exitCode (r : FS * option error) : FS * Z := (fst r, match snd r with Some _ => 1 | None => 0 end)%Z.

Definition generate (args : list string) (tree : node) (fs : FS) : FS * option error :=
  runGen Unmarshal exists_ (fun args => parseFlags args genDefaults) formatSource args tree fs.

Definition main (args : list string) (tree : node) (fs : FS) : FS * Z :=
  match args with
  | [] | [_] => (fs, 2%Z)
  | _ :: command :: rest =>
      if String.eqb command "new" then
        exitCode (runNew ReadDir WalkDir tidy formatSource Abs developmentBuild workingDir parsedVersions templates order rest fs)
      else if String.eqb command "gen" then exitCode (generate rest tree fs)
      else if existsb (String.eqb command) ["-h"; "--help"; "help"] then (fs, 0%Z)
      else (fs, 2%Z)
  end.

(** A command line for given options; any text is possible as a value. *)
Definition commandLine (o : genOptions) : list string :=
  let b (x : bool) := if x then "true" else "false" in
  [ "-proto-dir=" +:+ protoDir o; "--out=" +:+ outDir o; "-package=" +:+ goPkg o; "--file=" +:+ fileName o; "-web-dir=" +:+ webDir o;
    "--api-dir"; apiDir o; "-no-web=" +:+ b (noWeb o); "--no-api=" +:+ b (noAPI o); "-check=" +:+ b (checkOnly o) ].

(** Every setting of the options can be asked for. *)
Lemma parseFlags_commandLine (o d : genOptions) : parseFlags (commandLine o) d = Ok (o, []).
Proof. by destruct o as [p u k f w a [] [] []]. Qed.

(** What the arguments say does not depend on what a check was before, but for the check
    itself, where they are silent about it. *)
Lemma parseFlags_check (b : bool) (args : list string) (d o : genOptions) (rest : list string) :
  parseFlags args d = Ok (o, rest) ->
  parseFlags args (withCheck b d) = Ok (o, rest) \/ parseFlags args (withCheck b d) = Ok (withCheck b o, rest).
Proof.
  revert d. induction args as [args IH] using (induction_ltof1 _ (@length _)). unfold ltof in IH. intros d.
  destruct args as [|s args]; cbn [parseFlags]; [intros [= <- <-]; by right|].
  destruct (classify s) as [| | |name value]; [intros [= <- <-]; by right|intros [= <- <-]; by right|done|].
  unfold lookupFlag. destruct (find _ genFlags) as [[n f]|] eqn:Ef; [|done]. cbn [snd fmap option_fmap option_map].
  assert (match f with
          | StringFlag set => forall v, set v (withCheck b d) = withCheck b (set v d)
          | BoolFlag set => (forall v, set v (withCheck b d) = withCheck b (set v d)) \/ (forall v, set v (withCheck b d) = set v d)
          end) as Hf.
  { apply find_some in Ef as [Hin _]. cbn in Hin.
    repeat (destruct Hin as [[= <- <-]|Hin]; [first [by intros|by left|by right]|]). done. }
  destruct f as [set|set].
  - destruct value as [v|]; [rewrite Hf; apply IH; cbn; lia|]. destruct args as [|v args]; [done|]. rewrite Hf. apply IH. cbn. lia.
  - destruct (match value with None => Some true | Some v => parseBoolFlag v end) as [x|] eqn:Ex.
    + assert (forall o', match value with
                | Some v => match parseBoolFlag v with Some b => parseFlags args (set b o') | None => Err (EPlain ("invalid boolean value " +:+ quote v +:+ " for -" +:+ name +:+ ": parse error")) end
                | None => parseFlags args (set true o') end = parseFlags args (set x o')) as Hx.
      { intros o'. destruct value as [v|]; [by rewrite Ex|by injection Ex as <-]. }
      rewrite !Hx. destruct Hf as [Hf|Hf]; rewrite Hf; [apply IH; cbn; lia|]. intros ->. by left.
    + destruct value as [v|]; [|done]. by rewrite Ex.
Qed.

(** The exit code says what happened: 2 and nothing touched without a known command, else
    0 exactly when the command had no error. *)
Lemma main_exit (program command : string) (rest : list string) (tree : node) (fs : FS) :
  let new := runNew ReadDir WalkDir tidy formatSource Abs developmentBuild workingDir parsedVersions templates order rest fs in
  let done (r : FS * option error) := (fst r, if decide (snd r = None) then 0%Z else 1%Z) in
  main [program] tree fs = (fs, 2%Z)
  /\ main (program :: command :: rest) tree fs
     = if decide (command = "new") then done new
       else if decide (command = "gen") then done (generate rest tree fs)
       else (fs, if decide (command ∈ ["-h"; "--help"; "help"]) then 0%Z else 2%Z).
Proof.
  intros new end_. assert (forall r : FS * option error, exitCode r = end_ r) as Hx.
  { intros [f [e|]]; unfold exitCode, end_; cbn [fst snd]; by case_decide. }
  split; [done|]. unfold main.
  destruct (String.eqb_spec command "new") as [->|Hn]; [rewrite decide_True by done; apply Hx|]. rewrite decide_False by done.
  destruct (String.eqb_spec command "gen") as [->|Hg]; [rewrite decide_True by done; apply Hx|]. rewrite decide_False by done.
  case_decide as Hd.
  - assert (existsb (String.eqb command) ["-h"; "--help"; "help"] = true) as ->; [|done].
    apply existsb_exists. exists command. rewrite String.eqb_refl. split; [by apply list_elem_of_In|done].
  - destruct (existsb _ _) eqn:Ee; [|done]. apply existsb_exists in Ee as (x & Hin & ->%String.eqb_eq). by apply list_elem_of_In in Hin.
Qed.

(** [aeus gen --check] with the arguments of an [aeus gen] that ended well ends well and
    changes nothing, unless those arguments say that it is not to be a check; under the
    conditions of [ApiFiles.gen_then_check]. *)
Theorem gen_check_exits (program : string) (args : list string) (o : genOptions) (tree : node) (fs fs' : FS) :
  let target := JoinAll [outDir o; fileName o] in
  main (program :: "gen" :: args) tree fs = (fs', 0%Z) ->
  parseFlags args genDefaults = Ok (o, []) -> checkOnly o = false ->
  loadManifests Unmarshal exists_ (protoDir o) tree fs' = loadManifests Unmarshal exists_ (protoDir o) tree fs ->
  (forall ms m, loadManifests Unmarshal exists_ (protoDir o) tree fs = Ok ms -> In m ms ->
     apiFilePath (apiDir o) (rmSource m) <> Ok target /\ forall e, In e (rmEntities m) -> vueFilePath (webDir o) e <> Ok target) ->
  main (program :: "gen" :: "--check" :: args) tree fs' = (fs', 0%Z)
  \/ parseFlags ("--check" :: args) genDefaults = Ok (o, []).
Proof.
  intros target Hmain Hp Hc Hload Hsep. change (parseFlags ("--check" :: args) genDefaults) with (parseFlags args (withCheck true genDefaults)).
  destruct (parseFlags_check true args genDefaults o [] Hp) as [Hp'|Hp']; [by right|]. left.
  assert (genWith Unmarshal exists_ formatSource (withCheck false o) tree fs = (fs', None)) as Hgen.
  { change (main (program :: "gen" :: args) tree fs) with (exitCode (generate args tree fs)) in Hmain. unfold generate, runGen in Hmain. rewrite Hp in Hmain.
    assert (withCheck false o = o) as -> by (destruct o; by cbn in Hc; subst).
    destruct (genWith Unmarshal exists_ formatSource o tree fs) as [f [e|]]; [done|]. by injection Hmain as ->. }
  change (main (program :: "gen" :: "--check" :: args) tree fs') with (exitCode (generate ("--check" :: args) tree fs')).
  unfold generate, runGen. change (parseFlags ("--check" :: args) genDefaults) with (parseFlags args (withCheck true genDefaults)). rewrite Hp'.
  pose proof (genWith_settles Unmarshal exists_ formatSource o tree fs fs' Hgen Hload Hsep) as Hcheck.
  assert (withCheck true o = withCheck true (withCheck true o)) as Hw by done. by rewrite Hcheck.
Qed.

End Main.

(** ** A concrete run *)

Definition demoMain (args : list string) (fs : gmap string string) : gmap string string * Z :=
  main (fun t fs => Ok (map fst (map_to_list fs))) (fun t fs => Ok []) (fun t fs => fs) (fun s => Ok s) (fun s => Ok s) false (Ok "/") demoVersions
    demoTemplates forward demoUnmarshal demoExists (HU := asciiOnly) args demoTree fs.

Definition demoArgs : list string := ["-proto-dir=/p/proto"; "--out"; "/p/gen"; "-web-dir=/p/views"; "--api-dir=/p/api"; "--no-web=f"].

Lemma gen_check_exits_witness :
  let fs := fst (demoMain ("aeus" :: "gen" :: demoArgs) demoProject) in
  demoMain ("aeus" :: "gen" :: "--check" :: demoArgs) fs = (fs, 0%Z) /\ snd (demoMain ("aeus" :: "gen" :: "--check" :: demoArgs) demoProject) = 1%Z.
Proof.
  intros fs. split; [|by vm_compute].
  destruct (gen_check_exits (fun t fs => Ok (map fst (map_to_list fs))) (fun t fs => Ok []) (fun t fs => fs) (fun s => Ok s) (fun s => Ok s) false (Ok "/") demoVersions
    demoTemplates forward demoUnmarshal demoExists (HU := asciiOnly) "aeus" demoArgs demoOptions demoTree demoProject fs) as [Hm|Hp]; [..|exact Hm|exfalso].
  - vm_eq.
  - vm_eq.
  - done.
  - vm_eq.
  - intros ms m Hl Hm. vm_compute in Hl. injection Hl as <-. destruct Hm as [<-|[]]. split; [by vm_compute|]. intros x [<-|[]]. by vm_compute.
  - vm_compute in Hp. discriminate Hp.
Defined.

(** Asking for help is an error for [gen] only. *)
Example help_codes :
  map (fun args => snd (demoMain args ∅)) [["aeus"; "help"]; ["aeus"; "new"; "-h"]; ["aeus"; "gen"; "-h"]; ["aeus"]; ["aeus"; "run"]] = [0; 0; 1; 2; 2]%Z.
Proof. by vm_compute. Qed.
