(* ===== verification/SyncWeb.v ===== *)
(** [cmd/aeus/internal/syncweb]: the program that rebuilds the template of the web console
    from [admin/web] and keeps the files the template owns. *)

From Stdlib Require Import ZArith Lia String Ascii List Bool.
From stdpp Require Import base tactics list gmap strings.
From S2P Require Import Prelude GoStrings GoPath Errs Derive Manifest VueGen ApiPath ApiFiles Scaffold.

Local Open Scope string_scope.
Local Open Scope list_scope.
Local Open Scope aeus_scope.

(** [os.RemoveAll]: once it has succeeded nothing is left below; it touches nothing else. *)
Class Removable (FS : Type) : Type := { RemoveAll : string -> FS -> FS * option error }.

Class RemovableLaws (FS : Type) `{FileSystem FS} `{!Removable FS} : Prop := {
  RemoveAll_below dir fs fs' es ks p :
    RemoveAll dir fs = (fs', None) -> rootedClean dir es -> rootedClean p (es ++ ks) -> content fs' p = None;
  RemoveAll_other dir fs es p :
    rootedClean dir es -> (forall ks, ~ rootedClean p (es ++ ks)) -> content (fst (RemoveAll dir fs)) p = content fs p;
}.

Definition preserved : list string := ["README.md"; ".gitignore"; "src/__tests__/smoke.test.ts"; "src/components.d.ts"].

Definition skippedDirs : list string := ["node_modules"; "dist"; ".mimocode"; ".git"; "__tests__"].
Definition skipped (name : string) : bool := existsb (String.eqb name) skippedDirs.

Definition bootTag (text : string) : string := "<div class=" +:+ quote "boot" +:+ ">" +:+ text +:+ "</div>".
Definition nameField (name : string) : string := quote "name" +:+ ": " +:+ quote name.

Definition transform (rel body : string) : string :=
  if String.eqb rel ".env.production" then "VITE_API_BASE=" +:+ nl
  else if String.eqb rel "index.html" then
         ReplaceAll (ReplaceAll body "<title>Board</title>" "<title>__AEUS_NAME__</title>") (bootTag "Board") (bootTag "__AEUS_NAME__")
  else if String.eqb rel "public/app-config.js" then
         "window.__AEUS_CONFIG__ = {" +:+ nl +:+ "  appName: '__AEUS_NAME__'," +:+ nl +:+ "}" +:+ nl
  else if String.eqb rel "package.json" || String.eqb rel "package-lock.json" then
         ReplaceAll body (nameField "aeus") (nameField "__AEUS_PACKAGE__")
  else body.

Section Sync.

Context {FS : Type} `{HFS : FileSystem FS} `{HFSL : !FileSystemLaws FS} `{HR : !Readable FS} `{HRL : !ReadableLaws FS}.
Context `{HRm : !Removable FS} `{HRmL : !RemovableLaws FS}.

(** The first loop of [readPreserved]. *)
Fixpoint readOwned (dst : string) (rels : list string) (keep : gmap string string) (fs : FS) : result error (gmap string string) :=
  match rels with
  | [] => Ok keep
  | rel :: rels =>
      match ReadFile (JoinAll [dst; rel]) fs with
      | Ok body => readOwned dst rels (<[rel := body]> keep) fs
      | Err None => readOwned dst rels keep fs
      | Err (Some err) => Err (wrapf ("read preserved " +:+ rel) err)
      end
  end.

Definition readPreserved (src dst : string) (fs : FS) : result error (gmap string string) :=
  match readOwned dst preserved ∅ fs with
  | Err err => Err err
  | Ok keep =>
      match ReadFile (JoinAll [src; "src"; "components.d.ts"]) fs with
      | Ok body => Ok (<["src/components.d.ts" := body]> keep)
      | Err _ => Ok keep
      end
  end.

Definition writeFile (root rel body : string) (fs : FS) : FS * option error :=
  let out := JoinAll [root; rel] in
  match MkdirAll (Dir out) fs with
  | (fs, Some err) => (fs, Some err)
  | (fs, None) => WriteFile out body fs
  end.

(** The walk over the source: what is done at [path], and below it. *)
Fixpoint copyNode (keep : gmap string string) (src dst path : string) (n : node) (copied : nat) (fs : FS) : FS * result error nat :=
  match Rel src path with
  | Err err => (fs, Err err)
  | Ok rel =>
      let root := String.eqb rel "." in
      match n with
      | NDir name children =>
          if negb root && skipped name then (fs, Ok copied)
          else
            (fix all (l : list node) (copied : nat) (fs : FS) : FS * result error nat :=
               match l with
               | [] => (fs, Ok copied)
               | c :: l =>
                   match copyNode keep src dst (JoinAll [path; nodeName c]) c copied fs with
                   | (fs, Err err) => (fs, Err err)
                   | (fs, Ok copied) => all l copied fs
                   end
               end) children copied fs
      | NBad name err => if negb root && skipped name then (fs, Ok copied) else (fs, Err err)
      | NFile _ =>
          if root then (fs, Ok copied)
          else
            match keep !! rel with
            | Some _ => (fs, Ok copied)
            | None =>
                if Contains rel "__tests__/" then (fs, Ok copied)
                else
                  match ReadFile path fs with
                  | Err err => (fs, Err (default (EPlain "file does not exist") err))
                  | Ok body =>
                      match writeFile dst rel (transform rel body) fs with
                      | (fs, Some err) => (fs, Err err)
                      | (fs, None) => (fs, Ok (copied + 1)%nat)
                      end
                  end
            end
      end
  end.

(** The kept files are put back, in the order of the iteration over the map. *)
Fixpoint restore (dst : string) (kept : list (string * string)) (copied : nat) (fs : FS) : FS * result error nat :=
  match kept with
  | [] => (fs, Ok copied)
  | (rel, body) :: kept =>
      match writeFile dst rel body fs with
      | (fs, Some err) => (fs, Err err)
      | (fs, None) => restore dst kept (copied + 1)%nat fs
      end
  end.

(** The number of files written, and of those kept. *)
Definition syncDir (order : gmap string string -> list (string * string)) (tree : node) (src dst : string) (fs : FS) : FS * result error (nat * nat) :=
  match readPreserved src dst fs with
  | Err err => (fs, Err err)
  | Ok keep =>
      match RemoveAll dst fs with
      | (fs, Some err) => (fs, Err (wrapf ("remove " +:+ dst) err))
      | (fs, None) =>
          match copyNode keep src dst src tree 0 fs with
          | (fs, Err err) => (fs, Err (wrapf "copy admin/web" err))
          | (fs, Ok copied) =>
              match restore dst (order keep) copied fs with
              | (fs, Err err) => (fs, Err err)
              | (fs, Ok copied) => (fs, Ok (copied, size keep))
              end
          end
      end
  end.

(** [main]: the directories from where its source file is; the exit code. *)
Definition rootOf (file : string) : string := Clean (JoinAll [Dir file; ".."; ".."; ".."; ".."]).

Definition main (order : gmap string string -> list (string * string)) (caller : option string) (tree : node) (fs : FS) : FS * Z :=
  match caller with
  | None => (fs, 1)
  | Some file =>
      let root := rootOf file in
      match syncDir order tree (JoinAll [root; "admin"; "web"]) (JoinAll [root; "cmd"; "aeus"; "templates"; "admin"; "web"]) fs with
      | (fs, Err _) => (fs, 1)
      | (fs, Ok _) => (fs, 0)
      end
  end%Z.

(** ** What the walk comes to *)

Definition entered (n : node) : bool := match n with NDir s _ | NBad s _ => negb (skipped s) | NFile _ => true end.

(** The files the walk comes to, by their names from the root. *)
Fixpoint reached (n : node) : list (list string) :=
  match n with
  | NFile _ => [[]]
  | NBad _ _ => []
  | NDir _ children =>
      (fix all (l : list node) : list (list string) :=
         match l with
         | [] => []
         | c :: l => (if entered c then map (cons (nodeName c)) (reached c) else []) ++ all l
         end) children
  end.

Definition relOf (ks : list string) : string := Join ks "/".

Definition passes (keep : gmap string string) (ks : list string) : bool :=
  negb (bool_decide (ks = [])) && negb (Contains (relOf ks) "__tests__/") && bool_decide (keep !! relOf ks = None).

(** Whether the walk copies the file of these names if it is not kept. *)
Definition copies (tree : node) (ks : list string) : bool :=
  bool_decide (ks ∈ reached tree) && negb (bool_decide (ks = [])) && negb (Contains (relOf ks) "__tests__/").

(** The same by itself: there is a file of these names, no directory on the way is one of
    those that are left out, and no name on the way ends with [__tests__]. *)
Fixpoint fileAt (n : node) (ks : list string) : Prop :=
  match ks, n with
  | [], NFile _ => True
  | k :: ks, NDir _ l => exists c, In c l /\ nodeName c = k /\ fileAt c ks
  | _, _ => False
  end.

Definition console (tree : node) (ks : list string) : Prop :=
  ks <> [] /\ fileAt tree ks
  /\ (forall d, In d (removelast ks) -> ~ In d ["node_modules"; "dist"; ".mimocode"; ".git"; "__tests__"])
  /\ Contains (relOf ks) "__tests__/" = false.

Lemma skipped_spec (d : string) : skipped d = true <-> In d skippedDirs.
Proof. unfold skipped. rewrite existsb_exists. split; [by intros (x & Hx & ->%String.eqb_eq)|]. intros Hd. exists d. by rewrite String.eqb_refl. Qed.

Lemma reached_dir (s : string) (l : list node) (ks : list string) :
  ks ∈ reached (NDir s l) <-> exists c ks', In c l /\ entered c = true /\ ks = nodeName c :: ks' /\ ks' ∈ reached c.
Proof.
  induction l as [|c l IH]; [cbn; split; [by intros ?%not_elem_of_nil|by intros (? & ? & [] & _)]|].
  assert (ks ∈ reached (NDir s (c :: l)) <-> (entered c = true /\ exists ks', ks = nodeName c :: ks' /\ ks' ∈ reached c) \/ ks ∈ reached (NDir s l)) as ->.
  { cbn [reached]. rewrite elem_of_app. apply or_iff_compat_r. destruct (entered c); [|split; [by intros ?%not_elem_of_nil|by intros [? _]]].
    rewrite list_elem_of_fmap. split; [by intros (ks' & -> & Hk); eauto|]. intros (_ & ks' & -> & Hk). by exists ks'. }
  rewrite IH. split.
  - intros [(He & ks' & -> & Hk)|(c' & ks' & Hc & He & -> & Hk)]; [exists c, ks'; split; [by left|done]|exists c', ks'; split; [by right|done]].
  - intros (c' & ks' & [<-|Hc] & He & -> & Hk); [left; eauto|right; by exists c', ks'].
Qed.

Lemma reached_spec (n : node) : forall ks, ks ∈ reached n <-> fileAt n ks /\ forall d, In d (removelast ks) -> ~ In d skippedDirs.
Proof.
  induction n as [s|s e|s l IH] using node_ind'; intros ks.
  - cbn [reached]. rewrite list_elem_of_singleton. split; [intros ->; split; [done|intros d []]|]. destruct ks as [|k ks]; [done|intros [[] _]].
  - cbn [reached]. split; [by intros ?%not_elem_of_nil|]. destruct ks; intros [[] _].
  - rewrite reached_dir. rewrite List.Forall_forall in IH. destruct ks as [|k ks].
    { split; [by intros (c & ks' & _ & _ & ? & _)|]. by intros [[] _]. }
    cbn [fileAt]. split.
    + intros (c & ks' & Hc & He & [= -> ->] & Hk%(IH c Hc)). destruct Hk as [Hf Hd]. split; [by exists c|].
      destruct ks' as [|k' ks']; [by intros d []|]. intros d [<-|Hin]; [|by apply Hd].
      destruct c as [x|x lx|x ex]; cbn [fileAt entered nodeName] in *; try done. rewrite <- skipped_spec. by destruct (skipped x).
    + intros [(c & Hc & <- & Hf) Hd]. exists c, ks. split; [done|]. split; [|split; [done|]].
      * destruct c as [x|x lx|x ex]; [done| |]; destruct ks as [|k' ks']; try done. cbn [entered]. apply negb_true_iff, not_true_iff_false.
        rewrite skipped_spec. apply Hd. by left.
      * apply (IH c Hc). split; [done|]. intros d Hin. apply Hd. destruct ks as [|k' ks']; [done|]. by right.
Qed.

Lemma copies_console (tree : node) (ks : list string) : copies tree ks = true <-> console tree ks.
Proof.
  unfold copies, console. rewrite !andb_true_iff, !negb_true_iff, bool_decide_eq_true, bool_decide_eq_false, reached_spec.
  unfold skippedDirs. tauto.
Qed.

(** The files with placeholders; every other is copied as it is. *)
Definition placeholderFiles : list string := [".env.production"; "index.html"; "public/app-config.js"; "package.json"; "package-lock.json"].

Lemma transform_other (rel body : string) : ~ In rel placeholderFiles -> transform rel body = body.
Proof.
  intros Hn. assert (forall x, In x placeholderFiles -> String.eqb rel x = false) as He.
  { intros x Hx. apply String.eqb_neq. by intros ->. }
  unfold transform. by rewrite !He by (cbn; tauto).
Qed.

Fixpoint plainTree (n : node) : Prop :=
  match n with
  | NDir _ l => (fix all l := match l with [] => True | c :: l => plain (nodeName c) /\ plainTree c /\ all l end) l
  | _ => True
  end.

(** ** Paths *)

Definition pathOf (es ks : list string) : string := "/" +:+ Join (es ++ ks) "/".

Lemma pathOf_rooted (es ks : list string) : Forall plain es -> Forall plain ks -> rootedClean (pathOf es ks) (es ++ ks).
Proof. intros H1 H2. split; [done|]. by apply Forall_app. Qed.

Lemma pathOf_eq (p : string) (es ks : list string) : rootedClean p (es ++ ks) -> p = pathOf es ks.
Proof. by intros [-> _]. Qed.

Lemma pathOf_inj (es ks ks' : list string) :
  Forall plain es -> Forall plain ks -> Forall plain ks' -> pathOf es ks = pathOf es ks' -> ks = ks'.
Proof.
  intros He H1 H2 Heq. pose proof (pathOf_rooted es ks He H1) as R1. rewrite Heq in R1.
  pose proof (rootedClean_inj _ _ _ R1 (pathOf_rooted es ks' He H2)) as Happ. by apply app_inv_head in Happ.
Qed.

Lemma relOf_nonempty (ks : list string) : ks <> [] -> Forall plain ks -> relOf ks <> EmptyString.
Proof. intros Hne Hp. destruct ks as [|x [|y l]]; [done|..]; inversion Hp as [|? ? (Hx & _) _]; subst; by destruct x. Qed.

Lemma relOf_inj (ks ks' : list string) : ks <> [] -> ks' <> [] -> Forall plain ks -> Forall plain ks' -> relOf ks = relOf ks' -> ks = ks'.
Proof. intros N1 N2 P1 P2 Heq. rewrite <- (SplitByte_plain ks N1 P1), <- (SplitByte_plain ks' N2 P2). unfold relOf in Heq. by rewrite Heq. Qed.

Lemma relOf_dot (ks : list string) : ks <> [] -> Forall plain ks -> String.eqb (relOf ks) "." = false.
Proof.
  intros Hne Hp. apply String.eqb_neq. intros Heq. pose proof (SplitByte_plain ks Hne Hp) as Hs. unfold relOf in Heq. rewrite Heq in Hs.
  cbn in Hs. subst ks. inversion Hp as [|? ? (_ & Hx & _) _]; subst. done.
Qed.

Lemma joined (root : string) (es ks : list string) :
  rootedClean root es -> ks <> [] -> Forall plain ks -> JoinAll [root; relOf ks] = pathOf es ks.
Proof.
  intros Hr Hne Hp. apply pathOf_eq. unfold JoinAll. cbn [List.filter]. rewrite (rooted_nonempty root es Hr). 
  rewrite (proj2 (String.eqb_neq _ _) (relOf_nonempty ks Hne Hp)). cbn [negb Join].
  pose proof (join_below root (relOf ks) es Hr) as Hj. unfold relOf in Hj |- *. rewrite (SplitByte_plain ks Hne Hp) in Hj. rewrite filter_all in Hj.
  - apply Hj. intros Hin. rewrite List.Forall_forall in Hp. by destruct (Hp _ Hin) as (_ & _ & ? & _).
  - intros x Hx. rewrite List.Forall_forall in Hp. destruct (Hp x Hx) as (H1 & H2 & _). by rewrite (proj2 (String.eqb_neq _ _) H1), (proj2 (String.eqb_neq _ _) H2).
Qed.

Lemma joined_all (root : string) (es ks : list string) :
  rootedClean root es -> ks <> [] -> Forall plain ks -> JoinAll (root :: ks) = pathOf es ks.
Proof.
  intros Hr Hne Hp. rewrite <- (joined root es ks) by done. unfold JoinAll.
  assert (forall l, Forall plain l -> List.filter (fun s => negb (String.eqb s EmptyString)) l = l) as Hall.
  { intros l Hl. apply filter_all. intros x Hx. rewrite List.Forall_forall in Hl. destruct (Hl x Hx) as [Hx' _]. by rewrite (proj2 (String.eqb_neq _ _) Hx'). }
  cbn [List.filter]. rewrite (rooted_nonempty root es Hr), (proj2 (String.eqb_neq _ _) (relOf_nonempty ks Hne Hp)), (Hall ks Hp). by destruct ks.
Qed.

Lemma Rel_self (src : string) : Rel src src = Ok ".".
Proof. unfold Rel. by rewrite String.eqb_refl. Qed.

Lemma stripCommon_prefix (es ks : list string) : stripCommon es (es ++ ks) = ([], ks).
Proof. induction es as [|e es IH]; [by destruct ks|]. cbn. by rewrite String.eqb_refl. Qed.

Lemma Rel_below (src : string) (es ks : list string) :
  rootedClean src es -> ks <> [] -> Forall plain ks -> Rel src (pathOf es ks) = Ok (relOf ks).
Proof.
  intros Hs Hne Hp. pose proof (pathOf_rooted es ks (proj2 Hs) Hp) as Ht. unfold Rel.
  rewrite (Clean_id src es Hs), (Clean_id _ _ Ht). destruct (String.eqb_spec src (pathOf es ks)) as [Heq|_].
  { rewrite Heq in Hs. pose proof (rootedClean_inj _ _ _ Hs Ht) as Happ. destruct ks; [done|]. apply (f_equal length) in Happ. rewrite length_app in Happ. cbn in Happ. lia. }
  assert (String.eqb src "." = false) as -> by by destruct Hs as [-> _].
  assert (rooted src = true) as -> by (destruct Hs as [-> _]; apply rooted_spec; by eexists). cbn [Bool.eqb negb].
  assert (rooted (pathOf es ks) = true) as -> by (apply rooted_spec; by eexists). cbn [Bool.eqb negb].
  by rewrite (elementsOf_rooted src es Hs), (elementsOf_rooted _ _ Ht), stripCommon_prefix.
Qed.

(** ** What is written *)

Variables (src dst : string) (es ed : list string).
Hypotheses (Hsrc : rootedClean src es) (Hdst : rootedClean dst ed).
(** Neither directory is in the other. *)
Hypotheses (Hout : forall ks, es ++ ks <> ed) (Hin : forall ks, ed ++ ks <> es).

Definition outside (p : string) : Prop := forall ks, ~ rootedClean p (ed ++ ks).

Lemma source_outside (ks : list string) : Forall plain ks -> outside (pathOf es ks).
Proof.
  intros Hp ks' Hr. pose proof (rootedClean_inj _ _ _ Hr (pathOf_rooted es ks (proj2 Hsrc) Hp)) as Heq.
  destruct (app_eq_app _ _ _ _ Heq) as (l & [[H1 _]|[H1 _]]); [by destruct (Hout l)|by destruct (Hin l)].
Qed.

Lemma writeFile_other (ks : list string) (body : string) (fs : FS) (p : string) :
  ks <> [] -> Forall plain ks -> p <> pathOf ed ks -> content (fst (writeFile dst (relOf ks) body fs)) p = content fs p.
Proof.
  intros Hne Hp Hpne. unfold writeFile. rewrite (joined dst ed ks Hdst Hne Hp). pose proof (MkdirAll_content (Dir (pathOf ed ks)) fs p) as Hm.
  destruct (MkdirAll _ fs) as [fs1 [e|]]; [done|]. rewrite WriteFile_other; done.
Qed.

Lemma writeFile_ok (ks : list string) (body : string) (fs fs' : FS) :
  ks <> [] -> Forall plain ks -> writeFile dst (relOf ks) body fs = (fs', None) -> content fs' (pathOf ed ks) = Some body.
Proof.
  intros Hne Hp. unfold writeFile. rewrite (joined dst ed ks Hdst Hne Hp). destruct (MkdirAll _ fs) as [fs1 [e|]]; [done|]. apply WriteFile_ok.
Qed.

Lemma writeFile_outside (ks : list string) (body : string) (fs : FS) (p : string) :
  ks <> [] -> Forall plain ks -> outside p -> content (fst (writeFile dst (relOf ks) body fs)) p = content fs p.
Proof. intros Hne Hp Ho. apply writeFile_other; [done..|]. intros ->. apply (Ho ks), pathOf_rooted; [apply Hdst|done]. Qed.

(** The files [Q] picks were copied, and nothing else was done. *)
Definition copied_to (Q : list string -> bool) (fs fs' : FS) : Prop :=
  (forall p, outside p -> content fs' p = content fs p) /\
  forall ks, Forall plain ks ->
    content fs' (pathOf ed ks) = if Q ks then transform (relOf ks) <$> content fs (pathOf es ks) else content fs (pathOf ed ks).

Lemma copied_to_refl (fs : FS) : copied_to (fun _ => false) fs fs.
Proof. done. Qed.

Lemma copied_to_trans (Q Q' : list string -> bool) (fs1 fs2 fs3 : FS) :
  copied_to Q fs1 fs2 -> copied_to Q' fs2 fs3 -> copied_to (fun ks => Q ks || Q' ks) fs1 fs3.
Proof.
  intros [A1 B1] [A2 B2]. split; [intros p Hp; by rewrite A2, A1|]. intros ks Hks. rewrite (B2 ks Hks), (B1 ks Hks).
  rewrite (A1 (pathOf es ks)) by (by apply source_outside). by destruct (Q ks), (Q' ks).
Qed.

Lemma copied_to_ext (Q Q' : list string -> bool) (fs fs' : FS) :
  (forall ks, Q ks = Q' ks) -> copied_to Q fs fs' -> copied_to Q' fs fs'.
Proof. intros He [A B]. split; [done|]. intros ks Hks. by rewrite <- He, B. Qed.

(** The walk from a file or directory named [pre] below the source. *)
Definition selected (keep : gmap string string) (pre : list string) (n : node) (ks : list string) : bool :=
  bool_decide (ks ∈ map (app pre) (reached n)) && passes keep ks.

Lemma bool_decide_app (x : list string) (l1 l2 : list (list string)) :
  bool_decide (x ∈ l1 ++ l2) = bool_decide (x ∈ l1) || bool_decide (x ∈ l2).
Proof. repeat case_bool_decide; set_solver. Qed.

Definition copyNode_good (keep : gmap string string) (n : node) : Prop :=
  forall pre copied fs fs' r,
  Forall plain pre -> plainTree n -> (pre <> [] -> entered n = true) ->
  copyNode keep src dst (pathOf es pre) n copied fs = (fs', r) ->
  (forall p, outside p -> content fs' p = content fs p) /\ (is_ok r = true -> copied_to (selected keep pre n) fs fs').

Lemma copyFile_good (keep : gmap string string) (s : string) : copyNode_good keep (NFile s).
Proof.
  intros pre copied fs fs' r Hpre _ _ E. cbn [copyNode] in E.
  assert (forall ks, selected keep pre (NFile s) ks = bool_decide (ks = pre) && passes keep ks) as Hsel.
  { intros ks. unfold selected. cbn [reached map]. rewrite app_nil_r. f_equal. apply bool_decide_ext. set_solver. }
  destruct (decide (pre = [])) as [->|Hne].
  { replace (pathOf es []) with src in E by (rewrite (proj1 Hsrc); unfold pathOf; by rewrite app_nil_r).
    rewrite Rel_self in E. cbn in E. injection E as <- <-. split; [done|]. intros _. apply (copied_to_ext (fun _ => false)); [|apply copied_to_refl].
    intros ks. rewrite Hsel. by destruct ks. }
  rewrite (Rel_below src es pre Hsrc Hne Hpre), (relOf_dot pre Hne Hpre) in E. destruct (keep !! relOf pre) as [b|] eqn:Ek.
  { injection E as <- <-. split; [done|]. intros _. apply (copied_to_ext (fun _ => false)); [|apply copied_to_refl]. intros ks. rewrite Hsel.
    case_bool_decide as Hks; [|done]. subst ks. unfold passes. rewrite Ek, (bool_decide_false (Some b = None)) by done. by rewrite andb_false_r. }
  destruct (Contains (relOf pre) "__tests__/") eqn:Ec.
  { injection E as <- <-. split; [done|]. intros _. apply (copied_to_ext (fun _ => false)); [|apply copied_to_refl]. intros ks. rewrite Hsel.
    case_bool_decide as Hks; [|done]. subst ks. unfold passes. rewrite Ec. by rewrite andb_false_r. }
  destruct (ReadFile (pathOf es pre) fs) as [body|e] eqn:Er; [|by injection E as <- <-].
  pose proof (fun p => writeFile_outside pre (transform (relOf pre) body) fs p Hne Hpre) as Ho.
  pose proof (fun p => writeFile_other pre (transform (relOf pre) body) fs p Hne Hpre) as Hw.
  destruct (writeFile dst (relOf pre) _ fs) as [fs1 [e|]] eqn:Ew; injection E as <- <-; (split; [exact Ho|]); [done|]. intros _. split; [exact Ho|].
  intros ks Hks. rewrite Hsel. case_bool_decide as Heq; cbn [andb].
  - subst ks. assert (passes keep pre = true) as ->.
    { unfold passes. by rewrite Ec, (bool_decide_false _ Hne), (bool_decide_true _ Ek). }
    rewrite (writeFile_ok _ _ _ _ Hne Hpre Ew), (ReadFile_ok _ _ _ Er). done.
  - apply Hw. intros Hp. apply Heq. by apply (pathOf_inj ed) in Hp; [|apply Hdst|..].
Qed.

Lemma pathOf_child (pre : list string) (name : string) :
  Forall plain pre -> plain name -> JoinAll [pathOf es pre; name] = pathOf es (pre ++ [name]).
Proof.
  intros Hp Hn. pose proof (joined (pathOf es pre) (es ++ pre) [name] (pathOf_rooted es pre (proj2 Hsrc) Hp) ltac:(done) (List.Forall_cons _ _ _ Hn (List.Forall_nil _))) as Hj.
  cbn [relOf Join] in Hj. unfold relOf in Hj. cbn [Join] in Hj. rewrite Hj. unfold pathOf. by rewrite app_assoc.
Qed.

(** Whether the names are those of a file of one of the entries of a directory. *)
Definition selectedBelow (keep : gmap string string) (pre : list string) (c : node) (ks : list string) : bool :=
  entered c && selected keep (pre ++ [nodeName c]) c ks.

Lemma selected_cons (keep : gmap string string) (pre : list string) (s : string) (c : node) (l : list node) (ks : list string) :
  selected keep pre (NDir s (c :: l)) ks = selectedBelow keep pre c ks || selected keep pre (NDir s l) ks.
Proof.
  unfold selected, selectedBelow. cbn [reached]. rewrite map_app, bool_decide_app, andb_orb_distrib_l. f_equal.
  unfold selected. destruct (entered c); [|by rewrite bool_decide_false by apply not_elem_of_nil]. cbn [andb]. f_equal. apply bool_decide_ext.
  rewrite map_map. assert (map (fun x => pre ++ nodeName c :: x) (reached c) = map (app (pre ++ [nodeName c])) (reached c)) as ->; [|done].
  apply map_ext. intros x. by rewrite <- app_assoc.
Qed.

(** What is not entered is left out, and the walk goes on. *)
Lemma copyNode_skipped (keep : gmap string string) (pre : list string) (c : node) (copied : nat) (fs : FS) :
  pre <> [] -> Forall plain pre -> entered c = false -> copyNode keep src dst (pathOf es pre) c copied fs = (fs, Ok copied).
Proof.
  intros Hne Hp He. destruct c as [s|s l|s e]; [done|..]; cbn [entered] in He; apply negb_false_iff in He; cbn [copyNode];
    by rewrite (Rel_below src es pre Hsrc Hne Hp), (relOf_dot pre Hne Hp), He.
Qed.

Lemma copyNode_any (keep : gmap string string) (n : node) : copyNode_good keep n.
Proof.
  induction n as [s|s e|s l IH] using node_ind'; [apply copyFile_good|..]; intros pre copied fs fs' r Hpre Hplain Hent; cbn [copyNode];
    set (relp := Rel src (pathOf es pre)); assert (exists rel, relp = Ok rel /\ (negb (String.eqb rel ".") && skipped s) = false) as (rel & -> & Hsk).
  1,3: destruct (decide (pre = [])) as [->|Hne];
    [exists "."; split; [|done]; unfold relp; replace (pathOf es []) with src by (rewrite (proj1 Hsrc); unfold pathOf; by rewrite app_nil_r); apply Rel_self
    |exists (relOf pre); split; [by apply Rel_below|]; rewrite (relOf_dot pre Hne Hpre); by apply negb_true_iff, Hent].
  all: rewrite Hsk; clear rel Hsk.
  { by intros [= <- <-]. }
  revert copied fs. induction IH as [|c l Hc _ IHl]; intros copied fs.
  - intros [= <- <-]. split; [done|]. intros _. apply (copied_to_ext (fun _ => false)); [|apply copied_to_refl]. done.
  - destruct Hplain as (Hn & Hpc & Hpl). rewrite (pathOf_child pre (nodeName c) Hpre Hn).
    destruct (copyNode keep src dst _ c copied fs) as [fs1 r1] eqn:E1.
    assert (Forall plain (pre ++ [nodeName c])) as Hpre' by (apply Forall_app; split; [done|by constructor]).
    assert ((forall p, outside p -> content fs1 p = content fs p) /\ (is_ok r1 = true -> copied_to (selectedBelow keep pre c) fs fs1)) as [A B].
    { destruct (entered c) eqn:Ee.
      - destruct (Hc _ _ _ _ _ Hpre' Hpc (fun _ => Ee) E1) as [A B]. split; [exact A|]. intros Hr. eapply copied_to_ext; [|by apply B].
        intros ks. unfold selectedBelow. by rewrite Ee.
      - rewrite (copyNode_skipped keep (pre ++ [nodeName c]) c copied fs ltac:(by destruct pre) Hpre' Ee) in E1. injection E1 as <- <-. split; [done|]. intros _.
        apply (copied_to_ext (fun _ => false)); [|apply copied_to_refl]. intros ks. unfold selectedBelow. by rewrite Ee. }
    destruct r1 as [k|e]; [|intros [= <- <-]; by split].
    intros E2. destruct (IHl Hpl Hent k fs1 E2) as [A' B']. split; [intros p Hp; by rewrite A', A|].
    intros Hr. eapply copied_to_ext; [|exact (copied_to_trans _ _ _ _ _ (B eq_refl) (B' Hr))]. intros ks. by rewrite selected_cons.
Qed.

(** ** What is kept *)

Definition components : list string := ["src"; "components.d.ts"].
Definition ownedNames : list (list string) := [["README.md"]; [".gitignore"]; ["src"; "__tests__"; "smoke.test.ts"]; components].

Lemma ownedNames_plain (ks : list string) : In ks ownedNames -> ks <> [] /\ Forall plain ks.
Proof. intros [<-|[<-|[<-|[<-|[]]]]]; (split; [done|]); repeat constructor; done. Qed.

Lemma preserved_named : preserved = map relOf ownedNames.
Proof. reflexivity. Qed.

Lemma readOwned_spec (rels : list string) (keep keep' : gmap string string) (fs : FS) :
  readOwned dst rels keep fs = Ok keep' ->
  forall rel, (~ In rel rels /\ keep' !! rel = keep !! rel)
    \/ (In rel rels /\ ((exists b, ReadFile (JoinAll [dst; rel]) fs = Ok b /\ keep' !! rel = Some b)
                       \/ (ReadFile (JoinAll [dst; rel]) fs = Err None /\ keep' !! rel = keep !! rel))).
Proof.
  revert keep. induction rels as [|x rels IH]; intros keep; cbn [readOwned]; [intros [= <-] rel; by left; split; [intros []|]|].
  intros E rel. destruct (ReadFile (JoinAll [dst; x]) fs) as [b|[e|]] eqn:Er; [|done|]; destruct (IH _ E rel) as [[Hn Hk]|[Hy Hk]].
  - destruct (decide (x = rel)) as [->|Hne].
    + rewrite lookup_insert_eq in Hk. right. split; [by left|]. left. by exists b.
    + rewrite lookup_insert_ne in Hk by done. left. split; [by intros [?|?]|done].
  - right. split; [by right|]. destruct Hk as [Hk|[He Hk]]; [by left|]. destruct (decide (x = rel)) as [->|Hne]; [congruence|].
    rewrite lookup_insert_ne in Hk by done. right. by split.
  - destruct (decide (x = rel)) as [->|Hne]; [right; split; [by left|]; right; by split|]. left. split; [by intros [?|?]|done].
  - right. split; [by right|done].
Qed.

(** What [components.d.ts] is refreshed with. *)
Definition refreshed (fs : FS) : option string :=
  match ReadFile (JoinAll [src; "src"; "components.d.ts"]) fs with Ok body => Some body | Err _ => None end.

Definition ownedBody (fs : FS) (ks : list string) : option string :=
  match (if decide (ks = components) then refreshed fs else None) with
  | Some body => Some body
  | None => content fs (pathOf ed ks)
  end.

(** The kept files are the owned ones that are there, the list of components refreshed. *)
Record keeps (keep : gmap string string) (fs : FS) : Prop := {
  keeps_owned rel : is_Some (keep !! rel) -> exists ks, In ks ownedNames /\ rel = relOf ks;
  keeps_body ks : In ks ownedNames -> keep !! relOf ks = ownedBody fs ks;
}.

Lemma relOf_owned (ks : list string) (rel : string) : In ks ownedNames -> relOf ks = "src/components.d.ts" -> ks = components.
Proof. by intros [<-|[<-|[<-|[<-|[]]]]]. Qed.

Lemma readPreserved_spec (fs : FS) (keep : gmap string string) : readPreserved src dst fs = Ok keep -> keeps keep fs.
Proof.
  unfold readPreserved. destruct (readOwned dst preserved ∅ fs) as [keep0|] eqn:E0; [|done]. pose proof (readOwned_spec _ _ _ _ E0) as H0.
  assert (keep = match refreshed fs with Some body => <["src/components.d.ts" := body]> keep0 | None => keep0 end -> keeps keep fs) as Hk.
  2:{ unfold refreshed in Hk. destruct (ReadFile (JoinAll [src; "src"; "components.d.ts"]) fs); intros [= <-]; by apply Hk. }
  intros ->. split.
  - intros rel Hs. assert (In rel preserved) as Hin'.
    { destruct (H0 rel) as [[_ Hn]|[Hy _]]; [|done]. rewrite lookup_empty in Hn. destruct (refreshed fs); [|rewrite Hn in Hs; by destruct Hs].
      destruct (decide (rel = "src/components.d.ts")) as [->|Hne]; [by do 3 right; left|]. rewrite lookup_insert_ne, Hn in Hs by done. by destruct Hs. }
    rewrite preserved_named in Hin'. apply in_map_iff in Hin' as (ks & <- & Hks). by exists ks.
  - intros ks Hks. destruct (ownedNames_plain ks Hks) as [Hne Hp].
    assert (keep0 !! relOf ks = content fs (pathOf ed ks)) as Hbody.
    { destruct (H0 (relOf ks)) as [[Hn _]|[_ Hr]]; [destruct Hn; rewrite preserved_named; by apply in_map|]. rewrite (joined dst ed ks Hdst Hne Hp) in Hr.
      destruct Hr as [(b & Hr & ->)|[Hr ->]]; [by rewrite (ReadFile_ok _ _ _ Hr)|]. by rewrite lookup_empty, (ReadFile_missing _ _ Hr). }
    unfold ownedBody. destruct (refreshed fs) as [body|]; [|by destruct (decide _)].
    destruct (decide (ks = components)) as [->|Hc]; [by rewrite lookup_insert_eq|].
    rewrite lookup_insert_ne; [done|]. intros Heq. by apply Hc, relOf_owned.
Qed.

(** The kept files are put back. *)
Lemma restore_spec (kept : list (string * string)) (copied : nat) (fs fs' : FS) (r : result error nat) :
  NoDup (map fst kept) -> (forall rel body, In (rel, body) kept -> exists ks, In ks ownedNames /\ rel = relOf ks) ->
  restore dst kept copied fs = (fs', r) ->
  (forall p, outside p -> content fs' p = content fs p) /\
  (is_ok r = true -> forall ks, Forall plain ks ->
     (forall body, In (relOf ks, body) kept -> content fs' (pathOf ed ks) = Some body)
     /\ (~ In (relOf ks) (map fst kept) -> content fs' (pathOf ed ks) = content fs (pathOf ed ks))).
Proof.
  revert copied fs. induction kept as [|[rel body] kept IH]; intros copied fs Hnd Hown; cbn [restore].
  - intros [= <- <-]. split; [done|]. intros _ ks _. by split; [intros ? []|].
  - destruct (Hown rel body ltac:(by left)) as (ks0 & Hks0 & ->). destruct (ownedNames_plain ks0 Hks0) as [Hne0 Hp0].
    pose proof (fun p => writeFile_outside ks0 body fs p Hne0 Hp0) as Ho. pose proof (fun p => writeFile_other ks0 body fs p Hne0 Hp0) as Hw.
    destruct (writeFile dst (relOf ks0) body fs) as [fs1 [e|]] eqn:Ew; [by intros [= <- <-]|]. cbn [fst] in Ho, Hw.
    cbn [map fst] in Hnd. apply NoDup_cons in Hnd as [Hni Hnd]. rewrite list_elem_of_In in Hni. intros E.
    destruct (IH _ _ Hnd (fun rel b Hb => Hown rel b (or_intror Hb)) E) as [A B]. split; [intros p Hp; by rewrite A, Ho|].
    intros Hr ks Hks. destruct (B Hr ks Hks) as [B1 B2]. split.
    + intros b [[= Heq <-]|Hb]; [|by apply B1].
      destruct (decide (ks = [])) as [->|Hne]; [by destruct (relOf_nonempty ks0 Hne0 Hp0)|]. apply relOf_inj in Heq; [|done..]. subst ks0. rewrite B2 by done. by apply (writeFile_ok ks body fs).
    + cbn [map fst]. intros Hn. rewrite B2 by (intros ?; apply Hn; by right). apply Hw. intros Heq. apply Hn. left. f_equal.
      symmetry. by apply (pathOf_inj ed) in Heq; [|apply Hdst|..].
Qed.

Lemma keeps_not_owned (keep : gmap string string) (fs : FS) (ks : list string) :
  keeps keep fs -> Forall plain ks -> ~ In ks ownedNames -> keep !! relOf ks = None.
Proof.
  intros Hk Hp Hn. destruct (keep !! relOf ks) as [b|] eqn:E; [|done]. destruct (keeps_owned _ _ Hk (relOf ks) ltac:(by eexists)) as (ks' & Hks' & Heq).
  destruct (ownedNames_plain ks' Hks') as [Hne' Hp']. destruct (decide (ks = [])) as [->|Hne]; [by destruct (relOf_nonempty ks' Hne' Hp')|].
  apply relOf_inj in Heq; [|done..]. by subst ks'.
Qed.

(** What a run leaves at a name of the template: the owned file, or a copy. *)
Definition synced (tree : node) (fs : FS) (ks : list string) : option string :=
  match (if bool_decide (In ks ownedNames) then ownedBody fs ks else None) with
  | Some body => Some body
  | None => if copies tree ks then transform (relOf ks) <$> content fs (pathOf es ks) else None
  end.

Variables (order : gmap string string -> list (string * string)) (tree : node).
Hypothesis (Horder : forall m, Permutation (order m) (map_to_list m)).
Hypothesis (Htree : plainTree tree).

(** A run touches nothing outside the template, whether it fails or not; one that
    succeeds leaves there the files the template owned, the list of components as it is in
    the source, the other files of the source as they are transformed, and nothing else. *)
Lemma sync_effect (fs fs' : FS) (r : result error (nat * nat)) :
  syncDir order tree src dst fs = (fs', r) ->
  (forall p, outside p -> content fs' p = content fs p) /\
  (is_ok r = true -> forall ks, Forall plain ks -> content fs' (pathOf ed ks) = synced tree fs ks).
Proof.
  unfold syncDir. destruct (readPreserved src dst fs) as [keep|] eqn:Ek; [|by intros [= <- <-]]. apply readPreserved_spec in Ek.
  pose proof (fun p => RemoveAll_other dst fs ed p Hdst) as Ho. destruct (RemoveAll dst fs) as [fs1 [e|]] eqn:Er; cbn [fst] in Ho; [by intros [= <- <-]|].
  assert (forall ks, Forall plain ks -> content fs1 (pathOf ed ks) = None) as Hgone.
  { intros ks Hks. by apply (RemoveAll_below dst fs fs1 ed ks _ Er Hdst), pathOf_rooted; [apply Hdst|]. }
  assert (pathOf es [] = src) as Hroot by (rewrite (proj1 Hsrc); unfold pathOf; by rewrite app_nil_r).
  destruct (copyNode keep src dst src tree 0 fs1) as [fs2 r2] eqn:Ec. rewrite <- Hroot in Ec at 2.
  destruct (copyNode_any keep tree [] 0%nat fs1 fs2 r2 (List.Forall_nil _) Htree ltac:(done) Ec) as [A B]. 
  destruct r2 as [n|e]; [|intros [= <- <-]; split; [|done]; intros p Hp; by rewrite A, Ho].
  destruct (restore dst (order keep) n fs2) as [fs3 r3] eqn:Es. 
  assert (forall rel body, In (rel, body) (order keep) <-> keep !! rel = Some body) as Hord.
  { intros rel body. rewrite <- elem_of_map_to_list, <- list_elem_of_In. by rewrite (Horder keep). }
  destruct (restore_spec (order keep) n fs2 fs3 r3) as [A3 B3]; [|intros rel body Hb%Hord; apply (keeps_owned _ _ Ek); by eexists|done|].
  { rewrite (Horder keep). apply NoDup_fst_map_to_list. }
  assert (forall p, outside p -> content fs3 p = content fs p) as Hout3 by (intros p Hp; by rewrite A3, A, Ho).
  destruct r3 as [m|e]; intros [= <- <-]; (split; [exact Hout3|]); [|done]. intros _ ks Hks. destruct (B eq_refl) as [_ B2]. 
  assert (keep !! relOf ks = if bool_decide (In ks ownedNames) then ownedBody fs ks else None) as Hkeep.
  { case_bool_decide as Hown; [by apply (keeps_body _ _ Ek)|by apply (keeps_not_owned keep fs)]. }
  assert (content fs2 (pathOf ed ks) = if copies tree ks && bool_decide (keep !! relOf ks = None) then transform (relOf ks) <$> content fs (pathOf es ks) else None) as Hcopy.
  { rewrite B2, (Hgone ks Hks) by done. rewrite Ho by (by apply source_outside). unfold selected, passes, copies. rewrite map_id, !andb_assoc. done. }
  unfold synced. rewrite <- Hkeep. destruct (B3 eq_refl ks Hks) as [B31 B32]. destruct (keep !! relOf ks) as [body|] eqn:Ekb.
  - by apply B31, Hord.
  - rewrite B32, Hcopy; [by rewrite bool_decide_true, andb_true_r|]. rewrite in_map_iff. intros ([rel body] & Heq & Hb%Hord). cbn in Heq. congruence.
Qed.

(** The list of components of the source can be read if it is there. *)
Hypothesis (Hreadable : forall fs err, ReadFile (JoinAll [src; "src"; "components.d.ts"]) fs <> Err (Some err)).

Lemma refreshed_content (fs : FS) : refreshed fs = content fs (pathOf es components).
Proof.
  unfold refreshed. specialize (Hreadable fs). change [src; "src"; "components.d.ts"] with (src :: components) in *.
  rewrite (joined_all src es components Hsrc) in * by (done || by repeat constructor).
  destruct (ReadFile _ fs) as [b|[e|]] eqn:E; [by rewrite (ReadFile_ok _ _ _ E)|by destruct (Hreadable e)|by rewrite (ReadFile_missing _ _ E)].
Qed.

Lemma synced_stable (fs fs' : FS) (ks : list string) :
  Forall plain ks -> (forall p, outside p -> content fs' p = content fs p) -> content fs' (pathOf ed ks) = synced tree fs ks ->
  synced tree fs' ks = synced tree fs ks.
Proof.
  intros Hks Ho Hc. unfold synced at 1. rewrite (Ho (pathOf es ks)) by (by apply source_outside). unfold ownedBody. rewrite refreshed_content.
  rewrite (Ho (pathOf es components)) by (apply source_outside; by repeat constructor). rewrite Hc.
  unfold synced, ownedBody. rewrite refreshed_content. case_bool_decide; [|done].
  set (copy := if copies tree ks then _ else None). set (first := if decide (ks = components) then _ else None).
  by destruct first, (content fs (pathOf ed ks)), copy.
Qed.

(** A second run changes nothing. *)
Theorem sync_idempotent (fs fs1 fs2 : FS) (r1 r2 : nat * nat) :
  syncDir order tree src dst fs = (fs1, Ok r1) -> syncDir order tree src dst fs1 = (fs2, Ok r2) ->
  (forall p, outside p -> content fs2 p = content fs1 p) /\ (forall ks, Forall plain ks -> content fs2 (pathOf ed ks) = content fs1 (pathOf ed ks)).
Proof.
  intros E1 E2. destruct (sync_effect _ _ _ E1) as [A1 B1], (sync_effect _ _ _ E2) as [A2 B2]. split; [done|].
  intros ks Hks. rewrite (B2 eq_refl ks Hks), (B1 eq_refl ks Hks). apply synced_stable; [done..|]. by apply B1.
Qed.

End Sync.

(** ** The program *)

Section Main.

Context {FS : Type} `{HFS : FileSystem FS} `{HFSL : !FileSystemLaws FS} `{HR : !Readable FS} `{HRL : !ReadableLaws FS}.
Context `{HRm : !Removable FS} `{HRmL : !RemovableLaws FS}.

Lemma rootOf_root (root file : string) (er : list string) :
  rootedClean root er -> rootedClean file (er ++ ["cmd"; "aeus"; "internal"; "syncweb"; "main.go"]) -> rootOf file = root.
Proof.
  intros Hr Hf. assert (rootedClean (Dir file) (er ++ ["cmd"; "aeus"; "internal"; "syncweb"])) as Hd.
  { apply (Dir_rooted file "main.go"). by rewrite <- app_assoc. }
  pose proof (Clean_up_down (Dir file) er ["cmd"; "aeus"; "internal"; "syncweb"] [] Hd (List.Forall_nil _) ltac:(done)) as Hc. rewrite !app_nil_r in Hc.
  unfold rootOf, JoinAll. cbn [List.filter]. rewrite (rooted_nonempty _ _ Hd). cbn [negb String.eqb].
  change (Clean (Clean (Dir file +:+ String slash (Join (replicate (length ["cmd"; "aeus"; "internal"; "syncweb"]) "..") "/"))) = root). rewrite (Clean_id _ _ Hc).
  by apply (rooted_Clean_eq _ _ er).
Qed.

(** C24. The program rebuilds the template of the repository it is in (neither directory in
    the other).  It touches nothing outside the template.  When it reports success: a file
    the template owns and had is as it was, but for the list of components, which is that
    of the console where the console's can be read; any other name holds the file of the
    console there, if it has one (outside the five directories that are left out, and with
    no directory on the way whose name ends with __tests__), as it is but for the five
    files with placeholders, and nothing if it has none, whatever was there before.  (A file the template owns but lacked, and what a failed run leaves, are
    [owned_file_copied] and [failed_sync_loses_owned].) *)
Theorem syncweb_rebuilds (order : gmap string string -> list (string * string)) (tree : node) (root file : string) (er : list string) (fs : FS) :
  (forall m, Permutation (order m) (map_to_list m)) -> plainTree tree ->
  rootedClean root er -> rootedClean file (er ++ ["cmd"; "aeus"; "internal"; "syncweb"; "main.go"]) ->
  let es := er ++ ["admin"; "web"] in
  let ed := er ++ ["cmd"; "aeus"; "templates"; "admin"; "web"] in
  let '(fs', code) := main order (Some file) tree fs in
  (forall p, outside ed p -> content fs' p = content fs p) /\
  (code = 0%Z -> forall ks, Forall plain ks ->
     let had := content fs (pathOf ed ks) in
     let there := content fs (pathOf es ks) in
     (In ks [["README.md"]; [".gitignore"]; ["src"; "__tests__"; "smoke.test.ts"]] -> is_Some had -> content fs' (pathOf ed ks) = had)
     /\ (ks = ["src"; "components.d.ts"] -> is_Some had ->
          content fs' (pathOf ed ks) = match ReadFile (pathOf es ks) fs with Ok body => Some body | Err _ => had end)
     /\ (~ In ks ownedNames -> ~ console tree ks -> content fs' (pathOf ed ks) = None)
     /\ (~ In ks ownedNames -> console tree ks ->
          content fs' (pathOf ed ks) = if decide (In (relOf ks) placeholderFiles) then transform (relOf ks) <$> there else there)).
Proof.
  intros Ho Ht Hr Hf es ed. unfold main. rewrite (rootOf_root root file er Hr Hf).
  rewrite (joined_all root er ["admin"; "web"] Hr), (joined_all root er ["cmd"; "aeus"; "templates"; "admin"; "web"] Hr) by (done || by repeat constructor).
  assert (rootedClean (pathOf er ["admin"; "web"]) es) as Hs by (apply pathOf_rooted; [apply Hr|by repeat constructor]).
  assert (rootedClean (pathOf er ["cmd"; "aeus"; "templates"; "admin"; "web"]) ed) as Hd by (apply pathOf_rooted; [apply Hr|by repeat constructor]).
  destruct (syncDir order tree (pathOf er ["admin"; "web"]) _ fs) as [fs' r] eqn:E.
  assert (forall ks, es ++ ks <> ed) as Hapart by (intros ks; unfold es, ed; rewrite <- app_assoc; by intros ?%app_inv_head).
  assert (forall ks, ed ++ ks <> es) as Hapart' by (intros ks; unfold es, ed; rewrite <- app_assoc; by intros ?%app_inv_head).
  destruct (sync_effect (pathOf er ["admin"; "web"]) (pathOf er ["cmd"; "aeus"; "templates"; "admin"; "web"]) es ed Hs Hd Hapart Hapart' order tree Ho Ht fs fs' r E) as [A B].
  destruct r as [c|e]; (split; [exact A|]); [|done]. intros _ ks Hks. rewrite (B eq_refl ks Hks). unfold synced, ownedBody.
  split_and!.
  - intros Hin [body Hb]. rewrite bool_decide_eq_true_2 by (cbn in *; tauto).
    destruct (decide (ks = components)) as [->|]; [cbn in Hin; intuition discriminate|]. by rewrite Hb.
  - intros -> [body Hb]. rewrite bool_decide_eq_true_2 by (cbn; tauto). destruct (decide (components = components)); [|done].
    unfold refreshed. rewrite (joined_all (pathOf er ["admin"; "web"]) es ["src"; "components.d.ts"] Hs) by (done || by repeat constructor).
    unfold components in *. destruct (ReadFile _ fs); [done|]. by rewrite Hb.
  - intros Hn Hc. rewrite bool_decide_eq_false_2 by done. destruct (copies tree ks) eqn:Ec; [by apply copies_console in Ec|done].
  - intros Hn Hc%copies_console. rewrite bool_decide_eq_false_2, Hc by done. destruct (decide _) as [|Hp]; [done|].
    destruct (content fs (pathOf es ks)); [|done]. cbn. by rewrite transform_other.
Qed.

End Main.

(** ** A checkout *)

#[export] Instance plain_dec (x : string) : Decision (plain x).
Proof. unfold plain. apply _. Defined.

Definition lies (dir p : string) : Prop := (p = "/" +:+ Join (elementsOf p) "/" /\ Forall plain (elementsOf p)) /\ prefix (elementsOf dir) (elementsOf p).

#[export] Instance lies_dec (dir p : string) : Decision (lies dir p).
Proof. unfold lies. apply _. Defined.

#[export] Instance demoRemovable : Removable (gmap string string) := {|
  RemoveAll := fun dir fs => (filter (fun kv => ~ lies dir (fst kv)) fs, None);
|}.

Lemma lies_spec (dir p : string) (es : list string) : rootedClean dir es -> lies dir p <-> exists ks, rootedClean p (es ++ ks).
Proof.
  intros Hd. unfold lies. rewrite (elementsOf_rooted dir es Hd). split.
  - intros [Hp [ks Hks]]. exists ks. rewrite <- Hks. exact Hp.
  - intros [ks Hp]. rewrite (elementsOf_rooted p _ Hp). split; [exact Hp|]. by exists ks.
Qed.

#[export] Instance demoRemovable_laws : RemovableLaws (gmap string string).
Proof.
  split; cbn.
  - intros dir fs fs' es ks p [= <-] Hd Hp. apply map_lookup_filter_None. right. intros c _ Hl. apply Hl, (lies_spec dir p es Hd). by exists ks.
  - intros dir fs es p Hd Hn. destruct (fs !! p) as [c|] eqn:E.
    + apply map_lookup_filter_Some. split; [done|]. cbn. intros [ks Hl]%(lies_spec dir p es Hd). by apply (Hn ks).
    + apply map_lookup_filter_None. by left.
Qed.

Definition demoSource : node :=
  NDir "web" [NFile ".env.production"; NFile "README.md"; NFile "index.html"; NDir "node_modules" [NFile "x.js"];
              NDir "src" [NDir "__tests__" [NFile "a.test.ts"]; NFile "components.d.ts"; NFile "main.ts"]].

Definition demoCheckout : gmap string string :=
  {["/r/admin/web/.env.production" := "VITE_API_BASE=/api"; "/r/admin/web/README.md" := "of the console";
    "/r/admin/web/index.html" := "<title>Board</title>"; "/r/admin/web/node_modules/x.js" := EmptyString;
    "/r/admin/web/src/__tests__/a.test.ts" := EmptyString; "/r/admin/web/src/components.d.ts" := "new"; "/r/admin/web/src/main.ts" := "main";
    "/r/cmd/aeus/templates/admin/web/README.md" := "of the template"; "/r/cmd/aeus/templates/admin/web/src/components.d.ts" := "old";
    "/r/cmd/aeus/templates/admin/web/src/gone.ts" := "gone"; "/r/go.mod" := "module"]}.

Definition demoSync (fs : gmap string string) : gmap string string * Z :=
  main map_to_list (Some "/r/cmd/aeus/internal/syncweb/main.go") demoSource fs.

Example sync_demo :
  let '(fs, code) := demoSync demoCheckout in
  code = 0%Z /\
  map (fun f => fs !! ("/r/cmd/aeus/templates/admin/web/" +:+ f)) ["README.md"; ".env.production"; "index.html"; "src/main.ts"; "src/components.d.ts"]
  = [Some "of the template"; Some ("VITE_API_BASE=" +:+ nl); Some "<title>__AEUS_NAME__</title>"; Some "main"; Some "new"] /\
  map (fun f => fs !! ("/r/cmd/aeus/templates/admin/web/" +:+ f)) ["src/gone.ts"; "node_modules/x.js"; "src/__tests__/a.test.ts"] = [None; None; None] /\
  fs !! "/r/go.mod" = Some "module".
Proof. vm_compute. repeat split. Qed.

Definition inTemplate (f : string) : string := "/r/cmd/aeus/templates/admin/web/" +:+ f.

Lemma syncweb_rebuilds_witness :
  fst (demoSync demoCheckout) !! "/r/go.mod" = Some "module" /\
  fst (demoSync demoCheckout) !! inTemplate "README.md" = Some "of the template" /\
  fst (demoSync demoCheckout) !! inTemplate "src/components.d.ts" = Some "new" /\
  fst (demoSync demoCheckout) !! inTemplate "src/gone.ts" = None /\
  fst (demoSync demoCheckout) !! inTemplate "src/main.ts" = Some "main".
Proof.
  assert (plainTree demoSource) as Ht by (repeat split; done).
  assert (rootedClean "/r" ["r"]) as Hr by (split; [done|repeat constructor; done]).
  assert (rootedClean "/r/cmd/aeus/internal/syncweb/main.go" (["r"] ++ ["cmd"; "aeus"; "internal"; "syncweb"; "main.go"])) as Hf by (split; [done|repeat constructor; done]).
  pose proof (syncweb_rebuilds map_to_list demoSource "/r" "/r/cmd/aeus/internal/syncweb/main.go" ["r"] demoCheckout (fun m => reflexivity _) Ht Hr Hf) as H.
  cbv zeta in H. fold (demoSync demoCheckout) in H. destruct (demoSync demoCheckout) as [fs code] eqn:E. destruct H as [A B].
  assert (code = 0%Z) as Hcode by (change code with (snd (fs, code)); rewrite <- E; vm_compute; reflexivity).
  split_and!.
  - etransitivity; [apply (A "/r/go.mod")|reflexivity]. intros ks [Hk _]. by destruct ks.
  - destruct (B Hcode ["README.md"]) as (B1 & _); [repeat constructor; done|].
    etransitivity; [apply B1; [by left|eexists; vm_compute; reflexivity]|vm_compute; reflexivity].
  - destruct (B Hcode ["src"; "components.d.ts"]) as (_ & B2 & _); [repeat constructor; done|].
    etransitivity; [apply B2; [reflexivity|eexists; vm_compute; reflexivity]|vm_compute; reflexivity].
  - destruct (B Hcode ["src"; "gone.ts"]) as (_ & _ & B3 & _); [repeat constructor; done|].
    apply B3; [unfold ownedNames, components; cbn; intuition discriminate|]. intros Hc%copies_console. vm_compute in Hc. discriminate Hc.
  - destruct (B Hcode ["src"; "main.ts"]) as (_ & _ & _ & B4); [repeat constructor; done|].
    etransitivity; [apply B4; [unfold ownedNames, components; cbn; intuition discriminate|apply copies_console; vm_compute; reflexivity]|vm_compute; reflexivity].
Defined.

Definition demoDir (fs : gmap string string) : gmap string string * result error (nat * nat) :=
  syncDir map_to_list demoSource "/r/admin/web" "/r/cmd/aeus/templates/admin/web" fs.

Lemma ran {A E X} (p : X * result E A) : is_ok (snd p) = true -> exists a, p = (fst p, Ok a).
Proof. destruct p as [x [a|e]]; [by exists a|done]. Qed.

Lemma sync_idempotent_witness :
  fst (demoDir (fst (demoDir demoCheckout))) !! inTemplate "README.md" = fst (demoDir demoCheckout) !! inTemplate "README.md".
Proof.
  assert (plainTree demoSource) as Ht by (repeat split; done).
  destruct (ran (demoDir demoCheckout)) as [r1 E1]; [by vm_compute|].
  destruct (ran (demoDir (fst (demoDir demoCheckout)))) as [r2 E2]; [by vm_compute|].
  refine (proj2 (sync_idempotent "/r/admin/web" "/r/cmd/aeus/templates/admin/web" ["r"; "admin"; "web"] ["r"; "cmd"; "aeus"; "templates"; "admin"; "web"] _ _ _ _ map_to_list demoSource _ Ht _ demoCheckout _ _ r1 r2 E1 E2) ["README.md"] _).
  - split; [done|repeat constructor; done].
  - split; [done|repeat constructor; done].
  - intros l. done.
  - intros l. done.
  - intros m. reflexivity.
  - intros fs err. cbn. by destruct (fs !! _).
  - repeat constructor; done.
Defined.

(** An owned file that the template lacks is copied from the console. *)
Example owned_file_copied :
  fst (demoSync (delete (inTemplate "README.md") demoCheckout)) !! inTemplate "README.md" = Some "of the console".
Proof. vm_compute. reflexivity. Qed.

(** A walk that fails has removed the template, the owned files with it. *)
Example failed_sync_loses_owned :
  let '(fs, code) := main map_to_list (Some "/r/cmd/aeus/internal/syncweb/main.go") (NDir "web" [NBad "src" (EPlain "permission denied")]) demoCheckout in
  code = 1%Z /\ demoCheckout !! inTemplate "README.md" = Some "of the template" /\ fs !! inTemplate "README.md" = None.
Proof. vm_compute. repeat split. Qed.
