(* ===== verification/Telemetry.v ===== *)
(** [infra/logger], [infra/telemetry]: structured logs with the ids of the trace, the
    OpenTelemetry tracer and how a trace crosses from a client to a server, the
    Prometheus recorder. *)

From Stdlib Require Import ZArith Lia String Ascii List Bool.
From stdpp Require Import base tactics list gmap strings pretty.
From S2P Require Import Prelude GoStrings Errs Metadata HttpCore GrpcServer Derive.

Local Open Scope string_scope.
Local Open Scope list_scope.
Local Open Scope aeus_scope.

(** ** Values and fmt *)

(** A value of type [any], as [fmt] and [slog] look at it; of one that is neither a
    string nor an int, the name of its type and what [%v] prints. *)
Inductive Any : Type := AString (s : string) | AInt (z : Z) | AVal (type text : string).

Definition typeOf (a : Any) : string := match a with AString _ => "string" | AInt _ => "int" | AVal t _ => t end.
Definition plainText (a : Any) : string := match a with AString s => s | AInt z => pretty z | AVal _ t => t end.

(** What [fmt] adds for the operands the format left over. *)
Definition extra (args : list Any) : string :=
  match args with
  | [] => EmptyString
  | _ => "%!(EXTRA " +:+ Join (map (fun a => typeOf a +:+ "=" +:+ plainText a) args) ", " +:+ ")"
  end.

(** One verb; [None]: a verb, or a combination of a verb and a type, beyond this model. *)
Definition verb (v : ascii) (a : Any) : option string :=
  let bad := Some ("%!" +:+ String v ("(" +:+ typeOf a +:+ "=" +:+ plainText a +:+ ")")) in
  if Ascii.eqb v "v" then Some (plainText a)
  else if Ascii.eqb v "T" then Some (typeOf a)
  else match a with
       | AString s => if Ascii.eqb v "s" then Some s else if Ascii.eqb v "d" then bad else None
       | AInt z => if Ascii.eqb v "d" then Some (pretty z) else if Ascii.eqb v "s" then bad else None
       | AVal _ _ => None
       end.

(** [fmt.Sprintf] for formats without flags, widths and explicit indexes. *)
Fixpoint Sprintf (format : string) (args : list Any) : option string :=
  match format with
  | EmptyString => Some (extra args)
  | String c rest =>
      if negb (Ascii.eqb c "%") then String c <$> Sprintf rest args
      else
        match rest with
        | EmptyString => Some ("%!(NOVERB)" +:+ extra args)
        | String v rest =>
            if Ascii.eqb v "%" then String "%" <$> Sprintf rest args
            else match args with
                 | [] => (fun t => "%!" +:+ String v "(MISSING)" +:+ t) <$> Sprintf rest []
                 | a :: args => match verb v a with None => None | Some t => append t <$> Sprintf rest args end
                 end
        end
  end.

(** How many operands a format takes. *)
Fixpoint operands (format : string) : nat :=
  match format with
  | String c rest =>
      if negb (Ascii.eqb c "%") then operands rest
      else match rest with
           | EmptyString => 0
           | String v rest => if Ascii.eqb v "%" then operands rest else S (operands rest)
           end
  | EmptyString => 0
  end.

(** Operands beyond those the format takes are printed at its end. *)
Lemma Sprintf_extra (args more : list Any) : forall format t,
  length args = operands format -> Sprintf format args = Some t -> Sprintf format (args ++ more) = Some (t +:+ extra more).
Proof.
  intros format. remember (String.length format) as n eqn:Hn. revert format args Hn.
  induction n as [n IH] using lt_wf_ind. intros [|c rest] args -> t Hl; cbn [Sprintf operands] in *.
  - intros [= <-]. by destruct args.
  - assert (forall r a x, (String.length r < String.length (String c rest))%nat -> length a = operands r ->
              forall f : string -> string, (forall x y, f x +:+ y = f (x +:+ y)) -> f <$> Sprintf r a = Some x -> f <$> Sprintf r (a ++ more) = Some (x +:+ extra more)) as Hr.
    { intros r a x Hlt Ha f Hf. destruct (Sprintf r a) as [y|] eqn:E; [|done]. cbn. intros [= <-]. rewrite (IH _ Hlt r a eq_refl y Ha E). cbn. by rewrite Hf. }
    destruct (negb (Ascii.eqb c "%")); [by apply Hr; [cbn; lia|..]|].
    destruct rest as [|v rest]; [intros [= <-]; by destruct args|].
    destruct (Ascii.eqb v "%"); [by apply Hr; [cbn; lia|..]|]. destruct args as [|a args]; [done|]. cbn [app length] in *.
    destruct (verb v a) as [x|]; [|done]. apply Hr; [cbn; lia|lia|]. intros. by rewrite append_assoc.
Qed.

(** ** log/slog *)

Inductive Level : Type := LevelDebug | LevelInfo | LevelWarn | LevelError.

Definition rank (l : Level) : Z := match l with LevelDebug => -4 | LevelInfo => 0 | LevelWarn => 4 | LevelError => 8 end.

Record LogRecord : Type := mkRecord { level : Level; message : string; attrs : list (string * Any) }.

(** Keys and values alternate; a key without a value and a value without a key get a key of
    their own. *)
Fixpoint argsToAttrs (args : list Any) : list (string * Any) :=
  match args with
  | [] => []
  | AString key :: rest =>
      match rest with
      | [] => [("!BADKEY", AString key)]
      | x :: rest => (key, x) :: argsToAttrs rest
      end
  | x :: rest => ("!BADKEY", x) :: argsToAttrs rest
  end.

(** [slog.Logger]: the attributes of [With], and the least level its handler takes. *)
Record SlogLogger : Type := mkSlog { with_ : list (string * Any); least : Level }.

(** What the handler was given. *)
Definition Log (l : SlogLogger) (lv : Level) (msg : string) (args : list Any) (out : list LogRecord) : list LogRecord :=
  if (rank (least l) <=? rank lv)%Z then out ++ [mkRecord lv msg (with_ l ++ argsToAttrs args)] else out.

(** ** infra/logger *)

Section Logger.

Context {World : Type}.
Notation State := (@Store World).

Definition New (log : SlogLogger) : SlogLogger := log.

Definition With (l : SlogLogger) (args : list Any) : SlogLogger := New (mkSlog (with_ l ++ argsToAttrs args) (least l)).

(** A nil context is [None]. *)
Definition appendTraceArgs (s : State) (ctx : option Context) (args : list Any) : list Any :=
  match ctx with
  | None => args
  | Some ctx =>
      let '(s, md) := FromContext s ctx in
      let '(tid, hasTid) := mdGet (world s) (deref s md) "trace_id" in
      let '(sid, hasSid) := mdGet (world s) (deref s md) "span_id" in
      if (negb hasTid || String.eqb tid EmptyString) && (negb hasSid || String.eqb sid EmptyString) then args
      else
        args ++ (if hasTid && negb (String.eqb tid EmptyString) then [AString "trace_id"; AString tid] else [])
             ++ (if hasSid && negb (String.eqb sid EmptyString) then [AString "span_id"; AString sid] else [])
  end.

(** The methods without and with a format, by level; [None]: a format beyond the model. *)
Definition logAt (lv : Level) (l : SlogLogger) (s : State) (ctx : option Context) (msg : string) (args : list Any) (out : list LogRecord) : list LogRecord :=
  let args := appendTraceArgs s ctx args in Log l lv msg args out.

Definition logfAt (lv : Level) (l : SlogLogger) (s : State) (ctx : option Context) (msg : string) (args : list Any) (out : list LogRecord) : option (list LogRecord) :=
  let args := appendTraceArgs s ctx args in
  match Sprintf msg args with None => None | Some text => Some (Log l lv text [] out) end.

Definition Debug := logAt LevelDebug.
Definition Info := logAt LevelInfo.
Definition Warn := logAt LevelWarn.
Definition Error := logAt LevelError.
Definition Debugf := logfAt LevelDebug.
Definition Infof := logfAt LevelInfo.
Definition Warnf := logfAt LevelWarn.
Definition Errorf := logfAt LevelError.

(** The logger of the package, and the functions that use it. *)
Definition log : SlogLogger := New (mkSlog [] LevelDebug).
Definition Default : SlogLogger := log.
Definition pkgDebug := Debug log.
Definition pkgDebugf := Debugf log.
Definition pkgInfo := Info log.
Definition pkgInfof := Infof log.
Definition pkgWarn := Warn log.
Definition pkgWarnf := Warnf log.
Definition pkgError := Error log.
Definition pkgErrorf := Errorf log.

End Logger.

(** Attributes that are whole keep their form whatever follows them. *)
Fixpoint paired (args : list Any) : bool :=
  match args with
  | [] => true
  | AString _ :: rest => match rest with [] => false | _ :: rest => paired rest end
  | _ :: rest => paired rest
  end.

Lemma argsToAttrs_app (more : list Any) : forall args, paired args = true -> argsToAttrs (args ++ more) = argsToAttrs args ++ argsToAttrs more.
Proof.
  intros args. remember (length args) as n eqn:Hn. revert args Hn. induction n as [n IH] using lt_wf_ind. intros [|a args] -> Hp; [done|].
  destruct a as [s|z|t x]; cbn in Hp.
  - destruct args as [|y args]; [done|]. cbn [app argsToAttrs]. f_equal. by apply (IH (length args)); [cbn; lia|..].
  - cbn [app argsToAttrs]. f_equal. by apply (IH (length args)); [cbn; lia|..].
  - cbn [app argsToAttrs]. f_equal. by apply (IH (length args)); [cbn; lia|..].
Qed.

(** ** infra/telemetry *)

Inductive SpanKind : Type :=
| SpanKindUnspecified | SpanKindInternal | SpanKindServer | SpanKindClient | SpanKindProducer | SpanKindConsumer.

Record SpanConfig : Type := mkSpanConfig { Kind : SpanKind }.
Definition SpanOption : Type := SpanConfig -> SpanConfig.
Definition WithSpanKind (k : SpanKind) : SpanOption := fun _ => mkSpanConfig k.

Record Attribute : Type := mkAttribute { Key : string; Value : Any }.
Definition StringAttr (k v : string) : Attribute := mkAttribute k (AString v).
Definition IntAttr (k : string) (v : Z) : Attribute := mkAttribute k (AInt v).

(** [TextMapReader] and [TextMapWriter] of one carrier; [canon] is what it makes of a key,
    [settable] whether it holds what is written to it. *)
Class Carrier (C : Type) : Type := {
  cGet : C -> string -> string;
  cSet : C -> string -> string -> C;
  canon : string -> string;
  settable : C -> Prop;
}.
Class CarrierLaws (C : Type) `{Carrier C} : Prop := {
  cGet_cSet c k v k' : settable c -> cGet (cSet c k v) k' = if decide (canon k = canon k') then v else cGet c k';
  cSet_settable c k v : settable c -> settable (cSet c k v);
}.

(** [MetadataCarrier]; one whose object has a tee reader may read other things. *)
#[export] Instance MetadataCarrier {World : Type} : Carrier (@Store World * loc) := {|
  cGet := fun c k => fst (mdGet (world (fst c)) (deref (fst c) (snd c)) k);
  cSet := fun c k v => (update (fst c) (snd c) (mdSet (world (fst c)) (deref (fst c) (snd c)) k v), snd c);
  canon := canonicalMetadataKey;
  settable := fun c => teeReader (deref (fst c) (snd c)) = None;
|}.

#[export] Instance MetadataCarrier_laws {World : Type} : CarrierLaws (@Store World * loc).
Proof.
  split; intros [s l] k v; cbn [cGet cSet canon settable MetadataCarrier fst snd]; [intros k' Ht|intros Ht]; rewrite deref_update; [|done].
  rewrite mdGet_mdSet. case_decide; [done|]. unfold mdGet. rewrite Ht. by destruct (variables _ !! _).
Qed.

Record HTTPHeaderCarrier : Type := mkHTTPHeaderCarrier { Header_ : gmap string (list string) }.

#[export] Instance HTTPHeaderCarrier_carrier : Carrier HTTPHeaderCarrier := {|
  cGet := fun c => headerGet (Header_ c); cSet := fun c k v => mkHTTPHeaderCarrier (headerSet (Header_ c) k v);
  canon := CanonicalHeaderKey; settable := fun _ => True;
|}.

#[export] Instance HTTPHeaderCarrier_laws : CarrierLaws HTTPHeaderCarrier.
Proof. split; cbn; [|done]. intros. apply headerGet_headerSet. Qed.

Record grpcMetadataCarrier (MD : Type) : Type := mkGrpcMetadataCarrier { carried : MD }.
Arguments mkGrpcMetadataCarrier {MD} _.
Arguments carried {MD} _.

#[export] Instance grpcMetadataCarrier_carrier {MD : Type} `{GrpcMD MD} : Carrier (grpcMetadataCarrier MD) := {|
  cGet := fun c key => match mdValues (carried c) key with [] => EmptyString | v :: _ => v end;
  cSet := fun c k v => mkGrpcMetadataCarrier (mdPut (carried c) k v); canon := ToLower; settable := fun _ => True;
|}.

#[export] Instance grpcMetadataCarrier_laws {MD : Type} `{GrpcMDLaws MD} : CarrierLaws (grpcMetadataCarrier MD).
Proof. split; cbn; [|done]. intros. rewrite mdValues_put. by case_decide. Qed.

(** ** infra/telemetry/otel *)

(** The OpenTelemetry library: spans and their contexts, and the W3C propagator, which
    reads and writes the entries of a carrier. *)
Class OTel (O Span SC : Type) : Type := {
  otelStart : O -> option SC -> string -> list SpanKind -> O * Span;
  otelEnd : Span -> O -> O;
  otelRecordError : Span -> error -> O -> O;
  otelSetAttributes : Span -> list (string * Any) -> O -> O;
  spanContextOf : Span -> SC;
  TraceID : SC -> string;
  SpanID : SC -> string;
  IsValid : SC -> bool;
  propInject : SC -> list (string * string);
  propExtract : (string -> string) -> option SC;
}.

Definition fields : list string := ["traceparent"; "tracestate"].

Definition entry (l : list (string * string)) (k : string) : string := default EmptyString ((list_to_map l : gmap string string) !! k).

Class OTelLaws (O Span SC : Type) `{OTel O Span SC} : Prop := {
  valid_ids sc : IsValid sc = true -> TraceID sc <> EmptyString /\ SpanID sc <> EmptyString;
  propInject_fields sc : NoDup (map fst (propInject sc)) /\ forall k, In k (map fst (propInject sc)) -> In k fields;
  propExtract_inject sc get : IsValid sc = true -> (forall k, In k fields -> get k = entry (propInject sc) k) -> propExtract get = Some sc;
  propExtract_none get : (forall k, In k fields -> get k = EmptyString) -> propExtract get = None;
}.

Section Otel.

Context {O Span SC : Type} `{HO : OTel O Span SC} `{HOL : !OTelLaws O Span SC}.
Context {World : Type}.
Notation State := (@Store World).

(** What a context holds for this package: the metadata, and the span or the remote
    parent. *)
Record TraceCtx : Type := mkTraceCtx { tMeta : Context; tSpan : option SC }.

(** [textMapAdapter] and [injectAdapter] *)
Definition adapterGet {C} `{Carrier C} (c : C) (key : string) : string := cGet c key.
Definition adapterSet {C} `{Carrier C} (c : C) (key value : string) : C := cSet c key value.
Definition adapterKeys {C} `{Carrier C} (c : C) : list string := [].

Definition otelKind (k : SpanKind) : list SpanKind := match k with SpanKindUnspecified => [] | k => [k] end.

Definition Start (ctx : TraceCtx) (name : string) (opts : list SpanOption) (s : State) (o : O) : State * O * TraceCtx * Span :=
  let cfg := fold_left (fun c opt => opt c) opts (mkSpanConfig SpanKindUnspecified) in
  let '(o, sp) := otelStart o (tSpan ctx) name (otelKind (Kind cfg)) in
  let ctx := mkTraceCtx (tMeta ctx) (Some (spanContextOf sp)) in
  let sc := spanContextOf sp in
  if IsValid sc then
    let '(s, md) := FromContext s (tMeta ctx) in
    let s := update s md (mdSet (world s) (deref s md) "trace_id" (TraceID sc)) in
    let s := update s md (mdSet (world s) (deref s md) "span_id" (SpanID sc)) in
    (s, o, mkTraceCtx (NewContext md) (tSpan ctx), sp)
  else (s, o, ctx, sp).

Definition Extract {C} `{Carrier C} (ctx : TraceCtx) (carrier : C) : TraceCtx :=
  match propExtract (adapterGet carrier) with
  | Some sc => mkTraceCtx (tMeta ctx) (Some sc)
  | None => ctx
  end.

Definition Inject {C} `{Carrier C} (ctx : TraceCtx) (carrier : C) : C :=
  fold_left (fun c kv => adapterSet c (fst kv) (snd kv)) (match tSpan ctx with Some sc => propInject sc | None => [] end) carrier.

Definition End_ (sp : Span) (o : O) : O := otelEnd sp o.
Definition SetError (sp : Span) (err : option error) (o : O) : O := match err with Some e => otelRecordError sp e o | None => o end.
Definition SetAttributes (sp : Span) (l : list Attribute) (o : O) : O :=
  otelSetAttributes sp (flat_map (fun a => match Value a with AString _ | AInt _ => [(Key a, Value a)] | AVal _ _ => [] end) l) o.
Definition SpanContext (sp : Span) : SC := spanContextOf sp.

(** *** NewProvider *)

Context {Resource Sampler Exporter : Type}.
Variable AlwaysSample : Sampler.
(** [resource.Merge] of the environment and the name of the service; [otlptracegrpc.New]. *)
Variables (mergeResource : string -> result error Resource) (newExporter : string -> result error Exporter).

Record config : Type := mkConfig { endpoint : string; sampler : option Sampler }.
Inductive Option_ : Type := WithEndpoint (endpoint : string) | WithSampler (s : option Sampler).
Definition applyOption (c : config) (o : Option_) : config :=
  match o with
  | WithEndpoint e => mkConfig e (sampler c)
  | WithSampler s => mkConfig (endpoint c) s
  end.

Record Provider : Type := mkProvider { pResource : Resource; pSampler : Sampler; pBatcher : option Exporter }.

Definition NewProvider (serviceName : string) (opts : list Option_) : result error Provider :=
  let cfg := fold_left applyOption opts (mkConfig EmptyString None) in
  match mergeResource serviceName with
  | Err err => Err (wrapf "resource merge" err)
  | Ok res =>
      match (if negb (String.eqb (endpoint cfg) EmptyString) then
               match newExporter (endpoint cfg) with Err err => Err (wrapf "otlp exporter" err) | Ok exp => Ok (Some exp) end
             else Ok None) with
      | Err err => Err err
      | Ok exp => Ok (mkProvider res (default AlwaysSample (sampler cfg)) exp)
      end
  end.

Definition NewTracer (provider : option Provider) : result error Provider :=
  match provider with None => Err (EPlain "provider is nil") | Some p => Ok p end.

(** *** The tracer that does nothing *)

Definition noopStart (ctx : TraceCtx) (name : string) (opts : list SpanOption) : TraceCtx * unit := (ctx, tt).
Definition noopExtract {C} (ctx : TraceCtx) (carrier : C) : TraceCtx := ctx.
Definition noopInject {C} (ctx : TraceCtx) (carrier : C) : C := carrier.
Definition noopTraceID (sp : unit) : string := EmptyString.
Definition noopSpanID (sp : unit) : string := EmptyString.
Definition noopIsValid (sp : unit) : bool := false.

(** ** A trace crosses *)

Lemma Inject_get {C} `{HC : Carrier C} `{HCL : !CarrierLaws C} (l : list (string * string)) (c : C) (k : string) :
  canon "traceparent" <> canon "tracestate" -> settable c -> NoDup (map fst l) -> (forall k, In k (map fst l) -> In k fields) -> In k fields ->
  cGet (fold_left (fun c kv => adapterSet c (fst kv) (snd kv)) l c) k = default (cGet c k) ((list_to_map l : gmap string string) !! k).
Proof.
  intros Hc. revert c. induction l as [|[k0 v0] l IH]; intros c Hs Hnd Hf Hk; [done|]. cbn [fold_left fst snd].
  cbn [map fst] in Hnd. apply NoDup_cons in Hnd as [Hn Hnd]. rewrite list_elem_of_In in Hn.
  rewrite IH; [|by apply cSet_settable|done|intros k' Hk'; apply Hf; by right|done]. cbn [list_to_map foldr uncurry].
  unfold adapterSet. rewrite cGet_cSet by done. specialize (Hf k0 ltac:(by left)). destruct (decide (k0 = k)) as [->|Hne].
  - rewrite lookup_insert_eq, decide_True by done. by rewrite not_elem_of_list_to_map_1 by (by rewrite list_elem_of_In).
  - rewrite lookup_insert_ne by done. rewrite decide_False; [done|]. destruct Hf as [<-|[<-|[]]], Hk as [<-|[<-|[]]]; done.
Qed.

(** What a client injects into a carrier that carries no trace, a server extracts from it. *)
Theorem inject_extract {C} `{HC : Carrier C} `{HCL : !CarrierLaws C} (ctx ctx' : TraceCtx) (sc : SC) (c : C) :
  canon "traceparent" <> canon "tracestate" -> settable c -> (forall k, In k fields -> cGet c k = EmptyString) ->
  tSpan ctx = Some sc -> IsValid sc = true -> Extract ctx' (Inject ctx c) = mkTraceCtx (tMeta ctx') (Some sc).
Proof.
  intros Hc Hs He Hsp Hv. unfold Extract, Inject. rewrite Hsp. destruct (propInject_fields sc) as [Hnd Hf].
  rewrite (propExtract_inject sc); [done..|]. intros k Hk. unfold adapterGet, entry. rewrite Inject_get by done. by rewrite He.
Qed.

(** *** The servers *)

(** [requestInterceptor]: the metadata is asked before anything of the request is in it. *)
Definition httpStart (method path : string) (ctx : TraceCtx) (s : State) (o : O) : State * O * TraceCtx * Span :=
  let '(s, md) := FromContext s (tMeta ctx) in
  Start (Extract ctx (s, md)) (method +:+ " " +:+ path) [WithSpanKind SpanKindServer] s o.

(** [executeCmd] of the command line server *)
Definition cliStart (path : string) (ctx : TraceCtx) (s : State) (o : O) : State * O * TraceCtx * Span :=
  let '(s, md) := FromContext s (tMeta ctx) in Start (Extract ctx (s, md)) path [] s o.

(** [startSpan] of the gRPC server *)
Definition grpcStart {MD} `{GrpcMD MD} (incoming : option MD) (method : string) (ctx : TraceCtx) (s : State) (o : O) : State * O * TraceCtx * Span :=
  Start (Extract ctx (mkGrpcMetadataCarrier (default mdEmpty incoming))) method [WithSpanKind SpanKindServer] s o.

Lemma Start_span (ctx : TraceCtx) (name : string) (opts : list SpanOption) (s : State) (o : O) :
  let '(_, o', _, sp) := Start ctx name opts s o in
  (o', sp) = otelStart o (tSpan ctx) name (otelKind (Kind (fold_left (fun c opt => opt c) opts (mkSpanConfig SpanKindUnspecified)))).
Proof. unfold Start. destruct (otelStart _ _ _ _) as [o' sp]. destruct (IsValid _); [destruct (FromContext _ _)|]; done. Qed.

Lemma surjective_grpc {MD} (c : grpcMetadataCarrier MD) : mkGrpcMetadataCarrier (carried c) = c.
Proof. by destruct c. Qed.

(** A call of gRPC continues the trace of its client. *)
Theorem grpc_trace_continues {MD} `{HM : GrpcMD MD} `{HML : !GrpcMDLaws MD} (client ctx : TraceCtx) (sc : SC) (method : string) (s : State) (o : O) :
  tSpan client = Some sc -> IsValid sc = true ->
  let '(_, o', _, sp) := grpcStart (Some (carried (Inject client (mkGrpcMetadataCarrier mdEmpty)))) method ctx s o in
  (o', sp) = otelStart o (Some sc) method [SpanKindServer].
Proof.
  intros Hc Hv. unfold grpcStart. cbn [default from_option id].
  rewrite (surjective_grpc (Inject client _)), (inject_extract client ctx sc); [|done|done| |done|done].
  - apply (Start_span (mkTraceCtx (tMeta ctx) (Some sc))).
  - intros k _. cbn. by rewrite mdValues_empty.
Qed.

(** The span of an HTTP request has no parent, whatever its headers ask for: the metadata
    from which the parent is extracted is new, and reads the headers only later. *)
Theorem http_trace_starts_anew (method path : string) (s : State) (o : O) :
  let '(_, o', _, sp) := httpStart method path (mkTraceCtx None None) s o in
  (o', sp) = otelStart o None (method +:+ " " +:+ path) [SpanKindServer].
Proof.
  unfold httpStart, FromContext. cbn [tMeta]. destruct (alloc s newMetadata) as [s1 md] eqn:Ea.
  assert (Extract (mkTraceCtx None None) (s1, md) = mkTraceCtx None None) as ->.
  { unfold Extract. rewrite propExtract_none; [done|]. intros k _. unfold alloc in Ea. injection Ea as <- <-.
    unfold adapterGet. cbn [cGet MetadataCarrier fst snd]. unfold deref, mdGet. cbn [objects]. rewrite lookup_insert_eq. cbn. by rewrite lookup_empty. }
  apply (Start_span (mkTraceCtx None None)).
Qed.

(** ** The logs of a trace *)

Lemma mdGet_update (s : State) (l : loc) (k k' v : string) :
  let s' := update s l (mdSet (world s) (deref s l) k v) in
  mdGet (world s') (deref s' l) k' = if decide (canonicalMetadataKey k = canonicalMetadataKey k') then (v, true) else mdGet (world s') (deref s l) k'.
Proof. cbn zeta. by rewrite deref_update, mdGet_mdSet. Qed.

(** Starting a valid span leaves its ids in the metadata of the context. *)
Lemma Start_ids (ctx ctx' : TraceCtx) (name : string) (opts : list SpanOption) (s s' : State) (o o' : O) (sp : Span) :
  Start ctx name opts s o = (s', o', ctx', sp) -> IsValid (spanContextOf sp) = true ->
  exists md, tMeta ctx' = Some md /\ (forall l, tMeta ctx = Some l -> md = l) /\
    mdGet (world s') (deref s' md) "trace_id" = (TraceID (spanContextOf sp), true) /\
    mdGet (world s') (deref s' md) "span_id" = (SpanID (spanContextOf sp), true).
Proof.
  unfold Start. destruct (otelStart _ _ _ _) as [o1 sp1]. destruct (IsValid (spanContextOf sp1)) eqn:Ev; [|intros [= <- <- <- <-]; congruence].
  cbn [tMeta]. destruct (FromContext s (tMeta ctx)) as [s1 md] eqn:Ef. intros [= <- <- <- <-] _. exists md. split; [done|].
  split; [intros l Hl; rewrite Hl in Ef; by injection Ef|]. split; [|by rewrite mdGet_update, decide_True by done].
  rewrite mdGet_update, decide_False by done. rewrite deref_update. unfold mdGet, mdSet. cbn [variables snd]. by rewrite lookup_insert_eq.
Qed.

Lemma traced_args (s : State) (md : loc) (sc : SC) (args : list Any) :
  IsValid sc = true -> mdGet (world s) (deref s md) "trace_id" = (TraceID sc, true) -> mdGet (world s) (deref s md) "span_id" = (SpanID sc, true) ->
  appendTraceArgs s (Some (Some md)) args = args ++ [AString "trace_id"; AString (TraceID sc); AString "span_id"; AString (SpanID sc)].
Proof.
  intros [Ht Hs]%valid_ids E1 E2. unfold appendTraceArgs, FromContext. rewrite E1, E2.
  by rewrite (proj2 (String.eqb_neq _ _) Ht), (proj2 (String.eqb_neq _ _) Hs).
Qed.

(** A structured log under the context of a span has the attributes of the call, and
    after them the ids of the trace and the span. *)
Theorem logs_carry_trace (ctx ctx' : TraceCtx) (name : string) (opts : list SpanOption) (s s' : State) (o o' : O) (sp : Span)
    (lv : Level) (l : SlogLogger) (msg : string) (args : list Any) (out : list LogRecord) :
  Start ctx name opts s o = (s', o', ctx', sp) -> IsValid (spanContextOf sp) = true -> paired args = true ->
  (rank (least l) <= rank lv)%Z ->
  logAt lv l s' (Some (tMeta ctx')) msg args out
  = out ++ [mkRecord lv msg (with_ l ++ argsToAttrs args ++ [("trace_id", AString (TraceID (spanContextOf sp))); ("span_id", AString (SpanID (spanContextOf sp)))])].
Proof.
  intros E Hv Hp Hr. destruct (Start_ids _ _ _ _ _ _ _ _ _ E Hv) as (md & -> & _ & H1 & H2). unfold logAt, Log.
  rewrite (traced_args s' md (spanContextOf sp)) by done. rewrite (proj2 (Z.leb_le _ _) Hr). by rewrite (argsToAttrs_app _ args Hp).
Qed.

(** A formatted log under the context of a span ends with the ids as operands its format
    has no place for. *)
Theorem formatted_logs_spoilt (ctx ctx' : TraceCtx) (name : string) (opts : list SpanOption) (s s' : State) (o o' : O) (sp : Span)
    (lv : Level) (l : SlogLogger) (format text : string) (args : list Any) (out : list LogRecord) :
  Start ctx name opts s o = (s', o', ctx', sp) -> IsValid (spanContextOf sp) = true ->
  length args = operands format -> Sprintf format args = Some text -> (rank (least l) <= rank lv)%Z ->
  logfAt lv l s' (Some (tMeta ctx')) format args out
  = Some (out ++ [mkRecord lv (text +:+ "%!(EXTRA string=trace_id, string=" +:+ TraceID (spanContextOf sp)
                                    +:+ ", string=span_id, string=" +:+ SpanID (spanContextOf sp) +:+ ")") (with_ l)]).
Proof.
  intros E Hv Hl Ht Hr. destruct (Start_ids _ _ _ _ _ _ _ _ _ E Hv) as (md & -> & _ & H1 & H2). unfold logfAt, Log.
  rewrite (traced_args s' md (spanContextOf sp)) by done. rewrite (Sprintf_extra args _ format text Hl Ht). rewrite (proj2 (Z.leb_le _ _) Hr).
  rewrite app_nil_r. cbn [extra map typeOf plainText Join]. by rewrite !append_assoc.
Qed.

(** The ids are kept in the metadata the contexts share: once a span was started under the
    context of another one, the logs of the outer one name the inner. *)
Theorem inner_span_in_outer_logs (ctx ctx1 ctx2 : TraceCtx) (n1 n2 : string) (opts1 opts2 : list SpanOption)
    (s s1 s2 : State) (o o1 o2 : O) (outer inner : Span) (args : list Any) :
  Start ctx n1 opts1 s o = (s1, o1, ctx1, outer) -> IsValid (spanContextOf outer) = true ->
  Start ctx1 n2 opts2 s1 o1 = (s2, o2, ctx2, inner) -> IsValid (spanContextOf inner) = true ->
  appendTraceArgs s2 (Some (tMeta ctx1)) args
  = args ++ [AString "trace_id"; AString (TraceID (spanContextOf inner)); AString "span_id"; AString (SpanID (spanContextOf inner))].
Proof.
  intros E1 V1 E2 V2. destruct (Start_ids _ _ _ _ _ _ _ _ _ E1 V1) as (md & Hmd & _ & _ & _).
  destruct (Start_ids _ _ _ _ _ _ _ _ _ E2 V2) as (md2 & _ & Hsame & H1 & H2). rewrite (Hsame md Hmd) in H1, H2. rewrite Hmd. by apply traced_args.
Qed.

End Otel.

(** ** infra/telemetry/prometheus *)

Definition metricNames : list string := ["aeus_request_duration_seconds"; "aeus_request_total"; "aeus_registry_heartbeat_total"].

(** [MustRegister]: [Err tt] is the panic; what was registered before it stays. *)
Fixpoint MustRegister (names : list string) (registry : gset string) : gset string * result unit unit :=
  match names with
  | [] => (registry, Ok tt)
  | n :: names => if bool_decide (n ∈ registry) then (registry, Err tt) else MustRegister names ({[n]} ∪ registry)
  end.

(** The metrics by their labels: protocol, path and status; a histogram is what it has
    observed. *)
Record Recorder : Type := mkRecorder {
  requestDuration : gmap (string * string * string) (list Z);
  requestTotal : gmap (string * string * string) nat;
  heartbeatTotal : gmap string nat;
}.

(** With a registry, or the default one. *)
Definition NewRecorder (registry : gset string) : gset string * result unit Recorder :=
  match MustRegister metricNames registry with
  | (registry, Err e) => (registry, Err e)
  | (registry, Ok _) => (registry, Ok (mkRecorder ∅ ∅ ∅))
  end.

Definition RecordRequestDuration (protocol path status : string) (d : Z) (r : Recorder) : Recorder :=
  let k := (protocol, path, status) in
  mkRecorder (<[k := default [] (requestDuration r !! k) ++ [d]]> (requestDuration r)) (requestTotal r) (heartbeatTotal r).

Definition RecordRequestTotal (protocol path status : string) (r : Recorder) : Recorder :=
  let k := (protocol, path, status) in
  mkRecorder (requestDuration r) (<[k := S (default 0%nat (requestTotal r !! k))]> (requestTotal r)) (heartbeatTotal r).

Definition RecordRegistryHeartbeat (status : string) (r : Recorder) : Recorder :=
  mkRecorder (requestDuration r) (requestTotal r) (<[status := S (default 0%nat (heartbeatTotal r !! status))]> (heartbeatTotal r)).

(** The recorder that does nothing. *)
Definition noopRecordRequestDuration (protocol path status : string) (d : Z) (r : unit) : unit := r.
Definition noopRecordRequestTotal (protocol path status : string) (r : unit) : unit := r.
Definition noopRecordRegistryHeartbeat (status : string) (r : unit) : unit := r.

(** What the servers do at the end of a request. *)
Definition observe (r : Recorder) (e : string * string * string * Z) : Recorder :=
  let '(protocol, path, status, d) := e in RecordRequestTotal protocol path status (RecordRequestDuration protocol path status d r).

Definition seen (k : string * string * string) (events : list (string * string * string * Z)) : list Z :=
  flat_map (fun e => if bool_decide (fst e = k) then [snd e] else []) events.

(** Every request is counted once, under its own labels, and its time is in the histogram
    of the same labels. *)
Lemma observe_all (events : list (string * string * string * Z)) (r : Recorder) (k : string * string * string) :
  default [] (requestDuration (fold_left observe events r) !! k) = default [] (requestDuration r !! k) ++ seen k events
  /\ default 0%nat (requestTotal (fold_left observe events r) !! k) = (default 0 (requestTotal r !! k) + length (seen k events))%nat.
Proof.
  revert r. induction events as [|[[[p q] st] d] events IH]; intros r; cbn [fold_left seen flat_map]; [rewrite app_nil_r; cbn; split; [done|lia]|].
  destruct (IH (observe r (p, q, st, d))) as [-> ->]. clear IH. cbn [observe RecordRequestTotal RecordRequestDuration requestDuration requestTotal fst snd].
  fold (seen k events). case_bool_decide as Hk.
  - subst k. rewrite !lookup_insert_eq. cbn. rewrite <- app_assoc. split; [done|lia].
  - rewrite !lookup_insert_ne by done. done.
Qed.

(** A second recorder on a registry panics. *)
Example second_recorder_panics :
  let '(reg, first) := NewRecorder ∅ in is_ok first = true /\ snd (NewRecorder reg) = Err tt.
Proof. vm_compute. split; reflexivity. Qed.

(** ** A tracer *)

(** Ids are counted; a trace is carried as in the W3C header. *)
Definition demoValid (sc : string * string) : bool :=
  negb (String.eqb (fst sc) EmptyString) && negb (String.eqb (snd sc) EmptyString) && byte_free "-" (fst sc) && byte_free "-" (snd sc).

#[export] Instance demoOTel : OTel nat (string * string) (string * string) := {|
  otelStart := fun o parent name _ => (S o, (match parent with Some p => fst p | None => "t" +:+ pretty o end, "s" +:+ pretty o));
  otelEnd := fun _ o => o; otelRecordError := fun _ _ o => o; otelSetAttributes := fun _ _ o => o;
  spanContextOf := fun sp => sp; TraceID := fst; SpanID := snd; IsValid := demoValid;
  propInject := fun sc => if demoValid sc then [("traceparent", Join ["00"; fst sc; snd sc; "01"] "-")] else [];
  propExtract := fun get => match SplitByte (get "traceparent") "-" with
                            | [v; t; s; f] => if demoValid (t, s) then Some (t, s) else None
                            | _ => None
                            end;
|}.

#[export] Instance demoOTel_laws : OTelLaws nat (string * string) (string * string).
Proof.
  split; cbn -[Join].
  - intros [t s]. unfold demoValid. cbn. rewrite !andb_true_iff. intros [[[Ht%negb_true_iff%String.eqb_neq Hs%negb_true_iff%String.eqb_neq] _] _]. done.
  - intros sc. destruct (demoValid sc); cbn; [|split; [constructor|by intros k []]]. split; [repeat constructor; set_solver|]. intros k [<-|[]]. by left.
  - intros [t s] get Hv Hget. rewrite Hv in Hget. rewrite (Hget "traceparent" ltac:(by left)). unfold entry.
    assert (forall x : string, default EmptyString ((list_to_map [("traceparent", x)] : gmap string string) !! "traceparent") = x) as ->.
    { intros x. cbn. by rewrite lookup_insert_eq. }
    pose proof Hv as Hv'. unfold demoValid in Hv'. cbn [fst snd] in Hv'. rewrite !andb_true_iff in Hv'. destruct Hv' as [[_ Hf1] Hf2].
    rewrite (SplitByte_Join ["00"; t; s; "01"]); [by rewrite Hv|done|]. repeat constructor; done.
  - intros get Hget. by rewrite (Hget "traceparent" ltac:(by left)).
Qed.

Definition demoState : @Store unit := mkStore ∅ tt.
Definition noCtx : TraceCtx (SC := string * string) := mkTraceCtx None None.

(** A client with a span calls over gRPC: the span of the server has the same trace. *)
Lemma grpc_trace_continues_witness :
  let client := mkTraceCtx None (Some ("t7", "s7")) in
  let '(_, _, _, sp) := grpcStart (MD := gmap string (list string)) (Some (carried (Inject client (mkGrpcMetadataCarrier mdEmpty)))) "/shop.Orders/Get" noCtx demoState 8%nat in
  sp = ("t7", "s8").
Proof.
  intros client. pose proof (grpc_trace_continues (MD := gmap string (list string)) client noCtx ("t7", "s7") "/shop.Orders/Get" demoState 8%nat eq_refl eq_refl) as H.
  destruct (grpcStart _ _ _ _ _) as [[[s' o'] ctx'] sp]. cbn in H. by injection H as _ ->.
Defined.

Lemma inject_extract_witness :
  Extract noCtx (Inject (mkTraceCtx None (Some ("t7", "s7"))) (mkHTTPHeaderCarrier {["Accept" := ["*/*"]]})) = mkTraceCtx None (Some ("t7", "s7")).
Proof.
  apply (inject_extract (C := HTTPHeaderCarrier) (mkTraceCtx None (Some ("t7", "s7"))) noCtx ("t7", "s7")); [vm_compute; discriminate|exact I| |reflexivity|reflexivity].
  intros k [<-|[<-|[]]]; vm_compute; reflexivity.
Defined.

Lemma http_trace_starts_anew_witness :
  let '(_, _, _, sp) := httpStart "GET" "/orders" noCtx demoState 8%nat in sp = ("t8", "s8").
Proof.
  pose proof (http_trace_starts_anew "GET" "/orders" demoState 8%nat) as H. fold noCtx in H.
  destruct (httpStart _ _ _ _ _) as [[[s' o'] ctx'] sp]. cbn in H. by injection H as _ ->.
Defined.

(** The span of a request, and a span within it. *)
Definition outerStart : @Store unit * nat * TraceCtx (SC := string * string) * (string * string) := Start noCtx "outer" [WithSpanKind SpanKindServer] demoState 1%nat.
Definition innerStart : @Store unit * nat * TraceCtx (SC := string * string) * (string * string) :=
  let '(s, o, ctx, _) := outerStart in Start ctx "inner" [] s o.

Lemma logs_carry_trace_witness :
  let '(s, _, ctx, _) := outerStart in
  Info log s (Some (tMeta ctx)) "paid" [AString "order"; AInt 7] []
  = [mkRecord LevelInfo "paid" [("order", AInt 7); ("trace_id", AString "t1"); ("span_id", AString "s1")]].
Proof.
  destruct outerStart as [[[s o] ctx] sp] eqn:E. assert (sp = ("t1", "s1")) as -> by (vm_compute in E; congruence).
  exact (logs_carry_trace _ _ _ _ _ _ _ _ _ LevelInfo log "paid" [AString "order"; AInt 7] [] E eq_refl eq_refl ltac:(discriminate)).
Defined.

Lemma formatted_logs_spoilt_witness :
  let '(s, _, ctx, _) := outerStart in
  Infof log s (Some (tMeta ctx)) "paid %d" [AInt 7] []
  = Some [mkRecord LevelInfo "paid 7%!(EXTRA string=trace_id, string=t1, string=span_id, string=s1)" []].
Proof.
  destruct outerStart as [[[s o] ctx] sp] eqn:E. assert (sp = ("t1", "s1")) as -> by (vm_compute in E; congruence).
  exact (formatted_logs_spoilt _ _ _ _ _ _ _ _ _ LevelInfo log "paid %d" "paid 7" [AInt 7] [] E eq_refl eq_refl eq_refl ltac:(discriminate)).
Defined.

Lemma inner_span_in_outer_logs_witness :
  let '(_, _, ctx, _) := outerStart in let '(s, _, _, _) := innerStart in
  appendTraceArgs s (Some (tMeta ctx)) [] = [AString "trace_id"; AString "t1"; AString "span_id"; AString "s2"].
Proof.
  unfold innerStart. destruct outerStart as [[[s1 o1] ctx1] outer] eqn:E1. destruct (Start ctx1 "inner" [] s1 o1) as [[[s2 o2] ctx2] inner] eqn:E2.
  assert (inner = ("t1", "s2")) as ->.
  { vm_compute in E1. injection E1 as <- <- <- <-. vm_compute in E2. congruence. }
  assert (IsValid outer = true) as Hv by (vm_compute in E1; injection E1 as <- <- <- <-; reflexivity).
  exact (inner_span_in_outer_logs noCtx ctx1 ctx2 "outer" "inner" _ _ demoState s1 s2 1%nat o1 o2 outer ("t1", "s2") [] E1 Hv E2 eq_refl).
Defined.

(** An argument too many makes the ids of the trace keys and values of one another. *)
Example odd_argument_shifts_ids :
  let '(s, _, ctx, _) := outerStart in
  map attrs (Info log s (Some (tMeta ctx)) "paid" [AString "order"] [])
  = [[("order", AString "trace_id"); ("t1", AString "span_id"); ("!BADKEY", AString "s1")]].
Proof. vm_compute. reflexivity. Qed.

(** Without a tracer the ids of the logs are what the client says they are: the metadata
    of a request reads its headers. *)
Example forged_trace_id :
  let header := fun (h : gmap string (list string)) (k : string) => headerGet h k in
  let s := mkStore {[1%positive := mkMetadata (Some header) None ∅]} ({["Trace_id" := ["forged"]]} : gmap string (list string)) in
  map attrs (Info log s (Some (Some 1%positive)) "paid" [] []) = [[("trace_id", AString "forged")]].
Proof. vm_compute. reflexivity. Qed.
