(* ===== verification/AdminHttp.v ===== *)
(** [admin/pb/*_http.pb.go]: the routes of the administration services and the wrapper
    between a route and its RPC. *)

From Stdlib Require Import ZArith Lia String Ascii List Bool.
From stdpp Require Import base tactics list gmap strings pretty.
From S2P Require Import Prelude GoStrings Errs Metadata Middleware JwtAuth HttpCore HttpServer PermissionChecker Derive.

Local Open Scope string_scope.
Local Open Scope list_scope.

(** ** Routes *)

(** The wrapped RPCs. *)
Inductive rpc : Type :=
| AuthLogin | AuthRefreshToken | AuthLogout
| MenuTree | MenuListAll | MenuOptions | MenuBreadcrumb
| PermissionListCatalog | PermissionListPermissions
| RoleRolePermissions | RoleReplaceRolePermissions | RoleListRoleOptions | RoleRoleMenus
| TenantListTenantOptions | TenantTenant
| UserProfile | UserUpdateProfile | UserChangePassword | UserResetPassword | UserSetAvatarByURL
| UserListVisibleMenus | UserListPermissionCodes.

#[export] Instance rpc_eq_dec : EqDecision rpc.
Proof. solve_decision. Defined.

Record Route : Type := mkRoute { rtMethod : string; rtPath : string; rtHandler : rpc }.

Definition RegisterAuthServiceRouter : list Route :=
  [ mkRoute "POST" "/auth/login" AuthLogin
  ; mkRoute "POST" "/auth/refresh-token" AuthRefreshToken
  ; mkRoute "POST" "/auth/logout" AuthLogout ].
Definition RegisterMenuServiceRouter : list Route :=
  [ mkRoute "GET" "/menu/tree" MenuTree
  ; mkRoute "GET" "/menu/all" MenuListAll
  ; mkRoute "GET" "/menu/options" MenuOptions
  ; mkRoute "GET" "/menu/breadcrumb" MenuBreadcrumb ].
Definition RegisterPermissionServiceRouter : list Route :=
  [ mkRoute "GET" "/permission/catalog" PermissionListCatalog
  ; mkRoute "GET" "/permission/list" PermissionListPermissions ].
Definition RegisterRoleServiceRouter : list Route :=
  [ mkRoute "GET" "/role/permissions" RoleRolePermissions
  ; mkRoute "PUT" "/role/permissions" RoleReplaceRolePermissions
  ; mkRoute "GET" "/role/options" RoleListRoleOptions
  ; mkRoute "GET" "/role/menus" RoleRoleMenus ].
Definition RegisterTenantServiceRouter : list Route :=
  [ mkRoute "GET" "/tenant/options" TenantListTenantOptions
  ; mkRoute "GET" "/tenant/detail" TenantTenant ].
Definition RegisterUserServiceRouter : list Route :=
  [ mkRoute "GET" "/user/profile" UserProfile
  ; mkRoute "PATCH" "/user/profile" UserUpdateProfile
  ; mkRoute "POST" "/user/change-password" UserChangePassword
  ; mkRoute "POST" "/user/reset-password" UserResetPassword
  ; mkRoute "POST" "/user/set-avatar" UserSetAvatarByURL
  ; mkRoute "GET" "/user/menus" UserListVisibleMenus
  ; mkRoute "GET" "/user/permissions" UserListPermissionCodes ].

Definition adminRoutes : list Route :=
  RegisterAuthServiceRouter ++ RegisterMenuServiceRouter ++ RegisterPermissionServiceRouter ++ RegisterRoleServiceRouter
  ++ RegisterTenantServiceRouter ++ RegisterUserServiceRouter.

(** The code the checker looks for. *)
Definition routeCode (r : Route) : string := rtMethod r +:+ " " +:+ rtPath r.

(** ** What rules a route *)

(** The token gate's allowlist of the example server. *)
Definition mockAllow : list string := ["/auth/login"; "/auth/refresh-token"; "/auth/logout"; "/health"; "/ready"].

Definition passesGate (allow : list string) (r : Route) : bool := isAllowed (rtPath r) allow.
Definition selfService (r : Route) : bool := pathMatch (map toAllow defaultCheckerAllowlist) (rtMethod r) (rtPath r).
Definition catalogued (r : Route) : bool :=
  existsb (fun c => String.eqb (fst (fst c)) (routeCode r)) endpointPermissionCodes.

(** What a signed-in user does with the own account and session. *)
Definition ownSession : list rpc :=
  [UserProfile; UserUpdateProfile; UserChangePassword; UserSetAvatarByURL; UserListVisibleMenus; UserListPermissionCodes;
   MenuTree; MenuBreadcrumb].
(** Catalogued routes of other handlers. *)
Definition genericEndpoints : list string :=
  ["GET /rest/model-types/:module/:table"; "GET /rest/model-tiers/:module/:table"; "GET /schema/:module/:table"; "GET /dashboard/overview"].

(** What is decided of the route tables by running through them. *)
Lemma routes_ruled :
  (forall r, In r adminRoutes ->
     (passesGate mockAllow r = true <-> rtHandler r ∈ [AuthLogin; AuthRefreshToken; AuthLogout])
     /\ (passesGate mockAllow r = false -> selfService r = true \/ catalogued r = true)
     /\ (selfService r = true -> rtHandler r ∈ ownSession))
  /\ NoDup (map routeCode adminRoutes)
  /\ (forall c, In c endpointPermissionCodes ->
        fst (fst c) ∈ map routeCode adminRoutes \/ fst (fst c) ∈ genericEndpoints).
Proof.
  split; [|split].
  - intros r Hr.
    assert (forallb (fun r => Bool.eqb (passesGate mockAllow r) (bool_decide (rtHandler r ∈ [AuthLogin; AuthRefreshToken; AuthLogout]))
              && (passesGate mockAllow r || selfService r || catalogued r)
              && (negb (selfService r) || bool_decide (rtHandler r ∈ ownSession))) adminRoutes = true) as Hall by (by vm_compute).
    rewrite forallb_forall in Hall. specialize (Hall r Hr). rewrite !andb_true_iff, !orb_true_iff in Hall.
    destruct Hall as [[Hg%Bool.eqb_prop Hc] Hs]. split; [by rewrite Hg, bool_decide_eq_true|]. split.
    + intros Hn. rewrite Hn in Hc. destruct Hc as [[Hc|Hc]|Hc]; auto. done.
    + intros Hn. rewrite Hn in Hs. destruct Hs as [Hs|Hs]; [done|]. by apply bool_decide_eq_true in Hs.
  - apply (proj1 (bool_decide_eq_true _)). by vm_compute.
  - intros c Hc.
    assert (forallb (fun c => bool_decide (fst (fst c) ∈ map routeCode adminRoutes) || bool_decide (fst (fst c) ∈ genericEndpoints))
              endpointPermissionCodes = true) as Hall by (by vm_compute).
    rewrite forallb_forall in Hall. specialize (Hall c Hc). by rewrite orb_true_iff, !bool_decide_eq_true in Hall.
Qed.

(** Without the session routes on the gate's list, as in the examples of the comments,
    a logout reaches the checker, which has no rule for it. *)
Example logout_needs_the_gate :
  let logout := mkRoute "POST" "/auth/logout" AuthLogout in
  passesGate ["/auth/login"; "/auth/refresh-token"] logout = false /\ selfService logout = false /\ catalogued logout = false.
Proof. by vm_compute. Qed.

(** Three catalogued routes are self-service as well: granting or revoking their codes
    changes nothing. *)
Example idle_codes :
  map routeCode (List.filter (fun r => selfService r && catalogued r) adminRoutes) = ["GET /menu/tree"; "GET /menu/breadcrumb"].
Proof. by vm_compute. Qed.

(** ** The wrapper of an RPC *)

Section Wrap.

Context {Claims D Env V Res : Type} {H : GinHost Claims D Env} {L : GinLaws H}.
Notation State := (HttpCore.State Claims Env).

(** [Context.Bind] of the request's message ([Ok zero] where the message is [Empty] and
    the wrapper does not bind), the service behind the route, and its result as data. *)
Variable bind : State -> V -> result error V.
Variable zero : V.
Variable call : GoContext Claims -> V -> Env -> Env * result error Res.
Variable toData : Res -> D.

(** The code and message of a failed RPC: the wrapper asks for the dynamic type of the
    error and does not look into what it wraps. *)
Definition rpcError (err : error) : Z * string :=
  match asError1 err with
  | Some er => (Code er, Message er)
  | None => (CodeUnavailable, errText err)
  end.

Definition wrapHttp : HandleFunc (Claims := Claims) (Env := Env) :=
  fun s =>
    match bind s zero with
    | Err err => (ctxError CodeInvalid (errText err) s, Handled None)
    | Ok req =>
        let '(e, r) := call (gCtx (world s)) req (env s) in
        let s := onWorldEnv (fun _ => e) s in
        match r with
        | Err err => let '(code, message) := rpcError err in (ctxError code message s, Handled None)
        | Ok res => (ctxSuccess (toData res) s, Handled None)
        end
    end.

(** The envelope of an RPC. *)
Definition rpcEnvelope (s : State) : Response.Envelope D :=
  match bind s zero with
  | Err err => Response.New CodeInvalid (errText err) None
  | Ok req => match snd (call (gCtx (world s)) req (env s)) with
              | Err err => Response.New (fst (rpcError err)) (snd (rpcError err)) None
              | Ok res => Response.New 0 EmptyString (Some (toData res))
              end
  end.

Lemma wrapHttp_spec (s : State) :
  exists s', wrapHttp s = (s', Handled None) /\ writer s' = renderJSON 200 (rpcEnvelope s) (writer s)
    /\ gErrors (world s') = gErrors (world s).
Proof.
  unfold wrapHttp, rpcEnvelope. destruct (bind s zero) as [req|err]; [|eexists; by split].
  destruct (call _ _ _) as [e [res|err]]; cbn [snd]; [eexists; by split|]. destruct (rpcError err). eexists. by split.
Qed.

(** An error that wraps one of the application loses its code, and its whole text, with
    that of what it wraps, is the message: unlike the interceptor's answer to the same
    error. *)
Lemma rpcError_leaks (what : string) (e : error) :
  rpcError (EWrap (what +:+ ": " +:+ errText e) [e]) = (CodeUnavailable, what +:+ ": " +:+ errText e).
Proof. reflexivity. Qed.

Variable tracer : option (Tracer (Env := Env)).
Variable metrics : option (Recorder (Env := Env)).
Variable Errorf : string -> Env -> Env.
Variable Now : Env -> Z.
Variable newUUID : Env -> string * Env.
Variable middlewares : list (Middleware (Claims := Claims) (World := Gin Claims Env)).

(** An administration RPC over HTTP, from the engine to the response: when the
    middlewares hand the request on, the client gets exactly one JSON envelope, always
    with status 200, whatever the service answers: the result with code 0, a refused
    body with code 1001, the service's error with its code and message.  The service
    sees the context the middlewares made. *)
Theorem rpc_response (s s0 s1 sIn : State) (ctx ctx1 : GoContext Claims) (r : option error) :
  halted s = false ->
  prepare newUUID (gCtx (world s)) (startSpan tracer (gCtx (world s)) s) = (s0, ctx) ->
  Chain middlewares (nextHandler (serve [recoveryInterceptor Errorf; register wrapHttp])) ctx s0 = (s1, r) ->
  nextHandler (serve [recoveryInterceptor Errorf; register wrapHttp]) ctx1 sIn = (s1, r) ->
  halted sIn = false -> gErrors (world sIn) = [] ->
  let '(s', o) := serve (requestHandlers tracer metrics Errorf Now newUUID middlewares [] (register wrapHttp)) s in
  o = Returns /\ r = None
  /\ writer s' = renderJSON 200 (rpcEnvelope (onGin (setCtx ctx1) sIn)) (writer sIn).
Proof.
  intros Hs Hp Hc Hn Hin He. destruct (wrapHttp_spec (onGin (setCtx ctx1) sIn)) as (s2 & Hw & Hwr & Herr).
  pose proof (handled_request tracer metrics Errorf Now newUUID middlewares wrapHttp s s0 s1 sIn s2 ctx ctx1 r (Handled None)
                Hs Hp Hc Hn Hin Hw) as Hreq.
  pose proof (next_register Errorf wrapHttp ctx1 sIn s2 (Handled None) Hin Hw) as Hreg. rewrite Hn in Hreg.
  destruct Hreg as (_ & _ & Hr).
  change (gErrors (world (onGin (setCtx ctx1) sIn))) with (gErrors (world sIn)) in Herr. rewrite Herr, He in Hr. cbn in Hr.
  destruct (serve _ s) as [s' o]. destruct Hreq as (Ho & _ & Hws). split; [done|]. split; [done|]. rewrite Hws, Herr, He. cbn. exact Hwr.
Qed.

End Wrap.

(** A service that refuses, and the request of a signed-in caller without middlewares. *)
Definition refusing (ctx : GoContext string) (v : string) (e : list string) : list string * result error string :=
  (e ++ ["called with " +:+ v], Err (ESentinel (SErrs ErrNotFound))).
Definition demoWrap : HandleFunc (Claims := string) (Env := list string) :=
  wrapHttp (H := demoHost) (fun _ _ => Ok "u1") EmptyString refusing (fun d => d).

Lemma rpc_response_witness :
  let s := demoGin "/user/profile" "x" in
  halted s = false
  /\ let '(s', o) := serve (GinHost := demoHost) (demoHandlers [] (register demoWrap)) s in
     o = Returns /\ Response.headersWritten (writer s') = [200%Z] /\ Response.body (writer s') = "4004 not found".
Proof.
  intros s. split; [reflexivity|].
  pose (p := demoPrepare s).
  pose (r := nextHandler (serve (GinHost := demoHost) [recoveryInterceptor (H := demoHost) (fun t e => e ++ [t]); register demoWrap]) (snd p) (fst p)).
  pose proof (rpc_response (H := demoHost) (L := demoLaws) (fun _ _ => Ok "u1") EmptyString refusing (fun d => d) None None
                (fun t e => e ++ [t]) (fun _ => 0%Z) (fun e => ("id-1", e)) [] s (fst p) (fst r) (fst p) (snd p) (snd p) (snd r)
                eq_refl (surjective_pairing p) (surjective_pairing r) (surjective_pairing r) eq_refl eq_refl) as Hr.
  unfold demoHandlers. unfold demoWrap at 1. destruct (serve _ s) as [s' o]. destruct Hr as (Ho & _ & Hw).
  split; [exact Ho|]. rewrite Hw. split; reflexivity.
Defined.
