(* ===== verification/AdminApi.v ===== *)
(** The administration API as one server: the services of [admin/pb/*_http.pb.go] behind
    their wrappers and routes, with the rate limit and the token gate of
    [middleware/auth] and the permission checker of [admin/permission.go] in front of
    them, as [admin/cmd/mock/service.go] wires them. *)

From Stdlib Require Import ZArith Lia String Ascii List Bool.
From stdpp Require Import base tactics list gmap strings.
From S2P Require Import Prelude GoStrings Errs Metadata Middleware JwtAuth RateLimit HttpCore HttpServer HttpGate Cache DbCache AdminClaims PermissionChecker Derive AdminHttp.

Local Open Scope string_scope.
Local Open Scope list_scope.
Local Open Scope Z_scope.

(** What a request can change besides the response: the caches of the permission
    checker, and the rest (database, token store, logs, spans). *)
Record ApiEnv (C W : Type) : Type := mkEnv { caches : backends (C := C); rest : W }.
Arguments mkEnv {C W} _ _.
Arguments caches {C W} _.
Arguments rest {C W} _.

(** The messages of an RPC: the zero value of its request, what [Context.Bind] makes of
    it, and its result as the data of an envelope. *)
Class Wire (Claims D Env : Type) : Type := {
  Req : rpc -> Type;
  Res : rpc -> Type;
  zeroReq : forall r, Req r;
  bindReq : forall r, HttpCore.State Claims Env -> Req r -> result error (Req r);
  toData : forall r, Res r -> D;
}.

(** ** The services and their wrappers *)

Section Services.

Context {Claims D Env : Type} {H : GinHost Claims D Env} {M : Wire Claims D Env}.

Definition RPC (r : rpc) : Type := GoContext Claims -> Req r -> Env -> Env * result error (Res r).

Record AuthServiceHttpServer : Type := mkAuthService {
  AuthService_Login : RPC AuthLogin;
  AuthService_RefreshToken : RPC AuthRefreshToken;
  AuthService_Logout : RPC AuthLogout;
}.
Record MenuServiceHttpServer : Type := mkMenuService {
  MenuService_MenuTree : RPC MenuTree;
  MenuService_MenuListAll : RPC MenuListAll;
  MenuService_MenuOptions : RPC MenuOptions;
  MenuService_MenuBreadcrumb : RPC MenuBreadcrumb;
}.
Record PermissionServiceHttpServer : Type := mkPermissionService {
  PermissionService_ListCatalog : RPC PermissionListCatalog;
  PermissionService_ListPermissions : RPC PermissionListPermissions;
}.
Record RoleServiceHttpServer : Type := mkRoleService {
  RoleService_RolePermissions : RPC RoleRolePermissions;
  RoleService_ReplaceRolePermissions : RPC RoleReplaceRolePermissions;
  RoleService_ListRoleOptions : RPC RoleListRoleOptions;
  RoleService_RoleMenus : RPC RoleRoleMenus;
}.
Record TenantServiceHttpServer : Type := mkTenantService {
  TenantService_ListTenantOptions : RPC TenantListTenantOptions;
  TenantService_Tenant : RPC TenantTenant;
}.
Record UserServiceHttpServer : Type := mkUserService {
  UserService_Profile : RPC UserProfile;
  UserService_UpdateProfile : RPC UserUpdateProfile;
  UserService_ChangePassword : RPC UserChangePassword;
  UserService_ResetPassword : RPC UserResetPassword;
  UserService_SetAvatarByURL : RPC UserSetAvatarByURL;
  UserService_ListVisibleMenus : RPC UserListVisibleMenus;
  UserService_ListPermissionCodes : RPC UserListPermissionCodes;
}.

(** A wrapper whose message is [Empty] does not bind. *)
Definition unbound {V : Type} (s : HttpCore.State Claims Env) (v : V) : result error V := Ok v.

Notation Handle := (HandleFunc (Claims := Claims) (Env := Env)).

Definition wrapHttpAuthServiceLogin (server : AuthServiceHttpServer) : Handle :=
  wrapHttp (bindReq AuthLogin) (zeroReq AuthLogin) (AuthService_Login server) (toData AuthLogin).
Definition wrapHttpAuthServiceRefreshToken (server : AuthServiceHttpServer) : Handle :=
  wrapHttp (bindReq AuthRefreshToken) (zeroReq AuthRefreshToken) (AuthService_RefreshToken server) (toData AuthRefreshToken).
Definition wrapHttpAuthServiceLogout (server : AuthServiceHttpServer) : Handle :=
  wrapHttp (bindReq AuthLogout) (zeroReq AuthLogout) (AuthService_Logout server) (toData AuthLogout).

Definition wrapHttpMenuServiceMenuTree (server : MenuServiceHttpServer) : Handle :=
  wrapHttp unbound (zeroReq MenuTree) (MenuService_MenuTree server) (toData MenuTree).
Definition wrapHttpMenuServiceMenuListAll (server : MenuServiceHttpServer) : Handle :=
  wrapHttp unbound (zeroReq MenuListAll) (MenuService_MenuListAll server) (toData MenuListAll).
Definition wrapHttpMenuServiceMenuOptions (server : MenuServiceHttpServer) : Handle :=
  wrapHttp unbound (zeroReq MenuOptions) (MenuService_MenuOptions server) (toData MenuOptions).
Definition wrapHttpMenuServiceMenuBreadcrumb (server : MenuServiceHttpServer) : Handle :=
  wrapHttp (bindReq MenuBreadcrumb) (zeroReq MenuBreadcrumb) (MenuService_MenuBreadcrumb server) (toData MenuBreadcrumb).

Definition wrapHttpPermissionServiceListCatalog (server : PermissionServiceHttpServer) : Handle :=
  wrapHttp (bindReq PermissionListCatalog) (zeroReq PermissionListCatalog) (PermissionService_ListCatalog server) (toData PermissionListCatalog).
Definition wrapHttpPermissionServiceListPermissions (server : PermissionServiceHttpServer) : Handle :=
  wrapHttp (bindReq PermissionListPermissions) (zeroReq PermissionListPermissions) (PermissionService_ListPermissions server) (toData PermissionListPermissions).

Definition wrapHttpRoleServiceRolePermissions (server : RoleServiceHttpServer) : Handle :=
  wrapHttp (bindReq RoleRolePermissions) (zeroReq RoleRolePermissions) (RoleService_RolePermissions server) (toData RoleRolePermissions).
Definition wrapHttpRoleServiceReplaceRolePermissions (server : RoleServiceHttpServer) : Handle :=
  wrapHttp (bindReq RoleReplaceRolePermissions) (zeroReq RoleReplaceRolePermissions) (RoleService_ReplaceRolePermissions server) (toData RoleReplaceRolePermissions).
Definition wrapHttpRoleServiceListRoleOptions (server : RoleServiceHttpServer) : Handle :=
  wrapHttp unbound (zeroReq RoleListRoleOptions) (RoleService_ListRoleOptions server) (toData RoleListRoleOptions).
Definition wrapHttpRoleServiceRoleMenus (server : RoleServiceHttpServer) : Handle :=
  wrapHttp (bindReq RoleRoleMenus) (zeroReq RoleRoleMenus) (RoleService_RoleMenus server) (toData RoleRoleMenus).

Definition wrapHttpTenantServiceListTenantOptions (server : TenantServiceHttpServer) : Handle :=
  wrapHttp unbound (zeroReq TenantListTenantOptions) (TenantService_ListTenantOptions server) (toData TenantListTenantOptions).
Definition wrapHttpTenantServiceTenant (server : TenantServiceHttpServer) : Handle :=
  wrapHttp (bindReq TenantTenant) (zeroReq TenantTenant) (TenantService_Tenant server) (toData TenantTenant).

Definition wrapHttpUserServiceProfile (server : UserServiceHttpServer) : Handle :=
  wrapHttp unbound (zeroReq UserProfile) (UserService_Profile server) (toData UserProfile).
Definition wrapHttpUserServiceUpdateProfile (server : UserServiceHttpServer) : Handle :=
  wrapHttp (bindReq UserUpdateProfile) (zeroReq UserUpdateProfile) (UserService_UpdateProfile server) (toData UserUpdateProfile).
Definition wrapHttpUserServiceChangePassword (server : UserServiceHttpServer) : Handle :=
  wrapHttp (bindReq UserChangePassword) (zeroReq UserChangePassword) (UserService_ChangePassword server) (toData UserChangePassword).
Definition wrapHttpUserServiceResetPassword (server : UserServiceHttpServer) : Handle :=
  wrapHttp (bindReq UserResetPassword) (zeroReq UserResetPassword) (UserService_ResetPassword server) (toData UserResetPassword).
Definition wrapHttpUserServiceSetAvatarByURL (server : UserServiceHttpServer) : Handle :=
  wrapHttp (bindReq UserSetAvatarByURL) (zeroReq UserSetAvatarByURL) (UserService_SetAvatarByURL server) (toData UserSetAvatarByURL).
Definition wrapHttpUserServiceListVisibleMenus (server : UserServiceHttpServer) : Handle :=
  wrapHttp unbound (zeroReq UserListVisibleMenus) (UserService_ListVisibleMenus server) (toData UserListVisibleMenus).
Definition wrapHttpUserServiceListPermissionCodes (server : UserServiceHttpServer) : Handle :=
  wrapHttp unbound (zeroReq UserListPermissionCodes) (UserService_ListPermissionCodes server) (toData UserListPermissionCodes).

(** All services of one server, and the handler of a route. *)
Record AdminServices : Type := mkServices {
  authService : AuthServiceHttpServer;
  menuService : MenuServiceHttpServer;
  permissionService : PermissionServiceHttpServer;
  roleService : RoleServiceHttpServer;
  tenantService : TenantServiceHttpServer;
  userService : UserServiceHttpServer;
}.

Definition handlerOf (srv : AdminServices) (r : rpc) : Handle :=
  match r with
  | AuthLogin => wrapHttpAuthServiceLogin (authService srv)
  | AuthRefreshToken => wrapHttpAuthServiceRefreshToken (authService srv)
  | AuthLogout => wrapHttpAuthServiceLogout (authService srv)
  | MenuTree => wrapHttpMenuServiceMenuTree (menuService srv)
  | MenuListAll => wrapHttpMenuServiceMenuListAll (menuService srv)
  | MenuOptions => wrapHttpMenuServiceMenuOptions (menuService srv)
  | MenuBreadcrumb => wrapHttpMenuServiceMenuBreadcrumb (menuService srv)
  | PermissionListCatalog => wrapHttpPermissionServiceListCatalog (permissionService srv)
  | PermissionListPermissions => wrapHttpPermissionServiceListPermissions (permissionService srv)
  | RoleRolePermissions => wrapHttpRoleServiceRolePermissions (roleService srv)
  | RoleReplaceRolePermissions => wrapHttpRoleServiceReplaceRolePermissions (roleService srv)
  | RoleListRoleOptions => wrapHttpRoleServiceListRoleOptions (roleService srv)
  | RoleRoleMenus => wrapHttpRoleServiceRoleMenus (roleService srv)
  | TenantListTenantOptions => wrapHttpTenantServiceListTenantOptions (tenantService srv)
  | TenantTenant => wrapHttpTenantServiceTenant (tenantService srv)
  | UserProfile => wrapHttpUserServiceProfile (userService srv)
  | UserUpdateProfile => wrapHttpUserServiceUpdateProfile (userService srv)
  | UserChangePassword => wrapHttpUserServiceChangePassword (userService srv)
  | UserResetPassword => wrapHttpUserServiceResetPassword (userService srv)
  | UserSetAvatarByURL => wrapHttpUserServiceSetAvatarByURL (userService srv)
  | UserListVisibleMenus => wrapHttpUserServiceListVisibleMenus (userService srv)
  | UserListPermissionCodes => wrapHttpUserServiceListPermissionCodes (userService srv)
  end.

End Services.

(** ** The server *)

Section Api.

Context {D W C Kind : Type}.
Context {HC : Cache (cacheEntry (gset string)) C} {HCL : LawfulCache (cacheEntry (gset string)) C}.
Notation Env := (ApiEnv C W).
Notation State := (HttpCore.State AnyClaims Env).
Context {HG : GinHost AnyClaims D Env} {HL : GinLaws HG} {M : Wire AnyClaims D Env}.

(** What else the server is configured with acts on the rest of the world only. *)
Definition onRest (f : W -> W) (e : Env) : Env := mkEnv (caches e) (f (rest e)).

Variable tracer : option (Tracer (Env := W)).
Variable metrics : option (Recorder (Env := W)).
Variable Errorf : string -> W -> W.
Variable Now : W -> Z.
Variable newUUID : W -> string * W.

Definition apiTracer (t : Tracer (Env := W)) : Tracer (Env := Env) :=
  mkTracer (fun n => onRest (spanStart t n)) (fun e => onRest (spanSetError t e)) (onRest (spanEnd t)).
Definition apiRecorder (m : Recorder (Env := W)) : Recorder (Env := Env) :=
  mkRecorder (fun a b c d => onRest (RecordRequestDuration m a b c d)) (fun a b c => onRest (RecordRequestTotal m a b c)).
Definition apiUUID (e : Env) : string * Env := let '(id, w) := newUUID (rest e) in (id, mkEnv (caches e) w).

(** *** The gate *)

Variable implementsClaims : Kind -> bool.
Variable ParseWithClaims : Kind -> string -> parsed (Claims := AnyClaims).
Variable Parse : string -> parsed (Claims := AnyClaims).
Variable kind : Kind.

(** The revocation validator over the token store, when the server has one: the
    documentation installs it, the example server does not. *)
Variable validateToken : option (GoContext AnyClaims -> string -> W -> W * option error).
Definition revocation (v : GoContext AnyClaims -> string -> W -> W * option error) (ctx : GoContext AnyClaims) (s : State) (token : string) :
    State * option error :=
  let '(w, e) := v ctx token (rest (env s)) in (onWorldEnv (onRest (fun _ => w)) s, e).

Context {DB : Type}.
Variable pluckCatalog : DB -> result error (list string).
Variable pluckGrants : string -> string -> DB -> result error (list string).
Variable catalogVersion grantsVersion : DB -> result error string.
Variable db : Z -> DB.
Variables ts1 ts2 : times.

(** [admin.NewPermissionChecker(db, admin.WithCheckerCache(sharedCache))] *)
Definition checkerCfg : checkerConfig := newConfig [WithCheckerCache].

Definition checker (ctx : GoContext AnyClaims) (s : State) (claims : AnyClaims) : State * option error :=
  let '(b, e) := PermissionChecker pluckCatalog pluckGrants catalogVersion grantsVersion checkerCfg db ts1 ts2 ctx s claims (caches (env s)) in
  (onWorldEnv (fun e => mkEnv b (rest e)) s, e).

Definition gateOptions : JwtAuth.options :=
  fold_left (fun o f => f o)
    ([WithClaims kind; WithPermissionChecker checker; WithAllow mockAllow]
     ++ match validateToken with Some v => [WithValidate (revocation v)] | None => [] end) noOptions.

(** The rate limit of the login, over any limiter. *)
Context {LIM : Limiter (World := Gin AnyClaims Env)}.
Variable mapClaims : AnyClaims -> option (string -> option string).
Variable durationString : Z -> string.
Definition loginLimit : RateLimitOpts := mkOpts "/auth/login" ["login:ip:{ip}"] 5.

Definition adminMiddlewares : list Middleware :=
  [RateLimit mapClaims durationString loginLimit; JWT implementsClaims ParseWithClaims Parse gateOptions].

(** A request for one of the routes of the API. *)
Definition answer (srv : AdminServices) (r : Route) (s : State) : State * outcome :=
  serve (requestHandlers (apiTracer <$> tracer) (apiRecorder <$> metrics) (fun t => onRest (Errorf t)) (fun e => Now (rest e)) apiUUID
           adminMiddlewares [] (register (handlerOf srv (rtHandler r)))) s.

Definition addressed (r : Route) (s : State) : Prop :=
  In r adminRoutes /\ gMethod (world s) = rtMethod r /\ gFullPath (world s) = rtPath r.
(** As the engine hands it to the first handler. *)
Definition fresh (s : State) : Prop :=
  halted s = false /\ Written (writer s) = false /\ ctxMeta (gCtx (world s)) = None.

Definition tokenOf (s : State) : string := bearerToken (headerGet (gReqHeader (world s)) authorizationKey).

(** *** What the middlewares see *)

Lemma gateOptions_fields :
  allows gateOptions = mockAllow /\ validate gateOptions = revocation <$> validateToken /\ permissionChecker gateOptions = Some checker.
Proof. unfold gateOptions. by destruct validateToken. Qed.

Lemma caches_startSpan (ctx : GoContext AnyClaims) (s : State) : caches (env (startSpan (apiTracer <$> tracer) ctx s)) = caches (env s).
Proof.
  unfold startSpan. destruct tracer as [t|]; [|done]. cbn [fmap option_fmap option_map].
  unfold Metadata.FromContext, alloc. by destruct (ctxMeta ctx).
Qed.

Lemma caches_apiUUID (e : Env) : caches (snd (apiUUID e)) = caches e.
Proof. unfold apiUUID. by destruct (newUUID (rest e)). Qed.

(** The request as the interceptor hands it to the gate. *)
Lemma gate_sees (r : Route) (s : State) :
  addressed r s -> fresh s ->
  exists s0 ctx,
    prepare apiUUID (gCtx (world s)) (startSpan (apiTracer <$> tracer) (gCtx (world s)) s) = (s0, ctx)
    /\ Get s0 (ctxMeta ctx) RequestProtocol = (httpProtocol, true)
    /\ Get s0 (ctxMeta ctx) RequestPath = (rtPath r, true)
    /\ Get s0 (ctxMeta ctx) RequestRoute = (rtPath r, true)
    /\ Get s0 (ctxMeta ctx) RequestMethod = (rtMethod r, true)
    /\ fst (Get s0 (ctxMeta ctx) authorizationKey) = headerGet (gReqHeader (world s)) authorizationKey
    /\ writer s0 = writer s /\ caches (env s0) = caches (env s)
    /\ forall f k, Get (onWorldEnv f s0) (ctxMeta ctx) k = Get s0 (ctxMeta ctx) k.
Proof.
  intros (Hr & Hm & Hp) (_ & _ & Hc).
  destruct (startSpan_world (apiTracer <$> tracer) (gCtx (world s)) s) as [f Hf]. pose proof (caches_startSpan (gCtx (world s)) s) as Hcs.
  set (ss := startSpan _ _ s) in *. pose proof (prepare_Get apiUUID (gCtx (world s)) ss Hc) as Hprep.
  destruct (prepare apiUUID (gCtx (world s)) ss) as [s0 ctx]. destruct Hprep as (_ & [Hw _] & Hget & Hsteady & Henv).
  exists s0, ctx. split; [done|].
  assert (rtPath r <> EmptyString) as Hne.
  { assert (forallb (fun r => negb (String.eqb (rtPath r) EmptyString)) adminRoutes = true) as Ha by reflexivity.
    rewrite forallb_forall in Ha. specialize (Ha r Hr). by apply negb_true_iff, String.eqb_neq in Ha. }
  rewrite !Hget. unfold preparedValue. rewrite Hf. cbn [gMethod gFullPath gPath gReqHeader gEnv onEnv]. rewrite Hm, Hp.
  rewrite (proj2 (String.eqb_neq _ _) Hne). do 4 (split; [reflexivity|]). split.
  - rewrite !decide_False by done. rewrite headerGet_headerSet, decide_False by done.
    assert (headerGet (gReqHeader (world s)) (canonicalMetadataKey authorizationKey) = headerGet (gReqHeader (world s)) authorizationKey) as ->
      by (unfold headerGet; by rewrite CanonicalHeaderKey_lower).
    by destruct (String.eqb_spec (headerGet (gReqHeader (world s)) authorizationKey) EmptyString) as [->|].
  - split; [rewrite Hw; unfold writer; by rewrite Hf|]. split; [|exact Hsteady].
    destruct Henv as [-> | ->]; [done|]. by rewrite caches_apiUUID.
Qed.

(** The self-service routes are those of the own session, and no route of the API is one
    of the infrastructure. *)
Lemma route_ruled (r : Route) :
  In r adminRoutes ->
  isInfrastructurePath (rtPath r) = false
  /\ (isAllowed (rtPath r) ["/auth/login"] = true -> rtHandler r ∈ [AuthLogin; AuthRefreshToken; AuthLogout])
  /\ (isAllowed (rtPath r) mockAllow = true -> rtHandler r ∈ [AuthLogin; AuthRefreshToken; AuthLogout])
  /\ (pathMatch (allowlist checkerCfg) (rtMethod r) (rtPath r) = true -> rtHandler r ∈ ownSession).
Proof.
  intros Hr. split.
  - assert (forallb (fun r => negb (isInfrastructurePath (rtPath r))) adminRoutes = true) as Ha by (by vm_compute).
    rewrite forallb_forall in Ha. specialize (Ha r Hr). by apply negb_true_iff in Ha.
  - destruct (proj1 routes_ruled r Hr) as (_ & _ & Hs).
    assert (forallb (fun r => (negb (isAllowed (rtPath r) ["/auth/login"]) && negb (isAllowed (rtPath r) mockAllow))
              || bool_decide (rtHandler r ∈ [AuthLogin; AuthRefreshToken; AuthLogout])) adminRoutes = true) as Ha by (by vm_compute).
    rewrite forallb_forall in Ha. specialize (Ha r Hr). apply orb_true_iff in Ha as [[Ha1 Ha2]%andb_true_iff|Ha%bool_decide_eq_true]; [|done].
    apply negb_true_iff in Ha1, Ha2. split; [congruence|]. split; [congruence|exact Hs].
Qed.

(** *** The gate *)

(** The tables the checker's caches follow, and its two readings of them. *)
Variable lag : Z.
Hypothesis readings : times_ok lag ts1 /\ times_ok lag ts2 /\ tStore ts1 <= tCheck ts2.
(** Tokens are issued for roles whose keys follow the rule of [Role.Key]. *)
Hypothesis role_keys : forall t ti ac,
  parseToken implementsClaims ParseWithClaims Parse gateOptions t = POk ti -> TokenClaims ti = AdminClaims ac ->
  byte_free ":"%char (Role ac) = true.

(** The token of the request is good: the validator passes it, it parses, it is valid,
    and its claims are those of an account. *)
Definition signedIn (s : State) (ac : Claims) : Prop :=
  match validateToken with Some v => exists ctx w w', v ctx (tokenOf s) w = (w', None) | None => True end
  /\ exists ti, parseToken implementsClaims ParseWithClaims Parse gateOptions (tokenOf s) = POk ti
                /\ Valid ti = true /\ TokenClaims ti = AdminClaims ac.

(** The route was, within the staleness of the two caches (their time to live; a second
    where the marker of the table moves with every write), in the catalog and granted to
    the role of the account in its tenant. *)
Definition granted (r : Route) (ac : Claims) : Prop :=
  forall a1 a2, catalog_age pluckCatalog catalogVersion db a1 -> grants_age pluckGrants grantsVersion db a2 ->
  exists u1 u2 cat gr,
    (tCheck ts1 - a1 - lag <= u1 <= tStore ts1) /\ (tCheck ts2 - a2 - lag <= u2 <= tStore ts2)
    /\ pluckCatalog (db u1) = Ok cat /\ In (routeCode r) cat
    /\ pluckGrants (Role ac) (TenantID ac) (db u2) = Ok gr /\ In (routeCode r) gr.

(** The one envelope of an error. *)
Definition refusal (e : error) (w : Response.ResponseWriter) : Response.ResponseWriter :=
  let '(status, code, message, _) := errorReply e in
  fst (Response.Write Marshal connWrite w status (Some (Response.New code message None))).

(** The checker's verdict on a request for a route of the API. *)
Lemma checker_verdict (r : Route) (s0 : State) (ctx : GoContext AnyClaims) (claims : AnyClaims) :
  In r adminRoutes ->
  Get s0 (ctxMeta ctx) RequestProtocol = (httpProtocol, true) -> Get s0 (ctxMeta ctx) RequestPath = (rtPath r, true) ->
  Get s0 (ctxMeta ctx) RequestRoute = (rtPath r, true) -> Get s0 (ctxMeta ctx) RequestMethod = (rtMethod r, true) ->
  caches_ok pluckCatalog pluckGrants catalogVersion grantsVersion lag db (tCheck ts1) (caches (env s0)) ->
  (forall ac, claims = AdminClaims ac -> byte_free ":"%char (Role ac) = true) ->
  snd (checker ctx s0 claims) = None ->
  exists ac, claims = AdminClaims ac /\ (rtHandler r ∈ ownSession \/ granted r ac).
Proof.
  intros Hr Hproto Hpath Hroute Hmethod Hcaches Hkey. destruct readings as (Ht1 & Ht2 & Hle). unfold checker.
  destruct (PermissionChecker _ _ _ _ _ _ _ _ _ _ _ _) as [b e] eqn:Epc. cbn [snd]. intros ->.
  destruct (checker_passes pluckCatalog pluckGrants catalogVersion grantsVersion lag db
              checkerCfg ts1 ts2 ctx s0 claims (caches (env s0)) b Ht1 Ht2 Hle Hcaches Hkey) as (_ & ac & Hc & Hv);
    [by rewrite Hproto|exact Epc|].
  assert (requestRoute ctx s0 = rtPath r) as Hrr by (unfold requestRoute; by rewrite Hpath, Hroute).
  rewrite Hrr, Hmethod, Hpath in Hv. cbn [fst] in Hv. destruct (route_ruled r Hr) as (Hinf & _ & _ & Hself).
  exists ac. split; [done|]. destruct Hv as [Hv|[Hv|[Hv|[Hv _]]]]; [congruence|left; by apply Hself| |done].
  right. intros a1 a2 H1 H2. destruct (Hv a1 a2 H1 H2) as (u1 & u2 & cat & gr & Hv'). exists u1, u2, cat, gr. exact Hv'.
Qed.

(** The gate writes no response. *)
Lemma gate_silent (next : Handler) (ctx : GoContext AnyClaims) (s s1 : State) (e : error) :
  allowlisted gateOptions ctx s = false -> refused implementsClaims ParseWithClaims Parse gateOptions ctx s = true ->
  JWT implementsClaims ParseWithClaims Parse gateOptions next ctx s = (s1, Some e) -> writer s1 = writer s.
Proof.
  unfold JWT, refused. intros ->. destruct (Get s (ctxMeta ctx) authorizationKey) as [token ok].
  destruct gateOptions_fields as (_ & -> & ->). destruct ok; cbn [negb orb]; [|by intros _ [= <- _]].
  destruct (match revocation <$> validateToken with Some v => _ | None => _ end) as [s2 e2] eqn:Ev.
  assert (writer s2 = writer s) as <-.
  { destruct validateToken as [v|]; cbn in Ev; [|by injection Ev as <- _]. unfold revocation in Ev.
    destruct (v _ _ _) as [w e3]. by injection Ev as <- _. }
  destruct e2 as [e1|]; [by intros _ [= <- _]|].
  destruct (parseToken _ _ _ _ _) as [ti|e1 h]; [|by intros _ [= <- _]]. destruct (Valid ti); cbn [negb orb]; [|by intros _ [= <- _]].
  unfold checker. destruct (PermissionChecker _ _ _ _ _ _ _ _ _ _ _ _) as [b [e1|]]; [by intros _ [= <- _]|done].
Qed.

(** Behind the rate limit of the login, which lets every other route by. *)
Lemma limit_passes (r : Route) (next : Handler) (s0 : State) (ctx : GoContext AnyClaims) :
  Get s0 (ctxMeta ctx) RequestPath = (rtPath r, true) -> isAllowed (rtPath r) ["/auth/login"] = false ->
  Chain adminMiddlewares next ctx s0 = JWT implementsClaims ParseWithClaims Parse gateOptions next ctx s0.
Proof. intros Hpath Hl. unfold adminMiddlewares. rewrite Chain_fold. cbn [fold_right]. unfold RateLimit. rewrite Hpath. cbn [oPath loginLimit]. by rewrite Hl. Qed.

(** C17. No RPC of the administration API runs for a request that may not run it, in the
    wiring of the example server, with or without the revocation validator.  A request
    for one of the routes is for a session (login, refresh, logout); or it carries a
    token that parses and is valid, of an account, that the validator passes if there
    is one, and is for a route every account may use for itself or one that was granted
    to the account's role (whose key has no colon) in its tenant, at instants no older
    than the time to live of either cache of the checker and one reload, or than a second
    and one reload where the marker of the table moves with every write; or it gets
    exactly one envelope, that of the refusal, and the whole outcome is the same whatever
    the services would have done. *)
Theorem admin_api_gated (r : Route) (s : State) :
  addressed r s -> fresh s ->
  caches_ok pluckCatalog pluckGrants catalogVersion grantsVersion lag db (tCheck ts1) (caches (env s)) ->
  rtHandler r ∈ [AuthLogin; AuthRefreshToken; AuthLogout]
  \/ (exists ac, signedIn s ac /\ (rtHandler r ∈ ownSession \/ granted r ac))
  \/ (exists s' e, (forall srv, answer srv r s = (s', Returns)) /\ writer s' = refusal e (writer s)).
Proof.
  intros Ha Hf Hcaches. destruct (gate_sees r s Ha Hf) as (s0 & ctx & Hprep & Hproto & Hpath & Hroute & Hmethod & Htok & Hw0 & Hc0 & Hsteady).
  destruct (route_ruled r (proj1 Ha)) as (_ & Hlogin & Hsession & _). destruct gateOptions_fields as (Hal & Hval & Hchk).
  destruct (isAllowed (rtPath r) ["/auth/login"]) eqn:El; [left; auto|].
  destruct (allowlisted gateOptions ctx s0) eqn:Eal; [left; unfold allowlisted in Eal; rewrite Hal, Hpath in Eal; by apply Hsession|].
  right. destruct (refused implementsClaims ParseWithClaims Parse gateOptions ctx s0) eqn:Eref.
  - right. destruct (JWT_refused implementsClaims ParseWithClaims Parse gateOptions ctx s0 Eal Eref) as (s1 & e & Hj).
    pose proof (gate_silent (fun _ s => (s, None)) ctx s0 s1 e Eal Eref (Hj _)) as Hw1.
    destruct (refused_request (apiTracer <$> tracer) (apiRecorder <$> metrics) (fun t => onRest (Errorf t)) (fun e => Now (rest e)) apiUUID
                adminMiddlewares s s0 s1 ctx e (proj1 Hf) Hprep) as (s' & Hserve & Hw).
    + intros next. rewrite (limit_passes r) by done. exact (Hj next).
    + rewrite Hw1, Hw0. apply Hf.
    + exists s', e. split; [intros srv; apply Hserve|]. by rewrite Hw, Hw1, Hw0.
  - left. destruct (JWT_admitted _ _ _ _ _ _ Eref) as (s1 & ti & Hv & Hparse & Hvalid & Hperm).
    rewrite Htok in Hv, Hparse. fold (tokenOf s) in Hv, Hparse. rewrite Hval in Hv. rewrite Hchk in Hperm.
    assert (exists f, s1 = onWorldEnv (onRest f) s0 \/ s1 = s0) as (f & Hs1).
    { destruct validateToken as [v|]; cbn in Hv; [|injection Hv as <-; exists id; by right].
      unfold revocation in Hv. destruct (v _ _ _) as [w e3]. injection Hv as <- _. by eexists; left. }
    destruct (checker_verdict r s1 ctx (TokenClaims ti)) as (ac & Hac & Hgr);
      try (destruct Hs1 as [-> | ->]; by rewrite ?Hsteady).
    + apply Ha.
    + assert (caches (env s1) = caches (env s0)) as -> by (by destruct Hs1 as [-> | ->]). by rewrite Hc0.
    + intros ac Hac. by eapply role_keys.
    + exists ac. split; [|exact Hgr]. split; [|by exists ti].
      destruct validateToken as [v|]; [|done]. cbn in Hv. unfold revocation in Hv.
      destruct (v ctx (tokenOf s) (rest (env s0))) as [w e3] eqn:Ev. injection Hv as _ ->. by exists ctx, (rest (env s0)), w.
Qed.

End Api.

(** ** A concrete server *)

Definition DemoEnv : Type := ApiEnv (memCache (cacheEntry (gset string))) (list string).
Notation DemoState := (HttpCore.State AnyClaims DemoEnv).

#[export] Instance demoWire : Wire AnyClaims string DemoEnv := {|
  Req := fun _ => string; Res := fun _ => string; zeroReq := fun _ => "body"; bindReq := fun _ _ v => Ok v; toData := fun _ v => v;
|}.

(** Services that write down who called them. *)
Definition serving (name : string) (ctx : GoContext AnyClaims) (v : string) (e : DemoEnv) : DemoEnv * result error string :=
  (mkEnv (caches e) (rest e ++ [name]), Ok name).
Definition demoServices (tag : string) : AdminServices (Claims := AnyClaims) (D := string) (Env := DemoEnv) :=
  let f name := serving (tag +:+ name) in
  mkServices (mkAuthService (f "Login") (f "RefreshToken") (f "Logout"))
    (mkMenuService (f "MenuTree") (f "MenuListAll") (f "MenuOptions") (f "MenuBreadcrumb"))
    (mkPermissionService (f "ListCatalog") (f "ListPermissions"))
    (mkRoleService (f "RolePermissions") (f "ReplaceRolePermissions") (f "ListRoleOptions") (f "RoleMenus"))
    (mkTenantService (f "ListTenantOptions") (f "Tenant"))
    (mkUserService (f "Profile") (f "UpdateProfile") (f "ChangePassword") (f "ResetPassword") (f "SetAvatarByURL") (f "ListVisibleMenus")
       (f "ListPermissionCodes")).

Definition apiCatalog_ (_ : bool) : result error (list string) := Ok ["GET /role/menus"; "PUT /role/permissions"].
Definition apiGrants (role tenant : string) (granting : bool) : result error (list string) :=
  if granting && String.eqb role "editor" && String.eqb tenant "t1" then Ok ["GET /role/menus"] else Ok [].
Definition apiParse (_ : unit) (t : string) : parsed (Claims := AnyClaims) :=
  if String.eqb t "editor-token" then POk (mkToken true (AdminClaims editor)) else PErr (EPlain "bad token") false.
Definition unlimited : Limiter (World := Gin AnyClaims DemoEnv) := {| Allow := fun s _ => (s, (true, 0, None)) |}.

Definition apiRequest (method path token : string) : DemoState :=
  mkStore ∅ (mkGin method path path (headerSet ∅ "Authorization" ("Bearer " +:+ token)) (mkCtx None None) ∅ (Response.mkRW EmptyString [] EmptyString) []
    false (mkEnv emptyCaches [])).

Definition demoAnswer (tag : string) (r : Route) (token : string) : DemoState * outcome :=
  answer (HG := demoHost) None None (fun t e => e ++ [t]) (fun _ => 0) (fun e => ("id-1", e)) (fun _ => true) apiParse (apiParse tt) tt None
    apiCatalog_ apiGrants demoVersion demoGrantsVersion demoDb (at_ second) (at_ second) (LIM := unlimited) (fun _ => None) (fun _ => EmptyString)
    (demoServices tag) r (apiRequest (rtMethod r) (rtPath r) token).

(** An editor reads the menus of a role, which the role has been granted; may not write
    its permissions, which it has not; reads the own profile, which everybody may; and
    without a token gets nothing. *)
Example editor_requests :
  map (fun rt => Response.body (writer (fst (demoAnswer "" (fst rt) (snd rt)))))
    [(mkRoute "GET" "/role/menus" RoleRoleMenus, "editor-token"); (mkRoute "PUT" "/role/permissions" RoleReplaceRolePermissions, "editor-token");
     (mkRoute "GET" "/user/profile" UserProfile, "editor-token"); (mkRoute "GET" "/user/profile" UserProfile, EmptyString);
     (mkRoute "POST" "/auth/login" AuthLogin, EmptyString)]
  = ["0 RoleMenus"; "4003 permission denied"; "0 Profile"; "4003 permission denied"; "0 Login"].
Proof. by vm_compute. Qed.

(** The editor's write of the permissions of a role: one refusal, whatever the services. *)
Lemma admin_api_gated_witness :
  let r := mkRoute "PUT" "/role/permissions" RoleReplaceRolePermissions in
  exists s' e, (forall tag, demoAnswer tag r "editor-token" = (s', Returns))
    /\ writer s' = refusal (HG := demoHost (Env := DemoEnv)) e (Response.mkRW EmptyString [] EmptyString).
Proof.
  intros r. set (s := apiRequest (rtMethod r) (rtPath r) "editor-token").
  destruct (admin_api_gated (HG := demoHost) (HL := demoLaws) None None (fun t e => e ++ [t]) (fun _ => 0) (fun e => ("id-1", e)) (fun _ => true) apiParse
              (apiParse tt) tt None apiCatalog_ apiGrants demoVersion demoGrantsVersion demoDb (at_ second) (at_ second) (LIM := unlimited)
              (fun _ => None) (fun _ => EmptyString) 0) with (r := r) (s := s)
    as [Hl|[(ac & (_ & ti & Hp & _ & Hac) & [Ho|Hgr])|(s' & e & Ha & Hw)]].
  - unfold times_ok. cbn. unfold second. lia.
  - intros t ti ac. change (parseToken _ _ _ _ t) with (match apiParse tt t with PErr _ false => apiParse tt t | x => x end). unfold apiParse.
    destruct (String.eqb t "editor-token"); [|done]. intros [= <-] [= <-]. reflexivity.
  - split; [cbn; auto 20|done].
  - done.
  - split; apply sound_cache_empty; intros t k; eexists; reflexivity.
  - exfalso. apply (bool_decide_eq_true_2 _) in Hl. discriminate Hl.
  - exfalso. apply (bool_decide_eq_true_2 _) in Ho. discriminate Ho.
  - exfalso. vm_compute in Hp. injection Hp as <-. injection Hac as <-.
    destruct (Hgr defaultCacheDuration (60 * second)%Z) as (u1 & u2 & cat & gr & _ & _ & _ & _ & Hg & Hin); [by left..|].
    cbn [TenantID Role editor] in Hg. unfold apiGrants in Hg. destruct (demoDb u2); injection Hg as <-;
      [destruct Hin as [Hin|[]]; discriminate Hin|destruct Hin].
  - exists s', e. split; [|exact Hw]. intros tag. apply Ha.
Defined.
