(* ===== verification/MenuService.v ===== *)
(** [admin/service/convert.go] and [admin/service/menu.go]: the wire messages built
    of menu rows and the menu RPCs, which read the table through the cache. *)

From Stdlib Require Import ZArith Lia String List Bool.
From stdpp Require Import base tactics list gmap strings pretty.
From S2P Require Import Prelude GoStrings Errs Cache DbCache Gorm UserModel RoleModel Menus.

Local Open Scope string_scope.
Local Open Scope list_scope.
Local Open Scope Z_scope.
Local Open Scope aeus_scope.

(** ** convert.go *)

(** The rows of [rest/v3] dropdowns, with the fields the conversion reads. *)
Record TypeValue : Type := mkTypeValue { tvValue : string; tvLabel : string }.
Inductive TierValue : Type :=
| mkTierValue (Value Label Parent : string) (Children : list TierValue).

Record OptionEntry : Type := mkOptionEntry { oeValue : string; oeLabel : string }.
Inductive OptionNode : Type :=
| mkOptionNode (Value Label Parent : string) (Children : list OptionNode).
Inductive MenuNode : Type :=
| mkMenuNode (Name Title Component Uri Icon : string) (Hidden Public : bool) (Children : list MenuNode).

Record MenuEntry : Type := mkMenuEntry {
  meName : string; meComponent : string; meUri : string; meParent : string;
  meIcon : string; mePublic : bool; meHidden : bool; meViewPath : string;
}.
Record ListVisibleMenusResponse : Type := mkVisibleMenus { lvTotalCount : Z; lvMenus : list MenuEntry }.
Record MenuItem : Type := mkMenuItem {
  miId : Z; miParent : string; miName : string; miComponent : string; miUri : string;
  miViewPath : string; miIcon : string; miHidden : bool; miPublic : bool; miSort : Z;
  miDescription : string; miCreatedAt : Z; miUpdatedAt : Z;
}.

(** A nil slice and an empty one are both the empty list. *)
Definition optionToPb (rows : list TypeValue) : list OptionEntry :=
  map (fun t => mkOptionEntry (tvValue t) (tvLabel t)) rows.

Fixpoint optionNodeToPb (t : TierValue) : OptionNode :=
  let '(mkTierValue v l p children) := t in mkOptionNode v l p (map optionNodeToPb children).
Definition optionNodesToPb (rows : list TierValue) : list OptionNode := map optionNodeToPb rows.

Fixpoint menuNodeToPb (n : MenuTreeNode) : MenuNode :=
  let '(mkNode c t u i h p children) := n in mkMenuNode c t c u i h p (map menuNodeToPb children).
Definition menuNodesToPb (nodes : list MenuTreeNode) : list MenuNode := map menuNodeToPb nodes.

Definition menusToProtoList (menus : list Menu) : ListVisibleMenusResponse :=
  mkVisibleMenus (Z.of_nat (length menus))
    (map (fun m => mkMenuEntry (mName m) (mComponent m) (mUri m) (mParent m) (mIcon m) (mPublic m) (mHidden m) (mViewPath m)) menus).

Definition menuItemsToPb (menus : list Menu) : list MenuItem :=
  map (fun m => mkMenuItem (bID (mBase m)) (mParent m) (mName m) (mComponent m) (mUri m) (mViewPath m) (mIcon m)
                  (mHidden m) (mPublic m) (mSort m) (mDescription m) (UserModel.CreatedAt (mBase m)) (UserModel.UpdatedAt (mBase m))) menus.

Inductive PbPermissionType : Type :=
| PERMISSION_TYPE_UNSPECIFIED | PERMISSION_TYPE_MENU | PERMISSION_TYPE_API | PERMISSION_TYPE_BUTTON
| PERMISSION_TYPE_DATA_SCOPE | PERMISSION_TYPE_OTHER (n : Z).

Definition PermissionTypeFromPb (t : PbPermissionType) : string :=
  match t with
  | PERMISSION_TYPE_API => PermissionTypeAPI
  | PERMISSION_TYPE_BUTTON => PermissionTypeButton
  | PERMISSION_TYPE_DATA_SCOPE => PermissionTypeData
  | _ => PermissionTypeUnspec
  end.

(** The components named in the wire tree. *)
Fixpoint pbComponents (n : MenuNode) : list string :=
  let '(mkMenuNode _ _ c _ _ _ _ children) := n in c :: flat_map pbComponents children.

Lemma pbComponents_menuNodeToPb : forall n, pbComponents (menuNodeToPb n) = flatten n.
Proof.
  fix IH 1. intros [c t u i h p children]. cbn. f_equal.
  induction children as [|x l IHl]; cbn; [done|]. by rewrite IH, IHl.
Qed.

Lemma pbComponents_menuNodesToPb (l : list MenuTreeNode) :
  flat_map pbComponents (menuNodesToPb l) = flattenAll l.
Proof.
  unfold menuNodesToPb, flattenAll. induction l as [|x l IH]; cbn; [done|].
  by rewrite pbComponents_menuNodeToPb, IH.
Qed.

(** ** menu.go *)

Definition minute : Z := 60 * second.

Section Service.

(** The database, the state of the cache (its entries by type: the rows under
    [menu:tree] and [menu:all], the paths under [menu:breadcrumb:]) and the SQL
    marker query. *)
Context {DB Model Arg CM CP : Type} `{GormLaws DB Menu}
  `{LawfulCache (cacheEntry (list Menu)) CM} `{LawfulCache (cacheEntry (list string)) CP}.
Variable selectScalar : DB -> source (Model := Model) -> string -> list Arg -> string -> result error (option string).

(** [ORDER BY parent ASC, id ASC] and the validator of the request. *)
Variable orderByParent : list Menu -> list Menu.
Variable validateBreadcrumb : Z -> option error.

(** [opts.DB] is a handle whose content changes with time. *)
Record MenuService : Type := mkMenuService {
  optDB : option (Z -> DB);
  menusCacher : option (Cacher DB);
}.

Definition menusMarker : string := "SUM(id)".

Definition menusDependency : DB -> result error string :=
  GetValue selectScalar (NewSqlDependency [WithTable "sys_menus"; WithColumn menusMarker; WithCondition "deleted_at IS NULL" []]).

Definition menuCacher : Cacher DB := New [WithDependency menusDependency; WithCacheDuration minute].

Definition NewMenuService (d : option (Z -> DB)) : MenuService :=
  mkMenuService d
    match d with
    | Some _ => Some menuCacher
    | None => None
    end.

Record menuCaches : Type := mkMenuCaches { menusCache : CM; pathsCache : CP }.
Definition setMenus (c : CM) (b : menuCaches) : menuCaches := mkMenuCaches c (pathsCache b).
Definition setPaths (c : CP) (b : menuCaches) : menuCaches := mkMenuCaches (menusCache b) c.

Definition loadMenus (tx : DB) : result error (list Menu) :=
  let! l := Find (fun _ => true) tx in Ok (orderByParent l).

Definition noDatabase : error := Newf CodeUnavailable "menu service has no database".

(** The rows read straight from the handle (at [tLoad]), as the direct paths do. *)
Definition directRows (s : MenuService) (ts : times) : result error (list Menu) :=
  match optDB s with
  | None => Err noDatabase
  | Some db => loadMenus (db (tLoad ts))
  end.

(** [None] is a tree that is never finished (see [BuildTree]). *)
Definition treeReply (r : result error (list Menu)) : option (result error (list MenuNode)) :=
  match r with
  | Err e => Some (Err e)
  | Ok all => tree ← BuildTree all; Some (Ok (menuNodesToPb tree))
  end.

Definition menuTreeDirect (s : MenuService) (ts : times) : option (result error (list MenuNode)) := treeReply (directRows s ts).

Definition menuListAllDirect (s : MenuService) (ts : times) : result error (list MenuItem) :=
  let! all := directRows s ts in Ok (menuItemsToPb all).

(** The rows of a list RPC through the cacher [c], which [NewMenuService] makes over the
    handle of the options. *)
Definition cachedRows (s : MenuService) (c : Cacher DB) (ts : times) (key : string) (b : menuCaches) :
    menuCaches * result error (list Menu) :=
  match optDB s with
  | None => (b, Err noDatabase)
  | Some db => let '(cache, r) := Try c ts db key loadMenus (menusCache b) in (setMenus cache b, r)
  end.

Definition MenuTree (s : MenuService) (ts : times) (b : menuCaches) : option (menuCaches * result error (list MenuNode)) :=
  match menusCacher s with
  | None => r ← menuTreeDirect s ts; Some (b, r)
  | Some c => let '(b, all) := cachedRows s c ts "menu:tree" b in r ← treeReply all; Some (b, r)
  end.

Definition MenuListAll (s : MenuService) (ts : times) (b : menuCaches) : menuCaches * result error (list MenuItem) :=
  match menusCacher s with
  | None => (b, menuListAllDirect s ts)
  | Some c => let '(b, all) := cachedRows s c ts "menu:all" b in (b, let! all := all in Ok (menuItemsToPb all))
  end.

Definition breadcrumbKey (id : Z) : string := "menu:breadcrumb:" +:+ pretty id.
Definition breadcrumbNotFound (id : Z) : error := Newf CodeNotFound ("menu " +:+ pretty id +:+ " not found").
Definition breadcrumbReply (id : Z) (r : result error (list string)) : result error (list string) :=
  match r with
  | Err e => Err (if Is e ErrRecordNotFound then breadcrumbNotFound id else e)
  | Ok path => Ok path
  end.

Definition menuBreadcrumbDirect (s : MenuService) (ts : times) (id : Z) : result error (list string) :=
  match optDB s with
  | None => Err noDatabase
  | Some db => breadcrumbReply id (PathTo (db (tLoad ts)) id)
  end.

Definition MenuBreadcrumb (s : MenuService) (ts : times) (id : Z) (b : menuCaches) :
    menuCaches * result error (list string) :=
  match validateBreadcrumb id with
  | Some e => (b, Err e)
  | None =>
      match menusCacher s with
      | None => (b, menuBreadcrumbDirect s ts id)
      | Some c =>
          match optDB s with
          | None => (b, Err noDatabase)
          | Some db =>
              let '(cache, r) := Try c ts db (breadcrumbKey id) (fun tx => PathTo tx id) (pathsCache b) in
              (setPaths cache b, breadcrumbReply id r)
          end
      end
  end.

(** [rest.ModelTiers] is of the REST library. *)
Definition MenuOptions (modelTiers : DB -> string -> string -> string -> string -> result error (list TierValue)) (tx : DB) :
    result error (list OptionNode) :=
  let! tv := modelTiers tx EmptyString "parent" "name" "component" in Ok (optionNodesToPb tv).

(** ** What is served *)

(** A reload takes at most [L]; ordering rearranges. *)
Variable L : Z.
Variable db : Z -> DB.
Hypothesis orderByParent_perm : forall l, Permutation (orderByParent l) l.

(** The rows have distinct components, as the rule of the column says. *)
Definition distinctMenus (l : list Menu) : Prop := NoDup (map mComponent l).

(** The nodes are the rows whose ancestors lead to a root, a row without a parent or with
    an unknown one; each of them once, and no other. *)
Definition showsMenus (l : list Menu) (nodes : list MenuNode) : Prop :=
  exists shown, Permutation (flat_map pbComponents nodes) (map mComponent shown) /\ NoDup shown
    /\ forall m, In m shown <-> In m l /\ exists d, depth l d m.

Definition menuKey (key : string) : Prop := key = "menu:tree" \/ key = "menu:all".
Definition menus_ok (now : Z) (b : menuCaches) : Prop :=
  live_ok L db menuKey (fun _ => loadMenus) minute now (menusCache b).

Lemma loadMenus_ok (tx : DB) (l : list Menu) : loadMenus tx = Ok l -> Permutation l (rows tx).
Proof.
  unfold loadMenus. destruct (Find _ tx) as [l'|] eqn:E; [|done]. cbn [rbind]. intros [= <-].
  apply Find_ok in E as ->. rewrite orderByParent_perm. by rewrite filter_all.
Qed.

Lemma cachedRows_serves (ts : times) (key : string) (b b' : menuCaches) (r : result error (list Menu)) :
  menuKey key -> times_ok L ts -> menus_ok (tCheck ts) b ->
  cachedRows (NewMenuService (Some db)) menuCacher ts key b = (b', r) ->
  menus_ok (tStore ts) b' /\ pathsCache b' = pathsCache b
  /\ match r with
     | Ok all => exists u, loadMenus (db u) = Ok all /\ tCheck ts - minute - L <= u <= tStore ts
     | Err e => menusDependency (db (tMarker ts)) = Err e \/ loadMenus (db (tLoad ts)) = Err e
     end.
Proof.
  intros Hk Hts Hb Hl. unfold cachedRows in Hl. cbn [optDB NewMenuService] in Hl.
  destruct (Try menuCacher ts db key loadMenus (menusCache b)) as [cache r'] eqn:Et. simplify_eq.
  destruct (Try_bounded_age L db menuKey (fun _ => loadMenus) menuCacher ts key _ _ _ Hk eq_refl Hts Hb Et) as [Hc Hr].
  split; [exact Hc|]. split; [done|]. destruct r as [all|e]; [exact Hr|].
  destruct Hr as [(dep & [= <-] & Hd)|[Hf|Hlen]]; [by left|by right|].
  exfalso. destruct Hk as [->| ->]; unfold maxCacheKeyLen in Hlen; cbn in Hlen; lia.
Qed.

(** The tree of the rows of a table with distinct components. *)
Lemma treeReply_shows (tx : DB) (all : list Menu) :
  distinctMenus (rows tx) -> loadMenus tx = Ok all ->
  exists nodes, treeReply (Ok all) = Some (Ok nodes) /\ showsMenus (rows tx) nodes.
Proof.
  intros Hnd Hl. pose proof (loadMenus_ok _ _ Hl) as Hp.
  assert (NoDup (map mComponent all)) as Hall by (by rewrite Hp).
  destruct (BuildTree_reached all Hall) as (forest & shown & Hf & Hperm & Hns & Hin).
  exists (menuNodesToPb forest). cbn [treeReply]. rewrite Hf. split; [done|]. exists shown.
  rewrite pbComponents_menuNodesToPb. split; [done|]. split; [done|]. intros m. rewrite Hin, Hp.
  split; intros (Hm & d & Hd); (split; [done|]); exists d; by eapply depth_perm; [|exact Hd].
Qed.

(** A service made without a database answers every call with the same error; one without
    a cacher reads the table at the instant of the call.  Neither touches the caches. *)
Lemma menus_direct (s : MenuService) (ts : times) (id : Z) (b : menuCaches) :
  menusCacher s = None ->
  match optDB s with
  | None =>
      MenuTree s ts b = Some (b, Err noDatabase) /\ MenuListAll s ts b = (b, Err noDatabase)
      /\ (validateBreadcrumb id = None -> MenuBreadcrumb s ts id b = (b, Err noDatabase))
  | Some db =>
      (distinctMenus (rows (db (tLoad ts))) ->
       exists r, MenuTree s ts b = Some (b, r)
         /\ match r with
            | Ok nodes => showsMenus (rows (db (tLoad ts))) nodes
            | Err e => loadMenus (db (tLoad ts)) = Err e
            end)
      /\ MenuListAll s ts b = (b, let! all := loadMenus (db (tLoad ts)) in Ok (menuItemsToPb all))
      /\ (validateBreadcrumb id = None -> MenuBreadcrumb s ts id b = (b, breadcrumbReply id (PathTo (db (tLoad ts)) id)))
  end.
Proof.
  intros Hn. unfold MenuTree, MenuListAll, MenuBreadcrumb, menuTreeDirect, menuListAllDirect, menuBreadcrumbDirect, directRows. rewrite Hn.
  destruct (optDB s) as [d|]; [|by repeat split; intros; simplify_option_eq]. split; [|split; [done|by intros ->]].
  intros Hwf. destruct (loadMenus (d (tLoad ts))) as [all|e] eqn:El; [|by exists (Err e)].
  destruct (treeReply_shows _ _ Hwf El) as (nodes & -> & Hp). by exists (Ok nodes).
Qed.


(** *** Breadcrumbs *)

Definition isKeyOf (id : Z) (key : string) : Prop := key = breadcrumbKey id.

Definition paths_ok (now : Z) (b : menuCaches) : Prop :=
  forall id, live_ok L db (isKeyOf id) (fun _ tx => PathTo tx id) minute now (pathsCache b).

Lemma breadcrumbKey_inj (id id' : Z) : breadcrumbKey id = breadcrumbKey id' -> id = id'.
Proof. unfold breadcrumbKey. intros H'. by apply (inj (String.append _)), (inj pretty) in H'. Qed.

Lemma pretty_N_go_length (k : nat) (x : N) (s : string) :
  (x < 10 ^ N.of_nat k)%N -> (String.length (pretty_N_go x s) <= k + String.length s)%nat.
Proof.
  revert x s. induction k as [|k IH]; intros x s Hx.
  - cbn in Hx. replace x with 0%N by lia. done.
  - destruct (decide (x = 0)%N) as [->|Hne]; [rewrite pretty_N_go_0; lia|].
    rewrite pretty_N_go_step by lia. rewrite IH; [cbn [String.length]; lia|].
    rewrite Nat2N.inj_succ, N.pow_succ_r' in Hx. apply N.Div0.div_lt_upper_bound. lia.
Qed.

Lemma breadcrumbKey_short (id : Z) : 0 <= id < 2 ^ 32 -> (String.length (breadcrumbKey id) <= maxCacheKeyLen)%nat.
Proof.
  intros Hid. unfold breadcrumbKey. rewrite length_append.
  assert (String.length (pretty id) <= 10)%nat; [|unfold maxCacheKeyLen; cbn [String.length]; lia].
  destruct id as [|p|p]; [cbn; lia| |lia].
  change (pretty (Z.pos p)) with (pretty (N.pos p)). unfold pretty, pretty_N. cbn [decide].
  destruct (decide _); [done|]. pose proof (pretty_N_go_length 10 (N.pos p) "") as Hl. cbn [String.length] in Hl.
  rewrite Nat.add_0_r in Hl. apply Hl. change (10 ^ N.of_nat 10)%N with 10000000000%N. lia.
Qed.

(** The breadcrumb that is served: the walk always ends, and the answer is the
    path of the row as the table had it at one instant no earlier than the cache
    duration and one reload before the request, each step a row under its parent and
    no component twice; or a NotFound error when the row did not exist, or a failed
    query. *)
Theorem MenuBreadcrumb_serves (ts : times) (id : Z) (b b' : menuCaches) (r : result error (list string)) :
  0 <= id < 2 ^ 32 -> validateBreadcrumb id = None -> times_ok L ts -> paths_ok (tCheck ts) b ->
  MenuBreadcrumb (NewMenuService (Some db)) ts id b = (b', r) ->
  paths_ok (tStore ts) b' /\ menusCache b' = menusCache b
  /\ match r with
     | Ok path => exists u start up, tCheck ts - minute - L <= u <= tStore ts
                    /\ First (fun m => Z.eqb (bID (mBase m)) id) (db u) = Ok start
                    /\ path = up ++ [mComponent start]
                    /\ NoDup path /\ incl path (components (db u)) /\ ladder (db u) path
     | Err e => exists e', e = (if Is e' ErrRecordNotFound then breadcrumbNotFound id else e')
                  /\ (menusDependency (db (tMarker ts)) = Err e' \/ PathTo (db (tLoad ts)) id = Err e')
     end.
Proof.
  intros Hid Hv Hts Hb Hm. unfold MenuBreadcrumb in Hm. rewrite Hv in Hm.
  cbn [menusCacher optDB NewMenuService] in Hm.
  unfold breadcrumbReply in Hm. destruct (Try menuCacher ts db (breadcrumbKey id) (fun tx => PathTo tx id) (pathsCache b)) as [cache r'] eqn:Et.
  assert (b' = setPaths cache b) as -> by (by destruct r'; injection Hm).
  destruct (Try_bounded_age L db (isKeyOf id) (fun _ tx => PathTo tx id) menuCacher ts (breadcrumbKey id)
              (pathsCache b) cache r' eq_refl eq_refl Hts (Hb id) Et) as [Hc Hr].
  split; [|split; [done|]].
  - intros id'. destruct (decide (id' = id)) as [->|Hne]; [exact Hc|].
    intros t key e Hk Hl. cbn [pathsCache setPaths] in Hl.
    assert (Load t key (pathsCache b) = Ok e) as Hl'.
    { replace cache with (fst (Try menuCacher ts db (breadcrumbKey id) (fun tx => PathTo tx id) (pathsCache b))) in Hl
        by (by rewrite Et). eapply Try_frame; [|exact Hl]. rewrite Hk. by intros ?%breadcrumbKey_inj. }
    destruct (Hb id' t key e Hk Hl') as (u & Hu & Hle & Hlo). exists u. destruct Hts as (H1' & H2' & _).
    split; [exact Hu|]. split; [lia|exact Hlo].
  - destruct r' as [path|e]; simplify_eq.
    + destruct Hr as (u & Hu & Hw). unfold PathTo in Hu.
      destruct (First _ (db u)) as [start|] eqn:Ef; [|done].
      destruct (PathTo_ends (db u) id start Ef) as (up & Hp & Hrest). unfold PathTo in Hp. rewrite Ef in Hp.
      rewrite Hp in Hu. injection Hu as <-. by exists u, start, up.
    + destruct Hr as [(dep & [= <-] & Hd)|[Hf|Hlen]].
      * by exists e; auto.
      * by exists e; auto.
      * pose proof (breadcrumbKey_short id Hid). lia.
Qed.

End Service.

(** ** A concrete run *)

Definition demoHistory (t : Z) : list Menu := if t <? 10 * second then demoMenus else [].
Definition demoSelect : list Menu -> source (Model := unit) -> string -> list unit -> string -> result error (option string) :=
  fun d _ _ _ _ => Ok (Some (pretty (Z.of_nat (length d)))).
Definition demoTs (t : Z) : times := mkTimes t t t t.
Definition demoCaches : menuCaches (CM := memCache (cacheEntry (list Menu))) (CP := memCache (cacheEntry (list string))) :=
  mkMenuCaches (NewCache 0 ∅) (NewCache 0 ∅).

Lemma demo_times_ok (t : Z) : 0 <= t -> times_ok 0 (demoTs t).
Proof. unfold times_ok, demoTs. cbn. lia. Qed.


Lemma MenuBreadcrumb_serves_witness :
  exists b' r, MenuBreadcrumb (fun _ => None) (NewMenuService demoSelect (Some demoHistory)) (demoTs second) 3 demoCaches = (b', r)
    /\ (r = Ok ["System"; "Users"; "UserEdit"]) /\ menusCache b' = menusCache demoCaches.
Proof.
  destruct (MenuBreadcrumb (fun _ => None) (NewMenuService demoSelect (Some demoHistory)) (demoTs second) 3 demoCaches)
    as [b' r] eqn:E.
  destruct (MenuBreadcrumb_serves demoSelect (fun _ => None) 0 demoHistory (demoTs second) 3 demoCaches b' r) as (_ & Hc & _).
  - lia.
  - reflexivity.
  - apply demo_times_ok. done.
  - intros i t key e _ Hl. discriminate Hl.
  - exact E.
  - exists b', r. split; [done|]. split; [|exact Hc]. vm_compute in E. by injection E.
Defined.
