(* ===== verification/AuthService.v ===== *)
(** [admin/service/auth.go], [login_log.go], [revocation_validator.go]: login,
    refresh rotation, logout, and the validator that makes a logout count.

    The JWT library is a parameter: signing with HS256, and parsing, which looks up
    the key through the key function with the algorithm of the token's header.
    Instants are nanoseconds. *)

From Stdlib Require Import ZArith Lia String List Bool.
From stdpp Require Import base tactics list gmap strings.
From S2P Require Import Prelude GoStrings Errs Metadata Middleware JwtAuth AdminClaims TokenStore Gorm UserModel RoleModel.

Local Open Scope string_scope.
Local Open Scope list_scope.
Local Open Scope Z_scope.
Local Open Scope aeus_scope.

Definition tokenTypeAccess : string := "access".
Definition tokenTypeRefresh : string := "refresh".
Definition defaultTokenExpireSeconds : Z := 2 * 60 * 60.
Definition refreshTokenTTL : Z := 48 * 60 * 60.
Definition second : Z := 1000000000.
(** [time.Duration(n) * time.Second] in 64 bits. *)
Definition seconds (n : Z) : Z := int64 (n * second).

(** The messages of auth.proto. *)
Record LoginRequest : Type := mkLoginRequest { reqUsername : string; reqPassword : string }.
Record LoginResponse : Type := mkLoginResponse {
  resUid : string; resUsername : string; resExpires : Z; resAccessToken : string; resRefreshToken : string;
  resTenantId : string; resTenantName : string;
}.
Record RefreshTokenResponse : Type := mkRefreshResponse {
  rrUid : string; rrExpires : Z; rrAccessToken : string; rrRefreshToken : string;
}.
Record LogoutRequest : Type := mkLogoutRequest { loAccessToken : string; loRefreshToken : string }.

Record LoginLogInfo : Type := mkLoginLogInfo {
  llSuccess : bool; llUID : string; llTenantID : string; llUsername : string;
  llIP : string; llUserAgent : string; llAccessToken : string;
}.

(** What one token is signed with: the reading of the clock and the fresh id. *)
Record draw : Type := mkDraw { dNow : Z; dJti : string }.

Section Service.

Context {DB World T : Type} `{Gorm DB User} `{Gorm DB Role} `{TokenStore T}.

(** ** The libraries *)

Variable CompareHashAndPassword : string -> string -> option error.
(** The generated request validators. *)
Variable ValidateLogin : LoginRequest -> option error.
Variable ValidateRefresh : string -> option error.
Variable ValidateLogout : LogoutRequest -> option error.

(** [Token.SignedString] with HS256; [jwt.NewNumericDate]; [jwt.ParseWithClaims]
    with a key function (from the header's algorithm) at an instant, giving the
    claims and [token.Valid]; a parser with a list of valid methods and without
    the validation of the claims. *)
Variable SignedString : string -> Claims -> result error string.
Variable NewNumericDate : Z -> Z.
Variable ParseWithClaims : (string -> result error string) -> Z -> string -> result error (Claims * bool).
Variable ParseUnvalidated : list string -> (string -> result error string) -> string -> result error (Claims * bool).

Notation St := (State (World := World)).
Notation Ctx := (GoContext AnyClaims).

Record AuthServiceOptions : Type := mkAuthOptions {
  TokenExpireSeconds : Z;
  BeforeLogin : option (Ctx -> LoginRequest -> St -> St * option error);
  AfterLogin : option (Ctx -> LoginRequest -> LoginResponse -> St -> St);
  AuthSecret : string;
  LoginLogFunc : option (Ctx -> LoginLogInfo -> St -> St);
}.

Variable opts : AuthServiceOptions.

Definition ttl : Z :=
  if 0 <? TokenExpireSeconds opts then TokenExpireSeconds opts else defaultTokenExpireSeconds.

(** [NewAuthService] panics without a secret (and without a database). *)
Definition NewAuthService (o : AuthServiceOptions) : option AuthServiceOptions :=
  if String.eqb (AuthSecret o) EmptyString then None
  else Some (mkAuthOptions (if TokenExpireSeconds o <=? 0 then defaultTokenExpireSeconds else TokenExpireSeconds o)
               (BeforeLogin o) (AfterLogin o) (AuthSecret o) (LoginLogFunc o)).

Definition secret : string := AuthSecret opts.

Definition keyfunc (alg : string) : result error string :=
  if String.eqb alg "HS256" then Ok secret else Err (EPlain ("unexpected signing method: " +:+ alg)).

Definition tokenClaims (d : draw) (userid role tenantID tokenType : string) (ttl : Z) : Claims :=
  mkClaims (dJti d) (Some (NewNumericDate (dNow d + seconds ttl))) (Some (NewNumericDate (dNow d)))
    (Some (NewNumericDate (dNow d))) userid role tenantID tokenType.

Definition createToken (d : draw) (userid role tenantID tokenType : string) (ttl : Z) : result error string :=
  SignedString secret (tokenClaims d userid role tenantID tokenType ttl).

(** The read of sys_tenants: whether the table is there, and the row of an id. *)
Variable HasTenantTable : DB -> bool.
Variable ScanTenant : string -> DB -> result error (string * string).

Definition resolveTenant (tenantID : string) (db : DB) : string * string :=
  if String.eqb tenantID EmptyString then (tenantID, EmptyString)
  else if negb (HasTenantTable db) then (tenantID, EmptyString)
  else match ScanTenant tenantID db with
       | Err _ => (tenantID, EmptyString)
       | Ok (name, status) => if String.eqb name EmptyString then (tenantID, EmptyString) else (name, status)
       end.

(** ** Login *)

Definition recordLogin (ctx : Ctx) (req : LoginRequest) (success : bool) (userModel : option User) (token : string)
    (s : St) : St :=
  match LoginLogFunc opts with
  | None => s
  | Some fn =>
      let '(uid, tenantID) := match userModel with
                              | Some u => (uUID u, uTenantID u)
                              | None => (EmptyString, EmptyString)
                              end in
      let '(ip, _) := Get s (ctxMeta ctx) RequestClientIP in
      let '(ua, _) := Get s (ctxMeta ctx) "User-Agent" in
      fn ctx (mkLoginLogInfo success uid tenantID (reqUsername req) ip ua token) s
  end.

Definition tenantDisabled : error := Newf CodePermissionDenied "tenant is disabled".

(** The checks on an account that was found, in order: what [Login] refuses a
    right user name with.  [true] marks the errors that are recorded. *)
Definition loginGate (u : User) (password : string) (db : DB) : result (error * bool) Role :=
  if negb (ValidatePassword CompareHashAndPassword u password) then Err (ESentinel ErrInvalidPassword, true)
  else if String.eqb (uStatus u) "disabled" then Err (ESentinel ErrUserDisabled, true)
  else match First (fun r : Role => String.eqb (rKey r) (uRoleKey u) && String.eqb (rTenantID r) (uTenantID u)) db with
       | Err e => if Is e ErrRecordNotFound then Err (ESentinel ErrRoleNotFound, true) else Err (e, false)
       | Ok role =>
           if String.eqb (rStatus role) "disabled" then Err (ESentinel ErrRoleDisabled, true)
           else let '(_, tenantStatus) := resolveTenant (uTenantID u) db in
                if String.eqb tenantStatus "disabled" then Err (tenantDisabled, true) else Ok role
       end.

Definition candidate (name : string) (u : User) : bool :=
  String.eqb (uUID u) name || String.eqb (uUsername u) name.

(** The two tokens and the response. *)
Definition issue (da dr : draw) (u : User) (tenantName : string) : result error LoginResponse :=
  let! accessToken := createToken da (uUID u) (uRoleKey u) (uTenantID u) tokenTypeAccess ttl in
  let! refreshToken := createToken dr (uUID u) (uRoleKey u) (uTenantID u) tokenTypeRefresh refreshTokenTTL in
  Ok (mkLoginResponse (uUID u) (uUsername u) ttl accessToken refreshToken (uTenantID u) tenantName).

Definition Login (da dr : draw) (ctx : Ctx) (req : LoginRequest) (db : DB) (s : St) : St * result error LoginResponse :=
  let failed u s e := (recordLogin ctx req false u EmptyString s, Err e) in
  match ValidateLogin req with
  | Some e => failed None s e
  | None =>
      let '(s, err) := match BeforeLogin opts with Some f => f ctx req s | None => (s, None) end in
      match err with
      | Some e => failed None s e
      | None =>
          match FindLimit 2 (candidate (reqUsername req)) db with
          | Err e => failed None s e
          | Ok [u] =>
              match loginGate u (reqPassword req) db with
              | Err (e, true) => failed (Some u) s e
              | Err (e, false) => (s, Err e)
              | Ok _ =>
                  match issue da dr u (fst (resolveTenant (uTenantID u) db)) with
                  | Err e => (s, Err e)
                  | Ok res =>
                      let s := recordLogin ctx req true (Some u) (resAccessToken res) s in
                      (match AfterLogin opts with Some f => f ctx req res s | None => s end, Ok res)
                  end
              end
          | Ok _ => failed None s (ESentinel ErrInvalidPassword)
          end
      end
  end.

(** ** RefreshToken *)

Definition accessDenied : error := ESentinel (SErrs ErrAccessDenied).

(** The account checks of a refresh: user and role as they are now. *)
Definition refreshGate (c : Claims) (db : DB) : result error User :=
  let notFound e := if Is e ErrRecordNotFound then accessDenied else e in
  match First (fun u : User => String.eqb (uUID u) (UID c) && String.eqb (uTenantID u) (TenantID c)) db with
  | Err e => Err (notFound e)
  | Ok user =>
      if String.eqb (uStatus user) "disabled" then Err (ESentinel ErrUserDisabled)
      else match First (fun r : Role => String.eqb (rKey r) (uRoleKey user) && String.eqb (rTenantID r) (uTenantID user)) db with
           | Err e => Err (notFound e)
           | Ok role => if String.eqb (rStatus role) "disabled" then Err (ESentinel ErrRoleDisabled) else Ok user
           end
  end.

(** The replay fence: claim the old token id before minting anything. *)
Definition claimOld (now : Z) (c : Claims) (store : T) : T * option error :=
  if String.eqb (cID c) EmptyString then (store, None)
  else
    let til := match cExpiresAt c with Some e => e | None => now + seconds refreshTokenTTL end in
    match RevokeIfNotRevoked now (cID c) til store with
    | (store, Err e) => (store, Some (EWrap ("claim rotated refresh token: " +:+ errText e) [e]))
    | (store, Ok false) => (store, Some accessDenied)
    | (store, Ok true) => (store, None)
    end.

Definition RefreshToken (now : Z) (da dr : draw) (raw : string) (db : DB) (store : T) :
    T * result error RefreshTokenResponse :=
  match ValidateRefresh raw with
  | Some e => (store, Err e)
  | None =>
      match ParseWithClaims keyfunc now raw with
      | Err e => (store, Err e)
      | Ok (c, _) =>
          if negb (String.eqb (TokenType c) tokenTypeRefresh) then (store, Err accessDenied)
          else match refreshGate c db with
               | Err e => (store, Err e)
               | Ok user =>
                   match claimOld now c store with
                   | (store, Some e) => (store, Err e)
                   | (store, None) =>
                       (store,
                        let! newRefresh := createToken dr (uUID user) (uRoleKey user) (uTenantID user) tokenTypeRefresh refreshTokenTTL in
                        let! accessToken := createToken da (uUID user) (uRoleKey user) (uTenantID user) tokenTypeAccess ttl in
                        Ok (mkRefreshResponse (uUID user) ttl accessToken newRefresh))
                   end
               end
      end
  end.

(** ** Logout *)

Definition revokeToken (now : Z) (raw : string) (store : T) : T * result error string :=
  match ParseWithClaims keyfunc now raw with
  | Err _ => (store, Ok EmptyString)
  | Ok (_, false) => (store, Ok EmptyString)
  | Ok (c, true) =>
      if String.eqb (cID c) EmptyString then (store, Ok (UID c))
      else
        let til := match cExpiresAt c with
                   | Some e => if now <? e then e else now + seconds ttl
                   | None => now + seconds ttl
                   end in
        match Revoke now (cID c) til store with
        | (store, Some e) => (store, Err (EWrap ("revoke token: " +:+ errText e) [e]))
        | (store, None) => (store, Ok (UID c))
        end
  end.

Definition Logout (now : Z) (req : LogoutRequest) (store : T) : T * result error string :=
  match ValidateLogout req with
  | Some e => (store, Err e)
  | None =>
      if String.eqb (loAccessToken req) EmptyString && String.eqb (loRefreshToken req) EmptyString
      then (store, Err (Newf CodeInvalid "access_token or refresh_token required"))
      else
        let '(store, uid) := if negb (String.eqb (loAccessToken req) EmptyString)
                             then revokeToken now (loAccessToken req) store else (store, Ok EmptyString) in
        match uid with
        | Err e => (store, Err e)
        | Ok uid =>
            let '(store, r) := if negb (String.eqb (loRefreshToken req) EmptyString)
                               then revokeToken now (loRefreshToken req) store else (store, Ok EmptyString) in
            match r with
            | Err e => (store, Err e)
            | Ok _ => (store, Ok uid)
            end
        end
  end.

(** ** The revocation validator of the JWT middleware *)

Definition Validate (now : Z) (raw : string) (store : T) : T * option error :=
  if String.eqb raw EmptyString then (store, None)
  else match ParseUnvalidated ["HS256"] (fun _ => Ok secret) raw with
       | Err _ => (store, None)
       | Ok (_, false) => (store, None)
       | Ok (c, true) =>
           if String.eqb (TokenType c) tokenTypeRefresh then (store, Some accessDenied)
           else if negb (String.eqb (cID c) EmptyString) then
             match Revoked now (cID c) store with
             | (store, Err _) => (store, Some accessDenied)
             | (store, Ok true) => (store, Some accessDenied)
             | (store, Ok false) => (store, None)
             end
           else (store, None)
       end.

(** ** What the libraries promise *)

(** A token signed with a key parses back to its claims under that key; the parser
    without claims validation accepts what the validating one does, with the same
    claims; a token the validating parser accepts has not expired and is marked
    valid. *)
Hypothesis unvalidated_signed : forall k c raw,
  SignedString k c = Ok raw -> ParseUnvalidated ["HS256"] (fun _ => Ok k) raw = Ok (c, true).
Hypothesis parse_unvalidated : forall now raw c v,
  ParseWithClaims keyfunc now raw = Ok (c, v) ->
  v = true /\ ParseUnvalidated ["HS256"] (fun _ => Ok secret) raw = Ok (c, true)
  /\ (forall e, cExpiresAt c = Some e -> now < e).

Context `{!GormLaws DB User} `{!GormLaws DB Role} `{!LawfulTokenStore T}.

Lemma parse_same (n1 n2 : Z) (raw : string) (c1 c2 : Claims) (v1 v2 : bool) :
  ParseWithClaims keyfunc n1 raw = Ok (c1, v1) -> ParseWithClaims keyfunc n2 raw = Ok (c2, v2) -> c1 = c2.
Proof. intros (_ & E1 & _)%parse_unvalidated (_ & E2 & _)%parse_unvalidated. congruence. Qed.

(** [loginGate] accepts exactly a right password of an enabled user with an
    enabled role of the user's own tenant, in a tenant that is not disabled. *)
Lemma loginGate_ok (u : User) (password : string) (db : DB) (role : Role) :
  loginGate u password db = Ok role <->
  ValidatePassword CompareHashAndPassword u password = true /\ uStatus u <> "disabled"
  /\ First (fun r : Role => String.eqb (rKey r) (uRoleKey u) && String.eqb (rTenantID r) (uTenantID u)) db = Ok role
  /\ rStatus role <> "disabled" /\ snd (resolveTenant (uTenantID u) db) <> "disabled".
Proof.
  clear parse_unvalidated unvalidated_signed ParseWithClaims ParseUnvalidated SignedString ValidateRefresh ValidateLogin
    ValidateLogout NewNumericDate. unfold loginGate. destruct (ValidatePassword _ u password); cbn [negb]; [|naive_solver].
  destruct (String.eqb_spec (uStatus u) "disabled"); [naive_solver|].
  destruct (First _ db) as [r|e]; [|case_match; naive_solver].
  destruct (String.eqb_spec (rStatus r) "disabled"); [naive_solver|].
  destruct (resolveTenant (uTenantID u) db) as [nm st]. cbn [snd].
  destruct (String.eqb_spec st "disabled"); naive_solver.
Qed.

(** The tenant of an account as its row says it: when the account has one, the table is
    there and holds a named row for it, that is the name and the status served. *)
Lemma resolveTenant_row (tenantID name status : string) (db : DB) :
  tenantID <> EmptyString -> HasTenantTable db = true -> ScanTenant tenantID db = Ok (name, status) -> name <> EmptyString ->
  resolveTenant tenantID db = (name, status).
Proof.
  intros Hid Ht Hs Hn. unfold resolveTenant. by rewrite (proj2 (String.eqb_neq _ _) Hid), Ht, Hs, (proj2 (String.eqb_neq _ _) Hn).
Qed.

(** C5. Login is gated: a login that succeeds found exactly one account under the
    name given (in the user ids and user names of all tenants), its password
    verifies, and user and role are enabled, and so is the tenant whose row the
    database holds under the account's tenant id (a tenant without a named row, a
    missing table or a failed read does not bar the login); the response carries the
    account and the tenant's name from that row; the tokens are signed for
    that account, its current role and its tenant, one for access and one for
    refresh, with their own lifetimes. *)
Theorem Login_gated (da dr : draw) (ctx : Ctx) (req : LoginRequest) (db : DB) (s s' : St) (res : LoginResponse) :
  Login da dr ctx req db s = (s', Ok res) ->
  exists u role,
    List.filter (candidate (reqUsername req)) (rows db) = [u]
    /\ ValidatePassword CompareHashAndPassword u (reqPassword req) = true
    /\ uStatus u <> "disabled"
    /\ In role (rows db) /\ rKey role = uRoleKey u /\ rTenantID role = uTenantID u /\ rStatus role <> "disabled"
    /\ (forall name status,
          uTenantID u <> EmptyString -> HasTenantTable db = true ->
          ScanTenant (uTenantID u) db = Ok (name, status) -> name <> EmptyString ->
          status <> "disabled" /\ resTenantName res = name)
    /\ resUid res = uUID u /\ resTenantId res = uTenantID u /\ resExpires res = ttl
    /\ SignedString secret (tokenClaims da (uUID u) (uRoleKey u) (uTenantID u) tokenTypeAccess ttl) = Ok (resAccessToken res)
    /\ SignedString secret (tokenClaims dr (uUID u) (uRoleKey u) (uTenantID u) tokenTypeRefresh refreshTokenTTL)
       = Ok (resRefreshToken res).
Proof.
  clear parse_unvalidated unvalidated_signed ParseWithClaims ParseUnvalidated ValidateRefresh ValidateLogout.
  unfold Login. destruct (ValidateLogin req); [done|].
  destruct (match BeforeLogin opts with Some f => f ctx req s | None => (s, None) end) as [s1 [e|]]; [done|].
  unfold FindLimit. destruct (Find (candidate (reqUsername req)) db) as [l|e] eqn:Ef; [|done].
  apply Find_ok in Ef. rewrite <- Ef.
  destruct l as [|u l]; [done|]. destruct l as [|u2 l]; cbn [take]; [|done].
  destruct (loginGate u (reqPassword req) db) as [role|[e b]] eqn:Eg; [|by destruct b].
  apply loginGate_ok in Eg as (Hpw & Hst & Hrole & Hrst & Hten). apply First_ok in Hrole as [Hin Hw].
  apply andb_true_iff in Hw as [Hk%String.eqb_eq Ht%String.eqb_eq].
  unfold issue, createToken.
  destruct (SignedString secret (tokenClaims da _ _ _ _ _)) as [at_|e] eqn:Ea; [|done].
  destruct (SignedString secret (tokenClaims dr _ _ _ _ _)) as [rt|e] eqn:Er; [|done].
  cbn [rbind]. intros [= _ <-]. exists u, role.
  do 7 (split; [naive_solver|]). split; [|by repeat split].
  intros name status Hid Htab Hscan Hname. rewrite (resolveTenant_row _ _ _ _ Hid Htab Hscan Hname) in *.
  by split.
Qed.

Lemma claimOld_ok (now : Z) (c : Claims) (store store' : T) (u : Z) :
  claimOld now c store = (store', None) -> cID c <> EmptyString -> cExpiresAt c = Some u -> fence (cID c) u store'.
Proof.
  intros Hc Hj He. unfold claimOld in Hc. rewrite (proj2 (String.eqb_neq _ _) Hj), He in Hc.
  destruct (RevokeIfNotRevoked now (cID c) u store) as [st [[]|e]] eqn:Er; simplify_eq.
  by apply claim_fences in Er.
Qed.

Lemma RefreshToken_ok (now : Z) (da dr : draw) (raw : string) (db : DB) (store store' : T) (r : RefreshTokenResponse) :
  RefreshToken now da dr raw db store = (store', Ok r) ->
  exists c user, ParseWithClaims keyfunc now raw = Ok (c, true) /\ TokenType c = tokenTypeRefresh
    /\ refreshGate c db = Ok user /\ claimOld now c store = (store', None)
    /\ SignedString secret (tokenClaims da (uUID user) (uRoleKey user) (uTenantID user) tokenTypeAccess ttl) = Ok (rrAccessToken r)
    /\ SignedString secret (tokenClaims dr (uUID user) (uRoleKey user) (uTenantID user) tokenTypeRefresh refreshTokenTTL)
       = Ok (rrRefreshToken r).
Proof.
  unfold RefreshToken. destruct (ValidateRefresh raw); [done|].
  destruct (ParseWithClaims keyfunc now raw) as [[c v]|e] eqn:Ep; [|done].
  destruct (String.eqb_spec (TokenType c) tokenTypeRefresh) as [Ety|]; cbn [negb]; [|done].
  destruct (refreshGate c db) as [user|e] eqn:Eg; [|done].
  destruct (claimOld now c store) as [st [e|]] eqn:Ec; [done|]. unfold createToken.
  destruct (SignedString secret (tokenClaims dr _ _ _ _ _)) as [rt|e] eqn:Er; [|done].
  destruct (SignedString secret (tokenClaims da _ _ _ _ _)) as [at_|e] eqn:Ea; [|done].
  cbn [rbind]. intros [= -> <-]. exists c, user. pose proof (parse_unvalidated _ _ _ _ Ep) as (-> & _). done.
Qed.

(** While the fence is up a token that parses to the claims is not exchanged; past its
    expiry it no longer parses. *)
Lemma RefreshToken_fenced (n1 n2 : Z) (da dr : draw) (raw : string) (db : DB) (store : T) (r : RefreshTokenResponse)
    (c : Claims) (v : bool) (u : Z) :
  ParseWithClaims keyfunc n1 raw = Ok (c, v) -> cID c <> EmptyString -> cExpiresAt c = Some u ->
  (n2 < u -> fence (cID c) u store) -> snd (RefreshToken n2 da dr raw db store) <> Ok r.
Proof.
  intros Hp Hj Hu Hf Hr'. destruct (RefreshToken n2 da dr raw db store) as [st2 x] eqn:E2. cbn [snd] in Hr'. subst x.
  apply RefreshToken_ok in E2 as (c2 & user2 & Hp2 & _ & _ & Hc2 & _).
  assert (c2 = c) as -> by exact (parse_same _ _ _ _ _ _ _ Hp2 Hp).
  destruct (parse_unvalidated _ _ _ _ Hp2) as (_ & _ & Hexp). specialize (Hexp u Hu).
  unfold claimOld in Hc2. rewrite (proj2 (String.eqb_neq _ _) Hj), Hu in Hc2.
  pose proof (fence_loses n2 (cID c) u u store (Hf Hexp) Hexp) as Hl.
  destruct (RevokeIfNotRevoked n2 (cID c) u store) as [? [[]|]]; done.
Qed.


Lemma revokeToken_ok (now : Z) (raw : string) (store store' : T) (uid : string) (c : Claims) (u : Z) :
  revokeToken now raw store = (store', Ok uid) -> ParseWithClaims keyfunc now raw = Ok (c, true) ->
  cID c <> EmptyString -> cExpiresAt c = Some u -> fence (cID c) u store' /\ uid = UID c.
Proof.
  intros Hr Hp Hj Hu. unfold revokeToken in Hr. rewrite Hp, (proj2 (String.eqb_neq _ _) Hj), Hu in Hr.
  pose proof (proj2 (proj2 (parse_unvalidated _ _ _ _ Hp)) u Hu) as Hlt.
  rewrite (proj2 (Z.ltb_lt now u) Hlt) in Hr.
  destruct (Revoke now (cID c) u store) as [st [e|]] eqn:Er; simplify_eq.
  split; [|done]. by eapply revoke_fences.
Qed.

Lemma Validate_fenced (n : Z) (raw : string) (store : T) (c : Claims) (u : Z) :
  raw <> EmptyString -> ParseUnvalidated ["HS256"] (fun _ => Ok secret) raw = Ok (c, true) ->
  cID c <> EmptyString -> fence (cID c) u store -> n < u ->
  snd (Validate n raw store) = Some accessDenied.
Proof.
  intros Hraw Hp Hj Hf Hn. unfold Validate. rewrite (proj2 (String.eqb_neq _ _) Hraw), Hp.
  destruct (String.eqb (TokenType c) tokenTypeRefresh); [done|].
  rewrite (proj2 (String.eqb_neq _ _) Hj). cbn [negb].
  pose proof (fence_revoked n (cID c) u store Hf Hj Hn) as Hr.
  by destruct (Revoked n (cID c) store) as [? [[]|]].
Qed.

(** A token is put on the denylist by at most one write. *)
Lemma revokeToken_write (now : Z) (raw : string) (store store' : T) (uid : string) :
  revokeToken now raw store = (store', Ok uid) ->
  store' = store \/ exists jti til, Revoke now jti til store = (store', None).
Proof.
  unfold revokeToken. intros Hr. repeat case_match; simplify_eq; first [by left|right; by eexists _, _].
Qed.

(** C7. Logout ends the session: after a logout with a valid access token, with or
    without a refresh token beside it, the denylist holds the access token's id to its
    expiry (the only write after that is the one of the refresh token, which a full store
    may make room for), and a valid refresh token's id to its; while the store keeps an
    id, the validator refuses the access token, and wired into the JWT middleware every
    request outside the allowlist that presents it gets "access denied" and no handler
    runs, and no refresh of the refresh token succeeds.  The tokens carry an id and an
    expiry. *)
Theorem logout_ends_session (now : Z) (req : LogoutRequest) (store store1 : T) (uid : string) (c : Claims) (u : Z)
    {Kind : Type} (implementsClaims : Kind -> bool) (parseTyped : Kind -> string -> parsed (Claims := AnyClaims))
    (parseUntyped : string -> parsed (Claims := AnyClaims)) :
  Logout now req store = (store1, Ok uid) ->
  loAccessToken req <> EmptyString ->
  ParseWithClaims keyfunc now (loAccessToken req) = Ok (c, true) ->
  cID c <> EmptyString -> cExpiresAt c = Some u ->
  uid = UID c
  /\ (exists mid, fence (cID c) u mid /\ (loRefreshToken req = EmptyString -> store1 = mid)
        /\ (store1 = mid \/ exists jti til, Revoke now jti til mid = (store1, None)))
  /\ (forall n store2, n < u -> fence (cID c) u store2 ->
     snd (Validate n (loAccessToken req) store2) = Some accessDenied
     /\ forall (o : JwtAuth.options (Claims := AnyClaims) (World := World) (Kind := Kind)) hook (ctx : Ctx) (s : St),
        validate o = Some hook -> (forall ctx s raw, snd (hook ctx s raw) = snd (Validate n raw store2)) ->
        allowlisted o ctx s = false ->
        (exists header, Get s (ctxMeta ctx) authorizationKey = (header, true) /\ bearerToken header = loAccessToken req) ->
        exists s', forall next, JWT implementsClaims parseTyped parseUntyped o next ctx s = (s', Some accessDenied))
  /\ (forall cr ur, ParseWithClaims keyfunc now (loRefreshToken req) = Ok (cr, true) -> loRefreshToken req <> EmptyString ->
      cID cr <> EmptyString -> cExpiresAt cr = Some ur ->
      fence (cID cr) ur store1
      /\ forall n da dr db store2 r, (n < ur -> fence (cID cr) ur store2) ->
         snd (RefreshToken n da dr (loRefreshToken req) db store2) <> Ok r).
Proof.
  intros Hl Ha Hp Hj Hu. unfold Logout in Hl. destruct (ValidateLogout req); [done|].
  rewrite (proj2 (String.eqb_neq _ _) Ha) in Hl. cbn [andb negb] in Hl.
  destruct (revokeToken now (loAccessToken req) store) as [mid [id|e]] eqn:Er; [|done].
  destruct (revokeToken_ok _ _ _ _ _ _ _ Er Hp Hj Hu) as [Hf ->].
  split; [|split; [|split]].
  - repeat case_match; by simplify_eq.
  - exists mid. split; [done|]. split.
    + intros Hr. rewrite Hr in Hl. cbn in Hl. by simplify_eq.
    + destruct (negb (String.eqb (loRefreshToken req) EmptyString)); [|simplify_eq; by left].
      destruct (revokeToken now (loRefreshToken req) mid) as [st [x|e]] eqn:E2; simplify_eq. by eapply revokeToken_write.
  - intros n store2 Hn Hf2. pose proof (parse_unvalidated _ _ _ _ Hp) as (_ & Hpu & _).
    pose proof (Validate_fenced n (loAccessToken req) store2 c u Ha Hpu Hj Hf2 Hn) as Hv.
    split; [done|]. intros o hook ctx s Ho Hhook Hallow (header & Hg & Hb).
    exists (fst (hook ctx s (loAccessToken req))). intros next. unfold JWT. rewrite Hallow, Hg. cbn [negb].
    rewrite Hb, Ho. specialize (Hhook ctx s (loAccessToken req)). rewrite Hv in Hhook.
    destruct (hook ctx s (loAccessToken req)) as [s1 e]. cbn [snd] in Hhook. by subst e.
  - intros cr ur Hpr Hne Hjr Hur. rewrite (proj2 (String.eqb_neq _ _) Hne) in Hl. cbn [negb] in Hl.
    destruct (revokeToken now (loRefreshToken req) mid) as [st [x|e]] eqn:E2; simplify_eq.
    destruct (revokeToken_ok _ _ _ _ _ _ _ E2 Hpr Hjr Hur) as [Hfr _]. split; [done|].
    intros n da dr db store2 r Hf2. by eapply RefreshToken_fenced.
Qed.

(** The two kinds of token are not interchangeable: a refresh token the
    service signed is refused by the validator at every API route, and an access
    token it signed is refused by [RefreshToken], whatever the stores and the
    database hold. *)
Theorem token_types_separate (d : draw) (userid role tenantID raw : string) (n : Z) (store : T) :
  raw <> EmptyString ->
  (createToken d userid role tenantID tokenTypeRefresh refreshTokenTTL = Ok raw ->
   snd (Validate n raw store) = Some accessDenied)
  /\ (createToken d userid role tenantID tokenTypeAccess ttl = Ok raw ->
      forall da dr db r, snd (RefreshToken n da dr raw db store) <> Ok r).
Proof.
  intros Hraw. unfold createToken. split.
  - intros Hs. unfold Validate. rewrite (proj2 (String.eqb_neq _ _) Hraw).
    by rewrite (unvalidated_signed _ _ _ Hs).
  - intros Hs da dr db r Hr. destruct (RefreshToken n da dr raw db store) as [st x] eqn:E. cbn [snd] in Hr. subst x.
    apply RefreshToken_ok in E as (c & user & Hp & Hty & _).
    apply parse_unvalidated in Hp as (_ & Hp & _). rewrite (unvalidated_signed _ _ _ Hs) in Hp.
    injection Hp as <-. cbn in Hty. discriminate.
Qed.

End Service.

(** ** Concrete runs *)

Definition demoOpts : AuthServiceOptions (World := unit) := mkAuthOptions 0 None None "k" None.
Definition drawA : draw := mkDraw second "a1".
Definition drawR : draw := mkDraw second "r1".
Definition claimsA : Claims := tokenClaims (fun t => t) drawA "alice1" "editor" "t1" tokenTypeAccess (ttl demoOpts).
Definition claimsR : Claims := tokenClaims (fun t => t) drawR "alice1" "editor" "t1" tokenTypeRefresh refreshTokenTTL.

(** A signer that knows two tokens per key. *)
Definition demoSign (k : string) (c : Claims) : result error string :=
  if negb (String.eqb k "k") then Err (EPlain "key")
  else if decide (c = claimsA) then Ok "tokA" else if decide (c = claimsR) then Ok "tokR" else Err (EPlain "unknown").
Definition demoUnvalidated (methods : list string) (kf : string -> result error string) (raw : string) :
    result error (Claims * bool) :=
  match kf "HS256" with
  | Ok k => if negb (String.eqb k "k") then Err (ESentinel ErrTokenUnverifiable)
            else if String.eqb raw "tokA" then Ok (claimsA, true)
            else if String.eqb raw "tokR" then Ok (claimsR, true) else Err (ESentinel ErrTokenMalformed)
  | Err e => Err e
  end.
Definition demoParseClaims (kf : string -> result error string) (now : Z) (raw : string) : result error (Claims * bool) :=
  match demoUnvalidated ["HS256"] kf raw with
  | Ok (c, v) => if now <? default 0 (cExpiresAt c) then Ok (c, v) else Err (ESentinel ErrJwtTokenExpired)
  | Err e => Err e
  end.

Lemma demo_unvalidated_signed (k : string) (c : Claims) (raw : string) :
  demoSign k c = Ok raw -> demoUnvalidated ["HS256"] (fun _ => Ok k) raw = Ok (c, true).
Proof.
  unfold demoSign, demoUnvalidated. destruct (String.eqb k "k"); cbn [negb]; [|done].
  destruct (decide (c = claimsA)) as [->|]; [by intros [= <-]|].
  destruct (decide (c = claimsR)) as [->|]; [by intros [= <-]|done].
Qed.

Lemma demo_parse_unvalidated (now : Z) (raw : string) (c : Claims) (v : bool) :
  demoParseClaims (keyfunc demoOpts) now raw = Ok (c, v) ->
  v = true /\ demoUnvalidated ["HS256"] (fun _ => Ok (secret demoOpts)) raw = Ok (c, true)
  /\ (forall e, cExpiresAt c = Some e -> now < e).
Proof.
  unfold demoParseClaims. change (keyfunc demoOpts "HS256") with (@Ok error _ "k").
  unfold demoUnvalidated. change (keyfunc demoOpts "HS256") with (@Ok error _ "k").
  change (secret demoOpts) with "k". cbn [String.eqb Ascii.eqb Bool.eqb negb].
  destruct (String.eqb raw "tokA"); [|destruct (String.eqb raw "tokR"); [|done]].
  all: destruct (Z.ltb_spec now (default 0 (cExpiresAt claimsA))) as [Hl|Hl];
    destruct (Z.ltb_spec now (default 0 (cExpiresAt claimsR))) as [Hl'|Hl']; intros [= <- <-].
  all: split; [done|]; split; [done|]; intros e [= <-]; assumption.
Qed.

Definition hashed : User := withPassword "$2secret99" (withTenantModel tenant1 (alice "")).
Definition authDB : Tables := mkTables [demoRole] [] [hashed] [].
Definition plainCtx : GoContext AnyClaims := mkCtx None None.
Definition noWorld : State (World := unit) := mkStore ∅ tt.
Definition noTenants (_ : string) (_ : Tables) : result error (string * string) := Ok (EmptyString, EmptyString).

Definition demoLogin (password : string) :=
  Login demoCompare (fun _ => None) demoSign (fun t => t) demoOpts (fun _ => false) noTenants
    drawA drawR plainCtx (mkLoginRequest "alice" password) authDB noWorld.
Definition goodLogin : LoginResponse := mkLoginResponse "alice1" "alice" 7200 "tokA" "tokR" "t1" "t1".

Lemma Login_gated_witness :
  exists u role, List.filter (candidate "alice") (rows authDB) = [u]
    /\ ValidatePassword demoCompare u "secret99" = true /\ In role (rows authDB) /\ rKey role = uRoleKey u
    /\ resTenantName goodLogin = "t1".
Proof.
  destruct (Login_gated demoCompare (fun _ => None) demoSign (fun t => t) demoOpts (fun _ => true) (fun id _ => Ok (id, "enabled"))
              drawA drawR plainCtx (mkLoginRequest "alice" "secret99") authDB noWorld noWorld goodLogin)
    as (u & role & Hf & Hp & _ & Hr & Hk & _ & _ & Ht & _ & Hid & _); [vm_compute; reflexivity|].
  exists u, role. repeat (split; [done|]). apply (Ht "t1" "enabled"); rewrite <- ?Hid; done.
Defined.

Example wrong_password : snd (demoLogin "secret98") = Err (ESentinel ErrInvalidPassword).
Proof. reflexivity. Qed.

#[local] Instance demoStore : TokenStore MemoryTokenStore := memTokenStore keyOrder.
#[local] Instance demoStore_lawful : LawfulTokenStore MemoryTokenStore := memTokenStore_lawful keyOrder.

Definition demoRefresh (n : Z) (store : MemoryTokenStore) :=
  RefreshToken (fun _ => None) demoSign (fun t => t) demoParseClaims demoOpts n drawA drawR "tokR" authDB store.


Lemma logout_ends_session_witness :
  let store1 := fst (Logout (fun _ => None) demoParseClaims demoOpts (2 * second) (mkLogoutRequest "tokA" EmptyString) store2) in
  snd (Validate demoUnvalidated demoOpts (3 * second) "tokA" store1) = Some accessDenied.
Proof.
  intros store1.
  destruct (logout_ends_session (World := unit) (DB := Tables) (fun _ => None) (fun _ => None) demoSign (fun t => t)
              demoParseClaims demoUnvalidated demoOpts
              demo_parse_unvalidated (2 * second) (mkLogoutRequest "tokA" EmptyString) store2 store1 "alice1" claimsA
              (second + seconds 7200) (Kind := unit) (fun _ => true) (fun _ _ => PErr accessDenied false) (fun _ => PErr accessDenied false))
    as (_ & (mid & Hf & Hmid & _) & Hv & _).
  - vm_compute. reflexivity.
  - discriminate.
  - vm_compute. reflexivity.
  - vm_compute. discriminate.
  - reflexivity.
  - apply (Hv (3 * second) store1); [vm_compute; reflexivity|]. by rewrite (Hmid eq_refl).
Defined.

(** A logout with both tokens on a store that has no room for both: that for the
    refresh token is made by dropping the access token's id, which stays usable. *)
Example full_store_forgets_access_token :
  let full := mkTokenStore 1 ∅ in
  let store1 := fst (Logout (fun _ => None) demoParseClaims demoOpts (2 * second) (mkLogoutRequest "tokA" "tokR") full) in
  snd (Validate demoUnvalidated demoOpts (3 * second) "tokA" store1) = None
  /\ revoked store1 !! "r1" = Some (second + seconds refreshTokenTTL).
Proof. vm_compute. auto. Qed.

Lemma token_types_separate_witness :
  snd (Validate demoUnvalidated demoOpts (3 * second) "tokR" store2) = Some accessDenied.
Proof.
  apply (token_types_separate (DB := Tables) (fun _ => None) demoSign (fun t => t) demoParseClaims demoUnvalidated
           demoOpts demo_unvalidated_signed demo_parse_unvalidated drawR "alice1" "editor" "t1" "tokR" (3 * second) store2);
    [discriminate|vm_compute; reflexivity].
Defined.

(** A disabled tenant refuses a login and not a refresh: the refresh looks at the
    user and the role only. *)
Example disabled_tenant_still_refreshes :
  snd (Login demoCompare (fun _ => None) demoSign (fun t => t) demoOpts (fun _ => true)
         (fun _ _ => Ok ("Acme", "disabled")) drawA drawR plainCtx (mkLoginRequest "alice" "secret99") authDB noWorld)
  = Err tenantDisabled
  /\ snd (demoRefresh (2 * second) store2)
     = Ok (mkRefreshResponse "alice1" 7200 "tokA" "tokR").
Proof. vm_compute. auto. Qed.
