(* ===== verification/TenantScope.v ===== *)
(** [admin/tenant_scope.go], [admin/middleware]: the callbacks that scope every
    statement on a table with a [tenant_id] column to the tenant of the request,
    and the isolation they give. *)

From Stdlib Require Import ZArith Lia String List Bool.
From stdpp Require Import base tactics list gmap strings.
From S2P Require Import Prelude GoStrings Errs Metadata Middleware AdminClaims Gorm.

Local Open Scope string_scope.
Local Open Scope list_scope.

(** ** The context of an operation *)

(** A request context and the value under [tenantBypassKey]. *)
Record OpCtx : Type := mkOpCtx { opCtx : GoContext AnyClaims; opBypass : bool }.

Definition WithoutTenant (ctx : option OpCtx) : OpCtx :=
  mkOpCtx (match ctx with Some c => opCtx c | None => mkCtx None None end) true.

Definition tenantBypassed (ctx : option OpCtx) : bool :=
  match ctx with Some c => opBypass c | None => false end.

Definition Resolver : Type := OpCtx -> string.

(** The default resolver: [None] is the panic on a nil claims pointer. *)
Definition FromClaimsResolver (ctx : OpCtx) : option string := TenantIDFromContext (opCtx ctx).

Definition FromClaimsUserResolve (ctx : OpCtx) : option string :=
  match ClaimsFromContext (opCtx ctx) with
  | (Some c, true) => Some (UID c)
  | (None, true) => None
  | (_, false) => Some EmptyString
  end.

(** ** The tenant column *)

(** A parsed schema: its address, which gorm interns, and its columns. *)
Record Schema : Type := mkSchema { sPtr : nat; sFields : list string }.

(** The cache is [__tenantgmap nat bool]. *)
Definition hasTenantIDColumn (s : option Schema) (cache : gmap nat bool) : gmap nat bool * bool :=
  match s with
  | None => (cache, false)
  | Some s =>
      match cache !! sPtr s with
      | Some v => (cache, v)
      | None => let v := existsb (String.eqb "tenant_id") (sFields s) in (<[sPtr s := v]> cache, v)
      end
  end.

(** Every entry answers for the schema at its address. *)
Definition cache_sound (schemas : list Schema) (cache : gmap nat bool) : Prop :=
  forall s v, In s schemas -> cache !! sPtr s = Some v -> v = existsb (String.eqb "tenant_id") (sFields s).

Lemma hasTenantIDColumn_spec (schemas : list Schema) (s : Schema) (cache : gmap nat bool) :
  NoDup (map sPtr schemas) -> In s schemas -> cache_sound schemas cache ->
  exists cache', hasTenantIDColumn (Some s) cache = (cache', existsb (String.eqb "tenant_id") (sFields s))
    /\ cache_sound schemas cache'.
Proof.
  intros Hnd Hin Hc. unfold hasTenantIDColumn. destruct (cache !! sPtr s) as [v|] eqn:E.
  - exists cache. by rewrite (Hc s v Hin E).
  - exists (<[sPtr s := existsb (String.eqb "tenant_id") (sFields s)]> cache). split; [done|]. intros s' v' Hin' Hl.
    destruct (decide (sPtr s' = sPtr s)) as [Heq|Hne]; [|rewrite lookup_insert_ne in Hl by congruence; by apply Hc].
    rewrite Heq, lookup_insert_eq in Hl. injection Hl as <-. f_equal.
    enough (s' = s) as -> by done.
    apply list_elem_of_In in Hin, Hin'. apply list_elem_of_lookup in Hin as [i Hi], Hin' as [j Hj].
    assert (j = i) as ->; [|congruence].
    apply (NoDup_lookup (map sPtr schemas) j i (sPtr s)); [done| |]; apply list_lookup_fmap_Some; eauto.
Qed.

(** ** setTenantID *)

(** A reflected value, with what the walk looks at: the kind, the elements, the
    fields with their names, whether they are embedded and settable. *)
Inductive RValue : Type :=
| RInvalid
| RSlice (elems : list RValue)
| RPointer (elem : option RValue)
| RStruct (fields : list (string * bool * bool * RValue))
| RString (s : string)
| ROther.

Fixpoint setTenantID (tid : string) (rv : RValue) : RValue :=
  match rv with
  | RSlice l => RSlice (map (setTenantID tid) l)
  | RPointer (Some v) => RPointer (Some (setTenantID tid v))
  | RStruct fields =>
      RStruct (map (fun f =>
        let '(name, anonymous, canSet, v) := f in
        if (anonymous : bool) then (name, anonymous, canSet, setTenantID tid v)
        else match v with
             | RString s => if String.eqb name "TenantID" && canSet then (name, anonymous, canSet, RString tid) else f
             | _ => f
             end) fields)
  | _ => rv
  end.

(** The tenant ids a value carries: those of its settable [TenantID] strings. *)
Fixpoint tenantIDs (rv : RValue) : list string :=
  match rv with
  | RSlice l => flat_map tenantIDs l
  | RPointer (Some v) => tenantIDs v
  | RStruct fields =>
      flat_map (fun f =>
        let '(name, anonymous, canSet, v) := f in
        if (anonymous : bool) then tenantIDs v
        else match v with
             | RString s => if String.eqb name "TenantID" && canSet then [s] else []
             | _ => []
             end) fields
  | _ => []
  end.

(** Induction under the lists. *)
Lemma RValue_rect' (P : RValue -> Prop) :
  P RInvalid -> (forall l, Forall P l -> P (RSlice l)) -> P (RPointer None) -> (forall v, P v -> P (RPointer (Some v))) ->
  (forall fields, Forall (fun f => P (snd f)) fields -> P (RStruct fields)) -> (forall s, P (RString s)) -> P ROther ->
  forall v, P v.
Proof.
  intros H1 H2 H3 H4 H5 H6 H7. fix IH 1. intros [|l|[v|]|fields|s|].
  - exact H1.
  - apply H2. induction l as [|x l IHl]; constructor; [apply IH|exact IHl].
  - apply H4, IH.
  - exact H3.
  - apply H5. induction fields as [|[[[n a] c] x] l IHl]; constructor; [apply IH|exact IHl].
  - apply H6.
  - exact H7.
Qed.

Lemma setTenantID_forces (tid : string) (rv : RValue) : Forall (eq tid) (tenantIDs (setTenantID tid rv)).
Proof.
  induction rv as [|l IH| |v IH|fields IH|s|] using RValue_rect'; cbn; try (constructor || exact IH).
  - induction IH as [|x l Hx _ IHl]; cbn; [constructor|]. by apply Forall_app.
  - induction IH as [|[[[n a] c] x] l Hx _ IHl]; cbn; [constructor|]. apply Forall_app. split; [|exact IHl].
    cbn in Hx. destruct a; cbn; [exact Hx|]. destruct x; cbn; try constructor.
    destruct (String.eqb n "TenantID" && c) eqn:E; cbn; rewrite E; repeat constructor.
Qed.

(** What a value carries besides is not touched: two values that differ in their
    tenant ids only are made equal, and the walk is idempotent. *)
Lemma setTenantID_overwrites (tid tid' : string) (rv : RValue) : setTenantID tid (setTenantID tid' rv) = setTenantID tid rv.
Proof.
  induction rv as [|l IH| |v IH|fields IH|s|] using RValue_rect'; cbn; try done.
  - f_equal. rewrite map_map. by induction IH as [|x l Hx _ IHl]; cbn; [|rewrite Hx, IHl].
  - by rewrite IH.
  - f_equal. rewrite map_map. induction IH as [|[[[n a] c] x] l Hx _ IHl]; cbn; [done|]. rewrite IHl. f_equal.
    cbn in Hx. destruct a; [by rewrite Hx|]. destruct x; try done.
    destruct (String.eqb n "TenantID" && c) eqn:E; rewrite ?E; done.
Qed.

Lemma setTenantID_id (tid : string) (rv : RValue) : Forall (eq tid) (tenantIDs rv) -> setTenantID tid rv = rv.
Proof.
  induction rv as [|l IH| |v IH|fields IH|s|] using RValue_rect'; cbn; try done.
  - intros Hf. f_equal. induction IH as [|x l Hx _ IHl]; cbn in *; [done|].
    apply Forall_app in Hf as [H1 H2]. by rewrite Hx, IHl.
  - intros Hf. by rewrite IH.
  - intros Hf. f_equal. induction IH as [|[[[n a] c] x] l Hx _ IHl]; cbn in *; [done|].
    apply Forall_app in Hf as [H1 H2]. rewrite (IHl H2). f_equal.
    destruct a; [by rewrite Hx|]. destruct x; try done.
    destruct (String.eqb n "TenantID" && c) eqn:E; [|done]. by inversion H1 as [|? ? <-].
Qed.

(** ** Scoped statements *)

Section Scoped.

(** A table whose rows may have a tenant; [stamp] is [setTenantID] on a row. *)
Context {DB R : Type} `{GormLaws DB R}.
Variable hasColumn : bool.
Variable tenantOf : R -> string.
Variable stamp : string -> R -> R.
Variable resolver : Resolver.
Hypothesis tenantOf_stamp : forall t r, tenantOf (stamp t r) = t.

Definition applyTenantScope (ctx : OpCtx) (w : R -> bool) : R -> bool :=
  if negb hasColumn || tenantBypassed (Some ctx) then w
  else let tid := resolver ctx in
       if String.eqb tid EmptyString then w else fun r => w r && String.eqb (tenantOf r) tid.

Definition tenantCreate (ctx : OpCtx) (rs : list R) : list R :=
  if negb hasColumn || tenantBypassed (Some ctx) then rs
  else let tid := resolver ctx in
       if String.eqb tid EmptyString then rs else map (stamp tid) rs.

(** The statements of a handle after [installTenantScope]. *)
Definition installTenantScope (ctx : OpCtx) : Gorm DB R := {|
  rows := rows;
  Find w db := Find (applyTenantScope ctx w) db;
  Update w f db := Update (applyTenantScope ctx w) f db;
  DeleteRows w db := DeleteRows (applyTenantScope ctx w) db;
  Create rs db := Create (tenantCreate ctx rs) db;
|}.

(** What a handler does with the table: statements, each chosen by what the earlier
    ones found. *)
Inductive Prog : Type :=
| PDone
| PFind (w : R -> bool) (k : list R -> Prog)
| PUpdate (w : R -> bool) (f : R -> R) (k : Prog)
| PDelete (w : R -> bool) (k : Prog)
| PCreate (rs : list R) (k : Prog).

(** The run on a handle: everything read, in order; an error ends it. *)
Fixpoint runProg (g : Gorm DB R) (p : Prog) (db : DB) : result error (DB * list (list R)) :=
  match p with
  | PDone => Ok (db, [])
  | PFind w k => match Find (Gorm := g) w db with
                 | Err e => Err e
                 | Ok l => match runProg g (k l) db with
                           | Err e => Err e
                           | Ok (db', out) => Ok (db', l :: out)
                           end
                 end
  | PUpdate w f k => match Update (Gorm := g) w f db with
                     | (_, Some e) => Err e
                     | (db', None) => runProg g k db'
                     end
  | PDelete w k => match DeleteRows (Gorm := g) w db with
                   | (_, Some e) => Err e
                   | (db', None) => runProg g k db'
                   end
  | PCreate rs k => match Create (Gorm := g) rs db with
                    | (_, Some e) => Err e
                    | (db', None) => runProg g k db'
                    end
  end.

(** The same program on a table of one tenant's own. *)
Fixpoint runPrivate (tid : string) (p : Prog) (own : list R) : list R * list (list R) :=
  match p with
  | PDone => (own, [])
  | PFind w k => let l := List.filter w own in
                 let '(own', out) := runPrivate tid (k l) own in (own', l :: out)
  | PUpdate w f k => runPrivate tid k (updateRows w f own)
  | PDelete w k => runPrivate tid k (keepRows w own)
  | PCreate rs k => runPrivate tid k (own ++ map (stamp tid) rs)
  end.

(** No update moves a row to another tenant. *)
Fixpoint keepsTenant (p : Prog) : Prop :=
  match p with
  | PDone => True
  | PFind _ k => forall l, keepsTenant (k l)
  | PUpdate _ f k => (forall r, tenantOf (f r) = tenantOf r) /\ keepsTenant k
  | PDelete _ k | PCreate _ k => keepsTenant k
  end.

Definition ownRows (tid : string) (l : list R) : list R := List.filter (fun r => String.eqb (tenantOf r) tid) l.
Definition foreignRows (tid : string) (l : list R) : list R := List.filter (fun r => negb (String.eqb (tenantOf r) tid)) l.

(** How scoped changes split over a tenant's own rows and the others. *)
Lemma split_find (tid : string) (w : R -> bool) (l : list R) :
  List.filter (fun r => w r && String.eqb (tenantOf r) tid) l = List.filter w (ownRows tid l).
Proof.
  unfold ownRows. induction l as [|r l IH]; cbn; [done|].
  destruct (String.eqb (tenantOf r) tid); cbn; [rewrite andb_true_r|rewrite andb_false_r; exact IH].
  destruct (w r); by rewrite IH.
Qed.

Lemma split_update (tid : string) (w : R -> bool) (f : R -> R) (l : list R) :
  (forall r, tenantOf (f r) = tenantOf r) ->
  let w' := fun r => w r && String.eqb (tenantOf r) tid in
  ownRows tid (updateRows w' f l) = updateRows w f (ownRows tid l)
  /\ foreignRows tid (updateRows w' f l) = foreignRows tid l.
Proof.
  intros Hf w'. unfold ownRows, foreignRows, updateRows, w'. induction l as [|r l [IH1 IH2]]; cbn; [done|].
  destruct (String.eqb (tenantOf r) tid) eqn:E; cbn.
  - rewrite andb_true_r. destruct (w r) eqn:Ew; cbn; rewrite ?Hf, E; cbn; rewrite ?Ew, IH1, IH2; done.
  - rewrite andb_false_r, E; cbn. by rewrite IH1, IH2.
Qed.

Lemma split_delete (tid : string) (w : R -> bool) (l : list R) :
  let w' := fun r => w r && String.eqb (tenantOf r) tid in
  ownRows tid (keepRows w' l) = keepRows w (ownRows tid l) /\ foreignRows tid (keepRows w' l) = foreignRows tid l.
Proof.
  intros w'. unfold ownRows, foreignRows, keepRows, w'. induction l as [|r l [IH1 IH2]]; cbn; [done|].
  destruct (String.eqb (tenantOf r) tid) eqn:E; cbn.
  - rewrite andb_true_r. destruct (w r) eqn:Ew; cbn; rewrite ?E; cbn; rewrite ?Ew; cbn; rewrite ?IH1, ?IH2; done.
  - rewrite andb_false_r; cbn. rewrite E. cbn. by rewrite IH1, IH2.
Qed.

Lemma split_create (tid : string) (rs l : list R) :
  ownRows tid (l ++ map (stamp tid) rs) = ownRows tid l ++ map (stamp tid) rs
  /\ foreignRows tid (l ++ map (stamp tid) rs) = foreignRows tid l.
Proof.
  assert (forall x, In x (map (stamp tid) rs) -> String.eqb (tenantOf x) tid = true) as Hx.
  { intros x (r & <- & _)%in_map_iff. by rewrite tenantOf_stamp, String.eqb_refl. }
  unfold ownRows, foreignRows. rewrite !List.filter_app. split; f_equal.
  - by apply filter_all.
  - rewrite <- (app_nil_r (List.filter _ l)) at 2. f_equal. apply filter_none. intros x Hin. by rewrite Hx.
Qed.

(** C8. Isolation: a handler that runs under a tenant and whose updates do not write the
    tenant column (see [update_can_move_a_row] for one that does), whatever statements it
    chooses from what it reads, behaves exactly as on a table of that tenant's own
    rows: it reads nothing else, what it creates is the tenant's, and the rows of
    every other tenant are left as they were. *)
Theorem tenant_isolation (ctx : OpCtx) (p : Prog) (db db' : DB) (out : list (list R)) :
  hasColumn = true -> opBypass ctx = false -> resolver ctx <> EmptyString -> keepsTenant p ->
  runProg (installTenantScope ctx) p db = Ok (db', out) ->
  (ownRows (resolver ctx) (rows db'), out) = runPrivate (resolver ctx) p (ownRows (resolver ctx) (rows db))
  /\ foreignRows (resolver ctx) (rows db') = foreignRows (resolver ctx) (rows db).
Proof.
  intros Hcol Hby Hne. set (tid := resolver ctx) in *.
  assert (forall w, applyTenantScope ctx w = fun r => w r && String.eqb (tenantOf r) tid) as Hscope.
  { intros w. unfold applyTenantScope, tenantBypassed. rewrite Hcol, Hby. cbn. fold tid.
    by destruct (String.eqb_spec tid EmptyString). }
  assert (forall rs, tenantCreate ctx rs = map (stamp tid) rs) as Hstamp.
  { intros rs. unfold tenantCreate, tenantBypassed. rewrite Hcol, Hby. cbn. fold tid.
    by destruct (String.eqb_spec tid EmptyString). }
  revert db db' out. induction p as [|w k IH|w f k IH|w k IH|rs k IH]; intros db db' out Hk Hrun;
    cbn [runProg runPrivate Find Update DeleteRows Create installTenantScope] in *; rewrite ?Hscope, ?Hstamp in Hrun.
  - by injection Hrun as <- <-.
  - destruct (Find _ db) as [l|e] eqn:Ef; [|done]. apply Find_ok in Ef. rewrite split_find in Ef. subst l.
    destruct (runProg _ (k _) db) as [[db1 out1]|e] eqn:Er; [|done]. injection Hrun as <- <-.
    destruct (IH _ _ _ _ (Hk _) Er) as [Hp Hfr]. rewrite <- Hp. done.
  - destruct (Update _ f db) as [db1 [e|]] eqn:Eu; [done|]. apply Update_ok in Eu.
    destruct Hk as [Hf Hk]. destruct (IH _ _ _ Hk Hrun) as [Hp Hfr].
    destruct (split_update tid w f (rows db) Hf) as [H1 H2]. rewrite <- Eu in H1, H2.
    by rewrite Hp, Hfr, H1, H2.
  - destruct (DeleteRows _ db) as [db1 [e|]] eqn:Eu; [done|]. apply DeleteRows_ok in Eu.
    destruct (IH _ _ _ Hk Hrun) as [Hp Hfr].
    destruct (split_delete tid w (rows db)) as [H1 H2]. rewrite <- Eu in H1, H2.
    by rewrite Hp, Hfr, H1, H2.
  - destruct (Create _ db) as [db1 [e|]] eqn:Eu; [done|]. apply Create_ok in Eu.
    destruct (IH _ _ _ Hk Hrun) as [Hp Hfr].
    destruct (split_create tid rs (rows db)) as [H1 H2]. rewrite <- Eu in H1, H2.
    by rewrite Hp, Hfr, H1, H2.
Qed.

End Scoped.

(** ** A concrete table *)

Definition demoRow : Type := (string * nat)%type.
Definition demoTable : Gorm (list demoRow) demoRow := tableGorm id (fun l _ => l).
#[local] Existing Instance demoTable.
#[local] Instance demoTable_laws : GormLaws (list demoRow) demoRow.
Proof. by apply tableGorm_laws. Qed.

Definition demoStamp (t : string) (r : demoRow) : demoRow := (t, snd r).
Definition demoResolver : Resolver := fun ctx => default EmptyString (FromClaimsResolver ctx).
Definition demoCtx (tenant : string) : OpCtx :=
  mkOpCtx (mkCtx None (Some (AdminClaims (mkClaims "" None None None "u1" "editor" tenant "access")))) false.

(** Read all, delete those above what was read first, create one for another
    tenant. *)
Definition demoProg : Prog (R := demoRow) :=
  PFind (fun _ => true) (fun l =>
    PDelete (fun r => Nat.ltb (length l) (snd r)) (PCreate [("B", 7)] PDone)).

(** An update of the tenant column is not held back by the scope. *)
Example update_can_move_a_row :
  fst (Update (Gorm := installTenantScope true fst demoStamp demoResolver (demoCtx "A"))
         (fun _ => true) (fun r => ("B", snd r)) [("A", 1); ("B", 2)]) = [("B", 1); ("B", 2)].
Proof. reflexivity. Qed.

(** Without a tenant in the context (a login) every row is seen. *)
Example login_is_unscoped :
  Find (Gorm := installTenantScope true fst demoStamp demoResolver (mkOpCtx (mkCtx None None) false))
    (fun _ => true) [("A", 1); ("B", 2)] = Ok [("A", 1); ("B", 2)].
Proof. reflexivity. Qed.

Lemma tenant_isolation_witness :
  runProg (installTenantScope true fst demoStamp demoResolver (demoCtx "A")) demoProg [("A", 1); ("B", 9); ("A", 5)]
    = Ok ([("A", 1); ("B", 9); ("A", 7)], [[("A", 1); ("A", 5)]])
  /\ foreignRows fst "A" [("A", 1); ("B", 9); ("A", 7)] = [("B", 9)].
Proof.
  split; [reflexivity|].
  refine (proj2 (tenant_isolation true fst demoStamp demoResolver (fun _ _ => eq_refl) (demoCtx "A") demoProg
           [("A", 1); ("B", 9); ("A", 5)] [("A", 1); ("B", 9); ("A", 7)] [[("A", 1); ("A", 5)]] _ _ _ _ _));
    [reflexivity|reflexivity|discriminate|cbn; done|reflexivity].
Defined.
