(* ===== verification/Endpoints.v ===== *)
(** [admin/endpoint_allowlist.go], [schema_endpoint.go], [modeltypes_endpoint.go],
    [modeltiers_endpoint.go]: the metadata endpoints and the columns they may serve. *)

From Stdlib Require Import ZArith Lia String Ascii List Bool.
From stdpp Require Import base tactics list gmap strings.
From S2P Require Import Prelude GoStrings GoPath Errs Metadata Middleware Derive TenantScope.

Local Open Scope string_scope.
Local Open Scope list_scope.
Local Open Scope aeus_scope.

(** ** Paths *)

Definition parseSchemaPath (p : string) : option (string * string) :=
  match SplitByte (TrimByte slash p) slash with
  | [w; m; t] => if negb (String.eqb w "schema") then None
                 else if String.eqb m EmptyString || String.eqb t EmptyString then None
                 else Some (m, t)
  | _ => None
  end.

Definition parseModuleTablePath (p wantSegment : string) : option (string * string) :=
  match SplitByte (TrimByte slash p) slash with
  | [r; w; m; t] => if negb (String.eqb r "rest") || negb (String.eqb w wantSegment) then None
                    else if String.eqb m EmptyString || String.eqb t EmptyString then None
                    else Some (m, t)
  | _ => None
  end.

(** A path segment. *)
Definition segment (s : string) : Prop := s <> EmptyString /\ byte_free slash s = true.

(** [segs] between any number of slashes on both sides. *)
Definition spells (p : string) (segs : list string) : Prop :=
  exists m n, p = Repeat "/" m +:+ Join segs "/" +:+ Repeat "/" n.

(** The segments of a trimmed path are what is between its slashes. *)
Lemma split_spells (p : string) : spells p (SplitByte (TrimByte slash p) slash).
Proof.
  destruct (TrimByte_spec slash p) as (m & n & Hp). exists m, n. rewrite Hp at 1. f_equal. f_equal.
  symmetry. apply Join_SplitByte.
Qed.

Lemma spells_split (p : string) (segs : list string) :
  segs <> [] -> Forall segment segs -> spells p segs -> SplitByte (TrimByte slash p) slash = segs.
Proof.
  intros Hne Hs (m & n & ->). rewrite TrimByte_tight.
  - apply SplitByte_Join; [done|]. eapply Forall_impl; [exact Hs|]. by intros x [_ ?].
  - destruct segs as [|x l]; [done|]. inversion Hs as [|? ? [Hx Hf] _]; subst. destruct x as [|a x]; [done|].
    cbn in Hf. apply andb_true_iff in Hf as [Ha _]. apply negb_true_iff, Ascii.eqb_neq in Ha.
    destruct l; [by apply TrimLeftByte_head|]. cbn [Join String.append]. by apply TrimLeftByte_head.
  - destruct (exists_last Hne) as (l & x & ->). apply Forall_app in Hs as [_ Hx]. inversion Hx as [|? ? [Hx1 Hx2] _]; subst.
    destruct l as [|y l]; [cbn [app Join]; exact (TrimRightByte_last slash EmptyString x Hx1 Hx2)|].
    rewrite Join_app by done. cbn [Join]. rewrite <- append_assoc. by apply TrimRightByte_last.
Qed.

(** The paths of the three endpoints, exactly. *)
Lemma parseSchemaPath_spec (p m t : string) :
  parseSchemaPath p = Some (m, t) <-> segment m /\ segment t /\ spells p ["schema"; m; t].
Proof.
  unfold parseSchemaPath. split.
  - pose proof (split_spells p) as Hs. pose proof (SplitByte_pieces (TrimByte slash p) slash) as Hf.
    destruct (SplitByte _ _) as [|w [|m' [|t' [|? ?]]]]; try done.
    destruct (String.eqb_spec w "schema") as [->|]; [|done]. cbn [negb].
    destruct (String.eqb_spec m' EmptyString); [done|]. destruct (String.eqb_spec t' EmptyString); [done|]. intros [= <- <-].
    inversion Hf as [|? ? _ Hf1]; subst. inversion Hf1 as [|? ? Hm Hf2]; subst. inversion Hf2 as [|? ? Ht _]; subst. by repeat split.
  - intros ([Hm Hm'] & [Ht Ht'] & Hs). rewrite (spells_split p ["schema"; m; t]); [|done| |done].
    + cbn. by rewrite !(proj2 (String.eqb_neq _ _)).
    + repeat constructor; done.
Qed.

Lemma parseModuleTable_segments (p want m t : string) :
  parseModuleTablePath p want = Some (m, t) -> segment m /\ segment t /\ spells p ["rest"; want; m; t].
Proof.
  unfold parseModuleTablePath. pose proof (split_spells p) as Hs. pose proof (SplitByte_pieces (TrimByte slash p) slash) as Hf.
  destruct (SplitByte _ _) as [|r [|w [|m' [|t' [|? ?]]]]]; try done.
  destruct (String.eqb_spec r "rest") as [->|]; [|done]. destruct (String.eqb_spec w want) as [->|]; [|done]. cbn [negb orb].
  destruct (String.eqb_spec m' EmptyString); [done|]. destruct (String.eqb_spec t' EmptyString); [done|]. intros [= <- <-].
  inversion Hf as [|? ? _ Hf0]; subst. inversion Hf0 as [|? ? _ Hf1]; subst. inversion Hf1 as [|? ? Hm Hf2]; subst.
  inversion Hf2 as [|? ? Ht _]; subst. by repeat split.
Qed.

Lemma parseModuleTablePath_spec (p want m t : string) :
  segment want ->
  parseModuleTablePath p want = Some (m, t) <-> segment m /\ segment t /\ spells p ["rest"; want; m; t].
Proof.
  intros Hw. split; [apply parseModuleTable_segments|]. intros ([Hm Hm'] & [Ht Ht'] & Hs). unfold parseModuleTablePath.
  rewrite (spells_split p ["rest"; want; m; t]); [|done| |done].
  - rewrite !String.eqb_refl. cbn. by rewrite !(proj2 (String.eqb_neq _ _)).
  - repeat constructor; first [done|apply Hw].
Qed.

(** ** Columns *)

(** A row of [sys_schemas] as the allowlist reads it. *)
Record ColumnMeta : Type := mkColumn {
  cmTenant : string; cmColumn : string; cmFormat : string; cmScenarios : list string;
}.

(** The integer types a value may be read as, and strings. *)
Inductive ValueType : Type := VTString | VTInt | VTInt64 | VTUint | VTUint64.
Definition parseValueType (s : string) : option ValueType :=
  if String.eqb s "string" then Some VTString
  else if String.eqb s "int" then Some VTInt
  else if String.eqb s "int64" then Some VTInt64
  else if String.eqb s "uint" then Some VTUint
  else if String.eqb s "uint64" then Some VTUint64
  else None.

Section Endpoints.

(** rest/v3: its constants, [schema.GetSchemas] (cached by module and table, so it may
    answer with the rows of another tenant), [ModelTypes] and [ModelTiers]; the
    registered models and whether one has a tenant column. *)
Context {DB Model Items : Type}.
Variables ScenarioSearch ScenarioList ScenarioDetail ScenarioExport FormatPassword : string.
Variable GetSchemas : OpCtx -> string -> string -> string -> DB -> result error (list ColumnMeta).
Variable ModelTypes : ValueType -> OpCtx -> Model -> string -> string -> string -> DB -> result error Items.
Variable ModelTiers : ValueType -> OpCtx -> Model -> string -> string -> string -> string -> DB -> result error Items.
Variable lookupModel : string -> string -> option Model.
Variable modelHasTenantIDColumn : Model -> bool.

(** The options the handlers close over. *)
Variable multiTenant : bool.
Variable resolver : option Resolver.

Definition readScenarios : list string := [ScenarioSearch; ScenarioList; ScenarioDetail; "view"; ScenarioExport].

Definition schemaTenantID (ctx : OpCtx) : string :=
  match resolver with
  | Some r => if multiTenant then r ctx else EmptyString
  | None => EmptyString
  end.

Definition querySchemas (ctx : OpCtx) (module table tenantID : string) (db : DB) : result error (list ColumnMeta) :=
  let! rows := GetSchemas (WithoutTenant (Some ctx)) tenantID module table db in
  Ok (List.filter (fun r => String.eqb (cmTenant r) tenantID) rows).

Definition selectable (row : ColumnMeta) : bool :=
  negb (String.eqb (cmColumn row) EmptyString) && negb (String.eqb (cmFormat row) FormatPassword)
  && existsb (fun sc => existsb (String.eqb sc) (cmScenarios row)) readScenarios.

Definition selectableColumnsDB (ctx : OpCtx) (module table tenantID : string) (db : DB) : result error (gset string) :=
  match querySchemas ctx module table tenantID db with
  | Err e => Err (wrapf ("load sys_schemas for " +:+ module +:+ "/" +:+ table) e)
  | Ok [] => Err (EPlain ("no schema metadata for " +:+ module +:+ "/" +:+ table))
  | Ok rows => Ok (list_to_set (map cmColumn (List.filter selectable rows)))
  end.

Definition notSelectable (module table c : string) : error :=
  EPlain ("column " +:+ quote c +:+ " is not selectable for " +:+ module +:+ "/" +:+ table).

Definition requireSelectableColumns (ctx : OpCtx) (module table tenantID : string) (cols : list string) (db : DB) : option error :=
  match selectableColumnsDB ctx module table tenantID db with
  | Err e => Some e
  | Ok allowed => match List.find (fun c => negb (bool_decide (c ∈ allowed))) cols with
                  | Some c => Some (notSelectable module table c)
                  | None => None
                  end
  end.

(** ** Handlers *)

(** The envelope written: code, message and data. *)
Record Reply : Type := mkReply { rpCode : Z; rpMessage : string; rpData : option Items }.
Definition invalid (message : string) : Reply := mkReply CodeInvalid message None.

(** The query parameters of a request, by name; [TrimSpace] applied where the code does. *)
Definition Query : Type := string -> string.

Definition unsupportedValueType (s : string) : error :=
  EPlain ("unsupported valueType " +:+ quote s +:+ " (allowed: string, int, int64, uint, uint64)").

Definition parseModelTypeQuery (q : Query) : result error (string * string * ValueType) :=
  let label := TrimSpace (q "label") in
  let value := TrimSpace (q "value") in
  if String.eqb label EmptyString then Err (EPlain "query ?label is required")
  else if String.eqb value EmptyString then Err (EPlain "query ?value is required")
  else
    let valueType := let v := TrimSpace (q "valueType") in if String.eqb v EmptyString then "string" else v in
    match parseValueType valueType with
    | Some vt => Ok (label, value, vt)
    | None => Err (unsupportedValueType valueType)
    end.

Definition parseModelTierQuery (q : Query) : result error (string * string * string * ValueType) :=
  let parent := TrimSpace (q "parent") in
  if String.eqb parent EmptyString then Err (EPlain "query ?parent is required")
  else let! r := parseModelTypeQuery q in let '(label, value, vt) := r in Ok (parent, label, value, vt).

Definition notRegistered (module table : string) : Reply :=
  mkReply CodeNotFound ("model not registered for module=" +:+ module +:+ ", table=" +:+ table) None.

(** From the parsed request on: [cols] are the columns it names. *)
Definition serveColumns (ctx : OpCtx) (module table : string) (cols : list string)
    (query : Model -> string -> DB -> result error Items) (db : DB) : Reply :=
  match lookupModel module table with
  | None => notRegistered module table
  | Some model =>
      let schemaTenant := schemaTenantID ctx in
      match requireSelectableColumns ctx module table schemaTenant cols db with
      | Some e => invalid (errText e)
      | None =>
          let tenant := if modelHasTenantIDColumn model then schemaTenant else EmptyString in
          match query model tenant db with
          | Err e => invalid (errText e)
          | Ok items => mkReply CodeOK EmptyString (Some items)
          end
      end
  end.

Definition modelTypesHandler (ctx : OpCtx) (path : string) (q : Query) (db : DB) : Reply :=
  match parseModuleTablePath path "model-types" with
  | None => invalid "module and table required"
  | Some (module, table) =>
      match parseModelTypeQuery q with
      | Err e => invalid (errText e)
      | Ok (label, value, vt) =>
          serveColumns ctx module table [label; value] (fun m tenant => ModelTypes vt ctx m tenant label value) db
      end
  end.

Definition modelTiersHandler (ctx : OpCtx) (path : string) (q : Query) (db : DB) : Reply :=
  match parseModuleTablePath path "model-tiers" with
  | None => invalid "module and table required"
  | Some (module, table) =>
      match parseModelTierQuery q with
      | Err e => invalid (errText e)
      | Ok (parent, label, value, vt) =>
          serveColumns ctx module table [parent; label; value] (fun m tenant => ModelTiers vt ctx m tenant parent label value) db
      end
  end.

(** The schema endpoint writes the rows themselves. *)
Definition schemaHandler (ctx : OpCtx) (path : string) (db : DB) : Z * string * list ColumnMeta :=
  match parseSchemaPath path with
  | None => (CodeInvalid, "module and table required", [])
  | Some (module, table) =>
      match querySchemas ctx module table (schemaTenantID ctx) db with
      | Err e => (CodeInvalid, errText e, [])
      | Ok [] => (CodeNotFound, "schema not found for module=" +:+ module +:+ ", table=" +:+ table, [])
      | Ok items => (CodeOK, EmptyString, items)
      end
  end.

(** ** What is served *)

(** Whatever the cache of rest/v3 answers, the rows are those of the tenant. *)
Lemma querySchemas_tenant (ctx : OpCtx) (module table tenantID : string) (db : DB) (rows : list ColumnMeta) :
  querySchemas ctx module table tenantID db = Ok rows -> Forall (fun r => cmTenant r = tenantID) rows.
Proof.
  intros (l & _ & [= <-])%rbind_Ok. apply Forall_forall. intros r Hr%list_elem_of_In.
  apply List.filter_In in Hr as [_ Hr]. by apply String.eqb_eq.
Qed.

(** A column that may be named: it has metadata in the tenant that shows it is no
    password and can be read by some GET. *)
Definition readable (ctx : OpCtx) (module table tenantID c : string) (db : DB) : Prop :=
  exists rows row sc, GetSchemas (WithoutTenant (Some ctx)) tenantID module table db = Ok rows /\ In row rows
    /\ cmTenant row = tenantID /\ cmColumn row = c /\ c <> EmptyString /\ cmFormat row <> FormatPassword
    /\ In sc readScenarios /\ In sc (cmScenarios row).

Lemma requireSelectableColumns_ok (ctx : OpCtx) (module table tenantID : string) (cols : list string) (db : DB) :
  requireSelectableColumns ctx module table tenantID cols db = None ->
  Forall (fun c => readable ctx module table tenantID c db) cols.
Proof.
  unfold requireSelectableColumns, selectableColumnsDB, querySchemas.
  destruct (GetSchemas (WithoutTenant (Some ctx)) tenantID module table db) as [rows|e] eqn:Eg; [|done]. cbn [rbind].
  destruct (List.filter (fun r => String.eqb (cmTenant r) tenantID) rows) as [|r0 l] eqn:El; [done|].
  destruct (List.find _ cols) as [c|] eqn:Ef; [done|]. intros _. apply Forall_forall. intros c Hc%list_elem_of_In.
  pose proof (List.find_none _ _ Ef c Hc) as Hin. apply negb_false_iff, bool_decide_eq_true, elem_of_list_to_set in Hin.
  apply list_elem_of_In, in_map_iff in Hin as (row & Hcol & Hrow). apply List.filter_In in Hrow as [Hrow Hsel].
  rewrite <- El in Hrow. apply List.filter_In in Hrow as [Hrow Ht%String.eqb_eq]. unfold selectable in Hsel.
  rewrite !andb_true_iff, !negb_true_iff, !String.eqb_neq, existsb_exists in Hsel. destruct Hsel as [[Hne Hf] (sc & Hsc & Hhas)].
  apply existsb_exists in Hhas as (sc' & Hin & ->%String.eqb_eq). exists rows, row, sc'. rewrite Hcol in *. by repeat split.
Qed.

Lemma serveColumns_OK (ctx : OpCtx) (module table : string) (cols : list string) query (db : DB) (message : string) (data : option Items) :
  serveColumns ctx module table cols query db = mkReply CodeOK message data ->
  exists model items, lookupModel module table = Some model /\ data = Some items
    /\ Forall (fun c => readable ctx module table (schemaTenantID ctx) c db) cols
    /\ query model (if modelHasTenantIDColumn model then schemaTenantID ctx else EmptyString) db = Ok items.
Proof.
  unfold serveColumns. destruct (lookupModel module table) as [model|]; [|done].
  destruct (requireSelectableColumns _ _ _ _ _ _) eqn:Er; [done|]. destruct (query _ _ _) as [items|] eqn:Eq; [|done].
  intros [= _ <-]. exists model, items. split; [done|]. split; [done|]. split; [by apply requireSelectableColumns_ok|done].
Qed.

(** C22. The picker endpoints serve data only of a registered model named by the path,
    of the caller's tenant when the model has tenants, and only from columns whose
    metadata in that tenant says they are readable and no passwords; everything else
    is answered with an error envelope without data. *)
Theorem pickers_serve_readable (ctx : OpCtx) (path : string) (q : Query) (db : DB) (r : Reply) :
  (modelTypesHandler ctx path q db = r \/ modelTiersHandler ctx path q db = r) ->
  match rpData r with
  | None => rpCode r = CodeInvalid \/ rpCode r = CodeNotFound
  | Some items =>
      rpCode r = CodeOK /\ exists module table model cols vt,
        lookupModel module table = Some model /\ segment module /\ segment table
        /\ Forall (fun c => readable ctx module table (schemaTenantID ctx) c db) cols
        /\ let tenant := if modelHasTenantIDColumn model then schemaTenantID ctx else EmptyString in
           ((exists label value, cols = [label; value] /\ spells path ["rest"; "model-types"; module; table]
               /\ ModelTypes vt ctx model tenant label value db = Ok items)
            \/ (exists parent label value, cols = [parent; label; value] /\ spells path ["rest"; "model-tiers"; module; table]
               /\ ModelTiers vt ctx model tenant parent label value db = Ok items))
  end.
Proof.
  assert (forall module table cols query, serveColumns ctx module table cols query db = r ->
            rpData r = None /\ (rpCode r = CodeInvalid \/ rpCode r = CodeNotFound)
            \/ exists items, r = mkReply CodeOK EmptyString (Some items)) as Hcases.
  { intros module table cols query <-. unfold serveColumns. destruct (lookupModel _ _); [|by left; auto].
    destruct (requireSelectableColumns _ _ _ _ _ _); [by left; auto|]. destruct (query _ _ _); [by right; eauto|by left; auto]. }
  intros [Hr|Hr].
  - unfold modelTypesHandler in Hr. destruct (parseModuleTablePath path "model-types") as [[module table]|] eqn:Ep; [|subst r; by left].
    destruct (parseModelTypeQuery q) as [[[label value] vt]|] eqn:Eq; [|subst r; by left].
    destruct (Hcases _ _ _ _ Hr) as [[Hd Hc]|[items Heq]]; [by rewrite Hd|]. rewrite Heq. cbn [rpData rpCode]. split; [done|]. rewrite Heq in Hr.
    apply serveColumns_OK in Hr as (model & items' & Hl & [= <-] & Hcols & Hq).
    apply parseModuleTable_segments in Ep as (Hm & Ht & Hs). exists module, table, model, [label; value], vt. cbn [rpData].
    do 4 (split; [done|]). left. eauto.
  - unfold modelTiersHandler in Hr. destruct (parseModuleTablePath path "model-tiers") as [[module table]|] eqn:Ep; [|subst r; by left].
    destruct (parseModelTierQuery q) as [[[[parent label] value] vt]|] eqn:Eq; [|subst r; by left].
    destruct (Hcases _ _ _ _ Hr) as [[Hd Hc]|[items Heq]]; [by rewrite Hd|]. rewrite Heq. cbn [rpData rpCode]. split; [done|]. rewrite Heq in Hr.
    apply serveColumns_OK in Hr as (model & items' & Hl & [= <-] & Hcols & Hq).
    apply parseModuleTable_segments in Ep as (Hm & Ht & Hs). exists module, table, model, [parent; label; value], vt. cbn [rpData].
    do 4 (split; [done|]). right. eauto 10.
Qed.

(** The schema endpoint answers with the rows of the caller's tenant, or with none. *)
Lemma schemaHandler_tenant (ctx : OpCtx) (path : string) (db : DB) :
  Forall (fun r => cmTenant r = schemaTenantID ctx) (snd (schemaHandler ctx path db)).
Proof.
  unfold schemaHandler. destruct (parseSchemaPath path) as [[m t]|]; [|done].
  destruct (querySchemas _ _ _ _ _) as [[|r l]|] eqn:E; [done| |done]. by apply querySchemas_tenant in E.
Qed.

End Endpoints.

(** ** A registered model with a password column, and metadata of two tenants. *)

Definition demoRows : list ColumnMeta :=
  [ mkColumn "A" "name" "string" ["list"; "search"]; mkColumn "A" "id" "integer" ["detail"];
    mkColumn "A" "password" "password" ["create"; "list"]; mkColumn "B" "secret" "string" ["list"] ].

(** The values of a column, whatever the label; the tenant is answered first. *)
Definition demoTypes (vt : ValueType) (ctx : OpCtx) (model tenant label value : string) (db : unit) : result error (list string) :=
  Ok [model; tenant; label; value].
Definition demoTiers (vt : ValueType) (ctx : OpCtx) (model tenant parent label value : string) (db : unit) : result error (list string) :=
  Ok [model; tenant; parent; label; value].
Definition demoSchemas (ctx : OpCtx) (tenant module table : string) (db : unit) : result error (list ColumnMeta) := Ok demoRows.
Definition demoLookup (module table : string) : option string :=
  if String.eqb module "system" && String.eqb table "users" then Some "User" else None.
Definition demoCaller : OpCtx := mkOpCtx (mkCtx None None) false.

Definition demoHandler (path : string) (q : Query) : Reply (Items := list string) :=
  modelTypesHandler "search" "list" "detail" "export" "password" demoSchemas demoTypes demoLookup (fun _ => true)
    true (Some (fun _ => "A")) demoCaller path q tt.

Definition demoQuery (value : string) : Query :=
  fun k => if String.eqb k "label" then " name " else if String.eqb k "value" then value else EmptyString.

Example pickers_run :
  demoHandler "/rest/model-types/system/users" (demoQuery "id") = mkReply CodeOK EmptyString (Some ["User"; "A"; "name"; "id"])
  /\ rpCode (demoHandler "/rest/model-types/system/users" (demoQuery "password")) = CodeInvalid
  /\ rpCode (demoHandler "/rest/model-types/system/users" (demoQuery "secret")) = CodeInvalid
  /\ rpCode (demoHandler "/rest/model-types/system/roles" (demoQuery "id")) = CodeNotFound.
Proof. by vm_compute. Qed.

Lemma pickers_serve_readable_witness :
  demoHandler "/rest/model-types/system/users" (demoQuery "id") = mkReply CodeOK EmptyString (Some ["User"; "A"; "name"; "id"])
  /\ exists module table cols, segment module /\ segment table
     /\ Forall (fun c => readable "search" "list" "detail" "export" "password" demoSchemas demoCaller module table "A" c tt) cols.
Proof.
  split; [by vm_compute|].
  destruct (pickers_serve_readable "search" "list" "detail" "export" "password" demoSchemas demoTypes demoTiers demoLookup
              (fun _ => true) true (Some (fun _ => "A")) demoCaller "/rest/model-types/system/users" (demoQuery "id") tt
              (mkReply CodeOK EmptyString (Some ["User"; "A"; "name"; "id"]))) as (_ & m & t & model & cols & vt & _ & Hm & Ht & Hc & _).
  - left. by vm_compute.
  - exists m, t, cols. split; [exact Hm|]. split; [exact Ht|]. exact Hc.
Defined.
