(* ===== verification/SecurityGuards.v ===== *)
(** [admin/security_guards.go] and the create hooks of [admin/server.go]
    ([hardenResource], [ensureCallerMayAssignRole]): what a REST write to users and
    roles must satisfy, over the tenant-scoped handles of TenantScope. *)

From Stdlib Require Import ZArith Lia String List Bool.
From stdpp Require Import base tactics list gmap strings.
From S2P Require Import Prelude GoStrings Errs Metadata Middleware AdminClaims Gorm UserModel RoleModel TenantScope AuthService.

Local Open Scope string_scope.
Local Open Scope list_scope.
Local Open Scope Z_scope.
Local Open Scope aeus_scope.

(** ** Statements *)

(** The dynamic types the guards look at: a pointer to a user or a role, or
    something else; a value of an update map. *)
Inductive Model : Type := MUser (u : User) | MRole (r : Role) | MOther.
Inductive Value : Type := VString (s : string) | VOther.
Inductive Dest : Type := DMap (m : gmap string Value) | DModel (m : Model).

(** [tx.Error], the [User] of the RuntimeScope in the context ([None] is no
    scope), the context, [Statement.Model] and [Statement.Dest]. *)
Record Stmt : Type := mkStmt {
  stError : option error;
  stScope : option string;
  stCtx : OpCtx;
  stModel : option Model;
  stDest : option Dest;
}.

Definition guardApplies (tx : Stmt) : bool :=
  match stError tx, stScope tx with
  | None, Some _ => true
  | _, _ => false
  end.

Definition destModel (d : option Dest) : Model :=
  match d with Some (DModel m) => m | _ => MOther end.

Definition deleteTarget (tx : Stmt) : Model :=
  match stDest tx with
  | Some d => destModel (Some d)
  | None => default MOther (stModel tx)
  end.

Definition statementModel (tx : Stmt) : Model :=
  match stModel tx with
  | Some m => m
  | None => destModel (stDest tx)
  end.

Definition mapString (m : gmap string Value) (column : string) : option string :=
  match m !! column with Some (VString s) => Some s | _ => None end.

Definition orElse (s old : string) : string := if String.eqb s EmptyString then old else s.

Definition updatedLoginIdentity (tx : Stmt) (previous : User) : string * string :=
  match stDest tx with
  | Some (DMap m) => (default (uUID previous) (mapString m "uid"), default (uUsername previous) (mapString m "username"))
  | Some (DModel (MUser d)) => (orElse (uUID d) (uUID previous), orElse (uUsername d) (uUsername previous))
  | _ => (uUID previous, uUsername previous)
  end.

Definition updatedRoleKey (tx : Stmt) : string :=
  match stDest tx with
  | Some (DMap m) => default EmptyString (mapString m "role_key")
  | Some (DModel (MUser d)) => uRoleKey d
  | _ => EmptyString
  end.

Definition userID (u : User) : Z := bID (tmBase (uTenant u)).

Section Guards.

(** The tables, whether tenant scoping is installed, and its resolver. *)
Context {DB : Type} `{GormLaws DB User} `{GormLaws DB Role}.
Variable multiTenant : bool.
Variable resolver : Resolver.

(** [freshDB(ctx, tx)]: a new statement under the context, scoped like any other. *)
Definition stampUser (t : string) (u : User) : User := withTenantModel (mkTenantModel (tmBase (uTenant u)) t) u.
Definition stampRole (t : string) (r : Role) : Role :=
  mkRole (mkTenantModel (tmBase (rTenant r)) t) (rKey r) (rName r) (rStatus r) (rBuiltin r) (rIsSuper r) (rDataScope r)
    (rSort r) (rCreatedBy r) (rDescription r).
Definition freshUsers (ctx : OpCtx) : Gorm DB User := installTenantScope multiTenant uTenantID stampUser resolver ctx.
Definition freshRoles (ctx : OpCtx) : Gorm DB Role := installTenantScope multiTenant rTenantID stampRole resolver ctx.

Definition roleIsSuper (ctx : OpCtx) (roleKey : string) (db : DB) : bool :=
  if String.eqb roleKey EmptyString then false
  else match First (H := freshRoles ctx) (fun r => String.eqb (rKey r) roleKey) db with
       | Err _ => false
       | Ok role => rIsSuper role
       end.

Definition callerIsSuper (ctx : OpCtx) (scope : option string) (db : DB) : bool :=
  match scope with
  | None => false
  | Some user =>
      if String.eqb user EmptyString then false
      else match First (H := freshUsers ctx) (fun u => String.eqb (uUID u) user) db with
           | Err _ => false
           | Ok caller =>
               match First (H := freshRoles ctx) (fun r => String.eqb (rKey r) (uRoleKey caller)) db with
               | Err _ => false
               | Ok role => rIsSuper role
               end
           end
  end.

Definition permissionDenied : error := ESentinel (SErrs ErrPermissionDenied).
Definition identityInUse : error := Newf CodeInvalid "uid or username is already in use".

(** The values to look for, and the rows that carry one in either column. *)
Definition identityValues (uid username : string) : list string :=
  List.filter (fun v => negb (String.eqb v EmptyString)) [uid; username].

Definition carries (values : list string) (u : User) : bool :=
  existsb (fun v => String.eqb (uUID u) v || String.eqb (uUsername u) v) values.

Definition ensureLoginIdentityUnique (ctx : OpCtx) (uid username : string) (excludeID : Z) (db : DB) : option error :=
  match identityValues uid username with
  | [] => None
  | values =>
      match FindLimit (H := freshUsers (WithoutTenant (Some ctx))) 1
              (fun u => carries values u && ((excludeID =? 0) || negb (userID u =? excludeID))) db with
      | Err e => Some e
      | Ok [] => None
      | Ok _ => Some identityInUse
      end
  end.

Definition ensureCallerMayAssignRole (ctx : OpCtx) (scope : option string) (roleKey : string) (db : DB) : option error :=
  match First (H := freshRoles ctx) (fun r => String.eqb (rKey r) roleKey) db with
  | Err e => if Is e ErrRecordNotFound then Some (Newf CodeInvalid ("role not found: " +:+ roleKey)) else Some e
  | Ok target =>
      if negb (rIsSuper target) then None
      else if callerIsSuper ctx scope db then None else Some permissionDenied
  end.

Definition guardUserUpdate (tx : Stmt) (target : User) (db : DB) : option error :=
  let ctx := stCtx tx in
  let super := callerIsSuper ctx (stScope tx) db in
  if roleIsSuper ctx (uRoleKey target) db && negb super then Some permissionDenied
  else
    let '(uid, username) := updatedLoginIdentity tx target in
    match ensureLoginIdentityUnique ctx uid username (userID target) db with
    | Some e => Some e
    | None =>
        let nextRole := updatedRoleKey tx in
        if String.eqb nextRole EmptyString || String.eqb nextRole (uRoleKey target) then None
        else if negb super then Some permissionDenied
        else ensureCallerMayAssignRole ctx (stScope tx) nextRole db
    end.

Definition guardUpdate (tx : Stmt) (db : DB) : option error :=
  match statementModel tx with
  | MUser target => guardUserUpdate tx target db
  | MRole target =>
      if rIsSuper target && negb (callerIsSuper (stCtx tx) (stScope tx) db) then Some permissionDenied else None
  | MOther => None
  end.

Definition guardDelete (tx : Stmt) (db : DB) : option error :=
  match deleteTarget tx with
  | MUser target =>
      if roleIsSuper (stCtx tx) (uRoleKey target) db && negb (callerIsSuper (stCtx tx) (stScope tx) db)
      then Some permissionDenied else None
  | MRole target =>
      if rIsSuper target && negb (callerIsSuper (stCtx tx) (stScope tx) db) then Some permissionDenied else None
  | MOther => None
  end.

(** The callbacks: the error the statement ends up with before it runs. *)
Definition securityUpdate (tx : Stmt) (db : DB) : option error :=
  if negb (guardApplies tx) then stError tx else guardUpdate tx db.
Definition securityDelete (tx : Stmt) (db : DB) : option error :=
  if negb (guardApplies tx) then stError tx else guardDelete tx db.

(** ** hardenResource *)

Definition roleBeforeCreate (r : Role) : Role :=
  mkRole (rTenant r) (rKey r) (rName r) (rStatus r) false false (rDataScope r) (rSort r) (rCreatedBy r) (rDescription r).

Definition userBeforeCreate (ctx : OpCtx) (scope : option string) (user : User) (db : DB) : option error :=
  if String.eqb (uRoleKey user) EmptyString then Some (Newf CodeInvalid "role_key is required")
  else match ensureLoginIdentityUnique ctx (uUID user) (uUsername user) 0 db with
       | Some e => Some e
       | None => ensureCallerMayAssignRole ctx scope (uRoleKey user) db
       end.

(** ** What the guards promise *)

(** The caller is a user the context can see whose role, as it is now, is super. *)
Definition superCaller (ctx : OpCtx) (scope : option string) (db : DB) : Prop :=
  exists user caller role, scope = Some user /\ user <> EmptyString
    /\ In caller (rows db) /\ uUID caller = user
    /\ In role (rows db) /\ rKey role = uRoleKey caller /\ rIsSuper role = true.

Lemma scoped_First_ok {R : Type} `{GormLaws DB R} (tenantOf : R -> string) (stamp : string -> R -> R) (ctx : OpCtx)
    (w : R -> bool) (db : DB) (r : R) :
  First (H := installTenantScope multiTenant tenantOf stamp resolver ctx) w db = Ok r -> In r (rows db) /\ w r = true.
Proof.
  unfold First. cbn [Find installTenantScope]. destruct (Find _ db) as [l|] eqn:E; [|done].
  apply Find_ok in E. destruct l as [|x l]; [done|]. intros [= ->].
  assert (In r (List.filter (applyTenantScope multiTenant tenantOf resolver ctx w) (rows db))) as Hin by (rewrite <- E; by left).
  apply List.filter_In in Hin as [Hin Hw]. split; [done|]. unfold applyTenantScope in Hw.
  repeat case_match; [done|done|]. by apply andb_true_iff in Hw as [? _].
Qed.

Lemma callerIsSuper_spec (ctx : OpCtx) (scope : option string) (db : DB) :
  callerIsSuper ctx scope db = true -> superCaller ctx scope db.
Proof.
  unfold callerIsSuper. destruct scope as [user|]; [|done]. destruct (String.eqb_spec user EmptyString); [done|].
  destruct (First (H := freshUsers ctx) _ db) as [caller|] eqn:Ec; [|done].
  destruct (First (H := freshRoles ctx) _ db) as [role|] eqn:Er; [|done]. intros Hs.
  apply scoped_First_ok in Ec as [Hc Hu%String.eqb_eq], Er as [Hr Hk%String.eqb_eq].
  by exists user, caller, role.
Qed.

(** A super role, or a user of one: the read of the roles the context sees gives a super
    row, the first under the user's role key.  (Where that read fails the guard lets the
    write through, see [guard_fails_open].) *)
Definition superTarget (ctx : OpCtx) (target : Model) (db : DB) : Prop :=
  match target with
  | MUser u => uRoleKey u <> EmptyString /\ exists role rest,
      Find (Gorm := freshRoles ctx) (fun r => String.eqb (rKey r) (uRoleKey u)) db = Ok (role :: rest) /\ rIsSuper role = true
  | MRole r => rIsSuper r = true
  | MOther => False
  end.

Lemma superTarget_guarded (ctx : OpCtx) (target : Model) (db : DB) :
  superTarget ctx target db ->
  match target with MUser u => roleIsSuper ctx (uRoleKey u) db = true | MRole r => rIsSuper r = true | MOther => False end.
Proof.
  destruct target as [u|r|]; cbn [superTarget]; [|done..]. intros [Hk (role & rest & Hf & Hs)].
  unfold roleIsSuper, First. by rewrite (proj2 (String.eqb_neq _ _) Hk), Hf.
Qed.

Lemma mayAssign_spec (ctx : OpCtx) (scope : option string) (roleKey : string) (db : DB) :
  ensureCallerMayAssignRole ctx scope roleKey db = None ->
  exists role, In role (rows db) /\ rKey role = roleKey /\ (rIsSuper role = true -> superCaller ctx scope db).
Proof.
  unfold ensureCallerMayAssignRole. destruct (First (H := freshRoles ctx) _ db) as [role|e] eqn:Er; [|by destruct (Is e _)].
  apply scoped_First_ok in Er as [Hr Hk%String.eqb_eq]. intros Hn. exists role. split; [done|]. split; [done|].
  intros Hs. apply callerIsSuper_spec. rewrite Hs in Hn. by destruct (callerIsSuper _ _ _).
Qed.

Lemma role_change_needs_super (tx : Stmt) (db : DB) (u : User) :
  guardUpdate tx db = None -> statementModel tx = MUser u ->
  updatedRoleKey tx <> EmptyString -> updatedRoleKey tx <> uRoleKey u ->
  callerIsSuper (stCtx tx) (stScope tx) db = true
  /\ exists role, In role (rows db) /\ rKey role = updatedRoleKey tx.
Proof.
  unfold guardUpdate. intros Hg Hm Hne Hch. rewrite Hm in Hg. unfold guardUserUpdate in Hg.
  destruct (roleIsSuper _ _ _ && _); [done|]. destruct (updatedLoginIdentity tx u) as [uid username].
  destruct (ensureLoginIdentityUnique _ _ _ _ _); [done|].
  destruct (String.eqb_spec (updatedRoleKey tx) EmptyString); [done|].
  destruct (String.eqb_spec (updatedRoleKey tx) (uRoleKey u)); [done|]. cbn [orb] in Hg.
  destruct (callerIsSuper _ _ _); [|done]. split; [done|]. cbn [negb] in Hg.
  apply mayAssign_spec in Hg as (role & ? & ? & _). by exists role.
Qed.

(** C9. Privileges are not gained through generic REST writes: a write that reaches
    the database changes or deletes a super role, or a user whose role the guard reads
    as super, only for a super caller (a read of the roles that fails does not bar it); an update that gives a user another role is a super caller's, and the
    role exists; a user is created with an existing role, a super one only by a super
    caller; and no role is created super. *)
Theorem guards_protect_super (tx : Stmt) (db : DB) :
  guardApplies tx = true ->
  (securityUpdate tx db = None ->
     (superTarget (stCtx tx) (statementModel tx) db -> superCaller (stCtx tx) (stScope tx) db)
     /\ (forall u, statementModel tx = MUser u -> updatedRoleKey tx <> EmptyString -> updatedRoleKey tx <> uRoleKey u ->
          superCaller (stCtx tx) (stScope tx) db
          /\ exists role, In role (rows db) /\ rKey role = updatedRoleKey tx))
  /\ (securityDelete tx db = None -> superTarget (stCtx tx) (deleteTarget tx) db -> superCaller (stCtx tx) (stScope tx) db)
  /\ (forall u, userBeforeCreate (stCtx tx) (stScope tx) u db = None ->
       exists role, In role (rows db) /\ rKey role = uRoleKey u
         /\ (rIsSuper role = true -> superCaller (stCtx tx) (stScope tx) db))
  /\ (forall r, rIsSuper (roleBeforeCreate r) = false).
Proof.
  unfold securityUpdate, securityDelete. intros ->. cbn [negb]. split; [|split; [|split; [|done]]].
  - intros Hg. split.
    + intros Ht%superTarget_guarded. apply callerIsSuper_spec. unfold guardUpdate in Hg.
      destruct (statementModel tx) as [u|r|]; cbn in Ht; [|by rewrite Ht in Hg; destruct (callerIsSuper _ _ _)|done].
      unfold guardUserUpdate in Hg. rewrite Ht in Hg. by destruct (callerIsSuper _ _ _).
    + intros u Hm Hne Hch. destruct (role_change_needs_super tx db u Hg Hm Hne Hch) as [Hs Hr].
      split; [by apply callerIsSuper_spec|done].
  - intros Hg Ht%superTarget_guarded. apply callerIsSuper_spec. unfold guardDelete in Hg.
    destruct (deleteTarget tx) as [u|r|]; cbn in Ht; [| |done]; rewrite Ht in Hg; by destruct (callerIsSuper _ _ _).
  - intros u Hu. unfold userBeforeCreate in Hu. destruct (String.eqb _ _); [done|].
    destruct (ensureLoginIdentityUnique _ _ _ _ _); [done|]. by apply (mayAssign_spec _ _ _ _ Hu).
Qed.

(** ** The login namespace *)

(** The names a user can log in with, and what makes them unambiguous: no two rows
    share one, in either column. *)
Definition loginNames (u : User) : list string := identityValues (uUID u) (uUsername u).

Definition namespace_ok (l : list User) : Prop :=
  NoDup (map userID l)
  /\ forall u v, In u l -> In v l -> userID u <> userID v -> forall n, In n (loginNames u) -> ~ In n (loginNames v).

Lemma In_identityValues (n uid username : string) :
  In n (identityValues uid username) <-> (n = uid \/ n = username) /\ n <> EmptyString.
Proof.
  unfold identityValues. rewrite List.filter_In, negb_true_iff, String.eqb_neq. cbn. naive_solver.
Qed.

Lemma carries_spec (values : list string) (u : User) :
  carries values u = true <-> exists n, In n values /\ (uUID u = n \/ uUsername u = n).
Proof.
  unfold carries. rewrite existsb_exists. setoid_rewrite orb_true_iff. by setoid_rewrite String.eqb_eq.
Qed.

Lemma candidate_loginNames (n : string) (u : User) : n <> EmptyString -> candidate n u = true <-> In n (loginNames u).
Proof.
  intros Hn. unfold candidate, loginNames. rewrite In_identityValues, orb_true_iff, !String.eqb_eq. naive_solver.
Qed.

Lemma ensureLoginIdentityUnique_spec (ctx : OpCtx) (uid username : string) (ex : Z) (db : DB) (v : User) (n : string) :
  ensureLoginIdentityUnique ctx uid username ex db = None ->
  In v (rows db) -> ex = 0 \/ userID v <> ex -> In n (identityValues uid username) -> ~ In n (loginNames v).
Proof.
  unfold ensureLoginIdentityUnique. intros He Hv Hex Hn Hn'.
  destruct (identityValues uid username) as [|n0 values] eqn:Ei; [done|]. unfold FindLimit in He.
  cbn [Find installTenantScope freshUsers] in He.
  destruct (Find _ db) as [l|] eqn:Ef; [|done]. apply Find_ok in Ef. destruct l as [|x l]; [|done].
  assert (In v []) as []. rewrite Ef. apply List.filter_In. split; [done|].
  unfold applyTenantScope. cbn [tenantBypassed WithoutTenant opBypass]. rewrite orb_true_r.
  apply andb_true_iff. split.
  - apply carries_spec. exists n. split; [done|]. unfold loginNames in Hn'. apply In_identityValues in Hn'. naive_solver.
  - apply orb_true_iff. rewrite negb_true_iff, Z.eqb_eq, Z.eqb_neq. tauto.
Qed.

(** The writes to users that the REST layer lets through, as what they do to the
    live rows.  A new row gets an id no row has; an update changes the row of the
    target's id to one with the identity the statement gives it. *)
Inductive guardedWrite (db db' : DB) : Prop :=
| WriteCreate (tx : Stmt) (u u' : User) :
    userBeforeCreate (stCtx tx) (stScope tx) u db = None ->
    uUID u' = uUID u -> uUsername u' = uUsername u -> ~ In (userID u') (map userID (rows db)) ->
    rows db' = rows db ++ [u'] -> guardedWrite db db'
| WriteUpdate (tx : Stmt) (target u' : User) :
    guardApplies tx = true -> securityUpdate tx db = None -> statementModel tx = MUser target ->
    userID target <> 0 -> userID u' = userID target -> (uUID u', uUsername u') = updatedLoginIdentity tx target ->
    rows db' = updateRows (fun r => userID r =? userID target) (fun _ => u') (rows db) -> guardedWrite db db'
| WriteDelete (w : User -> bool) : rows db' = keepRows w (rows db) -> guardedWrite db db'.

Inductive guardedWrites : DB -> DB -> Prop :=
| writes_none db : guardedWrites db db
| writes_more db db1 db2 : guardedWrite db db1 -> guardedWrites db1 db2 -> guardedWrites db db2.

Lemma namespace_create (l : list User) (u : User) :
  namespace_ok l -> ~ In (userID u) (map userID l) ->
  (forall v n, In v l -> In n (loginNames u) -> ~ In n (loginNames v)) -> namespace_ok (l ++ [u]).
Proof.
  intros [Hnd Hok] Hid Hn. split.
  - rewrite map_app. cbn. apply NoDup_app. split; [done|]. split; [|apply NoDup_singleton].
    intros i Hi. rewrite list_elem_of_In in Hi. rewrite list_elem_of_singleton. by intros ->.
  - intros x y Hx Hy Hne n Hnx Hny. apply in_app_or in Hx as [Hx|[<-|[]]], Hy as [Hy|[<-|[]]].
    + by apply (Hok x y Hx Hy Hne n).
    + by apply (Hn x n Hx Hny).
    + by apply (Hn y n Hy Hnx).
    + done.
Qed.

Lemma namespace_update (l : list User) (i : Z) (u : User) :
  namespace_ok l -> userID u = i ->
  (forall v n, In v l -> userID v <> i -> In n (loginNames u) -> ~ In n (loginNames v)) ->
  namespace_ok (updateRows (fun r => userID r =? i) (fun _ => u) l).
Proof.
  intros [Hnd Hok] Hid Hn. split.
  - replace (map userID (updateRows (fun r => userID r =? i) (fun _ => u) l)) with (map userID l); [done|].
    unfold updateRows. rewrite map_map. apply map_ext. intros r. destruct (Z.eqb_spec (userID r) i); congruence.
  - assert (forall x, In x (updateRows (fun r => userID r =? i) (fun _ => u) l) -> x = u \/ In x l /\ userID x <> i) as Hin.
    { intros x (r & Hr & Hrl)%in_map_iff. destruct (Z.eqb_spec (userID r) i); [by left|right; by subst]. }
    intros x y Hx%Hin Hy%Hin Hne n Hnx Hny. destruct Hx as [->|[Hx Hxi]], Hy as [->|[Hy Hyi]].
    + done.
    + by apply (Hn y n).
    + by apply (Hn x n).
    + by apply (Hok x y Hx Hy Hne n).
Qed.

Lemma namespace_delete (l : list User) (w : User -> bool) : namespace_ok l -> namespace_ok (keepRows w l).
Proof.
  intros [Hnd Hok]. unfold keepRows. split.
  - apply NoDup_ListNoDup. apply NoDup_ListNoDup in Hnd. clear Hok. induction l as [|x l IH]; cbn in *; [done|].
    inversion Hnd as [|? ? Hx Hl]; subst. destruct (negb (w x)); [|by apply IH]. cbn. constructor; [|by apply IH].
    intros (y & Hy & Hyl)%in_map_iff. apply List.filter_In in Hyl as [Hyl _]. apply Hx. rewrite <- Hy. by apply in_map.
  - intros u v Hu Hv. apply List.filter_In in Hu as [Hu _], Hv as [Hv _]. by apply Hok.
Qed.

Lemma guardedWrite_namespace (db db' : DB) : guardedWrite db db' -> namespace_ok (rows db) -> namespace_ok (rows db').
Proof.
  intros [tx u u' Hg Hu Hn Hid ->|tx target u' Ha Hg Hm Hne Hid Hnew ->|w ->] Hok.
  - unfold userBeforeCreate in Hg. destruct (String.eqb _ _); [done|].
    destruct (ensureLoginIdentityUnique _ _ _ 0 db) eqn:Ee; [done|]. apply namespace_create; [done|done|].
    intros v n Hv. unfold loginNames at 1. rewrite Hu, Hn. apply (ensureLoginIdentityUnique_spec _ _ _ _ _ _ _ Ee Hv). by left.
  - unfold securityUpdate in Hg. rewrite Ha in Hg. cbn [negb] in Hg. unfold guardUpdate in Hg. rewrite Hm in Hg.
    unfold guardUserUpdate in Hg. destruct (roleIsSuper _ _ _ && _); [done|]. rewrite <- Hnew in Hg.
    destruct (ensureLoginIdentityUnique _ _ _ _ db) eqn:Ee; [done|]. apply namespace_update; [done|done|].
    intros v n Hv Hvi. unfold loginNames at 1. apply (ensureLoginIdentityUnique_spec _ _ _ _ _ _ _ Ee Hv). by right.
  - by apply namespace_delete.
Qed.

(** C10. Logins stay unambiguous: from a table where no two users share a login
    name, whatever creates, updates and deletes the REST layer lets through, by any
    callers and in any tenants, a name matches at most one account, so [Login] never
    refuses a right password because of a second candidate. *)
Theorem login_stays_unambiguous (db db' : DB) (name : string) :
  namespace_ok (rows db) -> guardedWrites db db' -> name <> EmptyString ->
  (length (List.filter (candidate name) (rows db')) <= 1)%nat.
Proof.
  intros Hok Hw Hn. assert (namespace_ok (rows db')) as [Hnd Hns].
  { induction Hw as [|db db1 db2 Hw _ IH]; [done|]. apply IH. by eapply guardedWrite_namespace. }
  revert Hnd Hns. generalize (rows (R := User) db'). intros l Hnd Hns.
  destruct (List.filter (candidate name) l) as [|x [|y rest]] eqn:E; cbn; [lia|lia|exfalso].
  assert (NoDup (map userID (List.filter (candidate name) l))) as Hnd'.
  { rewrite (List.filter_ext _ (fun u => negb (negb (candidate name u)))) by (intros u; by rewrite negb_involutive).
    by apply (namespace_delete l (fun u => negb (candidate name u))). }
  rewrite E in Hnd'. cbn in Hnd'. apply NoDup_cons in Hnd' as [Hxy _].
  assert (forall z, In z (x :: y :: rest) -> In z l /\ In name (loginNames z)) as Hall.
  { intros z Hz. rewrite <- E in Hz. apply List.filter_In in Hz as [? Hc]. split; [done|]. by apply candidate_loginNames. }
  destruct (Hall x (or_introl eq_refl)) as [Hx Hnx], (Hall y (or_intror (or_introl eq_refl))) as [Hy Hny].
  apply (Hns x y Hx Hy) with (n := name); [|done|done]. intros Heq. apply Hxy. rewrite Heq. set_solver.
Qed.

End Guards.

(** ** Concrete runs *)

Definition superRole : Role := mkRole tenant1 "admin" "Admin" "enabled" true true "all" 0 "" "".
Definition guardUser (id : Z) (uid username role : string) : User :=
  mkUser (mkTenantModel (mkBase id 0 0 None) "t1") uid username role "normal" 0 "" "" "" "" "".
Definition guardDB : Tables :=
  mkTables [superRole; demoRole] [] [guardUser 1 "alice1" "alice" "editor"; guardUser 2 "root" "root" "admin"] [].
Definition callerCtx : OpCtx := mkOpCtx (mkCtx None None) false.

(** An update of alice, asked for by [caller]. *)
Definition updateAlice (caller : string) (change : gmap string Value) : Stmt :=
  mkStmt None (Some caller) callerCtx (Some (MUser (guardUser 1 "alice1" "alice" "editor"))) (Some (DMap change)).

Example editor_cannot_promote_herself :
  securityUpdate false (fun _ => EmptyString) (updateAlice "alice1" {["role_key" := VString "admin"]}) guardDB
  = Some permissionDenied.
Proof. vm_compute. reflexivity. Qed.

Example username_of_another_uid_is_refused :
  securityUpdate false (fun _ => EmptyString) (updateAlice "alice1" {["username" := VString "root"]}) guardDB
  = Some identityInUse.
Proof. vm_compute. reflexivity. Qed.

(** When the role lookup fails, a super target is taken for an ordinary one. *)
Definition rolesDown : Gorm Tables Role := {|
  rows := tRoles;
  Find _ _ := Err (EPlain "connection refused");
  Update _ _ db := (db, Some (EPlain "connection refused"));
  DeleteRows _ db := (db, Some (EPlain "connection refused"));
  Create _ db := (db, Some (EPlain "connection refused"));
|}.
Example guard_fails_open :
  securityDelete (H1 := rolesDown) false (fun _ => EmptyString)
    (mkStmt None (Some "alice1") callerCtx None (Some (DModel (MUser (guardUser 2 "root" "root" "admin"))))) guardDB = None.
Proof. vm_compute. reflexivity. Qed.

Lemma guards_protect_super_witness :
  superCaller callerCtx (Some "root") guardDB.
Proof.
  destruct (guards_protect_super false (fun _ => EmptyString) (updateAlice "root" {["role_key" := VString "admin"]}) guardDB)
    as (Hu & _); [reflexivity|].
  destruct Hu as [_ Hrole]; [vm_compute; reflexivity|].
  destruct (Hrole (guardUser 1 "alice1" "alice" "editor")) as [Hs _]; [reflexivity|discriminate|discriminate|exact Hs].
Defined.

Lemma login_stays_unambiguous_witness :
  (length (List.filter (candidate "alicia")
     (rows (R := User) (mkTables [superRole; demoRole] [] [guardUser 1 "alice1" "alicia" "editor"; guardUser 2 "root" "root" "admin"] []))) <= 1)%nat.
Proof.
  apply (login_stays_unambiguous false (fun _ => EmptyString) guardDB).
  - split; [cbn; repeat (constructor; [set_solver|]); constructor|].
    intros u v [<-|[<-|[]]] [<-|[<-|[]]] Hne n Hn Hn'; try done; cbn in Hn, Hn'; naive_solver.
  - eapply writes_more; [|apply writes_none].
    apply (WriteUpdate _ _ _ _ (updateAlice "alice1" {["username" := VString "alicia"]})
             (guardUser 1 "alice1" "alice" "editor") (guardUser 1 "alice1" "alicia" "editor"));
      [reflexivity|vm_compute; reflexivity|reflexivity|discriminate|reflexivity|reflexivity|reflexivity].
  - discriminate.
Defined.
