(* ===== verification/UserService.v ===== *)
(** [admin/service/user.go]: the RPCs a signed-in user calls on the own account, the
    reset of another account's password, and the menus and permission codes of the
    caller's role, read through the cache. *)

From Stdlib Require Import ZArith Lia String Ascii List Bool.
From stdpp Require Import base tactics list gmap strings.
From S2P Require Import Prelude GoStrings Errs Metadata Middleware AdminClaims Cache DbCache Gorm UserModel RoleModel Menus MenuService TenantScope SecurityGuards AuthService.

Local Open Scope string_scope.
Local Open Scope list_scope.
Local Open Scope Z_scope.
Local Open Scope aeus_scope.

Definition defaultAvatarMaxLen : nat := 1024.

Record UserProfile : Type := mkUserProfile {
  upUid : string; upUsername : string; upEmail : string; upGender : string;
  upDescription : string; upAvatar : string; upRole : string; upDeptId : Z;
}.
Record UpdateProfileRequest : Type := mkUpdateProfile {
  urUsername : string; urEmail : string; urGender : string; urDescription : string;
}.

Definition profileFromUser (u : User) : UserProfile :=
  mkUserProfile (uUID u) (uUsername u) (uEmail u) (uGender u) (uDescription u) (uAvatar u) (uRoleKey u) (uDeptID u).

Section Account.

(** The database under the request's context, bcrypt, and the validators of the
    requests. *)
Context {DB Salt : Type} `{GormLaws DB User} `{GormLaws DB Role} `{!GormSave DB User} `{!GormSaveLaws DB User userID}.
Variable GenerateFromPassword : Salt -> string -> result error string.
Variable CompareHashAndPassword : string -> string -> option error.

Definition accessDenied : error := ESentinel (SErrs ErrAccessDenied).
Definition notFound : error := ESentinel (SErrs ErrNotFound).

(** [auth.ClaimsFromContext] and the early return: [None] is the panic of a nil
    claims pointer. *)
Definition withClaims {A : Type} (ctx : OpCtx) (denied : A) (k : Claims -> A) : option A :=
  match ClaimsFromContext (opCtx ctx) with
  | (_, false) => Some denied
  | (Some c, true) => Some (k c)
  | (None, true) => None
  end.

Definition loadByUID (claims : Claims) (db : DB) : result error User :=
  match First (fun u => String.eqb (uUID u) (UID claims)) db with
  | Err e => Err (if Is e ErrRecordNotFound then notFound else e)
  | Ok u => Ok u
  end.

(** [Save] runs the update hook first. *)
Definition saveUser (salt : Salt) (u : User) (db : DB) : DB * option error :=
  match BeforeUpdate GenerateFromPassword salt u with
  | Err e => (db, Some e)
  | Ok u' => Save u' db
  end.

Definition Profile (ctx : OpCtx) (db : DB) : option (result error UserProfile) :=
  withClaims ctx (Err accessDenied) (fun claims => let! u := loadByUID claims db in Ok (profileFromUser u)).

Definition applyProfile (req : UpdateProfileRequest) (u : User) : User :=
  mkUser (uTenant u) (uUID u) (orElse (urUsername req) (uUsername u)) (uRoleKey u) (uStatus u) (uDeptID u) (uPassword u)
    (orElse (urEmail req) (uEmail u)) (uAvatar u) (orElse (urGender req) (uGender u))
    (orElse (urDescription req) (uDescription u)).

Definition UpdateProfile (validate : option error) (salt : Salt) (ctx : OpCtx) (req : UpdateProfileRequest) (db : DB) :
    option (DB * result error UserProfile) :=
  match validate with
  | Some e => Some (db, Err e)
  | None =>
      withClaims ctx (db, Err accessDenied) (fun claims =>
        match loadByUID claims db with
        | Err e => (db, Err e)
        | Ok u => match saveUser salt (applyProfile req u) db with
                  | (db, Some e) => (db, Err e)
                  | (db, None) => (db, Ok (profileFromUser (applyProfile req u)))
                  end
        end)
  end.

Definition samePassword : error := Newf CodeInvalid "new password must differ from the old one".

Definition ChangePassword (validate : option error) (salt : Salt) (ctx : OpCtx) (oldPassword newPassword : string) (db : DB) :
    option (DB * option error) :=
  match validate with
  | Some e => Some (db, Some e)
  | None =>
      withClaims ctx (db, Some accessDenied) (fun claims =>
        match loadByUID claims db with
        | Err e => (db, Some e)
        | Ok u =>
            if negb (ValidatePassword CompareHashAndPassword u oldPassword) then (db, Some (ESentinel ErrInvalidPassword))
            else if String.eqb newPassword oldPassword then (db, Some samePassword)
            else saveUser salt (withPassword newPassword u) db
        end)
  end.

Definition ResetPassword (validate : option error) (salt : Salt) (ctx : OpCtx) (targetUid newPassword : string) (db : DB) :
    option (DB * result error string) :=
  match validate with
  | Some e => Some (db, Err e)
  | None =>
      withClaims ctx (db, Err accessDenied) (fun claims =>
        match First (fun r : Role => String.eqb (rKey r) (AdminClaims.Role claims)) db with
        | Err e => (db, Err (if Is e ErrRecordNotFound then accessDenied else e))
        | Ok role =>
            if negb (rIsSuper role) then (db, Err accessDenied)
            else match First (fun u : User => String.eqb (uUID u) targetUid) db with
                 | Err e => (db, Err (if Is e ErrRecordNotFound then notFound else e))
                 | Ok target => match saveUser salt (withPassword newPassword target) db with
                                | (db, Some e) => (db, Err e)
                                | (db, None) => (db, Ok (uUID target))
                                end
                 end
        end)
  end.

(** [RowsAffected] of an update is the driver's count. *)
Variable updateCount : (User -> bool) -> (User -> User) -> DB -> Z.

Definition withAvatar (url : string) (u : User) : User :=
  mkUser (uTenant u) (uUID u) (uUsername u) (uRoleKey u) (uStatus u) (uDeptID u) (uPassword u) (uEmail u) url
    (uGender u) (uDescription u).

Definition SetAvatarByURL (validate : option error) (ctx : OpCtx) (avatarUrl : string) (db : DB) :
    option (DB * result error string) :=
  match validate with
  | Some e => Some (db, Err e)
  | None =>
      withClaims ctx (db, Err accessDenied) (fun claims =>
        let url := TrimSpace avatarUrl in
        if String.eqb url EmptyString || (defaultAvatarMaxLen <? String.length url)%nat
        then (db, Err (ESentinel (SErrs ErrInvalid)))
        else
          let w := fun u => String.eqb (uUID u) (UID claims) in
          match Update w (withAvatar url) db with
          | (db', Some e) => (db', Err e)
          | (db', None) => if updateCount w (withAvatar url) db =? 0 then (db', Err notFound) else (db', Ok url)
          end)
  end.

(** ** What the account RPCs do *)

Hypothesis bcrypt_form : forall salt pwd h, GenerateFromPassword salt pwd = Ok h -> HasPrefix h hashedPrefix = true.
Hypothesis bcrypt_accepts : forall salt pwd h, GenerateFromPassword salt pwd = Ok h -> CompareHashAndPassword h pwd = None.

(** The other rows and the other columns of the row are as before. *)
Definition onlyPassword (u u' : User) (db db' : DB) : Prop :=
  u' = withPassword (uPassword u') u
  /\ rows db' = updateRows (fun x => userID x =? userID u) (fun _ => u') (rows db).

Lemma withClaims_Some {A : Type} (ctx : OpCtx) (denied r : A) (k : Claims -> A) :
  withClaims ctx denied k = Some r ->
  r = denied \/ exists claims, ClaimsFromContext (opCtx ctx) = (Some claims, true) /\ r = k claims.
Proof.
  unfold withClaims. destruct (ClaimsFromContext (opCtx ctx)) as [[c|] [|]]; intros; simplify_eq; eauto.
Qed.

Lemma loadByUID_ok (claims : Claims) (db : DB) (u : User) :
  loadByUID claims db = Ok u -> In u (rows db) /\ uUID u = UID claims.
Proof.
  unfold loadByUID. destruct (First _ db) as [x|] eqn:E; [|done]. intros [= <-].
  by apply First_ok in E as [? ->%String.eqb_eq].
Qed.

(** What a password becomes in the table: a plaintext, which satisfies the policy, a hash
    that accepts it; the empty string, and one that begins like a hash, itself. *)
Definition storedPassword (pwd : string) (u' : User) : Prop :=
  if String.eqb pwd EmptyString || HasPrefix pwd hashedPrefix then uPassword u' = pwd
  else CheckPasswordPolicy pwd = None /\ ValidatePassword CompareHashAndPassword u' pwd = true.

Lemma saveUser_stored (salt : Salt) (u : User) (pwd : string) (db db' : DB) :
  In u (rows db) -> saveUser salt (withPassword pwd u) db = (db', None) ->
  exists u', onlyPassword u u' db db' /\ storedPassword pwd u'.
Proof.
  intros Hin Hs. unfold saveUser, BeforeUpdate, policyThenHash, checkPlaintextPasswordPolicy, hashPassword in Hs.
  cbn [withPassword uPassword] in Hs. unfold storedPassword.
  destruct (String.eqb pwd EmptyString || HasPrefix pwd hashedPrefix) eqn:Eraw.
  - cbn [rbind] in Hs. exists (withPassword pwd u). split; [|done]. split; [done|].
    apply (Save_ok (key := userID)) in Hs; [exact Hs|]. by exists u.
  - apply orb_false_iff in Eraw as [Hne%String.eqb_neq _].
    destruct (CheckPasswordPolicy pwd); [done|].
    destruct (GenerateFromPassword salt pwd) as [h|] eqn:Eg; [|done]. cbn [rbind] in Hs.
    exists (withPassword h u). split.
    + split; [done|]. apply (Save_ok (key := userID)) in Hs; [exact Hs|]. by exists u.
    + split; [done|]. unfold ValidatePassword. cbn [withPassword uPassword]. rewrite (bcrypt_accepts _ _ _ Eg).
      pose proof (bcrypt_form _ _ _ Eg). destruct (String.eqb_spec h EmptyString) as [->|]; [done|].
      by destruct (String.eqb_spec pwd EmptyString).
Qed.


End Account.

(** ** The menus and permission codes of the caller *)

Record visibleMenuData : Type := mkVisible { vComponents : list string; vMenus : list Menu }.

Section Grants.

Context {DB Model Arg CV CC : Type} `{GormLaws DB RolePermission} `{GormLaws DB Menu}
  `{LawfulCache (cacheEntry visibleMenuData) CV} `{LawfulCache (cacheEntry (list string)) CC}.
Variable selectScalar : DB -> source (Model := Model) -> string -> list Arg -> string -> result error (option string).
Variable orderByParent : list Menu -> list Menu.
Variable multiTenant : bool.

(** The default resolver; no request reaches here with a nil claims pointer. *)
Definition claimsResolver : Resolver := fun ctx => default EmptyString (FromClaimsResolver ctx).

Definition stampRP (t : string) (r : RolePermission) : RolePermission :=
  mkRP (mkTenantModel (tmBase (rpTenant r)) t) (rpRoleKey r) (rpType r) (rpData r).
Definition scopedGrants (ctx : OpCtx) : Gorm DB RolePermission :=
  installTenantScope multiTenant rpTenantID stampRP claimsResolver ctx.

Definition grantsDependency : DB -> result error string :=
  GetValue selectScalar
    (NewSqlDependency [WithTable "sys_role_permissions"; WithColumn "SUM(id)"; WithCondition "deleted_at IS NULL" []]).
Definition grantsCacher : Cacher DB := New [WithDependency grantsDependency; WithCacheDuration minute].

(** The state of the cache, by the type of the entries. *)
Record grantCaches : Type := mkGrantCaches { visibleCache : CV; codesCache : CC }.

Definition visibleKey (claims : Claims) : string :=
  "user:visible_menus:" +:+ TenantID claims +:+ ":" +:+ AdminClaims.Role claims.
Definition codesKey (claims : Claims) : string :=
  "user:perm_codes:" +:+ TenantID claims +:+ ":" +:+ AdminClaims.Role claims.

Definition loadVisible (ctx : OpCtx) (role : string) (tx : DB) : result error visibleMenuData :=
  let! components := MenuPermissionDatas (H0 := scopedGrants ctx) role tx in
  match components with
  | [] => Ok (mkVisible [] [])
  | _ => let! menus := VisibleMenusByComponents orderByParent components tx in Ok (mkVisible components menus)
  end.

Definition loadCodes (ctx : OpCtx) (role : string) (tx : DB) : result error (list string) :=
  APIPermissionDatas (H0 := scopedGrants ctx) role tx.

Definition ListVisibleMenus (ctx : OpCtx) (ts : times) (db : Z -> DB) (b : grantCaches) :
    option (grantCaches * result error ListVisibleMenusResponse) :=
  withClaims ctx (b, Err accessDenied) (fun claims =>
    let '(c, r) := Try grantsCacher ts db (visibleKey claims) (loadVisible ctx (AdminClaims.Role claims)) (visibleCache b) in
    (mkGrantCaches c (codesCache b),
     match r with
     | Err e => Err e
     | Ok data => match vComponents data with
                  | [] => Ok (mkVisibleMenus 0 [])
                  | _ => Ok (menusToProtoList (vMenus data))
                  end
     end)).

(** The response is the list and its length. *)
Definition ListPermissionCodes (ctx : OpCtx) (ts : times) (db : Z -> DB) (b : grantCaches) :
    option (grantCaches * result error (list string * Z)) :=
  withClaims ctx (b, Err accessDenied) (fun claims =>
    let '(c, r) := Try grantsCacher ts db (codesKey claims) (loadCodes ctx (AdminClaims.Role claims)) (codesCache b) in
    (mkGrantCaches (visibleCache b) c,
     match r with Err e => Err e | Ok codes => Ok (codes, Z.of_nat (length codes)) end)).

(** The paths without a cacher (which [NewUserService] always builds). *)
Definition listVisibleMenusDirect (ctx : OpCtx) (claims : Claims) (db : DB) : result error ListVisibleMenusResponse :=
  let! components := MenuPermissionDatas (H0 := scopedGrants ctx) (AdminClaims.Role claims) db in
  match components with
  | [] => Ok (mkVisibleMenus 0 [])
  | _ => let! menus := VisibleMenusByComponents orderByParent components db in Ok (menusToProtoList menus)
  end.

Definition listPermissionCodesDirect (ctx : OpCtx) (claims : Claims) (db : DB) : result error (list string * Z) :=
  let! codes := loadCodes ctx (AdminClaims.Role claims) db in Ok (codes, Z.of_nat (length codes)).

(** ** What is served *)

Variable L : Z.
Variable db : Z -> DB.
Hypothesis orderByParent_perm : forall l, Permutation (orderByParent l) l.

(** A request of a tenant, and the loader of a role's entry under it. *)
Definition requestOf (tenant : string) : OpCtx :=
  mkOpCtx (mkCtx None (Some (AdminClaims (mkClaims EmptyString None None None EmptyString EmptyString tenant EmptyString)))) false.
Definition grantKeyOf (tenant role : string) : string := "user:visible_menus:" +:+ tenant +:+ ":" +:+ role.

Lemma grantKeyOf_inj (t t' r r' : string) :
  byte_free ":"%char r = true -> byte_free ":"%char r' = true -> grantKeyOf t r = grantKeyOf t' r' -> t = t' /\ r = r'.
Proof.
  intros Hr Hr' He. unfold grantKeyOf in He. apply (inj (String.append _)) in He.
  change (":" +:+ r) with (String ":"%char r) in He. change (":" +:+ r') with (String ":"%char r') in He.
  pose proof (cutLastByte_app t r ":"%char Hr) as H1'. rewrite He, (cutLastByte_app t' r' ":"%char Hr') in H1'.
  by injection H1'.
Qed.

(** Every entry a request could find under a role's key was loaded for that role in
    that tenant. *)
Definition visible_ok (now : Z) (b : grantCaches) : Prop :=
  forall tenant role, byte_free ":"%char role = true ->
  live_ok L db (eq (grantKeyOf tenant role)) (fun _ => loadVisible (requestOf tenant) role) minute now (visibleCache b).

Lemma loadVisible_tenant (ctx : OpCtx) (claims : Claims) (role : string) (tx : DB) :
  ClaimsFromContext (opCtx ctx) = (Some claims, true) -> opBypass ctx = false ->
  loadVisible ctx role tx = loadVisible (requestOf (TenantID claims)) role tx.
Proof.
  intros Hc Hb. unfold loadVisible, MenuPermissionDatas, Pluck. cbn [Find scopedGrants installTenantScope].
  unfold applyTenantScope, tenantBypassed. rewrite Hb. cbn [requestOf opBypass].
  unfold claimsResolver, FromClaimsResolver, TenantIDFromContext. rewrite Hc. done.
Qed.

(** The menus of a role: what the tables grant. *)
Definition granted (tx : DB) (tenant role : string) (m : Menu) : Prop :=
  exists g, In g (rows tx) /\ rpTenantID g = tenant /\ rpRoleKey g = role
    /\ rpType g = RolePermissionTypeMenu /\ rpData g = mComponent m.

Lemma loadVisible_spec (tenant role : string) (tx : DB) (d : visibleMenuData) :
  multiTenant = true -> tenant <> EmptyString -> loadVisible (requestOf tenant) role tx = Ok d ->
  forall m, In m (vMenus d) <-> In m (rows tx) /\ granted tx tenant role m.
Proof.
  intros Hmt Hne Hl m. unfold loadVisible, MenuPermissionDatas, Pluck in Hl.
  cbn [Find scopedGrants installTenantScope] in Hl.
  destruct (Find _ tx) as [gs|] eqn:Eg in Hl; [|done]. apply Find_ok in Eg. cbn [rbind] in Hl.
  assert (forall c, In c (distinct (map rpData gs)) <-> exists g, In g (rows tx) /\ rpTenantID g = tenant
            /\ rpRoleKey g = role /\ rpType g = RolePermissionTypeMenu /\ rpData g = c) as Hc.
  { intros c. unfold distinct. rewrite nodup_In, in_map_iff. subst gs. setoid_rewrite List.filter_In.
    unfold applyTenantScope, tenantBypassed. rewrite Hmt. cbn. destruct (String.eqb_spec tenant EmptyString); [done|].
    setoid_rewrite andb_true_iff. setoid_rewrite andb_true_iff. setoid_rewrite String.eqb_eq. naive_solver. }
  unfold granted. destruct (distinct (map rpData gs)) as [|c0 cs].
  - injection Hl as <-. cbn [vMenus]. split; [done|]. intros (_ & g & Hg). exfalso. apply (Hc (rpData g)). naive_solver.
  - revert Hc Hl. generalize (c0 :: cs). clear c0 cs. intros cs Hc Hl.
    unfold VisibleMenusByComponents in Hl. destruct (Find _ tx) as [ms|] eqn:Em in Hl; [|done]. apply Find_ok in Em.
    cbn [rbind] in Hl. injection Hl as <-. cbn [vMenus].
    assert (In m (orderByParent ms) <-> In m ms) as ->.
    { split; intros Hin; (eapply Permutation_in; [|exact Hin]); [|symmetry]; apply orderByParent_perm. }
    subst ms. rewrite List.filter_In, strIn_spec, Hc. done.
Qed.

(** C12. A user sees the menus of the own role in the own tenant: what the RPC
    answers, from the cache or not, are exactly the menus that the grants of that
    tenant and role named at one instant, no earlier than the cache duration and one
    reload before the request; an entry of another tenant or role is never served. *)
Theorem visible_menus_isolated (ctx : OpCtx) (claims : Claims) (ts : times) (b b' : grantCaches)
    (r : result error ListVisibleMenusResponse) :
  multiTenant = true -> ClaimsFromContext (opCtx ctx) = (Some claims, true) -> opBypass ctx = false ->
  TenantID claims <> EmptyString -> byte_free ":"%char (AdminClaims.Role claims) = true ->
  times_ok L ts -> visible_ok (tCheck ts) b ->
  ListVisibleMenus ctx ts db b = Some (b', r) ->
  visible_ok (tStore ts) b'
  /\ forall res, r = Ok res ->
     exists u menus, tCheck ts - minute - L <= u <= tStore ts
       /\ lvMenus res = lvMenus (menusToProtoList menus)
       /\ forall m, In m menus <-> In m (rows (db u)) /\ granted (db u) (TenantID claims) (AdminClaims.Role claims) m.
Proof.
  intros Hmt Hcl Hby Hne Hfree Hts Hb Hl. unfold ListVisibleMenus, withClaims in Hl. rewrite Hcl in Hl.
  set (role := AdminClaims.Role claims) in *. set (tenant := TenantID claims) in *.
  rewrite (Try_ext _ _ _ _ _ (loadVisible (requestOf tenant) role)) in Hl by (intros d; by apply loadVisible_tenant).
  change (visibleKey claims) with (grantKeyOf tenant role) in Hl.
  destruct (Try grantsCacher ts db (grantKeyOf tenant role) _ (visibleCache b)) as [c res] eqn:Et.
  injection Hl as <- <-.
  destruct (Try_bounded_age L db (eq (grantKeyOf tenant role)) (fun _ => loadVisible (requestOf tenant) role)
              grantsCacher ts (grantKeyOf tenant role) (visibleCache b) c res eq_refl eq_refl Hts (Hb tenant role Hfree) Et)
    as [Hc Hr].
  split.
  - intros tenant' role' Hfree'. destruct (decide (grantKeyOf tenant' role' = grantKeyOf tenant role)) as [He|Hk].
    { apply grantKeyOf_inj in He as [-> ->]; [exact Hc|done|done]. }
    intros t key e <- Hload. cbn [visibleCache] in Hload.
    replace c with (fst (Try grantsCacher ts db (grantKeyOf tenant role) (loadVisible (requestOf tenant) role) (visibleCache b)))
      in Hload by (by rewrite Et).
    apply Try_frame in Hload; [|done]. destruct (Hb tenant' role' Hfree' t _ e eq_refl Hload) as (u & Hu & Hle & Hlo).
    destruct Hts as (? & ? & _). exists u. split; [exact Hu|]. split; [lia|exact Hlo].
  - intros res' Hres. destruct res as [data|e]; [|done]. destruct Hr as (u & Hu & Hw).
    exists u, (vMenus data). split; [exact Hw|]. split; [|by apply loadVisible_spec].
    destruct (vComponents data) eqn:Ec; injection Hres as <-; [|done]. cbn.
    unfold loadVisible in Hu. destruct (MenuPermissionDatas _ (db u)) as [[|]|]; [by injection Hu as <-| |done].
    cbn [rbind] in Hu. destruct (VisibleMenusByComponents _ _ _); [|done]. injection Hu as <-. discriminate Ec.
Qed.

End Grants.

(** ** Concrete runs *)

#[export] Instance Tables_saveUser : GormSave Tables User :=
  tableSave tUsers (fun l t => mkTables (tRoles t) (tGrants t) l (tPermissions t)) userID.
#[export] Instance Tables_saveUser_laws : GormSaveLaws Tables User userID.
Proof. by apply tableSave_laws. Qed.

Definition ctxOfUser (uid role tenant : string) : OpCtx :=
  mkOpCtx (mkCtx None (Some (AdminClaims (mkClaims EmptyString None None None uid role tenant EmptyString)))) false.
Definition userDB : Tables :=
  mkTables [superRole; demoRole] []
    [withPassword "$2secret99" (guardUser 1 "alice1" "alice" "editor"); withPassword "$2rootpw11" (guardUser 2 "root" "boss" "admin")] [].

Definition changeOf (new : string) : option (Tables * option error) :=
  ChangePassword demoHash demoCompare None "s" (ctxOfUser "alice1" "editor" "t1") "secret99" new userDB.


Example weak_password_is_refused :
  match changeOf "short" with Some (_, Some e) => IsCode e CodeInvalid | _ => false end = true.
Proof. reflexivity. Qed.

(** The empty string and any string that begins like a hash pass every check: the
    account can no longer log in, or accepts a password nobody vetted. *)
Example empty_password_is_stored :
  match changeOf EmptyString with Some (db', None) => map uPassword (tUsers db') | _ => [] end = [EmptyString; "$2rootpw11"].
Proof. reflexivity. Qed.
Example hash_like_password_is_stored :
  match changeOf "$2x" with Some (db', None) => map uPassword (tUsers db') | _ => [] end = ["$2x"; "$2rootpw11"].
Proof. reflexivity. Qed.

(** A profile update does not pass the guard of the login namespace: a user who takes
    another user's uid for a user name locks that user out. *)
Definition afterProfile : Tables :=
  match UpdateProfile demoHash None "s" (ctxOfUser "alice1" "editor" "t1")
          (mkUpdateProfile "root" EmptyString EmptyString EmptyString) userDB with
  | Some (db', Ok _) => db'
  | _ => userDB
  end.

Example profile_update_locks_out :
  map uUsername (tUsers afterProfile) = ["root"; "boss"]
  /\ length (List.filter (candidate "root") (tUsers userDB)) = 1%nat
  /\ length (List.filter (candidate "root") (tUsers afterProfile)) = 2%nat.
Proof. vm_compute. auto. Qed.

#[local] Instance grantTable : Gorm (list RolePermission * list Menu) RolePermission := tableGorm fst (fun l t => (l, snd t)).
#[local] Instance grantTable_laws : GormLaws (list RolePermission * list Menu) RolePermission.
Proof. by apply tableGorm_laws. Qed.
#[local] Instance navTable : Gorm (list RolePermission * list Menu) Menu := tableGorm snd (fun l t => (fst t, l)).
#[local] Instance navTable_laws : GormLaws (list RolePermission * list Menu) Menu.
Proof. by apply tableGorm_laws. Qed.

Definition navDB : list RolePermission * list Menu :=
  ([newRP "t1" "editor" RolePermissionTypeMenu "System"; newRP "t2" "editor" RolePermissionTypeMenu "Users"], demoMenus).
Definition navSelect : list RolePermission * list Menu -> source (Model := unit) -> string -> list unit -> string -> result error (option string) :=
  fun _ _ _ _ _ => Ok (Some "1").
Definition navCaches : grantCaches (CV := memCache (cacheEntry visibleMenuData)) (CC := memCache (cacheEntry (list string))) :=
  mkGrantCaches (NewCache 0 ∅) (NewCache 0 ∅).

Lemma visible_menus_isolated_witness :
  exists b' res, ListVisibleMenus navSelect id true (ctxOfUser "alice1" "editor" "t1") (demoTs second) (fun _ => navDB) navCaches
                 = Some (b', Ok res)
    /\ map meComponent (lvMenus res) = ["System"].
Proof.
  destruct (ListVisibleMenus navSelect id true (ctxOfUser "alice1" "editor" "t1") (demoTs second) (fun _ => navDB) navCaches)
    as [[b' r]|] eqn:E; [|vm_compute in E; discriminate E].
  destruct (visible_menus_isolated navSelect id true 0 (fun _ => navDB) (fun l => Permutation_refl l)
              (ctxOfUser "alice1" "editor" "t1")
              (mkClaims EmptyString None None None "alice1" "editor" "t1" EmptyString)
              (demoTs second) navCaches b' r) as [_ Hr];
    [reflexivity|reflexivity|reflexivity|discriminate|reflexivity|apply demo_times_ok; done| |exact E|].
  - intros tenant role _ t key e _ Hl. discriminate Hl.
  - destruct r as [res|e]; [|vm_compute in E; discriminate E]. exists b', res. split; [reflexivity|].
    destruct (Hr res eq_refl) as (u & menus & _ & Hm & _). clear Hm. vm_compute in E. injection E as _ <-. reflexivity.
Defined.
