(* ===== verification/RoleService.v ===== *)
(** [admin/service/role.go], [tenant.go], [permission.go]: the RPCs on roles and
    their grants, on tenants and on the permission catalog. *)

From Stdlib Require Import ZArith Lia String Ascii List Bool.
From stdpp Require Import base tactics list gmap strings.
From S2P Require Import Prelude GoStrings Errs Metadata Middleware AdminClaims Cache DbCache Gorm UserModel RoleModel Menus MenuService TenantScope UserService.

Local Open Scope string_scope.
Local Open Scope list_scope.
Local Open Scope Z_scope.
Local Open Scope aeus_scope.

(** [%v] of a slice of strings. *)
Definition formatStrings (l : list string) : string := "[" +:+ String.concat " " l +:+ "]".

(** ** permission.go *)

Record ListPermissionItem : Type := mkPermissionItem {
  piId : Z; piType : string; piData : string; piDescription : string; piGroup : string;
}.

Section PermissionService.

Context {DB : Type} `{GormLaws DB Permission}.

(** [ORDER BY id ASC]. *)
Variable orderByID : list Permission -> list Permission.

Definition ListCatalog (t : PbPermissionType) (db : DB) : result error (list string) :=
  ListByType (PermissionTypeFromPb t) db.

Definition permissionItem (p : Permission) : ListPermissionItem :=
  mkPermissionItem (bID (pBase p)) (pType p) (pData p) (pDescription p) (pGroup p).

Definition ListPermissions (t : string) (db : DB) : result error (list ListPermissionItem) :=
  let! l := Find (fun p => String.eqb t EmptyString || String.eqb (pType p) t) db in
  Ok (map permissionItem (orderByID l)).

(** The catalog of a type lists every code of that type once. *)
Lemma ListCatalog_spec (t : PbPermissionType) (db : DB) (l : list string) :
  ListCatalog t db = Ok l ->
  NoDup l /\ forall d, In d l <-> exists p, In p (rows db) /\ pData p = d
    /\ (PermissionTypeFromPb t = PermissionTypeUnspec \/ pType p = PermissionTypeFromPb t).
Proof.
  unfold ListCatalog, ListByType. intros (x & Hx & Hl)%rbind_Ok. injection Hl as <-. apply Pluck_ok in Hx as ->.
  split; [apply NoDup_ListNoDup, NoDup_nodup|]. intros d. unfold distinct. rewrite nodup_In, in_map_iff.
  setoid_rewrite List.filter_In. setoid_rewrite orb_true_iff. setoid_rewrite String.eqb_eq. naive_solver.
Qed.

End PermissionService.

(** ** tenant.go *)

Record Tenant : Type := mkTenant { tID : string; tName : string; tStatus : string; tCreatedAt : Z; tUpdatedAt : Z }.
Record TenantOption : Type := mkTenantOption { toId : string; toName : string }.
Record TenantInfo : Type := mkTenantInfo { tiId : string; tiName : string; tiStatus : string; tiCreatedAt : Z }.

(** The create hook; [fresh] is the uuid it draws. *)
Definition TenantBeforeCreate (fresh : string) (t : Tenant) : Tenant :=
  if String.eqb (tID t) EmptyString then mkTenant fresh (tName t) (tStatus t) (tCreatedAt t) (tUpdatedAt t) else t.

Section TenantService.

Context {DB : Type} `{GormLaws DB Role} `{GormLaws DB Tenant}.

(** [sort.Slice] by a string. *)
Variable sortByName : list Tenant -> list Tenant.
Hypothesis sortByName_perm : forall l, Permutation (sortByName l) l.

Definition requireSuper (ctx : OpCtx) (db : DB) : option (option error) :=
  withClaims ctx (Some accessDenied) (fun claims =>
    match First (fun r : Role => String.eqb (rKey r) (AdminClaims.Role claims)) db with
    | Err e => if Is e ErrRecordNotFound then Some accessDenied else Some e
    | Ok role => if rIsSuper role then None else Some accessDenied
    end).

Definition ListTenantOptions (ctx : OpCtx) (db : DB) : option (result error (list TenantOption)) :=
  match requireSuper ctx db with
  | None => None
  | Some (Some e) => Some (Err e)
  | Some None => Some (let! l := Find (fun _ => true) db in
                       Ok (map (fun t => mkTenantOption (tID t) (tName t)) (sortByName l)))
  end.

Definition TenantByID (validate : option error) (ctx : OpCtx) (id : string) (db : DB) : option (result error TenantInfo) :=
  match requireSuper ctx db with
  | None => None
  | Some (Some e) => Some (Err e)
  | Some None => match validate with
                 | Some e => Some (Err e)
                 | None => Some (match First (fun t => String.eqb (tID t) id) db with
                                 | Err e => Err (if Is e ErrRecordNotFound then notFound else e)
                                 | Ok t => Ok (mkTenantInfo (tID t) (tName t) (tStatus t) (tCreatedAt t))
                                 end)
                 end
  end.

(** Tenant rows are read only by a caller whose role is super as the table has it. *)
Lemma requireSuper_spec (ctx : OpCtx) (db : DB) :
  requireSuper ctx db = Some None ->
  exists claims role, ClaimsFromContext (opCtx ctx) = (Some claims, true)
    /\ In role (rows db) /\ rKey role = AdminClaims.Role claims /\ rIsSuper role = true.
Proof.
  intros Hr. apply withClaims_Some in Hr as [Hr|(claims & Hc & Hr)]; [done|].
  destruct (First _ db) as [role|e] eqn:Ef; [|by destruct (Is e _)]. apply First_ok in Ef as [Hin Hk%String.eqb_eq].
  destruct (rIsSuper role) eqn:Es; [|done]. by exists claims, role.
Qed.

Lemma ListTenantOptions_spec (ctx : OpCtx) (db : DB) (l : list TenantOption) :
  ListTenantOptions ctx db = Some (Ok l) ->
  requireSuper ctx db = Some None /\ Permutation l (map (fun t => mkTenantOption (tID t) (tName t)) (rows db)).
Proof.
  unfold ListTenantOptions. destruct (requireSuper ctx db) as [[e|]|]; [done| |done]. intros Hl. split; [done|].
  injection Hl as Hl. apply rbind_Ok in Hl as (x & Hx & Hl). injection Hl as <-. apply Find_ok in Hx as ->.
  apply Permutation_map. rewrite sortByName_perm. by rewrite filter_all.
Qed.

End TenantService.

(** ** role.go *)

Record rolePermissionsData : Type := mkRoleData { rdMenus : list string; rdApis : list string }.

Section RoleService.

Context {DB Model Arg CG CO : Type} `{GormLaws DB Role} `{GormLaws DB RolePermission} `{GormLaws DB Menu}
  `{GormLaws DB Permission}
  `{LawfulCache (cacheEntry rolePermissionsData) CG} `{LawfulCache (cacheEntry (list OptionEntry)) CO}.
Variable selectScalar : DB -> source (Model := Model) -> string -> list Arg -> string -> result error (option string).
Variable sortByKey : list Role -> list Role.
Variable orderByParent : list Menu -> list Menu.

Definition roleGrantsCacher : Cacher DB :=
  New [WithDependency (GetValue selectScalar (NewSqlDependency [WithTable "sys_role_permissions"; WithColumn "SUM(id)"; WithCondition "deleted_at IS NULL" []]));
       WithCacheDuration (30 * second)].
Definition rolesCacher : Cacher DB :=
  New [WithDependency (GetValue selectScalar (NewSqlDependency [WithTable "sys_roles"; WithColumn "MAX(updated_at)"; WithCondition "deleted_at IS NULL" []]));
       WithCacheDuration minute].

Record roleCaches : Type := mkRoleCaches { grantsCache : CG; optionsCache : CO }.

(** Claims are optional here; [None] is again the nil pointer. *)
Definition tenantOfCtx (ctx : OpCtx) : string := default EmptyString (TenantIDFromContext (opCtx ctx)).

Definition loadRole (role : string) (tx : DB) : result error rolePermissionsData :=
  let! menus := MenuPermissionDatas role tx in
  let! apis := APIPermissionDatas role tx in
  Ok (mkRoleData menus apis).

Definition selectData (t : PbPermissionType) (d : rolePermissionsData) : rolePermissionsData :=
  match t with
  | PERMISSION_TYPE_MENU => mkRoleData (rdMenus d) []
  | PERMISSION_TYPE_API => mkRoleData [] (rdApis d)
  | _ => d
  end.

Definition rolePermissionsKey (tenant role : string) : string := "role:permissions:" +:+ tenant +:+ ":" +:+ role.
Definition roleOptionsKey (tenant : string) : string := "role:options:" +:+ tenant.

Definition RolePermissions (validate : option error) (ctx : OpCtx) (role : string) (t : PbPermissionType) (ts : times)
    (db : Z -> DB) (b : roleCaches) : roleCaches * result error rolePermissionsData :=
  match validate with
  | Some e => (b, Err e)
  | None =>
      match t with
      | PERMISSION_TYPE_BUTTON | PERMISSION_TYPE_DATA_SCOPE => (b, Ok (mkRoleData [] []))
      | _ =>
          let '(c, r) := Try roleGrantsCacher ts db (rolePermissionsKey (tenantOfCtx ctx) role) (loadRole role) (grantsCache b) in
          (mkRoleCaches c (optionsCache b), let! d := r in Ok (selectData t d))
      end
  end.

(** Without a cacher only what is asked for is read. *)
Definition rolePermissionsDirect (role : string) (t : PbPermissionType) (tx : DB) : result error rolePermissionsData :=
  match t with
  | PERMISSION_TYPE_MENU => let! menus := MenuPermissionDatas role tx in Ok (mkRoleData menus [])
  | PERMISSION_TYPE_API => let! apis := APIPermissionDatas role tx in Ok (mkRoleData [] apis)
  | _ => loadRole role tx
  end.

Definition roleOptions (tx : DB) : result error (list OptionEntry) :=
  let! roles := Find (fun _ => true) tx in
  Ok (map (fun r => mkOptionEntry (rKey r) (rName r)) (sortByKey roles)).

Definition ListRoleOptions (ctx : OpCtx) (ts : times) (db : Z -> DB) (b : roleCaches) : roleCaches * result error (list OptionEntry) :=
  let '(c, r) := Try rolesCacher ts db (roleOptionsKey (tenantOfCtx ctx)) roleOptions (optionsCache b) in
  (mkRoleCaches (grantsCache b) c, r).

Definition RoleMenus (validate : option error) (role : string) (tx : DB) : result error ListVisibleMenusResponse :=
  match validate with
  | Some e => Err e
  | None => let! menus := VisibleByRole orderByParent role tx in Ok (menusToProtoList menus)
  end.

(** *** ReplaceRolePermissions *)

Definition superRoleRefused : error :=
  Newf CodePermissionDenied "super admin role permissions are managed automatically and cannot be modified".

(** The function the transaction runs. *)
Definition replaceInTx (role : string) (menus apis : list string) (tx : DB) : DB * option error :=
  match First (fun r : Role => String.eqb (rKey r) role) tx with
  | Err e => (tx, Some (if Is e ErrRecordNotFound then notFound else e))
  | Ok r =>
      if rIsSuper r then (tx, Some superRoleRefused)
      else match ValidateMenuData menus tx with
           | Err e => (tx, Some e)
           | Ok ((_ :: _) as missing) => (tx, Some (Newf CodeInvalid ("missing menu components " +:+ formatStrings missing)))
           | Ok [] =>
               match ValidatePermissionData apis tx with
               | Err e => (tx, Some e)
               | Ok ((_ :: _) as missing) => (tx, Some (Newf CodeInvalid ("missing permission datas " +:+ formatStrings missing)))
               | Ok [] => ReplacePermissions role menus apis [rTenantID r] tx
               end
           end
  end.

Definition ReplaceRolePermissions (validate : option error) (role : string) (menus apis : list string) (db : DB) :
    DB * result error (string * Z) :=
  match validate with
  | Some e => (db, Err e)
  | None => match Transaction (replaceInTx role menus apis) db with
            | (db, Some e) => (db, Err e)
            | (db, None) => (db, Ok (role, Z.of_nat (length menus + length apis)))
            end
  end.

(** Every value given is in the table. *)
Lemma missing_none {R : Type} `{GormLaws DB R} (column : R -> string) (values : list string) (tx : DB) :
  missingDataValues column values tx = Ok [] -> forall v, In v values -> exists r, In r (rows tx) /\ column r = v.
Proof.
  intros Hm v Hv. destruct (decide (v ∈ map column (rows tx))) as [Hin|Hn].
  - apply list_elem_of_In, in_map_iff in Hin as (r & ? & ?). by exists r.
  - exfalso. apply (missingDataValues_spec column values [] tx Hm v). split; [done|]. intros (r & Hr & Hc).
    apply Hn. rewrite list_elem_of_In, in_map_iff. by exists r.
Qed.

(** A role's grants are replaced as a whole or not at all: a refused request
    leaves the database as it was, and a request that succeeds named an existing role
    that is not super, existing menus and existing permissions; the role's grants are
    then exactly those, in the role's tenant, and no other role's grants changed. *)
Theorem ReplaceRolePermissions_spec (validate : option error) (role : string) (menus apis : list string) (db db' : DB)
    (r : result error (string * Z)) :
  ReplaceRolePermissions validate role menus apis db = (db', r) ->
  match r with
  | Err _ => db' = db
  | Ok res =>
      res = (role, Z.of_nat (length menus + length apis))
      /\ exists ro, In ro (rows db) /\ rKey ro = role /\ rIsSuper ro = false
           /\ (forall c, In c menus -> exists m, In m (rows db) /\ mComponent m = c)
           /\ (forall d, In d apis -> exists p, In p (rows db) /\ pData p = d)
           /\ let tenant := if String.eqb (rTenantID ro) EmptyString then DefaultTenantID else rTenantID ro in
              List.filter (fun g => String.eqb (rpRoleKey g) role) (rows db')
              = map (newRP tenant role RolePermissionTypeMenu) menus
                ++ map (newRP tenant role RolePermissionTypePermission) apis
              /\ List.filter (fun g => negb (String.eqb (rpRoleKey g) role)) (rows db')
                 = List.filter (fun g => negb (String.eqb (rpRoleKey g) role)) (rows db)
  end.
Proof.
  unfold ReplaceRolePermissions. destruct validate as [e|]; [by intros [= <- <-]|].
  destruct (Transaction_atomic (replaceInTx role menus apis) db) as [(db1 & Hf & ->)|(e & Hf & ->)];
    [|by intros [= <- <-]].
  intros [= <- <-]. split; [done|]. unfold replaceInTx in Hf.
  destruct (First _ db) as [ro|] eqn:Er; [|done]. apply First_ok in Er as [Hin Hk%String.eqb_eq].
  destruct (rIsSuper ro) eqn:Es; [done|].
  destruct (ValidateMenuData menus db) as [[|]|] eqn:Em; [|done|done].
  destruct (ValidatePermissionData apis db) as [[|]|] eqn:Ep; [|done|done].
  exists ro. split; [done|]. split; [done|]. split; [done|]. split; [by apply (missing_none mComponent)|].
  split; [by apply (missing_none pData)|]. by apply (ReplacePermissions_spec role menus apis [rTenantID ro] db db1).
Qed.

End RoleService.

(** ** Concrete runs *)

(** The tables of RoleModel and the menus. *)
Definition lift {R : Type} `{Gorm Tables R} : Gorm (Tables * list Menu) R := {|
  rows db := rows (fst db);
  Find w db := Find w (fst db);
  Update w f db := let '(t, e) := Update w f (fst db) in ((t, snd db), e);
  DeleteRows w db := let '(t, e) := DeleteRows w (fst db) in ((t, snd db), e);
  Create rs db := let '(t, e) := Create rs (fst db) in ((t, snd db), e);
|}.
Lemma lift_laws {R : Type} `{GormLaws Tables R} : GormLaws (Tables * list Menu) R (H := lift).
Proof.
  split; cbn.
  - intros w [t l] x. apply Find_ok.
  - intros w f [t l] db'. cbn. destruct (Update w f t) as [t' e] eqn:E. intros [= <- ->]. by apply Update_ok in E.
  - intros w [t l] db'. cbn. destruct (DeleteRows w t) as [t' e] eqn:E. intros [= <- ->]. by apply DeleteRows_ok in E.
  - intros rs [t l] db'. cbn. destruct (Create rs t) as [t' e] eqn:E. intros [= <- ->]. by apply Create_ok in E.
Qed.
#[local] Instance site_Role : Gorm (Tables * list Menu) Role := lift.
#[local] Instance site_RP : Gorm (Tables * list Menu) RolePermission := lift.
#[local] Instance site_Permission : Gorm (Tables * list Menu) Permission := lift.
#[local] Instance site_Menu : Gorm (Tables * list Menu) Menu := tableGorm snd (fun l t => (fst t, l)).
#[local] Instance site_Role_laws : GormLaws (Tables * list Menu) Role := lift_laws.
#[local] Instance site_RP_laws : GormLaws (Tables * list Menu) RolePermission := lift_laws.
#[local] Instance site_Permission_laws : GormLaws (Tables * list Menu) Permission := lift_laws.
#[local] Instance site_Menu_laws : GormLaws (Tables * list Menu) Menu.
Proof. by apply tableGorm_laws. Qed.

Definition site : Tables * list Menu :=
  (mkTables (tRoles demoTables) (tGrants demoTables) [] [mkPermission (mkBase 1 0 0 None) "users" "api" "GET /users" ""], demoMenus).

Lemma ReplaceRolePermissions_spec_witness :
  let r := ReplaceRolePermissions None "editor" ["System"] ["GET /users"] site in
  snd r = Ok ("editor", 2)
  /\ List.filter (fun g => String.eqb (rpRoleKey g) "editor") (rows (fst r))
     = [newRP "t1" "editor" "menu" "System"; newRP "t1" "editor" "permission" "GET /users"].
Proof.
  intros r. split; [reflexivity|].
  destruct (ReplaceRolePermissions_spec None "editor" ["System"] ["GET /users"] site (fst r) (snd r))
    as (_ & ro & Hin & _ & _ & _ & _ & Hg & _); [reflexivity|].
  rewrite Hg. destruct Hin as [<-|[]]. reflexivity.
Defined.

Example missing_menu_is_refused :
  ReplaceRolePermissions None "editor" ["Nope"] [] site = (site, Err (Newf CodeInvalid "missing menu components [Nope]")).
Proof. reflexivity. Qed.
