(* ===== verification/Dashboard.v ===== *)
(** [admin/dashboard_endpoint.go], [admin/responder.go], [models/department.go]: the
    overview of the landing page, the envelope of a result, and departments. *)

From Stdlib Require Import ZArith Lia String Ascii List Bool.
From stdpp Require Import base tactics list gmap strings pretty.
From S2P Require Import Prelude GoStrings Errs Metadata Middleware Gorm AdminClaims UserModel RoleModel AuditLog Menus Derive TenantScope RoleService.

Local Open Scope string_scope.
Local Open Scope list_scope.
Local Open Scope aeus_scope.

(** ** Departments *)

Record Department : Type := mkDepartment { dpTenant : TenantModel; dpParentID : Z; dpName : string; dpDescription : string }.

Definition DepartmentBeforeCreate (m : Department) : Department :=
  mkDepartment (ApplyDefaultTenant (dpTenant m)) (dpParentID m) (dpName m) (dpDescription m).

(** ** The envelope of a result *)

Section Respond.

Context {D : Type}.

(** The data of a response: an error, or something else. *)
Definition respond (data : error + D) : Response.Envelope D :=
  match data with
  | inr d => Response.mkEnvelope CodeOK EmptyString (Some d)
  | inl err =>
      let '(code, message) := match As err with Some e => (Code e, Message e) | None => (CodeInvalid, EmptyString) end in
      Response.mkEnvelope code (if String.eqb message EmptyString then errText err else message) None
  end.

(** An error is never answered with data; one that has a code is answered with it. *)
Lemma respond_error (err : error) :
  Response.eData (respond (inl err)) = None /\
  Response.eCode (respond (inl err)) = match As err with Some e => Code e | None => CodeInvalid end.
Proof. unfold respond. destruct (As err); by split. Qed.

(** The code is the one of the first coded error of the chain, not of the deepest. *)
Lemma respond_outermost (c c' : Z) (m m' : string) :
  Response.eCode (respond (inl (EErr c m (Some (EErr c' m' None))))) = c.
Proof. reflexivity. Qed.

End Respond.

(** ** The dashboard *)

Definition DashboardEndpointPath : string := "/dashboard/overview".

Record DashboardCounts : Type := mkCounts {
  dcUsers : Z; dcRoles : Z; dcDepartments : Z; dcMenus : Z; dcPermissions : Z; dcTenants : Z;
}.
Record DashboardTrendPoint : Type := mkPoint { tpDate : string; tpCount : Z }.
Record DashboardLogins : Type := mkLogins { dlToday : Z; dlYesterday : Z; dlTrend : list DashboardTrendPoint }.
Record DashboardAuditItem : Type := mkAuditItem {
  aiID : Z; aiUID : string; aiAction : string; aiModule : string; aiTable : string; aiCreatedAt : Z;
}.
Record DashboardAudits : Type := mkAudits { daToday : Z; daRecent : list DashboardAuditItem }.
Record DashboardOverview : Type := mkOverview {
  ovScope : string;
  ovCounts : option DashboardCounts;
  ovLogins : option DashboardLogins;
  ovAudits : option DashboardAudits;
  ovGeneratedAt : Z;
}.

Section Dashboard.

(** The tables, each seen through the caller's context. *)
Context {DB : Type} `{!Gorm DB User} `{!Gorm DB Role} `{!Gorm DB Department} `{!Gorm DB Menu} `{!Gorm DB Permission}
  `{!Gorm DB Tenant} `{!Gorm DB LoginLog} `{!Gorm DB AuditRow}.

(** [Count] of a table. *)
Definition CountRows (R : Type) `{Gorm DB R} (what : string) (w : R -> bool) (db : DB) : result error Z :=
  match Find w db with
  | Ok l => Ok (Z.of_nat (List.length l))
  | Err e => Err (wrapf what e)
  end.

(** The location of the clock: the day of an instant, the first second of a day, the text
    of a day; and [ORDER BY created_at DESC, id DESC]. *)
Variable dayOf : Z -> Z.
Variable midnight : Z -> Z.
Variable dayText : Z -> string.
Variable newestFirst : list AuditRow -> list AuditRow.

Definition callerIsSuperRole (roleKey : string) (db : DB) : result error bool :=
  if String.eqb roleKey EmptyString then Ok false
  else match First (fun r : Role => String.eqb (rKey r) roleKey) db with
       | Err e => if Is e ErrRecordNotFound then Ok false else Err (wrapf "resolve dashboard role" e)
       | Ok role => Ok (rIsSuper role)
       end.

Definition loadDashboardCounts (multiTenant : bool) (db : DB) : result error DashboardCounts :=
  let! users := CountRows User "count users" (fun _ => true) db in
  let! roles := CountRows Role "count roles" (fun _ => true) db in
  let! departments := CountRows Department "count departments" (fun _ => true) db in
  let! menus := CountRows Menu "count menus" (fun _ => true) db in
  let! permissions := CountRows Permission "count permissions" (fun _ => true) db in
  let! tenants := (if multiTenant then CountRows Tenant "count tenants" (fun _ => true) db else Ok 0%Z) in
  Ok (mkCounts users roles departments menus permissions tenants).

Definition createdAt (t : TenantModel) : Z := CreatedAt (tmBase t).

(** The days of the window, the first one first. *)
Definition window (today : Z) : list Z := map (fun i => today - 6 + Z.of_nat i)%Z (seq 0 7).

(** What the loop over the rows keeps: the counts by day, today's and yesterday's. *)
Record tally : Type := mkTally { tyCounts : gmap string Z; tyToday : Z; tyYesterday : Z }.

Definition tallyRow (today : Z) (ty : tally) (row : LoginLog) : tally :=
  let at_ := createdAt (lTenant row) in
  let key := dayText (dayOf at_) in
  match tyCounts ty !! key with
  | None => ty
  | Some n =>
      mkTally (<[key := (n + 1)%Z]> (tyCounts ty))
        (if (midnight today <=? at_)%Z then tyToday ty + 1 else tyToday ty)%Z
        (if (midnight (today - 1) <=? at_)%Z && (at_ <? midnight today)%Z then tyYesterday ty + 1 else tyYesterday ty)%Z
  end.

Definition newTally (today : Z) : tally :=
  mkTally (fold_left (fun (m : gmap string Z) d => <[dayText d := 0%Z]> m) (window today) ∅) 0 0.

Definition loadDashboardLogins (now : Z) (db : DB) : result error DashboardLogins :=
  let today := dayOf now in
  match Find (fun l : LoginLog => (midnight (today - 6) <=? createdAt (lTenant l))%Z) db with
  | Err e => Err (wrapf "load login trend" e)
  | Ok l =>
      let ty := fold_left (tallyRow today) l (newTally today) in
      Ok (mkLogins (tyToday ty) (tyYesterday ty)
            (map (fun d => mkPoint (dayText d) (default 0%Z (tyCounts ty !! dayText d))) (window today)))
  end.

Definition auditItem (r : AuditRow) : DashboardAuditItem :=
  mkAuditItem (bID (tmBase (auTenant r))) (auUID r) (auAction r) (auModule r) (auTable r) (createdAt (auTenant r)).

Definition loadDashboardAudits (now : Z) (db : DB) : result error DashboardAudits :=
  let! today := CountRows AuditRow "count audits" (fun a => (midnight (dayOf now) <=? createdAt (auTenant a))%Z) db in
  match Find (fun _ : AuditRow => true) db with
  | Err e => Err (wrapf "load recent audits" e)
  | Ok l => Ok (mkAudits today (map auditItem (take 6 (newestFirst l))))
  end.

Definition personal (now : Z) : DashboardOverview := mkOverview "personal" None None None now.

(** [None] is the panic of nil claims. *)
Definition loadDashboardOverview (ctx : OpCtx) (multiTenant : bool) (now : Z) (db : DB) : option (result error DashboardOverview) :=
  match ClaimsFromContext (opCtx ctx) with
  | (_, false) => Some (Err (ESentinel (SErrs ErrUnauthorized)))
  | (None, true) => None
  | (Some claims, true) => Some (
      let! super := callerIsSuperRole (AdminClaims.Role claims) db in
      if negb super then Ok (personal now)
      else
        let! counts := loadDashboardCounts multiTenant db in
        let! logins := loadDashboardLogins now db in
        let! audits := loadDashboardAudits now db in
        Ok (mkOverview "admin" (Some counts) (Some logins) (Some audits) now))
  end.

Definition dashboardHandler (ctx : OpCtx) (multiTenant : bool) (now : Z) (db : DB) : option (Response.Envelope DashboardOverview) :=
  match ClaimsFromContext (opCtx ctx) with
  | (_, false) => Some (Response.mkEnvelope CodeUnauthorized "unauthorized" None)
  | (_, true) =>
      match loadDashboardOverview ctx multiTenant now db with
      | None => None
      | Some (Err _) => Some (Response.mkEnvelope CodeInternal "dashboard overview unavailable" None)
      | Some (Ok overview) => Some (Response.mkEnvelope CodeOK EmptyString (Some overview))
      end
  end.

(** ** Who sees what *)

(** System data is served to a caller whose role is super as the table has it, and to
    nobody else. *)
Lemma overview_super `{!GormLaws DB Role} (ctx : OpCtx) (mt : bool) (now : Z) (db : DB) (ov : DashboardOverview) :
  loadDashboardOverview ctx mt now db = Some (Ok ov) ->
  ov = personal now \/
  exists claims role, ClaimsFromContext (opCtx ctx) = (Some claims, true) /\
    In role (rows db) /\ rKey role = AdminClaims.Role claims /\ rIsSuper role = true.
Proof.
  unfold loadDashboardOverview. destruct (ClaimsFromContext (opCtx ctx)) as [[claims|] []]; try done.
  intros [= H]. apply rbind_Ok in H as (super & Hs & H). destruct super; cbn [negb] in H; [right|left; by injection H as <-].
  unfold callerIsSuperRole in Hs. destruct (String.eqb _ _); [done|]. destruct (First _ db) as [role|e] eqn:Ef; [|by destruct (Is e _)].
  apply First_ok in Ef as [Hin Hk]. apply String.eqb_eq in Hk. injection Hs as Hs. by exists claims, role.
Qed.

(** What the endpoint answers: without claims an error, with them the caller's own page,
    and the numbers of the system only to a super role. *)
Theorem dashboard_confined `{!GormLaws DB Role} (ctx : OpCtx) (mt : bool) (now : Z) (db : DB) (env : Response.Envelope DashboardOverview) :
  dashboardHandler ctx mt now db = Some env ->
  (snd (ClaimsFromContext (opCtx ctx)) = false -> env = Response.mkEnvelope CodeUnauthorized "unauthorized" None) /\
  (forall ov, Response.eData env = Some ov -> ov = personal now \/
    exists claims role, ClaimsFromContext (opCtx ctx) = (Some claims, true) /\
      In role (rows db) /\ rKey role = AdminClaims.Role claims /\ rIsSuper role = true).
Proof.
  unfold dashboardHandler. pose proof (overview_super ctx mt now db) as Hs.
  destruct (ClaimsFromContext (opCtx ctx)) as [c []]; cbn [snd]; [|intros [= <-]; by split].
  intros H. split; [done|]. destruct (loadDashboardOverview ctx mt now db) as [[ov|e]|]; [|injection H as <-; done|done].
  injection H as <-. intros ov' [= <-]. by apply Hs.
Qed.

(** ** The trend *)

Hypothesis midnight_lt : forall d d', (d < d')%Z -> (midnight d < midnight d')%Z.
Hypothesis dayOf_spec : forall t, (midnight (dayOf t) <= t < midnight (dayOf t + 1))%Z.
Hypothesis dayText_inj : forall d d', dayText d = dayText d' -> d = d'.

(** The rows of a day. *)
Definition onDay (d : Z) (row : LoginLog) : bool := Z.eqb (dayOf (createdAt (lTenant row))) d.
Definition dayCount (d : Z) (l : list LoginLog) : Z := Z.of_nat (List.length (List.filter (onDay d) l)).

(** A tally that has counted [f d] rows of each day of the window. *)
Definition tallies (today : Z) (ty : tally) (f : Z -> Z) : Prop :=
  (forall d, tyCounts ty !! dayText d = if bool_decide (today - 6 <= d <= today)%Z then Some (f d) else None) /\
  tyToday ty = f today /\ tyYesterday ty = f (today - 1)%Z.

Lemma midnight_le (d d' : Z) : (d <= d')%Z -> (midnight d <= midnight d')%Z.
Proof. intros H. destruct (Z.eq_dec d d') as [->|]; [lia|]. assert (midnight d < midnight d')%Z by (apply midnight_lt; lia). lia. Qed.

(** A day is compared as its midnight is. *)
Lemma midnight_day (d t : Z) : (midnight d <= t)%Z <-> (d <= dayOf t)%Z.
Proof.
  pose proof (dayOf_spec t) as Ht. split; intros H.
  - destruct (Z_le_gt_dec d (dayOf t)); [done|]. assert (midnight (dayOf t + 1) <= midnight d)%Z by (apply midnight_le; lia). lia.
  - apply midnight_le in H. lia.
Qed.

Lemma newTally_tallies (today : Z) : tallies today (newTally today) (fun _ => 0%Z).
Proof.
  split; [|done]. intros d. cbn [newTally tyCounts].
  assert (forall (l : list Z) (m : gmap string Z), fold_left (fun m d => <[dayText d := 0%Z]> m) l m !! dayText d =
            if existsb (Z.eqb d) l then Some 0%Z else m !! dayText d) as Hf.
  { induction l as [|x l IH]; intros m; [done|]. cbn [fold_left existsb]. rewrite IH. destruct (existsb (Z.eqb d) l); [by rewrite orb_true_r|].
    rewrite orb_false_r, lookup_insert. destruct (Z.eqb_spec d x) as [->|Hne]; [by rewrite decide_True|].
    rewrite decide_False; [done|]. intros Hx. apply Hne. symmetry. by apply dayText_inj. }
  rewrite Hf, lookup_empty. cbn. repeat match goal with |- context [Z.eqb ?a ?b] => destruct (Z.eqb_spec a b) end; cbn [orb];
    case_bool_decide; try done; lia.
Qed.

Lemma tallyRow_tallies (today : Z) (ty : tally) (f : Z -> Z) (row : LoginLog) :
  tallies today ty f -> tallies today (tallyRow today ty row) (fun d => f d + if onDay d row then 1 else 0)%Z.
Proof.
  intros (Hc & Ht & Hy). unfold tallyRow, onDay. cbv zeta. set (at_ := createdAt (lTenant row)). rewrite Hc.
  case_bool_decide as Hin.
  - split; [|split]; cbn [tyCounts tyToday tyYesterday].
    + intros d. rewrite lookup_insert. destruct (Z.eqb_spec (dayOf at_) d) as [<-|Hne].
      * rewrite decide_True by done. by rewrite bool_decide_eq_true_2.
      * rewrite decide_False by (intros Hx; by apply Hne, dayText_inj). rewrite Hc. by rewrite Z.add_0_r.
    + rewrite Ht. pose proof (midnight_day today at_). destruct (Z.leb_spec (midnight today) at_), (Z.eqb_spec (dayOf at_) today); lia.
    + rewrite Hy. pose proof (midnight_day today at_). pose proof (midnight_day (today - 1) at_).
      destruct (Z.leb_spec (midnight (today - 1)) at_), (Z.ltb_spec at_ (midnight today)), (Z.eqb_spec (dayOf at_) (today - 1)%Z); cbn [andb]; lia.
  - split; [|split].
    + intros d. rewrite Hc. case_bool_decide; [|done]. destruct (Z.eqb_spec (dayOf at_) d); [lia|]. by rewrite Z.add_0_r.
    + rewrite Ht. destruct (Z.eqb_spec (dayOf at_) today); lia.
    + rewrite Hy. destruct (Z.eqb_spec (dayOf at_) (today - 1)%Z); lia.
Qed.

Lemma tally_rows (today : Z) (l : list LoginLog) (ty : tally) (f : Z -> Z) :
  tallies today ty f -> tallies today (fold_left (tallyRow today) l ty) (fun d => f d + dayCount d l)%Z.
Proof.
  revert ty f. induction l as [|row l IH]; intros ty f H.
  - destruct H as (H1 & H2 & H3). split; [|split; unfold dayCount; cbn; lia]. intros d. rewrite H1. unfold dayCount. cbn. by rewrite Z.add_0_r.
  - cbn [fold_left]. apply tallyRow_tallies with (row := row) in H. apply IH in H. destruct H as (H1 & H2 & H3).
    assert (forall d, f d + (if onDay d row then 1 else 0) + dayCount d l = f d + dayCount d (row :: l))%Z as E.
    { intros d. unfold dayCount. cbn [List.filter]. destruct (onDay d row); cbn [List.length]; lia. }
    split; [|by rewrite H2, H3, !E]. intros d. by rewrite H1, E.
Qed.

(** The rows of a day of the window are all selected. *)
Lemma selected_day (today d : Z) (l : list LoginLog) :
  (today - 6 <= d)%Z -> dayCount d (List.filter (fun l : LoginLog => (midnight (today - 6) <=? createdAt (lTenant l))%Z) l) = dayCount d l.
Proof.
  intros Hd. unfold dayCount. f_equal. f_equal. induction l as [|row l IH]; [done|]. cbn [List.filter].
  pose proof (midnight_day (today - 6) (createdAt (lTenant row))) as Hm.
  destruct (Z.leb_spec (midnight (today - 6)) (createdAt (lTenant row))) as [Hle|Hgt]; cbn [List.filter]; rewrite IH; [done|].
  unfold onDay at 2. destruct (Z.eqb_spec (dayOf (createdAt (lTenant row))) d); [lia|done].
Qed.

(** The login trend: seven days up to today, each with the number of logins of that day,
    and the two headline numbers are the last two of them. *)
Theorem dashboard_trend `{!GormLaws DB LoginLog} (now : Z) (db : DB) (out : DashboardLogins) :
  loadDashboardLogins now db = Ok out ->
  dlTrend out = map (fun d => mkPoint (dayText d) (dayCount d (rows db))) (window (dayOf now)) /\
  dlToday out = dayCount (dayOf now) (rows db) /\ dlYesterday out = dayCount (dayOf now - 1) (rows db).
Proof.
  unfold loadDashboardLogins. destruct (Find _ db) as [l|e] eqn:Ef; [|done]. remember (window (dayOf now)) as ws eqn:Ews. intros [= <-].
  apply Find_ok in Ef. subst l.
  destruct (tally_rows (dayOf now) (List.filter (fun l : LoginLog => (midnight (dayOf now - 6) <=? createdAt (lTenant l))%Z) (rows db))
              (newTally (dayOf now)) (fun _ => 0%Z) (newTally_tallies _)) as (H1 & H2 & H3).
  cbn [dlTrend dlToday dlYesterday]. rewrite H2, H3, !selected_day by lia. split; [|by split].
  apply map_ext_in. intros d Hd. rewrite H1. subst ws. unfold window in Hd. apply in_map_iff in Hd as (i & <- & Hi%in_seq).
  rewrite bool_decide_eq_true_2 by lia. cbn [default from_option id]. by rewrite selected_day by lia.
Qed.

End Dashboard.

(** ** Two overviews *)

Record demoTables : Type := mkDemo {
  dmUsers : list User; dmRoles : list Role; dmDepts : list Department; dmMenus : list Menu;
  dmPerms : list Permission; dmTenants : list Tenant; dmLogins : list LoginLog; dmAudits : list AuditRow;
}.
Section Demo.
#[local] Instance demoUsers : Gorm demoTables User := tableGorm dmUsers (fun _ d => d).
#[local] Instance demoRoles : Gorm demoTables Role :=
  tableGorm dmRoles (fun l d => mkDemo (dmUsers d) l (dmDepts d) (dmMenus d) (dmPerms d) (dmTenants d) (dmLogins d) (dmAudits d)).
#[local] Instance demoDepts : Gorm demoTables Department := tableGorm dmDepts (fun _ d => d).
#[local] Instance demoMenus : Gorm demoTables Menu := tableGorm dmMenus (fun _ d => d).
#[local] Instance demoPerms : Gorm demoTables Permission := tableGorm dmPerms (fun _ d => d).
#[local] Instance demoTenants : Gorm demoTables Tenant := tableGorm dmTenants (fun _ d => d).
#[local] Instance demoLogins : Gorm demoTables LoginLog :=
  tableGorm dmLogins (fun l d => mkDemo (dmUsers d) (dmRoles d) (dmDepts d) (dmMenus d) (dmPerms d) (dmTenants d) l (dmAudits d)).
#[local] Instance demoAudits : Gorm demoTables AuditRow := tableGorm dmAudits (fun _ d => d).

(** UTC. *)
Definition utcDay (t : Z) : Z := (t / 86400)%Z.
Definition utcMidnight (d : Z) : Z := (d * 86400)%Z.

Definition demoTenant (at_ : Z) : TenantModel := mkTenantModel (mkBase 1 at_ at_ None) "t1".
Definition demoLogin (at_ : Z) : LoginLog := mkLoginLog (demoTenant at_) "u1" EmptyString EmptyString EmptyString EmptyString EmptyString EmptyString.
Definition demoRole : Role := mkRole (demoTenant 0) "super" "Super" "normal" true true "all" 0 EmptyString EmptyString.
Definition demoDB : demoTables :=
  mkDemo [] [demoRole] [] [] [] [] (map demoLogin [1000; 864000; 950400; 950401; 1036799; 1036800; 1100000])%Z [].

Definition demoCtx (role : string) : OpCtx :=
  mkOpCtx (mkCtx None (Some (AdminClaims (mkClaims "j1" None None None "u1" role "t1" "access")))) false.

Definition demoTrend : DashboardLogins :=
  match loadDashboardLogins utcDay utcMidnight pretty 1040000 demoDB with Ok out => out | Err _ => mkLogins 0 0 [] end.

Example dashboard_trend_witness :
  (forall t, utcMidnight (utcDay t) <= t < utcMidnight (utcDay t + 1))%Z /\
  map tpCount (dlTrend demoTrend) = [0; 0; 0; 0; 1; 3; 2]%Z /\ dlToday demoTrend = dayCount utcDay 12 (rows demoDB).
Proof.
  assert (forall t, utcMidnight (utcDay t) <= t < utcMidnight (utcDay t + 1))%Z as Hday.
  { intros t. unfold utcMidnight, utcDay. pose proof (Z.div_mod t 86400). pose proof (Z.mod_pos_bound t 86400). lia. }
  split; [exact Hday|]. split; [vm_compute; reflexivity|].
  destruct (dashboard_trend utcDay utcMidnight pretty) with (now := 1040000%Z) (db := demoDB) (out := demoTrend) as (_ & Ht & _).
  - intros d d'. unfold utcMidnight. lia.
  - exact Hday.
  - intros d d' H. by apply (inj pretty) in H.
  - by apply tableGorm_laws.
  - vm_compute. reflexivity.
  - exact Ht.
Defined.

Definition demoAnswer (role : string) : option (Response.Envelope DashboardOverview) :=
  dashboardHandler utcDay utcMidnight pretty id (demoCtx role) true 1040000 demoDB.

(** A clerk gets the personal page, the super role the numbers. *)
Example dashboard_confined_witness :
  option_map Response.eData (demoAnswer "clerk") = Some (Some (personal 1040000)) /\
  match demoAnswer "super" with
  | Some env => exists ov claims role, Response.eData env = Some ov /\ ovScope ov = "admin" /\
      ClaimsFromContext (opCtx (demoCtx "super")) = (Some claims, true) /\ rIsSuper role = true /\ In role (rows demoDB)
  | None => False
  end.
Proof.
  split; [vm_compute; reflexivity|]. assert (GormLaws demoTables RoleModel.Role) as Hl by by apply tableGorm_laws.
  destruct (demoAnswer "super") as [env|] eqn:E; [|vm_compute in E; discriminate].
  pose proof (dashboard_confined utcDay utcMidnight pretty id (demoCtx "super") true 1040000 demoDB env E) as [_ H].
  vm_compute in E. injection E as <-. destruct (H _ eq_refl) as [Hp|(claims & role & Hc & Hin & _ & Hs)]; [vm_compute in Hp; discriminate|].
  eexists _, claims, role. split; [reflexivity|]. split; [reflexivity|]. split; [exact Hc|]. by split.
Defined.
End Demo.
