(* ===== verification/Validators.v ===== *)
(** [admin/pb/*.pb.validate.go]: the validation of the messages: the errors, the two
    modes (the first violation, or all of them), and the rules of each message. *)

From Stdlib Require Import ZArith Lia String Ascii List Bool.
From stdpp Require Import base tactics list strings pretty.
From S2P Require Import Prelude GoStrings Utf8 Errs Gorm RoleModel Menus MenuService RoleService.

Local Open Scope string_scope.
Local Open Scope list_scope.

(** ** Errors *)

(** [<msg>ValidationError] and [<msg>MultiError]. *)
Inductive verror : Type :=
| VError (msg field reason : string) (cause : option verror) (key : bool)
| VMulti (msg : string) (errors : list verror).

(** [Error()] *)
Fixpoint vtext (e : verror) : string :=
  match e with
  | VError msg field reason cause key =>
      "invalid " +:+ (if key then "key for " else EmptyString) +:+ msg +:+ "." +:+ field +:+ ": " +:+ reason
      +:+ match cause with Some c => " | caused by: " +:+ vtext c | None => EmptyString end
  | VMulti _ errors => Join (map vtext errors) "; "
  end.

Definition AllErrors (e : verror) : list verror :=
  match e with VMulti _ l => l | VError _ _ _ _ _ => [e] end.

Definition ofVerror (e : option verror) : option error :=
  match e with Some e => Some (EPlain (vtext e)) | None => None end.

(** ** One message *)

Fixpoint violations (rules : list (option verror)) : list verror :=
  match rules with
  | [] => []
  | Some e :: rest => e :: violations rest
  | None :: rest => violations rest
  end.

(** The body of every [validate]: the rules in the order of the fields; a nil message
    has no violations. *)
Definition validateWith (msg : string) (all : bool) (rules : list (option verror)) : option verror :=
  if all then match violations rules with
              | [] => None
              | errors => Some (VMulti msg errors)
              end
  else head (violations rules).

Definition ruleError (msg field reason : string) : verror := VError msg field reason None false.

Definition runesBetween (msg field : string) (lo hi : nat) (s : string) : option verror :=
  let l := RuneCountInString s in
  if (l <? lo)%nat || (hi <? l)%nat then
    Some (ruleError msg field ("value length must be between " +:+ pretty lo +:+ " and " +:+ pretty hi +:+ " runes, inclusive"))
  else None.

Definition maxItems {A : Type} (msg field : string) (n : nat) (items : list A) : option verror :=
  if (n <? length items)%nat then Some (ruleError msg field ("value must contain no more than " +:+ pretty n +:+ " item(s)")) else None.

Definition atLeast (msg field : string) (n z : Z) : option verror :=
  if (z <? n)%Z then Some (ruleError msg field ("value must be greater than or equal to " +:+ pretty n)) else None.

Definition indexed (field : string) (idx : nat) : string := field +:+ "[" +:+ pretty idx +:+ "]".

Section Items.
Context {A : Type}.
Variable check : nat -> A -> option verror.
Fixpoint eachItem (idx : nat) (items : list A) : list (option verror) :=
  match items with
  | [] => []
  | item :: rest => check idx item :: eachItem (S idx) rest
  end.
End Items.

(** An embedded message is validated in the same mode and wrapped with its position. *)
Definition embedded {A : Type} (msg field : string) (validateItem : A -> option verror) (idx : nat) (item : A) : option verror :=
  match validateItem item with
  | Some err => Some (VError msg (indexed field idx) "embedded message failed validation" (Some err) false)
  | None => None
  end.

(** A pointer to a message. *)
Definition onMessage {M : Type} (m : option M) (rules : M -> option verror) : option verror :=
  match m with Some m => rules m | None => None end.

(** ** menu.proto *)

Inductive MenuNode : Type :=
| mkMenuNode (nName nTitle nComponent nUri nIcon : string) (nHidden nPublic : bool) (nChildren : list (option MenuNode)).
Inductive OptionNode : Type :=
| mkOptionNode (oValue oLabel oParent : string) (oChildren : list (option OptionNode)).

Fixpoint MenuNode_validate (all : bool) (m : MenuNode) : option verror :=
  match m with
  | mkMenuNode _ _ _ _ _ _ _ children =>
      validateWith "MenuNode" all
        (eachItem (embedded "MenuNode" "Children"
           (fun item => match item with Some item => MenuNode_validate all item | None => None end)) 0 children)
  end.

Fixpoint OptionNode_validate (all : bool) (m : OptionNode) : option verror :=
  match m with
  | mkOptionNode _ _ _ children =>
      validateWith "OptionNode" all
        (eachItem (embedded "OptionNode" "Children"
           (fun item => match item with Some item => OptionNode_validate all item | None => None end)) 0 children)
  end.

Definition MenuItem_validate {M : Type} (all : bool) (m : option M) : option verror :=
  onMessage m (fun _ => validateWith "MenuItem" all []).

Definition MenuTreeResponse_validate (all : bool) (m : option (list (option MenuNode))) : option verror :=
  onMessage m (fun items => validateWith "MenuTreeResponse" all
    (eachItem (embedded "MenuTreeResponse" "Items" (fun i => onMessage i (MenuNode_validate all))) 0 items)).

Definition MenuListAllResponse_validate {M : Type} (all : bool) (m : option (list (option M))) : option verror :=
  onMessage m (fun items => validateWith "MenuListAllResponse" all
    (eachItem (embedded "MenuListAllResponse" "Items" (MenuItem_validate all)) 0 items)).

Definition MenuOptionsResponse_validate (all : bool) (m : option (list (option OptionNode))) : option verror :=
  onMessage m (fun items => validateWith "MenuOptionsResponse" all
    (eachItem (embedded "MenuOptionsResponse" "Items" (fun i => onMessage i (OptionNode_validate all))) 0 items)).

Definition MenuBreadcrumbRequest_validate (all : bool) (m : option Z) : option verror :=
  onMessage m (fun id => validateWith "MenuBreadcrumbRequest" all [atLeast "MenuBreadcrumbRequest" "Id" 1 id]).

Definition MenuBreadcrumbResponse_validate {M : Type} (all : bool) (m : option M) : option verror :=
  onMessage m (fun _ => validateWith "MenuBreadcrumbResponse" all []).

(** ** role.proto *)

Definition RolePermissionsRequest_validate (all : bool) (m : option string) : option verror :=
  onMessage m (fun role => validateWith "RolePermissionsRequest" all [runesBetween "RolePermissionsRequest" "Role" 1 60 role]).

Definition RolePermissionsResponse_validate {M : Type} (all : bool) (m : option M) : option verror :=
  onMessage m (fun _ => validateWith "RolePermissionsResponse" all []).

Record ReplaceRolePermissionsRequest : Type := mkReplaceRequest { rqRole : string; rqMenus : list string; rqApis : list string }.

Definition ReplaceRolePermissionsRequest_validate (all : bool) (m : option ReplaceRolePermissionsRequest) : option verror :=
  let msg := "ReplaceRolePermissionsRequest" in
  onMessage m (fun r => validateWith msg all
    ([runesBetween msg "Role" 1 60 (rqRole r); maxItems msg "Menus" 1024 (rqMenus r)]
     ++ eachItem (fun idx => runesBetween msg (indexed "Menus" idx) 1 120) 0 (rqMenus r)
     ++ [maxItems msg "Apis" 1024 (rqApis r)]
     ++ eachItem (fun idx => runesBetween msg (indexed "Apis" idx) 1 60) 0 (rqApis r))).

Definition ReplaceRolePermissionsResponse_validate {M : Type} (all : bool) (m : option M) : option verror :=
  onMessage m (fun _ => validateWith "ReplaceRolePermissionsResponse" all []).

Definition OptionEntry_validate {M : Type} (all : bool) (m : option M) : option verror :=
  onMessage m (fun _ => validateWith "OptionEntry" all []).

Definition ListRoleOptionsResponse_validate {M : Type} (all : bool) (m : option (list (option M))) : option verror :=
  onMessage m (fun items => validateWith "ListRoleOptionsResponse" all
    (eachItem (embedded "ListRoleOptionsResponse" "Items" (OptionEntry_validate all)) 0 items)).

Definition RoleMenusRequest_validate (all : bool) (m : option string) : option verror :=
  onMessage m (fun role => validateWith "RoleMenusRequest" all [runesBetween "RoleMenusRequest" "Role" 1 60 role]).

(** ** tenant.proto *)

Definition TenantRequest_validate (all : bool) (m : option string) : option verror :=
  onMessage m (fun id => validateWith "TenantRequest" all [runesBetween "TenantRequest" "Id" 1 60 id]).

Definition TenantInfo_validate {M : Type} (all : bool) (m : option M) : option verror :=
  onMessage m (fun _ => validateWith "TenantInfo" all []).

Definition TenantOption_validate {M : Type} (all : bool) (m : option M) : option verror :=
  onMessage m (fun _ => validateWith "TenantOption" all []).

Definition ListTenantOptionsResponse_validate {M : Type} (all : bool) (m : option (list (option M))) : option verror :=
  onMessage m (fun items => validateWith "ListTenantOptionsResponse" all
    (eachItem (embedded "ListTenantOptionsResponse" "Items" (TenantOption_validate all)) 0 items)).

(** ** permission.proto *)

Definition ListCatalogRequest_validate {M : Type} (all : bool) (m : option M) : option verror :=
  onMessage m (fun _ => validateWith "ListCatalogRequest" all []).

Definition ListCatalogResponse_validate {M : Type} (all : bool) (m : option M) : option verror :=
  onMessage m (fun _ => validateWith "ListCatalogResponse" all []).

Definition ListPermissionItem_validate {M : Type} (all : bool) (m : option M) : option verror :=
  onMessage m (fun _ => validateWith "ListPermissionItem" all []).

Definition ListPermissionsRequest_validate {M : Type} (all : bool) (m : option M) : option verror :=
  onMessage m (fun _ => validateWith "ListPermissionsRequest" all []).

Definition ListPermissionsResponse_validate {M : Type} (all : bool) (m : option (list (option M))) : option verror :=
  onMessage m (fun items => validateWith "ListPermissionsResponse" all
    (eachItem (embedded "ListPermissionsResponse" "Items" (ListPermissionItem_validate all)) 0 items)).

(** ** auth.proto and user.proto: no field has a rule *)

Definition LoginRequest_validate {M : Type} (all : bool) (m : option M) : option verror :=
  onMessage m (fun _ => validateWith "LoginRequest" all []).

Definition LoginResponse_validate {M : Type} (all : bool) (m : option M) : option verror :=
  onMessage m (fun _ => validateWith "LoginResponse" all []).

Definition RefreshTokenRequest_validate {M : Type} (all : bool) (m : option M) : option verror :=
  onMessage m (fun _ => validateWith "RefreshTokenRequest" all []).

Definition RefreshTokenResponse_validate {M : Type} (all : bool) (m : option M) : option verror :=
  onMessage m (fun _ => validateWith "RefreshTokenResponse" all []).

Definition LogoutRequest_validate {M : Type} (all : bool) (m : option M) : option verror :=
  onMessage m (fun _ => validateWith "LogoutRequest" all []).

Definition LogoutResponse_validate {M : Type} (all : bool) (m : option M) : option verror :=
  onMessage m (fun _ => validateWith "LogoutResponse" all []).

Definition UserProfile_validate {M : Type} (all : bool) (m : option M) : option verror :=
  onMessage m (fun _ => validateWith "UserProfile" all []).

Definition UpdateProfileRequest_validate {M : Type} (all : bool) (m : option M) : option verror :=
  onMessage m (fun _ => validateWith "UpdateProfileRequest" all []).

Definition ChangePasswordRequest_validate {M : Type} (all : bool) (m : option M) : option verror :=
  onMessage m (fun _ => validateWith "ChangePasswordRequest" all []).

Definition ResetPasswordRequest_validate {M : Type} (all : bool) (m : option M) : option verror :=
  onMessage m (fun _ => validateWith "ResetPasswordRequest" all []).

Definition ResetPasswordResponse_validate {M : Type} (all : bool) (m : option M) : option verror :=
  onMessage m (fun _ => validateWith "ResetPasswordResponse" all []).

Definition SetAvatarByURLRequest_validate {M : Type} (all : bool) (m : option M) : option verror :=
  onMessage m (fun _ => validateWith "SetAvatarByURLRequest" all []).

Definition SetAvatarByURLResponse_validate {M : Type} (all : bool) (m : option M) : option verror :=
  onMessage m (fun _ => validateWith "SetAvatarByURLResponse" all []).

Definition ListPermissionCodesResponse_validate {M : Type} (all : bool) (m : option M) : option verror :=
  onMessage m (fun _ => validateWith "ListPermissionCodesResponse" all []).

Definition MenuEntry_validate {M : Type} (all : bool) (m : option M) : option verror :=
  onMessage m (fun _ => validateWith "MenuEntry" all []).

Definition ListVisibleMenusResponse_validate {M : Type} (all : bool) (m : option (list (option M))) : option verror :=
  onMessage m (fun items => validateWith "ListVisibleMenusResponse" all
    (eachItem (embedded "ListVisibleMenusResponse" "Menus" (MenuEntry_validate all)) 0 items)).

(** ** Lemmas *)

Lemma violations_app (r1 r2 : list (option verror)) : violations (r1 ++ r2) = violations r1 ++ violations r2.
Proof. induction r1 as [|[e|] r1 IH]; [done| |done]. cbn. by rewrite IH. Qed.

Lemma violations_nil (rules : list (option verror)) : violations rules = [] <-> Forall (fun r => r = None) rules.
Proof.
  induction rules as [|[e|] rules IH]; cbn; [by split|by split; [|inversion 1]|]. rewrite IH. split; [by constructor|by inversion 1].
Qed.

Lemma validateWith_None (msg : string) (all : bool) (rules : list (option verror)) :
  validateWith msg all rules = None <-> Forall (fun r => r = None) rules.
Proof. rewrite <- violations_nil. unfold validateWith. destruct all, (violations rules); done. Qed.

(** The two modes on the same rules: the same messages pass, and the first mode's error
    is the first of the second's. *)
Lemma validateWith_modes (msg : string) (rules : list (option verror)) :
  validateWith msg false rules = match validateWith msg true rules with
                                 | Some e => head (AllErrors e)
                                 | None => None
                                 end.
Proof. unfold validateWith. by destruct (violations rules). Qed.

Lemma eachItem_None {A : Type} (check : nat -> A -> option verror) (idx : nat) (items : list A) :
  Forall (fun r => r = None) (eachItem check idx items) <-> forall i x, items !! i = Some x -> check (idx + i) x = None.
Proof.
  revert idx. induction items as [|y l IH]; intros idx; cbn [eachItem]; [by split|]. split.
  - inversion 1 as [|? ? Hy Hl]; subst. rewrite IH in Hl. intros [|i] x; cbn; [intros [= <-]; by rewrite Nat.add_0_r|].
    intros Hi. rewrite <- Nat.add_succ_comm. by apply Hl.
  - intros H. constructor; [rewrite <- (Nat.add_0_r idx); by apply H|]. apply IH. intros i x Hi. rewrite Nat.add_succ_comm. by apply (H (S i)).
Qed.

Lemma runesBetween_None (msg field : string) (lo hi : nat) (s : string) :
  runesBetween msg field lo hi s = None <-> (lo <= RuneCountInString s <= hi)%nat.
Proof. unfold runesBetween. destruct (Nat.ltb_spec (RuneCountInString s) lo), (Nat.ltb_spec hi (RuneCountInString s)); cbn; split; lia || done. Qed.

Lemma maxItems_None {A : Type} (msg field : string) (n : nat) (l : list A) : maxItems msg field n l = None <-> (length l <= n)%nat.
Proof. unfold maxItems. destruct (Nat.ltb_spec n (length l)); split; lia || done. Qed.

(** ** Responses: a tree of nodes has no violations *)

Lemma embedded_None {A : Type} (msg field : string) (v : A -> option verror) (idx : nat) (l : list A) :
  (forall x, In x l -> v x = None) -> Forall (fun r => r = None) (eachItem (embedded msg field v) idx l).
Proof.
  intros Hv. apply eachItem_None. intros i x Hi. unfold embedded. rewrite Hv; [done|].
  apply list_elem_of_In. by eapply list_elem_of_lookup_2.
Qed.

Fixpoint MenuNode_valid (all : bool) (m : MenuNode) {struct m} : MenuNode_validate all m = None.
Proof.
  destruct m as [? ? ? ? ? ? ? children]. cbn [MenuNode_validate]. apply validateWith_None.
  generalize 0 as idx. revert children. fix go 1. intros [|c l] idx; constructor; [|apply go].
  unfold embedded. destruct c as [c|]; [by rewrite MenuNode_valid|done].
Qed.

Fixpoint OptionNode_valid (all : bool) (m : OptionNode) {struct m} : OptionNode_validate all m = None.
Proof.
  destruct m as [? ? ? children]. cbn [OptionNode_validate]. apply validateWith_None.
  generalize 0 as idx. revert children. fix go 1. intros [|c l] idx; constructor; [|apply go].
  unfold embedded. destruct c as [c|]; [by rewrite OptionNode_valid|done].
Qed.

Lemma MenuTreeResponse_valid (all : bool) (m : option (list (option MenuNode))) : MenuTreeResponse_validate all m = None.
Proof.
  destruct m as [items|]; [|done]. apply validateWith_None, embedded_None. intros [n|] _; [apply MenuNode_valid|done].
Qed.

Lemma MenuOptionsResponse_valid (all : bool) (m : option (list (option OptionNode))) : MenuOptionsResponse_validate all m = None.
Proof.
  destruct m as [items|]; [|done]. apply validateWith_None, embedded_None. intros [n|] _; [apply OptionNode_valid|done].
Qed.

(** ** The request that replaces the grants of a role *)

Section Grants.
Context {DB : Type} `{GormLaws DB Role} `{GormLaws DB RolePermission} `{GormLaws DB Menu} `{GormLaws DB Permission}.

(** What the rules of the message say. *)
Definition grants_in_bounds (r : ReplaceRolePermissionsRequest) : Prop :=
  (1 <= RuneCountInString (rqRole r) <= 60)%nat
  /\ (length (rqMenus r) <= 1024)%nat /\ Forall (fun c => (1 <= RuneCountInString c <= 120)%nat) (rqMenus r)
  /\ (length (rqApis r) <= 1024)%nat /\ Forall (fun d => (1 <= RuneCountInString d <= 60)%nat) (rqApis r).

Lemma ReplaceRolePermissionsRequest_None (all : bool) (r : ReplaceRolePermissionsRequest) :
  ReplaceRolePermissionsRequest_validate all (Some r) = None <-> grants_in_bounds r.
Proof.
  unfold ReplaceRolePermissionsRequest_validate, onMessage, grants_in_bounds. rewrite validateWith_None.
  rewrite !Forall_app, !Forall_cons, !Forall_nil, !eachItem_None, runesBetween_None, !maxItems_None, !Forall_lookup.
  setoid_rewrite runesBetween_None. tauto.
Qed.

Lemma ReplaceRolePermissionsRequest_modes (r : ReplaceRolePermissionsRequest) (e : verror) :
  ReplaceRolePermissionsRequest_validate false (Some r) = Some e ->
  exists l, ReplaceRolePermissionsRequest_validate true (Some r) = Some (VMulti "ReplaceRolePermissionsRequest" (e :: l)).
Proof.
  unfold ReplaceRolePermissionsRequest_validate, onMessage, validateWith. destruct (violations _) as [|e' l]; [done|].
  intros [= ->]. by exists l.
Qed.

(** The endpoint that replaces a role's grants behind its validator: the request goes
    on exactly when the role has 1 to 60 characters (code points, not bytes), there are
    at most 1024 menus of 1 to 120 characters and 1024 permissions of 1 to 60; otherwise
    the database is untouched and the answer is the first violation in the order of the
    fields, which is also the first of the list the other mode reports. *)
Theorem grants_validated (r : ReplaceRolePermissionsRequest) (db : DB) :
  let v := ofVerror (ReplaceRolePermissionsRequest_validate false (Some r)) in
  match ReplaceRolePermissionsRequest_validate false (Some r) with
  | None => grants_in_bounds r
            /\ ReplaceRolePermissions v (rqRole r) (rqMenus r) (rqApis r) db
               = ReplaceRolePermissions None (rqRole r) (rqMenus r) (rqApis r) db
  | Some e => ~ grants_in_bounds r
              /\ (exists l, ReplaceRolePermissionsRequest_validate true (Some r) = Some (VMulti "ReplaceRolePermissionsRequest" (e :: l)))
              /\ ReplaceRolePermissions v (rqRole r) (rqMenus r) (rqApis r) db = (db, Err (EPlain (vtext e)))
  end.
Proof.
  intros v. unfold v. destruct (ReplaceRolePermissionsRequest_validate false (Some r)) as [e|] eqn:Ev.
  - split; [|split; [by apply ReplaceRolePermissionsRequest_modes|done]].
    intros Hb%(ReplaceRolePermissionsRequest_None false). congruence.
  - split; [by apply (ReplaceRolePermissionsRequest_None false)|done].
Qed.

End Grants.

Example validators_run :
  ReplaceRolePermissionsRequest_validate false (Some (mkReplaceRequest "editor" ["system.users"; ""] [])) <> None
  /\ match ReplaceRolePermissionsRequest_validate true (Some (mkReplaceRequest "" ["system.users"; ""] [])) with
     | Some e => vtext e = "invalid ReplaceRolePermissionsRequest.Role: value length must be between 1 and 60 runes, inclusive; "
                   +:+ "invalid ReplaceRolePermissionsRequest.Menus[1]: value length must be between 1 and 120 runes, inclusive"
     | None => False
     end
  /\ MenuBreadcrumbRequest_validate false (Some 0%Z) <> None /\ MenuBreadcrumbRequest_validate false (Some 1%Z) = None
  /\ LoginRequest_validate false (Some (EmptyString, EmptyString)) = None.
Proof. by vm_compute. Qed.
