(* ===== verification/Messages.v ===== *)
(** [admin/pb/*.pb.validate.go]: the messages as types with methods: [Validate] and
    [ValidateAll], and those of the two error types of each. *)

From Stdlib Require Import ZArith Lia String Ascii List Bool.
From stdpp Require Import base tactics list strings pretty.
From S2P Require Import Prelude GoStrings Utf8 Errs Validators.

Local Open Scope string_scope.
Local Open Scope list_scope.

(** ** A message and its methods *)

(** What the generator writes for one message; the two error types of a message differ
    from those of another by its name. *)
Record Message : Type := mkMessage {
  Body : Type;
  Name : string;
  validate : bool -> option Body -> option verror;
}.

Definition Validate (M : Message) (m : option (Body M)) : option verror := validate M false m.
Definition ValidateAll (M : Message) (m : option (Body M)) : option verror := validate M true m.

(** The methods of [<msg>ValidationError]; a [<msg>MultiError] has none of them. *)
Definition Field (e : verror) : option string := match e with VError _ field _ _ _ => Some field | VMulti _ _ => None end.
Definition Reason (e : verror) : option string := match e with VError _ _ reason _ _ => Some reason | VMulti _ _ => None end.
Definition Cause (e : verror) : option (option verror) := match e with VError _ _ _ cause _ => Some cause | VMulti _ _ => None end.
Definition Key (e : verror) : option bool := match e with VError _ _ _ _ key => Some key | VMulti _ _ => None end.
Definition ErrorName (e : verror) : option string := match e with VError msg _ _ _ _ => Some (msg +:+ "ValidationError") | VMulti _ _ => None end.

(** An error value of the message [name]. *)
Definition own (name : string) (e : verror) : Prop :=
  match e with VError msg _ _ _ key => msg = name /\ key = false | VMulti _ _ => False end.

(** What its users rely on: nothing is wrong with a nil message; a violation is reported
    as an error of the message itself, the first one by [Validate] and a non-empty list
    by [ValidateAll]; and the two agree on which messages are valid. *)
Class LawfulMessage (M : Message) : Prop := {
  validate_nil : forall all, validate M all None = None;
  Validate_own : forall m e, Validate M m = Some e -> own (Name M) e;
  ValidateAll_own : forall m e, ValidateAll M m = Some e -> exists l, l <> [] /\ e = VMulti (Name M) l /\ Forall (own (Name M)) l;
  modes_agree : forall m, Validate M m = None <-> ValidateAll M m = None;
}.

(** ** The rules of a message *)

(** The rules in one mode and in the other. *)
Record rulesOk (name : string) (rules rules' : list (option verror)) : Prop := {
  rules_own : Forall (fun r => match r with Some e => own name e | None => True end) rules;
  rules_own' : Forall (fun r => match r with Some e => own name e | None => True end) rules';
  rules_agree : Forall2 (fun r r' => r = None <-> r' = None) rules rules';
}.

Lemma rulesOk_nil (name : string) : rulesOk name [] [].
Proof. by repeat constructor. Qed.

Lemma rulesOk_app (name : string) (r1 r1' r2 r2' : list (option verror)) :
  rulesOk name r1 r1' -> rulesOk name r2 r2' -> rulesOk name (r1 ++ r2) (r1' ++ r2').
Proof. intros [H1 H2 H3] [H4 H5 H6]. constructor; [by apply Forall_app..|by apply Forall2_app]. Qed.

Lemma rulesOk_cons (name : string) (r r' : option verror) (l l' : list (option verror)) :
  rulesOk name [r] [r'] -> rulesOk name l l' -> rulesOk name (r :: l) (r' :: l').
Proof. apply (rulesOk_app name [r] [r']). Qed.

(** A rule that does not depend on the mode. *)
Lemma rulesOk_plain (name : string) (r : option verror) : (forall e, r = Some e -> own name e) -> rulesOk name [r] [r].
Proof. intros Hr. constructor; repeat constructor; try tauto; destruct r; auto. Qed.

Lemma runesBetween_ok (name field : string) (lo hi : nat) (s : string) : rulesOk name [runesBetween name field lo hi s] [runesBetween name field lo hi s].
Proof. apply rulesOk_plain. unfold runesBetween. intros e. destruct (_ || _)%bool; [|done]. by intros [= <-]. Qed.
Lemma maxItems_ok {A : Type} (name field : string) (n : nat) (l : list A) : rulesOk name [maxItems name field n l] [maxItems name field n l].
Proof. apply rulesOk_plain. unfold maxItems. intros e. destruct (_ <? _)%nat; [|done]. by intros [= <-]. Qed.
Lemma atLeast_ok (name field : string) (n z : Z) : rulesOk name [atLeast name field n z] [atLeast name field n z].
Proof. apply rulesOk_plain. unfold atLeast. intros e. destruct (_ <? _)%Z; [|done]. by intros [= <-]. Qed.

Lemma eachItem_ok {A : Type} (name : string) (check check' : nat -> A -> option verror) (idx : nat) (l : list A) :
  (forall i x, In x l -> rulesOk name [check i x] [check' i x]) -> rulesOk name (eachItem check idx l) (eachItem check' idx l).
Proof.
  revert idx. induction l as [|x l IH]; intros idx Hc; [apply rulesOk_nil|]. cbn [eachItem].
  apply rulesOk_cons; [apply Hc; by left|]. apply IH. intros i y Hy. apply Hc. by right.
Qed.

Lemma embedded_ok {A : Type} (name field : string) (v v' : A -> option verror) (idx : nat) (x : A) :
  (v x = None <-> v' x = None) -> rulesOk name [embedded name field v idx x] [embedded name field v' idx x].
Proof.
  unfold embedded. intros Hv. destruct (v x) as [e|], (v' x) as [e'|]; try (by destruct Hv as [H1 H2]; (discriminate (H1 eq_refl) || discriminate (H2 eq_refl)));
    constructor; repeat constructor; done.
Qed.

Create HintDb rules.
#[export] Hint Resolve rulesOk_nil rulesOk_cons rulesOk_app runesBetween_ok maxItems_ok atLeast_ok : rules.

Lemma violations_own (name : string) (rules : list (option verror)) :
  Forall (fun r => match r with Some e => own name e | None => True end) rules -> Forall (own name) (violations rules).
Proof. induction 1 as [|[e|] rules He _ IH]; cbn; auto. Qed.

Lemma violations_agree (name : string) (r r' : list (option verror)) : rulesOk name r r' -> violations r = [] <-> violations r' = [].
Proof.
  intros [_ _ Ha]. rewrite !violations_nil. induction Ha as [|x y l l' Hxy _ IH]; [done|]. rewrite !Forall_cons. tauto.
Qed.

(** The methods the generator writes are lawful when the rules are. *)
Lemma generated_lawful {B : Type} (name : string) (rules : bool -> B -> list (option verror)) (v : bool -> option B -> option verror) :
  (forall all m, v all m = onMessage m (fun b => validateWith name all (rules all b))) ->
  (forall b, rulesOk name (rules false b) (rules true b)) -> LawfulMessage (mkMessage B name v).
Proof.
  intros Hv Hr. assert (forall all m, validate (mkMessage B name v) all m = onMessage m (fun b => validateWith name all (rules all b))) as Hv'
    by (intros; apply Hv).
  constructor; unfold Validate, ValidateAll; cbn [Body Name]; intros *; rewrite ?Hv'.
  - done.
  - intros He. destruct m as [b|]; [|done]. cbn in He. pose proof (violations_own _ _ (rules_own _ _ _ (Hr b))) as Ho.
    destruct (violations (rules false b)); [done|]. injection He as <-. by inversion Ho.
  - intros He. destruct m as [b|]; [|done]. cbn in He. pose proof (violations_own _ _ (rules_own' _ _ _ (Hr b))) as Ho.
    destruct (violations (rules true b)) as [|e1 l]; [done|]. injection He as <-. by exists (e1 :: l).
  - destruct m as [b|]; [|done]. cbn. pose proof (violations_agree _ _ _ (Hr b)) as Ha. unfold validateWith.
    destruct (violations (rules false b)), (violations (rules true b)); cbn; split; try done; intros Hf; exfalso;
      destruct Ha as [H1 H2]; (discriminate (H1 eq_refl) || discriminate (H2 eq_refl)).
Qed.

(** An embedded message that is lawful. *)
Lemma embedded_lawful (M : Message) (name field : string) (idx : nat) (x : option (Body M)) :
  LawfulMessage M -> rulesOk name [embedded name field (validate M false) idx x] [embedded name field (validate M true) idx x].
Proof. intros HM. apply embedded_ok. apply modes_agree. Qed.

(** ** The messages *)

Definition MenuNodeMessage : Message := mkMessage MenuNode "MenuNode" (fun all m => onMessage m (MenuNode_validate all)).
Definition OptionNodeMessage : Message := mkMessage OptionNode "OptionNode" (fun all m => onMessage m (OptionNode_validate all)).
Definition MenuItemMessage (M : Type) : Message := mkMessage M "MenuItem" MenuItem_validate.
Definition MenuTreeResponseMessage : Message := mkMessage (list (option MenuNode)) "MenuTreeResponse" MenuTreeResponse_validate.
Definition MenuListAllResponseMessage (M : Type) : Message := mkMessage (list (option M)) "MenuListAllResponse" MenuListAllResponse_validate.
Definition MenuOptionsResponseMessage : Message := mkMessage (list (option OptionNode)) "MenuOptionsResponse" MenuOptionsResponse_validate.
Definition MenuBreadcrumbRequestMessage : Message := mkMessage Z "MenuBreadcrumbRequest" MenuBreadcrumbRequest_validate.
Definition MenuBreadcrumbResponseMessage (M : Type) : Message := mkMessage M "MenuBreadcrumbResponse" MenuBreadcrumbResponse_validate.
Definition RolePermissionsRequestMessage : Message := mkMessage string "RolePermissionsRequest" RolePermissionsRequest_validate.
Definition RolePermissionsResponseMessage (M : Type) : Message := mkMessage M "RolePermissionsResponse" RolePermissionsResponse_validate.
Definition ReplaceRolePermissionsRequestMessage : Message := mkMessage ReplaceRolePermissionsRequest "ReplaceRolePermissionsRequest" ReplaceRolePermissionsRequest_validate.
Definition ReplaceRolePermissionsResponseMessage (M : Type) : Message := mkMessage M "ReplaceRolePermissionsResponse" ReplaceRolePermissionsResponse_validate.
Definition OptionEntryMessage (M : Type) : Message := mkMessage M "OptionEntry" OptionEntry_validate.
Definition ListRoleOptionsResponseMessage (M : Type) : Message := mkMessage (list (option M)) "ListRoleOptionsResponse" ListRoleOptionsResponse_validate.
Definition RoleMenusRequestMessage : Message := mkMessage string "RoleMenusRequest" RoleMenusRequest_validate.
Definition TenantRequestMessage : Message := mkMessage string "TenantRequest" TenantRequest_validate.
Definition TenantInfoMessage (M : Type) : Message := mkMessage M "TenantInfo" TenantInfo_validate.
Definition TenantOptionMessage (M : Type) : Message := mkMessage M "TenantOption" TenantOption_validate.
Definition ListTenantOptionsResponseMessage (M : Type) : Message := mkMessage (list (option M)) "ListTenantOptionsResponse" ListTenantOptionsResponse_validate.
Definition ListCatalogRequestMessage (M : Type) : Message := mkMessage M "ListCatalogRequest" ListCatalogRequest_validate.
Definition ListCatalogResponseMessage (M : Type) : Message := mkMessage M "ListCatalogResponse" ListCatalogResponse_validate.
Definition ListPermissionItemMessage (M : Type) : Message := mkMessage M "ListPermissionItem" ListPermissionItem_validate.
Definition ListPermissionsRequestMessage (M : Type) : Message := mkMessage M "ListPermissionsRequest" ListPermissionsRequest_validate.
Definition ListPermissionsResponseMessage (M : Type) : Message := mkMessage (list (option M)) "ListPermissionsResponse" ListPermissionsResponse_validate.
Definition LoginRequestMessage (M : Type) : Message := mkMessage M "LoginRequest" LoginRequest_validate.
Definition LoginResponseMessage (M : Type) : Message := mkMessage M "LoginResponse" LoginResponse_validate.
Definition RefreshTokenRequestMessage (M : Type) : Message := mkMessage M "RefreshTokenRequest" RefreshTokenRequest_validate.
Definition RefreshTokenResponseMessage (M : Type) : Message := mkMessage M "RefreshTokenResponse" RefreshTokenResponse_validate.
Definition LogoutRequestMessage (M : Type) : Message := mkMessage M "LogoutRequest" LogoutRequest_validate.
Definition LogoutResponseMessage (M : Type) : Message := mkMessage M "LogoutResponse" LogoutResponse_validate.
Definition UserProfileMessage (M : Type) : Message := mkMessage M "UserProfile" UserProfile_validate.
Definition UpdateProfileRequestMessage (M : Type) : Message := mkMessage M "UpdateProfileRequest" UpdateProfileRequest_validate.
Definition ChangePasswordRequestMessage (M : Type) : Message := mkMessage M "ChangePasswordRequest" ChangePasswordRequest_validate.
Definition ResetPasswordRequestMessage (M : Type) : Message := mkMessage M "ResetPasswordRequest" ResetPasswordRequest_validate.
Definition ResetPasswordResponseMessage (M : Type) : Message := mkMessage M "ResetPasswordResponse" ResetPasswordResponse_validate.
Definition SetAvatarByURLRequestMessage (M : Type) : Message := mkMessage M "SetAvatarByURLRequest" SetAvatarByURLRequest_validate.
Definition SetAvatarByURLResponseMessage (M : Type) : Message := mkMessage M "SetAvatarByURLResponse" SetAvatarByURLResponse_validate.
Definition ListPermissionCodesResponseMessage (M : Type) : Message := mkMessage M "ListPermissionCodesResponse" ListPermissionCodesResponse_validate.
Definition MenuEntryMessage (M : Type) : Message := mkMessage M "MenuEntry" MenuEntry_validate.
Definition ListVisibleMenusResponseMessage (M : Type) : Message := mkMessage (list (option M)) "ListVisibleMenusResponse" ListVisibleMenusResponse_validate.

(** All of them; [F] gives the types of the messages without rules. *)
Definition messages (F : string -> Type) : list Message :=
  [ MenuNodeMessage
  ; OptionNodeMessage
  ; MenuItemMessage (F "MenuItem")
  ; MenuTreeResponseMessage
  ; MenuListAllResponseMessage (F "MenuItem")
  ; MenuOptionsResponseMessage
  ; MenuBreadcrumbRequestMessage
  ; MenuBreadcrumbResponseMessage (F "MenuBreadcrumbResponse")
  ; RolePermissionsRequestMessage
  ; RolePermissionsResponseMessage (F "RolePermissionsResponse")
  ; ReplaceRolePermissionsRequestMessage
  ; ReplaceRolePermissionsResponseMessage (F "ReplaceRolePermissionsResponse")
  ; OptionEntryMessage (F "OptionEntry")
  ; ListRoleOptionsResponseMessage (F "OptionEntry")
  ; RoleMenusRequestMessage
  ; TenantRequestMessage
  ; TenantInfoMessage (F "TenantInfo")
  ; TenantOptionMessage (F "TenantOption")
  ; ListTenantOptionsResponseMessage (F "TenantOption")
  ; ListCatalogRequestMessage (F "ListCatalogRequest")
  ; ListCatalogResponseMessage (F "ListCatalogResponse")
  ; ListPermissionItemMessage (F "ListPermissionItem")
  ; ListPermissionsRequestMessage (F "ListPermissionsRequest")
  ; ListPermissionsResponseMessage (F "ListPermissionItem")
  ; LoginRequestMessage (F "LoginRequest")
  ; LoginResponseMessage (F "LoginResponse")
  ; RefreshTokenRequestMessage (F "RefreshTokenRequest")
  ; RefreshTokenResponseMessage (F "RefreshTokenResponse")
  ; LogoutRequestMessage (F "LogoutRequest")
  ; LogoutResponseMessage (F "LogoutResponse")
  ; UserProfileMessage (F "UserProfile")
  ; UpdateProfileRequestMessage (F "UpdateProfileRequest")
  ; ChangePasswordRequestMessage (F "ChangePasswordRequest")
  ; ResetPasswordRequestMessage (F "ResetPasswordRequest")
  ; ResetPasswordResponseMessage (F "ResetPasswordResponse")
  ; SetAvatarByURLRequestMessage (F "SetAvatarByURLRequest")
  ; SetAvatarByURLResponseMessage (F "SetAvatarByURLResponse")
  ; ListPermissionCodesResponseMessage (F "ListPermissionCodesResponse")
  ; MenuEntryMessage (F "MenuEntry")
  ; ListVisibleMenusResponseMessage (F "MenuEntry") ].

(** ** Their laws *)

Lemma plain_lawful (M : Type) (name : string) : LawfulMessage (mkMessage M name (fun all m => onMessage m (fun _ => validateWith name all []))).
Proof. apply (generated_lawful name (fun _ _ => [])); [done|]. auto with rules. Qed.

Lemma items_lawful {M : Type} (item name field : string) (v : bool -> option M -> option verror) :
  LawfulMessage (mkMessage M item v) ->
  LawfulMessage (mkMessage (list (option M)) name
    (fun all m => onMessage m (fun items => validateWith name all (eachItem (embedded name field (v all)) 0 items)))).
Proof.
  intros HM. apply (generated_lawful name (fun all items => eachItem (embedded name field (v all)) 0 items)); [done|].
  intros items. apply eachItem_ok. intros i x _. exact (embedded_lawful (mkMessage M item v) name field i x HM).
Qed.

Lemma valid_lawful {B : Type} (name : string) (v : bool -> option B -> option verror) :
  (forall all m, v all m = None) -> LawfulMessage (mkMessage B name v).
Proof. intros Hv. constructor; unfold Validate, ValidateAll; cbn; intros *; rewrite ?Hv; done. Qed.

#[export] Instance MenuNodeMessage_lawful : LawfulMessage MenuNodeMessage.
Proof. apply valid_lawful. intros all [m|]; [apply MenuNode_valid|done]. Qed.
#[export] Instance OptionNodeMessage_lawful : LawfulMessage OptionNodeMessage.
Proof. apply valid_lawful. intros all [m|]; [apply OptionNode_valid|done]. Qed.
#[export] Instance MenuBreadcrumbRequestMessage_lawful : LawfulMessage MenuBreadcrumbRequestMessage.
Proof. by apply (generated_lawful _ (fun _ id => [atLeast "MenuBreadcrumbRequest" "Id" 1 id])); auto with rules. Qed.
#[export] Instance RolePermissionsRequestMessage_lawful : LawfulMessage RolePermissionsRequestMessage.
Proof. by apply (generated_lawful _ (fun _ role => [runesBetween "RolePermissionsRequest" "Role" 1 60 role])); auto with rules. Qed.
#[export] Instance RoleMenusRequestMessage_lawful : LawfulMessage RoleMenusRequestMessage.
Proof. by apply (generated_lawful _ (fun _ role => [runesBetween "RoleMenusRequest" "Role" 1 60 role])); auto with rules. Qed.
#[export] Instance TenantRequestMessage_lawful : LawfulMessage TenantRequestMessage.
Proof. by apply (generated_lawful _ (fun _ id => [runesBetween "TenantRequest" "Id" 1 60 id])); auto with rules. Qed.
#[export] Instance ReplaceRolePermissionsRequestMessage_lawful : LawfulMessage ReplaceRolePermissionsRequestMessage.
Proof.
  set (msg := "ReplaceRolePermissionsRequest").
  apply (generated_lawful _ (fun _ r => [runesBetween msg "Role" 1 60 (rqRole r); maxItems msg "Menus" 1024 (rqMenus r)]
     ++ eachItem (fun idx => runesBetween msg (indexed "Menus" idx) 1 120) 0 (rqMenus r)
     ++ [maxItems msg "Apis" 1024 (rqApis r)]
     ++ eachItem (fun idx => runesBetween msg (indexed "Apis" idx) 1 60) 0 (rqApis r))); [done|].
  intros r. repeat apply rulesOk_app; try apply eachItem_ok; auto 6 with rules.
Qed.

(** The laws of one message. *)
Ltac lawful :=
  first [ apply _ | exact (plain_lawful _ _)
        | eapply items_lawful; first [exact (plain_lawful _ _) | exact MenuNodeMessage_lawful | exact OptionNodeMessage_lawful] ].

(** Every message of the API is lawful. *)
Theorem messages_lawful (F : string -> Type) : Forall LawfulMessage (messages F).
Proof.
  unfold messages. repeat (apply List.Forall_cons; [lawful|]). constructor.
Qed.

(** The text of an error of [Validate] names the message and the field. *)
Lemma Validate_text (M : Message) `{!LawfulMessage M} (m : option (Body M)) (e : verror) :
  Validate M m = Some e ->
  ErrorName e = Some (Name M +:+ "ValidationError")
  /\ exists field rest, Field e = Some field /\ vtext e = "invalid " +:+ Name M +:+ "." +:+ field +:+ ": " +:+ rest.
Proof.
  intros He. apply Validate_own in He. destruct e as [msg field reason cause key|]; [|done]. destruct He as [-> ->].
  split; [done|]. by eexists field, _.
Qed.
