(* ===== verification/Seed.v ===== *)
(** [admin/seed.go], [admin/setup_converge.go]: the state [Seed] converges a database
    to, and the clean-up of tenant management in single-tenant mode. *)

From Stdlib Require Import ZArith Lia String Ascii List Bool.
From stdpp Require Import base tactics list strings.
From S2P Require Import Prelude GoStrings Errs Gorm UserModel RoleModel Menus Derive RoleService.

Local Open Scope string_scope.
Local Open Scope list_scope.
Local Open Scope aeus_scope.

(** ** The fixed menus *)

Definition section (component name icon : string) (sort : Z) : MenuSpec :=
  mkMenuSpec component EmptyString EmptyString name icon EmptyString sort false false EmptyString.
Definition sectionMenuSpecs : list MenuSpec :=
  [ section "SystemUserCenter" "用户中心" "UserFilled" 10
  ; section "SystemLogs" "日志记录" "Tickets" 20
  ; section "SystemSettings" "系统设置" "Tools" 30 ].
Definition rolePermissionMenuSpec : MenuSpec :=
  mkMenuSpec "SystemSysRolesPermission" "/system/sys_role/perm/:roleKey" "@/views/system/sys_role/Permission.vue" "权限配置"
    EmptyString "SystemSysRoles" 10 false false EmptyString.

(** A row of rest/v3's [sys_schemas]: what the program reads and writes of it. *)
Record SchemaRow : Type := mkSchemaRow {
  scID : Z; scTenant : string; scModule : string; scTable : string; scColumn : string;
  scCreatedAt : Z; scUpdatedAt : Z; scRequired : list string;
}.
Definition sameTuple (a b : SchemaRow) : bool :=
  String.eqb (scModule a) (scModule b) && String.eqb (scTable a) (scTable b) && String.eqb (scColumn a) (scColumn b).

(** The copy of a template for a tenant; key and times are the database's. *)
Definition cloneFor (tenant : string) (t : SchemaRow) : SchemaRow :=
  mkSchemaRow 0 tenant (scModule t) (scTable t) (scColumn t) 0 0 (scRequired t).

Section Seed.

Context {DB Salt : Type} `{GormLaws DB Menu} `{!GormUnscoped DB Menu} `{!GormUnscopedLaws DB Menu} `{GormLaws DB Permission}
  `{GormLaws DB Tenant} `{GormLaws DB Role} `{GormLaws DB User} `{GormLaws DB RolePermission} `{GormLaws DB SchemaRow}.
Variable GenerateFromPassword : Salt -> string -> result error string.

(** [tenantScopingEnabled]. *)
Variable scoping : bool.

Definition ensureSection (spec : MenuSpec) (db : DB) : DB * option error :=
  if String.eqb (msComponent spec) EmptyString || String.eqb (msName spec) EmptyString then (db, None)
  else ensure (hasComponent (msComponent spec)) (menuRow spec) (wrapf ("lookup section menu " +:+ quote (msComponent spec)))
         (wrapf ("insert section menu " +:+ quote (msComponent spec))) db.
Definition EnsureSectionMenus (db : DB) : DB * option error := forEach ensureSection sectionMenuSpecs db.

Definition EnsureRolePermissionMenu (db : DB) : DB * option error :=
  let spec := rolePermissionMenuSpec in
  ensure (hasComponent (msComponent spec)) (menuRow spec)
    (wrapf ("lookup role permission menu " +:+ quote (msComponent spec))) id db.

(** [Where(w).Attrs(row).FirstOrCreate]: the row found, or [row] after its create
    hook; the flag is [RowsAffected] of the creation. *)
Definition firstOrCreate {R : Type} `{Gorm DB R} (w : R -> bool) (row : result error R) (db : DB) : DB * result error (R * bool) :=
  match First w db with
  | Ok r => (db, Ok (r, false))
  | Err e =>
      if negb (Is e ErrRecordNotFound) then (db, Err e)
      else match row with
           | Err e => (db, Err e)
           | Ok r => match Create [r] db with
                     | (db', Some e) => (db', Err e)
                     | (db', None) => (db', Ok (r, true))
                     end
           end
  end.

(** Go on with the row, or stop. *)
Definition withRow {R : Type} (m : DB * result error (R * bool)) (k : R -> bool -> DB -> DB * option error) : DB * option error :=
  match m with
  | (db, Err e) => (db, Some e)
  | (db, Ok (r, created)) => k r created db
  end.

Definition tenantRow (id : string) : Tenant := mkTenant id "默认租户" "enabled" 0 0.
Definition ensureTenant (id : string) (db : DB) : DB * option error :=
  withRow (firstOrCreate (fun t => String.eqb (tID t) id) (Ok (tenantRow id)) db) (fun _ _ db => (db, None)).

Definition adminRole : Role :=
  mkRole (mkTenantModel emptyBase DefaultTenantID) "admin" "系统管理员" "enabled" true true "all" 0 EmptyString EmptyString.
Definition adminUserRow (name password tenant : string) : User :=
  mkUser (mkTenantModel emptyBase tenant) "admin" name "admin" "normal" 0 password EmptyString EmptyString "other" EmptyString.

Definition roleID (r : Role) : Z := bID (tmBase (rTenant r)).
Definition withRoleTenant (t : string) (r : Role) : Role :=
  mkRole (mkTenantModel (tmBase (rTenant r)) t) (rKey r) (rName r) (rStatus r) (rBuiltin r) (rIsSuper r) (rDataScope r)
    (rSort r) (rCreatedBy r) (rDescription r).
Definition withSuper (r : Role) : Role :=
  mkRole (rTenant r) (rKey r) (rName r) (rStatus r) (rBuiltin r) true (rDataScope r) (rSort r) (rCreatedBy r) (rDescription r).
Definition userIDOf (u : User) : Z := bID (tmBase (uTenant u)).
Definition withUserTenant (t : string) (u : User) : User := withTenantModel (mkTenantModel (tmBase (uTenant u)) t) u.

(** A legacy row without a tenant gets the default one; a builtin role from before
    [IsSuper] is upgraded. *)
Definition convergeRole (role : Role) (created : bool) (db : DB) (k : Role -> DB -> DB * option error) : DB * option error :=
  let '(role1, m) :=
    if String.eqb (rTenantID role) EmptyString
    then (withRoleTenant DefaultTenantID role, Update (fun r => Z.eqb (roleID r) (roleID role)) (withRoleTenant DefaultTenantID) db)
    else (role, (db, None)) in
  thenDo m (fun db =>
    if negb created && rBuiltin role1 && negb (rIsSuper role1)
    then thenDo (Update (fun r => Z.eqb (roleID r) (roleID role1)) withSuper db) (k (withSuper role1))
    else k role1 db).

Definition grantFullCatalog (role : Role) (db : DB) : DB * option error :=
  match Pluck mComponent (fun _ => true) db with
  | Err e => (db, Some e)
  | Ok menus => match Pluck pData (fun _ => true) db with
                | Err e => (db, Some e)
                | Ok datas => GrantMissingPermissions (rKey role) (rTenantID role) menus datas db
                end
  end.

Definition missingSchemas (tenant : string) (existing templates : list SchemaRow) : list SchemaRow :=
  map (cloneFor tenant) (List.filter (fun t => negb (existsb (fun e => sameTuple e t) existing)) templates).

Definition cloneSchemas (templates : list SchemaRow) (tenant : Tenant) (db : DB) : DB * option error :=
  match Find (fun s => String.eqb (scTenant s) (tID tenant)) db with
  | Err e => (db, Some (wrapf ("ensureTenantSchemas: list schemas for tenant " +:+ quote (tID tenant)) e))
  | Ok existing =>
      match missingSchemas (tID tenant) existing templates with
      | [] => (db, None)
      | missing => match Create missing db with
                   | (db', Some e) => (db', Some (wrapf ("ensureTenantSchemas: insert tenant schemas for " +:+ quote (tID tenant)) e))
                   | (db', None) => (db', None)
                   end
      end
  end.

Definition ensureTenantSchemas (db : DB) : DB * option error :=
  match Find (fun _ : Tenant => true) db with
  | Err e => (db, Some (wrapf "ensureTenantSchemas: list tenants" e))
  | Ok [] => (db, None)
  | Ok tenants =>
      match Find (fun s => String.eqb (scTenant s) EmptyString) db with
      | Err e => (db, Some (wrapf "ensureTenantSchemas: list schema templates" e))
      | Ok [] => (db, None)
      | Ok templates => forEach (cloneSchemas templates) tenants db
      end
  end.

(** The account, the grants and the schema clones, once the role is settled. *)
Definition seedAccount (salt : Salt) (name password : string) (role : Role) (db : DB) : DB * option error :=
  thenDo (if negb (String.eqb (rTenantID role) EmptyString) && negb (String.eqb (rTenantID role) DefaultTenantID)
          then ensureTenant (rTenantID role) db else (db, None)) (fun db =>
  withRow (firstOrCreate (fun u => String.eqb (uUID u) "admin")
             (BeforeCreate GenerateFromPassword salt (adminUserRow name password (rTenantID role))) db) (fun user _ db =>
  thenDo (if String.eqb (uTenantID user) (rTenantID role) then (db, None)
          else Update (fun u => Z.eqb (userIDOf u) (userIDOf user)) (withUserTenant (rTenantID role)) db) (fun db =>
  match Find rIsSuper db with
  | Err e => (db, Some e)
  | Ok supers => thenDo (forEach grantFullCatalog supers db) (fun db =>
                   if scoping then ensureTenantSchemas db else (db, None))
  end))).

Definition seedTx (salt : Salt) (name password : string) (db : DB) : DB * option error :=
  thenDo (EnsureSectionMenus db) (fun db =>
  thenDo (EnsureRolePermissionMenu db) (fun db =>
  thenDo (ensureTenant DefaultTenantID db) (fun db =>
  withRow (firstOrCreate (fun r => String.eqb (rKey r) "admin") (Ok (RoleBeforeCreate adminRole)) db) (fun role created db =>
  convergeRole role created db (seedAccount salt name password))))).

Definition seedArguments : error := Newf CodeInvalid "admin: Seed requires non-empty adminUser and adminPassword".

Definition Seed (salt : Salt) (name password : string) (db : DB) : DB * option error :=
  if String.eqb name EmptyString || String.eqb password EmptyString then (db, Some seedArguments)
  else Transaction (seedTx salt name password) db.

(** ** What a run leaves behind *)

Context `{!GormFrame DB Tenant Role} `{!GormFrame DB Tenant User}.
Context `{!GormFinds DB User} `{!GormFrame DB Menu User} `{!GormFrame DB Role Tenant} `{!GormFrame DB Role User}.
Context `{!GormFrame DB User Tenant} `{!GormFrame DB User Role}.
Context `{!GormFrame DB RolePermission Menu} `{!GormFrame DB RolePermission Permission} `{!GormFrame DB RolePermission Tenant}
  `{!GormFrame DB RolePermission Role} `{!GormFrame DB RolePermission User}.
Context `{!GormFrame DB SchemaRow Menu} `{!GormFrame DB SchemaRow Permission} `{!GormFrame DB SchemaRow Tenant}
  `{!GormFrame DB SchemaRow Role} `{!GormFrame DB SchemaRow User} `{!GormFrame DB SchemaRow RolePermission}.

Definition same (R : Type) `{Gorm DB R} (db db' : DB) : Prop := rows (R := R) db' = rows db.

Lemma Create_same {R R' : Type} `{GormFrame DB R R'} (rs : list R) (db db' : DB) (o : option error) :
  Create rs db = (db', o) -> same R' db db'.
Proof. intros Hc. unfold same. by rewrite <- (Create_frame rs db), Hc. Qed.
Lemma Update_same {R R' : Type} `{GormFrame DB R R'} (w : R -> bool) (f : R -> R) (db db' : DB) (o : option error) :
  Update w f db = (db', o) -> same R' db db'.
Proof. intros Hc. unfold same. by rewrite <- (Update_frame w f db), Hc. Qed.

Lemma withRow_ok {R : Type} (m : DB * result error (R * bool)) (k : R -> bool -> DB -> DB * option error) (db' : DB) :
  withRow m k = (db', None) -> exists db1 r created, m = (db1, Ok (r, created)) /\ k r created db1 = (db', None).
Proof. destruct m as [db1 [[r created]|e]]; cbn; [|done]. eauto. Qed.

Lemma firstOrCreate_ok {R : Type} `{GormLaws DB R} (w : R -> bool) (row : result error R) (db db' : DB) (r : R) (created : bool) :
  (forall r0, row = Ok r0 -> w r0 = true) -> firstOrCreate w row db = (db', Ok (r, created)) ->
  In r (rows db') /\ w r = true /\ (exists added, rows db' = rows db ++ added) /\ (created = true -> row = Ok r).
Proof.
  intros Hw. unfold firstOrCreate. destruct (First w db) as [x|e] eqn:Ef.
  { intros [= <- -> <-]. apply First_ok in Ef as [Hin Hwr]. split; [done|]. split; [done|].
    split; [exists []; by rewrite app_nil_r|done]. }
  destruct (Is e ErrRecordNotFound); cbn [negb]; [|done]. destruct row as [x|]; [|done].
  destruct (Create [x] db) as [db1 [e'|]] eqn:Ec; [done|]. intros [= <- -> <-]. apply Create_ok in Ec. rewrite Ec.
  split; [apply in_app_iff; right; by left|]. split; [by apply Hw|]. split; [by exists [r]|done].
Qed.

Lemma firstOrCreate_same {R R' : Type} `{GormFrame DB R R'} (w : R -> bool) (row : result error R) (db db' : DB) o :
  firstOrCreate w row db = (db', o) -> same R' db db'.
Proof.
  unfold firstOrCreate. destruct (First w db) as [x|e]; [by intros [= <- _]|].
  destruct (Is e ErrRecordNotFound); cbn [negb]; [|by intros [= <- _]]. destruct row as [x|]; [|by intros [= <- _]].
  destruct (Create [x] db) as [db1 [e'|]] eqn:Ec; intros [= <- _]; by eapply Create_same.
Qed.

(** An update keeps the row it selects, changed, and keeps what it does not change. *)
Lemma updateRows_in {R : Type} (w : R -> bool) (f : R -> R) (l : list R) (r : R) :
  In r l -> w r = true -> In (f r) (updateRows w f l).
Proof. intros Hr Hw. unfold updateRows. apply in_map_iff. exists r. by rewrite Hw. Qed.

Definition tenantKnown (id : string) (db : DB) : Prop := exists t, In t (rows db) /\ tID t = id.

Lemma ensureTenant_ok (id : string) (db db' : DB) :
  ensureTenant id db = (db', None) ->
  tenantKnown id db' /\ (forall id', tenantKnown id' db -> tenantKnown id' db') /\ same Role db db' /\ same User db db'.
Proof.
  intros (db1 & t & c & Hf & [= <-])%withRow_ok.
  pose proof (firstOrCreate_same (R' := Role) _ _ _ _ _ Hf) as Hr. pose proof (firstOrCreate_same (R' := User) _ _ _ _ _ Hf) as Hu.
  apply firstOrCreate_ok in Hf as (Hin & Hw & [added Hadd] & _); [|intros r0 [= <-]; apply String.eqb_refl].
  split; [exists t; split; [done|by apply String.eqb_eq]|]. split; [|done].
  intros id' (t' & Ht' & Hid). exists t'. split; [|done]. rewrite Hadd. apply in_app_iff. by left.
Qed.

(** The role [Seed] settles on: in the table, with a tenant, and super if builtin. *)
Definition roleSettled (role : Role) (db : DB) : Prop :=
  In role (rows db) /\ rKey role = "admin" /\ rTenantID role <> EmptyString /\ (rBuiltin role = true -> rIsSuper role = true).

Lemma convergeRole_ok (role : Role) (created : bool) (db db' : DB) (k : Role -> DB -> DB * option error) :
  In role (rows db) -> rKey role = "admin" -> (created = true -> rIsSuper role = true) ->
  convergeRole role created db k = (db', None) ->
  exists role' db1, roleSettled role' db1 /\ same Tenant db db1 /\ same User db db1 /\ k role' db1 = (db', None).
Proof.
  intros Hin Hkey Hcr. unfold convergeRole.
  set (stepped := if String.eqb (rTenantID role) EmptyString then _ else _). intros Hk.
  assert (exists role1 m, stepped = (role1, m) /\ rKey role1 = "admin" /\ rTenantID role1 <> EmptyString
            /\ rIsSuper role1 = rIsSuper role
            /\ forall db1, m = (db1, None) -> In role1 (rows db1) /\ same Tenant db db1 /\ same User db db1) as (role1 & m & -> & Hk1 & Ht1 & Hs1 & Hm).
  { subst stepped. destruct (String.eqb_spec (rTenantID role) EmptyString) as [E|E].
    - do 2 eexists. split; [reflexivity|]. split; [done|]. split; [done|]. split; [done|]. intros db1 Hu. split; [|split; exact (Update_same _ _ _ _ _ Hu)].
      apply Update_ok in Hu. rewrite Hu. apply updateRows_in; [done|apply Z.eqb_refl].
    - do 2 eexists. split; [reflexivity|]. split; [done|]. split; [done|]. split; [done|]. intros db1 [= <-]. done. }
  apply thenDo_ok in Hk as (db1 & -> & Hk). destruct (Hm db1 eq_refl) as (Hin1 & Hsame & Husame).
  destruct (negb created && rBuiltin role1 && negb (rIsSuper role1)) eqn:E.
  - apply thenDo_ok in Hk as (db2 & Hu & Hk). exists (withSuper role1), db2. split; [|split; [|split; [|done]]].
    + split; [|done]. assert (In (withSuper role1) (rows db2)); [|done].
      apply Update_ok in Hu as Hrows. rewrite Hrows. apply updateRows_in; [done|apply Z.eqb_refl].
    + apply (Update_same (R' := Tenant)) in Hu. unfold same in *. congruence.
    + apply (Update_same (R' := User)) in Hu. unfold same in *. congruence.
  - exists role1, db1. split; [|done]. split; [done|]. split; [done|]. split; [done|]. intros Hb. rewrite Hb, andb_true_r in E.
    destruct created; [rewrite Hs1; auto|]. cbn in E. by apply negb_false_iff in E.
Qed.

(** ** Grants *)

(** The tables a grant leaves alone. *)
Definition catalogsSame (db db' : DB) : Prop :=
  same Menu db db' /\ same Permission db db' /\ same Tenant db db' /\ same Role db db' /\ same User db db'.

Lemma catalogsSame_trans (a b c : DB) : catalogsSame a b -> catalogsSame b c -> catalogsSame a c.
Proof. unfold catalogsSame, same. intros (?&?&?&?&?) (?&?&?&?&?). repeat split; congruence. Qed.

Lemma grant_writes (roleKey tenantID : string) (menus perms : list string) (db db' : DB) :
  GrantMissingPermissions roleKey tenantID menus perms db = (db', None) ->
  db' = db \/ exists rs : list RolePermission, Create rs db = (db', None).
Proof.
  unfold GrantMissingPermissions. intros Hg. destruct menus as [|m ms], perms as [|p ps]; [left; by injection Hg|..].
  all: destruct (Find (rpOf roleKey tenantID) db) as [existing|]; [|done].
  all: destruct (missingRows _ _ _ _ _ ++ _) as [|r rs]; [left; by injection Hg|right; eauto].
Qed.

Lemma holds_app (roleKey tenantID type data : string) (l l' : list RolePermission) :
  holds roleKey tenantID type data l -> holds roleKey tenantID type data (l ++ l').
Proof. intros (r & Hr & Hrest). exists r. split; [|done]. apply in_app_iff. by left. Qed.

(** Every menu and permission of the catalogs is granted to the role. *)
Definition grantedInFull (role : Role) (db : DB) : Prop :=
  (forall m, In m (rows db) -> holds (rKey role) (rTenantID role) RolePermissionTypeMenu (mComponent m) (rows db))
  /\ (forall p, In p (rows db) -> holds (rKey role) (rTenantID role) RolePermissionTypePermission (pData p) (rows db)).

Lemma grantedInFull_mono (role : Role) (db db' : DB) :
  same Menu db db' -> same Permission db db' -> (exists added : list RolePermission, rows db' = rows db ++ added) ->
  grantedInFull role db -> grantedInFull role db'.
Proof.
  intros Hm Hp [added Ha] [Hgm Hgp]. unfold grantedInFull, same in *. rewrite Hm, Hp, Ha.
  split; intros; apply holds_app; auto.
Qed.

Lemma grantFullCatalog_ok (role : Role) (db db' : DB) :
  grantFullCatalog role db = (db', None) ->
  catalogsSame db db' /\ (exists added : list RolePermission, rows db' = rows db ++ added)
  /\ (rTenantID role <> EmptyString -> grantedInFull role db').
Proof.
  unfold grantFullCatalog. destruct (Pluck mComponent _ db) as [menus|] eqn:Em; [|done].
  destruct (Pluck pData _ db) as [datas|] eqn:Ep; [|done]. intros Hg.
  apply Pluck_ok in Em. apply Pluck_ok in Ep. rewrite filter_all in Em by done. rewrite filter_all in Ep by done.
  assert (catalogsSame db db' /\ exists added : list RolePermission, rows db' = rows db ++ added) as [Hsame Hgrow].
  { destruct (grant_writes _ _ _ _ _ _ Hg) as [->|[rs Hc]].
    - split; [done|]. exists []. by rewrite app_nil_r.
    - split; [unfold catalogsSame; repeat split; exact (Create_same _ _ _ _ Hc)|]. exists rs. by apply Create_ok in Hc. }
  split; [done|]. split; [done|]. intros Ht.
  destruct (GrantMissingPermissions_converges _ _ _ _ _ _ Ht Hg) as (_ & Hms & Hds & _).
  destruct Hsame as (Hm & Hp & _). unfold grantedInFull, same in *. rewrite Hm, Hp.
  rewrite Forall_forall in Hms, Hds. split; intros x Hx; [apply Hms; rewrite Em|apply Hds; rewrite Ep];
    apply list_elem_of_In; by apply in_map.
Qed.

Lemma grantAll_ok (supers : list Role) (db db' : DB) :
  forEach grantFullCatalog supers db = (db', None) ->
  catalogsSame db db' /\ (forall r, In r supers -> rTenantID r <> EmptyString -> grantedInFull r db').
Proof.
  apply (forEach_ind grantFullCatalog (fun seen d => catalogsSame db d
           /\ forall r, In r seen -> rTenantID r <> EmptyString -> grantedInFull r d)); [|done].
  intros seen x d d' [Hsame Hall] (Hs & Hgrow & Hx)%grantFullCatalog_ok.
  split; [by eapply catalogsSame_trans|]. intros r Hr Ht. apply in_app_iff in Hr as [Hr|[<-|[]]]; [|auto].
  destruct Hs as (Hm & Hp & _). eapply grantedInFull_mono; eauto.
Qed.

(** ** Schema clones *)

Lemma sameTuple_spec (a b : SchemaRow) :
  sameTuple a b = true <-> scModule a = scModule b /\ scTable a = scTable b /\ scColumn a = scColumn b.
Proof. unfold sameTuple. rewrite !andb_true_iff, !String.eqb_eq. tauto. Qed.
Lemma sameTuple_clone (tenant : string) (t : SchemaRow) : sameTuple (cloneFor tenant t) t = true.
Proof. by apply sameTuple_spec. Qed.

Lemma cloneSchemas_ok (templates : list SchemaRow) (tenant : Tenant) (db db' : DB) :
  cloneSchemas templates tenant db = (db', None) ->
  catalogsSame db db' /\ same RolePermission db db'
  /\ (exists added, rows db' = rows db ++ added /\ Forall (fun s => exists t, In t templates /\ sameTuple s t = true) added)
  /\ Forall (fun t => exists c, In c (rows db') /\ scTenant c = tID tenant /\ sameTuple c t = true) templates.
Proof.
  unfold cloneSchemas. destruct (Find _ db) as [existing|] eqn:Ef; [|done]. apply Find_ok in Ef.
  set (missing := missingSchemas _ _ _). intros Hc.
  assert (catalogsSame db db' /\ same RolePermission db db' /\ rows db' = rows db ++ missing) as (Hs & Hrp & Hrows).
  { destruct missing as [|x l]; [injection Hc as <-; rewrite app_nil_r; done|].
    destruct (Create (x :: l) db) as [db1 [e|]] eqn:Ec; [done|]. injection Hc as <-.
    split; [unfold catalogsSame; repeat split; exact (Create_same _ _ _ _ Ec)|].
    split; [exact (Create_same _ _ _ _ Ec)|by apply Create_ok in Ec]. }
  split; [done|]. split; [done|]. split.
  { exists missing. split; [done|]. apply Forall_forall. intros s Hm. apply list_elem_of_In, in_map_iff in Hm as (t & <- & [Ht _]%List.filter_In).
    exists t. split; [done|apply sameTuple_clone]. }
  apply Forall_forall. intros t Ht%list_elem_of_In. rewrite Hrows.
  destruct (existsb (fun e => sameTuple e t) existing) eqn:E.
  - apply existsb_exists in E as (c & Hin & Hsame). rewrite Ef in Hin. apply List.filter_In in Hin as [Hin Hten%String.eqb_eq].
    exists c. split; [apply in_app_iff; by left|done].
  - exists (cloneFor (tID tenant) t). split; [|split; [done|apply sameTuple_clone]].
    apply in_app_iff. right. apply in_map_iff. exists t. split; [done|]. apply List.filter_In. by rewrite E.
Qed.

(** Every tenant has its copy of every template. *)
Definition schemasCloned (db : DB) : Prop :=
  forall t tmpl, In t (rows db) -> In tmpl (rows db) -> scTenant tmpl = EmptyString ->
  exists c, In c (rows db) /\ scTenant c = tID t /\ sameTuple c tmpl = true.

Lemma ensureTenantSchemas_ok (db db' : DB) :
  ensureTenantSchemas db = (db', None) -> catalogsSame db db' /\ same RolePermission db db' /\ schemasCloned db'.
Proof.
  unfold ensureTenantSchemas. destruct (Find (fun _ : Tenant => true) db) as [tenants|] eqn:Et; [|done].
  apply Find_ok in Et. rewrite filter_all in Et by done.
  destruct tenants as [|t0 ts]; [intros [= <-]; split; [done|]; split; [done|]; intros t tmpl Ht; by rewrite <- Et in Ht|].
  destruct (Find _ db) as [templates|] eqn:Ef; [|done]. apply Find_ok in Ef.
  assert (forall s, In s (rows db) -> scTenant s = EmptyString -> exists t, In t templates /\ sameTuple s t = true) as Hcov.
  { intros s Hs Ht. exists s. rewrite Ef, List.filter_In, Ht. split; [done|]. by apply sameTuple_spec. }
  assert (forEach (cloneSchemas templates) (t0 :: ts) db = (db', None) ->
          catalogsSame db db' /\ same RolePermission db db' /\ schemasCloned db') as Hgen; [|by destruct templates; [intros [= <-];
    split; [done|]; split; [done|]; intros t s _ Hs Hten; destruct (Hcov s Hs Hten) as (? & [] & _)|]].
  rewrite Et. intros Hall.
  apply (forEach_ind (cloneSchemas templates) (fun seen d => catalogsSame db d /\ same RolePermission db d
           /\ (forall s, In s (rows d) -> scTenant s = EmptyString -> exists t, In t templates /\ sameTuple s t = true)
           /\ (forall t, In t seen -> Forall (fun s => exists c, In c (rows d) /\ scTenant c = tID t /\ sameTuple c s = true) templates)))
    in Hall; [|clear Hall|done].
  - destruct Hall as (Hs & Hrp & Hte & Hcl). split; [done|]. split; [done|]. intros t tmpl Ht Htm Hten.
    destruct (Hte tmpl Htm Hten) as (s & Hsin & Hst). destruct Hs as (_ & _ & Htn & _). unfold same in Htn. rewrite Htn in Ht.
    specialize (Hcl t Ht). rewrite Forall_forall in Hcl. destruct (Hcl s) as (c & Hc & Hct & Hcs); [by apply list_elem_of_In|].
    exists c. split; [done|]. split; [done|]. rewrite sameTuple_spec in *. intuition congruence.
  - intros seen x d d' (Hs & Hrp & Hte & Hcl) (Hs' & Hrp' & (added & Hadd & Hnew) & Hx)%cloneSchemas_ok.
    split; [by eapply catalogsSame_trans|]. split; [unfold same in *; congruence|]. split.
    + intros s Hin Hten. rewrite Hadd in Hin. apply in_app_iff in Hin as [Hin|Hin]; [eauto|].
      rewrite Forall_forall in Hnew. apply Hnew. by apply list_elem_of_In.
    + intros t Ht. apply in_app_iff in Ht as [Ht|[<-|[]]]; [|done]. eapply Forall_impl; [exact (Hcl t Ht)|].
      intros s (c & Hc & Hrest). exists c. split; [|done]. rewrite Hadd. apply in_app_iff. by left.
Qed.

(** ** The whole run *)

(** The account: one that was there keeps everything but its tenant; where there was none,
    one with the name and the role admin, whose password satisfied the policy and is
    stored hashed (one that begins like a hash is stored as it is). *)
Definition accountReady (salt : Salt) (name password : string) (role : Role) (db db' : DB) : Prop :=
  exists u, In u (rows db') /\ uUID u = "admin" /\ uTenantID u = rTenantID role
  /\ ((exists u0, In u0 (rows db) /\ uUID u0 = "admin" /\ u = withUserTenant (rTenantID role) u0)
      \/ (forall u0, In u0 (rows db) -> uUID u0 <> "admin")
         /\ uUsername u = name /\ uRoleKey u = "admin" /\ uStatus u = "normal"
         /\ (if HasPrefix password hashedPrefix then uPassword u = password
             else CheckPasswordPolicy password = None /\ GenerateFromPassword salt password = Ok (uPassword u))).

Lemma BeforeCreate_account (salt : Salt) (name password tenant : string) (u : User) :
  password <> EmptyString -> tenant <> EmptyString ->
  BeforeCreate GenerateFromPassword salt (adminUserRow name password tenant) = Ok u ->
  uUID u = "admin" /\ uTenantID u = tenant /\ uUsername u = name /\ uRoleKey u = "admin" /\ uStatus u = "normal"
  /\ (if HasPrefix password hashedPrefix then uPassword u = password
      else CheckPasswordPolicy password = None /\ GenerateFromPassword salt password = Ok (uPassword u)).
Proof.
  intros Hp Ht. unfold BeforeCreate, policyThenHash, checkPlaintextPasswordPolicy, hashPassword, ApplyDefaultTenant.
  cbn [adminUserRow withTenantModel uPassword uTenant tmTenantID]. rewrite (proj2 (String.eqb_neq _ _) Hp), (proj2 (String.eqb_neq _ _) Ht).
  cbn [orb]. destruct (HasPrefix password hashedPrefix).
  - intros [= <-]. done.
  - destruct (CheckPasswordPolicy password); [done|]. destruct (GenerateFromPassword salt password) as [h|]; [|done].
    intros [= <-]. done.
Qed.

Lemma userRow_same (u : User) : withUserTenant (uTenantID u) u = u.
Proof. by destruct u as [[b t] ? ? ? ? ? ? ? ? ? ?]. Qed.

(** The lookup or creation of the account, and its move to the role's tenant. *)
Lemma account_ok (salt : Salt) (name password : string) (role : Role) (k : DB -> DB * option error) (db db' : DB) :
  password <> EmptyString -> rTenantID role <> EmptyString ->
  withRow (firstOrCreate (fun u => String.eqb (uUID u) "admin")
             (BeforeCreate GenerateFromPassword salt (adminUserRow name password (rTenantID role))) db) (fun user _ db =>
    thenDo (if String.eqb (uTenantID user) (rTenantID role) then (db, None)
            else Update (fun u => Z.eqb (userIDOf u) (userIDOf user)) (withUserTenant (rTenantID role)) db) k) = (db', None) ->
  exists db1, accountReady salt name password role db db1 /\ same Tenant db db1 /\ same Role db db1 /\ k db1 = (db', None).
Proof.
  intros Hp Hrt (db1 & user & c & Hf & Hk)%withRow_ok. apply thenDo_ok in Hk as (db2 & Hu & Hk). exists db2.
  pose proof (firstOrCreate_same (R' := Tenant) _ _ _ _ _ Hf) as Ht. pose proof (firstOrCreate_same (R' := Role) _ _ _ _ _ Hf) as Hr.
  assert (In user (rows db1) /\ uUID user = "admin"
          /\ ((In user (rows db)) \/ (forall u0, In u0 (rows db) -> uUID u0 <> "admin")
               /\ BeforeCreate GenerateFromPassword salt (adminUserRow name password (rTenantID role)) = Ok user)) as (Hin & Huid & Hcase).
  { unfold firstOrCreate in Hf. destruct (First _ db) as [x|e] eqn:Ef.
    - injection Hf as -> -> <-. apply First_ok in Ef as [Hin Hw%String.eqb_eq]. split; [exact Hin|]. split; [exact Hw|by left].
    - destruct (Is e ErrRecordNotFound) eqn:Ee; cbn [negb] in Hf; [|done].
      destruct (BeforeCreate _ _ _) as [x|] eqn:Eb; [|done]. destruct (Create [x] db) as [dbc [e'|]] eqn:Ec; [done|].
      injection Hf as -> -> <-. apply Create_ok in Ec. rewrite Ec.
      split; [apply in_app_iff; right; by left|]. split; [by apply (BeforeCreate_account salt name password (rTenantID role))|]. right. split; [|done].
      intros u0 Hu0 Hadm. pose proof (First_none _ _ _ Ef Ee u0 Hu0) as Hf0. by apply String.eqb_neq in Hf0. }
  destruct (String.eqb_spec (uTenantID user) (rTenantID role)) as [E|E].
  - injection Hu as <-. split; [|done]. exists user. split; [done|]. split; [done|]. split; [done|].
    destruct Hcase as [Hold|[Hno Hb]]; [left; exists user; by rewrite <- E, userRow_same|right; split; [done|]].
    by apply (BeforeCreate_account salt name password (rTenantID role)).
  - pose proof (Update_same (R' := Tenant) _ _ _ _ _ Hu) as Ht'. pose proof (Update_same (R' := Role) _ _ _ _ _ Hu) as Hr'.
    unfold same in *. split; [|split; [congruence|split; [congruence|done]]].
    exists (withUserTenant (rTenantID role) user). split; [|split; [done|split; [done|]]].
    + apply Update_ok in Hu. rewrite Hu. apply updateRows_in; [done|apply Z.eqb_refl].
    + destruct Hcase as [Hold|[Hno Hb]]; [left; by exists user|].
      destruct (BeforeCreate_account salt name password (rTenantID role) user Hp Hrt Hb) as (_ & Hten & _). by destruct E.
Qed.

Lemma seedAccount_ok (salt : Salt) (name password : string) (role : Role) (db db' : DB) :
  password <> EmptyString -> roleSettled role db -> tenantKnown DefaultTenantID db ->
  seedAccount salt name password role db = (db', None) ->
  roleSettled role db' /\ accountReady salt name password role db db' /\ tenantKnown DefaultTenantID db' /\ tenantKnown (rTenantID role) db'
  /\ (forall r, In r (rows db') -> rIsSuper r = true -> rTenantID r <> EmptyString -> grantedInFull r db')
  /\ (scoping = true -> schemasCloned db').
Proof.
  intros Hp Hrole Hdef Hs. unfold seedAccount in Hs. apply thenDo_ok in Hs as (db1 & He & Hs).
  assert (tenantKnown (rTenantID role) db1 /\ tenantKnown DefaultTenantID db1 /\ same Role db db1 /\ same User db db1) as (Hown & Hdef1 & Hr1 & Hu1).
  { destruct (String.eqb_spec (rTenantID role) EmptyString) as [E|_]; [by destruct Hrole as (_ & _ & ? & _)|].
    destruct (String.eqb_spec (rTenantID role) DefaultTenantID) as [E|_]; cbn [negb andb] in He.
    - injection He as <-. by rewrite E.
    - apply ensureTenant_ok in He as (? & Hkeep & ? & ?). auto. }
  apply account_ok in Hs; [|done|apply Hrole]. destruct Hs as (db2 & Hacc & Ht2 & Hr2 & Hs).
  destruct (Find rIsSuper db2) as [supers|] eqn:Ef; [|done]. apply Find_ok in Ef.
  apply thenDo_ok in Hs as (db3 & Hg & Hs). apply grantAll_ok in Hg as [Hs3 Hgr].
  assert (catalogsSame db3 db' /\ same RolePermission db3 db' /\ (scoping = true -> schemasCloned db')) as (Hs4 & Hrp & Hcl).
  { destruct scoping; [apply ensureTenantSchemas_ok in Hs; tauto|]. by injection Hs as <-. }
  pose proof (catalogsSame_trans _ _ _ Hs3 Hs4) as (_ & _ & Hten & Hrol & Husr).
  destruct Hs4 as (Hm4 & Hp4 & _). unfold same, tenantKnown, accountReady, roleSettled in *.
  rewrite Hu1 in Hacc. rewrite Husr, Hten, Hrol, Ht2, Hr2, Hr1. split; [done|]. split; [done|]. split; [done|]. split; [done|].
  split; [|done]. intros r Hr Hsup Ht. apply (grantedInFull_mono r db3 db'); [done|done|exists []; by rewrite app_nil_r|].
  apply Hgr; [|done]. rewrite Ef. apply List.filter_In. split; [congruence|done].
Qed.

(** The section menus and the menu of the role permissions touch no account. *)
Lemma ensure_same {R R' : Type} `{GormFrame DB R R'} `{!GormUnscoped DB R} (w : R -> bool) (row : R)
    (onLookup onCreate : error -> error) (db db' : DB) (o : option error) :
  ensure w row onLookup onCreate db = (db', o) -> same R' db db'.
Proof.
  unfold ensure. destruct (FirstAll w db) as [x|e]; [by intros [= <- _]|]. destruct (negb (Is e ErrRecordNotFound)); [by intros [= <- _]|].
  destruct (Create [row] db) as [db1 [e'|]] eqn:Ec; intros [= <- _]; by eapply Create_same.
Qed.

Lemma menus_same (db db' : DB) :
  EnsureSectionMenus db = (db', None) \/ EnsureRolePermissionMenu db = (db', None) -> same User db db'.
Proof.
  intros [Hm|Hm]; [|by eapply ensure_same].
  apply (forEach_ind ensureSection (fun _ d => same User db d) sectionMenuSpecs db db'); [|done|exact Hm].
  intros seen x d d' Hs Hx. unfold same in *. rewrite <- Hs. unfold ensureSection in Hx.
  destruct (_ || _); [by injection Hx as <-|]. by eapply (ensure_same (R' := User)).
Qed.

(** What a run leaves, for those who call it. *)
Lemma Seed_leaves (salt : Salt) (name password : string) (db db' : DB) (o : option error) :
  Seed salt name password db = (db', o) ->
  match o with
  | Some _ => db' = db
  | None =>
      (exists role, roleSettled role db' /\ accountReady salt name password role db db' /\ tenantKnown (rTenantID role) db')
      /\ tenantKnown DefaultTenantID db'
      /\ (forall r, In r (rows db') -> rIsSuper r = true -> rTenantID r <> EmptyString -> grantedInFull r db')
      /\ (scoping = true -> schemasCloned db')
  end.
Proof.
  unfold Seed. destruct (String.eqb_spec name EmptyString) as [|_]; cbn [orb]; [by intros [= <- <-]|].
  destruct (String.eqb_spec password EmptyString) as [|Hp]; [by intros [= <- <-]|].
  destruct (Transaction_atomic (seedTx salt name password) db) as [(d & Hok & ->)|(e & _ & ->)]; intros [= <- <-]; [|done].
  unfold seedTx in Hok. apply thenDo_ok in Hok as (db1 & Hu1 & Hok). apply thenDo_ok in Hok as (db2 & Hu2 & Hok).
  pose proof (menus_same db db1 (or_introl Hu1)) as Hus1. pose proof (menus_same db1 db2 (or_intror Hu2)) as Hus2.
  apply thenDo_ok in Hok as (db3 & Hdef & Hok). apply ensureTenant_ok in Hdef as (Hdef & _ & _ & Hus3).
  apply withRow_ok in Hok as (db4 & role & c & Hf & Hok).
  pose proof (firstOrCreate_same (R' := Tenant) _ _ _ _ _ Hf) as Ht4. pose proof (firstOrCreate_same (R' := User) _ _ _ _ _ Hf) as Hus4.
  apply firstOrCreate_ok in Hf as (Hin & Hkey%String.eqb_eq & _ & Hcr); [|by intros r0 [= <-]].
  apply convergeRole_ok in Hok as (role' & db5 & Hset & Ht5 & Hus5 & Hok); [|done|done|by intros Hc; specialize (Hcr Hc) as [= <-]].
  apply seedAccount_ok in Hok as (? & Hacc & ? & ? & ? & ?); [|done|done|unfold tenantKnown, same in *; by rewrite Ht5, Ht4].
  split; [exists role'; split; [done|split; [|done]]|done].
  unfold accountReady, same in *. by rewrite Hus5, Hus4, Hus3, Hus2, Hus1 in Hacc.
Qed.


End Seed.

(** ** A concrete database *)

Record SeedTables : Type := mkSeedTables {
  sdMenus : list Menu;
  sdPerms : list Permission;
  sdTenants : list Tenant;
  sdRoles : list Role;
  sdUsers : list User;
  sdGrants : list RolePermission;
  sdSchemas : list SchemaRow;
}.

#[export] Instance SeedTables_Menu : Gorm SeedTables Menu := tableGorm sdMenus (fun l t => mkSeedTables l (sdPerms t) (sdTenants t) (sdRoles t) (sdUsers t) (sdGrants t) (sdSchemas t)).
#[export] Instance SeedTables_Permission : Gorm SeedTables Permission := tableGorm sdPerms (fun l t => mkSeedTables (sdMenus t) l (sdTenants t) (sdRoles t) (sdUsers t) (sdGrants t) (sdSchemas t)).
#[export] Instance SeedTables_Tenant : Gorm SeedTables Tenant := tableGorm sdTenants (fun l t => mkSeedTables (sdMenus t) (sdPerms t) l (sdRoles t) (sdUsers t) (sdGrants t) (sdSchemas t)).
#[export] Instance SeedTables_Role : Gorm SeedTables Role := tableGorm sdRoles (fun l t => mkSeedTables (sdMenus t) (sdPerms t) (sdTenants t) l (sdUsers t) (sdGrants t) (sdSchemas t)).
#[export] Instance SeedTables_User : Gorm SeedTables User := tableGorm sdUsers (fun l t => mkSeedTables (sdMenus t) (sdPerms t) (sdTenants t) (sdRoles t) l (sdGrants t) (sdSchemas t)).
#[export] Instance SeedTables_RolePermission : Gorm SeedTables RolePermission := tableGorm sdGrants (fun l t => mkSeedTables (sdMenus t) (sdPerms t) (sdTenants t) (sdRoles t) (sdUsers t) l (sdSchemas t)).
#[export] Instance SeedTables_SchemaRow : Gorm SeedTables SchemaRow := tableGorm sdSchemas (fun l t => mkSeedTables (sdMenus t) (sdPerms t) (sdTenants t) (sdRoles t) (sdUsers t) (sdGrants t) l).
#[export] Instance SeedTables_Menu_laws : GormLaws SeedTables Menu.
Proof. by apply tableGorm_laws. Qed.
#[export] Instance SeedTables_Permission_laws : GormLaws SeedTables Permission.
Proof. by apply tableGorm_laws. Qed.
#[export] Instance SeedTables_Tenant_laws : GormLaws SeedTables Tenant.
Proof. by apply tableGorm_laws. Qed.
#[export] Instance SeedTables_Role_laws : GormLaws SeedTables Role.
Proof. by apply tableGorm_laws. Qed.
#[export] Instance SeedTables_User_laws : GormLaws SeedTables User.
Proof. by apply tableGorm_laws. Qed.
#[export] Instance SeedTables_RolePermission_laws : GormLaws SeedTables RolePermission.
Proof. by apply tableGorm_laws. Qed.
#[export] Instance SeedTables_SchemaRow_laws : GormLaws SeedTables SchemaRow.
Proof. by apply tableGorm_laws. Qed.
#[export] Instance SeedTables_all : GormUnscoped SeedTables Menu := tableUnscoped sdMenus.
#[export] Instance SeedTables_all_laws : GormUnscopedLaws SeedTables Menu.
Proof. by apply tableUnscoped_laws. Qed.

#[export] Instance SeedTables_Tenant_Role : GormFrame SeedTables Tenant Role.
Proof. by apply tableGorm_frame. Qed.
#[export] Instance SeedTables_Tenant_User : GormFrame SeedTables Tenant User.
Proof. by apply tableGorm_frame. Qed.
#[export] Instance SeedTables_User_finds : GormFinds SeedTables User.
Proof. intros w db e. discriminate. Qed.
#[export] Instance SeedTables_Menu_User : GormFrame SeedTables Menu User.
Proof. by apply tableGorm_frame. Qed.
#[export] Instance SeedTables_Role_User : GormFrame SeedTables Role User.
Proof. by apply tableGorm_frame. Qed.
#[export] Instance SeedTables_Role_Tenant : GormFrame SeedTables Role Tenant.
Proof. by apply tableGorm_frame. Qed.
#[export] Instance SeedTables_User_Tenant : GormFrame SeedTables User Tenant.
Proof. by apply tableGorm_frame. Qed.
#[export] Instance SeedTables_User_Role : GormFrame SeedTables User Role.
Proof. by apply tableGorm_frame. Qed.
#[export] Instance SeedTables_RolePermission_Menu : GormFrame SeedTables RolePermission Menu.
Proof. by apply tableGorm_frame. Qed.
#[export] Instance SeedTables_RolePermission_Permission : GormFrame SeedTables RolePermission Permission.
Proof. by apply tableGorm_frame. Qed.
#[export] Instance SeedTables_RolePermission_Tenant : GormFrame SeedTables RolePermission Tenant.
Proof. by apply tableGorm_frame. Qed.
#[export] Instance SeedTables_RolePermission_Role : GormFrame SeedTables RolePermission Role.
Proof. by apply tableGorm_frame. Qed.
#[export] Instance SeedTables_RolePermission_User : GormFrame SeedTables RolePermission User.
Proof. by apply tableGorm_frame. Qed.
#[export] Instance SeedTables_SchemaRow_Menu : GormFrame SeedTables SchemaRow Menu.
Proof. by apply tableGorm_frame. Qed.
#[export] Instance SeedTables_SchemaRow_Permission : GormFrame SeedTables SchemaRow Permission.
Proof. by apply tableGorm_frame. Qed.
#[export] Instance SeedTables_SchemaRow_Tenant : GormFrame SeedTables SchemaRow Tenant.
Proof. by apply tableGorm_frame. Qed.
#[export] Instance SeedTables_SchemaRow_Role : GormFrame SeedTables SchemaRow Role.
Proof. by apply tableGorm_frame. Qed.
#[export] Instance SeedTables_SchemaRow_User : GormFrame SeedTables SchemaRow User.
Proof. by apply tableGorm_frame. Qed.
#[export] Instance SeedTables_SchemaRow_RolePermission : GormFrame SeedTables SchemaRow RolePermission.
Proof. by apply tableGorm_frame. Qed.

(** A legacy database: a builtin admin role without tenant that is not yet super, a
    menu, a permission and a schema template. *)
Definition legacyRole : Role :=
  mkRole (mkTenantModel (mkBase 7 0 0 None) EmptyString) "admin" "Admin" "enabled" true false "all" 0 EmptyString EmptyString.
Definition legacyMenu : Menu := menuRow (mkMenuSpec "Home" "/home" EmptyString "Home" EmptyString EmptyString 1 false false EmptyString).
Definition legacyTables : SeedTables :=
  mkSeedTables [legacyMenu] [permissionRow PermissionTypeAPI "GET /users" "Users" "users"] [] [legacyRole] [] []
    [mkSchemaRow 3 EmptyString "system" "sys_users" "uid" 1 1 []].

(** What the run counts: tenants, grants, schemas and users. *)
Definition sizes (t : SeedTables) : list nat :=
  [length (sdMenus t); length (sdTenants t); length (sdRoles t); length (sdUsers t); length (sdGrants t); length (sdSchemas t)].

Definition runSeed (db : SeedTables) : SeedTables * option error := Seed demoHash true "salt" "root" "Passw0rd" db.

Example Seed_run : sizes (fst (runSeed legacyTables)) = [5; 1; 1; 1; 6; 2]%nat /\ snd (runSeed legacyTables) = None.
Proof. split; vm_compute; reflexivity. Qed.

(** A second run writes nothing. *)
Example Seed_idempotent : runSeed (fst (runSeed legacyTables)) = runSeed legacyTables.
Proof. vm_compute. reflexivity. Qed.

(** Unless a super role other than admin has no tenant: its grants are made for the
    default tenant and looked up under none, so every run adds them again. *)
Definition strayRole : Role :=
  mkRole (mkTenantModel (mkBase 8 0 0 None) EmptyString) "ops" "Ops" "enabled" false true "all" 0 EmptyString EmptyString.
Definition strayTables : SeedTables :=
  mkSeedTables (sdMenus legacyTables) (sdPerms legacyTables) [] [strayRole; legacyRole] [] [] [].
Example tenantless_super_grows :
  map (fun n => length (sdGrants (Nat.iter n (fun t => fst (runSeed t)) strayTables))) [1; 2; 3]%nat = [12; 18; 24]%nat.
Proof. vm_compute. reflexivity. Qed.

