(* ===== verification/Setup.v ===== *)
(** [admin/server.go] ([RegisterModel], [registerModel], [Setup]) and
    [admin/setup_converge.go]: what starting the admin module does to the database
    and to the server. *)

From Stdlib Require Import ZArith Lia String Ascii List Bool.
From stdpp Require Import base tactics list gmap strings.
From S2P Require Import Prelude GoStrings Errs Gorm UserModel RoleModel Menus Derive RoleService Seed.

Local Open Scope string_scope.
Local Open Scope list_scope.
Local Open Scope aeus_scope.

#[export] Instance BaseModel_eq_dec : EqDecision BaseModel.
Proof. solve_decision. Defined.
#[export] Instance Menu_eq_dec : EqDecision Menu.
Proof. solve_decision. Defined.

(** ** The models *)

(** The built-in models, and those of an application. *)
Inductive AdminModel (App : Type) : Type :=
| MdMenu | MdUser | MdLoginLog | MdDepartment | MdRole | MdRolePermission | MdPermission | MdAudit | MdTenant
| MdApp (a : App).
Arguments MdMenu {App}. Arguments MdUser {App}. Arguments MdLoginLog {App}. Arguments MdDepartment {App}.
Arguments MdRole {App}. Arguments MdRolePermission {App}. Arguments MdPermission {App}. Arguments MdAudit {App}.
Arguments MdTenant {App}. Arguments MdApp {App} a.

Definition getModels {App : Type} (multiTenant : bool) : list (AdminModel App) :=
  [MdMenu; MdUser; MdLoginLog; MdDepartment; MdRole; MdRolePermission; MdPermission; MdAudit]
  ++ (if multiTenant then [MdTenant] else []).

Definition readOnlyResource {App : Type} (m : AdminModel App) : bool :=
  match m with MdPermission | MdRolePermission | MdAudit | MdLoginLog => true | _ => false end.

(** [TableName], [ModuleName] and [MenuEntry] of a built-in model; [None] is an
    application's. *)
Definition builtinTable {App : Type} (m : AdminModel App) : option string :=
  match m with
  | MdMenu => Some "sys_menus" | MdUser => Some "sys_users" | MdLoginLog => Some "sys_login_logs"
  | MdDepartment => Some "sys_departments" | MdRole => Some "sys_roles" | MdRolePermission => Some "sys_role_permissions"
  | MdPermission => Some "sys_permissions" | MdAudit => Some "sys_audits" | MdTenant => Some "sys_tenants"
  | MdApp _ => None
  end.
Definition entry (name parent : string) (sort : Z) : MenuSpec :=
  mkMenuSpec EmptyString EmptyString EmptyString name EmptyString parent sort false false EmptyString.
Definition MenuEntry {App : Type} (m : AdminModel App) : option MenuSpec :=
  match m with
  | MdMenu => Some (entry "菜单管理" "SystemSettings" 20)
  | MdUser => Some (entry "用户管理" "SystemUserCenter" 10)
  | MdLoginLog => Some (entry "登录日志" "SystemLogs" 20)
  | MdDepartment => Some (entry "部门管理" "SystemUserCenter" 40)
  | MdRole => Some (entry "角色管理" "SystemUserCenter" 20)
  | MdRolePermission => Some (entry "角色授权" "SystemUserCenter" 30)
  | MdPermission => Some (entry "权限管理" "SystemSettings" 30)
  | MdAudit => Some (entry "操作日志" "SystemLogs" 10)
  | MdTenant => Some (entry "租户管理" "SystemSettings" 10)
  | MdApp _ => None
  end.

(** ** setup_converge.go: data *)

Record menuIdentity : Type := mkIdentity { idComponent : string; idName : string; idParent : string; idUri : string; idViewPath : string }.
Definition tenantManagementMenuIdentity : menuIdentity :=
  mkIdentity "SystemSysTenants" "租户管理" "SystemSettings" "/system/sys-tenants" "@/views/system/sys_tenant/Index.vue".
Definition hasIdentity (i : menuIdentity) (m : Menu) : bool :=
  String.eqb (mComponent m) (idComponent i) && String.eqb (mName m) (idName i) && String.eqb (mParent m) (idParent i)
  && String.eqb (mUri m) (idUri i) && String.eqb (mViewPath m) (idViewPath i).

Definition tenantResourcePermissionData : list string :=
  [ "POST /system/sys_tenant"; "PUT /system/sys_tenant/:id"; "DELETE /system/sys_tenant/:id"; "GET /system/sys_tenants"
  ; "GET /system/sys_tenant/detail/:id"; "GET /system/sys_tenant/export" ].

Definition isRoleKeyColumn (s : SchemaRow) : bool :=
  String.eqb (scModule s) "system" && String.eqb (scTable s) "sys_users" && String.eqb (scColumn s) "role_key".
Definition withRequired (l : list string) (s : SchemaRow) : SchemaRow :=
  mkSchemaRow (scID s) (scTenant s) (scModule s) (scTable s) (scColumn s) (scCreatedAt s) (scUpdatedAt s) l.

(** ** The server *)

Inductive Callback : Type := CbTenantScope | CbSecurityGuards | CbAudit.

Record Options : Type := mkOptions {
  oRouter : bool; oDB : bool; oMultiTenant : bool; oResolver : bool; oAudit : bool; oAutoMigrate : bool;
}.
Record ResourceConfig (S : Type) : Type := mkConfig { rcTenantResolve : bool; rcScenarios : option S; rcAutoMigrate : bool }.
Arguments mkConfig {S}.

(** The database, the models by module and table, the callbacks installed, the routes
    mounted by the endpoints, the schema caches dropped, and the warnings logged. *)
Record Server (App DB : Type) : Type := mkServer {
  svDB : DB;
  svIndex : gmap string (AdminModel App);
  svCallbacks : list Callback;
  svRoutes : list (string * string);
  svInvalidated : list (string * string);
  svWarnings : list error;
}.
Arguments mkServer {App DB}. Arguments svDB {App DB}. Arguments svIndex {App DB}. Arguments svCallbacks {App DB}.
Arguments svRoutes {App DB}. Arguments svInvalidated {App DB}. Arguments svWarnings {App DB}.

Definition ErrHTTPRequired : error := EPlain "http server required".
Definition ErrDBRequired : error := EPlain "db required".
Definition ErrRouterRequired : error := EPlain "router required".

Section Setup.

Context {App DB : Type} `{GormLaws DB Menu} `{!GormUnscoped DB Menu} `{!GormUnscopedLaws DB Menu} `{!GormHard DB Menu}
  `{GormLaws DB Permission} `{!GormUnscoped DB Permission} `{!GormUnscopedLaws DB Permission} `{!GormHard DB Permission}
  `{GormLaws DB RolePermission} `{!GormUnscoped DB RolePermission} `{!GormHard DB RolePermission}
  `{GormLaws DB SchemaRow}.

(** rest/v3 and gorm: the scenario names, building and mounting a resource (which
    migrates its table), its singular name, the scenarios it mounts and their routes,
    whether a model has a tenant column; DDL; the tables that exist; the name of a
    model's type; what an application's models say of themselves. *)
Variables ScenarioCreate ScenarioUpdate ScenarioDelete ScenarioSearch ScenarioDetail ScenarioExport : string.
Variable NewResource : AdminModel App -> ResourceConfig (list string) -> DB -> DB * option error.
Variable singularOf : string -> string.
Variable HasScenario : AdminModel App -> option (list string) -> string -> bool.
Variable BuildUriOf : AdminModel App -> string -> string * string.
Variable modelHasTenantIDColumn : AdminModel App -> bool.
Variable AutoMigrate : string -> DB -> DB * option error.
Variable HasTable : string -> DB -> bool.
Variable typeName : AdminModel App -> string.
Variable appResource : App -> Resource.

Notation Srv := (Server App DB).
Notation M := (Srv -> Srv * option error).

Definition withDB (s : Srv) (db : DB) : Srv :=
  mkServer db (svIndex s) (svCallbacks s) (svRoutes s) (svInvalidated s) (svWarnings s).
Definition lift (f : DB -> DB * option error) : M := fun s => let '(db, e) := f (svDB s) in (withDB s db, e).
Definition step (f : Srv -> Srv) : M := fun s => (f s, None).
Definition bindM (m k : M) : M := fun s => thenDo (m s) k.
Definition whenM (b : bool) (m : M) : M := if b then m else fun s => (s, None).
Definition failWith (e : error) : M := fun s => (s, Some e).

Definition install (c : Callback) : M := step (fun s =>
  mkServer (svDB s) (svIndex s) (svCallbacks s ++ [c]) (svRoutes s) (svInvalidated s) (svWarnings s)).
(** [sync.Once]. *)
Definition isAudit (c : Callback) : bool := match c with CbAudit => true | _ => false end.
Definition installAuditHooks : M := fun s => if existsb isAudit (svCallbacks s) then (s, None) else install CbAudit s.
Definition index (k : string) (m : AdminModel App) : M := step (fun s =>
  mkServer (svDB s) (<[k := m]> (svIndex s)) (svCallbacks s) (svRoutes s) (svInvalidated s) (svWarnings s)).
Definition warn (e : error) : M := step (fun s =>
  mkServer (svDB s) (svIndex s) (svCallbacks s) (svRoutes s) (svInvalidated s) (svWarnings s ++ [e])).
Definition mount (o : Options) (path : string) : M := fun s =>
  if negb (oRouter o) then (s, Some ErrRouterRequired)
  else if negb (oDB o) then (s, Some ErrDBRequired)
  else (mkServer (svDB s) (svIndex s) (svCallbacks s) (svRoutes s ++ [("GET", path)]) (svInvalidated s) (svWarnings s), None).

(** The resource rest/v3 builds of a model. *)
Definition scenariosFor (m : AdminModel App) : option (list string) :=
  if readOnlyResource m then Some [ScenarioSearch; ScenarioDetail; ScenarioExport] else None.
Definition resourceOf (m : AdminModel App) : Resource :=
  match m, builtinTable m with
  | MdApp a, _ => appResource a
  | _, Some t => mkResource "system" t (singularOf t) (HasScenario m (scenariosFor m)) None (MenuEntry m) None (BuildUriOf m)
  | _, None => mkResource EmptyString EmptyString EmptyString (fun _ => false) None None None (BuildUriOf m)
  end.

Definition resourceConfig (o : Options) (m : AdminModel App) : ResourceConfig (list string) :=
  mkConfig (oMultiTenant o && oResolver o && modelHasTenantIDColumn m) (scenariosFor m) (oAutoMigrate o).

Definition codeOf : Resource -> string -> string * string * string :=
  permissionCode ScenarioCreate ScenarioUpdate ScenarioDelete ScenarioSearch ScenarioDetail ScenarioExport.
Definition scenariosOf : Resource -> list string :=
  permissionScenarios ScenarioCreate ScenarioUpdate ScenarioDelete ScenarioSearch ScenarioDetail ScenarioExport.
Definition migration (o : Options) (t : string) : option (DB -> DB * option error) :=
  if oAutoMigrate o then Some (AutoMigrate t) else None.

(** The spec given at registration, or the model's, completed. *)
Definition menuSpecFor (override : option MenuSpec) (r : Resource) : option MenuSpec :=
  match override with
  | Some spec => Some (fillDerivedSpec r spec)
  | None => option_map (fillDerivedSpec r) (menuEntry r)
  end.

Definition registerMenu (o : Options) (m : AdminModel App) (spec : MenuSpec) : M :=
  bindM (whenM (oAutoMigrate o) (lift (fun db => wrapErr "migrate sys_menus" (AutoMigrate "sys_menus" db))))
    (lift (fun db => wrapErr ("auto-create menu for " +:+ typeName m) (ensureMenuRow spec db))).

Definition registerModel (o : Options) (m : AdminModel App) (override : option MenuSpec) (scenarios : option (list string)) : M :=
  let r := resourceOf m in
  bindM (lift (NewResource m (resourceConfig o m)))
  (bindM (whenM (negb (String.eqb (resModule r) EmptyString) && negb (String.eqb (resTable r) EmptyString))
            (index (resModule r +:+ "/" +:+ resTable r) m))
  (bindM (match menuSpecFor override r with Some spec => registerMenu o m spec | None => fun s => (s, None) end)
         (lift (ensurePermissionRows (migration o "sys_permissions") codeOf (scenariosOf r) scenarios r)))).

Definition RegisterModel (o : Options) (m : AdminModel App) (override : option MenuSpec) (scenarios : option (list string)) : M :=
  if negb (oRouter o) then failWith ErrHTTPRequired
  else if negb (oDB o) then failWith ErrDBRequired
  else registerModel o m override scenarios.

(** [lookupModel]. *)
Definition lookupModel (s : Srv) (module table : string) : option (AdminModel App) := svIndex s !! (module +:+ "/" +:+ table).

(** ** setup_converge.go *)

Definition backfill (row : SchemaRow) (db : DB) : DB * option error :=
  if strIn ScenarioCreate (scRequired row) then (db, None)
  else wrapErr "update role_key schema metadata"
         (Update (fun s => Z.eqb (scID s) (scID row)) (withRequired (scRequired row ++ [ScenarioCreate])) db).

Definition syncRoleKeyCreateRule : M := fun s =>
  match Find isRoleKeyColumn (svDB s) with
  | Err e => (s, Some (wrapf "load role_key schema metadata" e))
  | Ok rows =>
      bindM (lift (forEach backfill rows))
        (whenM (existsb (fun r => negb (strIn ScenarioCreate (scRequired r))) rows)
           (step (fun s => mkServer (svDB s) (svIndex s) (svCallbacks s) (svRoutes s)
                             (svInvalidated s ++ [("system", "sys_users")]) (svWarnings s)))) s
  end.

(** [db.Unscoped().Delete(&row)]: the row goes (its primary key stands for it), and the
    model's hook runs in gorm's transaction. *)
Definition isRow (row m : Menu) : bool := bool_decide (m = row).
Definition deleteMenu (row : Menu) (db : DB) : DB * option error :=
  Transaction (fun db => thenDo (DeleteAll (isRow row) db) (MenuAfterDelete row)) db.

Definition tenantGrant (r : RolePermission) : bool :=
  String.eqb (rpType r) RolePermissionTypePermission && strIn (rpData r) tenantResourcePermissionData.

Definition removeTenantManagementArtifacts (db : DB) : DB * option error :=
  thenDo
    (match FirstAll (hasIdentity tenantManagementMenuIdentity) db with
     | Ok row => wrapErr "remove tenant management menu" (deleteMenu row db)
     | Err e => if Is e ErrRecordNotFound then (db, None) else (db, Some (wrapf "lookup tenant management menu" e))
     end) (fun db =>
  thenDo (if HasTable "sys_role_permissions" db then wrapErr "remove tenant resource grants" (DeleteAll tenantGrant db) else (db, None)) (fun db =>
  if HasTable "sys_permissions" db
  then wrapErr "remove tenant resource permissions" (DeleteAll (fun p => strIn (pData p) tenantResourcePermissionData) db)
  else (db, None))).

(** ** Setup *)

Definition migrateTables (o : Options) : M :=
  whenM (oAutoMigrate o)
    (bindM (lift (fun db => wrapErr "migrate schema meta table" (AutoMigrate "sys_schemas" db)))
           (lift (fun db => wrapErr "migrate tenant table" (AutoMigrate "sys_tenants" db)))).

Definition validateParents : M := fun s =>
  match validateMenuParentsRef (svDB s) with
  | Some e => warn e s
  | None => (s, None)
  end.

Definition wrapM (what : string) (m : M) : M := fun s => wrapErr what (m s).

Definition Setup (o : Options) : M :=
  if negb (oRouter o) then failWith ErrHTTPRequired
  else if negb (oDB o) then failWith ErrDBRequired
  else
    bindM (whenM (oMultiTenant o) (install CbTenantScope))
    (bindM (install CbSecurityGuards)
    (bindM (whenM (oAudit o) installAuditHooks)
    (bindM (migrateTables o)
    (bindM (forEach (fun m => RegisterModel o m None None) (getModels (oMultiTenant o)))
    (bindM syncRoleKeyCreateRule
    (bindM (whenM (negb (oMultiTenant o)) (lift removeTenantManagementArtifacts))
    (bindM validateParents
    (bindM (wrapM "register schema endpoint" (mount o "/schema/:module/:table"))
    (bindM (wrapM "register model-types endpoint" (mount o "/rest/model-types/:module/:table"))
    (bindM (wrapM "register model-tiers endpoint" (mount o "/rest/model-tiers/:module/:table"))
    (bindM (wrapM "register dashboard endpoint" (mount o "/dashboard/overview"))
           (lift (fun db => wrapErr "register endpoint permissions"
                              (ensureEndpointPermissions (migration o "sys_permissions") db)))))))))))))).

(** ** What a start leaves behind *)

Context `{!GormHardLaws DB Menu} `{!GormHardLaws DB Permission} `{!GormHardLaws DB RolePermission}.
Context `{!GormFrameAll DB Permission Menu} `{!GormFrameAll DB RolePermission Menu} `{!GormFrameAll DB SchemaRow Menu}.
Context `{!GormFrameAll DB Menu Permission} `{!GormFrameAll DB RolePermission Permission} `{!GormFrameAll DB SchemaRow Permission}.
Context `{!GormFrameAll DB Permission RolePermission}.
Context `{!GormHardFrame DB Permission Menu} `{!GormHardFrame DB RolePermission Menu}.
Context `{!GormHardFrame DB Menu Permission} `{!GormHardFrame DB RolePermission Permission} `{!GormHardFrame DB Permission RolePermission}.

(** DDL, and building a resource, change no row of the catalogs. *)
Definition ddl (f : DB -> DB * option error) : Prop :=
  forall db, allRows (R := Menu) (fst (f db)) = allRows db /\ allRows (R := Permission) (fst (f db)) = allRows db
             /\ allRows (R := RolePermission) (fst (f db)) = allRows db.
Hypothesis AutoMigrate_ddl : forall t, ddl (AutoMigrate t).
Hypothesis NewResource_ddl : forall m c, ddl (NewResource m c).

(** The entries single-tenant mode cleans away. *)
Definition keptComponent (o : Options) (c : string) : Prop :=
  oMultiTenant o = true \/ c <> idComponent tenantManagementMenuIdentity.
Definition keptData (o : Options) (d : string) : Prop := oMultiTenant o = true \/ ~ In d tenantResourcePermissionData.

(** Entries of the catalogs stay, soft-deleted ones included. *)
Definition kept (o : Options) (db db' : DB) : Prop :=
  (forall c, keptComponent o c -> present (hasComponent c) db -> present (hasComponent c) db')
  /\ (forall d, keptData o d -> present (hasData d) db -> present (hasData d) db').

(** No entry of the tenant resource is left, soft-deleted ones included. *)
Definition tenantPermissionsGone (db : DB) : Prop :=
  (forall p, In p (allRows (R := Permission) db) -> ~ In (pData p) tenantResourcePermissionData)
  /\ (forall r, In r (allRows (R := RolePermission) db) -> tenantGrant r = false).

Lemma kept_refl (o : Options) (db : DB) : kept o db db.
Proof. split; auto. Qed.
Lemma kept_trans (o : Options) (a b c : DB) : kept o a b -> kept o b c -> kept o a c.
Proof. intros [Hx1 Hx2] [Hx3 Hx4]. split; eauto. Qed.
Lemma kept_same (o : Options) (db db' : DB) :
  allRows (R := Menu) db' = allRows db -> allRows (R := Permission) db' = allRows db -> kept o db db'.
Proof. intros Hm Hp. split; intros x _ (r & Hr & Hw); exists r; (split; [congruence|done]). Qed.
Lemma kept_ddl (o : Options) (f : DB -> DB * option error) (db db' : DB) (e : option error) :
  ddl f -> f db = (db', e) -> kept o db db'.
Proof. intros Hf He. destruct (Hf db) as (Hm & Hp & _). rewrite He in Hm, Hp. by apply kept_same. Qed.

Lemma wrapErr_ok {T : Type} (what : string) (r : T * option error) (x : T) : wrapErr what r = (x, None) -> r = (x, None).
Proof. by destruct r as [y [e|]]. Qed.

Lemma lift_ok (f : DB -> DB * option error) (s s' : Srv) : lift f s = (s', None) -> f (svDB s) = (svDB s', None).
Proof. unfold lift. destruct (f (svDB s)) as [db e] eqn:E. by intros [= <- ->]. Qed.

(** ** Registering a model *)

Lemma ensureMenuRow_ok (o : Options) (spec : MenuSpec) (db db' : DB) :
  ensureMenuRow spec db = (db', None) ->
  kept o db db' /\ (msComponent spec <> EmptyString -> msName spec <> EmptyString -> present (hasComponent (msComponent spec)) db').
Proof.
  unfold ensureMenuRow. intros He.
  destruct (String.eqb_spec (msComponent spec) EmptyString) as [Hc|Hc]; [injection He as <-; split; [apply kept_refl|done]|].
  destruct (String.eqb_spec (msName spec) EmptyString) as [Hn|Hn]; [injection He as <-; split; [apply kept_refl|done]|].
  cbn [orb] in He. assert (allRows (R := Permission) db' = allRows db) as Hp.
  { unfold ensure in He. destruct (FirstAll _ db); [by injection He as <-|]. destruct (Is _ _); [|done]. cbn [negb] in He.
    destruct (Create [menuRow spec] db) as [db1 [e'|]] eqn:Ec; [done|]. injection He as <-.
    by rewrite <- (Create_frame_all (R := Menu) (R' := Permission) [menuRow spec] db), Ec. }
  apply ensure_ok in He as (Hpr & Hg & _); [|apply String.eqb_refl]. split; [|done]. split.
  - intros c _. by apply grows_present.
  - intros d _ (r & Hr & Hw). exists r. by rewrite Hp.
Qed.

(** A new group changes no permission's data. *)
Lemma Update_hasData (w : Permission -> bool) (g d : string) (db db' : DB) :
  Update w (withGroup g) db = (db', None) -> present (hasData d) db -> present (hasData d) db'.
Proof.
  intros Hu%Update_all (r & Hr & Hw). apply (list_elem_of_In _ r), list_elem_of_lookup in Hr as [i Hi].
  destruct (Forall2_lookup_l _ _ _ _ _ Hu Hi) as (r' & Hi' & Hor). exists r'. split.
  - apply list_elem_of_In. by eapply list_elem_of_lookup_2.
  - by destruct Hor as [-> | ->].
Qed.

Lemma ensureScenario_ok (o : Options) (code : string * string * string) (db db' : DB) :
  ensureScenario code db = (db', None) ->
  kept o db db' /\ (fst (fst code) <> EmptyString -> present (hasData (fst (fst code))) db').
Proof.
  destruct code as [[data description] group]. unfold ensureScenario. cbn [fst]. intros He.
  destruct (String.eqb_spec data EmptyString) as [E|E]; [injection He as <-; split; [apply kept_refl|done]|].
  destruct (FirstAll (hasData data) db) as [existing|e] eqn:Ef.
  - apply FirstAll_Ok in Ef. destruct (_ && _); [|injection He as <-; split; [apply kept_refl|done]].
    apply wrapErr_ok in He. pose proof (Update_frame_all (R := Permission) (R' := Menu) (samePermission existing) (withGroup group) db) as Hm.
    rewrite He in Hm. split; [|intros _; by eapply Update_hasData]. split; [|intros d _; by eapply Update_hasData].
    intros c _ (r & Hr & Hw). exists r. cbn in Hm. by rewrite Hm.
  - destruct (Is e ErrRecordNotFound); [|done]. cbn [negb] in He. apply wrapErr_ok in He.
    pose proof (Create_frame_all (R := Permission) (R' := Menu) [permissionRow PermissionTypeAPI data description group] db) as Hm.
    rewrite He in Hm. apply Create_all in He. split; [split|].
    + intros c _ (r & Hr & Hw). exists r. cbn in Hm. by rewrite Hm.
    + intros d _ (r & Hr & Hw). exists r. rewrite He, in_app_iff. auto.
    + intros _. eexists. split; [rewrite He; apply in_app_iff; right; by left|]. apply String.eqb_refl.
Qed.

Lemma migrated_ok (o : Options) (t : string) (k : DB -> DB * option error) (db db' : DB) :
  migrated (migration o t) k db = (db', None) ->
  exists db1, kept o db db1 /\ (tenantPermissionsGone db -> tenantPermissionsGone db1) /\ k db1 = (db', None).
Proof.
  unfold migrated, migration. destruct (oAutoMigrate o); [|intros Hk; exists db; split; [apply kept_refl|done]].
  intros (db1 & Hm%wrapErr_ok & Hk)%thenDo_ok. exists db1. split; [by eapply kept_ddl|]. split; [|done].
  destruct (AutoMigrate_ddl t db) as (_ & Hp & Hr). rewrite Hm in Hp, Hr. cbn [fst] in *.
  unfold tenantPermissionsGone. by rewrite Hp, Hr.
Qed.

Lemma scenarios_ok (o : Options) (code : string -> string * string * string) (l : list string) (db db' : DB) :
  forEach (fun sc => ensureScenario (code sc)) l db = (db', None) ->
  kept o db db' /\ (forall sc, In sc l -> fst (fst (code sc)) <> EmptyString -> keptData o (fst (fst (code sc))) ->
                    present (hasData (fst (fst (code sc)))) db').
Proof.
  apply (forEach_ind (fun sc => ensureScenario (code sc)) (fun seen d => kept o db d
     /\ forall sc, In sc seen -> fst (fst (code sc)) <> EmptyString -> keptData o (fst (fst (code sc))) ->
                    present (hasData (fst (fst (code sc)))) d)); [|split; [apply kept_refl|done]].
  intros seen x d d' [Hk Hall] [Hk' Hx]%(ensureScenario_ok o). split; [by eapply kept_trans|].
  intros sc Hin Hne Hkd. apply in_app_iff in Hin as [Hin|[<-|[]]]; [|auto]. apply Hk'; auto.
Qed.

(** What registering a model promises. *)
Definition registered (o : Options) (m : AdminModel App) (override : option MenuSpec) (scenarios : option (list string)) (s : Srv) : Prop :=
  let r := resourceOf m in
  (forall spec, menuSpecFor override r = Some spec -> msComponent spec <> EmptyString -> msName spec <> EmptyString ->
     keptComponent o (msComponent spec) -> present (hasComponent (msComponent spec)) (svDB s))
  /\ (resModule r <> EmptyString -> resTable r <> EmptyString ->
      forall sc, In sc (default (scenariosOf r) scenarios) -> let data := fst (fst (codeOf r sc)) in
        data <> EmptyString -> keptData o data -> present (hasData data) (svDB s)).

Lemma registerMenu_ok (o : Options) (m : AdminModel App) (spec : MenuSpec) (s s' : Srv) :
  registerMenu o m spec s = (s', None) ->
  kept o (svDB s) (svDB s')
  /\ (msComponent spec <> EmptyString -> msName spec <> EmptyString -> present (hasComponent (msComponent spec)) (svDB s')).
Proof.
  intros (s1 & Hm & He%lift_ok%wrapErr_ok)%thenDo_ok. apply (ensureMenuRow_ok o) in He as [Hk Hp]. split; [|done].
  eapply kept_trans; [|exact Hk]. unfold whenM in Hm. destruct (oAutoMigrate o); [|injection Hm as <-; apply kept_refl].
  apply lift_ok, wrapErr_ok in Hm. by eapply kept_ddl.
Qed.

Lemma registerModel_ok (o : Options) (m : AdminModel App) (override : option MenuSpec) (scenarios : option (list string)) (s s' : Srv) :
  registerModel o m override scenarios s = (s', None) -> kept o (svDB s) (svDB s') /\ registered o m override scenarios s'.
Proof.
  unfold registerModel. set (r := resourceOf m).
  intros (s1 & Hnew%lift_ok & (s2 & Hidx & (s3 & Hmenu & Hperm%lift_ok)%thenDo_ok)%thenDo_ok)%thenDo_ok.
  assert (kept o (svDB s) (svDB s2)) as Hk2.
  { replace (svDB s2) with (svDB s1); [exact (kept_ddl _ _ _ _ _ (NewResource_ddl _ _) Hnew)|]. unfold whenM in Hidx. destruct (_ && _); by injection Hidx as <-. }
  assert (kept o (svDB s2) (svDB s3) /\ forall spec, menuSpecFor override r = Some spec ->
            msComponent spec <> EmptyString -> msName spec <> EmptyString -> present (hasComponent (msComponent spec)) (svDB s3)) as [Hk3 Hm3].
  { destruct (menuSpecFor override r) as [spec|]; [|injection Hmenu as <-; split; [apply kept_refl|done]].
    apply registerMenu_ok in Hmenu as [Hk Hp]. split; [done|]. by intros ? [= <-]. }
  apply migrated_ok in Hperm as (db4 & Hk4 & _ & Hperm).
  assert (kept o db4 (svDB s') /\ (resModule r <> EmptyString -> resTable r <> EmptyString ->
            forall sc, In sc (default (scenariosOf r) scenarios) -> fst (fst (codeOf r sc)) <> EmptyString ->
              keptData o (fst (fst (codeOf r sc))) -> present (hasData (fst (fst (codeOf r sc)))) (svDB s'))) as [Hk5 Hp5].
  { destruct (String.eqb_spec (resModule r) EmptyString) as [E|E]; [injection Hperm as <-; split; [apply kept_refl|done]|].
    destruct (String.eqb_spec (resTable r) EmptyString) as [E'|E']; [injection Hperm as <-; split; [apply kept_refl|done]|].
    apply (scenarios_ok o) in Hperm as [Hk Hp]. by split. }
  pose proof (kept_trans _ _ _ _ Hk4 Hk5) as Hk45. split; [eauto using kept_trans|]. split; [|exact Hp5].
  intros spec Hs Hc Hn Hkc. apply Hk45; [done|]. by apply Hm3.
Qed.

Lemma registered_kept (o : Options) (m : AdminModel App) override scenarios (s s' : Srv) :
  kept o (svDB s) (svDB s') -> registered o m override scenarios s -> registered o m override scenarios s'.
Proof. intros [Hm Hp] [Hrm Hrp]. split; eauto. Qed.

Lemma registerAll_ok (o : Options) (l : list (AdminModel App)) (s s' : Srv) :
  forEach (fun m => RegisterModel o m None None) l s = (s', None) ->
  kept o (svDB s) (svDB s') /\ (forall m, In m l -> registered o m None None s').
Proof.
  apply (forEach_ind (fun m => RegisterModel o m None None) (fun seen s1 => kept o (svDB s) (svDB s1)
           /\ forall m, In m seen -> registered o m None None s1)); [|split; [apply kept_refl|done]].
  intros seen x s1 s2 [Hk Hall] Hx. unfold RegisterModel in Hx.
  destruct (negb (oRouter o)); [done|]. destruct (negb (oDB o)); [done|]. apply registerModel_ok in Hx as [Hk' Hreg].
  split; [by eapply kept_trans|]. intros m Hin. apply in_app_iff in Hin as [Hin|[<-|[]]]; [|done].
  eapply registered_kept; eauto.
Qed.

(** ** The converge steps *)

Definition filled (row : SchemaRow) : SchemaRow :=
  if strIn ScenarioCreate (scRequired row) then row else withRequired (scRequired row ++ [ScenarioCreate]) row.

(** The flag reaches every row of the column, clones included; the scenarios an
    operator added stay; other rows are as they were. *)
Lemma backfill_spec (db db' : DB) :
  NoDup (map scID (rows (R := SchemaRow) db)) ->
  forEach backfill (List.filter isRoleKeyColumn (rows db)) db = (db', None) ->
  rows db' = map (fun r => if isRoleKeyColumn r then filled r else r) (rows db).
Proof.
  intros Hnd Hall.
  assert (forall x r, In x (rows db) -> In r (rows db) -> scID r = scID x -> r = x) as Hid.
  { intros x r [i Hi]%list_elem_of_In%list_elem_of_lookup [j Hj]%list_elem_of_In%list_elem_of_lookup Heq.
    assert (i = j) as ->; [|congruence]. eapply (NoDup_lookup _ i j (scID x)); [exact Hnd|..];
      rewrite list_lookup_fmap; [by rewrite Hi|rewrite Hj; cbn; by rewrite Heq]. }
  assert (forall x b, In x (rows db) -> filled (if b : bool then filled x else x) = filled x) as Hff.
  { intros x b _. unfold filled. destruct (strIn ScenarioCreate (scRequired x)) eqn:E; [by destruct b; rewrite ?E|].
    destruct b; [|by rewrite E]. unfold withRequired. cbn [scRequired]. assert (strIn ScenarioCreate (scRequired x ++ [ScenarioCreate]) = true) as ->; [|done].
    apply strIn_spec, in_app_iff. right. by left. }
  set (F := fun seen r => if existsb (fun x => Z.eqb (scID r) (scID x)) seen then filled r else r).
  assert (forall seen r, scID (F seen r) = scID r) as HidF.
  { intros seen r. unfold F, filled. destruct (existsb _ seen); [|done]. by destruct (strIn ScenarioCreate (scRequired r)). }
  apply (forEach_ind backfill (fun seen d => (forall x, In x seen -> In x (rows db)) -> rows d = map (F seen) (rows db))) in Hall.
  - rewrite Hall. apply map_ext_in. intros r Hr. unfold F.
    destruct (isRoleKeyColumn r) eqn:Ek.
    + rewrite (proj2 (existsb_exists _ _)); [done|]. exists r. split; [by apply List.filter_In|apply Z.eqb_refl].
    + destruct (existsb _ _) eqn:E; [|done]. apply existsb_exists in E as (x & [Hx Hkx]%List.filter_In & Heq%Z.eqb_eq).
      specialize (Hid x r Hx Hr Heq). congruence.
  - clear Hall. intros seen x d d' IH Hx Hin. assert (In x (rows db)) as Hxin by (apply Hin, in_app_iff; right; by left).
    specialize (IH (fun y Hy => Hin y (proj2 (in_app_iff _ _ _) (or_introl Hy)))).
    assert (rows d' = map (fun r => if Z.eqb (scID r) (scID x) then filled r else r) (rows d)) as ->.
    { unfold backfill in Hx. destruct (strIn ScenarioCreate (scRequired x)) eqn:E.
      - injection Hx as <-. rewrite IH, map_map. apply map_ext_in. intros r Hr. rewrite HidF.
        destruct (Z.eqb_spec (scID r) (scID x)) as [Heq|_]; [|done]. rewrite (Hid x r Hxin Hr Heq).
        assert (F seen x = x) as -> by (unfold F, filled; rewrite E; by destruct (existsb _ _)). unfold filled. by rewrite E.
      - apply wrapErr_ok, Update_ok in Hx. rewrite Hx, IH. unfold updateRows. rewrite !map_map. apply map_ext_in. intros r Hr.
        rewrite HidF. destruct (Z.eqb_spec (scID r) (scID x)) as [Heq|_]; [|done]. rewrite (Hid x r Hxin Hr Heq).
        unfold F. rewrite Hff by done. unfold filled. rewrite E. by destruct (existsb _ _). }
    rewrite IH, map_map. apply map_ext_in. intros r Hr. rewrite HidF. unfold F. rewrite existsb_app. cbn [existsb]. rewrite orb_false_r.
    destruct (Z.eqb_spec (scID r) (scID x)); [by rewrite orb_true_r, Hff|by rewrite orb_false_r].
  - intros _. rewrite <- (map_id (rows db)) at 1. done.
  - by intros x [? _]%List.filter_In.
Qed.

Lemma sync_kept (o : Options) (s s' : Srv) : syncRoleKeyCreateRule s = (s', None) -> kept o (svDB s) (svDB s').
Proof.
  unfold syncRoleKeyCreateRule. destruct (Find _ _) as [l|]; [|done].
  intros (s1 & Hall%lift_ok & Hw)%thenDo_ok. replace (svDB s') with (svDB s1) by (unfold whenM in Hw; destruct (existsb _ _); by injection Hw as <-).
  revert Hall. apply (forEach_ind backfill (fun _ d => kept o (svDB s) d)); [|apply kept_refl].
  intros _ x d d' Hk Hx. eapply kept_trans; [exact Hk|]. unfold backfill in Hx.
  destruct (strIn _ _); [injection Hx as <-; apply kept_refl|]. apply wrapErr_ok in Hx.
  set (f := withRequired _) in Hx. set (w := fun s : SchemaRow => _) in Hx.
  pose proof (Update_frame_all (R' := Menu) w f d) as Hm. pose proof (Update_frame_all (R' := Permission) w f d) as Hp.
  rewrite Hx in Hm, Hp. by apply kept_same.
Qed.

(** ** Single-tenant clean-up *)

Lemma present_keepRows {R : Type} (w v : R -> bool) (l : list R) :
  (forall r, w r = true -> v r = false) -> (exists r, In r l /\ v r = true) -> exists r, In r (keepRows w l) /\ v r = true.
Proof.
  intros Hwv (r & Hr & Hv). exists r. split; [|done]. apply List.filter_In. split; [done|].
  destruct (w r) eqn:E; [by rewrite (Hwv r E) in Hv|done].
Qed.

Lemma deleteMenu_kept (o : Options) (row : Menu) (db db' : DB) :
  oMultiTenant o = false -> hasIdentity tenantManagementMenuIdentity row = true ->
  deleteMenu row db = (db', None) -> kept o db db'.
Proof.
  intros Hm Hi Hd. unfold deleteMenu in Hd.
  destruct (Transaction_atomic (fun db => thenDo (DeleteAll (isRow row) db) (MenuAfterDelete row)) db) as [(db0 & Hok & Ht)|(e & _ & Ht)];
    rewrite Ht in Hd; [|done]. injection Hd as <-. apply thenDo_ok in Hok as (db1 & Hdel & Hpurge).
  pose proof (DeleteAll_frame_all (R := Menu) (R' := Permission) (isRow row) db) as Hp. rewrite Hdel in Hp. apply DeleteAll_ok in Hdel as [Hdel _].
  unfold MenuAfterDelete, purgeRolePermissions in Hpurge. set (w := fun r : RolePermission => _) in Hpurge.
  pose proof (DeleteRows_frame_all (R' := Menu) w db1) as Hm1. pose proof (DeleteRows_frame_all (R' := Permission) w db1) as Hp1.
  rewrite Hpurge in Hm1, Hp1. cbn [fst] in *. split.
  - intros c [Hc|Hc] Hpr; [congruence|]. unfold present. rewrite Hm1, Hdel. apply present_keepRows; [|done].
    intros m ->%bool_decide_eq_true. apply not_true_iff_false. intros Hrow%String.eqb_eq. apply Hc. rewrite <- Hrow.
    unfold hasIdentity in Hi. rewrite !andb_true_iff, !String.eqb_eq in Hi. tauto.
  - intros d _ (r & Hr & Hw). exists r. split; [congruence|done].
Qed.

Lemma remove_ok (o : Options) (db db' : DB) :
  oMultiTenant o = false -> removeTenantManagementArtifacts db = (db', None) ->
  kept o db db' /\ ((forall t d, HasTable t d = true) -> tenantPermissionsGone db').
Proof.
  intros Hmt (db1 & Hmenu & (db2 & Hgrants & Hperms)%thenDo_ok)%thenDo_ok.
  assert (kept o db db1) as Hk1.
  { destruct (FirstAll _ db) as [row|e] eqn:Ef.
    - apply wrapErr_ok in Hmenu. eapply deleteMenu_kept; [done| |exact Hmenu]. unfold FirstAll in Ef.
      destruct (FindAll _ db) as [l|] eqn:El; [|done]. apply FindAll_ok in El. destruct l as [|x l]; [done|]. injection Ef as ->.
      assert (In row (row :: l)) as Hin by (by left). rewrite El in Hin. by apply List.filter_In in Hin as [_ ?].
    - destruct (Is e _); [|done]. injection Hmenu as <-. apply kept_refl. }
  assert (kept o db1 db2 /\ ((forall t d, HasTable t d = true) -> forall r, In r (allRows (R := RolePermission) db2) -> tenantGrant r = false)) as [Hk2 Hg2].
  { destruct (HasTable _ db1) eqn:Et; [|injection Hgrants as <-; split; [apply kept_refl|intros Ht; by rewrite Ht in Et]].
    apply wrapErr_ok in Hgrants.
    pose proof (DeleteAll_frame_all (R' := Menu) tenantGrant db1) as Hm. pose proof (DeleteAll_frame_all (R' := Permission) tenantGrant db1) as Hp.
    rewrite Hgrants in Hm, Hp. apply DeleteAll_ok in Hgrants as [Hdel _]. split; [by apply kept_same|].
    intros _ r Hr. rewrite Hdel in Hr. apply List.filter_In in Hr as [_ Hr]. by apply negb_true_iff in Hr. }
  set (w := fun p : Permission => strIn (pData p) tenantResourcePermissionData) in *.
  destruct (HasTable _ db2) eqn:Et.
  - apply wrapErr_ok in Hperms.
    pose proof (DeleteAll_frame_all (R' := Menu) w db2) as Hm. pose proof (DeleteAll_frame_all (R' := RolePermission) w db2) as Hr2.
    rewrite Hperms in Hm, Hr2. apply DeleteAll_ok in Hperms as [Hdel _]. cbn [fst] in *. split.
    + do 2 (eapply kept_trans; [eassumption|]). split.
      * intros c _ (r & Hr & Hw). exists r. split; [congruence|done].
      * intros d [Hd|Hd] Hpr; [congruence|]. unfold present. rewrite Hdel. apply present_keepRows; [|done].
        intros p Hp%strIn_spec. apply not_true_iff_false. unfold hasData. intros Heq%String.eqb_eq. by rewrite Heq in Hp.
    + intros Ht. split; [|intros r Hr; apply Hg2; [done|congruence]].
      intros p Hp. rewrite Hdel in Hp. apply List.filter_In in Hp as [_ Hp%negb_true_iff].
      apply not_true_iff_false in Hp. unfold w in Hp. by rewrite strIn_spec in Hp.
  - injection Hperms as <-. split; [by eapply kept_trans|]. intros Ht. by rewrite Ht in Et.
Qed.

(** ** The menu of the tenant resource *)

(** The rows the clean-up looks for, soft-deleted ones included. *)
Definition tenantMenus (db : DB) : list Menu := List.filter (hasIdentity tenantManagementMenuIdentity) (allRows db).
Definition sameMenus (db db' : DB) : Prop := allRows (R := Menu) db' = allRows db.

Lemma forEach_menus {A : Type} (f : A -> DB -> DB * option error) (l : list A) (db db' : DB) :
  (forall x d d', f x d = (d', None) -> sameMenus d d') -> forEach f l db = (db', None) -> sameMenus db db'.
Proof.
  intros Hf. apply (forEach_ind f (fun _ d => sameMenus db d)); [|done].
  intros _ x d d' Hd Hx. etransitivity; [by eapply Hf|done].
Qed.

Lemma ensure_menus (w : Permission -> bool) (row : Permission) (onLookup onCreate : error -> error) (db db' : DB) :
  ensure w row onLookup onCreate db = (db', None) -> sameMenus db db'.
Proof.
  unfold ensure. destruct (FirstAll w db); [by intros [= <-]|]. destruct (negb _); [done|].
  pose proof (Create_frame_all (R := Permission) (R' := Menu) [row] db) as Hm.
  destruct (Create [row] db) as [db1 [er|]]; [done|]. by intros [= <-].
Qed.

Lemma ensureScenario_menus (code : string * string * string) (db db' : DB) :
  ensureScenario code db = (db', None) -> sameMenus db db'.
Proof.
  destruct code as [[data description] group]. unfold ensureScenario. destruct (String.eqb data EmptyString); [by intros [= <-]|].
  destruct (FirstAll (hasData data) db) as [x|e].
  - destruct (_ && _); [|by intros [= <-]]. intros Hu%wrapErr_ok.
    pose proof (Update_frame_all (R := Permission) (R' := Menu) (samePermission x) (withGroup group) db) as Hm. by rewrite Hu in Hm.
  - destruct (negb _); [done|]. intros Hc%wrapErr_ok.
    pose proof (Create_frame_all (R := Permission) (R' := Menu) [permissionRow PermissionTypeAPI data description group] db) as Hm.
    by rewrite Hc in Hm.
Qed.

Lemma migrated_menus (o : Options) (t : string) (k : DB -> DB * option error) (db db' : DB) :
  (forall d d', k d = (d', None) -> sameMenus d d') -> migrated (migration o t) k db = (db', None) -> sameMenus db db'.
Proof.
  intros Hk. unfold migrated, migration. destruct (oAutoMigrate o); [|auto].
  intros (db1 & Hm%wrapErr_ok & He)%thenDo_ok. destruct (AutoMigrate_ddl t db) as (Heq & _). rewrite Hm in Heq.
  etransitivity; [by eapply Hk|done].
Qed.

Lemma endpoints_menus (o : Options) (db db' : DB) :
  ensureEndpointPermissions (migration o "sys_permissions") db = (db', None) -> sameMenus db db'.
Proof.
  apply migrated_menus. intros d d'. apply forEach_menus. intros [[data description] group] e e'. apply ensure_menus.
Qed.

Lemma ensureMenuRow_tenant (spec : MenuSpec) (db db' : DB) :
  msName spec <> idName tenantManagementMenuIdentity -> ensureMenuRow spec db = (db', None) -> tenantMenus db' = tenantMenus db.
Proof.
  intros Hn. unfold ensureMenuRow, ensure. destruct (_ || _); [by intros [= <-]|]. destruct (FirstAll _ db); [by intros [= <-]|].
  destruct (negb _); [done|]. destruct (Create [menuRow spec] db) as [db1 [er|]] eqn:Ec; [done|]. intros [= <-].
  apply Create_all in Ec. unfold tenantMenus. rewrite Ec, List.filter_app. cbn [List.filter].
  assert (hasIdentity tenantManagementMenuIdentity (menuRow spec) = false) as ->; [|by rewrite app_nil_r].
  apply not_true_iff_false. unfold hasIdentity. rewrite !andb_true_iff, !String.eqb_eq. intros [[[[_ He] _] _] _]. by apply Hn.
Qed.

(** No model of single-tenant mode makes, or takes, a menu of the tenant resource. *)
Lemma registerModel_tenant (o : Options) (m : AdminModel App) (s s' : Srv) :
  In m (getModels false) -> RegisterModel o m None None s = (s', None) -> tenantMenus (svDB s') = tenantMenus (svDB s).
Proof.
  intros Hin. unfold RegisterModel. destruct (negb (oRouter o)); [done|]. destruct (negb (oDB o)); [done|]. unfold registerModel.
  set (r := resourceOf m).
  intros (s1 & Hnew%lift_ok & (s2 & Hidx & (s3 & Hmenu & Hperm%lift_ok)%thenDo_ok)%thenDo_ok)%thenDo_ok.
  assert (svDB s2 = svDB s1) as E2 by (unfold whenM in Hidx; destruct (_ && _); by injection Hidx as <-).
  assert (sameMenus (svDB s) (svDB s1)) as E1.
  { destruct (NewResource_ddl m (resourceConfig o m) (svDB s)) as (Heq & _). by rewrite Hnew in Heq. }
  assert (sameMenus (svDB s3) (svDB s')) as E4.
  { revert Hperm. apply migrated_menus. intros d d'. destruct (_ || _); [by intros [= <-]|]. apply forEach_menus. intros x e e'. apply ensureScenario_menus. }
  assert (tenantMenus (svDB s3) = tenantMenus (svDB s2)) as E3.
  { destruct (menuSpecFor None r) as [spec|] eqn:Es; [|by injection Hmenu as <-].
    assert (msName spec <> idName tenantManagementMenuIdentity) as Hn.
    { cbn in Hin. repeat (destruct Hin as [<-|Hin]; [by injection Es as <-|]). done. }
    revert Hmenu. intros (s4 & Hm & He%lift_ok%wrapErr_ok)%thenDo_ok. apply ensureMenuRow_tenant in He; [|done]. rewrite He.
    unfold whenM in Hm. destruct (oAutoMigrate o); [|by injection Hm as <-]. apply lift_ok, wrapErr_ok in Hm.
    destruct (AutoMigrate_ddl "sys_menus" (svDB s2)) as (Heq & _). rewrite Hm in Heq. unfold tenantMenus. by rewrite <- Heq. }
  unfold tenantMenus, sameMenus in *. by rewrite E4, E3, E2, E1.
Qed.

Lemma registerAll_tenant (o : Options) (s s' : Srv) :
  forEach (fun m => RegisterModel o m None None) (getModels false) s = (s', None) -> tenantMenus (svDB s') = tenantMenus (svDB s).
Proof.
  intros Hall. assert (incl (getModels false) (getModels (App := App) false) -> tenantMenus (svDB s') = tenantMenus (svDB s)) as Hi; [|apply Hi; intros m Hm; exact Hm].
  revert Hall. apply (forEach_ind (fun m => RegisterModel o m None None)
    (fun seen s1 => incl seen (getModels false) -> tenantMenus (svDB s1) = tenantMenus (svDB s))); [|done].
  intros seen x s1 s2 IH Hx Hi. rewrite <- IH; [|intros y Hy; apply Hi, in_app_iff; by left].
  eapply registerModel_tenant; [|exact Hx]. apply Hi, in_app_iff. right. by left.
Qed.

Lemma sync_menus (s s' : Srv) : syncRoleKeyCreateRule s = (s', None) -> sameMenus (svDB s) (svDB s').
Proof.
  unfold syncRoleKeyCreateRule. destruct (Find _ _) as [l|]; [|done].
  intros (s1 & Hall%lift_ok & Hw)%thenDo_ok. replace (svDB s') with (svDB s1) by (unfold whenM in Hw; destruct (existsb _ _); by injection Hw as <-).
  revert Hall. apply forEach_menus. intros x d d'. unfold backfill. destruct (strIn _ _); [by intros [= <-]|].
  set (f := withRequired _). set (w := fun s : SchemaRow => _). intros Hx%wrapErr_ok.
  pose proof (Update_frame_all (R' := Menu) w f d) as Hm. by rewrite Hx in Hm.
Qed.

Lemma deleteMenu_menus (row : Menu) (db db' : DB) : deleteMenu row db = (db', None) -> allRows db' = keepRows (isRow row) (allRows db).
Proof.
  unfold deleteMenu. intros Hd.
  destruct (Transaction_atomic (fun db => thenDo (DeleteAll (isRow row) db) (MenuAfterDelete row)) db) as [(db0 & Hok & Ht)|(e & _ & Ht)];
    rewrite Ht in Hd; [|done]. injection Hd as <-. apply thenDo_ok in Hok as (db1 & [Hdel _]%DeleteAll_ok & Hpurge).
  unfold MenuAfterDelete, purgeRolePermissions in Hpurge. set (w := fun r : RolePermission => _) in Hpurge.
  pose proof (DeleteRows_frame_all (R' := Menu) w db1) as Hm. rewrite Hpurge in Hm. cbn [fst] in Hm. by rewrite Hm.
Qed.

(** The clean-up deletes the first of them: none is left where there was one. *)
Lemma remove_menu (db db' : DB) :
  removeTenantManagementArtifacts db = (db', None) -> (length (tenantMenus db) <= 1)%nat -> tenantMenus db' = [].
Proof.
  intros (db1 & Hmenu & (db2 & Hgrants & Hperms)%thenDo_ok)%thenDo_ok Hone.
  assert (sameMenus db1 db2) as E2.
  { destruct (HasTable _ db1); [|by injection Hgrants as <-]. apply wrapErr_ok in Hgrants.
    pose proof (DeleteAll_frame_all (R' := Menu) tenantGrant db1) as Hm. by rewrite Hgrants in Hm. }
  assert (sameMenus db2 db') as E3.
  { destruct (HasTable _ db2); [|by injection Hperms as <-]. apply wrapErr_ok in Hperms.
    set (w := fun p : Permission => _) in Hperms. pose proof (DeleteAll_frame_all (R' := Menu) w db2) as Hm. by rewrite Hperms in Hm. }
  assert (tenantMenus db1 = []) as E1; [|unfold tenantMenus, sameMenus in *; by rewrite E3, E2].
  unfold FirstAll in Hmenu. destruct (FindAll _ db) as [l|e] eqn:El.
  - apply FindAll_ok in El. fold (tenantMenus db) in El. subst l.
    destruct (tenantMenus db) as [|row [|? ?]] eqn:Em; [by injection Hmenu as <-| |cbn in Hone; lia].
    apply wrapErr_ok, deleteMenu_menus in Hmenu. unfold tenantMenus. rewrite Hmenu. destruct (List.filter _ (keepRows _ _)) as [|m l] eqn:Ef; [done|]. exfalso.
    assert (In m (m :: l)) as Hm by (by left). rewrite <- Ef in Hm. apply List.filter_In in Hm as [[Hm Hk]%List.filter_In Hid].
    assert (In m (tenantMenus db)) as Hin by (by apply List.filter_In). rewrite Em in Hin. destruct Hin as [<-|[]].
    unfold isRow in Hk. by rewrite bool_decide_eq_true_2 in Hk.
  - apply FindAll_err in El. by rewrite El in Hmenu.
Qed.

(** ** The catalog of the built-in routes *)

Lemma ensureEndpoint_ok (o : Options) (code : string * string * string) (db db' : DB) :
  ensureEndpoint code db = (db', None) ->
  kept o db db' /\ present (hasData (fst (fst code))) db'
  /\ (~ In (fst (fst code)) tenantResourcePermissionData -> tenantPermissionsGone db -> tenantPermissionsGone db').
Proof.
  destruct code as [[data description] group]. cbn [fst]. unfold ensureEndpoint. set (row := permissionRow _ _ _ _). intros He.
  assert (db' = db \/ Create [row] db = (db', None)) as Hw.
  { unfold ensure in He. destruct (FirstAll _ db); [left; by injection He|]. destruct (Is _ _); [|done]. cbn [negb] in He.
    destruct (Create [row] db) as [db1 [er|]]; [done|]. right. by injection He as <-. }
  apply ensure_ok in He as (Hp & Hg & _); [|apply String.eqb_refl]. destruct Hw as [->|Hc]; [split; [apply kept_refl|done]|].
  pose proof (Create_frame_all (R := Permission) (R' := Menu) [row] db) as Hm.
  pose proof (Create_frame_all (R := Permission) (R' := RolePermission) [row] db) as Hr. rewrite Hc in Hm, Hr. apply Create_all in Hc.
  split; [split|split; [done|]].
  - intros c _ (r & Hin & Hw). exists r. cbn in Hm. by rewrite Hm.
  - intros d _. by apply grows_present.
  - intros Hn [Hgp Hgr]. split; [|intros r Hin; apply Hgr; cbn in Hr; by rewrite <- Hr].
    intros p Hin. rewrite Hc, in_app_iff in Hin. destruct Hin as [Hin|[<-|[]]]; [auto|done].
Qed.

Lemma endpoint_not_tenant (c : string * string * string) :
  In c endpointPermissionCodes -> ~ In (fst (fst c)) tenantResourcePermissionData.
Proof.
  intros Hin Ht. assert (existsb (fun c => strIn (fst (fst c)) tenantResourcePermissionData) endpointPermissionCodes = true) as Hx.
  { apply existsb_exists. exists c. split; [done|by apply strIn_spec]. }
  by vm_compute in Hx.
Qed.

Lemma endpoints_ok (o : Options) (db db' : DB) :
  ensureEndpointPermissions (migration o "sys_permissions") db = (db', None) ->
  kept o db db' /\ (forall c, In c endpointPermissionCodes -> present (hasData (fst (fst c))) db')
  /\ (tenantPermissionsGone db -> tenantPermissionsGone db').
Proof.
  intros (db1 & Hk & Hgone & He)%migrated_ok. unfold ensureEndpoints in He.
  apply (forEach_ind ensureEndpoint (fun seen d => (forall c, In c seen -> In c endpointPermissionCodes) ->
           kept o db d /\ (forall c, In c seen -> present (hasData (fst (fst c))) d)
           /\ (tenantPermissionsGone db -> tenantPermissionsGone d))) in He; [done| |split; [done|]; split; [by intros c []|auto]|done].
  intros seen x d d' IH (Hk' & Hp & Hg)%(ensureEndpoint_ok o) Hin.
  destruct IH as (Hk0 & Hall & Hg0); [intros c Hc; apply Hin, in_app_iff; by left|].
  split; [by eapply kept_trans|]. split.
  - intros c Hc. apply in_app_iff in Hc as [Hc|[<-|[]]]; [|done]. apply Hk'; [|auto]. right.
    apply endpoint_not_tenant, Hin, in_app_iff. by left.
  - intros Hdb. apply Hg; [|auto]. apply endpoint_not_tenant, Hin, in_app_iff. right. by left.
Qed.

(** ** The whole start *)

(** The steps before the models, and the mounting of an endpoint, keep the database. *)
Lemma step_same (f : Srv -> Srv) (b : bool) (s s' : Srv) :
  (forall s, svDB (f s) = svDB s) -> whenM b (step f) s = (s', None) -> svDB s' = svDB s.
Proof. intros Hf. unfold whenM, step. destruct b; intros [= <-]; auto. Qed.
Lemma mount_same (o : Options) (what path : string) (s s' : Srv) : wrapM what (mount o path) s = (s', None) -> svDB s' = svDB s.
Proof. intros Hm%wrapErr_ok. unfold mount in Hm. destruct (negb (oRouter o)); [done|]. destruct (negb (oDB o)); [done|]. by injection Hm as <-. Qed.
Lemma audit_same (b : bool) (s s' : Srv) : whenM b installAuditHooks s = (s', None) -> svDB s' = svDB s.
Proof. unfold whenM, installAuditHooks, install, step. destruct b; [destruct (existsb _ _)|]; by intros [= <-]. Qed.
Lemma validate_same (s s' : Srv) : validateParents s = (s', None) -> svDB s' = svDB s.
Proof. unfold validateParents. destruct (validateMenuParentsRef _); by intros [= <-]. Qed.

Lemma migrateTables_menus (o : Options) (s s' : Srv) : migrateTables o s = (s', None) -> sameMenus (svDB s) (svDB s').
Proof.
  unfold migrateTables, whenM. destruct (oAutoMigrate o); [|by intros [= <-]].
  intros (s1 & Hx1%lift_ok%wrapErr_ok & Hx2%lift_ok%wrapErr_ok)%thenDo_ok.
  destruct (AutoMigrate_ddl "sys_schemas" (svDB s)) as (E1 & _). destruct (AutoMigrate_ddl "sys_tenants" (svDB s1)) as (E2 & _).
  rewrite Hx1 in E1. rewrite Hx2 in E2. by etransitivity.
Qed.

(** What a start leaves, for those who call it. *)
Lemma Setup_leaves (o : Options) (s s' : Srv) :
  Setup o s = (s', None) ->
  (forall m, In m (getModels (oMultiTenant o)) -> registered o m None None s')
  /\ (forall c, In c endpointPermissionCodes -> present (hasData (fst (fst c))) (svDB s'))
  /\ (oMultiTenant o = false -> (forall t db, HasTable t db = true) -> tenantPermissionsGone (svDB s')).
Proof.
  unfold Setup. destruct (negb (oRouter o)); [done|]. destruct (negb (oDB o)); [done|].
  intros (s1 & _ & (s2 & _ & (s3 & _ & (s4 & _ & (s5 & Hreg & (s6 & Hsync & (s7 & Hrm & (s8 & Hval & (s9 & Hm1
    & (s10 & Hm2 & (s11 & Hm3 & (s12 & Hm4 & Hend)%thenDo_ok)%thenDo_ok)%thenDo_ok)%thenDo_ok)%thenDo_ok)%thenDo_ok)%thenDo_ok
    )%thenDo_ok)%thenDo_ok)%thenDo_ok)%thenDo_ok)%thenDo_ok.
  apply registerAll_ok in Hreg as [_ Hreg]. apply (sync_kept o) in Hsync. apply validate_same in Hval.
  apply mount_same in Hm1, Hm2, Hm3, Hm4. apply lift_ok, wrapErr_ok in Hend.
  rewrite Hm4, Hm3, Hm2, Hm1, Hval in Hend. apply (endpoints_ok o) in Hend as (Hk & Hend & Hgone).
  assert (kept o (svDB s6) (svDB s7) /\ (oMultiTenant o = false -> (forall t db, HasTable t db = true) ->
            tenantPermissionsGone (svDB s7))) as [Hk7 Hg7].
  { unfold whenM in Hrm. destruct (oMultiTenant o) eqn:E; cbn [negb] in Hrm; [injection Hrm as <-; split; [apply kept_refl|done]|].
    apply lift_ok in Hrm. apply (remove_ok o) in Hrm as [? ?]; [|done]. by split. }
  split; [|split; [done|auto]]. intros m Hm. eapply registered_kept; [|by apply Hreg].
  eapply kept_trans; [exact Hsync|]. by eapply kept_trans.
Qed.

Lemma Setup_menus (o : Options) (s s' : Srv) :
  Setup o s = (s', None) -> oMultiTenant o = false -> (length (tenantMenus (svDB s)) <= 1)%nat -> tenantMenus (svDB s') = [].
Proof.
  unfold Setup. destruct (negb (oRouter o)); [done|]. destruct (negb (oDB o)); [done|].
  intros (s1 & Hi1 & (s2 & Hi2 & (s3 & Hi3 & (s4 & Hi4 & (s5 & Hreg & (s6 & Hsync & (s7 & Hrm & (s8 & Hval & (s9 & Hm1
    & (s10 & Hm2 & (s11 & Hm3 & (s12 & Hm4 & Hend)%thenDo_ok)%thenDo_ok)%thenDo_ok)%thenDo_ok)%thenDo_ok)%thenDo_ok)%thenDo_ok
    )%thenDo_ok)%thenDo_ok)%thenDo_ok)%thenDo_ok)%thenDo_ok Hsingle Hone.
  rewrite Hsingle in Hi1, Hreg, Hrm. injection Hi1 as <-. injection Hi2 as <-. apply audit_same in Hi3. cbn [svDB] in Hi3.
  apply migrateTables_menus in Hi4. apply registerAll_tenant in Hreg. apply sync_menus in Hsync. apply validate_same in Hval.
  apply mount_same in Hm1, Hm2, Hm3, Hm4. apply lift_ok, wrapErr_ok, endpoints_menus in Hend.
  cbn [negb whenM] in Hrm. apply lift_ok, remove_menu in Hrm.
  - unfold tenantMenus, sameMenus in *. by rewrite Hend, Hm4, Hm3, Hm2, Hm1, Hval.
  - replace (tenantMenus (svDB s6)) with (tenantMenus (svDB s)); [done|].
    unfold tenantMenus, sameMenus in *. by rewrite Hsync, Hreg, Hi4, Hi3.
Qed.

(** C29. A start that succeeds brings any database to the catalog of the program: each
    built-in model has its menu row and a permission row for every scenario it
    mounts, each built-in route has its permission row, counting rows an operator
    soft-deleted. In single-tenant mode the menu of the tenant resource is gone where
    there was at most one row of it (only the first is deleted), and, on a database that
    has the two tables, so are its permissions and the grants of them. *)
Theorem Setup_converges (o : Options) (s s' : Srv) :
  Setup o s = (s', None) ->
  (forall m, In m (getModels (oMultiTenant o)) -> registered o m None None s')
  /\ (forall c, In c endpointPermissionCodes -> present (hasData (fst (fst c))) (svDB s'))
  /\ (oMultiTenant o = false -> (length (tenantMenus (svDB s)) <= 1)%nat ->
      forall m, In m (allRows (svDB s')) -> hasIdentity tenantManagementMenuIdentity m = false)
  /\ (oMultiTenant o = false -> (forall t db, HasTable t db = true) -> tenantPermissionsGone (svDB s')).
Proof.
  intros Hok. pose proof (Setup_menus _ _ _ Hok) as Hm. apply Setup_leaves in Hok as (Hreg & Hend & Hgone).
  split; [done|]. split; [done|]. split; [|done]. intros Hs Hone m Hin. apply not_true_iff_false. intros Hid.
  assert (In m (tenantMenus (svDB s'))) as Hx by (by apply List.filter_In). by rewrite Hm in Hx.
Qed.

End Setup.

(** ** A concrete start *)

#[export] Instance SeedTables_allP : GormUnscoped SeedTables Permission := tableUnscoped sdPerms.
#[export] Instance SeedTables_allG : GormUnscoped SeedTables RolePermission := tableUnscoped sdGrants.
#[export] Instance SeedTables_allP_laws : GormUnscopedLaws SeedTables Permission.
Proof. by apply tableUnscoped_laws. Qed.
#[export] Instance SeedTables_Menu_hard : GormHard SeedTables Menu := tableHard sdMenus (fun l t => mkSeedTables l (sdPerms t) (sdTenants t) (sdRoles t) (sdUsers t) (sdGrants t) (sdSchemas t)).
#[export] Instance SeedTables_Menu_hard_laws : GormHardLaws SeedTables Menu.
Proof. by apply tableHard_laws. Qed.
#[export] Instance SeedTables_Permission_hard : GormHard SeedTables Permission := tableHard sdPerms (fun l t => mkSeedTables (sdMenus t) l (sdTenants t) (sdRoles t) (sdUsers t) (sdGrants t) (sdSchemas t)).
#[export] Instance SeedTables_Permission_hard_laws : GormHardLaws SeedTables Permission.
Proof. by apply tableHard_laws. Qed.
#[export] Instance SeedTables_RolePermission_hard : GormHard SeedTables RolePermission := tableHard sdGrants (fun l t => mkSeedTables (sdMenus t) (sdPerms t) (sdTenants t) (sdRoles t) (sdUsers t) l (sdSchemas t)).
#[export] Instance SeedTables_RolePermission_hard_laws : GormHardLaws SeedTables RolePermission.
Proof. by apply tableHard_laws. Qed.
#[export] Instance SeedTables_Permission_Menu_all : GormFrameAll SeedTables Permission Menu.
Proof. by apply tableGorm_frame_all. Qed.
#[export] Instance SeedTables_RolePermission_Menu_all : GormFrameAll SeedTables RolePermission Menu.
Proof. by apply tableGorm_frame_all. Qed.
#[export] Instance SeedTables_SchemaRow_Menu_all : GormFrameAll SeedTables SchemaRow Menu.
Proof. by apply tableGorm_frame_all. Qed.
#[export] Instance SeedTables_Menu_Permission_all : GormFrameAll SeedTables Menu Permission.
Proof. by apply tableGorm_frame_all. Qed.
#[export] Instance SeedTables_RolePermission_Permission_all : GormFrameAll SeedTables RolePermission Permission.
Proof. by apply tableGorm_frame_all. Qed.
#[export] Instance SeedTables_SchemaRow_Permission_all : GormFrameAll SeedTables SchemaRow Permission.
Proof. by apply tableGorm_frame_all. Qed.
#[export] Instance SeedTables_Permission_RolePermission_all : GormFrameAll SeedTables Permission RolePermission.
Proof. by apply tableGorm_frame_all. Qed.
#[export] Instance SeedTables_Permission_Menu_hard : GormHardFrame SeedTables Permission Menu.
Proof. by apply tableHard_frame. Qed.
#[export] Instance SeedTables_RolePermission_Menu_hard : GormHardFrame SeedTables RolePermission Menu.
Proof. by apply tableHard_frame. Qed.
#[export] Instance SeedTables_Menu_Permission_hard : GormHardFrame SeedTables Menu Permission.
Proof. by apply tableHard_frame. Qed.
#[export] Instance SeedTables_RolePermission_Permission_hard : GormHardFrame SeedTables RolePermission Permission.
Proof. by apply tableHard_frame. Qed.
#[export] Instance SeedTables_Permission_RolePermission_hard : GormHardFrame SeedTables Permission RolePermission.
Proof. by apply tableHard_frame. Qed.

(** Routes in the style of rest/v3, for the models of the system module; DDL that does
    nothing; no application models. *)
Definition demoSingular (t : string) : string := String.substring 0 (String.length t - 1) t.
Definition demoUri (m : AdminModel Empty_set) (sc : string) : string * string :=
  let t := default EmptyString (builtinTable m) in
  let one := "system/" +:+ demoSingular t in
  if String.eqb sc "create" then ("POST", one)
  else if String.eqb sc "update" then ("PUT", one +:+ "/:id")
  else if String.eqb sc "delete" then ("DELETE", one +:+ "/:id")
  else if String.eqb sc "search" then ("GET", "system/" +:+ t)
  else if String.eqb sc "detail" then ("GET", one +:+ "/detail/:id")
  else ("GET", one +:+ "/export").
Definition demoHas (_ : AdminModel Empty_set) (l : option (list string)) (sc : string) : bool :=
  match l with Some l => strIn sc l | None => true end.

Definition demoSetup : Options -> Server Empty_set SeedTables -> Server Empty_set SeedTables * option error :=
  Setup "create" "update" "delete" "search" "detail" "export" (fun _ _ db => (db, None)) demoSingular demoHas demoUri
    (fun _ => true) (fun _ db => (db, None)) (fun _ _ => true) (fun _ => "model") (Empty_set_rect _).

Definition blankTables : SeedTables := mkSeedTables [] [] [] [] [] [] [].
Definition startOf (db : SeedTables) : Server Empty_set SeedTables := mkServer db ∅ [] [] [] [].
Definition demoOptions (multiTenant : bool) : Options := mkOptions true true multiTenant true true true.
Definition afterStart (multiTenant : bool) (db : SeedTables) : SeedTables := svDB (fst (demoSetup (demoOptions multiTenant) (startOf db))).

(** The identity the clean-up looks for, and its permissions, are those the tenant model
    derives. *)
Example tenant_identity_derived :
  let r := resourceOf "search" "detail" "export" demoSingular demoHas demoUri (Empty_set_rect _) MdTenant in
  option_map (fun spec => hasIdentity tenantManagementMenuIdentity (menuRow spec)) (menuSpecFor None r) = Some true
  /\ map (fun sc => fst (fst (codeOf "create" "update" "delete" "search" "detail" "export" r sc)))
       ["create"; "update"; "delete"; "search"; "detail"; "export"] = tenantResourcePermissionData.
Proof. split; vm_compute; reflexivity. Qed.

(** Nine menus and all codes with tenants; back in single-tenant mode the tenant's menu
    and its six codes are gone; and a start with tenants makes them again. *)
Example Setup_modes :
  let counts := fun db => (length (sdMenus db), length (sdPerms db)) in
  counts (afterStart true blankTables) = (9, 59)%nat
  /\ counts (afterStart false (afterStart true blankTables)) = (8, 53)%nat
  /\ counts (afterStart true (afterStart false (afterStart true blankTables))) = (9, 59)%nat.
Proof. vm_compute. auto. Qed.

Lemma Setup_converges_witness :
  (forall c, In c endpointPermissionCodes -> present (hasData (fst (fst c))) (afterStart false (afterStart true blankTables)))
  /\ (forall m, In m (allRows (afterStart false (afterStart true blankTables))) -> hasIdentity tenantManagementMenuIdentity m = false)
  /\ tenantPermissionsGone (afterStart false (afterStart true blankTables)).
Proof.
  pose proof (Setup_converges "create" "update" "delete" "search" "detail" "export" (fun _ _ db => (db, None)) demoSingular demoHas demoUri
    (fun _ => true) (fun _ db => (db, None)) (fun _ _ => true) (fun _ => "model") (Empty_set_rect _)
    (fun _ _ => conj eq_refl (conj eq_refl eq_refl)) (fun _ _ _ => conj eq_refl (conj eq_refl eq_refl))
    (demoOptions false) (startOf (afterStart true blankTables)) (fst (demoSetup (demoOptions false) (startOf (afterStart true blankTables))))) as Hs.
  destruct Hs as (_ & He & Hm & Hg); [vm_compute; reflexivity|]. split; [exact He|]. split; [|exact (Hg eq_refl (fun _ _ => eq_refl))].
  apply (Hm eq_refl). vm_compute. auto.
Defined.
