(* ===== verification/ServiceOptions.v ===== *)
(** [admin/service]: the options of the administration services and their constructors:
    what a service is built on, when building it panics, and which cache its entries go
    through. *)

From Stdlib Require Import ZArith Lia String Ascii List Bool.
From stdpp Require Import base tactics list strings.
From S2P Require Import Prelude GoStrings Errs Options.

Local Open Scope string_scope.
Local Open Scope list_scope.

(** A [dbcache.Cacher] goes through the cache it is given, or through a memory of its own. *)
Inductive backend (C : Type) : Type := Given (c : C) | OwnMemory.
Arguments Given {C} _.
Arguments OwnMemory {C}.

(** [if o.Cache != nil { append(opts, dbcache.WithCache(o.Cache)) }] *)
Definition through {C : Type} (cache : option C) : backend C := match cache with Some c => Given c | None => OwnMemory end.

(** A constructor's panic is its message. *)
Definition built (A : Type) : Type := result string A.

(** ** user.go *)

Module User.
Section Params.
Context {Db C : Type}.

Record UserServiceOptions : Type := mkOptions { DB : option Db; Cache : option C }.
Inductive UserServiceOption : Type := WithUserServiceDB (db : option Db) | WithUserServiceCache (c : option C).
Definition apply (x : UserServiceOption) (o : UserServiceOptions) : UserServiceOptions :=
  match x with
  | WithUserServiceDB db => mkOptions db (Cache o)
  | WithUserServiceCache c => mkOptions (DB o) c
  end.

Record UserService : Type := mkService { opts : UserServiceOptions; grantsCacher : Db * backend C }.

Definition NewUserService (cbs : list UserServiceOption) : built UserService :=
  let o := applyAll apply cbs (mkOptions None None) in
  match DB o with
  | None => Err "admin: NewUserService requires WithUserServiceDB"
  | Some db => Ok (mkService o (db, through (Cache o)))
  end.
End Params.
End User.

(** ** role.go *)

Module Role.
Section Params.
Context {Db C : Type}.

Record RoleServiceOptions : Type := mkOptions { DB : option Db; Cache : option C }.
Inductive RoleServiceOption : Type := WithRoleServiceDB (db : option Db) | WithRoleServiceCache (c : option C).
Definition apply (x : RoleServiceOption) (o : RoleServiceOptions) : RoleServiceOptions :=
  match x with
  | WithRoleServiceDB db => mkOptions db (Cache o)
  | WithRoleServiceCache c => mkOptions (DB o) c
  end.

(** Without a database there are no cachers, and the methods read directly. *)
Record RoleService : Type := mkService { opts : RoleServiceOptions; grantsCacher : option (Db * backend C); rolesCacher : option (Db * backend C) }.

Definition NewRoleService (cbs : list RoleServiceOption) : RoleService :=
  let o := applyAll apply cbs (mkOptions None None) in
  match DB o with
  | None => mkService o None None
  | Some db => mkService o (Some (db, through (Cache o))) (Some (db, through (Cache o)))
  end.
End Params.
End Role.

(** ** menu.go *)

Module Menu.
Section Params.
Context {Db C : Type}.

Record MenuServiceOptions : Type := mkOptions { DB : option Db; Cache : option C }.
Inductive MenuServiceOption : Type := WithMenuServiceDB (db : option Db) | WithMenuServiceCache (c : option C).
Definition apply (x : MenuServiceOption) (o : MenuServiceOptions) : MenuServiceOptions :=
  match x with
  | WithMenuServiceDB db => mkOptions db (Cache o)
  | WithMenuServiceCache c => mkOptions (DB o) c
  end.

Record MenuService : Type := mkService { opts : MenuServiceOptions; menusCacher : option (Db * backend C) }.

Definition NewMenuService (cbs : list MenuServiceOption) : MenuService :=
  let o := applyAll apply cbs (mkOptions None None) in
  mkService o (match DB o with Some db => Some (db, through (Cache o)) | None => None end).
End Params.
End Menu.

(** ** tenant.go, permission.go *)

Module Tenant.
Section Params.
Context {Db : Type}.
Record TenantServiceOptions : Type := mkOptions { DB : option Db }.
Inductive TenantServiceOption : Type := WithTenantServiceDB (db : option Db).
Definition apply (x : TenantServiceOption) (o : TenantServiceOptions) : TenantServiceOptions :=
  match x with WithTenantServiceDB db => mkOptions db end.
Definition NewTenantService (cbs : list TenantServiceOption) : TenantServiceOptions := applyAll apply cbs (mkOptions None).
End Params.
End Tenant.

Module Permission.
Section Params.
Context {Db : Type}.
Record PermissionServiceOptions : Type := mkOptions { DB : option Db }.
Inductive PermissionServiceOption : Type := WithPermissionServiceDB (db : option Db).
Definition apply (x : PermissionServiceOption) (o : PermissionServiceOptions) : PermissionServiceOptions :=
  match x with WithPermissionServiceDB db => mkOptions db end.
Definition NewPermissionService (cbs : list PermissionServiceOption) : PermissionServiceOptions := applyAll apply cbs (mkOptions None).
End Params.
End Permission.

(** ** auth.go, login_log.go *)

Module Auth.
Section Params.
Context {Db Store Before After LoginLog : Type}.

Record AuthServiceOptions : Type := mkOptions {
  DB : option Db;
  TokenExpireSeconds : Z;
  BeforeLogin : option Before;
  AfterLogin : option After;
  TokenStore : option Store;
  AuthSecret : string;
  LoginLogFunc : option LoginLog;
}.

Inductive AuthServiceOption : Type :=
| WithAuthServiceDB (db : option Db)
| WithAuthSecret (secret : string)
| WithTokenExpireSeconds (seconds : Z)
| WithTokenStore (store : option Store)
| WithBeforeLogin (fn : option Before)
| WithAfterLogin (fn : option After)
| WithLoginLogger (fn : option LoginLog).

Definition apply (x : AuthServiceOption) (o : AuthServiceOptions) : AuthServiceOptions :=
  match x with
  | WithAuthServiceDB db => mkOptions db (TokenExpireSeconds o) (BeforeLogin o) (AfterLogin o) (TokenStore o) (AuthSecret o) (LoginLogFunc o)
  | WithAuthSecret secret => mkOptions (DB o) (TokenExpireSeconds o) (BeforeLogin o) (AfterLogin o) (TokenStore o) secret (LoginLogFunc o)
  | WithTokenExpireSeconds seconds => mkOptions (DB o) seconds (BeforeLogin o) (AfterLogin o) (TokenStore o) (AuthSecret o) (LoginLogFunc o)
  | WithTokenStore store => mkOptions (DB o) (TokenExpireSeconds o) (BeforeLogin o) (AfterLogin o) store (AuthSecret o) (LoginLogFunc o)
  | WithBeforeLogin fn => mkOptions (DB o) (TokenExpireSeconds o) fn (AfterLogin o) (TokenStore o) (AuthSecret o) (LoginLogFunc o)
  | WithAfterLogin fn => mkOptions (DB o) (TokenExpireSeconds o) (BeforeLogin o) fn (TokenStore o) (AuthSecret o) (LoginLogFunc o)
  | WithLoginLogger fn => mkOptions (DB o) (TokenExpireSeconds o) (BeforeLogin o) (AfterLogin o) (TokenStore o) (AuthSecret o) fn
  end.

Definition defaultTokenExpireSeconds : Z := 2 * 60 * 60.

Record AuthService : Type := mkService { opts : AuthServiceOptions; secretKey : string }.

Variable NewMemoryTokenStore : Store.

Definition NewAuthService (cbs : list AuthServiceOption) : built AuthService :=
  let o := applyAll apply cbs (mkOptions None 0 None None None EmptyString None) in
  match DB o with
  | None => Err "admin: NewAuthService requires WithAuthServiceDB"
  | Some _ =>
      if String.eqb (AuthSecret o) EmptyString then Err "admin: NewAuthService requires a non-empty WithAuthSecret"
      else
        let o := if (TokenExpireSeconds o <=? 0)%Z then apply (WithTokenExpireSeconds defaultTokenExpireSeconds) o else o in
        let o := match TokenStore o with None => apply (WithTokenStore (Some NewMemoryTokenStore)) o | Some _ => o end in
        Ok (mkService o (AuthSecret o))
  end.
End Params.
End Auth.

(** ** What a list of options comes to *)

Section Auth.
Context {Db Store Before After LoginLog : Type}.
Variable memory : Store.
Notation Opt := (@Auth.AuthServiceOption Db Store Before After LoginLog).

Definition setsDB (x : Opt) : option (option Db) := match x with Auth.WithAuthServiceDB db => Some db | _ => None end.
Definition setsSecret (x : Opt) : option string := match x with Auth.WithAuthSecret s => Some s | _ => None end.
Definition setsSeconds (x : Opt) : option Z := match x with Auth.WithTokenExpireSeconds n => Some n | _ => None end.
Definition setsStore (x : Opt) : option (option Store) := match x with Auth.WithTokenStore s => Some s | _ => None end.

(** The service of a list of options: it is built exactly when the last database is one
    and the last secret is not empty; it signs with that secret; its tokens live for
    the last number of seconds that was set, if it is positive, and for two hours
    otherwise; and it always has a store to revoke tokens in. *)
Theorem NewAuthService_built (cbs : list Opt) :
  let db := default None (last (omap setsDB cbs)) in
  let secret := default EmptyString (last (omap setsSecret cbs)) in
  let seconds := default 0%Z (last (omap setsSeconds cbs)) in
  match Auth.NewAuthService memory cbs with
  | Err _ => db = None \/ secret = EmptyString
  | Ok s =>
      db <> None /\ secret <> EmptyString
      /\ Auth.DB (Auth.opts s) = db /\ Auth.secretKey s = secret
      /\ Auth.TokenExpireSeconds (Auth.opts s) = (if (seconds <=? 0)%Z then Auth.defaultTokenExpireSeconds else seconds)
      /\ Auth.TokenStore (Auth.opts s) = Some (default memory (default None (last (omap setsStore cbs))))
  end.
Proof.
  cbv zeta. unfold Auth.NewAuthService. set (o := applyAll Auth.apply cbs _).
  assert (Auth.DB o = default None (last (omap setsDB cbs))) as <- by (apply (applyAll_last Auth.apply Auth.DB); by intros []).
  assert (Auth.AuthSecret o = default EmptyString (last (omap setsSecret cbs))) as <- by (apply (applyAll_last Auth.apply Auth.AuthSecret); by intros []).
  assert (Auth.TokenExpireSeconds o = default 0%Z (last (omap setsSeconds cbs))) as <- by (apply (applyAll_last Auth.apply Auth.TokenExpireSeconds); by intros []).
  assert (Auth.TokenStore o = default None (last (omap setsStore cbs))) as <- by (apply (applyAll_last Auth.apply Auth.TokenStore); by intros []).
  destruct (Auth.DB o) as [d|] eqn:Ed; [|by left]. destruct (String.eqb_spec (Auth.AuthSecret o) EmptyString) as [Es|Es]; [by right|].
  destruct (Auth.TokenExpireSeconds o <=? 0)%Z eqn:Et; cbn [Auth.apply Auth.TokenStore Auth.opts Auth.secretKey];
    destruct (Auth.TokenStore o) eqn:Est; cbn; rewrite ?Ed, ?Es, ?Est; done.
Qed.
End Auth.

(** Services that are given one cache share it; those that are given none keep their
    entries to themselves; and of the services that read a database only the user
    service insists on one. *)
Theorem services_share {Db C : Type} (db : Db) (cache : option C) :
  let user := User.NewUserService [User.WithUserServiceDB (Some db); User.WithUserServiceCache cache] in
  let role := Role.NewRoleService [Role.WithRoleServiceDB (Some db); Role.WithRoleServiceCache cache] in
  let menu := Menu.NewMenuService [Menu.WithMenuServiceDB (Some db); Menu.WithMenuServiceCache cache] in
  (exists s, user = Ok s /\ User.grantsCacher s = (db, through cache))
  /\ Role.grantsCacher role = Some (db, through cache) /\ Role.rolesCacher role = Some (db, through cache)
  /\ Menu.menusCacher menu = Some (db, through cache)
  /\ is_ok (User.NewUserService [User.WithUserServiceCache cache] : built (@User.UserService Db C)) = false
  /\ Role.grantsCacher (Role.NewRoleService [Role.WithRoleServiceCache cache] : @Role.RoleService Db C) = None
  /\ Menu.menusCacher (Menu.NewMenuService [Menu.WithMenuServiceCache cache] : @Menu.MenuService Db C) = None.
Proof. cbv zeta. split; [by eexists|]. done. Qed.
