(* ===== verification/Mock.v ===== *)
(** [admin/cmd/mock]: the example server: its environment, its options, and the start of
    the administration module in it. *)

From Stdlib Require Import ZArith Lia String Ascii List Bool.
From stdpp Require Import base tactics list gmap strings.
From S2P Require Import Prelude GoStrings Errs AdminClaims Cache DbCache PermissionChecker MenuService UserService Gorm UserModel RoleModel Menus Derive RoleService Seed Setup HttpCors Options AuthService AdminHttp RateLimit MemoryLimiter AdminApi.

Local Open Scope string_scope.
Local Open Scope list_scope.

(** ** The environment *)

Section Environment.
Variable Getenv : string -> string.

Definition defaultJWTSecret : string := "change-me".
Definition defaultAdminUser : string := "admin".
Definition defaultAdminPass : string := "Admin123".
Definition defaultDBPath : string := "./mock.db".

Definition envOr (key fallback : string) : string :=
  let v := Getenv key in if negb (String.eqb v EmptyString) then v else fallback.
Definition JWTSecret : string := envOr "JWT_SECRET" defaultJWTSecret.
Definition AdminUser : string := envOr "ADMIN_USER" defaultAdminUser.
Definition AdminPassword : string := envOr "ADMIN_PASSWORD" defaultAdminPass.
Definition dbPath : string := envOr "AEUS_DB_PATH" defaultDBPath.

(** The environment the server is made in: [main] sets the port where there is none. *)
Definition mainEnv (key : string) : string :=
  if String.eqb key "HTTP_PORT" && String.eqb (Getenv "HTTP_PORT") EmptyString then "8080" else Getenv key.
End Environment.

Lemma envOr_nonempty (Getenv : string -> string) (key fallback : string) : fallback <> EmptyString -> envOr Getenv key fallback <> EmptyString.
Proof. unfold envOr. intros Hf. destruct (String.eqb_spec (Getenv key) EmptyString); done. Qed.

(** ** The options *)

Section Wiring.
Context {Handler Logger Ctx GinOption : Type}.

Definition mockCORS : CORSConfig := mkCORS ["http://localhost:5173"] [] [] [] false 0.

Definition httpOptions : list (@Http.Option Handler Logger Ctx GinOption) :=
  [Http.WithCORS mockCORS; Http.WithEnableHealth true; Http.WithDebugAddr "127.0.0.1:6060"].

(** The server of the example: the port of the environment, health endpoints, no
    profiling whatever its address says, for which debugging would have to be on. *)
Example mock_http (Getenv : string -> string) (o : Http.options) :
  Http.newOptions (mainEnv Getenv "HTTP_PORT") httpOptions = Some o ->
  Http.enableHealth o = true /\ Http.cors o = Some mockCORS /\ Http.debugAddr o = "127.0.0.1:6060" /\ Http.debug o = false.
Proof. unfold Http.newOptions. destruct (portAddress _); [|done]. by intros [= <-]. Qed.

Context {DB_ Resolver Router_ Responder_ Logger_ ResolveUser : Type}.

Definition adminOptions (db : DB_) (router : option Router_) : list (@Admin.Option DB_ Resolver Router_ Responder_ Logger_ ResolveUser) :=
  [Admin.WithDB (Some db); Admin.WithOpenAPI true; Admin.WithRouter router; Admin.WithAudit true; Admin.WithMultiTenant true].

(** [ScopeContext.Init]: the database that opens, and the module over it. *)
Definition scopeInit (Open : string -> result error DB_) (Getenv : string -> string) (std : Responder_) (lg : Logger_) (res : Resolver)
    (user : ResolveUser) (router : option Router_) : result error Admin.options :=
  match Open (dbPath Getenv) with
  | Err e => Err e
  | Ok db => Ok (Admin.newOptions std lg res user (adminOptions db router))
  end.

(** What of the options [Setup] looks at. *)
Definition setupOptions (o : @Admin.options DB_ Resolver Router_ Responder_ Logger_ ResolveUser) : Setup.Options :=
  Setup.mkOptions (bool_decide (is_Some (Admin.Router o))) (bool_decide (is_Some (Admin.DB o))) (Admin.MultiTenant o)
    (bool_decide (is_Some (Admin.TenantResolver o))) (Admin.AuditEnabled o) (Admin.AutoMigrate o).

(** The example is multi-tenant and audited, and migrates its tables. *)
Lemma scopeInit_options (Open : string -> result error DB_) (Getenv : string -> string) (std : Responder_) (lg : Logger_) (res : Resolver)
    (user : ResolveUser) (router : option Router_) (o : Admin.options) :
  scopeInit Open Getenv std lg res user router = Ok o ->
  setupOptions o = Setup.mkOptions (bool_decide (is_Some router)) true true true true true.
Proof. unfold scopeInit. destruct (Open _) as [db|e]; [|done]. intros [= <-]. reflexivity. Qed.
End Wiring.

(** ** The shared cache *)

(** What the services keep in the one cache they are given: each is of a type of its own. *)
Inductive sharedEntry : Type :=
| KCatalog | KGrants (tenant role : string)
| KTree | KMenus | KBreadcrumb (id : Z)
| KVisible (claims : Claims) | KCodes (claims : Claims)
| KRolePermissions (tenant role : string) | KRoleOptions (tenant : string).

Definition keyOf (k : sharedEntry) : string :=
  match k with
  | KCatalog => catalogKey
  | KGrants tenant role => grantKey tenant role
  | KTree => "menu:tree"
  | KMenus => "menu:all"
  | KBreadcrumb id => breadcrumbKey id
  | KVisible claims => visibleKey claims
  | KCodes claims => codesKey claims
  | KRolePermissions tenant role => rolePermissionsKey tenant role
  | KRoleOptions tenant => roleOptionsKey tenant
  end.

Definition kind (k : sharedEntry) : nat :=
  match k with
  | KCatalog => 0 | KGrants _ _ => 1 | KTree => 2 | KMenus => 3 | KBreadcrumb _ => 4 | KVisible _ => 5 | KCodes _ => 6
  | KRolePermissions _ _ => 7 | KRoleOptions _ => 8
  end.

(** No two services can meet in the shared cache, whatever the tenants and roles are called:
    a key is of one kind of entry only. *)
Lemma shared_cache_apart (k k' : sharedEntry) : keyOf k = keyOf k' -> kind k = kind k'.
Proof.
  unfold keyOf, catalogKey, grantKey, breadcrumbKey, visibleKey, codesKey, rolePermissionsKey, roleOptionsKey.
  destruct k, k'; cbn; intros E; first [reflexivity|discriminate E].
Qed.

(** ** The start *)

Section Loader.

Context {App DB Salt : Type} `{GormLaws DB Menu} `{!GormUnscoped DB Menu} `{!GormUnscopedLaws DB Menu} `{!GormHard DB Menu}
  `{GormLaws DB Permission} `{!GormUnscoped DB Permission} `{!GormUnscopedLaws DB Permission} `{!GormHard DB Permission}
  `{GormLaws DB RolePermission} `{!GormUnscoped DB RolePermission} `{!GormHard DB RolePermission}
  `{GormLaws DB SchemaRow} `{GormLaws DB Tenant} `{GormLaws DB Role} `{GormLaws DB User} `{Gorm DB LoginLog}.

Variables ScenarioCreate ScenarioUpdate ScenarioDelete ScenarioSearch ScenarioDetail ScenarioExport : string.
Variable NewResource : AdminModel App -> ResourceConfig (list string) -> DB -> DB * option error.
Variable singularOf : string -> string.
Variable HasScenario : AdminModel App -> option (list string) -> string -> bool.
Variable BuildUriOf : AdminModel App -> string -> string * string.
Variable modelHasTenantIDColumn : AdminModel App -> bool.
Variable AutoMigrate : string -> DB -> DB * option error.
Variable HasTable : string -> DB -> bool.
Variable typeName : AdminModel App -> string.
Variable appResource : App -> Resource.
Variable GenerateFromPassword : Salt -> string -> result error string.
Variable Getenv : string -> string.

(** The http server, as far as the start changes it: the routes of the RPCs and the
    middlewares with their configuration, in the order they are added. *)
Inductive Use : Type :=
| UseRateLimit (opts : RateLimitOpts) (refill : float64)
| UseJWT (secret : string) (checker : checkerConfig) (allow : list string).
Record Router : Type := mkRouter { routes : list Route; uses : list Use }.
Definition addRoutes (l : list Route) (h : Router) : Router := mkRouter (routes h ++ l) (uses h).
Definition use (u : Use) (h : Router) : Router := mkRouter (routes h) (uses h ++ [u]).

(** The login logger: successful logins only, and a failure to write is ignored. *)
Definition loginLog (info : LoginLogInfo) (db : DB) : DB :=
  if negb (llSuccess info) then db
  else fst (Create [mkLoginLog (mkTenantModel (mkBase 0 0 0 None) (llTenantID info)) (llUID info) (llIP info) EmptyString EmptyString
                      EmptyString (llAccessToken info) (llUserAgent info)] db).

(** [s.scope.Admin().Setup(ctx)] *)
Definition setup (o : Setup.Options) (s : Server App DB) : Server App DB * option error :=
  Setup ScenarioCreate ScenarioUpdate ScenarioDelete ScenarioSearch ScenarioDetail ScenarioExport NewResource singularOf HasScenario
    BuildUriOf modelHasTenantIDColumn AutoMigrate HasTable typeName appResource o s.

(** [admin.Seed(db, AdminUser(), AdminPassword())], called after [Setup], which has
    switched on the tenant scope of a multi-tenant server. *)
Definition seed (o : Setup.Options) (salt : Salt) (s : Server App DB) : DB * option error :=
  Seed GenerateFromPassword (oMultiTenant o) salt (AdminUser Getenv) (AdminPassword Getenv) (svDB s).

(** [ServiceLoader.Init] *)
Definition Init (o : Setup.Options) (salt : Salt) (s : Server App DB) (h : Router) : Server App DB * Router * option error :=
  match setup o s with
  | (s, Some err) => (s, h, Some err)
  | (s, None) =>
      let h := addRoutes RegisterAuthServiceRouter h in
      let h := use (UseRateLimit loginLimit perMinute) h in
      let h := use (UseJWT (JWTSecret Getenv) checkerCfg mockAllow) h in
      let h := addRoutes RegisterUserServiceRouter h in
      let h := addRoutes RegisterRoleServiceRouter h in
      let h := addRoutes RegisterPermissionServiceRouter h in
      let h := addRoutes RegisterMenuServiceRouter h in
      let h := addRoutes RegisterTenantServiceRouter h in
      let '(db, err) := seed o salt s in
      (withDB s db, h, err)
  end.

Context `{!GormHardLaws DB Menu} `{!GormHardLaws DB Permission} `{!GormHardLaws DB RolePermission}.
Context `{!GormFrameAll DB Permission Menu} `{!GormFrameAll DB RolePermission Menu} `{!GormFrameAll DB SchemaRow Menu}.
Context `{!GormFrameAll DB Menu Permission} `{!GormFrameAll DB RolePermission Permission} `{!GormFrameAll DB SchemaRow Permission}.
Context `{!GormFrameAll DB Permission RolePermission}.
Context `{!GormHardFrame DB Permission Menu} `{!GormHardFrame DB RolePermission Menu}.
Context `{!GormHardFrame DB Menu Permission} `{!GormHardFrame DB RolePermission Permission} `{!GormHardFrame DB Permission RolePermission}.
Context `{!GormFrame DB Tenant Role} `{!GormFrame DB Tenant User} `{!GormFinds DB User} `{!GormFrame DB Menu User} `{!GormFrame DB Role Tenant} `{!GormFrame DB Role User} `{!GormFrame DB User Tenant} `{!GormFrame DB User Role}.
Context `{!GormFrame DB RolePermission Menu} `{!GormFrame DB RolePermission Permission} `{!GormFrame DB RolePermission Tenant}
  `{!GormFrame DB RolePermission Role} `{!GormFrame DB RolePermission User}.
Context `{!GormFrame DB SchemaRow Menu} `{!GormFrame DB SchemaRow Permission} `{!GormFrame DB SchemaRow Tenant}
  `{!GormFrame DB SchemaRow Role} `{!GormFrame DB SchemaRow User} `{!GormFrame DB SchemaRow RolePermission}.
Hypothesis AutoMigrate_ddl : forall t, ddl (AutoMigrate t).
Hypothesis NewResource_ddl : forall m c, ddl (NewResource m c).

Lemma routes_order (u r p m t : list Route) : Permutation (u ++ r ++ p ++ m ++ t) (m ++ p ++ r ++ t ++ u).
Proof.
  rewrite (Permutation_app_comm u), <- !app_assoc. rewrite (Permutation_app_swap_app r p), (app_assoc r m), (Permutation_app_comm r m), <- app_assoc.
  rewrite (Permutation_app_swap_app p m). reflexivity.
Qed.

(** The example server is ready when its loader is through: every RPC of the
    administration API has exactly one route, behind the rate limit of the login and the
    token gate, in that order; the seeding began from the tables [Setup] left, with every seeded code
    in the catalog; there is an administrator with an account; and every super role of a
    tenant holds the whole catalog.  A loader that fails over the tables has added no
    route; one that fails over the seed has left the tables as [Setup] left them. *)
Theorem loader_ready (o : Setup.Options) (salt : Salt) (s s' : Server App DB) (h h' : Router) (err : option error) :
  Init o salt s h = (s', h', err) ->
  match err with
  | None =>
      Permutation (routes h') (routes h ++ adminRoutes) /\ uses h' = uses h ++ [UseRateLimit loginLimit perMinute; UseJWT (JWTSecret Getenv) checkerCfg mockAllow]
      /\ (exists s1, setup o s = (s1, None) /\ seed o salt s1 = (svDB s', None)
           /\ forall c, In c endpointPermissionCodes -> present (hasData (fst (fst c))) (svDB s1))
      /\ (exists role, roleSettled role (svDB s')
           /\ exists s1, setup o s = (s1, None)
              /\ accountReady GenerateFromPassword salt (AdminUser Getenv) (AdminPassword Getenv) role (svDB s1) (svDB s'))
      /\ (forall r, In r (rows (svDB s')) -> rIsSuper r = true -> rTenantID r <> EmptyString -> grantedInFull r (svDB s'))
      /\ (oMultiTenant o = true -> schemasCloned (svDB s'))
  | Some e =>
      (setup o s = (s', Some e) /\ h' = h)
      \/ (exists s1, setup o s = (s1, None) /\ s' = withDB s1 (svDB s1)
           /\ forall c, In c endpointPermissionCodes -> present (hasData (fst (fst c))) (svDB s1))
  end.
Proof.
  unfold Init. destruct (setup o s) as [s1 [e|]] eqn:Es; [intros [= <- <- <-]; by left|].
  destruct (Setup_leaves _ _ _ _ _ _ _ _ _ _ _ _ _ _ _ AutoMigrate_ddl NewResource_ddl o s s1 Es) as (_ & Hcodes & _).
  destruct (seed o salt s1) as [db e] eqn:Ed. pose proof (Seed_leaves _ _ _ _ _ _ _ _ Ed) as Hd. intros [= <- <- <-]. destruct e as [e|].
  - right. exists s1. split_and!; [done|by rewrite Hd|exact Hcodes].
  - destruct Hd as ((role & Hset & Hacc & _) & _ & Hg & Hc). cbn [addRoutes use routes uses]. split; [|split; [by rewrite <- app_assoc|]].
    + rewrite <- !app_assoc. apply Permutation_app_head. unfold adminRoutes. apply Permutation_app_head.
      apply routes_order.
    + split; [by exists s1|]. split; [exists role; split; [done|by exists s1]|]. by split.
Qed.

End Loader.

(** ** A concrete start *)

Definition noEnv (_ : string) : string := EmptyString.
Definition weakPassword (key : string) : string := if String.eqb key "ADMIN_PASSWORD" then "x" else EmptyString.

Local Notation demoInit Getenv tables :=
  (Init "create" "update" "delete" "search" "detail" "export" (fun _ _ db => (db, None)) demoSingular demoHas demoUri
    (fun _ => true) (fun _ db => (db, None)) (fun _ _ => true) (fun _ => "model") (Empty_set_rect _) demoHash Getenv
    (demoOptions true) "salt" (startOf tables) (mkRouter [] [])).

(** A start on blank tables, and one with a password the policy refuses: the tables keep
    what [Setup] wrote, the routes are there, and the process ends with the error. *)
Example starts :
  let shape r := (length (routes (snd (fst r))), uses (snd (fst r)), length (sdPerms (svDB (fst (fst r)))),
                  length (sdUsers (svDB (fst (fst r)))), match snd r with Some _ => true | None => false end) in
  (shape (demoInit noEnv blankTables), shape (demoInit weakPassword blankTables))
  = ((22, [UseRateLimit loginLimit perMinute; UseJWT "change-me" checkerCfg mockAllow], 59, 1, false),
     (22, [UseRateLimit loginLimit perMinute; UseJWT "change-me" checkerCfg mockAllow], 59, 0, true))%nat.
Proof. by vm_compute. Qed.

Lemma loader_ready_witness :
  let r := demoInit noEnv blankTables in
  snd r = None
  /\ Permutation (routes (snd (fst r))) adminRoutes
  /\ (forall role, In role (sdRoles (svDB (fst (fst r)))) -> rIsSuper role = true -> rTenantID role <> EmptyString ->
       grantedInFull role (svDB (fst (fst r)))).
Proof.
  assert (forall r, demoInit noEnv blankTables = r -> snd r = None ->
            Permutation (routes (snd (fst r))) adminRoutes
            /\ (forall role, In role (sdRoles (svDB (fst (fst r)))) -> rIsSuper role = true -> rTenantID role <> EmptyString ->
                 grantedInFull role (svDB (fst (fst r))))) as Hall.
  { intros [[s h] e] E He. cbn in He. subst e.
    pose proof (loader_ready "create" "update" "delete" "search" "detail" "export" (fun _ _ db => (db, None)) demoSingular demoHas demoUri
      (fun _ => true) (fun _ db => (db, None)) (fun _ _ => true) (fun _ => "model") (Empty_set_rect _) demoHash noEnv
      (fun _ _ => conj eq_refl (conj eq_refl eq_refl)) (fun _ _ _ => conj eq_refl (conj eq_refl eq_refl))
      (demoOptions true) "salt" (startOf blankTables) s (mkRouter [] []) h None E) as (Hp & _ & _ & _ & Hg & _).
    split; [exact Hp|exact Hg]. }
  intros r. assert (snd r = None) as Hok by vm_eq. split; [exact Hok|]. exact (Hall r eq_refl Hok).
Defined.
